(* ===== verification/_CoqProject ===== *)
-Q . S2P
Prelude.v
Js.v
Numerals.v
Table.v
AuditStore.v
KeyPolicy.v
ModelPolicy.v
Crypto.v
Canonical.v
AuditLog.v
Access.v
Session.v
Auth.v
OrgTree.v
Ssrf.v
Policy.v
Roles.v
Tenancy.v
RolesApi.v
Secrets.v
Hub.v
ControlDb.v
Bindings.v
Gateway.v
Desk.v
Services.v
Litellm.v
Enroll.v
Admin.v
Lifecycle.v
Fleet.v
AdminApi.v
Regex.v
Redact.v
Tickets.v
Assets.v
Learnings.v
Work.v
Crash.v
Startup.v
Routes.v
Providers.v
Probes.v
Migrations.v
Bootstrap.v
BootstrapRun.v
Patch.v
Watchdog.v
Embed.v
I18n.v
Html.v
Views.v
Panels.v
Console.v
Caches.v
Cli.v
