(* ===== verification/Prelude.v ===== *)
(** hara-control: a model of the control plane, and what was proved of it.

    hara-control is the control plane of a fleet of coding agents. A NestJS service over PostgreSQL keeps organizations,
    administrators, enrolled devices and their tokens, digital employees with their policies, shared assets, reviewed
    learnings, feedback tickets and crash reports; it issues and revokes the keys of a model gateway (LiteLLM), connects
    devices with a Desk service, and writes every governance mutation to an audit trail. Around it are the console in the
    browser, a command line for the administrator, and the scripts that bring a deployment up. The development has one
    file per component; names are those of the source where Rocq allows it. Paths below are relative to src/.

    * The files, in the order of their dependencies

    Shared ground.
    - [Prelude]: the exceptions the services throw ([exn]), a computation that returns or throws ([res]), a computation on
      a state that keeps the state it reached when it throws ([M], as JavaScript does not roll back), [transaction],
      [try_catch], [try_finally]; text, numbers, lists; the tactics and rewrite databases.
    - [Js]: JSON values, [Number], [String], [JSON.stringify], dates as text, replacement patterns. [Numerals]: printed
      numbers read back. [Table]: tables as lists of rows with a key.
    - [Session]: a request as a sequence of database calls, see below. [AuditStore]: the class of states that can record an
      audit event, with the audited transaction; every governance service is written against it.
    - [Regex]: regular expressions as values, with the backtracking of the language.

    Security core.
    - [Crypto] (src/common/crypto.ts): base32, base64url, HS256 tokens, password records, one-time codes, canonical JSON, the
      link of the hash chain. [Canonical]: canonical JSON is injective, by unique readability of the printed text.
    - [AuditLog] (src/audit/audit.service.ts): append, the transaction with its retries, the verifier of the chain; [Hub]:
      single events, and the issuing of licences (src/license/license.ts).
    - [Access] (src/security/token-discipline.ts, src/common/admin-auth.guard.ts, src/license/, src/config/deploy.ts): the
      check of a device token, the guard of the administration, tenant checks, licences and features.
    - [Auth] (src/auth/auth.service.ts): bootstrap, login with rate limit and second factor, user management.
    - [Ssrf] (src/security/ssrf.ts): address classification, the check of a URL, the loop over redirects.
    - [Secrets] (src/security/): the local key file, envelopes, the secret store. [Redact] (src/common/redact.ts).
    - [Routes] (the controllers' decorators, src/common/admin-key.guard.ts, src/health/, src/main.ts, src/app.module.ts): which
      guards stand before which handler, the health checks, the headers of the answers.

    Organizations and digital employees.
    - [OrgTree] (src/org/org-tree.service.ts), [Policy] and [Roles] (src/roles/roles.service.ts), [Tenancy] (what the
      controllers share about rows of other organizations), [RolesApi] (src/roles/roles.controller.ts).

    Devices and the data plane.
    - [KeyPolicy] (src/gateway/key-policy.ts, src/gateway/usage.ts), [ModelPolicy] (src/providers/model-policy.ts).
    - [Gateway] (src/gateway/gateway-adapter.ts): the class [GatewayAdapter], its laws, and the adapter in memory as an
      instance; [Litellm] (src/gateway/litellm.adapter.ts) is another instance, with the laws under [EngineLaws].
    - [ControlDb]: the tables the next files share; [Services]: calls to the database, the gateway and Desk, and what each
      leaves alone. [Bindings] (src/service-bindings/), [Desk] (src/enroll/desk-provisioner.ts), [Enroll] (src/enroll/),
      [Admin] and [Fleet] (src/admin/admin.service.ts), [Lifecycle] (enrollment and revocation together), [AdminApi] (the
      controllers over Admin, Fleet and Bindings).

    What devices and operators exchange.
    - [Tickets] (src/feedback-tickets/), [Assets] (src/assets/), [Embed] (src/embed/), [Learnings] (src/learnings/), [Work]
      (src/work/), [Crash] (src/crash-reports/).

    Deployment.
    - [Startup] (scripts/with-production-env.mjs, scripts/assert-pm2-env-safe.mjs, src/config/): the environment file, the
      launcher, the check a process makes of its own environment.
    - [Providers] (src/ops/provider-secret.ts, src/providers/): the provider's credential, from the environment file to the
      supervised process; the model of files and system calls. [Bootstrap] and [BootstrapRun]
      (scripts/bootstrap-production-security.mjs): the text of the new environment file, and the run on disk. [Patch]
      (scripts/patch-litellm-deepseek-vision.mjs). [Probes] (scripts/probe-litellm-*.mjs), [Migrations]
      (scripts/recover-known-failed-migration.mjs, scripts/sync-litellm-schema.mjs), [Watchdog]
      (scripts/run-with-timeout.mjs).

    Console and command line.
    - [I18n], [Html], [Views], [Panels], [Console], [Caches] (public/console/): dictionaries; markup and its escaping; the
      templates of all views; session, router, lists and forms; what is kept between the views. [Cli] (cli/admin.ts, cli/create-superadmin.ts).

    * How the code is modelled

    - Interleaving and failure. A request is a sequence of calls ([Session.call]). Before and after each call [others n] runs,
      an arbitrary function on the tables for what other requests commit there, and [fails n] may make the call fail, in
      which case it did nothing. The code between two awaits is not interrupted. Theorems quantify over both; where they
      rely on the others they say so by a relation the others preserve ([Session.since]: rows only grow in the ways the
      program changes them), which is proved of every operation of the same component. A serializable transaction, one under an
      advisory lock, and one that only writes, is a single call; the audited transaction with its four attempts is
      [AuditLog.transact]. A transaction at the database's default isolation that reads before it writes
      ([Tickets.transition], [Assets.contribute]) is a read, the interference, and a commit from what was read.
    - Outside parties. The gateway, Desk, the alert service, the commands of a migration: the state has the log of the requests
      that left the process, and the answer is a parameter that may depend on everything sent before.
    - Files. [Providers.Disk] has names and inodes; other processes act between two system calls; a write has two parts. A
      call that fails did nothing. The launcher's [fail] and the scripts' [process.exit] are error values.
    - Tenancy. A run of a handler is a sequence of steps, some of them of others; a confined step changes no row of another
      organization. That a handler's own steps are confined is proved through the handler ([RolesApi], [AdminApi]).
    - Text is a list of 8-bit units. Where the source's text is not Latin ([I18n], [Views], [Panels], [Crash], [Cli]) it is
      UTF-8, which is only copied, or measured by a function of its own ([Cli.utf16_length]). A line ends at a line feed or
      a carriage return; the two other separators of Unicode are not line ends.
    - Numbers are exact rationals, NaN and the infinities; no theorem depends on the rounding of doubles. 32-bit operations
      ([Crypto]) are on integers with their wrap-around. Times are integers in milliseconds. Printed fractions have up to
      20 digits.
    - Objects are association lists of their own members; inherited members are not looked up.
    - Console templates take the escaping function as an argument, so that a page can be compared with the page of blank
      texts ([Panels.markup_inert]).
    - Parameters: hashes, HMAC, scrypt, AES, Ed25519; [JSON.parse], [Date.parse], URL parsing; DNS and fetch; random values and
      clocks; path resolution and links; the locale of a browser. Hypotheses on them say what is documented (a hash of
      fixed length, a parser that inverts the printer), with witnesses at concrete functions. Tamper evidence is
      stated as a collision among the texts of the very rows compared ([AuditLog.collision_at]); tenant binding as the
      cipher accepting this very envelope under the other tenant's associated data ([Secrets.accepted_elsewhere]).

    * What is proved

    - Audit: appends keep a chain verifiable, a changed history that still verifies has two rows whose hashed texts collide, the transaction is
      atomic under conflicts and refines the audited transaction of the class ([append_preserves_verify],
      [tamper_evidence], [transact_atomic], [transact_refines_audited]; [unanchored_limits] says what a chain without an
      anchor cannot show). Canonical JSON tells apart all values but those JavaScript prints as null.
    - Access: exactly which tokens are usable ([assertTokenUsable_iff]); what the guard's acceptance proves of a request
      ([canActivate_sound]), the fifteen routes that have no guard, and no other ([admin_surface_guarded]), that login
      proves every factor and wrong guesses are bounded; that confined administrators leave other organizations alone
      ([roles_stay_home], [fleet_stays_home], [bindings_stay_home]); token round trips.
    - Outbound requests: every hop was checked, and the loop ends ([safeFetch_every_hop_checked], [assertUrlAllowed_iff],
      [ipv4_classification]).
    - Secrets: what is put is got, by the tenant it was sealed for only.
    - Policies and roles: a merged policy permits a model or tool if and only if every layer does, and only tightens budgets;
      rows of one organization refer to rows of that organization; a bundle is exactly the grants of the device's role.
    - Devices: after a failed enrollment a live key has a device row it can be revoked from, and a Desk that did not confirm a
      revocation is recorded; a complete one has all its parts; a revocation fails closed, completes when repeated, and
      locks the device out, as long as no enrollment of the same device is in progress ([revocation_misses_enrolling_device]
      and [fence_broken_by_enrolling_device] say what happens otherwise); an issued key is the one requested, or accounted
      for; reports add up and never show a zero that was not measured.
    - Workflows: learnings, work sessions and crash reports keep their state machines under every interleaving; tickets and
      assets as far as their read-then-write transactions let them ([ticket_workflow], [published_is_reviewed], with
      [closed_and_reopened], [review_overtaken] and [contribution_forks] for the rest); claims are exclusive; drains and
      probes end; rates are bounded.
    - Deployment: environment files print and parse back; the launcher accepts exactly what its checks demand; the three file
      replacements are all or nothing ([scrub_all_or_nothing], [bootstrap_all_or_nothing], [transform_all_or_nothing]);
      the bootstrap is idempotent for key files and addresses that do not look like placeholders; the patch accepts exactly
      two texts and gives one ([patch_exact]); probes remove their key; schema changes happen under their guards; a command is stopped in order and at most once ([watchdog_contract]).
    - Console and command line: no text from the service decides the elements of a page; operator views need the role in
      the current profile; the last request decides a list once it is answered ([last_request_wins];
      [stale_rows_while_loading] is what is shown before), and a kept value is asked for once ([shared_once]); which of the
      enrollment form's requests the service accepts ([enroll_form_accepted]); a typed argument stays in its segment of a path ([cli_requests_confined]).

    Examples that contradict a comment, a document or an evident intention are findings; each is a lemma or an example next
    to the definition it is about.

    * Bounds and fuel

    Recursion that is not structural has a counter, and is shown not to run out of it: the retry loop has the four attempts
    of the source; the walk up the tree has the depth limit of the source, and the one down, with its limit of 4096 nodes,
    always ends ([descendants_reachable]); redirects have one step per permitted hop ([hop_fuel]; for an infinite limit, which a deployment can set,
    the result may be none, and no theorem claims otherwise); the drain of alerts has one step per attempt a
    report has left ([drain_terminates]); regular-expression replacement, the splitting of a text and the decoding of entities have one
    step per character; polling has the thirty rounds of the source.

    * Not modelled

    - Module wiring, decorators of the validation library (but for the policy of an enrollment code, [KeyPolicy.dto_policy])
      and the selection of a handler by the framework: declarations that a library interprets. The services are modelled for all values of their types, so nothing relies on a validator
      that is not in the model.
    - The generated database client, SQL execution plans, row-level policies and the SQL of the migrations.
    - The console's listeners, focus, clipboard and toasts; the vendored QR code library.
    - The shell and Python tools, the end-to-end tests and the spike under phase0/, which are other languages or test code.
    - Log lines, directories and the group of a file: they have no state here. *)
From Stdlib Require Export Ascii QArith Qround.
From stdpp Require Export base sorting pretty numbers strings gmap list.
(* stdpp's notations win over those of Q. *)
Open Scope Z_scope.
Open Scope nat_scope.
Open Scope stdpp_scope.

(** * Exceptions and results *)

Inductive exn : Type :=
  | BadRequestException (msg : string)
  | UnauthorizedException (msg : string)
  | ForbiddenException (msg : string)
  | NotFoundException (msg : string)
  | ConflictException (msg : string)
  | TooManyRequests (msg : string)
  | BadGatewayException (msg : string)
  | ServiceUnavailableException (msg : string)
  | Error (msg : string)
  | SsrfBlockedError (reason : string)
  | KmsConfigError (msg : string)
  | LiteLLMAdminHttpError (endpoint : string) (httpStatus : Z)
  | DeskProvisioningFailure (compensationConfirmed : bool) (targetUrl : string)
  | PrismaError (code : string).

Inductive res (A : Type) : Type :=
  | Ok (a : A)
  | Throw (e : exn).
Arguments Ok {A} a.
Arguments Throw {A} e.

#[export] Instance exn_eq_dec : EqDecision exn.
Proof. solve_decision. Defined.

#[export] Instance res_ret : MRet res := λ A a, Ok a.
#[export] Instance res_bind : MBind res := λ A B f m,
  match m with Ok a => f a | Throw e => Throw e end.
#[export] Instance res_fmap : FMap res := λ A B f m,
  match m with Ok a => Ok (f a) | Throw e => Throw e end.

(** [if (b) throw e;] in a computation without state. *)
Definition throw_if (b : bool) (e : exn) : res unit := if b then Throw e else Ok tt.

Definition is_ok {A} (m : res A) : bool := match m with Ok _ => true | Throw _ => false end.

(** * Stateful computations *)

Definition M (S A : Type) : Type := S → res A * S.

#[export] Instance M_ret {S} : MRet (M S) := λ A a s, (Ok a, s).
#[export] Instance M_bind {S} : MBind (M S) := λ A B f m s,
  match m s with (Ok a, s') => f a s' | (Throw e, s') => (Throw e, s') end.
#[export] Instance M_fmap {S} : FMap (M S) := λ A B f m s,
  match m s with (Ok a, s') => (Ok (f a), s') | (Throw e, s') => (Throw e, s') end.

Section monad_ops.
Context {S : Type}.

Definition raise {A} (e : exn) : M S A := λ s, (Throw e, s).
Definition lift {A} (r : res A) : M S A := λ s, (r, s).
Definition gets {A} (f : S → A) : M S A := λ s, (Ok (f s), s).
Definition modify (f : S → S) : M S unit := λ s, (Ok tt, f s).
(** [if (b) throw e;] *)
Definition guard_throw (b : bool) (e : exn) : M S unit := if b then raise e else mret tt.
(** [if (b) { m }] *)
Definition when (b : bool) (m : M S unit) : M S unit := if b then m else mret tt.

(** [try { m } catch (e) { h e }] *)
Definition try_catch {A} (m : M S A) (h : exn → M S A) : M S A := λ s,
  match m s with (Ok a, s') => (Ok a, s') | (Throw e, s') => h e s' end.
(** [try { m } finally { f }] where [f] does not throw. *)
Definition try_finally {A} (m : M S A) (f : S → S) : M S A := λ s,
  match m s with (r, s') => (r, f s') end.
(** [await m.catch(() => undefined)] *)
Definition ignore_error (m : M S unit) : M S unit := try_catch m (λ _, mret tt).
(** [prisma.$transaction(m)] on a state that is all in the database: a throw rolls back. *)
Definition transaction {A} (m : M S A) : M S A := λ s,
  match m s with (Ok a, s') => (Ok a, s') | (Throw e, _) => (Throw e, s) end.
End monad_ops.

(** The value of an optional field that must be there, or a throw. *)
Definition require {S A} (o : option A) (e : exn) : M S A :=
  match o with Some a => mret a | None => raise e end.

Lemma transaction_throw {S A} (m : M S A) s e s' :
  transaction m s = (Throw e, s') → s' = s.
Proof. unfold transaction. destruct (m s) as [[] ?]; naive_solver. Qed.

Lemma transaction_ok {S A} (m : M S A) s a s' :
  transaction m s = (Ok a, s') ↔ m s = (Ok a, s').
Proof. unfold transaction. destruct (m s) as [[] ?]; naive_solver. Qed.

(** * Inversion of successful runs *)

Lemma bind_ok {S A B} (m : M S A) (k : A → M S B) s b s' :
  (m ≫= k) s = (Ok b, s') ↔ ∃ a s1, m s = (Ok a, s1) ∧ k a s1 = (Ok b, s').
Proof. unfold mbind, M_bind. destruct (m s) as [[] ?]; naive_solver. Qed.

Lemma res_bind_ok {A B} (m : res A) (k : A → res B) b :
  (m ≫= k) = Ok b ↔ ∃ a, m = Ok a ∧ k a = Ok b.
Proof. unfold mbind, res_bind. destruct m; naive_solver. Qed.

Lemma throw_if_ok b e u : throw_if b e = Ok u ↔ b = false.
Proof. destruct b, u; naive_solver. Qed.

Lemma guard_throw_ok {S} b e (s s' : S) u :
  guard_throw b e s = (Ok u, s') ↔ b = false ∧ s' = s.
Proof.
  unfold guard_throw, raise, mret, M_ret.
  destruct b, u; split; [done | naive_solver | | by intros [_ ->]].
  intros [= ->]. done.
Qed.

Lemma require_ok {S A} (o : option A) e (s s' : S) a :
  require o e s = (Ok a, s') ↔ o = Some a ∧ s' = s.
Proof. unfold require, raise, mret, M_ret. destruct o; naive_solver. Qed.

(** Running a computation step by step. *)
Lemma bind_lift {S A B} (x : res A) (k : A → M S B) s :
  (lift x ≫= k) s = match x with Ok a => k a s | Throw e => (Throw e, s) end.
Proof. by destruct x. Qed.
Lemma bind_guard {S A} b e (k : unit → M S A) s :
  (guard_throw b e ≫= k) s = if b then (Throw e, s) else k tt s.
Proof. by destruct b. Qed.
Lemma bind_require {S A B} (o : option A) er (k : A → M S B) s :
  (require o er ≫= k) s = match o with Some a => k a s | None => (Throw er, s) end.
Proof. by destruct o. Qed.
Lemma ret_bind {S A B} (a : A) (k : A → M S B) : (mret a ≫= k) = k a.
Proof. reflexivity. Qed.
Lemma bind_step {S A B} (m : M S A) (k : A → M S B) s a s' : m s = (Ok a, s') → (m ≫= k) s = k a s'.
Proof. intros Hm. unfold mbind, M_bind. by rewrite Hm. Qed.
Lemma bind_throw {S A B} (m : M S A) (k : A → M S B) s er s' : m s = (Throw er, s') → (m ≫= k) s = (Throw er, s').
Proof. intros Hm. unfold mbind, M_bind. by rewrite Hm. Qed.
Lemma bind_cases {S A B} (m : M S A) (k : A → M S B) s r s' : (m ≫= k) s = (r, s') →
  (∃ er, m s = (Throw er, s') ∧ r = Throw er) ∨ ∃ a s1, m s = (Ok a, s1) ∧ k a s1 = (r, s').
Proof. unfold mbind, M_bind. destruct (m s) as [[a|er] s1]; [intros Hk; right; eauto|intros [= <- <-]; left; eauto]. Qed.

(** [l.map(f)] where [f] may throw: left to right, stopping at the first throw. *)
Section mapR.
Context {A B : Type} (f : A → res B).
Fixpoint mapR (l : list A) : res (list B) :=
  match l with
  | [] => Ok []
  | x :: l' => y ← f x; ys ← mapR l'; Ok (y :: ys)
  end.

Lemma mapR_ok l k : mapR l = Ok k ↔ Forall2 (λ x y, f x = Ok y) l k.
Proof.
  split.
  - revert k. induction l as [|x l IH]; intros k; simpl; [by intros [= <-]|].
    intros (y & Hy & (k' & Hk & [= <-])%res_bind_ok)%res_bind_ok. constructor; auto.
  - induction 1 as [|x y l k Hx _ IH]; simpl; [done|]. rewrite Hx. simpl. by rewrite IH.
Qed.

End mapR.

(** [inv_ok] turns hypotheses that say a run succeeded into the steps that did. *)
Ltac inv_ok_step :=
  match goal with
  | H : (_ ≫= _) _ = (Ok _, _) |- _ =>
      apply bind_ok in H; let a := fresh "a" in let s := fresh "s" in
      destruct H as (a & s & ? & ?)
  | H : _ ≫= _ = Ok _ |- _ =>
      apply res_bind_ok in H; let a := fresh "a" in destruct H as (a & ? & ?)
  | H : throw_if _ _ = Ok _ |- _ => apply throw_if_ok in H
  | H : guard_throw _ _ _ = (Ok _, _) |- _ => apply guard_throw_ok in H as [? ->]
  | H : require _ _ _ = (Ok _, _) |- _ => apply require_ok in H as [? ->]
  | H : mret _ _ = (Ok _, _) |- _ => unfold mret, M_ret in H; simplify_eq
  | H : mret _ = Ok _ |- _ => unfold mret, res_ret in H; simplify_eq
  | H : raise _ _ = (Ok _, _) |- _ => unfold raise in H; simplify_eq
  | H : gets _ _ = (Ok _, _) |- _ => unfold gets in H; simplify_eq
  | H : modify _ _ = (Ok _, _) |- _ => unfold modify in H; simplify_eq
  | H : lift _ _ = (Ok _, _) |- _ => unfold lift in H; simplify_eq
  | H : Throw _ = Ok _ |- _ => discriminate H
  | H : Ok _ = Ok _ |- _ => injection H as ?; subst
  | H : (Throw _, _) = (Ok _, _) |- _ => discriminate H
  end.
Ltac inv_ok := repeat (inv_ok_step; simplify_eq).

(** [split_and] on boolean conjunctions and disjunctions in the context. *)
Create Rewrite HintDb bools.
#[export] Hint Rewrite andb_true_iff andb_false_iff orb_true_iff orb_false_iff negb_true_iff
  negb_false_iff String.eqb_eq String.eqb_neq Z.leb_le Z.ltb_lt Z.leb_gt Z.ltb_ge Nat.leb_le
  Nat.ltb_lt Nat.leb_gt Nat.ltb_ge Z.eqb_eq Z.eqb_neq Nat.eqb_eq Nat.eqb_neq
  bool_decide_eq_true bool_decide_eq_false : bools.
Ltac boolify := autorewrite with bools in *.

(** * Numbers *)

(** A JavaScript number: NaN, an infinity, or a finite value taken exactly. *)
Inductive number : Type :=
  | NaN
  | Infinity (negative : bool)
  | Num (q : Q).

Definition isFinite (n : number) : bool := match n with Num _ => true | _ => false end.
Definition MAX_SAFE_INTEGER : Z := 9007199254740991.
Definition q_is_int (q : Q) : bool := (Qnum q mod Zpos (Qden q) =? 0)%Z.
Definition isSafeInteger (n : number) : bool :=
  match n with
  | Num q => q_is_int q && (Z.abs (Qfloor q) <=? MAX_SAFE_INTEGER)%Z
  | _ => false
  end.
(** [x < y]; any comparison with NaN is false. *)
Definition num_ltb (x y : number) : bool :=
  match x, y with
  | Num p, Num q => negb (Qle_bool q p)
  | Infinity true, Num _ | Infinity true, Infinity false | Num _, Infinity false => true
  | _, _ => false
  end.
Lemma Qle_bool_false p q : Qle_bool p q = false ↔ (q < p)%Q.
Proof.
  rewrite <-not_true_iff_false, Qle_bool_iff. split; [apply Qnot_le_lt|apply Qlt_not_le].
Qed.
Lemma num_ltb_true p q : num_ltb (Num p) (Num q) = true ↔ (p < q)%Q.
Proof. simpl. rewrite negb_true_iff. apply Qle_bool_false. Qed.
Lemma num_ltb_false p q : num_ltb (Num p) (Num q) = false ↔ (q <= p)%Q.
Proof. simpl. rewrite negb_false_iff. apply Qle_bool_iff. Qed.
#[global] Arguments num_ltb : simpl never.
(** [Math.round]: to the nearest integer, halves towards +infinity. *)
Definition Math_round (q : Q) : Z := Qfloor (q + (1 # 2)).
Definition numZ (z : Z) : number := Num (inject_Z z).
#[global] Arguments numZ : simpl never.

(** * Strings *)

Definition code (c : ascii) : nat := nat_of_ascii c.
Definition in_range (lo hi : nat) (c : ascii) : bool := (lo <=? code c) && (code c <=? hi).
Definition is_digit (c : ascii) : bool := in_range 48 57 c.
Definition is_upper (c : ascii) : bool := in_range 65 90 c.
Definition is_lower (c : ascii) : bool := in_range 97 122 c.
Definition is_alnum (c : ascii) : bool := is_digit c || is_upper c || is_lower c.
Definition is_char (s : string) (c : ascii) : bool := existsb (Ascii.eqb c) (String.list_ascii_of_string s).
(** [\s] and the characters [String.prototype.trim] removes (TAB LF VT FF CR SP NBSP). *)
Definition is_ws (c : ascii) : bool := in_range 9 13 c || (code c =? 32) || (code c =? 160).
(** The class [[\u0000-\u001f\u007f]]. *)
Definition is_control (c : ascii) : bool := in_range 0 31 c || (code c =? 127).

Definition chars (s : string) : list ascii := String.list_ascii_of_string s.
Definition str (l : list ascii) : string := String.string_of_list_ascii l.

Lemma str_chars s : str (chars s) = s.
Proof. apply String.string_of_list_ascii_of_string. Qed.
Lemma chars_str l : chars (str l) = l.
Proof. apply String.list_ascii_of_string_of_list_ascii. Qed.

Fixpoint dropWhile {A} (p : A → bool) (l : list A) : list A :=
  match l with [] => [] | x :: l' => if p x then dropWhile p l' else l end.

Definition trim_l (l : list ascii) : list ascii :=
  reverse (dropWhile is_ws (reverse (dropWhile is_ws l))).
(** [s.trim()] *)
Definition trim (s : string) : string := str (trim_l (chars s)).

Definition lower_ascii (c : ascii) : ascii :=
  if is_upper c then ascii_of_nat (code c + 32) else c.
(** [s.toLowerCase()] *)
Definition toLowerCase (s : string) : string := str (lower_ascii <$> chars s).
(** [s.slice(0, n)] *)
Definition slice0 (n : nat) (s : string) : string := str (take n (chars s)).

Fixpoint split_go (sep : ascii) (cur : list ascii) (l : list ascii) : list string :=
  match l with
  | [] => [str (reverse cur)]
  | c :: l' => if Ascii.eqb c sep then str (reverse cur) :: split_go sep [] l'
               else split_go sep (c :: cur) l'
  end.
(** [s.split(sep)] for a one-character separator: always at least one piece. *)
Definition split (sep : ascii) (s : string) : list string := split_go sep [] (chars s).
(** The text put between double quotes, as messages do. *)
Definition dquote (s : string) : string :=
  String (ascii_of_nat 34) s +:+ String (ascii_of_nat 34) EmptyString.
(** [l.join(sep)] *)
Fixpoint join (sep : string) (l : list string) : string :=
  match l with
  | [] => ""
  | [x] => x
  | x :: l' => x +:+ sep +:+ join sep l'
  end.
(** [s.startsWith(p)] *)
Definition startsWith (p s : string) : bool := String.prefix p s.
(** [Boolean(s)]: a string is falsy exactly when it is empty. *)
Definition truthy (s : string) : bool := negb (String.eqb s "").
(** [s || d] *)
Definition or_default (s d : string) : string := if truthy s then s else d.
(** [s ?? d] *)
Definition nullish {A} (o : option A) (d : A) : A := default d o.
(** [!o] for a nullable string *)
Definition absent (o : option string) : bool := negb (truthy (nullish o "")).

Lemma truthy_true s : truthy s = true ↔ s ≠ "".
Proof. unfold truthy. rewrite negb_true_iff, String.eqb_neq. done. Qed.
Lemma truthy_false s : truthy s = false ↔ s = "".
Proof. unfold truthy. rewrite negb_false_iff, String.eqb_eq. done. Qed.

Lemma append_cons c s t : String c s +:+ t = String c (s +:+ t).
Proof. done. Qed.
Lemma chars_app s t : chars (s +:+ t) = chars s ++ chars t.
Proof.
  induction s as [|c s IH]; [done|]. rewrite append_cons.
  change (c :: chars (s +:+ t) = (c :: chars s) ++ chars t). by rewrite IH.
Qed.
Lemma chars_inj s t : chars s = chars t → s = t.
Proof. intros H. by rewrite <-(str_chars s), H, str_chars. Qed.
Lemma str_app l k : str (l ++ k) = str l +:+ str k.
Proof. apply chars_inj. by rewrite chars_app, !chars_str. Qed.
Lemma length_chars s : length (chars s) = String.length s.
Proof. induction s as [|c s IH]; [done|]. change (S (length (chars s)) = S (String.length s)). by rewrite IH. Qed.
Lemma append_assoc (s t u : string) : (s +:+ t) +:+ u = s +:+ (t +:+ u).
Proof. apply chars_inj. by rewrite !chars_app, app_assoc. Qed.
Lemma append_nil_r (s : string) : s +:+ "" = s.
Proof. apply chars_inj. by rewrite chars_app, app_nil_r. Qed.

Lemma split_go_last sep cur l :
  (sep ∉ l) → split_go sep cur l = [str (reverse cur ++ l)].
Proof.
  revert cur. induction l as [|c l IH]; intros cur H; simpl; [by rewrite app_nil_r|].
  apply not_elem_of_cons in H as [Hc Hl].
  assert (Ascii.eqb c sep = false) as -> by (apply Ascii.eqb_neq; congruence).
  rewrite IH by done. by rewrite reverse_cons, <-app_assoc.
Qed.
Lemma split_go_cons sep cur l r :
  (sep ∉ l) → split_go sep cur (l ++ sep :: r) = str (reverse cur ++ l) :: split_go sep [] r.
Proof.
  revert cur. induction l as [|c l IH]; intros cur H; simpl.
  { by rewrite Ascii.eqb_refl, app_nil_r. }
  apply not_elem_of_cons in H as [Hc Hl].
  assert (Ascii.eqb c sep = false) as -> by (apply Ascii.eqb_neq; congruence).
  rewrite IH by done. by rewrite reverse_cons, <-app_assoc.
Qed.

Lemma startsWith_app p s : startsWith p s = true → ∃ r, s = p +:+ r.
Proof.
  unfold startsWith. revert s. induction p as [|a p IH]; intros s; [by exists s|]. destruct s as [|b s]; [done|]. cbn [String.prefix].
  destruct (ascii_dec a b) as [->|]; [|done]. intros [r ->]%IH. by exists r.
Qed.

(** Splitting undoes joining when no piece contains the separator, and joining undoes splitting. *)
Lemma split_join sep l :
  l ≠ [] → Forall (λ s, sep ∉ chars s) l → split sep (join (String sep "") l) = l.
Proof.
  unfold split. induction l as [|s [|s' l] IH]; intros Hne H; [done| |];
    apply Forall_cons in H as [Hs H]; cbn [join].
  - rewrite split_go_last by done. by rewrite app_nil_l, str_chars.
  - rewrite !chars_app. cbn [chars String.list_ascii_of_string app].
    change (([sep] ++ chars ?r)) with (sep :: chars r).
    rewrite split_go_cons by done. rewrite app_nil_l, str_chars. f_equal. by apply IH.
Qed.
Lemma join_split_go sep cur l :
  join (String sep "") (split_go sep cur l) = str (reverse cur ++ l).
Proof.
  revert cur. induction l as [|c l IH]; intros cur; simpl; [by rewrite app_nil_r|].
  destruct (Ascii.eqb c sep) eqn:E.
  - apply Ascii.eqb_eq in E as ->. specialize (IH []).
    destruct (split_go sep [] l) as [|x k] eqn:Hk.
    { exfalso. revert Hk. destruct l as [|c' l]; simpl; [done|]. generalize [c']. intros cur'.
      destruct (Ascii.eqb c' sep); [done|]. revert cur'.
      induction l as [|c'' l IHl]; intros cur'; simpl; [done|]. by destruct (Ascii.eqb c'' sep). }
    change (join (String sep "") (str (reverse cur) :: x :: k))
      with (str (reverse cur) +:+ String sep "" +:+ join (String sep "") (x :: k)).
    rewrite IH, !str_app. done.
  - rewrite IH. by rewrite reverse_cons, <-app_assoc.
Qed.
Lemma join_split sep s : join (String sep "") (split sep s) = s.
Proof. unfold split. rewrite join_split_go. apply str_chars. Qed.

(** A process environment. *)
Definition env : Type := string → option string.

Lemma dropWhile_suffix {A} (p : A → bool) l : ∃ k, l = k ++ dropWhile p l ∧ Forall (λ x, p x = true) k.
Proof.
  induction l as [|x l (k & Hk & Hall)]; simpl; [by exists []|].
  destruct (p x) eqn:E; [|by exists []]. exists (x :: k). simpl. by rewrite <-Hk; auto.
Qed.

Lemma dropWhile_head {A} (p : A → bool) l x k : dropWhile p l = x :: k → p x = false.
Proof. induction l as [|y l IH]; simpl; [done|]. destruct (p y) eqn:E; [done|congruence]. Qed.

Lemma dropWhile_id {A} (p : A → bool) l : (∀ x k, l = x :: k → p x = false) → dropWhile p l = l.
Proof. destruct l as [|x l]; [done|]. simpl. intros H. by rewrite (H x l eq_refl). Qed.

Lemma dropWhile_idemp {A} (p : A → bool) l : dropWhile p (dropWhile p l) = dropWhile p l.
Proof. apply dropWhile_id. intros x k. apply dropWhile_head. Qed.

Lemma trim_l_idemp l : trim_l (trim_l l) = trim_l l.
Proof.
  unfold trim_l. set (a := dropWhile is_ws l).
  assert (dropWhile is_ws (reverse (dropWhile is_ws (reverse a)))
          = reverse (dropWhile is_ws (reverse a))) as ->.
  { apply dropWhile_id. intros x k Hx.
    destruct (dropWhile_suffix is_ws (reverse a)) as (r & Hr & _).
    apply (f_equal reverse) in Hr. rewrite reverse_involutive, reverse_app, Hx in Hr.
    simpl in Hr. by apply (dropWhile_head _ l x (k ++ reverse r)). }
  by rewrite reverse_involutive, dropWhile_idemp.
Qed.
Lemma trim_solid l : Forall (λ c, is_ws c = false) l → trim_l l = l.
Proof.
  intros Hl. unfold trim_l. rewrite (dropWhile_id is_ws l), (dropWhile_id is_ws (reverse l)); [by rewrite reverse_involutive|..].
  - intros x k Hk. rewrite Forall_forall in Hl. apply Hl. rewrite <- (reverse_involutive l), elem_of_reverse, Hk. by left.
  - intros x k ->. by apply Forall_cons in Hl as [? _].
Qed.

Lemma trim_idemp s : trim (trim s) = trim s.
Proof. unfold trim. by rewrite chars_str, trim_l_idemp. Qed.

(** A nullable reference (a Date, an object) used as a condition. *)
Definition isSome {A} (o : option A) : bool := match o with Some _ => true | None => false end.
Lemma isSome_true {A} (o : option A) : isSome o = true ↔ is_Some o.
Proof. destruct o; naive_solver. Qed.
Lemma isSome_false {A} (o : option A) : isSome o = false ↔ o = None.
Proof. destruct o; naive_solver. Qed.

(** * Arrays and sets *)

Definition mem {A} `{EqDecision A} (x : A) (l : list A) : bool := bool_decide (x ∈ l).

Lemma mem_true {A} `{EqDecision A} (x : A) l : mem x l = true ↔ x ∈ l.
Proof. unfold mem. apply bool_decide_eq_true. Qed.
Lemma mem_false {A} `{EqDecision A} (x : A) l : mem x l = false ↔ x ∉ l.
Proof. unfold mem. apply bool_decide_eq_false. Qed.
#[export] Hint Rewrite @mem_true @mem_false @isSome_true @isSome_false truthy_true truthy_false : bools.

Fixpoint uniq_go {A} `{EqDecision A} (seen l : list A) : list A :=
  match l with
  | [] => []
  | x :: l' => if decide (x ∈ seen) then uniq_go seen l' else x :: uniq_go (x :: seen) l'
  end.
(** [[...new Set(l)]]: the distinct elements in insertion order. *)
Definition uniq {A} `{EqDecision A} (l : list A) : list A := uniq_go [] l.

Section uniq.
Context {A : Type} `{EqDecision A}.

Lemma elem_of_uniq_go (seen l : list A) x : x ∈ uniq_go seen l ↔ x ∈ l ∧ x ∉ seen.
Proof.
  revert seen. induction l as [|y l IH]; intros seen; simpl.
  { set_solver. }
  case_decide; [rewrite IH; set_solver|].
  rewrite !elem_of_cons, IH. destruct (decide (x = y)); set_solver.
Qed.

Lemma elem_of_uniq (l : list A) x : x ∈ uniq l ↔ x ∈ l.
Proof. unfold uniq. rewrite elem_of_uniq_go. set_solver. Qed.

Lemma elem_of_uniq_1 (l : list A) x : x ∈ uniq l → x ∈ l.
Proof. apply elem_of_uniq. Qed.

Lemma NoDup_uniq_go (seen l : list A) : NoDup (uniq_go seen l).
Proof.
  revert seen. induction l as [|y l IH]; intros seen; simpl; [constructor|].
  case_decide; [done|]. constructor; [|done]. rewrite elem_of_uniq_go. set_solver.
Qed.

Lemma NoDup_uniq (l : list A) : NoDup (uniq l).
Proof. apply NoDup_uniq_go. Qed.

Lemma uniq_go_id (seen l : list A) :
  NoDup l → (∀ x, x ∈ l → x ∉ seen) → uniq_go seen l = l.
Proof.
  intros Hnd. revert seen. induction Hnd as [|y l Hy Hnd IH]; intros seen Hs; simpl; [done|].
  rewrite decide_False by set_solver. f_equal. apply IH. set_solver.
Qed.

Lemma uniq_id (l : list A) : NoDup l → uniq l = l.
Proof. intros. apply uniq_go_id; set_solver. Qed.

Lemma uniq_idemp (l : list A) : uniq (uniq l) = uniq l.
Proof. apply uniq_id, NoDup_uniq. Qed.

Lemma uniq_nil_inv (l : list A) : uniq l = [] → l = [].
Proof.
  destruct l as [|x l]; [done|]. intros H. exfalso.
  assert (x ∈ uniq (x :: l)) as Hx by (apply elem_of_uniq; set_solver).
  rewrite H in Hx. set_solver.
Qed.
End uniq.

(** [l.sort()] on strings: by code units. *)
Definition sort_str (l : list string) : list string := merge_sort String.le l.

Lemma sort_str_perm l : sort_str l ≡ₚ l.
Proof. apply merge_sort_Permutation. Qed.
Lemma sort_str_sorted l : Sorted String.le (sort_str l).
Proof. apply Sorted_merge_sort; apply _. Qed.
Lemma elem_of_sort_str l x : x ∈ sort_str l ↔ x ∈ l.
Proof. by rewrite sort_str_perm. Qed.
Lemma NoDup_sort_str l : NoDup l → NoDup (sort_str l).
Proof. by rewrite sort_str_perm. Qed.
Lemma sorted_perm_eq (l k : list string) :
  Sorted String.le l → Sorted String.le k → l ≡ₚ k → l = k.
Proof.
  intros Hl Hk Hp. eapply (StronglySorted_unique String.le); [| | done];
    by apply (Sorted_StronglySorted _).
Qed.
Lemma sort_str_perm_eq l k : l ≡ₚ k → sort_str l = sort_str k.
Proof. intros H. apply sorted_perm_eq; [apply sort_str_sorted..|]. by rewrite !sort_str_perm. Qed.
Lemma sort_str_id l : Sorted String.le l → sort_str l = l.
Proof. intros. apply sorted_perm_eq; [apply sort_str_sorted|done|apply sort_str_perm]. Qed.

(** [orderBy: { key: "asc" }] on rows in insertion order: a stable sort. *)
Section sort_by.
Context {A : Type} (key : A → Z).

Fixpoint insert_by (x : A) (l : list A) : list A :=
  match l with
  | [] => [x]
  | y :: l' => if (key x <? key y)%Z then x :: l else y :: insert_by x l'
  end.
Definition sort_by (l : list A) : list A := foldl (λ acc x, insert_by x acc) [] l.

Definition keyed (l : list A) : Prop := StronglySorted (λ x y, (key x <= key y)%Z) l.

Lemma insert_by_perm x l : insert_by x l ≡ₚ x :: l.
Proof.
  induction l as [|y l IH]; simpl; [done|]. destruct (_ <? _)%Z; [done|].
  rewrite IH. by rewrite Permutation_swap.
Qed.
Lemma insert_by_keyed x l : keyed l → keyed (insert_by x l).
Proof.
  unfold keyed. induction 1 as [|y l Hs IH Hy]; simpl; [repeat constructor|].
  destruct (key x <? key y)%Z eqn:E; boolify.
  - constructor; [by constructor|]. constructor; [lia|].
    eapply Forall_impl; [exact Hy|]. simpl. lia.
  - constructor; [done|]. rewrite insert_by_perm. constructor; [lia|done].
Qed.
Lemma insert_by_last x l : Forall (λ y, (key y <= key x)%Z) l → insert_by x l = l ++ [x].
Proof.
  induction 1 as [|y l Hy _ IH]; simpl; [done|]. destruct (key x <? key y)%Z eqn:E; boolify; [lia|].
  by rewrite IH.
Qed.
Lemma sort_by_snoc l x : sort_by (l ++ [x]) = insert_by x (sort_by l).
Proof. unfold sort_by. by rewrite foldl_app. Qed.
Lemma sort_by_perm l : sort_by l ≡ₚ l.
Proof.
  induction l as [|x l IH] using rev_ind; [done|].
  rewrite sort_by_snoc, insert_by_perm, IH. by rewrite Permutation_app_comm.
Qed.
Lemma sort_by_keyed l : keyed (sort_by l).
Proof.
  induction l as [|x l IH] using rev_ind; [constructor|]. rewrite sort_by_snoc. by apply insert_by_keyed.
Qed.
Lemma keyed_last l x y : keyed (l ++ [x]) → y ∈ l ++ [x] → (key y <= key x)%Z.
Proof.
  unfold keyed. induction l as [|z l IH]; simpl.
  - intros _ ->%list_elem_of_singleton. lia.
  - intros [Hs Hz]%StronglySorted_inv [->|Hy]%elem_of_cons; [|auto].
    rewrite Forall_forall in Hz. apply Hz. set_solver.
Qed.
End sort_by.

Create HintDb arrays.
Create Rewrite HintDb arrays.
#[export] Hint Resolve NoDup_uniq NoDup_sort_str sort_str_sorted sort_str_perm : arrays.
#[export] Hint Rewrite @elem_of_uniq elem_of_sort_str : arrays.

(** Two lists without duplicates that have the same elements sort to the same list. *)
Lemma sort_str_ext l k :
  NoDup l → NoDup k → (∀ x, x ∈ l ↔ x ∈ k) → sort_str l = sort_str k.
Proof. intros. apply sort_str_perm_eq. by apply NoDup_Permutation. Qed.

(** * Reachability *)

(** The reflexive transitive closure of an event-labelled step function is a fold over events. *)
Definition run_events {S Ev} (step : S → Ev → S) (s : S) (evs : list Ev) : S := foldl step s evs.

Lemma run_events_inv {S Ev} (step : S → Ev → S) (P : S → Prop) :
  (∀ s ev, P s → P (step s ev)) → ∀ evs s, P s → P (run_events step s evs).
Proof. intros Hstep evs. induction evs as [|e evs IH]; simpl; auto. Qed.
Lemma run_events_listed {S Ev} (step : S → Ev → S) (P : S → Prop) evs s :
  (∀ s ev, ev ∈ evs → P s → P (step s ev)) → P s → P (run_events step s evs).
Proof.
  revert s. induction evs as [|ev evs IH]; intros s Hstep Hs; [done|]. cbn. apply IH.
  - intros s' ev' Hin. apply Hstep. by right.
  - apply Hstep; [by left|done].
Qed.

Lemma map_id_on {A} (f : A → A) l : Forall (λ x, f x = x) l → map f l = l.
Proof. induction 1 as [|x l Hx _ IH]; simpl; congruence. Qed.

Lemma filter_all {A} (P : A → Prop) `{∀ x, Decision (P x)} l : Forall P l → filter P l = l.
Proof. induction 1 as [|x l Hx _ IH]; [done|]. rewrite filter_cons_True by done. by rewrite IH. Qed.

(** * Computations as sequences of steps *)

Section runs_in.
Context {S : Type} (R : S → S → Prop).

(** Whatever the outcome, the state changes by steps of [R]. *)
Definition runs_in {A} (m : M S A) : Prop := ∀ s, rtc R s (m s).2.

Lemma runs_in_id {A} (m : M S A) : (∀ s, (m s).2 = s) → runs_in m.
Proof. intros H s. by rewrite H. Qed.
Lemma runs_in_ret {A} (a : A) : runs_in (mret a).
Proof. by apply runs_in_id. Qed.
Lemma runs_in_raise {A} e : runs_in (raise (A := A) e).
Proof. by apply runs_in_id. Qed.
Lemma runs_in_lift {A} (r : res A) : runs_in (lift r).
Proof. by apply runs_in_id. Qed.
Lemma runs_in_gets {A} (f : S → A) : runs_in (gets f).
Proof. by apply runs_in_id. Qed.
Lemma runs_in_require {A} (o : option A) e : runs_in (require o e).
Proof. apply runs_in_id. by destruct o. Qed.
Lemma runs_in_guard b e : runs_in (guard_throw b e).
Proof. apply runs_in_id. by destruct b. Qed.
Lemma runs_in_bind {A B} (m : M S A) (k : A → M S B) : runs_in m → (∀ a, runs_in (k a)) → runs_in (m ≫= k).
Proof.
  intros Hm Hk s. specialize (Hm s). unfold mbind, M_bind. destruct (m s) as [[a|e] s1]; [|done].
  etrans; [exact Hm|apply Hk].
Qed.
Lemma runs_in_try {A} (m : M S A) (h : exn → M S A) : runs_in m → (∀ e, runs_in (h e)) → runs_in (try_catch m h).
Proof.
  intros Hm Hh s. specialize (Hm s). unfold try_catch. destruct (m s) as [[a|e] s1]; [done|].
  etrans; [exact Hm|apply Hh].
Qed.
Lemma runs_in_modify f : (∀ s, rtc R s (f s)) → runs_in (modify f).
Proof. intros H s. apply H. Qed.
Lemma runs_in_step {A} (m : M S A) : (∀ s, R s (m s).2) → runs_in m.
Proof. intros H s. by apply rtc_once. Qed.
End runs_in.

Create HintDb runs_in.
#[export] Hint Resolve runs_in_ret runs_in_raise runs_in_lift runs_in_gets runs_in_require runs_in_guard
  runs_in_bind runs_in_try : runs_in.
