(* ===== verification/Js.v ===== *)
(** The JavaScript runtime values the sources rely on: JSON values as association lists, the
    conversions [Number(v)] and [String(v)], [JSON.stringify] of strings and numbers, and typed
    access to the members of an untrusted object. Object keys are unique; finite numbers are exact
    (values whose decimal expansion needs an exponent, below 1e-6 or from 1e21 on, print without
    one here). *)
From S2P Require Import Prelude.

Inductive json : Type :=
  | JNull
  | JBool (b : bool)
  | JNum (q : Q)
  | JStr (s : string)
  | JArr (l : list json)
  | JObj (m : list (string * json)).

(** Structural induction through arrays and objects. *)
Section json_ind.
Variable P : json → Prop.
Hypotheses (Hnull : P JNull) (Hbool : ∀ b, P (JBool b)) (Hnum : ∀ q, P (JNum q))
  (Hstr : ∀ s, P (JStr s)) (Harr : ∀ l, Forall P l → P (JArr l))
  (Hobj : ∀ m, Forall (λ kv, P kv.2) m → P (JObj m)).
Fixpoint json_ind' (v : json) : P v :=
  match v with
  | JNull => Hnull
  | JBool b => Hbool b
  | JNum q => Hnum q
  | JStr s => Hstr s
  | JArr l => Harr l ((fix go (l : list json) : Forall P l :=
      match l with [] => Forall_nil_2 _ | x :: l' => Forall_cons_2 _ _ _ (json_ind' x) (go l') end) l)
  | JObj m => Hobj m ((fix go (m : list (string * json)) : Forall (λ kv, P kv.2) m :=
      match m with
      | [] => Forall_nil_2 _
      | kv :: m' => Forall_cons_2 _ _ _ (json_ind' kv.2) (go m')
      end) m)
  end.
End json_ind.

(** [obj[k]]: [None] is [undefined]. *)
Fixpoint assoc {A} (k : string) (m : list (string * A)) : option A :=
  match m with
  | [] => None
  | (k', v) :: m' => if String.eqb k k' then Some v else assoc k m'
  end.

Lemma assoc_elem {A} k (m : list (string * A)) v : assoc k m = Some v → (k, v) ∈ m.
Proof.
  induction m as [|[k' v'] m IH]; simpl; [done|].
  destruct (String.eqb k k') eqn:E; [|set_solver].
  apply String.eqb_eq in E as ->. intros [= ->]. set_solver.
Qed.

Lemma assoc_None {A} k (m : list (string * A)) : assoc k m = None ↔ k ∉ m.*1.
Proof.
  induction m as [|[k' v'] m IH]; simpl; [set_solver|].
  destruct (String.eqb k k') eqn:E.
  - apply String.eqb_eq in E as ->. set_solver.
  - apply String.eqb_neq in E. set_solver.
Qed.

Lemma elem_assoc {A} k (m : list (string * A)) v :
  NoDup m.*1 → (k, v) ∈ m → assoc k m = Some v.
Proof.
  induction m as [|[k' v'] m IH]; simpl; [set_solver|].
  intros [Hk Hnd]%NoDup_cons [[= <- <-]|Hin]%elem_of_cons; [by rewrite String.eqb_refl|].
  destruct (String.eqb k k') eqn:E; [|auto].
  apply String.eqb_eq in E as ->. destruct Hk. apply list_elem_of_fmap. by exists (k', v).
Qed.

(** * Numbers as text *)

Fixpoint frac_digits (fuel : nat) (r d : Z) : list ascii :=
  match fuel with
  | O => []
  | S fuel => if (r =? 0)%Z then []
      else ascii_of_nat (48 + Z.to_nat (r * 10 / d)) :: frac_digits fuel ((r * 10) mod d) d
  end.
(** [String(n)] for a finite number: sign, integer part, decimal expansion. *)
Definition num_toString (q : Q) : string :=
  let n := Z.abs (Qnum q) in
  let d := Zpos (Qden q) in
  let f := frac_digits 20 (n mod d) d in
  (if (Qnum q <? 0)%Z then "-" else "") +:+ pretty (n / d)%Z
  +:+ match f with [] => "" | _ => "." +:+ str f end.

Definition digit_val (c : ascii) : option nat :=
  if is_digit c then Some (code c - 48)
  else if is_lower c then Some (code c - 87)
  else if is_upper c then Some (code c - 55)
  else None.
(** Digits of base [b], all of them or nothing. *)
Fixpoint parse_digits (b : nat) (acc : Z) (l : list ascii) : option Z :=
  match l with
  | [] => Some acc
  | c :: l' => match digit_val c with
      | Some v => if v <? b then parse_digits b (acc * Z.of_nat b + Z.of_nat v)%Z l' else None
      | None => None
      end
  end.
Fixpoint span_digits (l : list ascii) : list ascii * list ascii :=
  match l with
  | [] => ([], [])
  | c :: l' => if is_digit c then let '(d, r) := span_digits l' in (c :: d, r) else ([], l)
  end.
Definition scale10 (m e : Z) : Q :=
  if (0 <=? e)%Z then inject_Z (m * 10 ^ e) else Qmake m (Z.to_pos (10 ^ (- e))).
Definition dec_val (ds : list ascii) : Z := default 0%Z (parse_digits 10 0 ds).

Definition parse_exponent (l : list ascii) : option Z :=
  match l with
  | [] => Some 0%Z
  | c :: l' =>
      if is_char "eE" c then
        let '(neg, l1) := match l' with
          | s :: l2 => if is_char "-" s then (true, l2) else if is_char "+" s then (false, l2)
                       else (false, l')
          | [] => (false, [])
          end in
        let '(ds, r) := span_digits l1 in
        match ds, r with
        | _ :: _, [] => Some (if neg : bool then - dec_val ds else dec_val ds)%Z
        | _, _ => None
        end
      else None
  end.
(** An unsigned StrDecimalLiteral. *)
Definition parse_decimal (l : list ascii) : option Q :=
  let '(ip, r) := span_digits l in
  let '(fp, r') := match r with
    | c :: r1 => if is_char "." c then span_digits r1 else ([], r)
    | [] => ([], [])
    end in
  match ip ++ fp with
  | [] => None
  | _ => e ← parse_exponent r'; Some (scale10 (dec_val (ip ++ fp)) (e - Z.of_nat (length fp)))
  end.
Definition of_opt (o : option Q) : number := match o with Some q => Num q | None => NaN end.

(** [Number(s)] for a string. *)
Definition Number_str (s : string) : number :=
  let l := trim_l (chars s) in
  match l with
  | [] => numZ 0
  | c1 :: l1 =>
      let radix b := match drop 1 l1 with
        | [] => NaN
        | ds => match parse_digits b 0 ds with Some z => numZ z | None => NaN end
        end in
      if String.eqb (str (take 2 l)) "0x" || String.eqb (str (take 2 l)) "0X" then radix 16
      else if String.eqb (str (take 2 l)) "0o" || String.eqb (str (take 2 l)) "0O" then radix 8
      else if String.eqb (str (take 2 l)) "0b" || String.eqb (str (take 2 l)) "0B" then radix 2
      else
        let '(neg, body) := if is_char "-" c1 then (true, l1)
                            else if is_char "+" c1 then (false, l1) else (false, l) in
        if String.eqb (str body) "Infinity" then Infinity neg
        else match parse_decimal body with
             | Some q => Num (if neg : bool then Qmake (- Qnum q) (Qden q) else q)
             | None => NaN
             end
  end.

(** [String(v)] of a JSON value. *)
Fixpoint json_toString (v : json) : string :=
  match v with
  | JNull => "null"
  | JBool true => "true"
  | JBool false => "false"
  | JNum q => num_toString q
  | JStr s => s
  | JArr l => join "," (map (λ x, match x with JNull => "" | _ => json_toString x end) l)
  | JObj _ => "[object Object]"
  end.
(** [Number(v)] *)
Definition Number_json (v : json) : number :=
  match v with
  | JNull => numZ 0
  | JBool b => numZ (if b then 1 else 0)
  | JNum q => Num q
  | JStr s => Number_str s
  | JArr _ | JObj _ => Number_str (json_toString v)
  end.
(** [Number(v)] where [v] may be [undefined]. *)
Definition Number_opt (v : option json) : number := from_option Number_json NaN v.

(** [typeof v === "string" ? v : ""] *)
Definition str_or_empty (v : option json) : string :=
  match v with Some (JStr s) => s | _ => "" end.
(** A plain object: [v && typeof v === "object" && !Array.isArray(v)]. *)
Definition as_object (v : json) : option (list (string * json)) :=
  match v with JObj m => Some m | _ => None end.

(** * [JSON.stringify] *)

Definition quote_char : ascii := ascii_of_nat 34.
Definition hex_digit (n : nat) : ascii :=
  if n <? 10 then ascii_of_nat (48 + n) else ascii_of_nat (87 + n).
Definition escape_char (c : ascii) : list ascii :=
  let bs := ascii_of_nat 92 in
  match code c with
  | 34 => [bs; quote_char]
  | 92 => [bs; bs]
  | 8 => [bs; ascii_of_nat 98]
  | 12 => [bs; ascii_of_nat 102]
  | 10 => [bs; ascii_of_nat 110]
  | 13 => [bs; ascii_of_nat 114]
  | 9 => [bs; ascii_of_nat 116]
  | n => if n <? 32 then bs :: chars "u00" ++ [hex_digit (n / 16); hex_digit (n mod 16)] else [c]
  end.
Definition quote_l (l : list ascii) : list ascii :=
  quote_char :: (l ≫= escape_char) ++ [quote_char].
(** [JSON.stringify(s)] for a string. *)
Definition quote (s : string) : string := str (quote_l (chars s)).

(** [JSON.stringify(v)]: members in insertion order. *)
Fixpoint JSON_stringify (v : json) : string :=
  match v with
  | JNull => "null"
  | JBool true => "true"
  | JBool false => "false"
  | JNum q => num_toString q
  | JStr s => quote s
  | JArr l => "[" +:+ join "," (map JSON_stringify l) +:+ "]"
  | JObj m => "{" +:+ join "," (map (λ '(k, x), quote k +:+ ":" +:+ JSON_stringify x) m) +:+ "}"
  end.

(** [o[k] = v] on an object kept in insertion order: an existing member keeps its place. *)
Fixpoint obj_set {A} (k : string) (v : A) (m : list (string * A)) : list (string * A) :=
  match m with
  | [] => [(k, v)]
  | (k', v') :: m' => if String.eqb k k' then (k', v) :: m' else (k', v') :: obj_set k v m'
  end.

Lemma assoc_obj_set {A} k (v : A) m : assoc k (obj_set k v m) = Some v.
Proof.
  induction m as [|[k' v'] m IH]; simpl; [by rewrite String.eqb_refl|].
  destruct (String.eqb k k') eqn:E; simpl; by rewrite E.
Qed.
Lemma assoc_obj_set_ne {A} k k' (v : A) m : k ≠ k' → assoc k (obj_set k' v m) = assoc k m.
Proof.
  intros Hne. assert (String.eqb k k' = false) as Hkk by by apply String.eqb_neq.
  induction m as [|[k1 v1] m IH]; simpl; [by rewrite Hkk|].
  destruct (String.eqb k' k1) eqn:E; simpl; [|by rewrite IH].
  apply String.eqb_eq in E as ->. by rewrite Hkk.
Qed.
Lemma obj_set_keys {A} k (v : A) m : NoDup (fst <$> m) → NoDup (fst <$> obj_set k v m) ∧
  (∀ k', k' ∈ fst <$> obj_set k v m → k' = k ∨ k' ∈ fst <$> m).
Proof.
  induction m as [|[k' v'] m IH]; cbn [obj_set fmap list_fmap fst]; intros Hn.
  - split; [repeat constructor; set_solver|set_solver].
  - destruct (String.eqb_spec k k') as [->|Hk]; cbn [fmap list_fmap fst]; [split; [done|set_solver]|].
    apply NoDup_cons in Hn as [Hnin Hn]. destruct (IH Hn) as [Hd Hs]. split.
    + constructor; [|done]. intros [->|?]%Hs; done.
    + set_solver.
Qed.
Lemma Forall_obj_set {A} (P : string * A → Prop) k v m :
  Forall P m → P (k, v) → Forall P (obj_set k v m).
Proof.
  induction 1 as [|[k' v'] m Hx Hm IH]; intros Hv; cbn [obj_set]; [by repeat constructor|].
  destruct (String.eqb_spec k k') as [->|]; constructor; auto.
Qed.

(** * Dates *)

(** [n] in at least [k] decimal digits (zero padded, the high digits cut off). *)
Fixpoint pad_digits (k : nat) (n : Z) : list ascii :=
  match k with
  | O => []
  | S k => pad_digits k (n / 10) ++ [ascii_of_nat (48 + Z.to_nat (n mod 10))]
  end.
(** The proleptic Gregorian date (year, month, day) of a day number since 1970-01-01. *)
Definition civil_of_days (days : Z) : Z * Z * Z :=
  let z := (days + 719468)%Z in
  let era := (z / 146097)%Z in
  let doe := (z mod 146097)%Z in
  let yoe := ((doe - doe / 1460 + doe / 36524 - doe / 146096) / 365)%Z in
  let doy := (doe - (365 * yoe + yoe / 4 - yoe / 100))%Z in
  let mp := ((5 * doy + 2) / 153)%Z in
  let d := (doy - (153 * mp + 2) / 5 + 1)%Z in
  let m := (if mp <? 10 then mp + 3 else mp - 9)%Z in
  ((yoe + era * 400 + (if m <=? 2 then 1 else 0))%Z, m, d).
(** [new Date(ms).toISOString()] for years 0 to 9999. *)
Definition toISOString (ms : Z) : string :=
  let '(y, m, d) := civil_of_days (ms / 86400000) in
  let r := (ms mod 86400000)%Z in
  str (pad_digits 4 y) +:+ "-" +:+ str (pad_digits 2 m) +:+ "-" +:+ str (pad_digits 2 d) +:+ "T"
  +:+ str (pad_digits 2 (r / 3600000)) +:+ ":" +:+ str (pad_digits 2 (r / 60000 mod 60)) +:+ ":"
  +:+ str (pad_digits 2 (r / 1000 mod 60)) +:+ "." +:+ str (pad_digits 3 (r mod 1000)) +:+ "Z".

Example iso_examples :
  toISOString 0 = "1970-01-01T00:00:00.000Z"
  ∧ toISOString 1709210096789 = "2024-02-29T12:34:56.789Z"
  ∧ toISOString 1767225599999 = "2025-12-31T23:59:59.999Z".
Proof. repeat split. Qed.

Example number_examples :
  Number_str " 12.50 " = Num (1250 # 100) ∧ Number_str "" = numZ 0 ∧ Number_str "0x7f" = numZ 127
  ∧ Number_str "1e3" = numZ 1000 ∧ Number_str "1.2.3" = NaN ∧ Number_str "-4" = numZ (-4)
  ∧ num_toString (1 # 4) = "0.25" ∧ num_toString (-3 # 1) = "-3".
Proof. repeat split. Qed.

(** * Replacement texts *)

(** The replacement text of [String.prototype.replace], with the text before the match, the match and the text after. *)
Fixpoint substitution (before matched after : list ascii) (l : list ascii) : list ascii :=
  match l with
  | "$"%char :: "$"%char :: l' => "$"%char :: substitution before matched after l'
  | "$"%char :: "&"%char :: l' => matched ++ substitution before matched after l'
  | "$"%char :: "`"%char :: l' => before ++ substitution before matched after l'
  | "$"%char :: "'"%char :: l' => after ++ substitution before matched after l'
  | c :: l' => c :: substitution before matched after l'
  | [] => []
  end.
Definition unescaped (l : list ascii) : Prop := "$"%char ∉ l.
Lemma substitution_id before matched after l : unescaped l → substitution before matched after l = l.
Proof.
  unfold unescaped. induction l as [|c l IH]; [done|]. intros [Hc Hl]%not_elem_of_cons. specialize (IH Hl).
  destruct c as [[] [] [] [] [] [] [] []]; cbn [substitution]; try (by rewrite IH).
Qed.
