(* ===== verification/Numerals.v ===== *)
(** Decimal numerals: the text JavaScript prints for a number consists of numeral characters, and the
    text of a natural number reads back as that number. *)
From S2P Require Import Prelude Js.

(** * Decimal numerals *)

Definition is_num_char (c : ascii) : bool := is_digit c || is_char "-." c.

Lemma digit_code n : (n < 10)%nat →
  is_digit (ascii_of_nat (48 + n)) = true ∧ digit_val (ascii_of_nat (48 + n)) = Some n.
Proof. intros. do 10 (destruct n as [|n]; [done|]). lia. Qed.

Lemma pretty_N_char_digit x : (x < 10)%N →
  is_digit (pretty_N_char x) = true ∧ digit_val (pretty_N_char x) = Some (N.to_nat x).
Proof.
  intros. assert (∃ n : nat, (n < 10)%nat ∧ x = N.of_nat n) as (n & Hn & ->).
  { exists (N.to_nat x). lia. }
  rewrite Nat2N.id. do 10 (destruct n as [|n]; [done|]). lia.
Qed.

Lemma pretty_N_go_digits x s :
  forallb is_digit (chars s) = true → forallb is_digit (chars (pretty_N_go x s)) = true.
Proof.
  revert s. induction (N.lt_wf_0 x) as [x _ IH]; intros s Hs.
  destruct (decide (x = 0)%N) as [->|]; [by rewrite pretty_N_go_0|].
  rewrite pretty_N_go_step by lia. apply IH; [apply N.div_lt; lia|].
  change (is_digit (pretty_N_char (x `mod` 10)) && forallb is_digit (chars s) = true).
  by rewrite (proj1 (pretty_N_char_digit _ (N.mod_lt x 10 ltac:(lia)))).
Qed.

Lemma parse_pretty_N_go x s :
  parse_digits 10 0 (chars (pretty_N_go x s)) = parse_digits 10 (Z.of_N x) (chars s).
Proof.
  revert s. induction (N.lt_wf_0 x) as [x _ IH]; intros s.
  destruct (decide (x = 0)%N) as [->|]; [by rewrite pretty_N_go_0|].
  rewrite pretty_N_go_step by lia. rewrite IH by (apply N.div_lt; lia).
  change (chars (String ?c s)) with (c :: chars s). cbn [parse_digits].
  rewrite (proj2 (pretty_N_char_digit _ (N.mod_lt x 10 ltac:(lia)))).
  assert ((N.to_nat (x `mod` 10) <? 10)%nat = true) as ->.
  { apply Nat.ltb_lt. pose proof (N.mod_lt x 10). lia. }
  f_equal. pose proof (N.div_mod x 10 ltac:(lia)). lia.
Qed.

Lemma pretty_N_digits (x : N) :
  forallb is_digit (chars (pretty x)) = true ∧ chars (pretty x) ≠ []
  ∧ parse_digits 10 0 (chars (pretty x)) = Some (Z.of_N x).
Proof.
  unfold pretty, pretty_N. case_decide as Hx; [by subst|]. split_and!.
  - by apply pretty_N_go_digits.
  - intros H. apply (f_equal str) in H. rewrite str_chars in H.
    pose proof (parse_pretty_N_go x "") as Hp. rewrite H in Hp. injection Hp. lia.
  - apply parse_pretty_N_go.
Qed.

Lemma pretty_Z_nonneg (z : Z) : (0 <= z)%Z → pretty z = pretty (Z.to_N z).
Proof. by destruct z. Qed.

Lemma frac_digits_digits fuel r d :
  (0 <= r < d)%Z → forallb is_digit (frac_digits fuel r d) = true.
Proof.
  revert r. induction fuel as [|fuel IH]; intros r Hr; [done|]. cbn [frac_digits].
  destruct (r =? 0)%Z; [done|]. cbn [forallb]. apply andb_true_intro. split.
  - apply digit_code. assert (r * 10 / d < 10)%Z by (apply Z.div_lt_upper_bound; lia). lia.
  - apply IH. apply Z.mod_pos_bound. lia.
Qed.

Lemma forallb_mono {A} (p q : A → bool) l :
  (∀ x, p x = true → q x = true) → forallb p l = true → forallb q l = true.
Proof. rewrite !forallb_forall. auto. Qed.

Lemma num_toString_chars q :
  forallb is_num_char (chars (num_toString q)) = true ∧ chars (num_toString q) ≠ [].
Proof.
  unfold num_toString. destruct q as [n d]. cbn [Qnum Qden].
  assert (0 <= Z.abs n / Zpos d)%Z as Hn by (apply Z.div_pos; lia).
  destruct (pretty_N_digits (Z.to_N (Z.abs n / Zpos d))) as (Hd & Hne & _).
  rewrite pretty_Z_nonneg by done. rewrite !chars_app.
  assert (∀ l, forallb is_digit l = true → forallb is_num_char l = true) as Hdig.
  { intros l. apply forallb_mono. intros x Hx. unfold is_num_char. by rewrite Hx. }
  split.
  - rewrite !forallb_app, (Hdig _ Hd). apply andb_true_intro. split; [by destruct (n <? 0)%Z|].
    cbn [andb]. pose proof (frac_digits_digits 20 (Z.abs n mod Zpos d) (Zpos d)
                              (Z.mod_pos_bound (Z.abs n) (Zpos d) eq_refl)) as Hf.
    destruct (frac_digits _ _ _) as [|c l]; [done|]. rewrite chars_app, chars_str, forallb_app, (Hdig _ Hf). done.
  - intros H. apply app_eq_nil in H as [_ H]. apply app_eq_nil in H as [H _]. done.
Qed.

(** The numbers whose text denotes them (the decimal literals JavaScript prints). *)
Definition printable (q : Q) : Prop := Number_str (num_toString q) = Num q.

Lemma printable_inj q q' : printable q → printable q' → num_toString q = num_toString q' → q = q'.
Proof. unfold printable. intros H H' Heq. rewrite Heq in H. congruence. Qed.

Lemma span_digits_all l : forallb is_digit l = true → span_digits l = (l, []).
Proof.
  induction l as [|c l IH]; simpl; [done|]. intros [Hc Hl]%andb_prop. by rewrite Hc, IH.
Qed.

Lemma trim_l_digits l : forallb is_digit l = true → trim_l l = l.
Proof.
  intros H. assert (∀ k, (∀ x, x ∈ k → x ∈ l) → dropWhile is_ws k = k) as Hid.
  { intros k Hk. apply dropWhile_id. intros x k' ->.
    rewrite forallb_forall in H. specialize (H x ltac:(apply list_elem_of_In, Hk; set_solver)).
    revert H. clear. destruct x as [[] [] [] [] [] [] [] []]; vm_compute; congruence. }
  unfold trim_l. rewrite (Hid l) by done. rewrite Hid by (intros x; by rewrite elem_of_reverse).
  apply reverse_involutive.
Qed.

Lemma digit_not_special c : is_digit c = true →
  is_char "-" c = false ∧ is_char "+" c = false ∧ Ascii.eqb c "x" = false ∧ Ascii.eqb c "X" = false ∧
  Ascii.eqb c "o" = false ∧ Ascii.eqb c "O" = false ∧ Ascii.eqb c "b" = false ∧
  Ascii.eqb c "B" = false ∧ Ascii.eqb c "I" = false.
Proof. by destruct c as [[] [] [] [] [] [] [] []]; vm_compute. Qed.

Lemma eqb_two (c d a b : ascii) :
  String.eqb (str [c; d]) (String a (String b "")) = Ascii.eqb c a && Ascii.eqb d b.
Proof. simpl. destruct (Ascii.eqb c a); [|done]. simpl. by destruct (Ascii.eqb d b). Qed.

(** A run of digits reads as the integer it denotes. *)
Lemma Number_str_digits s v :
  forallb is_digit (chars s) = true → chars s ≠ [] → parse_digits 10 0 (chars s) = Some v →
  Number_str s = numZ v.
Proof.
  intros Hd Hne Hv. unfold Number_str. rewrite trim_l_digits by done.
  remember (chars s) as l eqn:Hl. destruct l as [|c l]; [done|].
  cbn [forallb] in Hd. apply andb_prop in Hd as [Hc Hd].
  destruct (digit_not_special c Hc) as (H1 & H2 & _ & _ & _ & _ & _ & _ & HI).
  rewrite H1, H2.
  assert (parse_decimal (c :: l) = Some (inject_Z v)) as Hdec.
  { unfold parse_decimal. rewrite span_digits_all by (cbn [forallb]; by rewrite Hc, Hd).
    rewrite app_nil_r. unfold dec_val. rewrite Hv. simpl. unfold scale10. simpl. by rewrite Z.mul_1_r. }
  rewrite Hdec. simpl (if false then _ else _).
  assert (String.eqb (str (c :: l)) "Infinity" = false) as ->.
  { simpl. by rewrite HI. }
  destruct l as [|d l]; cbn [take].
  - simpl. by repeat (destruct (Ascii.eqb c _); simpl).
  - cbn [forallb] in Hd. apply andb_prop in Hd as [Hd _].
    destruct (digit_not_special d Hd) as (_ & _ & E1 & E2 & E3 & E4 & E5 & E6 & _).
    rewrite !eqb_two, E1, E2, E3, E4, E5, E6, !andb_false_r. done.
Qed.

Lemma printable_nat n : (0 <= n)%Z → printable (inject_Z n).
Proof.
  intros Hn. unfold printable, num_toString, inject_Z. cbn [Qnum Qden].
  rewrite Z.abs_eq by done. rewrite Z.div_1_r, Z.mod_1_r.
  assert ((n <? 0)%Z = false) as -> by lia.
  assert (frac_digits 20 0 1 = []) as -> by done.
  rewrite append_nil_r. change ("" +:+ ?s) with s. rewrite pretty_Z_nonneg by done.
  destruct (pretty_N_digits (Z.to_N n)) as (Hd & Hne & Hp).
  rewrite (Number_str_digits _ _ Hd Hne Hp). unfold numZ. by rewrite Z2N.id.
Qed.

Lemma Number_str_pretty n : (0 <= n)%Z → Number_str (pretty n) = numZ n.
Proof.
  intros Hn. rewrite pretty_Z_nonneg by done.
  destruct (pretty_N_digits (Z.to_N n)) as (Hd & Hne & Hp).
  rewrite (Number_str_digits _ _ Hd Hne Hp). by rewrite Z2N.id.
Qed.

Lemma pretty_digits n : (0 <= n)%Z → forallb is_digit (chars (pretty n)) = true ∧ chars (pretty n) ≠ [].
Proof.
  intros Hn. rewrite pretty_Z_nonneg by done.
  destruct (pretty_N_digits (Z.to_N n)) as (Hd & Hne & _). done.
Qed.
