(* ===== verification/Table.v ===== *)
(** Database tables as lists of rows with a string key: lookup, update, upsert and delete by key, as the
    Prisma calls of the services use them, and the lemmas that carry invariants through them. *)
From S2P Require Import Prelude.

Section table.
Context {A : Type} (key : A → string).

(** [findUnique({ where: { key } })] *)
Definition find_by (i : string) (l : list A) : option A := snd <$> list_find (λ x, key x = i) l.
(** [updateMany({ where: { key }, data })]: every row with the key. *)
Definition update_by (i : string) (f : A → A) (l : list A) : list A :=
  map (λ x, if decide (key x = i) then f x else x) l.
(** [deleteMany({ where: { key } })] *)
Definition delete_by (i : string) (l : list A) : list A := filter (λ x, key x ≠ i) l.

Lemma find_by_Some i l x : find_by i l = Some x → key x = i ∧ x ∈ l.
Proof.
  unfold find_by. intros ([n y] & H & ->)%fmap_Some. apply list_find_Some in H as (Hl & Hk & _).
  split; [done|]. by apply list_elem_of_lookup_2 in Hl.
Qed.
Lemma find_by_None i l : find_by i l = None ↔ ∀ x, x ∈ l → key x ≠ i.
Proof. unfold find_by. rewrite fmap_None, list_find_None, Forall_forall. done. Qed.
Lemma find_by_elem i l x : x ∈ l → key x = i → is_Some (find_by i l).
Proof.
  intros Hx Hk. destruct (find_by i l) as [y|] eqn:E; [by eexists|].
  rewrite find_by_None in E. by destruct (E x Hx).
Qed.
Lemma find_by_unique i l x : NoDup (map key l) → x ∈ l → key x = i → find_by i l = Some x.
Proof.
  intros Hnd Hx Hk. destruct (find_by_elem i l x Hx Hk) as [y Hy]. rewrite Hy. f_equal.
  apply find_by_Some in Hy as [Hky Hy]. apply list_elem_of_lookup in Hx. apply list_elem_of_lookup in Hy.
  destruct Hx as [ix Hx], Hy as [iy Hy]. assert (ix = iy) as ->; [|congruence].
  apply (NoDup_lookup (key <$> l) ix iy i); [done| |];
    rewrite list_lookup_fmap; [rewrite Hx|rewrite Hy]; simpl; congruence.
Qed.

Lemma find_by_cons i x l : find_by i (x :: l) = if decide (key x = i) then Some x else find_by i l.
Proof.
  unfold find_by. simpl. destruct (decide (key x = i)); [done|].
  destruct (list_find _ l) as [[j y]|]; done.
Qed.

Lemma find_by_update i j f l :
  (∀ x, key (f x) = key x) →
  find_by i (update_by j f l) = (if decide (i = j) then f <$> find_by i l else find_by i l).
Proof.
  intros Hk. unfold update_by. induction l as [|x l IH]; [by case_decide|]. cbn [map].
  rewrite !find_by_cons, IH.
  destruct (decide (key x = j)); rewrite ?Hk; destruct (decide (key x = i)), (decide (i = j)); simpl; congruence.
Qed.

Lemma find_by_map i f l : (∀ x, key (f x) = key x) → find_by i (map f l) = f <$> find_by i l.
Proof.
  intros Hk. induction l as [|x l IH]; [done|]. cbn [map]. rewrite !find_by_cons, IH, Hk. by case_decide.
Qed.

Lemma find_by_app i l k : find_by i (l ++ k) = match find_by i l with Some x => Some x | None => find_by i k end.
Proof. induction l as [|x l IH]; [done|]. simpl. rewrite !find_by_cons, IH. by case_decide. Qed.

Lemma update_by_keys i f l : (∀ x, key (f x) = key x) → map key (update_by i f l) = map key l.
Proof.
  intros Hk. unfold update_by. rewrite map_map. apply map_ext. intros x. case_decide; auto.
Qed.

Lemma elem_of_update_by i f l y :
  y ∈ update_by i f l ↔ ∃ x, x ∈ l ∧ y = if decide (key x = i) then f x else x.
Proof. unfold update_by. rewrite list_elem_of_fmap. naive_solver. Qed.

Lemma Forall_update_by (P : A → Prop) i f l :
  (∀ x, key x = i → P x → P (f x)) → Forall P l → Forall P (update_by i f l).
Proof.
  intros Hf Hl. unfold update_by. apply Forall_map. eapply Forall_impl; [exact Hl|]. intros x Hx.
  simpl. case_decide; auto.
Qed.
Lemma Forall_delete_by (P : A → Prop) i l : Forall P l → Forall P (delete_by i l).
Proof. unfold delete_by. rewrite !Forall_forall. intros H x. rewrite list_elem_of_filter. naive_solver. Qed.
Lemma Forall_snoc_intro (P : A → Prop) l x : Forall P l → P x → Forall P (l ++ [x]).
Proof. intros. apply Forall_app. auto. Qed.
End table.

#[export] Hint Resolve Forall_update_by Forall_delete_by Forall_snoc_intro : arrays.

(** A stable sort by a strict order [before], as [Array.prototype.sort] and [orderBy] give it. *)
Section stable_sort.
Context {A : Type} (before : A → A → bool).

Fixpoint insert_before (x : A) (l : list A) : list A :=
  match l with
  | [] => [x]
  | y :: l' => if before x y then x :: l else y :: insert_before x l'
  end.
Definition stable_sort (l : list A) : list A := foldl (λ acc x, insert_before x acc) [] l.

Lemma insert_before_perm x l : insert_before x l ≡ₚ x :: l.
Proof.
  induction l as [|y l IH]; simpl; [done|]. destruct (before x y); [done|]. rewrite IH. apply Permutation_swap.
Qed.
Lemma stable_sort_perm l : stable_sort l ≡ₚ l.
Proof.
  unfold stable_sort. induction l as [|x l IH] using rev_ind; [done|].
  rewrite foldl_app. simpl. rewrite insert_before_perm, IH. by rewrite Permutation_app_comm.
Qed.

(** Sorted by any transitive order that decides [before]. *)
Context (R : A → A → Prop) `{!Transitive R}
  (Hyes : ∀ x y, before x y = true → R x y) (Hno : ∀ x y, before x y = false → R y x).
Lemma insert_before_sorted x l : StronglySorted R l → StronglySorted R (insert_before x l).
Proof.
  induction 1 as [|y l Hs IH Hy]; simpl; [repeat constructor|]. destruct (before x y) eqn:E.
  - apply Hyes in E. constructor; [by constructor|]. constructor; [done|]. eapply Forall_impl; [exact Hy|]. intros z. by trans y.
  - constructor; [done|]. rewrite insert_before_perm. constructor; [by apply Hno|done].
Qed.
Lemma stable_sort_sorted l : StronglySorted R (stable_sort l).
Proof.
  induction l as [|x l IH] using rev_ind; [constructor|]. unfold stable_sort. rewrite foldl_app. by apply insert_before_sorted.
Qed.
End stable_sort.
