(* ===== verification/AuditStore.v ===== *)
(** What the services promise each other about auditing: a state that can record an audit event, and
    the audited transaction every governance mutation runs in. The event list is the abstract view of
    the hash chain that [AuditLog] implements; [AuditLog] proves that the retrying
    transaction of [AuditService.transact] refines [audited]. *)
From S2P Require Import Prelude Js.

(** A payload argument: [None] is an [undefined] member. *)
Definition payload_arg : Type := list (string * option json).

Record AuditEvent := {
  ev_org : string; ev_action : string; ev_actorType : string; ev_actorId : string;
  ev_payload : payload_arg }.

Definition some_str (s : string) : option json := Some (JStr s).
Definition opt_str (o : option string) : option json := JStr <$> o.

(** A state with an audit trail. *)
Class AuditStore (DB : Type) := {
  trail : DB → list AuditEvent;
  record_event : AuditEvent → DB → DB;
  trail_record ev db : trail (record_event ev db) = trail db ++ [ev] }.

Section audited.
Context {DB : Type} `{AuditStore DB}.

(** [audit.log(...)] *)
Definition audit_log (org action actorType actorId : string) (p : payload_arg) : M DB unit :=
  modify (record_event {| ev_org := org; ev_action := action; ev_actorType := actorType;
                          ev_actorId := actorId; ev_payload := p |}).

(** [audit.transact(action, actorType, actorId, mutation)]: the mutation and its event are stored
    together or not at all. *)
Definition audited {T} (action actorType actorId : string)
    (mutation : M DB (T * string * payload_arg)) : M DB T :=
  transaction (
    x ← mutation;
    let '(result, org, p) := x in
    _ ← audit_log org action actorType actorId p;
    mret result).

Lemma audited_ok {T} action aType aId (mutation : M DB (T * string * payload_arg)) db r db' :
  audited action aType aId mutation db = (Ok r, db') ↔
  ∃ org p db1, mutation db = (Ok (r, org, p), db1) ∧
    db' = record_event {| ev_org := org; ev_action := action; ev_actorType := aType;
                          ev_actorId := aId; ev_payload := p |} db1.
Proof.
  unfold audited. rewrite transaction_ok, bind_ok. split.
  - intros ([[r' org] p] & db1 & Hm & Hk). unfold audit_log in Hk. inv_ok. eauto.
  - intros (org & p & db1 & Hm & ->). exists (r, org, p), db1. done.
Qed.

Lemma audited_throw {T} action aType aId (mutation : M DB (T * string * payload_arg)) db e db' :
  audited action aType aId mutation db = (Throw e, db') → db' = db.
Proof. apply transaction_throw. Qed.

(** What an audited run does to any part of the state the trail does not touch. *)
Lemma audited_preserves {T} (P : DB → Prop) action aType aId
    (mutation : M DB (T * string * payload_arg)) db r db' :
  (∀ ev d, P d → P (record_event ev d)) →
  (∀ x d, mutation db = (Ok x, d) → P db → P d) →
  audited action aType aId mutation db = (r, db') → P db → P db'.
Proof.
  intros Hrec Hmut Hrun HP. destruct r as [x|e].
  - apply audited_ok in Hrun as (org & p & d & Hm & ->). eauto.
  - by apply audited_throw in Hrun as ->.
Qed.
End audited.
