(* ===== verification/KeyPolicy.v ===== *)
(** Device key policy ([src/gateway/key-policy.ts]) and usage report windows
    ([src/gateway/usage.ts]): normalisation of the lifetime, the rolling USD budgets and the rate
    limits of a device key, their storage in the enrollment code row and their re-validation when
    the code is redeemed. Amounts are exact rationals. *)
From S2P Require Import Prelude Js.
Local Open Scope Z_scope.

(** * Data *)

Inductive AccessBudgetWindow := W5h | Wweek | Wmonth.
Inductive BudgetDuration := D5h | D7d | D30d.

#[export] Instance AccessBudgetWindow_eq_dec : EqDecision AccessBudgetWindow.
Proof. solve_decision. Defined.
#[export] Instance BudgetDuration_eq_dec : EqDecision BudgetDuration.
Proof. solve_decision. Defined.

Definition window_str (w : AccessBudgetWindow) : string :=
  match w with W5h => "5h" | Wweek => "week" | Wmonth => "month" end.
Definition duration_str (d : BudgetDuration) : string :=
  match d with D5h => "5h" | D7d => "7d" | D30d => "30d" end.

Definition ACCESS_BUDGET_WINDOWS : list AccessBudgetWindow := [W5h; Wweek; Wmonth].

Record AccessBudgetLimitInput := { in_window : string; in_maxUsd : number }.
Record StoredAccessBudgetLimit := {
  window : AccessBudgetWindow; maxUsd : Q; budgetDuration : BudgetDuration }.
Record GatewayBudgetLimit := { gw_budgetDuration : BudgetDuration; maxBudgetUsd : Q }.
Record GatewayKeyLimits := {
  gw_budgetLimits : list GatewayBudgetLimit; gw_rpmLimit : option Z; gw_tpmLimit : option Z }.
Record StoredAccessKeyPolicy := {
  tokenTtlMinutes : option Z;
  tokenNeverExpires : bool;
  budgetLimits : list StoredAccessBudgetLimit;
  rpmLimit : option Z;
  tpmLimit : option Z }.
Record AccessKeyPolicyInput := {
  in_tokenTtlMinutes : option number;
  in_tokenNeverExpires : option bool;
  in_budgetLimits : option (list AccessBudgetLimitInput);
  in_rpmLimit : option number;
  in_tpmLimit : option number }.

Definition WINDOW_DURATION (w : AccessBudgetWindow) : BudgetDuration :=
  match w with W5h => D5h | Wweek => D7d | Wmonth => D30d end.

Definition MIN_TOKEN_TTL_MINUTES : Z := 5.
Definition MAX_TOKEN_TTL_MINUTES : Z := 365 * 24 * 60.
Definition MAX_BUDGET_USD : Z := 1000000.
Definition MAX_RPM_LIMIT : Z := 1000000.
Definition MAX_TPM_LIMIT : Z := 1000000000.

(** * Normalisation *)

(** [Number.isSafeInteger(v) && lo <= v && v <= hi], with the integer it denotes. *)
Definition safe_int_in (lo hi : Z) (v : number) : option Z :=
  match v with
  | Num q => if isSafeInteger v && (lo <=? Qfloor q) && (Qfloor q <=? hi)
             then Some (Qfloor q) else None
  | _ => None
  end.

Definition finiteInteger (value : option number) (label : string) (max : Z) : res (option Z) :=
  match value with
  | None => Ok None
  | Some v => match safe_int_in 1 max v with
      | Some z => Ok (Some z)
      | None => Throw (Error (label +:+ " must be a whole number between 1 and " +:+ pretty max))
      end
  end.

(** [ACCESS_BUDGET_WINDOWS.includes(w)], with the window it names. *)
Definition window_of (s : string) : option AccessBudgetWindow :=
  snd <$> list_find (λ w, window_str w = s) ACCESS_BUDGET_WINDOWS.

(** [Number.isFinite(x) && 0.01 <= x && x <= MAX_BUDGET_USD] *)
Definition budget_in_range (x : number) : option Q :=
  match x with
  | Num q => if num_ltb x (Num (1 # 100)) || num_ltb (numZ MAX_BUDGET_USD) x then None else Some q
  | _ => None
  end.

(** [Math.round(x * 1_000_000) / 1_000_000] *)
Definition round_micro (q : Q) : Q := Qmake (Math_round (q * inject_Z 1000000)) 1000000.

(** One step of [source.map(...)]: the windows seen so far are threaded through. *)
Definition normalizeBudget (seen : list AccessBudgetWindow) (entry : AccessBudgetLimitInput)
    : res StoredAccessBudgetLimit :=
  match window_of (in_window entry) with
  | None => Throw (Error "budget window must be one of: 5h, week, month")
  | Some w =>
      if mem w seen then Throw (Error ("duplicate budget window: " +:+ in_window entry))
      else match budget_in_range (in_maxUsd entry) with
           | None => Throw (Error ("budget maxUsd must be between 0.01 and " +:+ pretty MAX_BUDGET_USD))
           | Some q => Ok {| window := w; maxUsd := round_micro q;
                             budgetDuration := WINDOW_DURATION w |}
           end
  end.
Fixpoint normalizeBudgets (seen : list AccessBudgetWindow) (l : list AccessBudgetLimitInput)
    : res (list StoredAccessBudgetLimit) :=
  match l with
  | [] => Ok []
  | entry :: l' =>
      b ← normalizeBudget seen entry;
      bs ← normalizeBudgets (window b :: seen) l';
      Ok (b :: bs)
  end.

Definition normalizeTtl (never : bool) (ttl : option number) (defaultTtl : number)
    : res (option Z) :=
  if never then Ok None
  else match safe_int_in MIN_TOKEN_TTL_MINUTES MAX_TOKEN_TTL_MINUTES (nullish ttl defaultTtl) with
       | Some z => Ok (Some z)
       | None => Throw (Error ("tokenTtlMinutes must be a whole number between "
                               +:+ pretty MIN_TOKEN_TTL_MINUTES +:+ " and "
                               +:+ pretty MAX_TOKEN_TTL_MINUTES))
       end.

Definition normalizeAccessKeyPolicy (input : AccessKeyPolicyInput) (defaultTokenTtlMinutes : number)
    : res StoredAccessKeyPolicy :=
  let never := nullish (in_tokenNeverExpires input) false in
  _ ← throw_if (never && isSome (in_tokenTtlMinutes input))
        (Error "tokenNeverExpires cannot be combined with tokenTtlMinutes");
  ttl ← normalizeTtl never (in_tokenTtlMinutes input) defaultTokenTtlMinutes;
  let source := nullish (in_budgetLimits input) [] in
  _ ← throw_if (length ACCESS_BUDGET_WINDOWS <? length source)%nat
        (Error "budgetLimits may contain at most one 5h, week, and month window");
  budgets ← normalizeBudgets [] source;
  rpm ← finiteInteger (in_rpmLimit input) "rpmLimit" MAX_RPM_LIMIT;
  tpm ← finiteInteger (in_tpmLimit input) "tpmLimit" MAX_TPM_LIMIT;
  Ok {| tokenTtlMinutes := ttl; tokenNeverExpires := never; budgetLimits := budgets;
        rpmLimit := rpm; tpmLimit := tpm |}.

Definition gatewayLimits (policy : StoredAccessKeyPolicy) : GatewayKeyLimits :=
  {| gw_budgetLimits :=
       (λ entry, {| gw_budgetDuration := budgetDuration entry; maxBudgetUsd := maxUsd entry |})
         <$> budgetLimits policy;
     gw_rpmLimit := rpmLimit policy;
     gw_tpmLimit := tpmLimit policy |}.

(** * The stored form *)

(** The policy columns of an [EnrollCode] row; [budgetLimits] is a JSONB column. *)
Record StoredColumns := {
  col_tokenTtlMinutes : option Z;
  col_tokenNeverExpires : bool;
  col_budgetLimits : json;
  col_rpmLimit : option Z;
  col_tpmLimit : option Z }.

Definition parseStoredLimit (entry : json) : res AccessBudgetLimitInput :=
  match entry with
  | JObj row => Ok {| in_window := str_or_empty (assoc "window" row);
                      in_maxUsd := Number_opt (assoc "maxUsd" row) |}
  | JArr _ => Ok {| in_window := ""; in_maxUsd := NaN |}
  | _ => Throw (Error "stored budget limit is malformed")
  end.

Definition parseStoredAccessKeyPolicy (input : StoredColumns) (defaultTokenTtlMinutes : number)
    : res StoredAccessKeyPolicy :=
  let rawLimits := match col_budgetLimits input with JArr l => l | _ => [] end in
  limits ← mapR parseStoredLimit rawLimits;
  normalizeAccessKeyPolicy
    {| in_tokenTtlMinutes := if col_tokenNeverExpires input then None
         else Some (nullish (numZ <$> col_tokenTtlMinutes input) defaultTokenTtlMinutes);
       in_tokenNeverExpires := if col_tokenNeverExpires input then Some true else None;
       in_budgetLimits := Some limits;
       in_rpmLimit := numZ <$> col_rpmLimit input;
       in_tpmLimit := numZ <$> col_tpmLimit input |}
    defaultTokenTtlMinutes.

(** The columns written for a normalised policy ([accessPolicy.budgetLimits as InputJsonValue]). *)
Definition limit_json (b : StoredAccessBudgetLimit) : json :=
  JObj [("window", JStr (window_str (window b))); ("maxUsd", JNum (maxUsd b));
        ("budgetDuration", JStr (duration_str (budgetDuration b)))].
Definition store_policy (p : StoredAccessKeyPolicy) : StoredColumns :=
  {| col_tokenTtlMinutes := tokenTtlMinutes p;
     col_tokenNeverExpires := tokenNeverExpires p;
     col_budgetLimits := JArr (limit_json <$> budgetLimits p);
     col_rpmLimit := rpmLimit p;
     col_tpmLimit := tpmLimit p |}.

(** A policy as the object that audit payloads and answers carry. *)
Definition opt_num (o : option Z) : json := match o with Some z => JNum (inject_Z z) | None => JNull end.
Definition policy_json (p : StoredAccessKeyPolicy) : json :=
  JObj [("tokenTtlMinutes", opt_num (tokenTtlMinutes p)); ("tokenNeverExpires", JBool (tokenNeverExpires p));
        ("budgetLimits", JArr (limit_json <$> budgetLimits p)); ("rpmLimit", opt_num (rpmLimit p));
        ("tpmLimit", opt_num (tpmLimit p))].

(** * Usage windows ([usage.ts]) *)

Inductive UsageRange := R24h | R7d | R30d.
Inductive BucketUnit := Hour | Day.
Record UsageWindow := {
  range : UsageRange; from : Z; to : Z; bucketMs : Z; bucketCount : Z; bucketUnit : BucketUnit }.

Definition parseUsageRange (value : option string) : res UsageRange :=
  let range := match value with Some v => or_default v "24h" | None => "24h" end in
  if String.eqb range "24h" then Ok R24h
  else if String.eqb range "7d" then Ok R7d
  else if String.eqb range "30d" then Ok R30d
  else Throw (Error "usage range must be one of: 24h, 7d, 30d").

Definition hourMs : Z := 60 * 60 * 1000.
Definition dayMs : Z := 24 * hourMs.
(** [Date.UTC] of the UTC date (and hour) fields of [now]: the start of that UTC day (hour). *)
Definition utc_floor (unit now : Z) : Z := now / unit * unit.

(** [now] is [None] for an invalid Date. *)
Definition usageWindow (r : UsageRange) (now : option Z) : res UsageWindow :=
  match now with
  | None => Throw (Error "usage report time must be valid")
  | Some t =>
      match r with
      | R24h =>
          let currentHour := utc_floor hourMs t in
          Ok {| range := r; from := currentHour - 23 * hourMs; to := currentHour + hourMs;
                bucketMs := hourMs; bucketCount := 24; bucketUnit := Hour |}
      | _ =>
          let currentDay := utc_floor dayMs t in
          let count := match r with R7d => 7 | _ => 30 end in
          Ok {| range := r; from := currentDay - (count - 1) * dayMs; to := currentDay + dayMs;
                bucketMs := dayMs; bucketCount := count; bucketUnit := Day |}
      end
  end.

#[local] Arguments safe_int_in : simpl never.
#[local] Arguments normalizeTtl : simpl never.

(** * Lemmas *)

Lemma q_is_int_spec q : q_is_int q = true ↔ (q == inject_Z (Qfloor q))%Q.
Proof.
  destruct q as [n d]. unfold q_is_int, Qfloor, Qeq, inject_Z. simpl.
  pose proof (Z.div_mod n (Zpos d) ltac:(lia)).
  rewrite Z.eqb_eq, Z.mul_1_r. lia.
Qed.

Lemma safe_int_in_spec lo hi v z :
  - MAX_SAFE_INTEGER <= lo → hi <= MAX_SAFE_INTEGER →
  safe_int_in lo hi v = Some z ↔ ∃ q, v = Num q ∧ (q == inject_Z z)%Q ∧ lo <= z <= hi.
Proof.
  intros Hlo Hhi. unfold safe_int_in, isSafeInteger. destruct v as [| |q]; [naive_solver..|].
  split.
  - destruct (q_is_int q) eqn:Hq; simpl; [|done]. apply q_is_int_spec in Hq.
    destruct (_ && _ && _) eqn:Hb; [|done]. intros [= <-]. boolify.
    exists q. repeat split; try done; lia.
  - intros (q' & [= <-] & Hz & ?).
    assert (Qfloor q = z) as Hf by (rewrite Hz; apply Qfloor_Z).
    assert (q_is_int q = true) as -> by (apply q_is_int_spec; by rewrite Hf).
    rewrite Hf. simpl. destruct (_ && _ && _) eqn:Hb; [done|]. boolify. lia.
Qed.

Lemma safe_int_in_numZ lo hi z :
  - MAX_SAFE_INTEGER <= lo → hi <= MAX_SAFE_INTEGER → lo <= z <= hi →
  safe_int_in lo hi (numZ z) = Some z.
Proof. intros. apply safe_int_in_spec; [done..|]. eexists. done. Qed.

Lemma window_of_spec s w : window_of s = Some w ↔ s = window_str w.
Proof.
  split.
  - unfold window_of. rewrite fmap_Some. intros ([i w'] & H & ->).
    apply list_find_Some in H as (_ & H & _). done.
  - intros ->. by destruct w.
Qed.

Lemma Math_round_mono p q : (p <= q)%Q → Math_round p <= Math_round q.
Proof. intros. apply Qfloor_resp_le. by apply Qplus_le_l. Qed.

(** Rounding to micro-dollars stays within the accepted range and is idempotent. *)
Lemma round_micro_range q :
  (1 # 100 <= q)%Q → (q <= inject_Z MAX_BUDGET_USD)%Q →
  (1 # 100 <= round_micro q)%Q ∧ (round_micro q <= inject_Z MAX_BUDGET_USD)%Q.
Proof.
  intros Hlo Hhi. unfold round_micro.
  assert (10000 <= Math_round (q * inject_Z 1000000)) as H1.
  { change 10000 with (Math_round ((1 # 100) * inject_Z 1000000)).
    apply Math_round_mono. by apply Qmult_le_compat_r. }
  assert (Math_round (q * inject_Z 1000000) <= 1000000000000) as H2.
  { change 1000000000000 with (Math_round (inject_Z MAX_BUDGET_USD * inject_Z 1000000)).
    apply Math_round_mono. by apply Qmult_le_compat_r. }
  revert H1 H2. generalize (Math_round (q * inject_Z 1000000)). intros m ??.
  unfold Qle, inject_Z, MAX_BUDGET_USD. simpl. lia.
Qed.

Lemma round_micro_id n : round_micro (Qmake n 1000000) = Qmake n 1000000.
Proof.
  unfold round_micro, Math_round. f_equal.
  assert ((n # 1000000) * inject_Z 1000000 + (1 # 2) == inject_Z n + (1 # 2))%Q as ->.
  { apply Qplus_inj_r. unfold Qeq, Qmult, inject_Z. simpl. lia. }
  unfold Qfloor, Qplus, inject_Z. simpl. symmetry. apply (Z.div_unique _ _ _ 1); lia.
Qed.

Lemma budget_in_range_spec x q :
  budget_in_range x = Some q ↔
  x = Num q ∧ (1 # 100 <= q)%Q ∧ (q <= inject_Z MAX_BUDGET_USD)%Q.
Proof.
  unfold budget_in_range, num_ltb, numZ. destruct x as [| |r]; [naive_solver..|].
  destruct (_ || _) eqn:Hb; split.
  - done.
  - intros ([= <-] & Hl & Hr). apply Qle_bool_iff in Hl, Hr. by rewrite Hl, Hr in Hb.
  - intros [= <-]. boolify. rewrite !Qle_bool_iff in Hb. naive_solver.
  - intros ([= <-] & _). done.
Qed.

(** * Well-formed policies *)

Definition budget_wf (b : StoredAccessBudgetLimit) : Prop :=
  (1 # 100 <= maxUsd b)%Q ∧ (maxUsd b <= inject_Z MAX_BUDGET_USD)%Q ∧
  Qden (maxUsd b) = 1000000%positive ∧ budgetDuration b = WINDOW_DURATION (window b).

Definition limit_wf (max : Z) (o : option Z) : Prop := ∀ z, o = Some z → 1 <= z <= max.

Definition policy_wf (p : StoredAccessKeyPolicy) : Prop :=
  (tokenNeverExpires p = true ↔ tokenTtlMinutes p = None) ∧
  (∀ z, tokenTtlMinutes p = Some z → MIN_TOKEN_TTL_MINUTES <= z <= MAX_TOKEN_TTL_MINUTES) ∧
  NoDup (window <$> budgetLimits p) ∧ Forall budget_wf (budgetLimits p) ∧
  limit_wf MAX_RPM_LIMIT (rpmLimit p) ∧ limit_wf MAX_TPM_LIMIT (tpmLimit p).

Lemma normalizeBudget_ok seen entry b :
  normalizeBudget seen entry = Ok b ↔
  ∃ q, in_window entry = window_str (window b) ∧ (window b ∉ seen) ∧
       budget_in_range (in_maxUsd entry) = Some q ∧
       b = {| window := window b; maxUsd := round_micro q;
              budgetDuration := WINDOW_DURATION (window b) |}.
Proof.
  unfold normalizeBudget. split.
  - destruct (window_of _) as [w|] eqn:Hw; [|done]. apply window_of_spec in Hw.
    destruct (mem w seen) eqn:Hm; [done|]. apply mem_false in Hm.
    destruct (budget_in_range _) as [q|]; [|done]. intros [= <-]. by exists q.
  - intros (q & Hw & Hs & Hq & Hb). rewrite (proj2 (window_of_spec _ _) Hw).
    rewrite (proj2 (mem_false _ _) Hs), Hq. by rewrite <-Hb.
Qed.

Lemma normalizeBudgets_wf seen l bs :
  normalizeBudgets seen l = Ok bs →
  NoDup (window <$> bs) ∧ (∀ w, w ∈ (window <$> bs) → w ∉ seen) ∧ Forall budget_wf bs.
Proof.
  revert seen bs. induction l as [|e l IH]; intros seen bs; simpl; intros H; inv_ok.
  { repeat split; [constructor | set_solver | constructor]. }
  match goal with H : normalizeBudget _ _ = _ |- _ =>
    apply normalizeBudget_ok in H as (q & _ & Hs & Hq & Hb) end.
  match goal with H : normalizeBudgets _ _ = _ |- _ => apply IH in H as (Hnd & Hseen & Hwf) end.
  apply budget_in_range_spec in Hq as (_ & Hlo & Hhi).
  destruct (round_micro_range q Hlo Hhi). simpl.
  repeat split.
  - constructor; [|done]. intros Hin. apply (Hseen _ Hin). set_solver.
  - intros w [->|Hin]%elem_of_cons; [done|]. specialize (Hseen _ Hin). set_solver.
  - constructor; [|done]. rewrite Hb. by repeat split.
Qed.

(** Three windows exist, so a policy without duplicates has at most three limits. *)
Lemma windows_bound (l : list AccessBudgetWindow) : NoDup l → (length l <= 3)%nat.
Proof.
  intros. change 3%nat with (length ACCESS_BUDGET_WINDOWS).
  apply submseteq_length, NoDup_submseteq; [done|]. intros [] _; set_solver.
Qed.

(** The stored entries re-normalise to themselves. *)
Lemma normalizeBudgets_stored seen bs :
  NoDup (window <$> bs) → (∀ w, w ∈ (window <$> bs) → w ∉ seen) → Forall budget_wf bs →
  normalizeBudgets seen
    ((λ b, {| in_window := window_str (window b); in_maxUsd := Num (maxUsd b) |}) <$> bs) = Ok bs.
Proof.
  revert seen. induction bs as [|b bs IH]; intros seen Hnd Hs Hwf; [done|]. csimpl.
  apply NoDup_cons in Hnd as [Hb Hnd]. apply Forall_cons in Hwf as [(Hlo & Hhi & Hden & Hdur) Hwf].
  assert (normalizeBudget seen {| in_window := window_str (window b);
            in_maxUsd := Num (maxUsd b) |} = Ok b) as ->.
  { apply normalizeBudget_ok. exists (maxUsd b). repeat split; [set_solver| |].
    - by apply budget_in_range_spec.
    - destruct b as [w [n d] dur]. simpl in *. subst. by rewrite round_micro_id. }
  simpl. rewrite IH; [done|done| |done]. intros w Hw. specialize (Hs w). set_solver.
Qed.

Lemma mapR_parseStored bs :
  mapR parseStoredLimit (limit_json <$> bs) =
  Ok ((λ b, {| in_window := window_str (window b); in_maxUsd := Num (maxUsd b) |}) <$> bs).
Proof. induction bs as [|b bs IH]; [done|]. csimpl. by rewrite IH. Qed.

Lemma finiteInteger_ok v label max o :
  max <= MAX_SAFE_INTEGER → finiteInteger v label max = Ok o → limit_wf max o.
Proof.
  unfold finiteInteger, limit_wf. intros ?. destruct v as [n|]; [|naive_solver].
  destruct (safe_int_in _ _ _) as [z|] eqn:E; [|done]. intros [= <-] z' [= <-].
  by apply safe_int_in_spec in E as (? & ? & ? & ?).
Qed.

Lemma finiteInteger_stored o label max :
  max <= MAX_SAFE_INTEGER → limit_wf max o → finiteInteger (numZ <$> o) label max = Ok o.
Proof.
  intros ? Hwf. destruct o as [z|]; [|done]. unfold finiteInteger. simpl.
  by rewrite safe_int_in_numZ by (unfold MAX_SAFE_INTEGER in *; auto; lia).
Qed.

Lemma normalizeTtl_wf never ttl d o :
  normalizeTtl never ttl d = Ok o →
  (never = true ↔ o = None) ∧
  (∀ z, o = Some z → MIN_TOKEN_TTL_MINUTES <= z <= MAX_TOKEN_TTL_MINUTES).
Proof.
  unfold normalizeTtl. destruct never; [by intros [= <-]|].
  destruct (safe_int_in _ _ _) as [z|] eqn:E; [|done]. intros [= <-].
  apply safe_int_in_spec in E as (q & _ & _ & ?); [|done..]. split; [done|]. by intros ? [= <-].
Qed.

Lemma normalize_wf input d p : normalizeAccessKeyPolicy input d = Ok p → policy_wf p.
Proof.
  unfold normalizeAccessKeyPolicy. intros H. inv_ok.
  repeat match goal with
  | H : finiteInteger _ _ _ = Ok _ |- _ => apply finiteInteger_ok in H; [|done]
  | H : normalizeBudgets _ _ = Ok _ |- _ => apply normalizeBudgets_wf in H as (? & ? & ?)
  | H : normalizeTtl _ _ _ = Ok _ |- _ => apply normalizeTtl_wf in H as [? ?]
  end.
  unfold policy_wf. simpl. by split_and!.
Qed.

(** * The validator of a request for a code ([CreateEnrollCodeDto] in [src/protocol/dto.ts]) *)

(** [@IsInt() @Min(lo) @Max(hi) @IsOptional()] *)
Definition dto_int (lo hi : Z) (o : option number) : bool :=
  match o with
  | None => true
  | Some (Num q) => q_is_int q && Qle_bool (inject_Z lo) q && Qle_bool q (inject_Z hi)
  | Some _ => false
  end.
(** [@IsNumber({ maxDecimalPlaces: 6 }) @Min(0.01) @Max(MAX_BUDGET_USD)], for the value the decimal text stands for *)
Definition six_decimals (q : Q) : bool := q_is_int (q * inject_Z 1000000).
Definition dto_budget (l : AccessBudgetLimitInput) : bool :=
  existsb (λ w, String.eqb (in_window l) (window_str w)) ACCESS_BUDGET_WINDOWS &&
  match in_maxUsd l with
  | Num q => six_decimals q && Qle_bool (1 # 100) q && Qle_bool q (inject_Z MAX_BUDGET_USD)
  | _ => false
  end.
(** The fields of the policy; any number is finite here, and [tokenNeverExpires] a boolean. *)
Definition dto_policy (input : AccessKeyPolicyInput) : bool :=
  dto_int MIN_TOKEN_TTL_MINUTES MAX_TOKEN_TTL_MINUTES (in_tokenTtlMinutes input) &&
  (length (nullish (in_budgetLimits input) []) <=? 3)%nat && forallb dto_budget (nullish (in_budgetLimits input) []) &&
  dto_int 1 MAX_RPM_LIMIT (in_rpmLimit input) && dto_int 1 MAX_TPM_LIMIT (in_tpmLimit input).

(** * Theorems *)

(** What a request must satisfy to be accepted, stated without reference to the order in which the
    code checks it. *)
Definition integer_between (lo hi : Z) (n : number) : Prop :=
  ∃ q z, n = Num q ∧ (q == inject_Z z)%Q ∧ lo <= z <= hi.
Lemma dto_int_between lo hi o : (∀ n, o = Some n → integer_between lo hi n) → dto_int lo hi o = true.
Proof.
  destruct o as [n|]; [|done]. intros Ho. destruct (Ho n eq_refl) as (q & z & -> & Hq & Hz). cbn [dto_int].
  rewrite !andb_true_iff, !Qle_bool_iff. split; [split|rewrite Hq, <-Zle_Qle; lia]; [|rewrite Hq, <-Zle_Qle; lia].
  unfold q_is_int. apply Z.eqb_eq. destruct q as [n d]. unfold Qeq, inject_Z in Hq. cbn [Qnum Qden] in *. rewrite Z.mul_1_r in Hq. subst n.
  by apply Z.mod_mul.
Qed.
Definition acceptable_limit (l : AccessBudgetLimitInput) : Prop :=
  (∃ w, in_window l = window_str w) ∧
  ∃ q, in_maxUsd l = Num q ∧ (1 # 100 <= q)%Q ∧ (q <= inject_Z MAX_BUDGET_USD)%Q.
Definition acceptable (input : AccessKeyPolicyInput) (default : number) : Prop :=
  (if nullish (in_tokenNeverExpires input) false then in_tokenTtlMinutes input = None
   else integer_between MIN_TOKEN_TTL_MINUTES MAX_TOKEN_TTL_MINUTES
          (nullish (in_tokenTtlMinutes input) default)) ∧
  NoDup (in_window <$> nullish (in_budgetLimits input) []) ∧
  Forall acceptable_limit (nullish (in_budgetLimits input) []) ∧
  (∀ n, in_rpmLimit input = Some n → integer_between 1 MAX_RPM_LIMIT n) ∧
  (∀ n, in_tpmLimit input = Some n → integer_between 1 MAX_TPM_LIMIT n).

Lemma safe_int_in_is_Some lo hi v :
  - MAX_SAFE_INTEGER <= lo → hi <= MAX_SAFE_INTEGER →
  is_Some (safe_int_in lo hi v) ↔ integer_between lo hi v.
Proof.
  intros. split.
  - intros [z (q & ? & ? & ?)%safe_int_in_spec]; try done. by exists q, z.
  - intros (q & z & ? & ? & ?). exists z. apply safe_int_in_spec; naive_solver.
Qed.

Lemma finiteInteger_accepts v label max :
  max <= MAX_SAFE_INTEGER →
  is_ok (finiteInteger v label max) = true ↔ ∀ n, v = Some n → integer_between 1 max n.
Proof.
  intros. unfold finiteInteger. destruct v as [n|]; [|naive_solver].
  trans (is_Some (safe_int_in 1 max n)).
  - destruct (safe_int_in _ _ _); simpl; split; [by eauto|done|done|by intros []].
  - rewrite safe_int_in_is_Some by (unfold MAX_SAFE_INTEGER in *; lia). naive_solver.
Qed.

Lemma window_str_inj w w' : window_str w = window_str w' → w = w'.
Proof. by destruct w, w'. Qed.

Lemma normalizeBudgets_accepts seen l :
  is_ok (normalizeBudgets seen l) = true ↔
  NoDup (in_window <$> l) ∧ Forall acceptable_limit l ∧
  ∀ w, w ∈ seen → window_str w ∉ (in_window <$> l).
Proof.
  revert seen. induction l as [|e l IH]; intros seen; csimpl.
  { split; [|done]. repeat split; [constructor..|]. intros ? _. apply not_elem_of_nil. }
  rewrite NoDup_cons, Forall_cons. split.
  - destruct (normalizeBudget seen e) as [b|] eqn:Hb; [|done]. simpl.
    destruct (normalizeBudgets _ l) as [bs|] eqn:Hbs; [|done]. intros _.
    apply normalizeBudget_ok in Hb as (q & Hw & Hs & Hq & _).
    apply budget_in_range_spec in Hq.
    destruct (proj1 (IH (window b :: seen))) as (Hnd & Hall & Hseen); [by rewrite Hbs|].
    split_and!; [|done| |done|].
    + rewrite Hw. apply Hseen. set_solver.
    + split; eauto.
    + intros w Hin. rewrite not_elem_of_cons. split; [|apply Hseen; set_solver].
      rewrite Hw. intros ->%window_str_inj. done.
  - intros ([Hnin Hnd] & [([w Hw] & q & Hq) Hall] & Hseen).
    assert (normalizeBudget seen e = Ok {| window := w; maxUsd := round_micro q;
              budgetDuration := WINDOW_DURATION w |}) as ->.
    { apply normalizeBudget_ok. exists q. simpl. split_and!; [done| |by apply budget_in_range_spec|done].
      intros Hin. specialize (Hseen w Hin). set_solver. }
    simpl. assert (is_ok (normalizeBudgets (w :: seen) l) = true) as Hok.
    { apply IH. split_and!; [done..|]. intros w' [->|Hin]%elem_of_cons; [by rewrite <-Hw|].
      specialize (Hseen w' Hin). set_solver. }
    by destruct (normalizeBudgets _ l).
Qed.

Lemma normalizeTtl_accepts never ttl d :
  is_ok (normalizeTtl never ttl d) = true ↔
  (never = false →
   integer_between MIN_TOKEN_TTL_MINUTES MAX_TOKEN_TTL_MINUTES (nullish ttl d)).
Proof.
  unfold normalizeTtl. destruct never; [naive_solver|].
  rewrite <-safe_int_in_is_Some by (vm_compute; discriminate).
  destruct (safe_int_in _ _ _); simpl; split; [by eauto|done|done|].
  intros H. by destruct (H eq_refl).
Qed.

(** [normalizeAccessKeyPolicy] accepts exactly the acceptable requests: an explicitly
    non-expiring key carries no lifetime and any other lifetime (given or default) is a whole number
    of minutes in [5, 525600]; budget windows are known, distinct and between 0.01 and 1000000 USD;
    rate limits are whole numbers in range. Everything else is rejected with an error. *)
Theorem normalize_accepts_iff input d :
  is_ok (normalizeAccessKeyPolicy input d) = true ↔ acceptable input d.
Proof.
  unfold acceptable. set (never := nullish (in_tokenNeverExpires input) false).
  set (src := nullish (in_budgetLimits input) []).
  trans (¬ (never = true ∧ is_Some (in_tokenTtlMinutes input)) ∧
         is_ok (normalizeTtl never (in_tokenTtlMinutes input) d) = true ∧ (length src <= 3)%nat ∧
         is_ok (normalizeBudgets [] src) = true ∧
         is_ok (finiteInteger (in_rpmLimit input) "rpmLimit" MAX_RPM_LIMIT) = true ∧
         is_ok (finiteInteger (in_tpmLimit input) "tpmLimit" MAX_TPM_LIMIT) = true).
  - unfold normalizeAccessKeyPolicy. fold never src.
    unfold throw_if. simpl.
    destruct (never && _) eqn:Hn; simpl; boolify; [naive_solver|].
    destruct (normalizeTtl _ _ _); simpl; [|naive_solver].
    destruct (3 <? length src)%nat eqn:Hlen; simpl; boolify; [naive_solver lia|].
    destruct (normalizeBudgets _ _); simpl; [|naive_solver].
    destruct (finiteInteger _ "rpmLimit" _); simpl; [|naive_solver].
    destruct (finiteInteger _ "tpmLimit" _); simpl; [|naive_solver].
    split; [|done]. intros _. split_and!; try done.
    intros [Ht [? Hs]]. destruct Hn; congruence.
  - rewrite normalizeTtl_accepts, normalizeBudgets_accepts.
    rewrite !finiteInteger_accepts by (vm_compute; discriminate).
    split.
    + intros (Hn & Httl & _ & (Hnd & Hall & _) & Hr & Ht). split_and!; try done.
      destruct never; [|by apply Httl]. apply eq_None_not_Some. naive_solver.
    + intros (Hn & Hnd & Hall & Hr & Ht). split_and!; try done.
      * intros [-> Hs]. rewrite Hn in Hs. by destruct Hs.
      * by intros ->.
      * rewrite <-(length_fmap in_window). revert Hnd Hall. generalize src. clear.
        intros src Hnd Hall. change 3%nat with (length (window_str <$> ACCESS_BUDGET_WINDOWS)).
        apply submseteq_length, NoDup_submseteq; [done|].
        intros s (l & -> & Hl)%list_elem_of_fmap.
        rewrite Forall_forall in Hall. destruct (Hall _ Hl) as [[[] ->] _]; set_solver.
      * set_solver.
Qed.

Lemma parse_store p d' : policy_wf p → parseStoredAccessKeyPolicy (store_policy p) d' = Ok p.
Proof.
  intros (Hnev & Httl & Hnd & Hb & Hr & Ht).
  pose proof (windows_bound _ Hnd) as Hlen. rewrite length_fmap in Hlen.
  unfold parseStoredAccessKeyPolicy, store_policy. simpl. rewrite mapR_parseStored. simpl.
  unfold normalizeAccessKeyPolicy. simpl.
  rewrite (normalizeBudgets_stored [] (budgetLimits p)); [|done|set_solver|done].
  rewrite length_fmap, (finiteInteger_stored _ _ MAX_RPM_LIMIT),
    (finiteInteger_stored _ _ MAX_TPM_LIMIT) by (assumption || discriminate).
  assert ((3 <? length (budgetLimits p))%nat = false) as -> by (apply Nat.ltb_ge; lia).
  clear Hnd Hb Hr Ht Hlen. unfold throw_if, normalizeTtl.
  destruct p as [ttl [] bs r t]; csimpl in *.
  - by rewrite (proj1 Hnev eq_refl).
  - destruct ttl as [z|]; [|discriminate (proj2 Hnev eq_refl)]. simpl.
    rewrite safe_int_in_numZ; [done|done|done|by apply Httl].
Qed.
(** Only an explicit request makes a key that does not expire. *)
Lemma normalize_never input d p :
  normalizeAccessKeyPolicy input d = Ok p → tokenNeverExpires p = nullish (in_tokenNeverExpires input) false.
Proof. unfold normalizeAccessKeyPolicy. intros H. by inv_ok. Qed.

(** Whatever [normalizeAccessKeyPolicy] accepts, writing the policy to an enrollment code row
    and reading it back with [parseStoredAccessKeyPolicy] yields the same policy, whatever the
    deployment's default lifetime has become in the meantime: the limits a device gets are the
    limits the administrator approved. *)
Theorem stored_policy_roundtrip input d p d' :
  normalizeAccessKeyPolicy input d = Ok p →
  parseStoredAccessKeyPolicy (store_policy p) d' = Ok p.
Proof. intros H. by eapply parse_store, normalize_wf. Qed.

Definition sample_input : AccessKeyPolicyInput :=
  {| in_tokenTtlMinutes := Some (numZ 60); in_tokenNeverExpires := None;
     in_budgetLimits := Some [{| in_window := "5h"; in_maxUsd := Num (5 # 2) |};
                              {| in_window := "month"; in_maxUsd := Num (12345678 # 1000000) |}];
     in_rpmLimit := Some (numZ 30); in_tpmLimit := None |}.
Definition sample_policy : StoredAccessKeyPolicy :=
  {| tokenTtlMinutes := Some 60; tokenNeverExpires := false;
     budgetLimits := [{| window := W5h; maxUsd := 2500000 # 1000000; budgetDuration := D5h |};
                      {| window := Wmonth; maxUsd := 12345678 # 1000000; budgetDuration := D30d |}];
     rpmLimit := Some 30; tpmLimit := None |}.

Lemma stored_policy_roundtrip_witness :
  parseStoredAccessKeyPolicy (store_policy sample_policy) (numZ 10080) = Ok sample_policy.
Proof. apply (stored_policy_roundtrip sample_input (numZ 10080)). vm_compute. reflexivity. Defined.

(** A usage window consists of [bucketCount] whole UTC-aligned buckets, ends with the bucket
    that contains the report time, and therefore covers it. *)
Theorem usageWindow_buckets r t w :
  usageWindow r (Some t) = Ok w →
  to w - from w = bucketCount w * bucketMs w ∧ from w mod bucketMs w = 0 ∧
  to w - bucketMs w <= t < to w ∧ from w <= t.
Proof.
  assert (0 < hourMs ∧ 0 < dayMs) as [??] by (vm_compute; done).
  pose proof (Z.div_mod t hourMs). pose proof (Z.div_mod t dayMs).
  pose proof (Z.mod_pos_bound t hourMs). pose proof (Z.mod_pos_bound t dayMs).
  unfold usageWindow, utc_floor. intros Hw.
  assert (∀ u k, 0 < u → (t / u * u - k * u) mod u = 0) as Hal.
  { intros u k ?. rewrite <-Z.mul_sub_distr_r. apply Z.mod_mul. lia. }
  destruct r; simplify_eq/=; (split_and!; [lia|apply Hal; done|nia|nia|nia]).
Qed.

Lemma usageWindow_buckets_witness :
  ∃ w, usageWindow R7d (Some 1700000000000) = Ok w ∧
    to w - from w = bucketCount w * bucketMs w.
Proof.
  eexists. split; [reflexivity|].
  exact (proj1 (usageWindow_buckets R7d 1700000000000 _ eq_refl)).
Defined.
