(* ===== verification/ModelPolicy.v ===== *)
(** The managed model catalog ([src/providers/model-policy.ts]): which models a deployment
    authorises, how a requested model or a legacy alias resolves to one of them, and which
    reasoning efforts are advertised. Model ids are assumed not to name members of
    [Object.prototype] (the object-literal tables of the source have no own key of such a name). *)
From S2P Require Import Prelude.

Definition DEFAULT_MANAGED_MODELS : list string :=
  ["deepseek-v4-flash"; "deepseek-v4-pro"; "deepseek-v4-flash-vision-exp"].

Definition model_char (c : ascii) : bool := is_alnum c || is_char "._:/-" c.
(** [/^[A-Za-z0-9][A-Za-z0-9._:/-]{0,127}$/] *)
Definition SAFE_MODEL_ID (s : string) : bool :=
  match chars s with
  | [] => false
  | c :: l => is_alnum c && forallb model_char l && (length l <=? 127)
  end.

Definition LEGACY_MANAGED_MODEL_ALIASES (s : string) : option string :=
  if String.eqb s "deepseek-chat" then Some "deepseek-v4-flash"
  else if String.eqb s "deepseek-pro" then Some "deepseek-v4-pro"
  else None.

Record Details := {
  provider : string; family : string; tier : string;
  contextWindowTokens : Z; maxOutputTokens : Z;
  thinkingEfforts : list string; inputModalities : list string }.

Definition deepseek_v4 (t : string) (modalities : list string) : Details :=
  {| provider := "deepseek"; family := "deepseek-v4"; tier := t;
     contextWindowTokens := 1000000; maxOutputTokens := 384000;
     thinkingEfforts := ["off"; "low"; "high"; "max"]; inputModalities := modalities |}.
Definition DEEPSEEK_V4_DETAILS (s : string) : option Details :=
  if String.eqb s "deepseek-v4-flash" then Some (deepseek_v4 "flash" ["text"])
  else if String.eqb s "deepseek-v4-pro" then Some (deepseek_v4 "pro" ["text"])
  else if String.eqb s "deepseek-v4-flash-vision-exp" then Some (deepseek_v4 "vision" ["text"; "image"])
  else None.

Record ManagedModelOption := {
  id : string; opt_provider : string; opt_family : string; opt_tier : string;
  opt_contextWindowTokens : option Z; opt_maxOutputTokens : option Z;
  opt_thinkingEfforts : list string; opt_inputModalities : list string; isDefault : bool }.
Record ManagedModelCapability := { model : string; cap_thinkingEfforts : list string }.

Definition canonicalManagedModelId (m : string) : string :=
  let trimmed := trim m in nullish (LEGACY_MANAGED_MODEL_ALIASES trimmed) trimmed.

(** [env.NAME || ""] *)
Definition env_or_empty (e : env) (name : string) : string := nullish (e name) "".

Definition configuredModels (e : env) : list string :=
  List.filter truthy
    (canonicalManagedModelId <$> split "," (env_or_empty e "HARA_ALLOWED_MODELS")).
Definition allowedManagedModels (e : env) : res (list string) :=
  let configured := configuredModels e in
  let models := if 0 <? length configured then uniq configured else DEFAULT_MANAGED_MODELS in
  if existsb (λ m, negb (SAFE_MODEL_ID m)) models
  then Throw (Error "HARA_ALLOWED_MODELS contains an invalid model id")
  else Ok models.

Definition defaultManagedModel (e : env) : res string :=
  allowed ← allowedManagedModels e;
  let m := canonicalManagedModelId
             (or_default (env_or_empty e "HARA_DEFAULT_MODEL") (nullish (head allowed) "undefined")) in
  if mem m allowed then Ok m
  else Throw (Error "HARA_DEFAULT_MODEL must be present in HARA_ALLOWED_MODELS").

Definition modelOption (selectedDefault : string) (i : string) : ManagedModelOption :=
  let details := DEEPSEEK_V4_DETAILS i in
  {| id := i;
     opt_provider := from_option provider "custom" details;
     opt_family := from_option family "custom" details;
     opt_tier := from_option tier "custom" details;
     opt_contextWindowTokens := contextWindowTokens <$> details;
     opt_maxOutputTokens := maxOutputTokens <$> details;
     opt_thinkingEfforts := from_option thinkingEfforts [] details;
     opt_inputModalities := from_option inputModalities ["text"] details;
     isDefault := String.eqb i selectedDefault |}.
Definition managedModelOptions (e : env) : res (list ManagedModelOption) :=
  selectedDefault ← defaultManagedModel e;
  allowed ← allowedManagedModels e;
  Ok (map (modelOption selectedDefault) allowed).

Definition managedModelThinkingEfforts (m : string) : list string :=
  from_option thinkingEfforts [] (DEEPSEEK_V4_DETAILS (canonicalManagedModelId m)).

Definition managedModelCapabilities (models : list string) : list ManagedModelCapability :=
  (λ m, {| model := m; cap_thinkingEfforts := managedModelThinkingEfforts m |}) <$> models.

Definition resolveEnrollmentReasoningEffort (requested : option string) (m : string) : res string :=
  let effort := trim (nullish requested "") in
  if negb (truthy effort) then Ok ""
  else if negb (mem effort (managedModelThinkingEfforts m))
  then Throw (Error ("model " +:+ dquote m +:+ " does not support reasoning effort " +:+ dquote effort))
  else Ok effort.

Definition managedModelsThinkingEfforts (models : list string) : list string :=
  match models with
  | [] => []
  | _ =>
      let efforts := managedModelThinkingEfforts <$> models in
      if existsb (λ items, length items =? 0) efforts then []
      else List.filter (λ effort, forallb (λ items, mem effort items) (drop 1 efforts))
             (nullish (head efforts) [])
  end.

Definition is_litellm (e : env) : bool := bool_decide (e "GATEWAY_ADAPTER" = Some "litellm").

Definition resolveEnrollmentModel (requested : option string) (e : env) : res string :=
  let requestedModel := trim (nullish requested "") in
  if negb (is_litellm e) then Ok requestedModel
  else
    let m := canonicalManagedModelId requestedModel in
    allowed ← allowedManagedModels e;
    resolved ← (if truthy m then Ok m else defaultManagedModel e);
    if mem resolved allowed then Ok resolved
    else Throw (Error ("model " +:+ dquote resolved +:+ " is not allowed by this Hara deployment")).

Definition enrollmentManagedModels (selected : string) (e : env) : res (list string) :=
  if negb (is_litellm e) then Ok (if truthy selected then [selected] else [])
  else
    models ← allowedManagedModels e;
    resolved ← resolveEnrollmentModel (Some selected) e;
    if mem resolved models then Ok models
    else Throw (Error ("model " +:+ dquote selected +:+ " is not allowed by this Hara deployment")).

Definition managedModelsForRecordedToken (selected : string) (e : env) : res (list string) :=
  if negb (is_litellm e) then Ok (if truthy selected then [selected] else [])
  else
    models ← allowedManagedModels e;
    let c := canonicalManagedModelId selected in
    resolved ← (if truthy c then Ok c else defaultManagedModel e);
    Ok (if mem resolved models then models else []).

Definition managedKeyAuthorizationModels (storedModel : string) (catalog : list string) : list string :=
  let models := uniq catalog in
  let legacy := trim storedModel in
  if truthy legacy && negb (String.eqb (canonicalManagedModelId legacy) legacy)
     && negb (mem legacy models)
  then models ++ [legacy] else models.

(** * Lemmas *)

Lemma trim_literal_flash : trim "deepseek-v4-flash" = "deepseek-v4-flash".
Proof. reflexivity. Qed.

Lemma canonical_not_legacy m : LEGACY_MANAGED_MODEL_ALIASES (canonicalManagedModelId m) = None.
Proof.
  unfold canonicalManagedModelId, LEGACY_MANAGED_MODEL_ALIASES.
  destruct (String.eqb (trim m) "deepseek-chat") eqn:E1; [done|].
  destruct (String.eqb (trim m) "deepseek-pro") eqn:E2; [done|]. simpl. by rewrite E1, E2.
Qed.

Lemma canonical_trim m : trim (canonicalManagedModelId m) = canonicalManagedModelId m.
Proof.
  unfold canonicalManagedModelId, LEGACY_MANAGED_MODEL_ALIASES.
  repeat case_match; simplify_eq/=; [done..|apply trim_idemp].
Qed.

Lemma canonical_idemp m :
  canonicalManagedModelId (canonicalManagedModelId m) = canonicalManagedModelId m.
Proof.
  unfold canonicalManagedModelId at 1. by rewrite canonical_trim, canonical_not_legacy.
Qed.

Lemma canonical_of_trim m : canonicalManagedModelId (trim m) = canonicalManagedModelId m.
Proof. unfold canonicalManagedModelId. by rewrite trim_idemp. Qed.

#[export] Hint Rewrite canonical_trim canonical_idemp canonical_of_trim trim_idemp : arrays.

(** The catalogs the source can build. *)
Record catalog_ok (models : list string) : Prop := {
  cat_nonempty : models ≠ [];
  cat_nodup : NoDup models;
  cat_safe : Forall (λ m, SAFE_MODEL_ID m = true) models;
  cat_canonical : Forall (λ m, canonicalManagedModelId m = m) models }.

Lemma allowed_ok e models : allowedManagedModels e = Ok models → catalog_ok models.
Proof.
  unfold allowedManagedModels.
  set (ms := if 0 <? _ then _ else _). destruct (existsb _ ms) eqn:Hex; [done|]. intros [= <-].
  assert (ms ≠ [] ∧ NoDup ms ∧ Forall (λ m, canonicalManagedModelId m = m) ms) as (?&?&?).
  { unfold ms. destruct (0 <? _) eqn:Hlen; boolify.
    - split_and!; [|apply NoDup_uniq|].
      + intros E%uniq_nil_inv. rewrite E in Hlen. simpl in Hlen. lia.
      + apply Forall_forall. intros m Hm%elem_of_uniq_1. unfold configuredModels in Hm.
        apply list_elem_of_In, filter_In in Hm as [Hm%list_elem_of_In _].
        apply list_elem_of_fmap in Hm as (x & -> & _). apply canonical_idemp.
    - split_and!; [done| |repeat constructor]. unfold DEFAULT_MANAGED_MODELS.
      apply (bool_decide_unpack _). vm_compute. done. }
  split; [done..| |done]. apply Forall_forall. intros m Hm.
  destruct (SAFE_MODEL_ID m) eqn:Hsafe; [done|].
  assert (existsb (λ m, negb (SAFE_MODEL_ID m)) ms = true) as Hc; [|congruence].
  apply existsb_exists. exists m. rewrite Hsafe. split; [by apply list_elem_of_In|done].
Qed.

Lemma default_ok e m allowed :
  allowedManagedModels e = Ok allowed → defaultManagedModel e = Ok m → m ∈ allowed.
Proof.
  unfold defaultManagedModel. intros ->. simpl. destruct (mem _ _) eqn:Hm; [|done].
  intros [= <-]. by apply mem_true.
Qed.

Lemma resolve_litellm requested e m :
  is_litellm e = true → resolveEnrollmentModel requested e = Ok m →
  ∃ allowed, allowedManagedModels e = Ok allowed ∧ m ∈ allowed.
Proof.
  unfold resolveEnrollmentModel. intros ->. simpl. intros H. inv_ok.
  destruct (mem _ _) eqn:Hm; inv_ok. eexists. split; [done|]. by apply mem_true.
Qed.

Lemma safe_truthy m : SAFE_MODEL_ID m = true → truthy m = true.
Proof. by destruct m. Qed.

(** * Theorems *)

(** Under the LiteLLM gateway a successful resolution always names a model of the deployment's
    catalog (a non-empty, duplicate-free list of well-formed canonical ids), it is stable (resolving
    the result again gives the same model), the connection is then authorised for exactly that
    catalog, and a legacy alias resolves like the canonical id it stands for. *)
Theorem resolve_in_catalog requested e m :
  is_litellm e = true → resolveEnrollmentModel requested e = Ok m →
  ∃ catalog, allowedManagedModels e = Ok catalog ∧ catalog_ok catalog ∧ m ∈ catalog ∧
    resolveEnrollmentModel (Some m) e = Ok m ∧ enrollmentManagedModels m e = Ok catalog ∧
    managedModelsForRecordedToken m e = Ok catalog.
Proof.
  intros Hl Hr. destruct (resolve_litellm _ _ _ Hl Hr) as (catalog & Ha & Hin).
  pose proof (allowed_ok _ _ Ha) as Hc. exists catalog.
  pose proof (cat_canonical _ Hc) as Hcan. rewrite Forall_forall in Hcan. specialize (Hcan m Hin).
  pose proof (cat_safe _ Hc) as Hsafe. rewrite Forall_forall in Hsafe.
  pose proof (safe_truthy _ (Hsafe m Hin)) as Ht.
  assert (resolveEnrollmentModel (Some m) e = Ok m) as Hm.
  { unfold resolveEnrollmentModel. rewrite Hl, Ha. simpl.
    rewrite canonical_of_trim, Hcan, Ht. simpl. by rewrite (proj2 (mem_true _ _) Hin). }
  split_and!; [done..| |].
  - unfold enrollmentManagedModels. rewrite Hl, Ha. simpl. rewrite Hm. simpl.
    by rewrite (proj2 (mem_true _ _) Hin).
  - unfold managedModelsForRecordedToken. rewrite Hl, Ha. simpl.
    rewrite Hcan, Ht. simpl. by rewrite (proj2 (mem_true _ _) Hin).
Qed.

Definition litellm_env : env := λ k,
  if String.eqb k "GATEWAY_ADAPTER" then Some "litellm"
  else if String.eqb k "HARA_ALLOWED_MODELS" then Some "deepseek-chat, custom/m1" else None.

Lemma resolve_in_catalog_witness :
  ∃ catalog, allowedManagedModels litellm_env = Ok catalog ∧ catalog_ok catalog ∧
    "deepseek-v4-flash" ∈ catalog ∧
    resolveEnrollmentModel (Some "deepseek-v4-flash") litellm_env = Ok "deepseek-v4-flash" ∧
    enrollmentManagedModels "deepseek-v4-flash" litellm_env = Ok catalog ∧
    managedModelsForRecordedToken "deepseek-v4-flash" litellm_env = Ok catalog.
Proof. apply (resolve_in_catalog (Some " deepseek-chat ")); vm_compute; reflexivity. Defined.

(** The reasoning efforts advertised for a multi-model connection are exactly those every one
    of its models supports, so a choice stays valid after switching models; with no model, or with
    one that has no effort dial, none is advertised. *)
Theorem shared_efforts_intersection models effort :
  effort ∈ managedModelsThinkingEfforts models ↔
  models ≠ [] ∧ ∀ m, m ∈ models → effort ∈ managedModelThinkingEfforts m.
Proof.
  destruct models as [|m0 ms]; [by set_solver|]. unfold managedModelsThinkingEfforts.
  destruct (existsb _ _) eqn:Hex.
  - apply existsb_exists in Hex as (items & Hin & Hlen). boolify.
    apply list_elem_of_In, list_elem_of_fmap in Hin as (m & -> & Hm).
    apply nil_length_inv in Hlen. split; [by intros ?%not_elem_of_nil|].
    intros [_ H]. specialize (H m Hm). rewrite Hlen in H. by apply not_elem_of_nil in H.
  - simpl. rewrite list_elem_of_In, filter_In, <-list_elem_of_In, forallb_forall. split.
    + intros [H0 Hall]. split; [done|]. intros m [->|Hm]%elem_of_cons; [done|].
      apply mem_true, Hall, list_elem_of_In, list_elem_of_fmap. by exists m.
    + intros [_ H]. split; [apply H; set_solver|].
      intros items (m & -> & Hm)%list_elem_of_In%list_elem_of_fmap.
      apply mem_true, H. set_solver.
Qed.

(** The models a device key is synchronised to are the catalog, without duplicates, plus at
    most one more: the trimmed stored name, and that only when it is a legacy alias missing from the
    catalog. No other model can enter a key's authorisation. *)
Theorem key_authorization_models stored catalog m :
  NoDup (managedKeyAuthorizationModels stored catalog) ∧
  (m ∈ managedKeyAuthorizationModels stored catalog ↔
   m ∈ catalog ∨
   (m = trim stored ∧ is_Some (LEGACY_MANAGED_MODEL_ALIASES m) ∧ m ∉ catalog)).
Proof.
  assert (∀ s, trim s = s →
    canonicalManagedModelId s ≠ s ↔ is_Some (LEGACY_MANAGED_MODEL_ALIASES s)) as Hleg.
  { intros s Hs. unfold canonicalManagedModelId. rewrite Hs.
    unfold LEGACY_MANAGED_MODEL_ALIASES. repeat case_match; simplify_eq/=; boolify; subst.
    - split; [by eauto|done].
    - split; [by eauto|done].
    - split; [done|by intros []]. }
  unfold managedKeyAuthorizationModels.
  specialize (Hleg (trim stored) (trim_idemp stored)).
  destruct (truthy (trim stored) && _ && _) eqn:Hb; boolify.
  - destruct Hb as [[Ht Hc] Hn]. rewrite elem_of_uniq in Hn. apply Hleg in Hc. split.
    + apply NoDup_app. split_and!; [apply NoDup_uniq| |apply NoDup_singleton].
      intros x Hx%elem_of_uniq_1. set_solver.
    + rewrite elem_of_app, elem_of_uniq, list_elem_of_singleton. naive_solver.
  - split; [apply NoDup_uniq|]. rewrite elem_of_uniq. split; [by left|].
    intros [?|(-> & Hs & Hn)]; [done|]. exfalso.
    rewrite elem_of_uniq in Hb. apply Hleg in Hs as Hs'.
    destruct Hb as [[Hb|Hb]|Hb]; [rewrite Hb in Hs; by destruct Hs|congruence|done].
Qed.
