(* ===== verification/Crypto.v ===== *)
(** Primitives of [src/common/crypto.ts]: base32 on 32-bit integers, base64url, HS256 tokens,
    scrypt password records, TOTP codes, canonical JSON and the hash-chain link. The hash functions
    of [node:crypto] ([sha256], HMAC, scrypt) and [JSON.parse] are parameters; bytes are integers
    in [0, 256); a string is the list of its (8-bit) code units, so its UTF-8 [Buffer] is the list
    of their codes. *)
From S2P Require Import Prelude Js.
Local Open Scope Z_scope.

(** * Bytes and 32-bit integers *)

Definition is_byte (z : Z) : Prop := 0 <= z < 256.
Definition bytes_of (s : string) : list Z := map (λ c, Z.of_nat (code c)) (chars s).
Definition of_bytes (l : list Z) : string := str (map (λ z, ascii_of_nat (Z.to_nat z)) l).

(** ToInt32, [a << n] and [a >>> n]. *)
Definition int32 (z : Z) : Z := let u := z mod 2 ^ 32 in if u <? 2 ^ 31 then u else u - 2 ^ 32.
Definition shl (a : Z) (n : nat) : Z := int32 (Z.shiftl a (Z.of_nat n)).
Definition ushr (a : Z) (n : nat) : Z := Z.shiftr (a mod 2 ^ 32) (Z.of_nat n).

(** * Base32 *)

Definition B32_ALPHABET : string := "ABCDEFGHIJKLMNOPQRSTUVWXYZ234567".
Definition b32_char (i : Z) : ascii := nth (Z.to_nat i) (chars B32_ALPHABET) Ascii.zero.
Definition b32_index (c : ascii) : option Z :=
  (λ p, Z.of_nat p.1) <$> list_find (λ d, d = c) (chars B32_ALPHABET).

(** [while (bits >= 5) { out += ...; bits -= 5; }]: the characters and the bits left. *)
Fixpoint b32_drain (fuel bits : nat) (value : Z) : list ascii * nat :=
  match fuel with
  | O => ([], bits)
  | S fuel =>
      if (5 <=? bits)%nat then
        let '(out, bits') := b32_drain fuel (bits - 5) value in
        (b32_char (Z.land (ushr value (bits - 5)) 0x1f) :: out, bits')
      else ([], bits)
  end.
(** The [for (const byte of buf)] loop and the final partial group. *)
Fixpoint b32_encode_from (bits : nat) (value : Z) (buf : list Z) : list ascii :=
  match buf with
  | [] => if (0 <? bits)%nat then [b32_char (Z.land (shl value (5 - bits)) 0x1f)] else []
  | byte :: buf' =>
      let value := Z.lor (shl value 8) byte in
      let '(out, bits') := b32_drain (bits + 8) (bits + 8) value in
      out ++ b32_encode_from bits' value buf'
  end.
Definition base32Encode (buf : list Z) : string := str (b32_encode_from 0 0 buf).

Fixpoint b32_decode_from (bits : nat) (value : Z) (l : list ascii) : res (list Z) :=
  match l with
  | [] => Ok []
  | ch :: l' =>
      match b32_index ch with
      | None => Throw (Error "invalid base32 character")
      | Some idx =>
          let value := Z.lor (shl value 5) idx in
          let bits := (bits + 5)%nat in
          if (8 <=? bits)%nat then
            out ← b32_decode_from (bits - 8) value l';
            Ok (Z.land (ushr value (bits - 8)) 0xff :: out)
          else b32_decode_from bits value l'
      end
  end.
Definition upper_ascii (c : ascii) : ascii :=
  if is_lower c then ascii_of_nat (code c - 32) else c.
(** [s.replace(/=+$/, "")] *)
Definition strip_pad (l : list ascii) : list ascii :=
  reverse (dropWhile (λ c, is_char "=" c) (reverse l)).
Definition base32Decode (s : string) : res (list Z) :=
  b32_decode_from 0 0
    (map upper_ascii (strip_pad (filter (λ c, is_ws c = false) (chars s)))).

(** * Base64 ([Buffer]) and base64url *)

Definition B64_ALPHABET : string :=
  "ABCDEFGHIJKLMNOPQRSTUVWXYZabcdefghijklmnopqrstuvwxyz0123456789+/".
Definition b64_char (i : Z) : ascii := nth (Z.to_nat i) (chars B64_ALPHABET) Ascii.zero.
(** The decoder accepts both alphabets. *)
Definition b64_index (c : ascii) : option Z :=
  if is_char "-" c then Some 62
  else if is_char "_" c then Some 63
  else (λ p, Z.of_nat p.1) <$> list_find (λ d, d = c) (chars B64_ALPHABET).

Fixpoint b64_digits (l : list Z) : list Z :=
  match l with
  | a :: b :: c :: l' =>
      a / 4 :: a mod 4 * 16 + b / 16 :: b mod 16 * 4 + c / 64 :: c mod 64 :: b64_digits l'
  | [a; b] => [a / 4; a mod 4 * 16 + b / 16; b mod 16 * 4]
  | [a] => [a / 4; a mod 4 * 16]
  | [] => []
  end.
Fixpoint b64_undigits (l : list Z) : list Z :=
  match l with
  | a :: b :: c :: d :: l' =>
      a * 4 + b / 16 :: b mod 16 * 16 + c / 4 :: c mod 4 * 64 + d :: b64_undigits l'
  | [a; b; c] => [a * 4 + b / 16; b mod 16 * 16 + c / 4]
  | [a; b] => [a * 4 + b / 16]
  | _ => []
  end.
(** [buf.toString("base64")] *)
Definition base64 (buf : list Z) : string :=
  let body := map b64_char (b64_digits buf) in
  str (body ++ replicate (Nat.modulo (4 - Nat.modulo (length body) 4) 4) "="%char).
Fixpoint b64_valid (l : list ascii) : list Z :=
  match l with
  | [] => []
  | c :: l' => if is_char "=" c then []
      else match b64_index c with Some i => i :: b64_valid l' | None => b64_valid l' end
  end.
(** [Buffer.from(s, "base64")]: stops at padding, skips other characters, never throws. *)
Definition from_base64 (s : string) : list Z := b64_undigits (b64_valid (chars s)).

Definition replace_char (a b : ascii) (l : list ascii) : list ascii :=
  map (λ c, if Ascii.eqb c a then b else c) l.
Definition b64uEncode (buf : list Z) : string :=
  str (strip_pad (replace_char "/" "_" (replace_char "+" "-" (chars (base64 buf))))).
Definition b64uDecode (s : string) : list Z :=
  let n := Nat.modulo (String.length s) 4 in
  let pad := if (n =? 0)%nat then [] else replicate (4 - n) "="%char in
  from_base64 (str (replace_char "_" "/" (replace_char "-" "+" (chars s)) ++ pad)).

(** * Values *)

(** A JavaScript value as data: a JSON value, but also undefined, numbers that are not finite, and arrays and objects of
    such. Arrays have no holes. *)
Inductive value : Type :=
  | VUndefined
  | VNull
  | VBool (b : bool)
  | VNumber (n : number)
  | VStr (s : string)
  | VArr (l : list value)
  | VObj (m : list (string * value)).
Fixpoint of_json (v : json) : value :=
  match v with
  | JNull => VNull
  | JBool b => VBool b
  | JNum q => VNumber (Num q)
  | JStr s => VStr s
  | JArr l => VArr (map of_json l)
  | JObj m => VObj (map (λ '(k, x), (k, of_json x)) m)
  end.

(** * Password records and tokens *)
Section primitives.
Context (scrypt : string → list Z → nat → list Z) (hmac_sha256 : string → string → list Z)
  (hmac_sha1 : list Z → list Z → list Z) (JSON_parse : string → option json)
  (sha256 : string → string).

Definition SCRYPT_KEYLEN : nat := 64.
(** [salt] is the random salt. *)
Definition hashPassword (pw : string) (salt : list Z) : string :=
  "scrypt$" +:+ base64 salt +:+ "$" +:+ base64 (scrypt pw salt SCRYPT_KEYLEN).

Definition verifyPassword (pw stored : string) : bool :=
  match split "$" stored with
  | [alg; saltPart; hashPart] =>
      if String.eqb alg "scrypt" then
        let salt := from_base64 saltPart in
        let expected := from_base64 hashPart in
        let actual := scrypt pw salt (length expected) in
        (length actual =? length expected)%nat && bool_decide (actual = expected)
      else false
  | _ => false
  end.

(** The claims of a token: the members of its payload object. *)
Definition claims : Type := list (string * json).

Definition jwt_header : json := JObj [("alg", JStr "HS256"); ("typ", JStr "JWT")].
(** [now] is [Math.floor(Date.now() / 1000)]. *)
Definition signJwt (payload : claims) (secret : string) (now ttlSec : Z) : string :=
  let body := obj_set "exp" (JNum (inject_Z (now + ttlSec)))
                (obj_set "iat" (JNum (inject_Z now)) payload) in
  let h := b64uEncode (bytes_of (JSON_stringify jwt_header)) in
  let p := b64uEncode (bytes_of (JSON_stringify (JObj body))) in
  let signing := h +:+ "." +:+ p in
  signing +:+ "." +:+ b64uEncode (hmac_sha256 secret signing).

Definition verifyJwt (token secret : string) (now : Z) : option claims :=
  match split "." token with
  | [h; p; sig] =>
      let expected := hmac_sha256 secret (h +:+ "." +:+ p) in
      let provided := b64uDecode sig in
      if negb (length provided =? length expected)%nat then None
      else if negb (bool_decide (provided = expected)) then None
      else match JSON_parse (of_bytes (b64uDecode p)) with
           | Some (JObj m) =>
               match assoc "exp" m with
               | Some (JNum exp) => if Qle_bool exp (inject_Z now) then None else Some m
               | _ => None
               end
           | _ => None
           end
  | _ => None
  end.

(** * TOTP *)

Definition u32be (z : Z) : list Z :=
  [z / 2 ^ 24 mod 256; z / 2 ^ 16 mod 256; z / 2 ^ 8 mod 256; z mod 256].
Definition at0 (mac : list Z) (i : nat) : Z := nth i mac 0.
Definition digit_char (z : Z) : ascii := ascii_of_nat (48 + Z.to_nat (z mod 10)).
(** [n.toString().padStart(6, "0")] for [0 <= n < 1000000] *)
Definition six_digits (n : Z) : string :=
  str (map digit_char [n / 100000; n / 10000; n / 1000; n / 100; n / 10; n]).
Definition hotp6 (key : list Z) (counter : Z) : string :=
  let high := counter / 0x100000000 in
  let low := counter mod 2 ^ 32 in
  let mac := hmac_sha1 key (u32be high ++ u32be low) in
  let offset := Z.to_nat (Z.land (at0 mac (length mac - 1)) 0x0f) in
  let truncated :=
    Z.lor (Z.lor (Z.lor (shl (Z.land (at0 mac offset) 0x7f) 24)
                        (shl (Z.land (at0 mac (offset + 1)) 0xff) 16))
                 (shl (Z.land (at0 mac (offset + 2)) 0xff) 8))
          (Z.land (at0 mac (offset + 3)) 0xff) in
  six_digits (truncated mod 1000000).

(** [for (let w = -window; w <= window; w++)] *)
Definition totp_offsets (window : nat) : list Z :=
  map (λ i, Z.of_nat i - Z.of_nat window) (seq 0 (2 * window + 1)).
Definition verifyTotp (secret code : string) (window : nat) (nowMs : Z) : bool :=
  if negb (truthy secret) then false
  else
    let trimmed := filter (λ c, is_ws c = false) (chars code) in
    if negb ((length trimmed =? 6)%nat && forallb is_digit trimmed) then false
    else match base32Decode secret with
         | Throw _ => false
         | Ok key =>
             let step := nowMs / 1000 / 30 in
             existsb (λ w, String.eqb (hotp6 key (step + w)) (str trimmed)) (totp_offsets window)
         end.

(** * Canonical JSON and the chain link *)

(** [JSON.stringify(v)] of a value that is no object: [None] is undefined; numbers without a literal are null. *)
Definition stringify_leaf (v : value) : option string :=
  match v with
  | VNull | VNumber NaN | VNumber (Infinity _) => Some "null"
  | VBool b => Some (JSON_stringify (JBool b))
  | VNumber (Num q) => Some (num_toString q)
  | VStr s => Some (quote s)
  | _ => None
  end.
Fixpoint canonicalJson (v : value) : string :=
  match v with
  | VArr l => "[" +:+ join "," (map canonicalJson l) +:+ "]"
  | VObj m =>
      let fields := map (λ '(k, x), (k, canonicalJson x)) m in
      "{" +:+ join "," (map (λ k, quote k +:+ ":" +:+ default "" (assoc k fields))
                            (sort_str (map fst m))) +:+ "}"
  | _ => nullish (stringify_leaf v) "null"
  end.
Definition chainHash (fields : claims) (prevHash : string) : string :=
  sha256 (canonicalJson (of_json (JObj fields)) +:+ prevHash).
End primitives.

(** * Bits *)

(** The [w] low bits of [v], most significant first. *)
Fixpoint bits (w : nat) (v : Z) : list bool :=
  match w with O => [] | S w' => Z.testbit v (Z.of_nat w') :: bits w' v end.

Lemma bits_length w v : length (bits w v) = w.
Proof. induction w; simpl; auto. Qed.

Lemma bits_ext w v v' :
  (∀ i, 0 <= i < Z.of_nat w → Z.testbit v i = Z.testbit v' i) → bits w v = bits w v'.
Proof.
  induction w as [|w IH]; intros H; simpl; [done|].
  rewrite H by lia. f_equal. apply IH. intros. apply H. lia.
Qed.

Lemma bits_inj w v v' :
  bits w v = bits w v' → ∀ i, 0 <= i < Z.of_nat w → Z.testbit v i = Z.testbit v' i.
Proof.
  induction w as [|w IH]; simpl; intros H i Hi; [lia|]. injection H as H0 H.
  destruct (decide (i = Z.of_nat w)) as [->|]; [done|]. apply IH; [done|lia].
Qed.

(** The [a] bits above the [b] low ones. *)
Lemma bits_app a b v : bits (a + b) v = bits a (Z.shiftr v (Z.of_nat b)) ++ bits b v.
Proof.
  induction a as [|a IH]; simpl; [done|].
  rewrite Z.shiftr_spec by lia. rewrite IH. by replace (Z.of_nat a + Z.of_nat b) with (Z.of_nat (a + b)) by lia.
Qed.

Lemma testbit_high w v i : 0 <= v < 2 ^ w → 0 <= w <= i → Z.testbit v i = false.
Proof.
  intros Hv Hi. destruct (decide (v = 0)) as [->|]; [apply Z.bits_0|].
  apply Z.bits_above_log2; [lia|]. assert (Z.log2 v < w) by (apply Z.log2_lt_pow2; lia). lia.
Qed.

Lemma bits_small_inj w v v' :
  0 <= v < 2 ^ Z.of_nat w → 0 <= v' < 2 ^ Z.of_nat w → bits w v = bits w v' → v = v'.
Proof.
  intros Hv Hv' Hb. apply Z.bits_inj'. intros i Hi.
  destruct (decide (i < Z.of_nat w)); [by apply (bits_inj w)|].
  by rewrite !(testbit_high (Z.of_nat w)) by lia.
Qed.

Lemma int32_testbit z i : 0 <= i < 32 → Z.testbit (int32 z) i = Z.testbit z i.
Proof.
  intros Hi. rewrite <-(Z.mod_pow2_bits_low (int32 z) 32), <-(Z.mod_pow2_bits_low z 32) by lia.
  f_equal. unfold int32. destruct (_ <? _); [apply Z.mod_mod; lia|].
  rewrite <-Zminus_mod_idemp_r, Z_mod_same_full, Z.sub_0_r. apply Z.mod_mod. lia.
Qed.
Lemma shl_testbit v n i : 0 <= i < 32 → Z.testbit (shl v n) i = Z.testbit v (i - Z.of_nat n).
Proof. intros. unfold shl. rewrite int32_testbit by done. apply Z.shiftl_spec. lia. Qed.
Lemma ushr_testbit v n i :
  0 <= i → i + Z.of_nat n < 32 → Z.testbit (ushr v n) i = Z.testbit v (i + Z.of_nat n).
Proof. intros. unfold ushr. rewrite Z.shiftr_spec by lia. apply Z.mod_pow2_bits_low. lia. Qed.

(** Appending a [w]-bit group to the accumulator. *)
Lemma bits_push k w v x :
  0 <= x < 2 ^ Z.of_nat w → (k + w <= 32)%nat →
  bits (k + w) (Z.lor (shl v w) x) = bits k v ++ bits w x.
Proof.
  intros Hx Hk. rewrite bits_app. f_equal; apply bits_ext; intros i Hi.
  - rewrite Z.shiftr_spec, Z.lor_spec, shl_testbit by lia.
    rewrite (testbit_high (Z.of_nat w) x) by lia.
    rewrite orb_false_r. f_equal. lia.
  - rewrite Z.lor_spec, shl_testbit by lia. by rewrite Z.testbit_neg_r by lia.
Qed.

(** Reading the group of [w] bits above the [n] low ones. *)
Lemma bits_pop w n v :
  (w + n <= 32)%nat → bits w (Z.land (ushr v n) (Z.ones (Z.of_nat w))) = bits w (Z.shiftr v (Z.of_nat n)).
Proof.
  intros. apply bits_ext. intros i Hi.
  rewrite Z.land_spec, Z.ones_spec_low, andb_true_r by lia.
  by rewrite ushr_testbit, Z.shiftr_spec by lia.
Qed.
Lemma land_ones_range v w : 0 <= Z.land v (Z.ones (Z.of_nat w)) < 2 ^ Z.of_nat w.
Proof. rewrite Z.land_ones by lia. apply Z.mod_pos_bound. lia. Qed.

(** * The base32 round trip *)

Lemma b32_index_char i : 0 <= i < 32 → b32_index (b32_char i) = Some i.
Proof.
  intros Hi. assert (∃ n : nat, (n < 32)%nat ∧ i = Z.of_nat n) as (n & Hn & ->).
  { exists (Z.to_nat i). lia. }
  do 32 (destruct n as [|n]; [reflexivity|]). lia.
Qed.
Lemma b32_alphabet_fixed i :
  0 <= i < 32 → upper_ascii (b32_char i) = b32_char i ∧ is_ws (b32_char i) = false
  ∧ is_char "=" (b32_char i) = false.
Proof.
  intros Hi. assert (∃ n : nat, (n < 32)%nat ∧ i = Z.of_nat n) as (n & Hn & ->).
  { exists (Z.to_nat i). lia. }
  do 32 (destruct n as [|n]; [done|]). lia.
Qed.

Definition is_quintet (i : Z) : Prop := 0 <= i < 32.
Definition flat (w : nat) (l : list Z) : list bool := l ≫= bits w.

Lemma flat_cons w x l : flat w (x :: l) = bits w x ++ flat w l.
Proof. done. Qed.
Lemma flat_app w l k : flat w (l ++ k) = flat w l ++ flat w k.
Proof. unfold flat. apply bind_app. Qed.

Lemma b32_drain_spec fuel k v :
  (k <= fuel)%nat → (k <= 32)%nat → ∃ idx, Forall is_quintet idx ∧
    (b32_drain fuel k v).1 = map b32_char idx ∧ ((b32_drain fuel k v).2 < 5)%nat ∧
    bits k v = flat 5 idx ++ bits (b32_drain fuel k v).2 v.
Proof.
  revert k. induction fuel as [|fuel IH]; intros k Hk Hk32; cbn [b32_drain].
  { exists []. assert (k = 0)%nat as -> by lia. split_and!; auto; simpl; lia. }
  destruct (5 <=? k)%nat eqn:E; boolify.
  - destruct (IH (k - 5)%nat ltac:(lia) ltac:(lia)) as (idx & Hq & H1 & H2 & H3).
    destruct (b32_drain fuel (k - 5) v) as [out k'] eqn:Hd. simpl in *.
    exists (Z.land (ushr v (k - 5)) (Z.ones 5) :: idx). split_and!.
    + constructor; [|done]. apply (land_ones_range _ 5).
    + cbn. by rewrite H1.
    + done.
    + rewrite flat_cons.
      replace k with (5 + (k - 5))%nat at 1 by lia. rewrite bits_app, H3.
      rewrite (bits_pop 5 (k - 5)) by lia. by rewrite <-app_assoc.
  - exists []. split_and!; [constructor|done|simpl; lia|done].
Qed.

Lemma b32_encode_from_spec buf k v :
  Forall is_byte buf → (k < 5)%nat → ∃ idx pad, Forall is_quintet idx ∧ (length pad < 5)%nat ∧
    b32_encode_from k v buf = map b32_char idx ∧ flat 5 idx = bits k v ++ flat 8 buf ++ pad.
Proof.
  intros Hbuf. revert k v.
  induction Hbuf as [|byte buf Hb Hbuf IH]; intros k v Hk; cbn [b32_encode_from].
  { destruct (0 <? k)%nat eqn:E; boolify.
    - exists [Z.land (shl v (5 - k)) (Z.ones 5)], (bits (5 - k) 0). split_and!.
      + constructor; [apply (land_ones_range _ 5)|constructor].
      + rewrite bits_length. lia.
      + done.
      + rewrite flat_cons, app_nil_r, app_nil_l.
        replace 5%nat with (k + (5 - k))%nat at 1 by lia.
        rewrite <-(bits_push k (5 - k) v 0) by lia. apply bits_ext. intros i Hi.
        rewrite Z.lor_0_r, Z.land_spec, Z.ones_spec_low by lia. by rewrite andb_true_r.
    - exists [], []. assert (k = 0)%nat as -> by lia. split_and!; auto; simpl; lia. }
  set (value := Z.lor (shl v 8) byte).
  destruct (b32_drain_spec (k + 8) (k + 8) value ltac:(lia) ltac:(lia)) as (idx & Hq & H1 & H2 & H3).
  destruct (b32_drain (k + 8) (k + 8) value) as [out k'] eqn:Hd. cbn [fst snd] in *.
  destruct (IH k' value H2) as (idx' & pad & Hq' & Hpad & Henc & Hflat).
  exists (idx ++ idx'), pad. split_and!; [by apply Forall_app|done|by rewrite Henc, H1, map_app|].
  rewrite flat_app, Hflat, app_assoc, <-H3. unfold value. rewrite bits_push by (unfold is_byte in Hb; lia).
  by rewrite flat_cons, <-!app_assoc.
Qed.

Lemma b32_decode_from_spec idx bytes pad k v :
  Forall is_quintet idx → Forall is_byte bytes → (k < 8)%nat → (length pad < 8)%nat →
  bits k v ++ flat 5 idx = flat 8 bytes ++ pad →
  b32_decode_from k v (map b32_char idx) = Ok bytes.
Proof.
  intros Hidx. revert bytes k v. induction Hidx as [|i idx Hi Hidx IH];
    intros bytes k v Hbytes Hk Hpad Heq; cbn [b32_decode_from map].
  { destruct bytes as [|b bytes]; [done|]. apply (f_equal length) in Heq. exfalso. revert Heq.
    rewrite flat_cons, !length_app, !bits_length. simpl. lia. }
  rewrite b32_index_char by done. set (value := Z.lor (shl v 5) i).
  assert (bits (k + 5) value ++ flat 5 idx = flat 8 bytes ++ pad) as Heq'.
  { unfold value. rewrite bits_push by (unfold is_quintet in Hi; lia).
    rewrite <-app_assoc, <-Heq. done. }
  destruct (8 <=? k + 5)%nat eqn:E; boolify; [|by apply IH].
  destruct bytes as [|b bytes].
  { apply (f_equal length) in Heq'. rewrite !length_app, bits_length in Heq'. simpl in Heq'. lia. }
  apply Forall_cons in Hbytes as [Hb Hbytes].
  replace (k + 5)%nat with (8 + (k + 5 - 8))%nat in Heq' at 1 by lia.
  rewrite flat_cons, bits_app, <-!app_assoc in Heq'.
  apply app_inj_1 in Heq' as [Hhd Htl]; [|by rewrite !bits_length].
  erewrite IH; [|done| |done|exact Htl]; [|lia]. simpl. do 2 f_equal.
  apply (bits_small_inj 8); [apply (land_ones_range _ 8)|done|].
  rewrite <-Hhd. apply (bits_pop 8). lia.
Qed.

Lemma strip_pad_id l : Forall (λ c, is_char "=" c = false) l → strip_pad l = l.
Proof.
  intros H. unfold strip_pad. rewrite dropWhile_id; [apply reverse_involutive|].
  intros x k Hx. rewrite Forall_forall in H. apply H. apply elem_of_reverse. rewrite Hx. set_solver.
Qed.

Lemma strip_pad_app l n :
  Forall (λ c, is_char "=" c = false) l → strip_pad (l ++ replicate n "="%char) = l.
Proof.
  intros H. unfold strip_pad. rewrite reverse_app, reverse_replicate.
  replace (dropWhile _ (replicate n _ ++ reverse l)) with (dropWhile (λ c, is_char "=" c) (reverse l)).
  - by apply strip_pad_id in H.
  - induction n as [|n IH]; simpl; auto.
Qed.

Lemma upper_pad c : is_char "=" (upper_ascii c) = is_char "=" c.
Proof. by destruct c as [[] [] [] [] [] [] [] []]. Qed.
Lemma map_strip_pad l : map upper_ascii (strip_pad l) = strip_pad (map upper_ascii l).
Proof.
  unfold strip_pad. change (map upper_ascii) with (fmap (M:=list) upper_ascii).
  rewrite <-!fmap_reverse. f_equal. generalize (reverse l). intros k.
  induction k as [|c k IH]; [done|]. cbn [dropWhile fmap list_fmap]. rewrite upper_pad. destruct (is_char _ c); [done|by rewrite fmap_reverse].
Qed.

Lemma base32_encode_chars buf :
  Forall is_byte buf → ∃ idx pad, Forall is_quintet idx ∧ (length pad < 5)%nat ∧
    chars (base32Encode buf) = map b32_char idx ∧ flat 5 idx = flat 8 buf ++ pad.
Proof.
  intros Hbuf. destruct (b32_encode_from_spec buf 0 0 Hbuf ltac:(lia)) as (idx & pad & ? & ? & He & ?).
  exists idx, pad. split_and!; [done..| |done]. unfold base32Encode. by rewrite chars_str.
Qed.

Lemma base32_decode_text buf s n :
  Forall is_byte buf →
  map upper_ascii (filter (λ c, is_ws c = false) (chars s))
    = chars (base32Encode buf) ++ replicate n "="%char →
  base32Decode s = Ok buf.
Proof.
  intros Hbuf Hs. destruct (base32_encode_chars buf Hbuf) as (idx & pad & Hq & Hpad & He & Hflat).
  unfold base32Decode. rewrite map_strip_pad, Hs, He.
  assert (Forall (λ c, is_char "=" c = false) (map b32_char idx)) as Hfix.
  { apply Forall_map. eapply Forall_impl; [exact Hq|]. intros i Hi. by apply b32_alphabet_fixed. }
  rewrite strip_pad_app by done.
  apply (b32_decode_from_spec idx buf pad); [done|done|lia|lia|done].
Qed.

Lemma base32_decode_encode buf : Forall is_byte buf → base32Decode (base32Encode buf) = Ok buf.
Proof.
  intros Hbuf. destruct (base32_encode_chars buf Hbuf) as (idx & pad & Hq & _ & He & _).
  apply (base32_decode_text buf _ 0); [done|]. rewrite app_nil_r, He.
  assert (Forall (λ c, upper_ascii c = c ∧ is_ws c = false) (map b32_char idx)) as Hfix.
  { apply Forall_map. eapply Forall_impl; [exact Hq|]. intros i Hi.
    destruct (b32_alphabet_fixed i Hi) as (? & ? & _). done. }
  rewrite filter_all by (eapply Forall_impl; [exact Hfix|]; naive_solver).
  apply map_id_on. eapply Forall_impl; [exact Hfix|]. naive_solver.
Qed.

(** Decoding undoes encoding for every byte string, although the accumulator is a 32-bit integer
    that overflows (only its low 12 bits are ever read), and also when the text is typed in either
    case, with whitespace between the characters and with padding after them. *)
Theorem base32_roundtrip buf s n :
  Forall is_byte buf →
  map upper_ascii (filter (λ c, is_ws c = false) (chars s))
    = chars (base32Encode buf) ++ replicate n "="%char →
  base32Decode s = Ok buf ∧ base32Decode (base32Encode buf) = Ok buf.
Proof. intros. split; [by eapply base32_decode_text | by apply base32_decode_encode]. Qed.

Lemma base32_roundtrip_witness :
  base32Decode "ad7y ab2a eeeq=" = Ok [0; 255; 128; 7; 64; 33; 9] ∧
  base32Decode (base32Encode [0; 255; 128; 7; 64; 33; 9]) = Ok [0; 255; 128; 7; 64; 33; 9].
Proof.
  apply (base32_roundtrip _ _ 1); [by repeat (apply Forall_cons_2; [done|]) | vm_compute; reflexivity].
Defined.

(** * The base64url round trip *)

Definition is_sextet (i : Z) : Prop := 0 <= i < 64.

(** Three bytes at a time. *)
Lemma triple_ind {A} (P : list A → Prop) :
  P [] → (∀ a, P [a]) → (∀ a b, P [a; b]) → (∀ a b c l, P l → P (a :: b :: c :: l)) → ∀ l, P l.
Proof.
  intros H0 H1 H2 H3. fix IH 1. intros [|a [|b [|c l]]]; [done|auto|auto|]. apply H3, IH.
Qed.

Lemma b64_digits_range l : Forall is_byte l → Forall is_sextet (b64_digits l).
Proof.
  unfold is_byte, is_sextet. induction l as [| | |a b c l IH] using triple_ind; intros H;
    repeat (apply Forall_cons in H as [? H]); cbn [b64_digits];
    repeat (apply Forall_cons_2; [Z.div_mod_to_equations; lia|]); auto.
Qed.

Lemma b64_undigits_digits l : Forall is_byte l → b64_undigits (b64_digits l) = l.
Proof.
  unfold is_byte. induction l as [| | |a b c l IH] using triple_ind; intros H;
    repeat (apply Forall_cons in H as [? H]); cbn [b64_digits b64_undigits];
    rewrite ?IH by done; repeat (apply f_equal2; [Z.div_mod_to_equations; lia|]); done.
Qed.

Lemma b64_char_spec i : 0 <= i < 64 →
  let url := (if Ascii.eqb (if Ascii.eqb (b64_char i) "+" then "-" else b64_char i) "/" then "_"
              else if Ascii.eqb (b64_char i) "+" then "-" else b64_char i)%char in
  let back := (if Ascii.eqb (if Ascii.eqb url "-" then "+" else url) "_" then "/"
               else if Ascii.eqb url "-" then "+" else url)%char in
  is_char "=" (b64_char i) = false ∧ is_char "=" url = false ∧ is_char "." url = false ∧
  is_char "$" (b64_char i) = false ∧ back = b64_char i ∧ b64_index (b64_char i) = Some i.
Proof.
  intros Hi. assert (∃ n : nat, (n < 64)%nat ∧ i = Z.of_nat n) as (n & Hn & ->).
  { exists (Z.to_nat i). lia. }
  do 64 (destruct n as [|n]; [by vm_compute|]). lia.
Qed.

Lemma b64_valid_spec idx n :
  Forall is_sextet idx → b64_valid (map b64_char idx ++ replicate n "="%char) = idx.
Proof.
  intros H. induction H as [|i idx Hi _ IH]; [by destruct n|].
  simpl. destruct (b64_char_spec i Hi) as (Heq & _ & _ & _ & _ & Hidx). rewrite Heq, Hidx. by rewrite IH.
Qed.

Lemma base64_roundtrip buf : Forall is_byte buf → from_base64 (base64 buf) = buf.
Proof.
  intros H. unfold from_base64, base64. rewrite chars_str, b64_valid_spec by by apply b64_digits_range.
  by apply b64_undigits_digits.
Qed.

(** The characters of the url-safe text. *)
Definition url_char (i : Z) : ascii :=
  (if Ascii.eqb (if Ascii.eqb (b64_char i) "+" then "-" else b64_char i) "/" then "_"
   else if Ascii.eqb (b64_char i) "+" then "-" else b64_char i)%char.

Lemma b64uEncode_chars buf :
  Forall is_byte buf → chars (b64uEncode buf) = map url_char (b64_digits buf).
Proof.
  intros H. unfold b64uEncode, base64, replace_char. rewrite !chars_str, !map_app, !map_map.
  set (n := (_ `mod` _)%nat).
  assert (∀ (f : ascii → ascii) x, map f (replicate n x) = replicate n (f x)) as Hr
    by (intros; apply fmap_replicate).
  rewrite !Hr. simpl.
  rewrite strip_pad_app; [done|]. apply Forall_map. eapply Forall_impl; [by apply b64_digits_range|].
  intros i Hi. apply (b64_char_spec i Hi).
Qed.

Lemma b64u_roundtrip buf : Forall is_byte buf → b64uDecode (b64uEncode buf) = buf.
Proof.
  intros H. pose proof (b64_digits_range _ H) as Hs.
  unfold b64uDecode, from_base64, replace_char. rewrite b64uEncode_chars by done.
  rewrite chars_str, !map_map.
  replace (map _ (b64_digits buf)) with (map b64_char (b64_digits buf)).
  - match goal with |- context [if ?b then [] else replicate ?n ?c] =>
      replace (if b then [] else replicate n c) with (replicate (if b then O else n) c)
        by by destruct b end.
    rewrite b64_valid_spec by done. by apply b64_undigits_digits.
  - induction Hs as [|i l Hi _ IH]; simpl; [done|]. rewrite IH. f_equal.
    symmetry. apply (b64_char_spec i Hi).
Qed.

Lemma bytes_of_is_byte s : Forall is_byte (bytes_of s).
Proof.
  apply Forall_map, Forall_forall. intros c _. unfold is_byte, code.
  pose proof (nat_ascii_bounded c). lia.
Qed.
Lemma of_bytes_bytes_of s : of_bytes (bytes_of s) = s.
Proof.
  unfold of_bytes, bytes_of. rewrite map_map, map_id_on; [apply str_chars|].
  apply Forall_forall. intros c _. unfold code. rewrite Nat2Z.id. apply ascii_nat_embedding.
Qed.

(** * Tokens *)

Lemma not_elem_chars (c : ascii) (l : list ascii) :
  Forall (λ d, Ascii.eqb d c = false) l → c ∉ l.
Proof.
  intros H Hin. rewrite Forall_forall in H. specialize (H c Hin). by rewrite Ascii.eqb_refl in H.
Qed.

Lemma b64uEncode_no_dot buf : Forall is_byte buf → "."%char ∉ chars (b64uEncode buf).
Proof.
  intros H. rewrite b64uEncode_chars by done. apply not_elem_chars, Forall_map.
  eapply Forall_impl; [by apply b64_digits_range|]. intros i Hi.
  destruct (b64_char_spec i Hi) as (_ & _ & Hdot & _). unfold is_char in Hdot. simpl in Hdot.
  rewrite orb_false_r in Hdot. exact Hdot.
Qed.

Lemma base64_no_dollar buf : Forall is_byte buf → "$"%char ∉ chars (base64 buf).
Proof.
  intros H. unfold base64. rewrite chars_str. apply not_elem_chars, Forall_app. split.
  - apply Forall_map. eapply Forall_impl; [by apply b64_digits_range|]. intros i Hi.
    destruct (b64_char_spec i Hi) as (_ & _ & _ & Hd & _). unfold is_char in Hd. simpl in Hd.
    by rewrite orb_false_r in Hd.
  - apply Forall_replicate. done.
Qed.

Lemma dotted3 a b c : a +:+ "." +:+ b +:+ "." +:+ c = join (String "." "") [a; b; c].
Proof. done. Qed.

Section tokens.
Context (hmac_sha256 : string → string → list Z) (JSON_parse : string → option json).

(** A token the verifier accepts carries the HMAC of its own first two parts under the secret, and
    a payload object that has not expired. *)
Lemma verifyJwt_sound token secret now m :
  verifyJwt hmac_sha256 JSON_parse token secret now = Some m →
  ∃ h p sig exp, token = h +:+ "." +:+ p +:+ "." +:+ sig ∧
    b64uDecode sig = hmac_sha256 secret (h +:+ "." +:+ p) ∧
    JSON_parse (of_bytes (b64uDecode p)) = Some (JObj m) ∧
    assoc "exp" m = Some (JNum exp) ∧ (inject_Z now < exp)%Q.
Proof.
  unfold verifyJwt. pose proof (join_split "." token) as Hj.
  destruct (split "." token) as [|h [|p [|sig [|]]]]; try done.
  destruct (negb (_ =? _)%nat); [done|]. destruct (negb (bool_decide _)) eqn:Hm; [done|]. boolify.
  destruct (JSON_parse _) as [[| | | | |fields]|] eqn:Hp; try done.
  destruct (assoc "exp" fields) as [[| |exp| | |]|] eqn:He; try done.
  destruct (Qle_bool exp _) eqn:Hq; [done|]. intros [= <-]. apply Qle_bool_false in Hq.
  exists h, p, sig, exp. by rewrite dotted3.
Qed.

Lemma signJwt_split payload secret now ttl h p :
  (∀ k s, Forall is_byte (hmac_sha256 k s)) →
  h = b64uEncode (bytes_of (JSON_stringify jwt_header)) →
  p = b64uEncode (bytes_of (JSON_stringify (JObj (obj_set "exp" (JNum (inject_Z (now + ttl)))
        (obj_set "iat" (JNum (inject_Z now)) payload))))) →
  split "." (signJwt hmac_sha256 payload secret now ttl)
  = [h; p; b64uEncode (hmac_sha256 secret (h +:+ "." +:+ p))].
Proof.
  intros Hmac -> ->. unfold signJwt. rewrite !append_assoc. rewrite dotted3, split_join; [done..|].
  repeat (apply Forall_cons_2; [by apply b64uEncode_no_dot; auto using bytes_of_is_byte|]).
  constructor.
Qed.

(** C28: A token signed with a secret verifies under the same secret exactly until the second its
    lifetime ends, and yields the signed claims with [iat] and [exp] set. *)
Theorem jwt_roundtrip payload secret now ttl t :
  let body := obj_set "exp" (JNum (inject_Z (now + ttl))) (obj_set "iat" (JNum (inject_Z now)) payload) in
  (∀ k s, Forall is_byte (hmac_sha256 k s)) →
  JSON_parse (JSON_stringify (JObj body)) = Some (JObj body) →
  verifyJwt hmac_sha256 JSON_parse (signJwt hmac_sha256 payload secret now ttl) secret t
  = if t <? now + ttl then Some body else None.
Proof.
  intros body Hmac Hparse. unfold verifyJwt. erewrite signJwt_split by done.
  rewrite !b64u_roundtrip by auto using bytes_of_is_byte.
  rewrite Nat.eqb_refl, bool_decide_eq_true_2 by done. simpl negb. cbv iota.
  rewrite of_bytes_bytes_of. fold body. rewrite Hparse. unfold body at 1. rewrite assoc_obj_set.
  destruct (t <? now + ttl) eqn:E; boolify.
  - assert (Qle_bool (inject_Z (now + ttl)) (inject_Z t) = false) as ->; [|done].
    apply Qle_bool_false. by rewrite <-Zlt_Qlt.
  - assert (Qle_bool (inject_Z (now + ttl)) (inject_Z t) = true) as ->; [|done].
    apply Qle_bool_iff. by rewrite <-Zle_Qle.
Qed.
End tokens.

Definition sample_claims : claims := [("sub", JStr "u1"); ("role", JStr "ADMIN")].
Definition sample_mac (key text : string) : list Z := [Z.of_nat (String.length text) mod 256; 7; 250].
Definition sample_body : json :=
  JObj [("sub", JStr "u1"); ("role", JStr "ADMIN"); ("iat", JNum (inject_Z 1000));
        ("exp", JNum (inject_Z 29800))].
Definition sample_parse (s : string) : option json :=
  if String.eqb s (JSON_stringify sample_body) then Some sample_body else None.

Lemma sample_mac_bytes k s : Forall is_byte (sample_mac k s).
Proof. repeat constructor; try done; apply Z.mod_pos_bound; lia. Qed.

Lemma jwt_roundtrip_witness :
  verifyJwt sample_mac sample_parse (signJwt sample_mac sample_claims "k" 1000 28800) "k" 29799
  = Some [("sub", JStr "u1"); ("role", JStr "ADMIN"); ("iat", JNum (inject_Z 1000));
          ("exp", JNum (inject_Z 29800))].
Proof.
  exact (jwt_roundtrip sample_mac sample_parse sample_claims "k" 1000 28800 29799
           sample_mac_bytes eq_refl).
Defined.

(** * Passwords and one-time codes *)

Section secrets.
Context (scrypt : string → list Z → nat → list Z) (hmac_sha1 : list Z → list Z → list Z).

(** A password record accepts a password exactly when scrypt derives the stored hash from it. *)
Lemma verifyPassword_hash pw pw' salt :
  (∀ p s n, Forall is_byte (scrypt p s n) ∧ length (scrypt p s n) = n) → Forall is_byte salt →
  verifyPassword scrypt pw' (hashPassword scrypt pw salt)
  = bool_decide (scrypt pw' salt SCRYPT_KEYLEN = scrypt pw salt SCRYPT_KEYLEN).
Proof.
  intros Hs Hsalt. unfold verifyPassword, hashPassword.
  change ("scrypt$" +:+ ?r) with ("scrypt" +:+ "$" +:+ r).
  change ("scrypt" +:+ "$" +:+ ?a +:+ "$" +:+ ?b) with (join (String "$" "") ["scrypt"; a; b]).
  destruct (Hs pw salt SCRYPT_KEYLEN) as [Hb Hl].
  rewrite split_join; [|done|].
  - simpl String.eqb. cbv iota. rewrite !base64_roundtrip by done. rewrite Hl.
    rewrite (proj2 (Hs pw' salt SCRYPT_KEYLEN)), Nat.eqb_refl. done.
  - repeat (apply Forall_cons_2; [|]); [| | |constructor]; [|by apply base64_no_dollar..].
    apply not_elem_chars. repeat constructor.
Qed.

Lemma digit_char_is_digit z : is_digit (digit_char z) = true ∧ is_ws (digit_char z) = false.
Proof.
  unfold digit_char. pose proof (Z.mod_pos_bound z 10 ltac:(lia)).
  assert (∃ n : nat, (n < 10)%nat ∧ Z.to_nat (z mod 10) = n) as (n & Hn & ->) by (eexists; split; [|done]; lia).
  do 10 (destruct n as [|n]; [done|]). lia.
Qed.

Lemma six_digits_chars n : ∃ l, chars (six_digits n) = map digit_char l ∧ length l = 6%nat.
Proof. eexists. split; [unfold six_digits; rewrite chars_str; reflexivity | reflexivity]. Qed.

Lemma totp_offsets_spec w window :
  w ∈ totp_offsets window ↔ - Z.of_nat window <= w <= Z.of_nat window.
Proof.
  unfold totp_offsets. rewrite list_elem_of_fmap. setoid_rewrite elem_of_seq. split.
  - intros (i & -> & ?). lia.
  - intros. exists (Z.to_nat (w + Z.of_nat window)). lia.
Qed.

Lemma base32Encode_truthy buf : Forall is_byte buf → buf ≠ [] → truthy (base32Encode buf) = true.
Proof.
  intros H Hne. apply truthy_true. intros Heq. pose proof (base32_decode_encode buf H) as Hr.
  rewrite Heq in Hr. vm_compute in Hr. congruence.
Qed.

Lemma hotp6_format key c l :
  str l = hotp6 hmac_sha1 key c → (length l =? 6)%nat && forallb is_digit l = true.
Proof.
  intros Hc. apply (f_equal chars) in Hc. rewrite chars_str in Hc. unfold hotp6 in Hc.
  cbv zeta in Hc.
  match type of Hc with _ = chars (six_digits ?n) =>
    destruct (six_digits_chars n) as (ds & Hds & Hlen) end.
  rewrite Hc, Hds, length_map, Hlen. apply forallb_forall. intros x Hx.
  apply in_map_iff in Hx as (z & <- & _). apply digit_char_is_digit.
Qed.

(** Enrolling an authenticator with a non-empty secret works: the code it computes from the
    base32 text at any time is accepted by the server whenever the two clocks are at most one
    30-second step apart, however the user spaces the six digits; an all-digit code of another step
    is accepted only if it coincides with the code of one of the three steps of the window. *)
Theorem totp_window key code nowMs :
  Forall is_byte key → key ≠ [] →
  (verifyTotp hmac_sha1 (base32Encode key) code 1 nowMs = true ↔
   ∃ d, -1 <= d <= 1 ∧
     str (filter (λ c, is_ws c = false) (chars code)) = hotp6 hmac_sha1 key (nowMs / 1000 / 30 + d)).
Proof.
  intros Hkey Hne. unfold verifyTotp. rewrite base32Encode_truthy, base32_decode_encode by done. simpl negb.
  set (l := filter _ _). cbv iota.
  pose proof (λ c, hotp6_format key c l) as Hfmt. revert Hfmt.
  generalize (hotp6 hmac_sha1 key). intros code_at Hfmt.
  destruct (_ && _) eqn:E; simpl negb; cbv iota.
  - rewrite existsb_exists. setoid_rewrite <-list_elem_of_In. setoid_rewrite totp_offsets_spec.
    setoid_rewrite String.eqb_eq. split; intros (d & Hd & Heq); exists d; (split; [lia|congruence]).
  - split; [done|]. intros (d & _ & Hd). apply Hfmt in Hd. congruence.
Qed.
End secrets.

Definition sample_hmac_sha1 (key text : list Z) : list Z := key ++ text ++ [3].
Lemma totp_window_witness :
  Forall is_byte [72; 105; 33; 200] ∧ [72; 105; 33; 200] ≠ [] ∧
  verifyTotp sample_hmac_sha1 (base32Encode [72; 105; 33; 200]) "959 552" 1 59000 = true.
Proof.
  assert (Forall is_byte [72; 105; 33; 200]) as H by (repeat constructor; done).
  split; [exact H|]. split; [done|].
  apply (totp_window sample_hmac_sha1 [72; 105; 33; 200] "959 552" 59000 H); [done|].
  exists 0. split; [lia | vm_compute; reflexivity].
Defined.
