(* ===== verification/Canonical.v ===== *)
(** Canonical JSON is an injective encoding up to member order: [canonicalJson] of [Crypto] equals
    [JSON.stringify] of the value with the members of every object sorted, and [JSON.stringify] is
    uniquely readable, also in front of other text. Both facts are what the audit chain rests on. *)
From S2P Require Import Prelude Js Numerals Crypto.

(** * Unique readability *)

(** The text that follows a value never continues a number. *)
Definition ends (s : list ascii) : Prop := match s with c :: _ => is_num_char c = false | [] => True end.

Lemma num_text_split a b s t :
  forallb is_num_char a = true → forallb is_num_char b = true → ends s → ends t →
  a ++ s = b ++ t → a = b ∧ s = t.
Proof.
  revert b. induction a as [|c a IH]; intros [|d b] Ha Hb Hs Ht Heq; simpl in *; subst; try done.
  - apply andb_prop in Hb as [Hd _]. simpl in Hs. congruence.
  - apply andb_prop in Ha as [Hc _]. simpl in Ht. congruence.
  - apply andb_prop in Ha as [_ Ha], Hb as [_ Hb]. injection Heq as -> Heq.
    destruct (IH b Ha Hb Hs Ht Heq) as [-> ->]. done.
Qed.

(** Reading one (possibly escaped) character of a string literal. *)
Definition hex_val (c : ascii) : nat := default 0 (digit_val c).
Definition unescape (l : list ascii) : option (ascii * list ascii) :=
  match l with
  | c :: l' =>
      if Ascii.eqb c quote_char then None
      else if Ascii.eqb c (ascii_of_nat 92) then
        match l' with
        | d :: l1 =>
            if Ascii.eqb d "u" then
              match l1 with
              | _ :: _ :: h :: k :: l2 => Some (ascii_of_nat (16 * hex_val h + hex_val k), l2)
              | _ => None
              end
            else Some (if Ascii.eqb d "b" then ascii_of_nat 8 else if Ascii.eqb d "f" then ascii_of_nat 12
                       else if Ascii.eqb d "n" then ascii_of_nat 10 else if Ascii.eqb d "r" then ascii_of_nat 13
                       else if Ascii.eqb d "t" then ascii_of_nat 9 else d, l1)
        | [] => None
        end
      else Some (c, l')
  | [] => None
  end.

Lemma unescape_escape c s : unescape (escape_char c ++ s) = Some (c, s).
Proof. by destruct c as [[] [] [] [] [] [] [] []]. Qed.
Lemma unescape_quote s : unescape (quote_char :: s) = None.
Proof. done. Qed.

Lemma quote_split a b s t : quote_l a ++ s = quote_l b ++ t → a = b ∧ s = t.
Proof.
  unfold quote_l. simpl. intros [= H]. revert H. rewrite <-!app_assoc. revert b.
  induction a as [|c a IH]; intros [|d b] H; simpl in *.
  - by injection H.
  - apply (f_equal unescape) in H. by rewrite <-app_assoc, unescape_escape in H.
  - apply (f_equal unescape) in H. by rewrite <-app_assoc, unescape_escape in H.
  - rewrite <-!app_assoc in H. apply (f_equal unescape) in H. rewrite !unescape_escape in H.
    injection H as -> H. destruct (IH b H) as [-> ->]. done.
Qed.

Section joined.
Context {A : Type} (f : A → list ascii) (ok : A → Prop) (close : ascii).

Fixpoint joined (l : list A) : list ascii :=
  match l with [] => [] | [x] => f x | x :: l' => f x ++ ","%char :: joined l' end.

(** [f] is uniquely readable at [x]. *)
Definition readable (x : A) : Prop :=
  ∀ y s t, ok y → ends s → ends t → f x ++ s = f y ++ t → x = y ∧ s = t.

Hypothesis close_not_num : is_num_char close = false.
Hypothesis close_not_comma : close ≠ ","%char.
Hypothesis not_close : ∀ x s t, ok x → f x ++ s ≠ close :: t.

Lemma joined_cons x l s :
  joined (x :: l) ++ s = f x ++ match l with [] => s | _ => ","%char :: joined l ++ s end.
Proof. destruct l; simpl; [done|]. by rewrite <-app_assoc. Qed.

Lemma joined_split l k s t :
  Forall ok l → Forall readable l → Forall ok k →
  joined l ++ close :: s = joined k ++ close :: t → l = k ∧ s = t.
Proof.
  intros Hokl Hl. revert k. induction Hl as [|x l Hx _ IH]; intros k Hk Heq.
  { destruct k as [|y k]; [by injection Heq|]. apply Forall_cons in Hk as [Hy _].
    rewrite joined_cons in Heq. by destruct (not_close y _ _ Hy (eq_sym Heq)). }
  apply Forall_cons in Hokl as [Hokx Hokl].
  destruct k as [|y k]; rewrite !joined_cons in Heq; [by destruct (not_close x _ _ Hokx Heq)|].
  apply Forall_cons in Hk as [Hy Hk].
  apply Hx in Heq as [<- Heq]; [|done|by destruct l|by destruct k].
  destruct l as [|x' l], k as [|y' k].
  - injection Heq as <-. done.
  - injection Heq. congruence.
  - injection Heq. congruence.
  - injection Heq as Heq. destruct (IH Hokl (y' :: k) Hk Heq) as [-> ->]. done.
Qed.
End joined.

(** A value JavaScript can hold: every number prints as a literal that denotes it. *)
Fixpoint json_ok (v : json) : Prop :=
  match v with
  | JNum q => printable q
  | JArr l => (fix go l := match l with [] => True | x :: l' => json_ok x ∧ go l' end) l
  | JObj m => (fix go m := match m with [] => True | (_, x) :: m' => json_ok x ∧ go m' end) m
  | _ => True
  end.
Lemma json_ok_arr l : json_ok (JArr l) ↔ Forall json_ok l.
Proof. induction l as [|x l IH]; simpl in *; [by split|]. rewrite Forall_cons, <-IH. done. Qed.
Lemma json_ok_obj m : json_ok (JObj m) ↔ Forall (λ kv, json_ok kv.2) m.
Proof. induction m as [|[k x] m IH]; simpl in *; [by split|]. rewrite Forall_cons, <-IH. done. Qed.

Definition jchars (v : json) : list ascii := chars (JSON_stringify v).
Definition field_chars (kv : string * json) : list ascii :=
  quote_l (chars kv.1) ++ ":"%char :: jchars kv.2.

Lemma chars_join (l : list string) : chars (join "," l) = joined chars l.
Proof.
  induction l as [|x [|y l] IH]; [done|done|].
  change (join "," (x :: y :: l)) with (x +:+ "," +:+ join "," (y :: l)).
  rewrite !chars_app, IH. done.
Qed.
Lemma joined_map {A B} (f : B → list ascii) (g : A → B) l :
  joined f (map g l) = joined (λ x, f (g x)) l.
Proof. induction l as [|x [|y l] IH]; [done|done|]. simpl in *. by rewrite IH. Qed.
Lemma joined_ext {A} (f g : A → list ascii) l : (∀ x, f x = g x) → joined f l = joined g l.
Proof. intros H. induction l as [|x [|y l] IH]; simpl in *; [done|done|]. by rewrite H, IH. Qed.

Lemma jchars_arr l : jchars (JArr l) = "["%char :: joined jchars l ++ ["]"%char].
Proof.
  unfold jchars. cbn [JSON_stringify]. rewrite !chars_app, chars_join, joined_map. done.
Qed.
Lemma jchars_obj m : jchars (JObj m) = "{"%char :: joined field_chars m ++ ["}"%char].
Proof.
  unfold jchars. cbn [JSON_stringify]. rewrite !chars_app, chars_join, joined_map.
  rewrite (joined_ext _ field_chars); [done|]. intros [k x]. unfold field_chars, quote.
  by rewrite !chars_app, chars_str.
Qed.

(** The first character of a value tells its kind. *)
Definition kind (v : json) : nat :=
  match v with
  | JNull => 0 | JBool true => 1 | JBool false => 2 | JNum _ => 3 | JStr _ => 4 | JArr _ => 5 | JObj _ => 6
  end.
Definition kind_at (c : ascii) : nat :=
  if is_num_char c then 3 else if is_char "n" c then 0 else if is_char "t" c then 1
  else if is_char "f" c then 2 else if Ascii.eqb c quote_char then 4
  else if is_char "[" c then 5 else if is_char "{" c then 6 else 7.
Lemma jchars_kind v : ∃ c r, jchars v = c :: r ∧ kind_at c = kind v.
Proof.
  destruct v as [|[]|q|s|l|m]; try (eexists _, _; split; [reflexivity|reflexivity]).
  destruct (num_toString_chars q) as [Hn Hne].
  change (jchars (JNum q)) with (chars (num_toString q)).
  destruct (chars (num_toString q)) as [|c r]; [done|]. eexists _, _. split; [done|].
  cbn [forallb] in Hn. apply andb_prop in Hn as [Hn _]. unfold kind_at. by rewrite Hn.
Qed.
Lemma same_kind v w s t : jchars v ++ s = jchars w ++ t → kind v = kind w.
Proof.
  destruct (jchars_kind v) as (c & r & -> & <-), (jchars_kind w) as (d & r' & -> & <-).
  simpl. congruence.
Qed.
Lemma jchars_not_close v c s t : kind_at c = 7 → jchars v ++ s ≠ c :: t.
Proof.
  intros Hc. destruct (jchars_kind v) as (d & r & -> & Hd). intros [= ->].
  rewrite Hc in Hd. by destruct v as [|[]|?|?|?|?].
Qed.

Lemma field_chars_app kv s :
  field_chars kv ++ s = quote_l (chars kv.1) ++ ":"%char :: jchars kv.2 ++ s.
Proof. exact (eq_sym (app_assoc (quote_l (chars kv.1)) (":"%char :: jchars kv.2) s)). Qed.

Lemma field_readable kv :
  readable jchars json_ok kv.2 → readable field_chars (λ kv, json_ok kv.2) kv.
Proof.
  destruct kv as [k x]. intros Hx [k' x'] s t Hok Hs Ht Heq. rewrite !field_chars_app in Heq.
  cbn [fst snd] in *. apply quote_split in Heq as [Hk Heq]. injection Heq as Heq.
  apply Hx in Heq as [-> ->]; [|done..]. by apply chars_inj in Hk as ->.
Qed.

(** [JSON.stringify] is uniquely readable in front of any text that does not continue a number. *)
Lemma stringify_readable v : json_ok v → readable jchars json_ok v.
Proof.
  induction v as [|b|q|s|l IH|m IH] using json_ind'; intros Hv w u t Hw Hu Ht Heq;
    pose proof (same_kind _ _ _ _ Heq) as Hk.
  - destruct w as [|[]| | | |]; try done. by injection Heq.
  - destruct b, w as [|[]| | | |]; try done; by injection Heq.
  - destruct w as [|[]|q'| | |]; try done.
    apply num_text_split in Heq as [Heq ->]; [|apply num_toString_chars..|done|done].
    apply chars_inj in Heq. split; [|done]. f_equal. by apply printable_inj.
  - destruct w as [|[]| |s'| |]; try done.
    unfold jchars in Heq. cbn [JSON_stringify] in Heq. unfold quote in Heq. rewrite !chars_str in Heq.
    apply quote_split in Heq as [Hs ->]. by apply chars_inj in Hs as ->.
  - destruct w as [|[]| | |l'|]; try done.
    rewrite !jchars_arr in Heq. injection Heq as Heq. rewrite <-!app_assoc in Heq.
    apply json_ok_arr in Hv, Hw.
    apply (joined_split jchars json_ok) in Heq as [-> ->]; try done.
    + intros x s' t' _. by apply jchars_not_close.
    + rewrite Forall_forall in *. intros x Hx. apply IH; auto.
  - destruct w as [|[]| | | |m']; try done.
    rewrite !jchars_obj in Heq. injection Heq as Heq. rewrite <-!app_assoc in Heq.
    apply json_ok_obj in Hv, Hw.
    apply (joined_split field_chars (λ kv, json_ok kv.2)) in Heq as [-> ->]; try done.
    rewrite Forall_forall in *. intros x Hx. apply field_readable, IH; auto.
Qed.

(** * Canonical form *)

(** The value with the members of every object in key order. *)
Fixpoint sorted_json (v : json) : json :=
  match v with
  | JArr l => JArr (map sorted_json l)
  | JObj m =>
      let fields := map (λ '(k, x), (k, sorted_json x)) m in
      JObj (map (λ k, (k, default JNull (assoc k fields))) (sort_str (map fst m)))
  | _ => v
  end.

Lemma assoc_map {A B} (g : A → B) k (m : list (string * A)) :
  assoc k (map (λ '(k, x), (k, g x)) m) = g <$> assoc k m.
Proof. induction m as [|[k' x] m IH]; [done|]. simpl. by destruct (String.eqb k k'). Qed.

(** Structural induction on values, through arrays and objects. *)
Section value_ind.
Variable P : value → Prop.
Hypotheses (Hundef : P VUndefined) (Hnull : P VNull) (Hbool : ∀ b, P (VBool b)) (Hnum : ∀ n, P (VNumber n))
  (Hstr : ∀ s, P (VStr s)) (Harr : ∀ l, Forall P l → P (VArr l)) (Hobj : ∀ m, Forall (λ kv, P kv.2) m → P (VObj m)).
Fixpoint value_ind' (v : value) : P v :=
  match v with
  | VUndefined => Hundef
  | VNull => Hnull
  | VBool b => Hbool b
  | VNumber n => Hnum n
  | VStr s => Hstr s
  | VArr l => Harr l ((fix go (l : list value) : Forall P l :=
      match l with [] => Forall_nil_2 _ | x :: l' => Forall_cons_2 _ _ _ (value_ind' x) (go l') end) l)
  | VObj m => Hobj m ((fix go (m : list (string * value)) : Forall (λ kv, P kv.2) m :=
      match m with [] => Forall_nil_2 _ | kv :: m' => Forall_cons_2 _ _ _ (value_ind' kv.2) (go m') end) m)
  end.
End value_ind.

(** The JSON value a value is printed as: undefined and the numbers without a literal are null, also as members. *)
Fixpoint shown (v : value) : json :=
  match v with
  | VUndefined | VNull | VNumber NaN | VNumber (Infinity _) => JNull
  | VBool b => JBool b
  | VNumber (Num q) => JNum q
  | VStr s => JStr s
  | VArr l => JArr (map shown l)
  | VObj m => JObj (map (λ '(k, x), (k, shown x)) m)
  end.
Lemma shown_of_json v : shown (of_json v) = v.
Proof.
  induction v as [| | | |l IH|m IH] using json_ind'; try done; cbn [of_json shown]; f_equal; rewrite map_map.
  - rewrite <- (map_id l) at 2. by apply map_ext_Forall.
  - rewrite <- (map_id m) at 2. apply map_ext_Forall. eapply Forall_impl; [exact IH|]. intros [k x] H. cbn in *. by rewrite H.
Qed.
Lemma map_fst_map {A B} (g : A → B) (m : list (string * A)) : map fst (map (λ '(k, x), (k, g x)) m) = map fst m.
Proof. rewrite map_map. apply map_ext. by intros [k x]. Qed.

Lemma canonicalJson_sorted v : canonicalJson v = JSON_stringify (sorted_json (shown v)).
Proof.
  induction v as [| | |n| |l IH|m IH] using value_ind'; try done; cbn [canonicalJson shown sorted_json JSON_stringify].
  - by destruct n.
  - do 3 f_equal. rewrite !map_map. apply map_ext_Forall. done.
  - do 3 f_equal. rewrite map_map, map_fst_map. apply map_ext_in. intros k Hk.
    rewrite !assoc_map. destruct (assoc k m) as [x|] eqn:Hx; simpl.
    + rewrite Forall_forall in IH. pose proof (IH (k, x) (assoc_elem _ _ _ Hx)) as E. simpl in E.
      by rewrite E.
    + apply assoc_None in Hx. destruct Hx. apply (elem_of_sort_str (map fst m)).
      by apply list_elem_of_In.
Qed.

Lemma sorted_json_ok v : json_ok v → json_ok (sorted_json v).
Proof.
  induction v as [| | | |l IH|m IH] using json_ind'; intros Hv; try done; cbn [sorted_json].
  - rewrite json_ok_arr in *. apply Forall_map. rewrite Forall_forall in *. auto.
  - rewrite json_ok_obj in *. apply Forall_map, Forall_forall. intros k _. simpl.
    rewrite assoc_map. destruct (assoc k m) as [x|] eqn:Hx; simpl; [|done].
    apply assoc_elem in Hx. rewrite Forall_forall in *. by apply (IH (k, x)), (Hv (k, x)).
Qed.

(** An object's canonical text is self-delimiting: any suffix may follow it. *)
Lemma canonical_obj_split m m' s t :
  json_ok (JObj m) → json_ok (JObj m') →
  canonicalJson (of_json (JObj m)) +:+ s = canonicalJson (of_json (JObj m')) +:+ t →
  sorted_json (JObj m) = sorted_json (JObj m') ∧ s = t.
Proof.
  intros Hv Hw Heq. rewrite !canonicalJson_sorted, !shown_of_json in Heq. apply (f_equal chars) in Heq.
  rewrite !chars_app in Heq. fold (jchars (sorted_json (JObj m))) (jchars (sorted_json (JObj m'))) in Heq.
  apply sorted_json_ok in Hv, Hw. cbn [sorted_json] in *.
  rewrite !jchars_obj in Heq. injection Heq as Heq. rewrite <-!app_assoc in Heq.
  apply json_ok_obj in Hv, Hw.
  apply (joined_split field_chars (λ kv, json_ok kv.2)) in Heq as [Hm Heq]; try done.
  - apply chars_inj in Heq as ->. by rewrite Hm.
  - rewrite Forall_forall in *. intros x Hx. apply field_readable, stringify_readable. auto.
Qed.

(** C4: Canonical JSON identifies values exactly up to what JSON can tell apart. Take any two JavaScript values made of
    undefined, null, booleans, numbers (finite or not), strings, arrays and objects, whose finite numbers print as literals
    that denote them. They have the same canonical text if and only if they are equal once undefined, NaN and the
    infinities are read as null (as elements and as members, which are kept) and the members of every object, at every
    depth, are sorted. *)
Theorem canonicalJson_injective v w :
  json_ok (shown v) → json_ok (shown w) → (canonicalJson v = canonicalJson w ↔ sorted_json (shown v) = sorted_json (shown w)).
Proof.
  intros Hv Hw. rewrite !canonicalJson_sorted. split; [|by intros ->]. intros Heq. apply (f_equal chars) in Heq.
  apply (stringify_readable _ (sorted_json_ok _ Hv) (sorted_json (shown w)) [] []); [by apply sorted_json_ok|done..|]. by rewrite !app_nil_r.
Qed.

(** An object with an undefined member and one with null, their other members in different orders. *)
Definition value_a : value :=
  VObj [("b", VArr [VNumber (Num (15 # 10)); VNumber NaN]); ("a", VObj [("y", VStr "1"); ("x", VBool true)]); ("personId", VUndefined)].
Definition value_b : value :=
  VObj [("a", VObj [("x", VBool true); ("y", VStr "1")]); ("personId", VNull); ("b", VArr [VNumber (Num (15 # 10)); VNull])].
Lemma canonicalJson_injective_witness :
  json_ok (shown value_a) ∧ json_ok (shown value_b) ∧ canonicalJson value_a = canonicalJson value_b.
Proof.
  assert (json_ok (shown value_a)) as Ha by (vm_compute; tauto).
  assert (json_ok (shown value_b)) as Hb by (vm_compute; tauto).
  split; [exact Ha|]. split; [exact Hb|].
  apply (canonicalJson_injective _ _ Ha Hb). vm_compute. reflexivity.
Defined.
