(* ===== verification/AuditLog.v ===== *)
(** The tamper-evident audit trail ([src/audit/audit.service.ts]): appends to the per-organization
    hash chain, the audited-transaction retry loop and the chain verifier. [sha256] is a parameter;
    rows are kept in insertion order and queried by organization in [seq] order; times are
    milliseconds. *)
From S2P Require Import Prelude Js Numerals Crypto Canonical AuditStore.
Local Open Scope Z_scope.

(** * Data *)

Record AuditRow := {
  id : string; orgId : string; action : string; actorType : string; actorId : string;
  payload : json; at_ : Z; seq : Z; prevHash : string; rowHash : string }.

(** What [verify] reports. *)
Record VerifyResult := {
  ok : bool; count : nat; legacyPrefix : nat; legacySerializationRows : option nat;
  brokenAt : option (Z * string * string) }.

(** The local variables of [verify]'s loop. *)
Record VerifyState := { v_prev : string; v_legacy : nat; v_legacyRows : nat; v_anchored : bool }.

(** [auditLog.findMany({ where: { orgId }, orderBy: { seq: "asc" } })] *)
Definition org_rows (db : list AuditRow) (org : string) : list AuditRow :=
  sort_by seq (filter (λ r, orgId r = org) db).

Section audit.
Context (sha256 : string → string).

(** * Appending *)

(** [JSON.parse(JSON.stringify(payload))]: [undefined] members disappear. *)
Definition persistedPayload (p : payload_arg) : json :=
  JObj (omap (λ '(k, v), pair k <$> v) p).

Definition identity_of (org act aType aId : string) (p : json) (sq at_ms : Z) : claims :=
  [("orgId", JStr org); ("action", JStr act); ("actorType", JStr aType); ("actorId", JStr aId);
   ("payload", match p with JNull => JObj [] | _ => p end);
   ("seq", JNum (inject_Z sq)); ("at", JStr (toISOString at_ms))].
Definition identity (r : AuditRow) : claims :=
  identity_of (orgId r) (action r) (actorType r) (actorId r) (payload r) (seq r) (at_ r).

(** [rid] is the row's generated id and [now] the time of the append. *)
Definition append (db : list AuditRow) (rid : string) (now : Z) (org act aType aId : string)
    (p : payload_arg) : list AuditRow :=
  let prev := last (org_rows db org) in
  let sq := from_option seq (-1) prev + 1 in
  let prevH := from_option rowHash "" prev in
  let stored := persistedPayload p in
  db ++ [{| id := rid; orgId := org; action := act; actorType := aType; actorId := aId;
            payload := stored; at_ := now; seq := sq; prevHash := prevH;
            rowHash := chainHash sha256 (identity_of org act aType aId stored sq now) prevH |}].

(** * Verifying *)

(** The identity an old enrollment row may have been hashed with: [personId: null] added. *)
Definition legacyEnrollmentIdentity (r : AuditRow) : option claims :=
  match payload r with
  | JObj m =>
      if String.eqb (action r) "enroll_code.create" && negb (isSome (assoc "personId" m))
      then Some (obj_set "payload" (JObj (obj_set "personId" JNull m)) (identity r))
      else None
  | _ => None
  end.

Definition expected_hash (r : AuditRow) (prev : string) : string :=
  chainHash sha256 (identity r) prev.
Definition matchesLegacySerialization (r : AuditRow) (prev : string) : bool :=
  negb (String.eqb (expected_hash r prev) (rowHash r)) &&
  match legacyEnrollmentIdentity r with
  | Some ident => String.eqb (chainHash sha256 ident prev) (rowHash r)
  | None => false
  end.

Definition is_legacy (r : AuditRow) : bool :=
  String.eqb (prevHash r) "" && String.eqb (rowHash r) "".

(** [...(n ? { legacySerializationRows: n } : {})] *)
Definition reported (n : nat) : option nat := if (n =? 0)%nat then None else Some n.

(** One iteration of the loop: the next state, or the result returned from inside it. *)
Definition verify_step (total : nat) (st : VerifyState) (r : AuditRow) : VerifyState + VerifyResult :=
  if negb (v_anchored st) && is_legacy r
  then inl {| v_prev := v_prev st; v_legacy := S (v_legacy st);
              v_legacyRows := v_legacyRows st; v_anchored := v_anchored st |}
  else if negb (String.eqb (prevHash r) (v_prev st))
  then inr {| ok := false; count := total; legacyPrefix := v_legacy st;
              legacySerializationRows := None;
              brokenAt := Some (seq r, id r, "prevHash linkage mismatch") |}
  else
    let expected := expected_hash r (v_prev st) in
    let legacy := matchesLegacySerialization r (v_prev st) in
    if negb (String.eqb expected (rowHash r)) && negb legacy
    then inr {| ok := false; count := total; legacyPrefix := v_legacy st;
                legacySerializationRows := reported (v_legacyRows st);
                brokenAt := Some (seq r, id r, "rowHash mismatch (row tampered)") |}
    else inl {| v_prev := rowHash r; v_legacy := v_legacy st;
                v_legacyRows := if legacy then S (v_legacyRows st) else v_legacyRows st;
                v_anchored := true |}.

Fixpoint verify_from (total : nat) (st : VerifyState) (rows : list AuditRow) : VerifyResult :=
  match rows with
  | [] => {| ok := true; count := total; legacyPrefix := v_legacy st;
             legacySerializationRows := reported (v_legacyRows st); brokenAt := None |}
  | r :: rows' => match verify_step total st r with
      | inl st' => verify_from total st' rows'
      | inr result => result
      end
  end.

Definition verify_start : VerifyState :=
  {| v_prev := ""; v_legacy := 0; v_legacyRows := 0; v_anchored := false |}.
Definition verify_rows (rows : list AuditRow) : VerifyResult :=
  verify_from (length rows) verify_start rows.
Definition verify (db : list AuditRow) (org : string) : VerifyResult :=
  verify_rows (org_rows db org).

(** * The chain predicate the verifier decides *)

Definition hash_matches (r : AuditRow) : Prop :=
  rowHash r = chainHash sha256 (identity r) (prevHash r) ∨
  ∃ ident, legacyEnrollmentIdentity r = Some ident ∧ rowHash r = chainHash sha256 ident (prevHash r).

Fixpoint linked (prev : string) (rows : list AuditRow) : Prop :=
  match rows with
  | [] => True
  | r :: rows' => prevHash r = prev ∧ hash_matches r ∧ linked (rowHash r) rows'
  end.

(** The rows covered by the chain: all but the leading rows without hashes. *)
Definition anchored (rows : list AuditRow) : list AuditRow := dropWhile is_legacy rows.

Lemma hash_matches_dec r prev :
  prevHash r = prev →
  (negb (String.eqb (expected_hash r prev) (rowHash r)) && negb (matchesLegacySerialization r prev)
   = false ↔ hash_matches r).
Proof.
  intros <-. unfold matchesLegacySerialization, hash_matches, expected_hash.
  destruct (String.eqb (chainHash sha256 (identity r) _) _) eqn:E; simpl; boolify; [naive_solver|].
  destruct (legacyEnrollmentIdentity r) as [ident|]; simpl.
  - destruct (String.eqb (chainHash sha256 ident _) _) eqn:E'; simpl; boolify; [naive_solver|].
    split; [done|]. intros [?|(? & [= <-] & ?)]; congruence.
  - split; [done|]. intros [?|(? & ? & _)]; congruence.
Qed.

Lemma verify_from_anchored total st rows :
  v_anchored st = true → (ok (verify_from total st rows) = true ↔ linked (v_prev st) rows).
Proof.
  revert st. induction rows as [|r rows IH]; intros st Hst; cbn [verify_from linked]; [done|].
  unfold verify_step. rewrite Hst. simpl.
  destruct (String.eqb (prevHash r) (v_prev st)) eqn:Hp; simpl; boolify.
  2: { split; [done|]. by intros [? _]. }
  pose proof (hash_matches_dec r _ Hp) as Hm. destruct (_ && _).
  - split; [done|]. intros (_ & H%Hm & _). done.
  - rewrite IH by done. simpl. naive_solver.
Qed.

Lemma verify_from_start total st rows :
  v_anchored st = false → v_prev st = "" →
  (ok (verify_from total st rows) = true ↔ linked "" (anchored rows)).
Proof.
  revert st. induction rows as [|r rows IH]; intros st Hst Hprev; [done|].
  unfold anchored. cbn [verify_from dropWhile]. unfold verify_step. rewrite Hst.
  destruct (is_legacy r) eqn:Hl; simpl.
  - apply IH; done.
  - rewrite Hprev. destruct (String.eqb (prevHash r) "") eqn:Hp; simpl; boolify.
    2: { split; [done|]. by intros [? _]. }
    pose proof (hash_matches_dec r _ Hp) as Hm. destruct (_ && _).
    + split; [done|]. intros (_ & H%Hm & _). done.
    + rewrite verify_from_anchored by done. simpl. naive_solver.
Qed.

Lemma verify_rows_ok rows : ok (verify_rows rows) = true ↔ linked "" (anchored rows).
Proof. by apply verify_from_start. Qed.

Lemma verify_from_count total st rows : count (verify_from total st rows) = total.
Proof.
  revert st. induction rows as [|r rows IH]; intros st; cbn [verify_from]; [done|].
  unfold verify_step. repeat case_match; simplify_eq; auto.
Qed.
Lemma verify_count rows : count (verify_rows rows) = length rows.
Proof. apply verify_from_count. Qed.

Lemma linked_app prev l k :
  linked prev (l ++ k) ↔ linked prev l ∧ linked (from_option rowHash prev (last l)) k.
Proof.
  revert prev. induction l as [|r l IH]; intros prev; simpl; [tauto|].
  rewrite IH, last_cons. destruct (last l); simpl; tauto.
Qed.

(** * Appending keeps the chain intact *)

Lemma org_rows_other db org rows :
  (∀ r, r ∈ rows → orgId r ≠ org) → org_rows (db ++ rows) org = org_rows db org.
Proof.
  intros H. unfold org_rows. rewrite filter_app.
  assert (filter (λ r, orgId r = org) rows = []) as ->; [|by rewrite app_nil_r].
  induction rows as [|r rows IH]; [done|]. rewrite filter_cons_False by set_solver. set_solver.
Qed.

Lemma org_rows_append db rid now org act aType aId p :
  ∃ r, append db rid now org act aType aId p = db ++ [r] ∧ orgId r = org ∧
    org_rows (db ++ [r]) org = org_rows db org ++ [r] ∧
    seq r = from_option seq (-1) (last (org_rows db org)) + 1 ∧
    prevHash r = from_option rowHash "" (last (org_rows db org)) ∧
    rowHash r = chainHash sha256 (identity r) (prevHash r) ∧
    action r = act ∧ actorType r = aType ∧ actorId r = aId ∧ payload r = persistedPayload p ∧ at_ r = now.
Proof.
  eexists. split; [reflexivity|]. split; [done|]. split; [|done]. set (row := {| id := rid |}).
  unfold org_rows at 1. rewrite filter_app, filter_cons_True by done. rewrite filter_nil.
  rewrite sort_by_snoc. fold (org_rows db org). apply insert_by_last, Forall_forall. intros y Hy.
  unfold row. simpl. destruct (last (org_rows db org)) as [z|] eqn:Hz; simpl.
  - apply last_Some in Hz as [l Hl]. pose proof (sort_by_keyed seq (filter (λ r, orgId r = org) db)) as Hk.
    fold (org_rows db org) in Hk. rewrite Hl in Hk, Hy. pose proof (keyed_last seq l z y Hk Hy). lia.
  - apply last_None in Hz. rewrite Hz in Hy. set_solver.
Qed.

Lemma dropWhile_snoc {A} (q : A → bool) l x :
  q x = false → dropWhile q (l ++ [x]) = dropWhile q l ++ [x].
Proof. intros Hx. induction l as [|y l IH]; simpl; [by rewrite Hx|]. by destruct (q y). Qed.
Lemma dropWhile_snoc_true {A} (q : A → bool) l x :
  q x = true → dropWhile q l = [] → dropWhile q (l ++ [x]) = [].
Proof. intros Hx. induction l as [|y l IH]; simpl; [by rewrite Hx|]. by destruct (q y). Qed.
Lemma dropWhile_snoc_cons {A} (q : A → bool) l x :
  dropWhile q l ≠ [] → dropWhile q (l ++ [x]) = dropWhile q l ++ [x].
Proof. induction l as [|y l IH]; simpl; [done|]. by destruct (q y). Qed.

(** The hash of the last row, anchored or not, is what the next row has to link to. *)
Lemma anchored_last rows : from_option rowHash "" (last rows) = from_option rowHash "" (last (anchored rows)).
Proof.
  unfold anchored. induction rows as [|r rows IH]; [done|]. simpl. destruct (is_legacy r) eqn:Hl; [|done].
  unfold is_legacy in Hl. boolify. destruct Hl as [_ Hr]. rewrite <-IH. by destruct rows.
Qed.

Lemma linked_anchored_snoc rows r :
  linked "" (anchored rows) → prevHash r = from_option rowHash "" (last rows) → hash_matches r →
  linked "" (anchored (rows ++ [r])).
Proof.
  intros Hl Hp Hm. rewrite anchored_last in Hp. unfold anchored in *.
  destruct (dropWhile is_legacy rows) as [|x k] eqn:Hd.
  - destruct (is_legacy r) eqn:Hr; [by rewrite dropWhile_snoc_true|].
    rewrite dropWhile_snoc, Hd by done. simpl. simpl in Hp. auto.
  - rewrite dropWhile_snoc_cons, Hd by (by rewrite Hd). apply linked_app. split; [done|]. simpl in *. auto.
Qed.

Lemma append_keeps db rid now org act aType aId p :
  ok (verify db org) = true →
  let db' := append db rid now org act aType aId p in
  ok (verify db' org) = true ∧ count (verify db' org) = S (count (verify db org)).
Proof.
  intros Hok db'. destruct (org_rows_append db rid now org act aType aId p)
    as (r & Hdb & Horg & Hrows & _ & Hprev & Hhash & _).
  unfold db'. rewrite Hdb. unfold verify in *. rewrite Hrows. split.
  - apply verify_rows_ok. apply verify_rows_ok in Hok.
    apply linked_anchored_snoc; [done|done|by left].
  - rewrite !verify_count, length_app. simpl. lia.
Qed.

(** C3: Every append keeps an intact chain intact: after the service appends an event for an
    organization, [verify] still reports that organization's chain as intact with exactly one more
    row, whatever legacy rows it starts with, and every other organization's result is unchanged. *)
Theorem append_preserves_verify db rid now org act aType aId p :
  ok (verify db org) = true →
  let db' := append db rid now org act aType aId p in
  ok (verify db' org) = true ∧ count (verify db' org) = S (count (verify db org)) ∧
  ∀ other, other ≠ org → verify db' other = verify db other.
Proof.
  intros Hok db'. destruct (append_keeps db rid now org act aType aId p Hok) as [H1 H2]. split_and!; [done..|].
  intros other Hne. destruct (org_rows_append db rid now org act aType aId p) as (r & Hdb & Horg & _).
  unfold db', verify. rewrite Hdb. by rewrite org_rows_other by (intros ? ->%list_elem_of_singleton; congruence).
Qed.

(** * Tamper evidence *)

(** A payload whose hash the verifier accepts for the row. *)
Definition hashed_payload (r : AuditRow) (p : json) : Prop :=
  p = (match payload r with JNull => JObj [] | q => q end) ∨
  (action r = "enroll_code.create" ∧ ∃ m, payload r = JObj m ∧ assoc "personId" m = None ∧
     p = JObj (obj_set "personId" JNull m)).

Definition same_event (r1 r2 : AuditRow) : Prop :=
  rowHash r1 = rowHash r2 ∧ prevHash r1 = prevHash r2 ∧ orgId r1 = orgId r2 ∧
  action r1 = action r2 ∧ actorType r1 = actorType r2 ∧ actorId r1 = actorId r2 ∧
  seq r1 = seq r2 ∧ toISOString (at_ r1) = toISOString (at_ r2) ∧
  ∃ p1 p2, hashed_payload r1 p1 ∧ hashed_payload r2 p2 ∧ sorted_json p1 = sorted_json p2.

(** Rows as the service writes them: a sequence number and a payload JavaScript can hold. *)
Definition row_ok (r : AuditRow) : Prop := 0 <= seq r ∧ json_ok (payload r).

(** The text whose hash a row carries, with an accepted payload. *)
Definition hash_input (r : AuditRow) (p : json) : string :=
  canonicalJson (of_json (JObj (identity_of (orgId r) (action r) (actorType r) (actorId r) p (seq r) (at_ r)))) +:+ prevHash r.
(** The two rows carry the same hash of two different texts, which are made of the rows. *)
Definition collide (r1 r2 : AuditRow) : Prop := ∃ p1 p2,
  hashed_payload r1 p1 ∧ hashed_payload r2 p2 ∧ hash_input r1 p1 ≠ hash_input r2 p2 ∧
  rowHash r1 = sha256 (hash_input r1 p1) ∧ rowHash r2 = sha256 (hash_input r2 p2) ∧ rowHash r1 = rowHash r2.
(** The rows of the two histories at some place, counted from the end, collide. *)
Definition collision_at (l1 l2 : list AuditRow) : Prop := ∃ i r1 r2,
  reverse l1 !! i = Some r1 ∧ reverse l2 !! i = Some r2 ∧ collide r1 r2.

Lemma identity_sorted o a t i p s m :
  sorted_json (JObj (identity_of o a t i p s m)) =
  JObj [("action", JStr a); ("actorId", JStr i); ("actorType", JStr t); ("at", JStr (toISOString m));
        ("orgId", JStr o);
        ("payload", sorted_json (match p with JNull => JObj [] | _ => p end));
        ("seq", JNum (inject_Z s))].
Proof.
  unfold identity_of. cbn [sorted_json map fst].
  assert (sort_str ["orgId"; "action"; "actorType"; "actorId"; "payload"; "seq"; "at"] =
    ["action"; "actorId"; "actorType"; "at"; "orgId"; "payload"; "seq"]) as ->
    by (vm_compute; reflexivity).
  reflexivity.
Qed.

Lemma identity_fields a i t m o (p : json) s a' i' t' m' o' p' s' :
  JObj [("action", JStr a); ("actorId", JStr i); ("actorType", JStr t); ("at", JStr m);
        ("orgId", JStr o); ("payload", p); ("seq", JNum (inject_Z s))] =
  JObj [("action", JStr a'); ("actorId", JStr i'); ("actorType", JStr t'); ("at", JStr m');
        ("orgId", JStr o'); ("payload", p'); ("seq", JNum (inject_Z s'))] →
  a = a' ∧ i = i' ∧ t = t' ∧ m = m' ∧ o = o' ∧ p = p' ∧ s = s'.
Proof. intros [= ]. done. Qed.

Lemma obj_set_ok k v m : json_ok v → json_ok (JObj m) → json_ok (JObj (obj_set k v m)).
Proof.
  rewrite !json_ok_obj. intros Hv. induction 1 as [|[k' v'] m Hx Hm IH]; simpl; [by repeat constructor|].
  destruct (String.eqb k k'); by constructor.
Qed.

Lemma hash_matches_payload r :
  hash_matches r → ∃ p, hashed_payload r p ∧ p ≠ JNull ∧ (json_ok (payload r) → json_ok p) ∧
    rowHash r = chainHash sha256
      (identity_of (orgId r) (action r) (actorType r) (actorId r) p (seq r) (at_ r)) (prevHash r).
Proof.
  intros [Hh|(ident & Hid & Hh)].
  - exists (match payload r with JNull => JObj [] | q => q end). split; [by left|].
    split; [by destruct (payload r)|]. split; [by destruct (payload r)|]. rewrite Hh. f_equal.
    unfold identity, identity_of. by destruct (payload r).
  - unfold legacyEnrollmentIdentity in Hid. destruct (payload r) as [| | | | |m] eqn:Hp; try done.
    destruct (_ && _) eqn:E; [|done]. boolify. destruct E as [Hact Hper].
    exists (JObj (obj_set "personId" JNull m)). split_and!; [|done|by apply obj_set_ok|].
    + right. split; [done|]. by exists m.
    + rewrite Hh. f_equal. injection Hid as <-. reflexivity.
Qed.

Lemma linked_hash_nonempty prev l :
  (∀ x, sha256 x ≠ "") → linked prev l → l ≠ [] → ∀ d, from_option rowHash d (last l) ≠ "".
Proof.
  intros Hne. destruct l as [|r l _] using rev_ind; [done|]. intros Hl _ d.
  apply linked_app in Hl as [_ [_ [Hm _]]]. rewrite last_snoc. simpl.
  destruct (hash_matches_payload _ Hm) as (p & _ & _ & _ & ->). apply Hne.
Qed.

(** Two rows with the same hash record the same event, or the hash function collides. *)
Lemma same_hash_same_event r1 r2 :
  row_ok r1 → row_ok r2 → hash_matches r1 → hash_matches r2 → rowHash r1 = rowHash r2 →
  collide r1 r2 ∨ same_event r1 r2.
Proof.
  intros [Hs1 Hok1] [Hs2 Hok2] Hm1 Hm2 Heq.
  destruct (hash_matches_payload _ Hm1) as (p1 & Hp1 & Hn1 & Hj1 & Hh1).
  destruct (hash_matches_payload _ Hm2) as (p2 & Hp2 & Hn2 & Hj2 & Hh2).
  unfold chainHash in Hh1, Hh2. fold (hash_input r1 p1) in Hh1. fold (hash_input r2 p2) in Hh2.
  destruct (decide (hash_input r1 p1 = hash_input r2 p2)) as [Hc|Hc]; [right|left; by exists p1, p2].
  unfold hash_input in Hc.
  assert (∀ o a t i p s m, 0 <= s → json_ok p → p ≠ JNull → json_ok (JObj (identity_of o a t i p s m)))
    as Hok.
  { intros o a t i p s m Hs Hj Hn. apply json_ok_obj. unfold identity_of.
    repeat (apply Forall_cons_2; [try done|]); [by destruct p|by apply printable_nat|constructor]. }
  apply canonical_obj_split in Hc as [Hid Hprev]; [|by apply Hok; auto..].
  rewrite !identity_sorted in Hid.
  apply identity_fields in Hid as (Ha & Hai & Hat & Hm & Ho & Hp & Hs).
  unfold same_event. do 8 (split; [done|]).
  exists p1, p2. split_and!; [done..|]. by destruct p1, p2.
Qed.

Lemma collision_snoc l1 l2 r1 r2 : collision_at l1 l2 → collision_at (l1 ++ [r1]) (l2 ++ [r2]).
Proof. intros (i & x1 & x2 & H1 & H2 & H). exists (S i), x1, x2. by rewrite !reverse_snoc. Qed.
Lemma linked_same_head l1 l2 :
  (∀ x, sha256 x ≠ "") → linked "" l1 → linked "" l2 → Forall row_ok l1 → Forall row_ok l2 →
  from_option rowHash "" (last l1) = from_option rowHash "" (last l2) →
  collision_at l1 l2 ∨ Forall2 same_event l1 l2.
Proof.
  intros Hne. revert l2. induction l1 as [|r1 l1 IH] using rev_ind; intros l2 H1 H2 Hok1 Hok2 Heq.
  { right. destruct l2 as [|r2 l2]; [constructor|].
    by destruct (linked_hash_nonempty _ _ Hne H2 ltac:(done) ""). }
  destruct l2 as [|r2 l2 _] using rev_ind.
  { by destruct (linked_hash_nonempty _ _ Hne H1 ltac:(by destruct l1) ""). }
  rewrite !last_snoc in Heq. simpl in Heq.
  apply linked_app in H1 as [H1 [Hp1 [Hm1 _]]], H2 as [H2 [Hp2 [Hm2 _]]].
  apply Forall_app in Hok1 as [Hok1 [Hr1 _]%Forall_cons], Hok2 as [Hok2 [Hr2 _]%Forall_cons].
  destruct (same_hash_same_event r1 r2) as [Hc|Hsame]; [done..|left; exists 0%nat, r1, r2; by rewrite !reverse_snoc|].
  destruct (IH l2) as [Hc|Hl]; [done..| |left; by apply collision_snoc|right; by apply Forall2_app; auto].
  rewrite <-Hp1, <-Hp2. apply Hsame.
Qed.

(** C2: Tamper evidence. If two histories of an organization both pass [verify] and end in the same
    row hash, then their anchored parts have the same length and agree row by row in organization,
    action, actor, sequence number, timestamp and payload (up to member order and the tolerated
    [personId: null]); or else two rows of the histories at the same place, counted from the end, carry the
    same hash of two different texts, each made of its row: so an edit, a reordering, an insertion or a
    deletion that keeps the head hash passes only with a second preimage for a row of the history. *)
Theorem tamper_evidence rows1 rows2 :
  (∀ x, sha256 x ≠ "") → Forall row_ok rows1 → Forall row_ok rows2 →
  ok (verify_rows rows1) = true → ok (verify_rows rows2) = true →
  from_option rowHash "" (last rows1) = from_option rowHash "" (last rows2) →
  collision_at (anchored rows1) (anchored rows2) ∨ Forall2 same_event (anchored rows1) (anchored rows2).
Proof.
  intros Hne Hok1 Hok2 H1 H2 Heq. apply verify_rows_ok in H1, H2.
  rewrite (anchored_last rows1), (anchored_last rows2) in Heq.
  apply linked_same_head; [done..| | |done]; unfold anchored;
    match goal with |- Forall _ (dropWhile ?q ?l) =>
      destruct (dropWhile_suffix q l) as (k & Hk & _) end;
    [rewrite Hk in Hok1; by apply Forall_app in Hok1 as [_ ?]
    |rewrite Hk in Hok2; by apply Forall_app in Hok2 as [_ ?]].
Qed.

Lemma linked_take prev rows n : linked prev rows → linked prev (take n rows).
Proof.
  revert prev n. induction rows as [|r rows IH]; intros prev [|n]; simpl; try done. naive_solver.
Qed.
Lemma anchored_take rows n : ∃ k, anchored (take n rows) = take k (anchored rows).
Proof.
  unfold anchored. revert n. induction rows as [|r rows IH]; intros [|n]; simpl; try by exists O.
  destruct (is_legacy r); [apply IH|]. by exists (S n).
Qed.

Definition blank (r : AuditRow) : AuditRow :=
  {| id := id r; orgId := orgId r; action := action r; actorType := actorType r; actorId := actorId r;
     payload := payload r; at_ := at_ r; seq := seq r; prevHash := ""; rowHash := "" |}.

(** The limits of the chain without an external anchor: removing any number of the most recent
    rows of an intact history leaves a history [verify] reports as intact, and blanking the hashes of
    an arbitrary history makes [verify] report it as intact with every row counted as legacy. *)
Theorem unanchored_limits rows n (edit : AuditRow → AuditRow) :
  (ok (verify_rows rows) = true → ok (verify_rows (take n rows)) = true) ∧
  ok (verify_rows (map (λ r, blank (edit r)) rows)) = true ∧
  legacyPrefix (verify_rows (map (λ r, blank (edit r)) rows)) = length rows.
Proof.
  split; [|].
  - rewrite !verify_rows_ok. intros H. destruct (anchored_take rows n) as [k ->]. by apply linked_take.
  - unfold verify_rows. rewrite length_map.
    assert (∀ total st, v_anchored st = false →
      ok (verify_from total st (map (λ r, blank (edit r)) rows)) = true ∧
      legacyPrefix (verify_from total st (map (λ r, blank (edit r)) rows)) = (v_legacy st + length rows)%nat) as H.
    { intros total. induction rows as [|r rows IH]; intros st Hst; cbn [map verify_from length]; [simpl; split; [done|lia]|].
      unfold verify_step. rewrite Hst. cbn [negb andb]. change (is_legacy (blank (edit r))) with true.
      cbv iota. destruct (IH {| v_prev := v_prev st; v_legacy := S (v_legacy st);
        v_legacyRows := v_legacyRows st; v_anchored := false |} eq_refl) as [H1 H2].
      split; [exact H1|]. rewrite H2. simpl. lia. }
    apply (H (length rows) verify_start eq_refl).
Qed.
End audit.

(** * Audited transactions *)

Section transact.
Context {DB T : Type}.

(** [mutation] is the callback, with the organization and payload to record; [append_event] the
    chain append; [others n] what other transactions commit before attempt [n] starts, and
    [commit n] whether the database rejects the commit of attempt [n]. *)
Context (append_event : string → payload_arg → DB → DB) (others : nat → DB → DB)
  (commit : nat → option exn).

Definition conflict (error : exn) : bool :=
  match error with
  | PrismaError c => String.eqb c "P2034" || String.eqb c "P2002"
  | _ => false
  end.

Definition attempt_body (mutation : M DB (T * string * option payload_arg)) : M DB T :=
  audited ← mutation;
  let '(result, org, p) := audited in
  _ ← modify (append_event org (default [] p));
  mret result.

Fixpoint transact_from (fuel attempt : nat) (mutation : M DB (T * string * option payload_arg))
    : M DB T := λ db,
  match fuel with
  | O => (Throw (Error "unreachable audited transaction state"), db)
  | S fuel =>
      let db0 := others attempt db in
      let retry error :=
        if negb (conflict error) || (attempt =? 3)%nat then (Throw error, db0)
        else transact_from fuel (S attempt) mutation db0 in
      match transaction (attempt_body mutation) db0 with
      | (Ok result, db1) =>
          match commit attempt with None => (Ok result, db1) | Some error => retry error end
      | (Throw error, _) => retry error
      end
  end.
(** [for (let attempt = 0; attempt < 4; attempt += 1)] *)
Definition transact (mutation : M DB (T * string * option payload_arg)) : M DB T :=
  transact_from 4 0 mutation.

Lemma transact_from_spec fuel attempt mutation db r db' :
  (attempt + fuel = 4)%nat → (0 < fuel)%nat →
  transact_from fuel attempt mutation db = (r, db') →
  ∃ n, (attempt <= n < 4)%nat ∧
    let seen := foldl (λ d k, others k d) db (List.seq attempt (S (n - attempt))) in
    match r with
    | Ok x => commit n = None ∧ attempt_body mutation seen = (Ok x, db')
    | Throw error => db' = seen ∧ (conflict error = false ∨ n = 3%nat) ∧
        (commit n = Some error ∨ ∃ d, attempt_body mutation seen = (Throw error, d))
    end.
Proof.
  revert attempt db. induction fuel as [|fuel IH]; intros attempt db Hsum Hpos; [lia|].
  cbn [transact_from].
  assert (∀ error, (commit attempt = Some error ∨
      ∃ d, attempt_body mutation (others attempt db) = (Throw error, d)) →
    (if negb (conflict error) || (attempt =? 3)%nat then (Throw error, others attempt db)
     else transact_from fuel (S attempt) mutation (others attempt db)) = (r, db') →
    ∃ n, (attempt <= n < 4)%nat ∧
      let seen := foldl (λ d k, others k d) db (List.seq attempt (S (n - attempt))) in
      match r with
      | Ok x => commit n = None ∧ attempt_body mutation seen = (Ok x, db')
      | Throw error => db' = seen ∧ (conflict error = false ∨ n = 3%nat) ∧
          (commit n = Some error ∨ ∃ d, attempt_body mutation seen = (Throw error, d))
      end) as Hretry.
  { intros error Herr. destruct (_ || _) eqn:E.
    - intros [= <- <-]. exists attempt. split; [lia|]. rewrite Nat.sub_diag. simpl. boolify.
      split; [done|]. split; [destruct E; auto|done].
    - apply orb_false_iff in E as [_ E]. apply Nat.eqb_neq in E. intros Hrun.
      apply IH in Hrun as (n & Hn & Hspec); [|lia..]. exists n. split; [lia|].
      replace (S (n - attempt)) with (S (S (n - S attempt))) by lia. exact Hspec. }
  unfold transaction. destruct (attempt_body mutation (others attempt db)) as [[x|error] d] eqn:Hb.
  - destruct (commit attempt) as [error|] eqn:Hc; [apply Hretry; auto|].
    intros [= <- <-]. exists attempt. split; [lia|]. rewrite Nat.sub_diag. simpl. done.
  - apply Hretry. right. by exists d.
Qed.

(** C11: An audited transaction makes at most four attempts and is atomic: when it returns, the
    database is exactly the state some attempt saw with one run of the mutation and one append on
    top; when it throws, nothing of it was stored, and the error is either not a serialization or
    uniqueness conflict or the conflict of the fourth attempt. *)
Theorem transact_atomic mutation db r db' :
  transact mutation db = (r, db') →
  ∃ n, (n < 4)%nat ∧ let seen := foldl (λ d k, others k d) db (List.seq 0 (S n)) in
  match r with
  | Ok x => ∃ org p d, mutation seen = (Ok (x, org, p), d) ∧ db' = append_event org (default [] p) d
  | Throw error => db' = seen ∧ (conflict error = false ∨ n = 3%nat)
  end.
Proof.
  intros H. apply transact_from_spec in H as (n & Hn & Hspec); [|lia..].
  exists n. split; [lia|]. rewrite Nat.sub_0_r in Hspec. cbv zeta in *. destruct r as [x|error].
  - destruct Hspec as [_ Hb]. unfold attempt_body in Hb. inv_ok.
    match goal with H : mutation _ = (Ok ?a, ?d) |- _ => destruct a as [[y org] p]; rename d into d0 end.
    inv_ok. by exists org, p, d0.
  - destruct Hspec as (Hdb & Hc & _). done.
Qed.
End transact.

(** * The interface the services use *)

Section refinement.
Context {DB T : Type} `{AuditStore DB} (others : nat → DB → DB) (commit : nat → option exn)
  (action_ actorType_ actorId_ : string).

Definition record_append (org : string) (p : payload_arg) : DB → DB :=
  record_event {| ev_org := org; ev_action := action_; ev_actorType := actorType_;
                  ev_actorId := actorId_; ev_payload := p |}.
(** A callback that always gives a payload. *)
Definition with_payload (mutation : M DB (T * string * payload_arg)) : M DB (T * string * option payload_arg) :=
  x ← mutation; mret (x.1, Some x.2).

Lemma attempt_is_audited mutation db :
  transaction (attempt_body record_append (with_payload mutation)) db =
  audited action_ actorType_ actorId_ mutation db.
Proof.
  unfold audited, transaction, attempt_body, with_payload, mbind, M_bind, mret, M_ret.
  destruct (mutation db) as [[[[x org] p]|error] d]; reflexivity.
Qed.

(** C17: The retrying transaction implements the atomic audited transaction the other services are
    proved against: whatever other transactions commit between its attempts, its result is that of
    one atomic run on a state it saw, or a commit conflict of one of its attempts that left that
    state as it was; and when nothing interferes, it is the atomic run. *)
Theorem transact_refines_audited mutation db :
  (∀ r db', transact record_append others commit (with_payload mutation) db = (r, db') →
     ∃ n, (n < 4)%nat ∧ let seen := foldl (λ d k, others k d) db (List.seq 0 (S n)) in
       audited action_ actorType_ actorId_ mutation seen = (r, db') ∨
       (∃ error, commit n = Some error ∧ r = Throw error ∧ db' = seen)) ∧
  ((∀ n d, others n d = d) → (∀ n, commit n = None) →
     transact record_append others commit (with_payload mutation) db =
     audited action_ actorType_ actorId_ mutation db).
Proof.
  assert (∀ r db', transact record_append others commit (with_payload mutation) db = (r, db') →
     ∃ n, (n < 4)%nat ∧ let seen := foldl (λ d k, others k d) db (List.seq 0 (S n)) in
       audited action_ actorType_ actorId_ mutation seen = (r, db') ∨
       (∃ error, commit n = Some error ∧ r = Throw error ∧ db' = seen)) as Hgen.
  { intros r db' H'. apply transact_from_spec in H' as (n & Hn & Hspec); [|lia..].
    exists n. split; [lia|]. rewrite Nat.sub_0_r in Hspec. cbv zeta in *. rewrite <-attempt_is_audited.
    unfold transaction. destruct r as [x|error].
    - left. destruct Hspec as [_ ->]. done.
    - destruct Hspec as (-> & _ & [Hc|[d ->]]); [right; eauto|by left]. }
  split; [exact Hgen|]. intros Hid Hc.
  destruct (transact _ _ _ _ db) as [r db'] eqn:E. destruct (Hgen r db' eq_refl) as (n & _ & Hn).
  assert (∀ l d, foldl (λ d k, others k d) d l = d) as Hfold.
  { induction l as [|k l IH]; intros d; simpl; [done|]. by rewrite Hid. }
  cbv zeta in Hn. rewrite Hfold in Hn. destruct Hn as [->|(error & He & _)]; [done|]. by rewrite Hc in He.
Qed.
End refinement.

(** * Witnesses *)

#[export] Instance trail_store : AuditStore (list AuditEvent) := {
  trail := λ db, db; record_event := λ ev db, db ++ [ev]; trail_record ev db := eq_refl }.
Lemma transact_refines_audited_witness :
  transact (record_append "role.archive" "admin" "u1") (λ _ (d : list AuditEvent), d) (λ _, None)
    (with_payload (λ db, (Ok (length db, "o", []), db))) [] =
  audited "role.archive" "admin" "u1" (λ db, (Ok (length db, "o", []), db)) [].
Proof.
  exact (proj2 (transact_refines_audited (λ _ (d : list AuditEvent), d) (λ _, None)
    "role.archive" "admin" "u1" (λ db, (Ok (length db, "o", []), db)) []) (λ _ _, eq_refl) (λ _, eq_refl)).
Defined.


Definition demo_sha (s : string) : string := String "h" s.
Definition demo_db : list AuditRow :=
  append demo_sha
    [{| id := "legacy"; orgId := "o"; action := "enroll"; actorType := "device"; actorId := "d";
        payload := JNull; at_ := 5; seq := 0; prevHash := ""; rowHash := "" |}]
    "r1" 1000 "o" "revoke" "admin" "" [("deviceId", Some (JStr "d1")); ("reason", None)].

Lemma append_preserves_verify_witness :
  ok (verify demo_sha demo_db "o") = true ∧
  ok (verify demo_sha (append demo_sha demo_db "r2" 2000 "o" "enroll" "device" "d2" []) "o") = true.
Proof.
  assert (ok (verify demo_sha demo_db "o") = true) as H by (vm_compute; reflexivity).
  split; [exact H|].
  exact (proj1 (append_preserves_verify demo_sha demo_db "r2" 2000 "o" "enroll" "device" "d2" [] H)).
Defined.

Lemma demo_rows_ok : Forall row_ok demo_db.
Proof. repeat (apply Forall_cons_2; [split; [vm_compute; discriminate | by simpl]|]). constructor. Qed.

Lemma tamper_evidence_witness :
  collision_at demo_sha (anchored demo_db) (anchored demo_db) ∨ Forall2 same_event (anchored demo_db) (anchored demo_db).
Proof.
  apply (tamper_evidence demo_sha demo_db demo_db (λ x (H : String _ x = EmptyString), ltac:(discriminate H)) demo_rows_ok demo_rows_ok).
  - vm_compute. reflexivity.
  - vm_compute. reflexivity.
  - reflexivity.
Defined.

Definition demo_commit (n : nat) : option exn :=
  match n with 0 | 1 => Some (PrismaError "P2034") | _ => None end%nat.
Lemma transact_atomic_witness :
  ∃ r db', transact (λ org _ (db : list string), db ++ [org]) (λ n db, db ++ ["other"]) demo_commit
      (λ db, (Ok (length db, "o", None), db ++ ["row"])) [] = (r, db') ∧ r = Ok 3%nat ∧
  ∃ n, (n < 4)%nat ∧ let seen := foldl (λ (d : list string) k, d ++ ["other"]) [] (List.seq 0 (S n)) in
  match r with
  | Ok x => ∃ org p d, (Ok (length seen, "o", None), seen ++ ["row"]) = (Ok (x, org, p), d) ∧
      db' = (λ org (_ : payload_arg) (db : list string), db ++ [org]) org (default [] p) d
  | Throw error => db' = seen ∧ (conflict error = false ∨ n = 3%nat)
  end.
Proof.
  eexists _, _. split; [vm_compute; reflexivity|]. split; [reflexivity|].
  exact (transact_atomic (λ org _ (db : list string), db ++ [org]) (λ n db, db ++ ["other"]) demo_commit
    (λ db, (Ok (length db, "o", None), db ++ ["row"])) [] _ _ eq_refl).
Defined.
