(* ===== verification/Access.v ===== *)
(** Access decisions: the device-token chokepoint ([src/security/token-discipline.ts]), the admin
    guard and tenant check ([src/common/admin-auth.guard.ts]) and the licence/entitlement checks
    ([src/license/license.ts], [src/license/license.service.ts], [src/config/deploy.ts]). Times are
    milliseconds since the epoch (licences: seconds). *)
From S2P Require Import Prelude Js Crypto.
Local Open Scope Z_scope.

(** * Device-token discipline *)
Module Token.

Record ValidatableToken := { revokedAt : option Z; expiresAt : option Z }.

Definition DEFAULT_DEVICE_TOKEN_TTL_MINUTES : Q := inject_Z (7 * 24 * 60).

(** A positive finite environment number, or the default. *)
Definition positive_env (e : env) (name : string) (d : Q) : Q :=
  match from_option Number_str NaN (e name) with
  | Num v => if num_ltb (numZ 0) (Num v) then v else d
  | _ => d
  end.
Definition deviceTokenTtlMinutes (e : env) : Q :=
  positive_env e "HARA_DEVICE_TOKEN_TTL_MINUTES" DEFAULT_DEVICE_TOKEN_TTL_MINUTES.
(** [new Date(now + ttlMinutes * 60_000)]: a Date keeps whole milliseconds. *)
Definition deviceTokenExpiry (now : Z) (ttlMinutes : Q) : Z :=
  let ms := (inject_Z now + ttlMinutes * inject_Z 60000)%Q in
  Z.quot (Qnum ms) (Zpos (Qden ms)).
Definition deviceSpendCapUsd (e : env) : Q := positive_env e "HARA_DEVICE_SPEND_CAP_USD" 0%Q.

(** [x.toFixed(2)] for [0 <= x < 1e21] *)
Definition toFixed2 (q : Q) : string :=
  let n := Math_round (q * inject_Z 100) in
  pretty (n / 100) +:+ "." +:+ pretty (n / 10 mod 10) +:+ pretty (n mod 10).
Definition spend_text (spent : number) : string :=
  match spent with Num q => toFixed2 q | Infinity neg => if neg then "-Infinity" else "Infinity" | NaN => "NaN" end.
(** [spent >= cap], a comparison of JavaScript numbers: false when the spend is not a number. *)
Definition spend_reached (spent : number) (cap : Q) : bool :=
  match spent with Num q => Qle_bool cap q | Infinity neg => negb neg | NaN => false end.

Definition assertTokenUsable (token : option ValidatableToken) (now : Z) (e : env)
    (spendChecker : option (ValidatableToken → res number)) : res unit :=
  match token with
  | Some t =>
      if isSome (revokedAt t)
      then Throw (UnauthorizedException "revoked or unknown token")
      else
        _ ← throw_if (match expiresAt t with Some x => x <=? now | None => false end)
              (UnauthorizedException "token expired — re-enroll the device");
        let cap := deviceSpendCapUsd e in
        match spendChecker with
        | Some check =>
            if num_ltb (numZ 0) (Num cap) then
              spent ← check t;
              throw_if (spend_reached spent cap)
                (ForbiddenException ("device spend cap reached ($" +:+ spend_text spent +:+ " / $"
                                     +:+ toFixed2 cap +:+ ")"))
            else Ok tt
        | None => Ok tt
        end
  | None => Throw (UnauthorizedException "revoked or unknown token")
  end.

(** The token row authorises a request at time [now]. *)
Definition usable (token : option ValidatableToken) (now : Z) : Prop :=
  ∃ t, token = Some t ∧ revokedAt t = None ∧ ∀ x, expiresAt t = Some x → now < x.

Lemma usable_ok token now e : assertTokenUsable token now e None = Ok tt ↔ usable token now.
Proof.
  unfold assertTokenUsable, usable, throw_if. destruct token as [[[r|] [x|]]|]; simpl;
    try naive_solver.
  destruct (x <=? now) eqn:E; simpl; boolify; [|naive_solver].
  split; [done|]. intros (t & [= <-] & _ & H). specialize (H x eq_refl). lia.
Qed.

Lemma spend_below spent cap : spend_reached spent cap = false ↔ spent = NaN ∨ num_ltb spent (Num cap) = true.
Proof.
  destruct spent as [|[]|q]; cbn [spend_reached negb]; [naive_solver..|]. rewrite num_ltb_true, Qle_bool_false. naive_solver.
Qed.

(** C1: The token chokepoint lets a request through exactly when the token row exists, is not
    revoked, has not reached its expiry instant and, when a spend lookup and a positive cap are
    configured, the lookup succeeds with a spend that is strictly below the cap, or that is not a number
    at all (NaN, which compares as below every cap). *)
Theorem assertTokenUsable_iff token now e check :
  assertTokenUsable token now e check = Ok tt ↔
  ∃ t, token = Some t ∧ revokedAt t = None ∧ (∀ x, expiresAt t = Some x → now < x) ∧
    ∀ c, check = Some c → (0 < deviceSpendCapUsd e)%Q →
         ∃ spent, c t = Ok spent ∧ (spent = NaN ∨ num_ltb spent (Num (deviceSpendCapUsd e)) = true).
Proof.
  trans (usable token now ∧ ∀ t c, token = Some t → check = Some c →
           (0 < deviceSpendCapUsd e)%Q → ∃ spent, c t = Ok spent ∧ spend_reached spent (deviceSpendCapUsd e) = false);
    [|setoid_rewrite spend_below; unfold usable; naive_solver].
  rewrite <-(usable_ok _ _ e). unfold assertTokenUsable.
  destruct token as [t|]; [|naive_solver].
  destruct (isSome _); [naive_solver|].
  unfold throw_if at 1 3. destruct (match expiresAt t with Some _ => _ | None => _ end);
    simpl; [naive_solver|].
  destruct check as [c|]; [|naive_solver].
  unfold numZ. destruct (num_ltb (Num (inject_Z 0)) (Num (deviceSpendCapUsd e))) eqn:Hcap.
  - apply num_ltb_true in Hcap. destruct (c t) as [spent|] eqn:Hc; simpl.
    + unfold throw_if. destruct (spend_reached spent _) eqn:Hs; [|naive_solver].
      split; [done|]. intros [_ H']. destruct (H' t c eq_refl eq_refl Hcap) as (s' & Hs' & ?). congruence.
    + split; [done|]. intros [_ H'].
      destruct (H' t c eq_refl eq_refl Hcap) as (s' & Hs' & ?). congruence.
  - apply num_ltb_false in Hcap. split; [|done]. intros _. split; [done|].
    intros ? ? _ _ H. by apply Qle_not_lt in Hcap.
Qed.
(** A lookup that answers NaN, for instance of a malformed ledger row, passes every cap. *)
Example nan_spend_passes now :
  assertTokenUsable (Some {| revokedAt := None; expiresAt := None |}) now
    (λ k, if String.eqb k "HARA_DEVICE_SPEND_CAP_USD" then Some "1" else None) (Some (λ _, Ok NaN)) = Ok tt.
Proof. vm_compute. reflexivity. Qed.
End Token.

(** * Roles and the admin guard *)
Module Guard.

Inductive AdminRole := MEMBER | ADMIN | SUPERADMIN.
#[export] Instance AdminRole_eq_dec : EqDecision AdminRole.
Proof. solve_decision. Defined.
Definition RANK (r : AdminRole) : Z := match r with MEMBER => 1 | ADMIN => 2 | SUPERADMIN => 3 end.
Definition role_str (r : AdminRole) : string :=
  match r with MEMBER => "MEMBER" | ADMIN => "ADMIN" | SUPERADMIN => "SUPERADMIN" end.

Record AuthedUser := {
  id : string; email : string; role : AdminRole; orgId : option string; viaSharedKey : bool }.
(** The columns of [AdminUser] the guard reads. *)
Record AdminUser := {
  u_id : string; u_email : string; u_role : AdminRole; u_orgId : option string;
  u_disabledAt : option Z }.

Definition jwtSecret (e : env) : res string :=
  let s := or_default (nullish (e "HARA_JWT_SECRET") "") (nullish (e "HARA_CONTROL_ADMIN_KEY") "") in
  if truthy s then Ok s
  else Throw (UnauthorizedException "HARA_JWT_SECRET or HARA_CONTROL_ADMIN_KEY must be configured").

Definition assertAdminOrgAccess (user : AuthedUser) (org : string) : res unit :=
  if viaSharedKey user || bool_decide (role user = SUPERADMIN) then Ok tt
  else match orgId user with
       | Some o => if truthy o && String.eqb o org then Ok tt
                   else Throw (ForbiddenException "organization access denied")
       | None => Throw (ForbiddenException "organization access denied")
       end.

Section guard.
(** The HMAC of [node:crypto], [JSON.parse], and the [AdminUser] table by id. *)
Context (hmac_sha256 : string → string → list Z) (JSON_parse : string → option json)
  (findUser : string → option AdminUser).

(** [canActivate]: headers are looked up by name; [required] is the route's [@Roles] metadata and
    [now] the time in seconds. A [sub] claim that is not a string makes the query itself fail. *)
Definition canActivate (e : env) (now : Z) (headers : string → option string)
    (required : option AdminRole) : res AuthedUser :=
  let required := nullish required ADMIN in
  let sharedKey := nullish (e "HARA_CONTROL_ADMIN_KEY") "" in
  if truthy sharedKey && bool_decide (headers "x-admin-key" = Some sharedKey)
  then Ok {| id := "shared-key"; email := "shared-key@local"; role := SUPERADMIN;
             orgId := None; viaSharedKey := true |}
  else
    let auth := nullish (headers "authorization") "" in
    if negb (truthy auth) || negb (startsWith "Bearer " auth)
    then Throw (UnauthorizedException "missing credentials")
    else
      secret ← jwtSecret e;
      match verifyJwt hmac_sha256 JSON_parse (str (drop 7 (chars auth))) secret now with
      | None => Throw (UnauthorizedException "invalid or expired token")
      | Some payload =>
          match assoc "sub" payload with
          | Some (JStr sub) =>
              match findUser sub with
              | None => Throw (UnauthorizedException "user not found")
              | Some user =>
                  _ ← throw_if (isSome (u_disabledAt user))
                        (UnauthorizedException "user disabled");
                  _ ← throw_if (RANK (u_role user) <? RANK required)
                        (ForbiddenException ("requires " +:+ role_str required));
                  Ok {| id := u_id user; email := u_email user; role := u_role user;
                        orgId := u_orgId user; viaSharedKey := false |}
              end
          | _ => Throw (PrismaError "validation")
          end
      end.

(** The request carries a bearer token whose signature part is the HMAC of its other two parts under
    the configured secret, whose claims have not expired, and whose subject is the user [u]. *)
Definition authenticated_jwt (e : env) (now : Z) (headers : string → option string)
    (u : AdminUser) : Prop :=
  ∃ h p sig secret claims exp sub,
    headers "authorization" = Some ("Bearer " +:+ h +:+ "." +:+ p +:+ "." +:+ sig) ∧
    jwtSecret e = Ok secret ∧ b64uDecode sig = hmac_sha256 secret (h +:+ "." +:+ p) ∧
    JSON_parse (of_bytes (b64uDecode p)) = Some (JObj claims) ∧
    assoc "exp" claims = Some (JNum exp) ∧ (inject_Z now < exp)%Q ∧
    assoc "sub" claims = Some (JStr sub) ∧ findUser sub = Some u.

(** What the guard establishes about the user it admits. *)
Lemma canActivate_spec e now headers required user :
  canActivate e now headers required = Ok user →
  (viaSharedKey user = true ∧ role user = SUPERADMIN ∧
   ∃ key, e "HARA_CONTROL_ADMIN_KEY" = Some key ∧ key ≠ "" ∧
          headers "x-admin-key" = Some key) ∨
  (∃ u, authenticated_jwt e now headers u ∧ u_disabledAt u = None ∧
        RANK (nullish required ADMIN) <= RANK (u_role u) ∧
        user = {| id := u_id u; email := u_email u; role := u_role u; orgId := u_orgId u;
                  viaSharedKey := false |}).
Proof.
  unfold canActivate. destruct (truthy _ && _) eqn:Hk.
  { intros [= <-]. left. boolify. destruct Hk as [Hk Hh].
    destruct (e "HARA_CONTROL_ADMIN_KEY") as [key|]; simpl in *; [|done].
    split_and!; [done..|]. by exists key. }
  destruct (negb (truthy _) || _) eqn:Ha; [done|]. boolify. destruct Ha as [Ht Hp].
  intros H. inv_ok.
  destruct (headers "authorization") as [auth|] eqn:Hauth; simpl in *; [|done].
  apply startsWith_app in Hp as (token & ->).
  assert (str (drop 7 (chars ("Bearer " +:+ token))) = token) as Htok.
  { change (drop 7 (chars ("Bearer " +:+ token))) with (chars token). apply str_chars. }
  rewrite Htok in *.
  destruct (verifyJwt _ _ token _ now) as [claims|] eqn:Hv; [|done].
  apply verifyJwt_sound in Hv as (h & p & sig & exp & -> & Hmac & Hparse & Hexp & Hnow).
  destruct (assoc "sub" claims) as [[| | |sub| |]|] eqn:Hsub; try done.
  destruct (findUser sub) as [u|] eqn:Hu; [|done]. inv_ok. boolify.
  right. exists u. split_and!; [|done|lia|done].
  by exists h, p, sig, a, claims, exp, sub.
Qed.

(** C6: The admin guard admits a request only as the shared-key SUPERADMIN (the request carried
    the configured non-empty admin key) or as the enabled database user named by an unexpired bearer
    token carrying the HMAC of its content under the configured secret, with that user's current
    role, organization and at least the rank the route requires (ADMIN when unannotated). *)
Theorem canActivate_sound e now headers required user :
  canActivate e now headers required = Ok user →
  (viaSharedKey user = true ∧ role user = SUPERADMIN ∧
   ∃ key, e "HARA_CONTROL_ADMIN_KEY" = Some key ∧ key ≠ "" ∧
          headers "x-admin-key" = Some key) ∨
  (∃ u, authenticated_jwt e now headers u ∧ u_disabledAt u = None ∧
        RANK (nullish required ADMIN) <= RANK (u_role u) ∧
        user = {| id := u_id u; email := u_email u; role := u_role u; orgId := u_orgId u;
                  viaSharedKey := false |}).
Proof. apply canActivate_spec. Qed.

(** A user who is neither a SUPERADMIN nor the shared key can only act on the organization
    assigned to the account. *)
Theorem org_access_confined user org :
  assertAdminOrgAccess user org = Ok tt ↔
  viaSharedKey user = true ∨ role user = SUPERADMIN ∨ (orgId user = Some org ∧ org ≠ "").
Proof.
  unfold assertAdminOrgAccess. destruct (_ || _) eqn:Hg; boolify; [naive_solver|].
  destruct Hg as [Hs Hr]. destruct (orgId user) as [o|].
  - destruct (_ && _) eqn:Ho; boolify.
    + split; [|done]. destruct Ho as [Hne ->]. auto.
    + split; [done|]. intros [?|[?|[[= <-] Hne]]]; [congruence|done|]. by destruct Ho.
  - split; [done|]. intros [?|[?|[??]]]; congruence.
Qed.
End guard.

Definition demo_env : env := λ k,
  if String.eqb k "HARA_JWT_SECRET" then Some "s3cret" else None.
Definition demo_user : AdminUser :=
  {| u_id := "u1"; u_email := "a@b"; u_role := ADMIN; u_orgId := Some "org1"; u_disabledAt := None |}.
Definition demo_mac (key text : string) : list Z := [Z.of_nat (String.length key); 7; 250].
Definition demo_claims : claims := [("sub", JStr "u1"); ("exp", JNum (inject_Z 500))].
Definition demo_parse (s : string) : option json :=
  if String.eqb s "payload" then Some (JObj demo_claims) else None.
Definition demo_token : string :=
  "h." +:+ b64uEncode (bytes_of "payload") +:+ "." +:+ b64uEncode (demo_mac "s3cret" "").
Definition demo_find (i : string) : option AdminUser :=
  if String.eqb i "u1" then Some demo_user else None.
Definition demo_headers (k : string) : option string :=
  if String.eqb k "authorization" then Some ("Bearer " +:+ demo_token) else None.

Lemma canActivate_sound_witness :
  ∃ user, canActivate demo_mac demo_parse demo_find demo_env 499 demo_headers None = Ok user ∧
  ((viaSharedKey user = true ∧ role user = SUPERADMIN ∧
    ∃ key, demo_env "HARA_CONTROL_ADMIN_KEY" = Some key ∧ key ≠ "" ∧
           demo_headers "x-admin-key" = Some key) ∨
   (∃ u, authenticated_jwt demo_mac demo_parse demo_find demo_env 499 demo_headers u ∧
         u_disabledAt u = None ∧ RANK (nullish None ADMIN) <= RANK (u_role u) ∧
         user = {| id := u_id u; email := u_email u; role := u_role u; orgId := u_orgId u;
                   viaSharedKey := false |})).
Proof. eexists. split; [vm_compute; reflexivity|]. apply canActivate_sound. vm_compute. reflexivity. Defined.
End Guard.

(** * Licences and entitlements *)
Module License.

Record LicenseClaims := {
  hubOrgId : string; plan : string; seatLimit : Z; features : list string;
  notBefore : Z; notAfter : Z; graceDays : Z }.

Inductive LicenseStatus := valid | grace | expired | not_yet_valid.
Inductive ServiceStatus := Dev | Saas | NoLicense | Licensed (s : LicenseStatus).
#[export] Instance LicenseStatus_eq_dec : EqDecision LicenseStatus.
Proof. solve_decision. Defined.

Definition isSaas (e : env) : bool := bool_decide (e "DEPLOY_MODE" = Some "saas").
Definition isSelf (e : env) : bool := negb (isSaas e).
Definition devBypass (e : env) : bool := bool_decide (e "HARA_LICENSE_DEV" = Some "1").

Definition licenseStatus (claims : LicenseClaims) (nowSec : Z) : LicenseStatus :=
  if nowSec <? notBefore claims then not_yet_valid
  else if nowSec <=? notAfter claims then valid
  else if nowSec <=? notAfter claims + graceDays claims * 86400 then grace
  else expired.

Section license.
(** Ed25519 [verify] (public key, payload, signature) and [JSON.parse] with the claim fields read. *)
Context (ed25519_verify : string → list Z → list Z → bool)
  (parse_claims : string → option LicenseClaims).

(** [token.split(".")] destructured into its first two parts; an absent part is [undefined]. *)
Definition verifyLicense (publicKeyPem token : string) : res LicenseClaims :=
  let parts := split "." token in
  let payloadPart := default "" (parts !! 0%nat) in
  let sigPart := default "" (parts !! 1%nat) in
  if negb (truthy payloadPart) || negb (truthy sigPart) then Throw (Error "malformed license token")
  else
    let payload := from_base64 payloadPart in
    if negb (ed25519_verify publicKeyPem payload (from_base64 sigPart))
    then Throw (Error "license signature invalid")
    else match parse_claims (of_bytes payload) with
         | Some c => Ok c
         | None => Throw (Error "SyntaxError")
         end.

(** The licence a boot ends with; a bad one is fatal on a self deployment. *)
Definition onModuleInit (e : env) : res (option LicenseClaims) :=
  let token := nullish (e "HARA_LICENSE") "" in
  let pub := nullish (e "HARA_LICENSE_PUBKEY") "" in
  if truthy token && truthy pub then
    match verifyLicense pub token with
    | Ok claims => Ok (Some claims)
    | Throw err => if isSelf e && negb (devBypass e) then Throw err else Ok None
    end
  else Ok None.
End license.

Definition status (e : env) (claims : option LicenseClaims) (nowSec : Z) : ServiceStatus :=
  if devBypass e then Dev
  else if isSaas e then Saas
  else match claims with None => NoLicense | Some c => Licensed (licenseStatus c nowSec) end.

Definition hasFeature (e : env) (claims : option LicenseClaims) (nowSec : Z) (feature : string) : bool :=
  if devBypass e || isSaas e then true
  else match claims with
       | None => false
       | Some c =>
           let st := licenseStatus c nowSec in
           if bool_decide (st = expired) || bool_decide (st = not_yet_valid) then false
           else mem feature (features c)
       end.

Definition seatLimitOf (e : env) (claims : option LicenseClaims) : Z :=
  if devBypass e || isSaas e then 0 else from_option seatLimit 0 claims.

(** [EntitlementService.assert] *)
Definition assert_feature (e : env) (claims : option LicenseClaims) (nowSec : Z) (feature : string)
    : res unit :=
  throw_if (negb (hasFeature e claims nowSec feature))
    (ForbiddenException ("license does not include feature " +:+ dquote feature
                         +:+ " (or it is expired)")).

(** [EntitlementService.seatCheck], [seats] being the organization's device count. *)
Definition seatCheck (e : env) (claims : option LicenseClaims) (seats : Z) : res unit :=
  let limit := seatLimitOf e claims in
  if limit =? 0 then Ok tt
  else throw_if (limit <=? seats)
         (ForbiddenException ("seat limit reached (" +:+ pretty seats +:+ "/" +:+ pretty limit
                              +:+ ") — revoke a device or upgrade")).

Lemma licenseStatus_cases c nowSec :
  match licenseStatus c nowSec with
  | not_yet_valid => nowSec < notBefore c
  | valid => notBefore c <= nowSec <= notAfter c
  | grace => notBefore c <= nowSec ∧ notAfter c < nowSec <= notAfter c + graceDays c * 86400
  | expired => notBefore c <= nowSec ∧ notAfter c < nowSec ∧
               notAfter c + graceDays c * 86400 < nowSec
  end.
Proof. unfold licenseStatus. repeat case_match; boolify; simplify_eq; lia. Qed.

Lemma licenseStatus_serves c nowSec :
  bool_decide (licenseStatus c nowSec = expired)
    || bool_decide (licenseStatus c nowSec = not_yet_valid) = false ↔
  notBefore c <= nowSec ∧
  (nowSec <= notAfter c ∨ nowSec <= notAfter c + graceDays c * 86400).
Proof.
  pose proof (licenseStatus_cases c nowSec).
  destruct (licenseStatus c nowSec); simpl; split; intros; solve [done|lia|exfalso; lia].
Qed.

Lemma assert_feature_iff e claims nowSec feature :
  isSelf e = true → devBypass e = false →
  (assert_feature e claims nowSec feature = Ok tt ↔
   ∃ c, claims = Some c ∧ feature ∈ features c ∧ notBefore c <= nowSec ∧
        (nowSec <= notAfter c ∨ nowSec <= notAfter c + graceDays c * 86400)).
Proof.
  intros Hself Hdev. unfold assert_feature, hasFeature. unfold isSelf in Hself.
  rewrite negb_true_iff in Hself. rewrite Hdev, Hself. simpl.
  destruct claims as [c|]; [|split; [done|by intros (? & ? & _)]].
  pose proof (licenseStatus_serves c nowSec) as Hst.
  destruct (_ || _) eqn:E.
  - split; [done|]. intros (c' & [= <-] & _ & Hw). apply Hst in Hw. congruence.
  - apply proj1 in Hst. specialize (Hst eq_refl). unfold throw_if.
    destruct (mem feature (features c)) eqn:Hm; boolify.
    + split; [|done]. by exists c.
    + split; [done|]. by intros (c' & [= <-] & Hf & _).
Qed.

(** The token carries a valid signature over the bytes its claims were parsed from. *)
Definition signed_claims (ed : string → list Z → list Z → bool)
    (parse : string → option LicenseClaims) (pub token : string) (c : LicenseClaims) : Prop :=
  ∃ payloadPart sigPart, split "." token !! 0%nat = Some payloadPart ∧
    split "." token !! 1%nat = Some sigPart ∧
    ed pub (from_base64 payloadPart) (from_base64 sigPart) = true ∧
    parse (of_bytes (from_base64 payloadPart)) = Some c.

Lemma verifyLicense_sound ed parse pub token c :
  verifyLicense ed parse pub token = Ok c → signed_claims ed parse pub token c.
Proof.
  unfold verifyLicense, signed_claims. destruct (negb (truthy _) || _) eqn:Ht; [done|].
  boolify. destruct Ht as [Hp Hs].
  destruct (split "." token !! 0%nat) as [pp|] eqn:E0; simpl in *; [|done].
  destruct (split "." token !! 1%nat) as [sp|] eqn:E1; simpl in *; [|done].
  destruct (ed _ _ _) eqn:Hed; simpl; [|done].
  destruct (parse _) as [c'|] eqn:Hparse; [|done]. intros [= <-]. by exists pp, sp.
Qed.

(** On a self-hosted deployment without the development bypass, once boot succeeds a feature is
    served exactly when the configured licence token carries a valid signature, its claims list the
    feature and the time is between [notBefore] and [notAfter] plus the grace period; a token that
    fails the check makes boot itself fail. *)
Theorem self_hosted_features ed parse e nowSec feature :
  isSelf e = true → devBypass e = false →
  match onModuleInit ed parse e with
  | Throw err => ∃ token pub, e "HARA_LICENSE" = Some token ∧ e "HARA_LICENSE_PUBKEY" = Some pub ∧
      verifyLicense ed parse pub token = Throw err
  | Ok claims =>
      assert_feature e claims nowSec feature = Ok tt ↔
      ∃ c token pub, e "HARA_LICENSE" = Some token ∧ e "HARA_LICENSE_PUBKEY" = Some pub ∧
        token ≠ "" ∧ pub ≠ "" ∧ verifyLicense ed parse pub token = Ok c ∧
        signed_claims ed parse pub token c ∧ feature ∈ features c ∧ notBefore c <= nowSec ∧
        (nowSec <= notAfter c ∨ nowSec <= notAfter c + graceDays c * 86400)
  end.
Proof.
  intros Hself Hdev. pose proof (assert_feature_iff e) as Hiff. unfold onModuleInit.
  destruct (e "HARA_LICENSE") as [token|] eqn:Et; simpl.
  2: { rewrite Hiff by done. split; [by intros (c & ? & _) | by intros (c & ? & ? & ? & _)]. }
  destruct (e "HARA_LICENSE_PUBKEY") as [pub|] eqn:Ep; simpl.
  2: { rewrite andb_false_r, Hiff by done.
       split; [by intros (c & ? & _) | by intros (c & ? & ? & ? & ? & _)]. }
  destruct (truthy token && truthy pub) eqn:Htr.
  - boolify. destruct (verifyLicense ed parse pub token) as [c|err] eqn:Hv.
    + rewrite Hiff by done. pose proof (verifyLicense_sound _ _ _ _ _ Hv) as Hs. split.
      * intros (c' & [= <-] & Hf & Hw). exists c, token, pub. naive_solver.
      * intros (c' & t' & p' & [= <-] & [= <-] & _ & _ & Hc & _ & Hf & Hw).
        exists c. split; [done|]. rewrite Hv in Hc. injection Hc as <-. done.
    + rewrite Hself, Hdev. simpl. by exists token, pub.
  - rewrite Hiff by done. split; [by intros (c & ? & _)|].
    intros (c & t' & p' & [= <-] & [= <-] & Hnt & Hnp & _).
    apply truthy_true in Hnt, Hnp. by rewrite Hnt, Hnp in Htr.
Qed.

Definition self_env : env := λ k,
  if String.eqb k "HARA_LICENSE" then Some "QUJD.U0lH"
  else if String.eqb k "HARA_LICENSE_PUBKEY" then Some "pem" else None.
Definition demo_verify (pub : string) (payload sig : list Z) : bool :=
  bool_decide (payload = bytes_of "ABC" ∧ sig = bytes_of "SIG").
Definition sample_license : LicenseClaims :=
  {| hubOrgId := "hub"; plan := "team"; seatLimit := 5; features := ["agent-org"];
     notBefore := 100; notAfter := 200; graceDays := 1 |}.

Definition demo_parse_claims (s : string) : option LicenseClaims :=
  if String.eqb s "ABC" then Some sample_license else None.

Lemma self_hosted_features_witness :
  onModuleInit demo_verify demo_parse_claims self_env = Ok (Some sample_license) ∧
  (assert_feature self_env (Some sample_license) 86600 "agent-org" = Ok tt ↔
   ∃ c token pub, self_env "HARA_LICENSE" = Some token ∧ self_env "HARA_LICENSE_PUBKEY" = Some pub ∧
     token ≠ "" ∧ pub ≠ "" ∧ verifyLicense demo_verify demo_parse_claims pub token = Ok c ∧
     signed_claims demo_verify demo_parse_claims pub token c ∧ "agent-org" ∈ features c ∧
     notBefore c <= 86600 ∧ (86600 <= notAfter c ∨ 86600 <= notAfter c + graceDays c * 86400)).
Proof.
  split; [vm_compute; reflexivity|].
  exact (self_hosted_features demo_verify demo_parse_claims self_env 86600 "agent-org" eq_refl eq_refl).
Defined.
End License.
