(* ===== verification/Session.v ===== *)
(** A request as a sequence of database calls: between any two of them, and around each, arbitrary other
    requests run; a call may fail, and a failed call did nothing. The state of a service is its tables and what
    it keeps in memory; the code between two awaits is not interrupted. *)
From S2P Require Import Prelude.
Local Open Scope nat_scope.

(** [calls] numbers the database calls of the request. *)
Record Session {DB : Type} := { db : DB; calls : nat }.
Arguments Session : clear implicits.

(** A schedule where nobody else runs, and one where no call fails. *)
Definition alone {DB : Type} (_ : nat) (d : DB) : DB := d.
Definition no_fault (_ : nat) : option exn := None.

Section session.
Context {DB : Type} (others : nat → DB → DB) (fails : nat → option exn).

(** [await prisma...]: other requests run before the call, and again before the code resumes. *)
Definition call {A} (m : M DB A) : M (Session DB) A := λ s,
  let n := calls s in
  let d := others (2 * n) (db s) in
  let '(r, d') := match fails n with Some er => (Throw er, d) | None => m d end in
  (r, {| db := others (2 * n + 1) d'; calls := S n |}).
(** Code without an await. *)
Definition sync {A} (m : M DB A) : M (Session DB) A := λ s,
  let '(r, d) := m (db s) in (r, {| db := d; calls := calls s |}).

(** Invariants: a request keeps [I] when each of its calls does. *)
Section invariant.
Context (I : DB → Prop) (Hothers : ∀ n d, I d → I (others n d)).
Definition keeps {A} (m : M DB A) : Prop := ∀ d, I d → I (m d).2.
Definition keeps_all {A} (m : M (Session DB) A) : Prop := ∀ s, I (db s) → I (db (m s).2).

Lemma keeps_call {A} (m : M DB A) : keeps m → keeps_all (call m).
Proof.
  intros Hm s Hs. unfold call. destruct (fails (calls s)) as [er|].
  - simpl. by apply Hothers, Hothers.
  - specialize (Hm (others (2 * calls s) (db s)) (Hothers _ _ Hs)). destruct (m _) as [r d]. simpl in *. by apply Hothers.
Qed.
Lemma keeps_sync {A} (m : M DB A) : keeps m → keeps_all (sync m).
Proof. intros Hm s Hs. unfold sync. specialize (Hm (db s) Hs). by destruct (m (db s)). Qed.
Lemma keeps_all_id {A} (m : M (Session DB) A) : (∀ s, (m s).2 = s) → keeps_all m.
Proof. intros Hm s. by rewrite Hm. Qed.
Lemma keeps_all_bind {A B} (m : M (Session DB) A) (k : A → M (Session DB) B) :
  keeps_all m → (∀ a, keeps_all (k a)) → keeps_all (m ≫= k).
Proof.
  intros Hm Hk s Hs. specialize (Hm s Hs). unfold mbind, M_bind. destruct (m s) as [[a|er] s1]; [by apply Hk|done].
Qed.
Lemma keeps_all_try {A} (m : M (Session DB) A) h : keeps_all m → (∀ er, keeps_all (h er)) → keeps_all (try_catch m h).
Proof.
  intros Hm Hh s Hs. specialize (Hm s Hs). unfold try_catch. destruct (m s) as [[a|er] s1]; [done|by apply Hh].
Qed.
Lemma keeps_gets {A} (f : DB → A) : keeps (gets f).
Proof. by intros d. Qed.
Lemma keeps_all_guard b er : keeps_all (guard_throw b er).
Proof. apply keeps_all_id. by destruct b. Qed.
Lemma keeps_all_require {A} (o : option A) er : keeps_all (require o er).
Proof. apply keeps_all_id. by destruct o. Qed.
Lemma keeps_all_lift {A} (r : res A) : keeps_all (lift r).
Proof. by apply keeps_all_id. Qed.
(** What follows a check may use what it checked. *)
Lemma keeps_all_require_bind {A B} (o : option A) er (k : A → M (Session DB) B) :
  (∀ a, o = Some a → keeps_all (k a)) → keeps_all (require o er ≫= k).
Proof. intros Hk s Hs. destruct o as [a|]; [by apply Hk|done]. Qed.
Lemma keeps_all_lift_bind {A B} (r : res A) (k : A → M (Session DB) B) :
  (∀ a, r = Ok a → keeps_all (k a)) → keeps_all (lift r ≫= k).
Proof. intros Hk s Hs. rewrite bind_lift. destruct r as [a|er]; [by apply Hk|done]. Qed.
Lemma keeps_all_ret {A} (a : A) : keeps_all (mret a).
Proof. by apply keeps_all_id. Qed.
End invariant.

(** What a call returned was computed on a state that others left, and others run after it. *)
Lemma call_ok {A} (m : M DB A) s a s' : call m s = (Ok a, s') →
  ∃ d, m (others (2 * calls s) (db s)) = (Ok a, d) ∧ db s' = others (2 * calls s + 1) d ∧ calls s' = S (calls s).
Proof.
  unfold call. destruct (fails (calls s)); [done|]. destruct (m _) as [r d]. intros [= -> <-]. by exists d.
Qed.

(** Rely and guarantee: the others keep an invariant [I] and move the tables by a preorder [R]; a request does so
    when each of its writes does. *)
Section guarantee.
Context (I : DB → Prop) (R : relation DB) `{!PreOrder R}.
Definition sound_write {A} (m : M DB A) : Prop := ∀ d, I d → I (m d).2 ∧ R d (m d).2.
(** From the state [d0] on. *)
Definition since (d0 d : DB) : Prop := I d ∧ R d0 d.
Context (Hothers : ∀ n d, I d → I (others n d) ∧ R d (others n d)).

Lemma since_others d0 n d : since d0 d → since d0 (others n d).
Proof. intros [Hd Ha]. destruct (Hothers n d Hd). split; [done|]. by transitivity d. Qed.
Lemma since_keeps {A} d0 (m : M DB A) : sound_write m → keeps (since d0) m.
Proof. intros Hm d [Hd Ha]. destruct (Hm d Hd). split; [done|]. by transitivity d. Qed.
Lemma since_call {A} d0 (m : M DB A) : sound_write m → keeps_all (since d0) (call m).
Proof. intros Hm. apply keeps_call; [intros n d; apply since_others|by apply since_keeps]. Qed.
Lemma since_read {A} d0 (f : DB → A) : keeps_all (since d0) (call (gets f)).
Proof. apply keeps_call; [intros n d; apply since_others|apply keeps_gets]. Qed.
(** A request that goes on with what it read: only what the tables did since the read matters. *)
Lemma since_after_read {A B} d0 (f : DB → A) (k : A → M (Session DB) B) :
  (∀ d, I d → keeps_all (since d) (k (f d))) → keeps_all (since d0) (call (gets f) ≫= k).
Proof.
  intros Hk s Hs. assert (Hr := since_read d0 f s Hs). destruct (call (gets f) s) as [[a|er] s1] eqn:Hcall;
    [|by rewrite (bind_throw _ _ _ _ _ Hcall)].
  rewrite (bind_step _ _ _ _ _ Hcall). apply call_ok in Hcall as (d & [= <- <-] & Hdb & _).
  destruct (since_others _ (2 * calls s) _ Hs) as [Hok Hadv]. set (d := others (2 * calls s) (db s)) in *.
  destruct (Hk d Hok s1) as [Hok' Hadv']; [rewrite Hdb; apply since_others; by split|]. split; [done|]. by transitivity d.
Qed.
(** A request keeps a preorder when it does from the state it starts in. *)
Lemma since_start {A} (m : M (Session DB) A) s : (∀ d0, keeps_all (since d0) m) → I (db s) → I (db (m s).2) ∧ R (db s) (db (m s).2).
Proof. intros Hm Hs. apply Hm. by split. Qed.
End guarantee.
End session.

Create HintDb session.
#[export] Hint Resolve keeps_all_guard keeps_all_require keeps_all_lift keeps_all_ret keeps_gets : session.
#[export] Hint Extern 1 (keeps_all (since _ _ _) (call _ _ (gets _))) => apply since_read; [apply _|assumption] : session.
