(* ===== verification/Auth.v ===== *)
(** Administrator accounts ([src/auth/auth.service.ts]): the bootstrap of the first one, login with a rate limit
    and a second factor, the enrollment of the second factor, and user management. The state is the account and
    organization tables and the failure counters in memory; a request runs as in [Session]. *)
From S2P Require Import Prelude Js Table Crypto Access Session.
Local Open Scope Z_scope.
#[local] Existing Instance Guard.AdminRole_eq_dec.

(** * Data *)

Record AdminRow := {
  a_id : string; a_email : string; a_passwordHash : string; a_role : Guard.AdminRole; a_orgId : option string;
  a_disabledAt : option Z; a_totpSecret : option string; a_createdAt : Z }.
(** A counter of failed attempts: [{ count, firstAt }]. *)
Record Failures := { count : Z; firstAt : Z }.
Record AuthState := { users : list AdminRow; org_ids : list string; failures : gmap string Failures }.

Definition JWT_TTL_SEC : Z := 8 * 60 * 60.
Definition MIN_PASSWORD_LEN : nat := 12.
Definition FAIL_WINDOW_MS : Z := 60000.
Definition FAIL_LIMIT : Z := 10.

Definition with_users (l : list AdminRow) (s : AuthState) : AuthState :=
  {| users := l; org_ids := org_ids s; failures := failures s |}.
Definition with_failures (f : gmap string Failures) (s : AuthState) : AuthState :=
  {| users := users s; org_ids := org_ids s; failures := f |}.

(** * The rate limit *)

Definition limit_key (ip email : string) : string := ip +:+ "|" +:+ toLowerCase email.
Definition limited (ip email : string) (now : Z) (s : AuthState) : bool :=
  match failures s !! limit_key ip email with
  | Some rec => (now - firstAt rec <? FAIL_WINDOW_MS) && (FAIL_LIMIT <=? count rec)
  | None => false
  end.
Definition checkRateLimit (ip email : string) (now : Z) : M AuthState unit := λ s,
  guard_throw (limited ip email now s) (ForbiddenException "too many failed attempts, try again in a minute") s.
Definition recordFailure (ip email : string) (now : Z) : M AuthState unit := modify (λ s,
  let key := limit_key ip email in
  let fresh := {| count := 1; firstAt := now |} in
  with_failures (<[key := match failures s !! key with
                          | Some rec => if FAIL_WINDOW_MS <=? now - firstAt rec then fresh
                                        else {| count := count rec + 1; firstAt := firstAt rec |}
                          | None => fresh
                          end]> (failures s)) s).
Definition clearFailures (ip email : string) : M AuthState unit := modify (λ s,
  with_failures (delete (limit_key ip email) (failures s)) s).

(** * Rows *)

Definition find_email (email : string) (s : AuthState) : option AdminRow := find_by a_email email (users s).
Definition find_user (i : string) (s : AuthState) : option AdminRow := find_by a_id i (users s).
Definition create_user (r : AdminRow) : M AuthState AdminRow := λ s,
  if isSome (find_email (a_email r) s) || isSome (find_user (a_id r) s) then (Throw (PrismaError "P2002"), s)
  else (Ok r, with_users (users s ++ [r]) s).
Definition update_user (i : string) (f : AdminRow → AdminRow) : M AuthState AdminRow := λ s,
  match find_user i s with
  | None => (Throw (PrismaError "P2025"), s)
  | Some r => (Ok (f r), with_users (update_by a_id i f (users s)) s)
  end.
Definition set_totp (t : option string) (r : AdminRow) : AdminRow :=
  {| a_id := a_id r; a_email := a_email r; a_passwordHash := a_passwordHash r; a_role := a_role r; a_orgId := a_orgId r;
     a_disabledAt := a_disabledAt r; a_totpSecret := t; a_createdAt := a_createdAt r |}.

Inductive LoginResult :=
  | Granted (access_token : string) (role : Guard.AdminRole) (email : string) (expires_in : Z)
  | Requires2fa.
Record MeResult := {
  me_id : string; me_email : string; me_role : Guard.AdminRole; me_orgId : option string; twofa_enabled : bool }.
Record UserPatch := {
  p_role : option Guard.AdminRole; p_orgId : option string; p_disabled : option bool; p_password : option string }.

(** [encodeURIComponent]: the other characters as the bytes of their UTF-8 encoding. *)
Definition percent (z : Z) : string :=
  let hex n := nth (Z.to_nat n) (chars "0123456789ABCDEF") Ascii.zero in
  "%" +:+ str [hex (z / 16); hex (z mod 16)].
Definition encode_char (c : ascii) : string :=
  let z := Z.of_nat (code c) in
  if is_alnum c || is_char "-_.!~*'()" c then str [c]
  else if z <? 128 then percent z else percent (192 + z / 64) +:+ percent (128 + z mod 64).
Definition encodeURIComponent (s : string) : string := join "" (map encode_char (chars s)).
Definition totpUri (secret accountEmail : string) : string :=
  "otpauth://totp/" +:+ encodeURIComponent "hara-control" +:+ ":" +:+ encodeURIComponent accountEmail
  +:+ "?secret=" +:+ encodeURIComponent secret +:+ "&issuer=hara-control&algorithm=SHA1&digits=6&period=30".

(** * The service *)

Section service.
Context (scrypt : string → list Z → nat → list Z) (hmac_sha256 : string → string → list Z)
  (hmac_sha1 : list Z → list Z → list Z) (e : env).
Context (others : nat → AuthState → AuthState) (fails : nat → option exn).
Local Abbreviation State := (Session AuthState).

Definition password_ok (pw : string) (r : AdminRow) : bool := verifyPassword scrypt pw (a_passwordHash r).
Definition totp_ok (secret code : string) (nowMs : Z) : bool := verifyTotp hmac_sha1 secret code 1 nowMs.
Definition too_short (pw : string) : M State unit :=
  guard_throw (String.length pw <? MIN_PASSWORD_LEN)%nat (BadRequestException "password must be ≥12 chars").
Definition shared (user : string) : bool := negb (truthy user) || String.eqb user "shared-key".

(** [i] and [salt] are the drawn identifier and salt. *)
Definition bootstrapSuperadmin (i : string) (salt : list Z) (email password : string) (now : Z) : M State AdminRow :=
  _ ← too_short password;
  n ← call others fails (gets (length ∘ users));
  _ ← guard_throw (0 <? n)%nat (ConflictException "superadmin already exists — use /admin/users instead");
  call others fails (create_user {| a_id := i; a_email := toLowerCase email; a_passwordHash := hashPassword scrypt password salt;
    a_role := Guard.SUPERADMIN; a_orgId := None; a_disabledAt := None; a_totpSecret := None; a_createdAt := now |}).

Definition grant (ip email : string) (u : AdminRow) (now : Z) : M AuthState LoginResult :=
  _ ← clearFailures ip email;
  secret ← lift (Guard.jwtSecret e);
  let token := signJwt hmac_sha256 [("sub", JStr (a_id u)); ("email", JStr (a_email u));
                                    ("role", JStr (Guard.role_str (a_role u)))] secret (now / 1000) JWT_TTL_SEC in
  mret (Granted token (a_role u) (a_email u) JWT_TTL_SEC).
Definition refuse (ip email msg : string) (now : Z) : M AuthState LoginResult :=
  _ ← recordFailure ip email now; raise (UnauthorizedException msg).
(** After the account was read: the checks and the token. [now] is the time when the request resumes. *)
Definition login_resume (ip email password : string) (code : option string) (user : option AdminRow) (now : Z)
    : M AuthState LoginResult :=
  match user with
  | Some u =>
      if isSome (a_disabledAt u) || negb (password_ok password u) then refuse ip email "invalid credentials" now
      else match a_totpSecret u with
           | Some t =>
               if truthy t then
                 if absent code then mret Requires2fa
                 else if totp_ok t (nullish code "") now then grant ip email u now else refuse ip email "invalid 2fa code" now
               else grant ip email u now
           | None => grant ip email u now
           end
  | None => refuse ip email "invalid credentials" now
  end.
Definition login (ip email password : string) (code : option string) (start now : Z) : M State LoginResult :=
  _ ← sync (checkRateLimit ip email start);
  user ← call others fails (gets (find_email (toLowerCase email)));
  sync (login_resume ip email password code user now).

Definition me (user : Guard.AuthedUser) : M State MeResult :=
  twofa ← (if truthy (Guard.id user) && negb (String.eqb (Guard.id user) "shared-key")
           then row ← call others fails (gets (find_user (Guard.id user))); mret (negb (absent (row ≫= a_totpSecret)))
           else mret false);
  mret {| me_id := Guard.id user; me_email := Guard.email user; me_role := Guard.role user; me_orgId := Guard.orgId user;
          twofa_enabled := twofa |}.

(** ** The second factor *)

(** [buf]: the twenty random bytes. *)
Definition startTotpSetup (buf : list Z) (user email : string) : res (string * string) :=
  _ ← throw_if (shared user)
        (BadRequestException "the shared admin key cannot enroll TOTP — sign in as a real account first");
  let secret := base32Encode buf in Ok (secret, totpUri secret email).
Definition enableTotp (user secret code : string) (now : Z) : M State unit :=
  _ ← guard_throw (shared user)
        (BadRequestException "the shared admin key cannot enroll TOTP — sign in as a real account first");
  _ ← guard_throw (negb (totp_ok secret code now)) (BadRequestException "invalid code — check the time on the authenticator");
  _ ← call others fails (update_user user (set_totp (Some secret)));
  mret tt.
Definition disableTotp (user code : string) (now : Z) : M State unit :=
  _ ← guard_throw (shared user) (BadRequestException "the shared admin key has no TOTP to disable");
  row ← call others fails (gets (find_user user));
  let secret := row ≫= a_totpSecret in
  _ ← guard_throw (absent secret) (BadRequestException "2fa is not enabled");
  _ ← guard_throw (negb (totp_ok (nullish secret "") code now)) (BadRequestException "invalid code");
  _ ← call others fails (update_user user (set_totp None));
  mret tt.

(** ** User management *)

Definition listUsers : M State (list AdminRow) := call others fails (gets (λ s, sort_by a_createdAt (users s))).
Definition validatedUserOrg (role : Guard.AdminRole) (org : option string) : M State (option string) :=
  let t := trim (nullish org "") in
  let normalized := if truthy t then Some t else None in
  _ ← guard_throw (negb (bool_decide (role = Guard.SUPERADMIN)) && negb (isSome normalized))
        (BadRequestException "non-SUPERADMIN users must belong to an organization");
  _ ← match normalized with
      | Some o =>
          found ← call others fails (gets (λ s, mem o (org_ids s)));
          guard_throw (negb found) (BadRequestException "organization not found")
      | None => mret tt
      end;
  mret normalized.
Definition createUser (i : string) (salt : list Z) (email password : string) (role : Guard.AdminRole) (org : option string)
    (now : Z) : M State AdminRow :=
  _ ← too_short password;
  existing ← call others fails (gets (find_email (toLowerCase email)));
  _ ← guard_throw (isSome existing) (ConflictException "email already in use");
  validatedOrgId ← validatedUserOrg role org;
  call others fails (create_user {| a_id := i; a_email := toLowerCase email; a_passwordHash := hashPassword scrypt password salt;
    a_role := role; a_orgId := validatedOrgId; a_disabledAt := None; a_totpSecret := None; a_createdAt := now |}).
(** The [data] of the update, as a function on the row. *)
Definition patch_row (patch : UserPatch) (current_org next : option string) (salt : list Z) (now : Z) (r : AdminRow) : AdminRow :=
  {| a_id := a_id r; a_email := a_email r;
     a_passwordHash := match p_password patch with
                       | Some pw => if truthy pw then hashPassword scrypt pw salt else a_passwordHash r
                       | None => a_passwordHash r end;
     a_role := nullish (p_role patch) (a_role r);
     a_orgId := if isSome (p_orgId patch) || negb (bool_decide (next = current_org)) then next else a_orgId r;
     a_disabledAt := match p_disabled patch with Some true => Some now | Some false => None | None => a_disabledAt r end;
     a_totpSecret := a_totpSecret r; a_createdAt := a_createdAt r |}.
Definition updateUser (i : string) (patch : UserPatch) (salt : list Z) (now : Z) : M State AdminRow :=
  found ← call others fails (gets (find_user i));
  current ← require found (BadRequestException "user not found");
  let nextRole := nullish (p_role patch) (a_role current) in
  next ← validatedUserOrg nextRole (match p_orgId patch with Some o => Some o | None => a_orgId current end);
  _ ← match p_password patch with Some pw => if truthy pw then too_short pw else mret tt | None => mret tt end;
  call others fails (update_user i (patch_row patch (a_orgId current) next salt now)).
End service.

(** * Login *)

Section logins.
Context (scrypt : string → list Z → nat → list Z) (hmac_sha256 : string → string → list Z)
  (hmac_sha1 : list Z → list Z → list Z) (e : env).
Local Abbreviation login_resume := (login_resume scrypt hmac_sha256 hmac_sha1 e).
Local Abbreviation login := (login scrypt hmac_sha256 hmac_sha1 e).
Local Abbreviation totp_ok := (totp_ok hmac_sha1).
Local Abbreviation password_ok := (password_ok scrypt).

(** The second factor, where the account has one. *)
Definition second_factor (u : AdminRow) (code : option string) (now : Z) : Prop :=
  ∀ t, a_totpSecret u = Some t → t ≠ "" → ∃ c, code = Some c ∧ totp_ok t c now = true.
Definition session_token (u : AdminRow) (now : Z) (t : string) : Prop := ∃ secret, Guard.jwtSecret e = Ok secret ∧
  t = signJwt hmac_sha256 [("sub", JStr (a_id u)); ("email", JStr (a_email u)); ("role", JStr (Guard.role_str (a_role u)))]
        secret (now / 1000) JWT_TTL_SEC.

(** What an attempt on the account [user] ends with, and what it does to the state. *)
Definition login_outcome (ip email pw : string) (code : option string) (user : option AdminRow) (now : Z)
    (s : AuthState) (r : res LoginResult) (s' : AuthState) : Prop :=
  match r with
  | Ok (Granted t role em ttl) => ∃ u, user = Some u ∧ a_disabledAt u = None ∧ password_ok pw u = true ∧
      second_factor u code now ∧ session_token u now t ∧ role = a_role u ∧ em = a_email u ∧ ttl = JWT_TTL_SEC ∧
      s' = (clearFailures ip email s).2
  | Ok Requires2fa => s' = s ∧ absent code = true
  | Throw (UnauthorizedException m) => s' = (recordFailure ip email now s).2 ∨ is_ok (Guard.jwtSecret e) = false
  | Throw _ => False
  end.
Lemma grant_spec ip email pw code u now s r s' :
  a_disabledAt u = None → password_ok pw u = true → second_factor u code now →
  grant hmac_sha256 e ip email u now s = (r, s') → login_outcome ip email pw code (Some u) now s r s'.
Proof.
  intros Hd Hp Hf. unfold grant, clearFailures, modify. unfold mbind at 1, M_bind at 1. rewrite bind_lift.
  destruct (Guard.jwtSecret e) as [secret|er] eqn:Hj; intros [= <- <-].
  - exists u. split_and!; try done. by exists secret.
  - unfold login_outcome. rewrite Hj. unfold Guard.jwtSecret in Hj. destruct (truthy _); [done|]. injection Hj as <-. by right.
Qed.
Lemma login_resume_spec ip email pw code user now s r s' :
  login_resume ip email pw code user now s = (r, s') → login_outcome ip email pw code user now s r s'.
Proof.
  unfold Auth.login_resume. destruct user as [u|]; [|intros [= <- <-]; by left].
  destruct (isSome (a_disabledAt u) || _) eqn:Hbad; [intros [= <- <-]; by left|].
  apply orb_false_iff in Hbad as [Hdis%isSome_false Hpw%negb_false_iff].
  destruct (a_totpSecret u) as [t|] eqn:Ht.
  2: { apply grant_spec; [done..|]. intros t. by rewrite Ht. }
  destruct (truthy t) eqn:Htr.
  2: { apply grant_spec; [done..|]. intros t'. rewrite Ht. intros [= <-] Hne. by apply truthy_true in Hne; rewrite Hne in Htr. }
  destruct (absent code) eqn:Hc; [by intros [= <- <-]|]. destruct (totp_ok t (nullish code "") now) eqn:Hok.
  - apply grant_spec; [done..|]. intros t'. rewrite Ht. intros [= <-] _. destruct code as [c|]; [by exists c|done].
  - intros [= <- <-]. by left.
Qed.

Section interleaved.
Context (others : nat → AuthState → AuthState) (fails : nat → option exn).

(** C8: a session is only issued against every factor of a live account. Whatever other requests do meanwhile, when
    [login] returns a token, the address had not exhausted its attempts, the account with that e-mail existed and was
    enabled when it was read, the password matched its record, the code matched if the account has a second factor,
    and the token is the signed identity and role of that account for eight hours. Without a code, an account with
    a second factor yields no token and no change, however often it is asked. *)
Theorem login_proves_every_factor ip email pw code start now s r s' :
  login others fails ip email pw code start now s = (r, s') →
  match r with
  | Ok (Granted t role em ttl) =>
      limited ip email start (db s) = false ∧
      ∃ u, find_email (toLowerCase email) (others (2 * calls s) (db s)) = Some u ∧ a_disabledAt u = None ∧
        password_ok pw u = true ∧ second_factor u code now ∧ session_token u now t ∧ role = a_role u ∧ em = a_email u ∧
        ttl = 8 * 60 * 60
  | Ok Requires2fa => absent code = true ∧ db s' = others (2 * calls s + 1) (others (2 * calls s) (db s))
  | Throw _ => True
  end.
Proof.
  unfold Auth.login. unfold mbind at 1, M_bind at 1. unfold sync at 1, checkRateLimit.
  destruct (limited ip email start (db s)) eqn:Hl; [by intros [= <- <-]|].
  change (guard_throw false _ (db s)) with (Ok tt, db s). cbn iota. unfold mbind, M_bind.
  match goal with |- context [call others fails ?m ?s0] => destruct (call others fails m s0) as [x s1] eqn:Hq end.
  destruct x as [user|er]; [|by intros [= <- <-]].
  apply call_ok in Hq as (d & Hd & Hdb & _). unfold gets in Hd. injection Hd as <- <-. cbn [db calls] in *. unfold sync.
  match goal with |- context [login_resume ?a ?b ?c ?d0 ?u ?n ?s0] => destruct (login_resume a b c d0 u n s0) as [x d'] eqn:Hr end.
  intros [= <- <-]. cbn [db].
  pose proof (login_resume_spec _ _ _ _ _ _ _ _ _ Hr) as Hspec. destruct x as [[t role em ttl|]|er]; [| |done].
  - split; [done|]. destruct Hspec as (u & Hu & ? & ? & ? & ? & ? & ? & ? & _). by exists u.
  - destruct Hspec as (-> & ?). by split.
Qed.
End interleaved.

(** ** The rate limit *)

Record Attempt := { at_password : string; at_code : option string; at_start : Z; at_now : Z }.
Definition attempt (ip email : string) (a : Attempt) (s : AuthState) : res LoginResult * AuthState :=
  let '(r, s') := login alone no_fault ip email (at_password a) (at_code a) (at_start a) (at_now a) {| db := s; calls := 0 |} in
  (r, db s').
(** One attempt after the other. *)
Fixpoint guesses (ip email : string) (l : list Attempt) (s : AuthState) : list (res LoginResult) * AuthState :=
  match l with
  | [] => ([], s)
  | a :: l' => let '(r, s1) := attempt ip email a s in let '(rs, s2) := guesses ip email l' s1 in (r :: rs, s2)
  end.
Definition wrong (r : res LoginResult) : bool := match r with Throw (UnauthorizedException _) => true | _ => false end.
Definition granted (r : res LoginResult) : bool := match r with Ok (Granted _ _ _ _) => true | _ => false end.

Lemma guess_spec ip email a s r s' : attempt ip email a s = (r, s') →
  if limited ip email (at_start a) s then r = Throw (ForbiddenException "too many failed attempts, try again in a minute") ∧ s' = s
  else login_outcome ip email (at_password a) (at_code a) (find_email (toLowerCase email) s) (at_now a) s r s'.
Proof.
  unfold attempt, Auth.login. unfold mbind at 1, M_bind at 1. unfold sync at 1, checkRateLimit. cbn [db].
  destruct (limited ip email (at_start a) s); [by intros [= <- <-]|].
  change (guard_throw false _ s) with (Ok tt, s). cbn iota. unfold mbind, M_bind, call, no_fault, alone, gets, sync. cbn [db calls].
  destruct (login_resume _ _ _ _ _ _ _) as [x d'] eqn:Hr. intros [= <- <-]. by apply login_resume_spec.
Qed.

(** The counter after [n] wrong guesses since [t0]. *)
Definition counted (ip email : string) (t0 : Z) (n : nat) (s : AuthState) : Prop :=
  match failures s !! limit_key ip email with
  | None => n = 0%nat
  | Some rec => count rec = Z.of_nat n ∧ t0 <= firstAt rec ∧ (n <= 10)%nat
  end.
Lemma counted_step ip email t0 n now s : counted ip email t0 n s → (n < 10)%nat → t0 <= now < t0 + FAIL_WINDOW_MS →
  counted ip email t0 (S n) (recordFailure ip email now s).2.
Proof.
  unfold counted, recordFailure, modify. cbn [snd with_failures failures]. rewrite lookup_insert_eq.
  destruct (failures s !! limit_key ip email) as [rec|].
  - intros (Hc & Ht & Hn) Hlt Hnow. destruct (FAIL_WINDOW_MS <=? now - firstAt rec) eqn:Hw; [apply Z.leb_le in Hw; lia|].
    cbn [count firstAt]. lia.
  - intros -> _ ?. cbn [count firstAt]. lia.
Qed.

(** wrong guesses are limited. Of any number of attempts made one after the other on one account from one address
    within a minute, at most ten are evaluated and found wrong as long as none succeeds; the others are refused
    without looking at the password. (Attempts that overlap are not limited: [overlapping_guesses_unlimited].) *)
Theorem wrong_guesses_limited ip email t0 l s rs s' :
  is_ok (Guard.jwtSecret e) = true → failures s !! limit_key ip email = None →
  Forall (λ a, t0 <= at_start a < t0 + FAIL_WINDOW_MS ∧ t0 <= at_now a < t0 + FAIL_WINDOW_MS) l →
  guesses ip email l s = (rs, s') → Forall (λ r, granted r = false) rs →
  (length (filter (λ r, wrong r = true) rs) <= 10)%nat.
Proof.
  intros Hjwt Hs. assert (counted ip email t0 0 s) as Hn by (unfold counted; by rewrite Hs). clear Hs.
  intros Hl. revert s rs Hn.
  enough (∀ n s rs, counted ip email t0 n s → guesses ip email l s = (rs, s') → Forall (λ r, granted r = false) rs →
    (n + length (filter (λ r, wrong r = true) rs) <= 10)%nat) as H by (intros s rs Hn Hrun Hg; by apply (H 0%nat s)).
  induction Hl as [|a l [Hst Hnow] Hl IH]; intros n s rs Hn Hrun Hg.
  { injection Hrun as <- _. unfold counted in Hn. rewrite filter_nil. cbn [length].
    destruct (failures s !! _) as [rec|]; [destruct Hn as (_ & _ & ?)|]; lia. }
  cbn [guesses] in Hrun. destruct (attempt ip email a s) as [r s1] eqn:Ha. destruct (guesses ip email l s1) as [rs1 s2] eqn:Hrest.
  injection Hrun as <- <-. apply Forall_cons in Hg as [Hgr Hg]. apply guess_spec in Ha.
  destruct (limited ip email (at_start a) s) eqn:Hlim.
  { destruct Ha as [-> ->]. rewrite filter_cons_False by done. by apply (IH n s). }
  assert (n < 10)%nat as Hlt.
  { unfold counted in Hn. unfold limited in Hlim. destruct (failures s !! _) as [rec|]; [|lia]. destruct Hn as (Hc & Ht & ?).
    apply andb_false_iff in Hlim as [Hw%Z.ltb_ge|Hf%Z.leb_gt]; [lia|]. unfold FAIL_LIMIT in Hf. lia. }
  destruct r as [[t ro em ttl|]|er]; [done| |].
  - destruct Ha as [-> _]. rewrite filter_cons_False by done. by apply (IH n s).
  - destruct er; try done. destruct Ha as [->|Hj]; [|congruence]. rewrite filter_cons_True by done. cbn [length].
    specialize (IH (S n) _ _ (counted_step _ _ _ _ _ _ Hn Hlt Hnow) Hrest Hg).
    rewrite Nat.add_succ_r. exact IH.
Qed.
End logins.

(** * The accounts *)

(** Accounts are well formed: identifiers and addresses are unique, addresses are lower case, everyone but a
    SUPERADMIN belongs to an existing organization, and no organization is written with spaces around it or blank. *)
Definition account_ok (orgs : list string) (r : AdminRow) : Prop :=
  a_email r = toLowerCase (a_email r) ∧
  (a_role r ≠ Guard.SUPERADMIN → ∃ o, a_orgId r = Some o ∧ o ∈ orgs) ∧
  ∀ o, a_orgId r = Some o → truthy o = true ∧ trim o = o.
Record accounts_ok (s : AuthState) : Prop := {
  ac_ids : NoDup (map a_id (users s));
  ac_emails : NoDup (map a_email (users s));
  ac_rows : Forall (account_ok (org_ids s)) (users s) }.

Lemma toLowerCase_idemp s : toLowerCase (toLowerCase s) = toLowerCase s.
Proof.
  unfold toLowerCase. rewrite chars_str, <-list_fmap_compose. f_equal. apply list_fmap_ext. intros i c _. unfold compose, lower_ascii.
  destruct (is_upper c) eqn:Hu; [|by rewrite Hu]. destruct (is_upper (ascii_of_nat (code c + 32))) eqn:Hv; [|done].
  exfalso. revert Hu Hv. unfold is_upper, in_range, code. destruct c as [[] [] [] [] [] [] [] []]; vm_compute; done.
Qed.

Section accounts.
Context (scrypt : string → list Z → nat → list Z) (hmac_sha256 : string → string → list Z)
  (hmac_sha1 : list Z → list Z → list Z) (e : env).
Context (others : nat → AuthState → AuthState) (fails : nat → option exn).
(** What the other requests are relied on for: they keep the accounts well formed and the organizations. *)
Record rely : Prop := {
  re_ok n s : accounts_ok s → accounts_ok (others n s);
  re_orgs n s : org_ids s ⊆ org_ids (others n s) }.
Context (Hrely : rely).
Local Abbreviation State := (Session AuthState).

Lemma create_user_ok r s : account_ok (org_ids s) r → accounts_ok s → accounts_ok (create_user r s).2.
Proof.
  intros Hr [Hi He Hrows]. unfold create_user. destruct (isSome (find_email _ s) || _) eqn:Hf; [by split|].
  apply orb_false_iff in Hf as [Hfe%isSome_false Hfi%isSome_false].
  unfold find_email, find_user in *. rewrite find_by_None in Hfe, Hfi. split; cbn [snd with_users users org_ids].
  - rewrite map_app. apply NoDup_app. split; [done|]. split; [|apply NoDup_singleton].
    intros x Hx ->%list_elem_of_singleton. apply list_elem_of_fmap in Hx as (y & Hy & ?). by apply (Hfi y).
  - rewrite map_app. apply NoDup_app. split; [done|]. split; [|apply NoDup_singleton].
    intros x Hx ->%list_elem_of_singleton. apply list_elem_of_fmap in Hx as (y & Hy & ?). by apply (Hfe y).
  - by apply Forall_snoc_intro.
Qed.
Lemma update_user_ok i f s : (∀ r, a_id (f r) = a_id r ∧ a_email (f r) = a_email r) →
  (∀ r, find_user i s = Some r → account_ok (org_ids s) r → account_ok (org_ids s) (f r)) →
  accounts_ok s → accounts_ok (update_user i f s).2.
Proof.
  intros Hf Hrow [Hi He Hrows]. unfold update_user. destruct (find_user i s) as [r|] eqn:Hr; [|by split].
  split; cbn [snd with_users users org_ids].
  - rewrite update_by_keys; [done|]. intros x. apply Hf.
  - unfold update_by. rewrite map_map. rewrite (map_ext _ a_email); [done|]. intros x. case_decide; [apply Hf|done].
  - apply Forall_forall. intros y Hy. apply elem_of_update_by in Hy as (x & Hx & ->). rewrite Forall_forall in Hrows.
    case_decide as Hxi; [|auto]. apply Hrow; [|auto]. rewrite <-Hr. unfold find_user. by apply find_by_unique.
Qed.

Lemma call_keeps {A} (m : M AuthState A) (s : State) : (∀ d, accounts_ok d → accounts_ok (m d).2) →
  accounts_ok (db s) → accounts_ok (db (call others fails m s).2).
Proof. intros Hm. by apply (keeps_call others fails accounts_ok (re_ok Hrely)). Qed.
Lemma gets_keeps {A} (f : AuthState → A) : keeps_all accounts_ok (call others fails (gets f)).
Proof. intros s. by apply call_keeps. Qed.

Lemma login_resume_users ip email pw code u now s :
  users (login_resume scrypt hmac_sha256 hmac_sha1 e ip email pw code u now s).2 = users s ∧
  org_ids (login_resume scrypt hmac_sha256 hmac_sha1 e ip email pw code u now s).2 = org_ids s.
Proof.
  assert (∀ u, users (grant hmac_sha256 e ip email u now s).2 = users s ∧ org_ids (grant hmac_sha256 e ip email u now s).2 = org_ids s)
    as Hg by (intros v; unfold grant, clearFailures, modify; unfold mbind at 1, M_bind at 1; rewrite bind_lift; by destruct (Guard.jwtSecret e)).
  unfold login_resume. destruct u as [u|]; [|done]. destruct (isSome _ || _); [done|].
  destruct (a_totpSecret u) as [t|]; [|apply Hg]. destruct (truthy t); [|apply Hg]. destruct (absent code); [done|].
  destruct (totp_ok _ _ _ _); [apply Hg|done].
Qed.

(** The organization an account gets. *)
Definition normal_org (org : option string) : option string :=
  let t := trim (nullish org "") in if truthy t then Some t else None.
Lemma normal_org_normal org o : normal_org org = Some o → truthy o = true ∧ trim o = o.
Proof. unfold normal_org. cbv zeta. destruct (truthy _) eqn:E; [|done]. intros [= <-]. split; [done|apply trim_idemp]. Qed.
Lemma normal_org_id org : (∀ o, org = Some o → truthy o = true ∧ trim o = o) → normal_org org = org.
Proof.
  destruct org as [o|]; intros Ho; [|done]. destruct (Ho o eq_refl) as [Ht Htrim]. unfold normal_org. cbn [nullish from_option default id]. cbv zeta.
  change (nullish (Some o) "") with o. by rewrite Htrim, Ht.
Qed.
(** A validated organization exists from then on. *)
Lemma validatedUserOrg_ok role org (s : State) n s' : validatedUserOrg others fails role org s = (Ok n, s') →
  (accounts_ok (db s) → accounts_ok (db s')) ∧
  (role ≠ Guard.SUPERADMIN → n ≠ None) ∧ (∀ o, n = Some o → o ∈ org_ids (db s')) ∧ n = normal_org org.
Proof.
  unfold validatedUserOrg. cbv zeta. fold (normal_org org). generalize (normal_org org) as norm. intros norm. rewrite bind_guard.
  destruct (negb (bool_decide _) && _) eqn:Hg; [done|]. intros (u & s1 & Ho & Hret)%bind_ok. injection Hret as -> ->.
  assert (role ≠ Guard.SUPERADMIN → n ≠ None) as Hn.
  { intros Hr ->. rewrite bool_decide_false in Hg by done. done. }
  destruct n as [o|]; [|injection Ho as <- <-; by split_and!].
  apply bind_ok in Ho as (found & s2 & Hc & Hf). unfold guard_throw in Hf. destruct (negb found) eqn:Hfound; [done|]. injection Hf as _ <-.
  pose proof (gets_keeps (λ s, mem o (org_ids s)) s) as Hk. rewrite Hc in Hk. split; [exact Hk|]. split; [done|]. split; [|done].
  intros o' [= <-]. apply call_ok in Hc as (d & Hd & Hdb & _). unfold gets in Hd. injection Hd as Hm <-.
  rewrite Hdb. apply (re_orgs Hrely). apply negb_false_iff in Hfound. subst found. by apply mem_true.
Qed.
Lemma validatedUserOrg_keeps role org : keeps_all accounts_ok (validatedUserOrg others fails role org).
Proof.
  unfold validatedUserOrg. cbv zeta. apply keeps_all_bind; [apply keeps_all_guard|]. intros _.
  apply keeps_all_bind; [|intros; apply keeps_all_ret]. destruct (if truthy _ then _ else _); [|apply keeps_all_ret].
  apply keeps_all_bind; [apply gets_keeps|]. intros. apply keeps_all_guard.
Qed.

Inductive Request :=
  | Bootstrap (i : string) (salt : list Z) (email password : string) (now : Z)
  | Login (ip email password : string) (code : option string) (start now : Z)
  | Me (user : Guard.AuthedUser)
  | EnableTotp (user secret code : string) (now : Z)
  | DisableTotp (user code : string) (now : Z)
  | CreateUser (i : string) (salt : list Z) (email password : string) (role : Guard.AdminRole) (org : option string) (now : Z)
  | UpdateUser (i : string) (patch : UserPatch) (salt : list Z) (now : Z).
Definition handle (q : Request) : M State unit :=
  match q with
  | Bootstrap i salt email pw now => _ ← bootstrapSuperadmin scrypt others fails i salt email pw now; mret tt
  | Login ip email pw code start now => _ ← login scrypt hmac_sha256 hmac_sha1 e others fails ip email pw code start now; mret tt
  | Me user => _ ← me others fails user; mret tt
  | EnableTotp user secret code now => enableTotp hmac_sha1 others fails user secret code now
  | DisableTotp user code now => disableTotp hmac_sha1 others fails user code now
  | CreateUser i salt email pw role org now => _ ← createUser scrypt others fails i salt email pw role org now; mret tt
  | UpdateUser i patch salt now => _ ← updateUser scrypt others fails i patch salt now; mret tt
  end.

Lemma set_totp_keeps u t : keeps_all accounts_ok (call others fails (update_user u (set_totp t))).
Proof. intros s. apply call_keeps. intros d Hd. apply update_user_ok; done. Qed.
Lemma createUser_keeps i salt email pw role org now : keeps_all accounts_ok (createUser scrypt others fails i salt email pw role org now).
Proof.
  unfold createUser. apply keeps_all_bind; [apply keeps_all_guard|]. intros _. apply keeps_all_bind; [apply gets_keeps|]. intros ex.
  apply keeps_all_bind; [apply keeps_all_guard|]. intros _ s Hs. unfold mbind, M_bind.
  pose proof (validatedUserOrg_keeps role org s Hs) as Hv. destruct (validatedUserOrg others fails role org s) as [[n|er] s1] eqn:Hq; [|done].
  apply validatedUserOrg_ok in Hq as (_ & Hn & Ho & Hnorm). unfold call.
  destruct (fails (calls s1)); [by apply (re_ok Hrely), (re_ok Hrely)|].
  match goal with |- context [create_user ?r ?d] => pose proof (create_user_ok r d) as Hc; destruct (create_user r d) as [x d'] end.
  cbn [snd db] in *. apply (re_ok Hrely), Hc; [|by apply (re_ok Hrely)]. split_and!; cbn [a_email a_role a_orgId].
  - by rewrite toLowerCase_idemp.
  - intros Hr. destruct n as [o|]; [|by destruct (Hn Hr)]. exists o. split; [done|]. apply (re_orgs Hrely). by apply Ho.
  - intros o ->. by apply (normal_org_normal org).
Qed.

(** The row to update is as it was read, and keeps its identity. *)
Definition keeps_row (i : string) : Prop := ∀ n s,
  (λ r, (a_role r, a_orgId r)) <$> find_user i (others n s) = (λ r, (a_role r, a_orgId r)) <$> find_user i s.
Lemma validatedUserOrg_row i role org (s : State) : keeps_row i →
  (λ r, (a_role r, a_orgId r)) <$> find_user i (db (validatedUserOrg others fails role org s).2)
    = (λ r, (a_role r, a_orgId r)) <$> find_user i (db s).
Proof.
  intros Hk. set (I := λ d, (λ r, (a_role r, a_orgId r)) <$> find_user i d = (λ r, (a_role r, a_orgId r)) <$> find_user i (db s)).
  change (I (db (validatedUserOrg others fails role org s).2)). assert (∀ n d, I d → I (others n d)) as HI.
  { intros n d. unfold I. by rewrite Hk. }
  enough (keeps_all I (validatedUserOrg others fails role org)) as H by by apply H.
  unfold validatedUserOrg. cbv zeta. apply keeps_all_bind; [apply keeps_all_guard|]. intros _.
  apply keeps_all_bind; [|intros; apply keeps_all_ret]. destruct (if truthy _ then _ else _); [|apply keeps_all_ret].
  apply keeps_all_bind; [apply keeps_call; [exact HI|apply keeps_gets]|]. intros. apply keeps_all_guard.
Qed.

(** The change names a role or an organization. *)
Definition reassigns (patch : UserPatch) : bool := isSome (p_role patch) || isSome (p_orgId patch).
Lemma find_user_ok i d r : accounts_ok d → find_user i d = Some r → account_ok (org_ids d) r.
Proof. intros [_ _ Hrows] [_ Hr]%find_by_Some. rewrite Forall_forall in Hrows. by apply Hrows. Qed.
(** What is written keeps the account well formed, if the row is the one that was read or the change names neither. *)
Lemma patch_row_ok orgs patch cur r n salt now :
  account_ok orgs r → (∀ o, a_orgId cur = Some o → truthy o = true ∧ trim o = o) →
  n = normal_org (match p_orgId patch with Some o => Some o | None => a_orgId cur end) →
  (nullish (p_role patch) (a_role cur) ≠ Guard.SUPERADMIN → n ≠ None) → (∀ o, n = Some o → o ∈ orgs) →
  (reassigns patch = true → a_role r = a_role cur ∧ a_orgId r = a_orgId cur) →
  account_ok orgs (patch_row scrypt patch (a_orgId cur) n salt now r).
Proof.
  intros (He & Hr & Hnr) Hcur Hnorm Hn Ho Hsame. split; [done|]. cbn [a_role a_orgId patch_row]. destruct (reassigns patch) eqn:Hre.
  - destruct (Hsame eq_refl) as [-> Hrg]. split.
    + intros Hne. specialize (Hn Hne). destruct n as [o|]; [|done]. exists o. split; [|by apply Ho].
      destruct (isSome (p_orgId patch) || _) eqn:Hch; [done|]. apply orb_false_iff in Hch as [_ Hch%negb_false_iff%bool_decide_eq_true]. by rewrite Hrg, <-Hch.
    + intros o. destruct (_ || _); [rewrite Hnorm; apply normal_org_normal|apply Hnr].
  - unfold reassigns in Hre. destruct (p_role patch), (p_orgId patch); try done. rewrite (normal_org_id _ Hcur) in Hnorm. subst n.
    cbn [isSome orb nullish]. rewrite bool_decide_true by done. by split.
Qed.
Lemma updateUser_keeps i patch salt now : (reassigns patch = true → keeps_row i) → keeps_all accounts_ok (updateUser scrypt others fails i patch salt now).
Proof.
  intros Hk s Hs. unfold updateUser, mbind, M_bind.
  destruct (call others fails (gets (find_user i)) s) as [x s1] eqn:Hq.
  assert (accounts_ok (db s1)) as Hs1 by (pose proof (gets_keeps (find_user i) s Hs) as H; by rewrite Hq in H).
  destruct x as [found|er]; [|exact Hs1]. apply call_ok in Hq as (d & Hd & Hdb & _). unfold gets in Hd. revert Hd Hdb.
  generalize (2 * calls s)%nat (2 * calls s + 1)%nat. intros n0 n1 [= <- <-] Hdb.
  unfold require. destruct (find_user i (others n0 (db s))) as [cur|] eqn:Hcur; [|exact Hs1]. cbv zeta.
  pose proof (find_user_ok _ _ _ (re_ok Hrely _ _ Hs) Hcur) as (_ & _ & Hcurnorm).
  unfold mret at 1, M_ret at 1.
  set (next := match p_orgId patch with Some o => Some o | None => a_orgId cur end).
  destruct (validatedUserOrg others fails (nullish (p_role patch) (a_role cur)) next s1) as [y s2] eqn:Hv.
  pose proof (validatedUserOrg_keeps (nullish (p_role patch) (a_role cur)) next s1 Hs1) as Hs2. rewrite Hv in Hs2. cbn [snd] in Hs2.
  assert (keeps_row i → (λ r, (a_role r, a_orgId r)) <$> find_user i (db s2) = (λ r, (a_role r, a_orgId r)) <$> find_user i (db s1)) as Hrow.
  { intros H. pose proof (validatedUserOrg_row i (nullish (p_role patch) (a_role cur)) next s1 H) as Hr. by rewrite Hv in Hr. }
  destruct y as [n|er]; [|exact Hs2]. apply validatedUserOrg_ok in Hv as (_ & Hn & Ho & Hnorm).
  match goal with |- context [match ?m s2 with _ => _ end] => destruct (m s2) as [z s3] eqn:Hz end.
  assert (s3 = s2) as ->.
  { revert Hz. destruct (p_password patch) as [pw|]; [destruct (truthy pw)|]; [unfold too_short, guard_throw; destruct (_ <? _)%nat| |]; by intros [= _ <-]. }
  destruct z as [?|?]; [|exact Hs2]. unfold call. destruct (fails (calls s2)); [by apply (re_ok Hrely), (re_ok Hrely)|].
  match goal with |- context [update_user i ?f ?d] => pose proof (update_user_ok i f d) as Hu; destruct (update_user i f d) as [w d'] end.
  cbn [snd db] in *. apply (re_ok Hrely), Hu; [done| |by apply (re_ok Hrely)]. clear Hu.
  intros r Hr Hok. apply patch_row_ok; [done..| |].
  - intros o Hno. apply (re_orgs Hrely). by apply Ho.
  - intros Hre. specialize (Hk Hre). pose proof (Hk (2 * calls s2)%nat (db s2)) as H. rewrite Hr, (Hrow Hk), Hdb, Hk, Hcur in H. by injection H.
Qed.

(** C32: accounts stay well formed. Every request of the account service, run among arbitrary others that keep the
    accounts well formed and the organizations in place, keeps identifiers and addresses unique, addresses in lower
    case, everyone but a SUPERADMIN in an existing organization, and no organization of an account blank or with
    spaces around it. For a change that names a role or an organization, the others must leave the role and the
    organization of that account alone while it runs; a change of password or of the disabled mark needs no such
    thing. *)
Theorem accounts_stay_well_formed q (s : State) :
  (∀ i patch salt now, q = UpdateUser i patch salt now → reassigns patch = true → keeps_row i) →
  accounts_ok (db s) → accounts_ok (db (handle q s).2).
Proof.
  intros Hupd. enough (keeps_all accounts_ok (handle q)) as H by exact (H s).
  destruct q as [i salt em pw now|ip em pw code st now|user|user sec code now|user code now|i salt em pw role org now|i patch salt now];
    cbn [handle]; try (apply keeps_all_bind; [|intros; apply keeps_all_ret]).
  - unfold bootstrapSuperadmin. apply keeps_all_bind; [apply keeps_all_guard|]. intros _. apply keeps_all_bind; [apply gets_keeps|].
    intros n. apply keeps_all_bind; [apply keeps_all_guard|]. intros _ s0. apply call_keeps. intros d Hd. apply create_user_ok; [|done].
    split; [symmetry; apply toLowerCase_idemp|done].
  - unfold login. apply keeps_all_bind; [apply keeps_sync; intros d Hd; unfold checkRateLimit; by destruct (limited _ _ _ _)|].
    intros _. apply keeps_all_bind; [apply gets_keeps|]. intros u. apply keeps_sync. intros d [? ? ?].
    destruct (login_resume_users ip em pw code u now d) as [Hu Ho]. split; rewrite ?Hu, ?Ho; done.
  - unfold me. apply keeps_all_bind; [|intros; apply keeps_all_ret]. destruct (_ && _); [|apply keeps_all_ret].
    apply keeps_all_bind; [apply gets_keeps|intros; apply keeps_all_ret].
  - unfold enableTotp. repeat (apply keeps_all_bind; [first [apply keeps_all_guard|apply set_totp_keeps]|intros ?]). apply keeps_all_ret.
  - unfold disableTotp. apply keeps_all_bind; [apply keeps_all_guard|]. intros _. apply keeps_all_bind; [apply gets_keeps|]. intros row. cbv zeta.
    repeat (apply keeps_all_bind; [first [apply keeps_all_guard|apply set_totp_keeps]|intros ?]). apply keeps_all_ret.
  - apply createUser_keeps.
  - apply updateUser_keeps. by eapply Hupd.
Qed.
End accounts.

(** * Witnesses and schedules *)

Definition demo_scrypt (pw : string) (salt : list Z) (n : nat) : list Z := replicate n (Z.of_nat (String.length pw)).
Definition demo_secret (k : string) : option string := if String.eqb k "HARA_JWT_SECRET" then Some "jwt" else None.
Definition demo_row : AdminRow :=
  {| a_id := "u1"; a_email := "a@b"; a_passwordHash := hashPassword demo_scrypt "twelve-chars" [1; 2]; a_role := Guard.ADMIN;
     a_orgId := Some "o1"; a_disabledAt := None; a_totpSecret := None; a_createdAt := 0 |}.
Definition demo_accounts : AuthState := {| users := [demo_row]; org_ids := ["o1"]; failures := ∅ |}.
Definition demo_session : Session AuthState := {| db := demo_accounts; calls := 0 |}.
Local Abbreviation demo_mac256 := (λ _ _ : string, [1; 2; 3]).
Local Abbreviation demo_mac1 := (λ _ _ : list Z, repeat 0 20).

Lemma login_proves_every_factor_witness : ∃ t s',
  login demo_scrypt demo_mac256 demo_mac1 demo_secret alone no_fault "10.0.0.1" "A@B" "twelve-chars" None 5 9 demo_session
    = (Ok (Granted t Guard.ADMIN "a@b" (8 * 60 * 60)), s') ∧
  limited "10.0.0.1" "A@B" 5 demo_accounts = false.
Proof.
  eexists _, _. split; [vm_compute; reflexivity|].
  refine (proj1 (login_proves_every_factor demo_scrypt demo_mac256 demo_mac1 demo_secret alone no_fault "10.0.0.1" "A@B"
    "twelve-chars" None 5 9 demo_session (Ok (Granted _ Guard.ADMIN "a@b" (8 * 60 * 60))) _ _)).
  vm_compute. reflexivity.
Defined.

(** Twelve wrong guesses, ten of which are evaluated. *)
Definition demo_guesses : list Attempt := replicate 12 {| at_password := "wrong"; at_code := None; at_start := 100; at_now := 110 |}.
Lemma wrong_guesses_limited_witness : ∃ rs s',
  guesses demo_scrypt demo_mac256 demo_mac1 demo_secret "10.0.0.1" "a@b" demo_guesses demo_accounts = (rs, s') ∧
  length rs = 12%nat ∧ (length (filter (λ r, wrong r = true) rs) <= 10)%nat.
Proof.
  eexists _, _. split; [vm_compute; reflexivity|]. split; [reflexivity|].
  eapply (wrong_guesses_limited demo_scrypt demo_mac256 demo_mac1 demo_secret "10.0.0.1" "a@b" 100 demo_guesses demo_accounts).
  - reflexivity.
  - reflexivity.
  - unfold demo_guesses. apply Forall_replicate. unfold FAIL_WINDOW_MS. simpl. lia.
  - vm_compute. reflexivity.
  - repeat constructor.
Defined.

Lemma accounts_stay_well_formed_witness :
  accounts_ok (db (handle demo_scrypt demo_mac256 demo_mac1 demo_secret alone no_fault
    (CreateUser "u2" [3] "New@B" "a-long-password" Guard.MEMBER (Some " o1 ") 7) demo_session).2).
Proof.
  apply accounts_stay_well_formed.
  - by split.
  - by intros i patch salt now.
  - split.
    + apply NoDup_singleton.
    + apply NoDup_singleton.
    + apply Forall_singleton. split_and!; [reflexivity|intros _; exists "o1"; split; [reflexivity|by apply list_elem_of_singleton]|].
      by intros o [= <-].
Defined.

(** Thirty other guesses on the same account, all past their check, resume while one more reads the account. *)
Definition crowd (n : nat) (s : AuthState) : AuthState :=
  if (n =? 0)%nat
  then Nat.iter 30 (λ s, (login_resume demo_scrypt demo_mac256 demo_mac1 demo_secret "10.0.0.1" "a@b" "wrong" None
                            (find_email "a@b" s) 110 s).2) s
  else s.
(** All of them are evaluated: the counter passes the limit without refusing any. *)
Example overlapping_guesses_unlimited :
  let '(r, s) := login demo_scrypt demo_mac256 demo_mac1 demo_secret crowd no_fault "10.0.0.1" "a@b" "wrong" None 100 110 demo_session in
  wrong r = true ∧ option_map count (failures (db s) !! limit_key "10.0.0.1" "a@b") = Some 31.
Proof. vm_compute. by split. Qed.

(** Another bootstrap completes between the count and the insertion of one. *)
Definition rival (n : nat) (s : AuthState) : AuthState :=
  if (n =? 1)%nat
  then db (bootstrapSuperadmin demo_scrypt alone no_fault "u8" [1] "one@x" "long-enough-1" 5 {| db := s; calls := 0 |}).2
  else s.
Example concurrent_bootstrap :
  let '(r, s) := bootstrapSuperadmin demo_scrypt rival no_fault "u9" [2] "two@x" "long-enough-2" 6
                   {| db := {| users := []; org_ids := []; failures := ∅ |}; calls := 0 |} in
  is_ok r = true ∧ map a_role (users (db s)) = [Guard.SUPERADMIN; Guard.SUPERADMIN].
Proof. vm_compute. by split. Qed.
