(* ===== verification/OrgTree.v ===== *)
(** The organization tree ([src/org/org-tree.service.ts]): the leaf-first ancestor walk with its
    cycle and depth checks, the breadth-first subtree and downward inheritance. The [Organization]
    table is a list of rows in query order. *)
From S2P Require Import Prelude Js.
Local Open Scope nat_scope.

Inductive OrgUnitType := GROUP | COMPANY | DEPARTMENT | TEAM.

Record Organization := {
  id : string; name : string; type : OrgUnitType; parentId : option string; policy : json }.

Definition MAX_ORG_DEPTH : nat := 64.

(** [organization.findUnique({ where: { id } })] *)
Definition findOrg (db : list Organization) (i : string) : option Organization :=
  snd <$> list_find (λ o, id o = i) db.
(** [organization.findMany({ where: { parentId: i }, select: { id: true } })] *)
Definition kids (db : list Organization) (i : string) : list string :=
  id <$> filter (λ o, parentId o = Some i) db.

Fixpoint selectInherited {N T} (chain : list N) (pick : N → option T) : option T :=
  match chain with
  | [] => None
  | node :: rest => match pick node with Some v => Some v | None => selectInherited rest pick end
  end.

(** The [while (currentId)] loop; [room] is [MAX_ORG_DEPTH - chain.length], and [first] tells that
    the chain is still empty. *)
Fixpoint ancestors_from (db : list Organization) (orgId : string) (room : nat) (first : bool)
    (seen : list string) (currentId : option string) : res (list Organization) :=
  match currentId with
  | None => Ok []
  | Some cur =>
      if negb (truthy cur) then Ok []
      else if mem cur seen
      then Throw (Error ("org hierarchy cycle detected at " +:+ dquote cur
                         +:+ " (a node cannot be its own ancestor)"))
      else match room with
      | O => Throw (Error ("org hierarchy too deep (> " +:+ pretty MAX_ORG_DEPTH +:+ ") starting at "
                           +:+ dquote orgId +:+ " — likely a cycle"))
      | S room =>
          match findOrg db cur with
          | None => if first then Throw (Error ("org " +:+ dquote orgId +:+ " not found")) else Ok []
          | Some node =>
              rest ← ancestors_from db orgId room false (cur :: seen) (parentId node);
              Ok (node :: rest)
          end
      end
  end.
Definition ancestors (db : list Organization) (orgId : string) : res (list Organization) :=
  ancestors_from db orgId MAX_ORG_DEPTH true [] (Some orgId).

(** The [while (queue.length)] loop; [seen] always holds the ids of [out]. *)
Fixpoint descendants_from (db : list Organization) (orgId : string) (fuel : nat)
    (out queue : list string) : res (list string) :=
  match queue with
  | [] => Ok out
  | i :: queue =>
      match fuel with
      | O => Throw (Error "fuel")
      | S fuel =>
          if mem i out then descendants_from db orgId fuel out queue
          else
            let out := out ++ [i] in
            if (MAX_ORG_DEPTH * MAX_ORG_DEPTH <? length out)
            then Throw (Error ("org subtree under " +:+ dquote orgId +:+ " too large — likely a cycle"))
            else descendants_from db orgId fuel out
                   (queue ++ filter (λ k, k ∉ out) (kids db i))
      end
  end.
(** Every row is queued at most once, for its parent: the fuel is never exhausted. *)
Definition descendants (db : list Organization) (orgId : string) : res (list string) :=
  descendants_from db orgId (S (length db)) [] [orgId].

Definition resolveInherited {T} (db : list Organization) (orgId : string)
    (pick : Organization → option T) : res (option T) :=
  chain ← ancestors db orgId;
  Ok (selectInherited chain pick).

(** * The ancestor chain *)

(** The relational reading of the walk: a node followed by the chain of its parent, ending at a node
    without a parent or with a dangling one. *)
Inductive walk (db : list Organization) : string → list Organization → Prop :=
  | walk_root i o : findOrg db i = Some o →
      (parentId o = None ∨ parentId o = Some "") → walk db i [o]
  | walk_dangling i o p : findOrg db i = Some o → parentId o = Some p → p ≠ "" →
      findOrg db p = None → walk db i [o]
  | walk_up i o p l : findOrg db i = Some o → parentId o = Some p → p ≠ "" →
      walk db p l → walk db i (o :: l).

Lemma findOrg_Some db i o : findOrg db i = Some o → id o = i ∧ o ∈ db.
Proof.
  unfold findOrg. intros ([n o'] & H & ->)%fmap_Some. apply list_find_Some in H as (Hl & Hid & _).
  split; [done|]. by apply list_elem_of_lookup_2 in Hl.
Qed.

Lemma walk_found db i l : walk db i l → ∃ o l', l = o :: l' ∧ findOrg db i = Some o.
Proof. destruct 1; eauto. Qed.

Lemma walk_fun db i l l' : walk db i l → walk db i l' → l = l'.
Proof.
  intros H. revert l'. induction H as [i o Hf Hp|i o p Hf Hp Hne Hn|i o p l Hf Hp Hne Hw IH];
    intros l' H'; inversion H' as [? o' Hf' Hp'|? o' p' Hf' Hp' Hne' Hn'|? o' p' k Hf' Hp' Hne' Hw'];
    simplify_eq; try done.
  all: try by destruct Hp; simplify_eq.
  all: try by destruct Hp'; simplify_eq.
  - destruct (walk_found _ _ _ Hw') as (? & ? & _ & ?). simplify_eq.
  - destruct (walk_found _ _ _ Hw) as (? & ? & _ & ?). simplify_eq.
  - f_equal. auto.
Qed.

Lemma walk_from_member db i l x :
  walk db i l → x ∈ id <$> l → ∃ l', walk db x l' ∧ length l' <= length l.
Proof.
  induction 1 as [i o Hf Hp|i o p Hf Hp Hne Hn|i o p l Hf Hp Hne Hw IH];
    destruct (findOrg_Some _ _ _ Hf) as [Hid _]; rewrite fmap_cons, elem_of_cons, Hid.
  - intros [->|Hx]; [|set_solver]. exists [o]. split; [by apply walk_root|done].
  - intros [->|Hx]; [|set_solver]. exists [o]. split; [by eapply walk_dangling|done].
  - intros [->|Hx]; [exists (o :: l); split; [by eapply walk_up|done]|].
    destruct (IH Hx) as (l' & Hl' & Hlen). exists l'. split; [done|simpl; lia].
Qed.

(** A walk that ends visits no node twice. *)
Lemma walk_NoDup db i l : walk db i l → NoDup (id <$> l).
Proof.
  induction 1 as [i o Hf Hp|i o p Hf Hp Hne Hn|i o p l Hf Hp Hne Hw IH]; try apply NoDup_singleton.
  rewrite fmap_cons. constructor; [|done]. destruct (findOrg_Some _ _ _ Hf) as [-> _]. intros Hin.
  destruct (walk_from_member _ _ _ _ Hw Hin) as (l' & Hl' & Hlen).
  pose proof (walk_fun _ _ _ _ Hl' (walk_up db i o p l Hf Hp Hne Hw)) as ->. simpl in Hlen. lia.
Qed.

Definition at_root (l : list Organization) : Prop :=
  ∃ o, last l = Some o ∧ (parentId o = None ∨ parentId o = Some "").

Lemma ancestors_from_stop db org room first seen :
  ancestors_from db org room first seen (Some "") = Ok [].
Proof. by destruct room. Qed.

Lemma ancestors_from_sound db org room first seen i l :
  i ≠ "" → (first = false → is_Some (findOrg db i)) →
  ancestors_from db org room first seen (Some i) = Ok l →
  walk db i l ∧ (length l < room ∨ length l = room ∧ at_root l).
Proof.
  revert first seen i l. induction room as [|room IH]; intros first seen i l Hne Hfirst;
    cbn [ancestors_from]; rewrite (proj2 (truthy_true _) Hne); cbn [negb];
    (destruct (mem i seen); [done|]); [done|].
  destruct (findOrg db i) as [o|] eqn:Hf; [|destruct first; [done|by destruct (Hfirst eq_refl)]].
  intros H. inv_ok. rename a into rest.
  match goal with H : ancestors_from _ _ _ _ _ _ = Ok rest |- _ => rename H into Hr end.
  destruct (parentId o) as [p|] eqn:Hp.
  - destruct (decide (p = "")) as [->|Hpne].
    + rewrite ancestors_from_stop in Hr. injection Hr as <-. split; [apply walk_root; auto|].
      assert (at_root [o]) by (exists o; auto). simpl. destruct room; [right|left]; auto with lia.
    + destruct (findOrg db p) as [o'|] eqn:Hf'.
      * apply IH in Hr as [Hw Hlen]; [|done|by rewrite Hf'].
        split; [by eapply walk_up|]. destruct Hlen as [?|[? (r & Hr & ?)]]; [left; simpl; lia|right].
        split; [simpl; lia|]. exists r. split; [|done]. rewrite last_cons. by rewrite Hr.
      * destruct room as [|room]; cbn [ancestors_from] in Hr;
          rewrite (proj2 (truthy_true _) Hpne) in Hr; cbn [negb] in Hr;
          (destruct (mem p _); [done|]); [done|]. rewrite Hf' in Hr. injection Hr as <-.
        split; [by eapply walk_dangling|]. left. simpl. lia.
  - assert (rest = []) as -> by (destruct room; by injection Hr). split; [apply walk_root; auto|].
    assert (at_root [o]) by (exists o; auto). simpl. destruct room; [right|left]; auto with lia.
Qed.

Lemma ancestors_from_complete db org room first seen i l :
  i ≠ "" → walk db i l → (length l < room ∨ length l = room ∧ at_root l) →
  (∀ x, x ∈ seen → is_Some (findOrg db x)) → (∀ x, x ∈ id <$> l → x ∉ seen) →
  ancestors_from db org room first seen (Some i) = Ok l.
Proof.
  intros Hne Hw. pose proof (walk_NoDup _ _ _ Hw) as Hnd. revert room first seen Hne Hnd.
  induction Hw as [i o Hf Hp|i o p Hf Hp Hpne Hn|i o p l Hf Hp Hpne Hw IH];
    intros room first seen Hne Hnd Hlen Hseen Hs;
    (destruct room as [|room]; [simpl in Hlen; lia|]);
    destruct (findOrg_Some _ _ _ Hf) as [Hid _]; cbn [ancestors_from];
    rewrite (proj2 (truthy_true _) Hne); cbn [negb];
    (rewrite (proj2 (mem_false i seen)) by (apply Hs; rewrite fmap_cons; set_solver)); rewrite Hf.
  - destruct Hp as [-> | ->]; destruct room; done.
  - rewrite Hp. assert (0 < room) as Hroom.
    { destruct Hlen as [?|[_ (r & Hr & Hroot)]]; [simpl in *; lia|]. simpl in Hr.
      injection Hr as <-. destruct Hroot; simplify_eq. }
    destruct room as [|room]; [lia|]. cbn [ancestors_from].
    rewrite (proj2 (truthy_true _) Hpne). cbn [negb].
    rewrite (proj2 (mem_false p (i :: seen))); [by rewrite Hn|].
    intros [->|Hin]%elem_of_cons; [congruence|]. destruct (Hseen _ Hin). congruence.
  - rewrite Hp. rewrite fmap_cons in *. apply NoDup_cons in Hnd as [Ho Hnd].
    rewrite (IH room false (i :: seen)); [done|done|done| | |].
    + destruct Hlen as [?|[? (r & Hr & ?)]]; [left; simpl in *; lia|right]. split; [simpl in *; lia|].
      exists r. split; [|done]. rewrite last_cons in Hr.
      destruct (walk_found _ _ _ Hw) as (o' & l' & -> & _). rewrite last_cons in Hr |- *.
      by destruct (last l').
    + intros x [->|Hx]%elem_of_cons; [by rewrite Hf|auto].
    + intros x Hx. apply not_elem_of_cons. split; [congruence|]. apply Hs. set_solver.
Qed.

(** [ancestors] returns exactly the leaf-first walk from the node to its root: it succeeds if and
    only if following [parentId] from an existing node ends (at a root, or at a dangling parent)
    within 64 nodes, the result is that unique walk and repeats no node; a cycle or a longer chain
    is an error. *)
Theorem ancestors_iff db i l :
  i ≠ "" →
  (ancestors db i = Ok l ↔
   walk db i l ∧ (length l < MAX_ORG_DEPTH ∨ length l = MAX_ORG_DEPTH ∧ at_root l)) ∧
  (ancestors db i = Ok l → NoDup (id <$> l)).
Proof.
  intros Hne. assert (ancestors db i = Ok l ↔
   walk db i l ∧ (length l < MAX_ORG_DEPTH ∨ length l = MAX_ORG_DEPTH ∧ at_root l)) as Hiff.
  { unfold ancestors. split.
    - by apply ancestors_from_sound.
    - intros [Hw Hlen]. apply ancestors_from_complete; [done..|set_solver|set_solver]. }
  split; [done|]. intros [Hw _]%Hiff. by eapply walk_NoDup.
Qed.

(** Downward inheritance returns the value of the nearest ancestor that defines one: the walk
    splits at a node that defines the value, and no node below it does. *)
Theorem resolveInherited_nearest {T} db i (pick : Organization → option T) v :
  resolveInherited db i pick = Ok (Some v) ↔
  ∃ below node above, ancestors db i = Ok (below ++ node :: above) ∧ pick node = Some v ∧
    Forall (λ o, pick o = None) below.
Proof.
  assert (∀ chain, selectInherited chain pick = Some v ↔ ∃ below node above,
    chain = below ++ node :: above ∧ pick node = Some v ∧ Forall (λ o, pick o = None) below) as Hsel.
  { induction chain as [|o chain IH]; simpl.
    - split; [done|]. intros (below & ? & ? & H & _). by destruct below.
    - destruct (pick o) as [w|] eqn:Hw.
      + split; [intros [= ->]; by exists [], o, chain|]. intros ([|o' below] & n & ? & [= -> ->] & Hv & Hb).
        * congruence.
        * apply Forall_cons in Hb as [? _]. congruence.
      + rewrite IH. split.
        * intros (below & n & ab & -> & ? & ?). exists (o :: below), n, ab. auto.
        * intros ([|o' below] & n & ab & [= -> ->] & Hv & Hb); [congruence|].
          apply Forall_cons in Hb as [_ Hb]. by exists below, n, ab. }
  unfold resolveInherited. split.
  - intros H. inv_ok. rename a into chain.
    match goal with H : selectInherited _ _ = _ |- _ => apply Hsel in H as (b & n & ab & -> & ? & ?) end. by exists b, n, ab.
  - intros (below & n & ab & -> & ? & ?). simpl. f_equal. apply Hsel. by exists below, n, ab.
Qed.

(** * The subtree *)

Definition child (db : list Organization) (a b : string) : Prop := b ∈ kids db a.

(** The rows whose parent has not been visited. *)
Definition awaits (out : list string) (o : Organization) : Prop :=
  match parentId o with Some p => p ∉ out | None => False end.
#[local] Instance awaits_dec out o : Decision (awaits out o).
Proof. unfold awaits. destruct (parentId o); apply _. Defined.
Definition pending (db : list Organization) (out : list string) : list Organization :=
  filter (awaits out) db.

Lemma pending_visit db out i :
  (i ∉ out) → length (pending db (out ++ [i])) + length (kids db i) <= length (pending db out).
Proof.
  intros Hi. unfold pending, kids. rewrite length_fmap.
  induction db as [|o db IH]; [done|]. rewrite !filter_cons.
  assert (awaits (out ++ [i]) o → awaits out o) as Hmono.
  { unfold awaits. destruct (parentId o); set_solver. }
  destruct (decide (parentId o = Some i)) as [Hp|Hp].
  - assert (awaits out o ∧ ¬ awaits (out ++ [i]) o) as [H1 H2] by (unfold awaits; rewrite Hp; set_solver).
    repeat case_decide; simpl; solve [lia | tauto].
  - repeat case_decide; simpl; solve [lia | tauto].
Qed.

(** The invariant of the breadth-first search from [root]. *)
Record bfs_inv (db : list Organization) (root : string) (out queue : list string) : Prop := {
  bfs_nodup : NoDup out;
  bfs_reach : ∀ x, x ∈ out ++ queue → rtc (child db) root x;
  bfs_root : root ∈ out ++ queue;
  bfs_closed : ∀ x y, x ∈ out → child db x y → y ∈ out ++ queue }.

Lemma bfs_skip db root out i queue :
  i ∈ out → bfs_inv db root out (i :: queue) → bfs_inv db root out queue.
Proof.
  intros Hi [Hnd Hr Hroot Hc]. split; [done|set_solver|set_solver|].
  intros x y Hx Hy. specialize (Hc x y Hx Hy). set_solver.
Qed.
Lemma bfs_visit db root out i queue :
  (i ∉ out) → bfs_inv db root out (i :: queue) →
  bfs_inv db root (out ++ [i]) (queue ++ filter (λ k, k ∉ out ++ [i]) (kids db i)).
Proof.
  intros Hi [Hnd Hr Hroot Hc]. split.
  - apply NoDup_app. split_and!; [done|set_solver|apply NoDup_singleton].
  - intros x. rewrite !elem_of_app, list_elem_of_filter, list_elem_of_singleton.
    intros [[?| ->]|[?|[_ Hk]]]; [apply Hr; set_solver..|]. eapply rtc_r; [apply (Hr i); set_solver|done].
  - set_solver.
  - intros x y Hx Hy. destruct (decide (y ∈ out ++ [i])); [set_solver|].
    apply elem_of_app in Hx as [Hx| ->%list_elem_of_singleton].
    + specialize (Hc x y Hx Hy). set_solver.
    + rewrite !elem_of_app, list_elem_of_filter. right. right. split; [done|exact Hy].
Qed.

Lemma descendants_from_spec db root fuel out queue :
  bfs_inv db root out queue → length (pending db out) + length queue <= fuel →
  match descendants_from db root fuel out queue with
  | Ok l => bfs_inv db root l [] ∧ (length out <= 4096 → length l <= 4096)
  | Throw _ => ∃ l queue', 4096 < length l ∧ bfs_inv db root l queue'
  end.
Proof.
  revert out queue. induction fuel as [|fuel IH]; intros out queue Hinv Hfuel;
    destruct queue as [|i queue]; cbn [descendants_from]; try done; [simpl in Hfuel; lia|].
  destruct (mem i out) eqn:Hm; boolify.
  - apply IH; [by eapply bfs_skip|simpl in *; lia].
  - pose proof (bfs_visit _ _ _ _ _ Hm Hinv) as Hinv'. pose proof (pending_visit db out i Hm) as Hp.
    change (MAX_ORG_DEPTH * MAX_ORG_DEPTH) with 4096.
    destruct (4096 <? length (out ++ [i])) eqn:E; [apply Nat.ltb_lt in E|apply Nat.ltb_ge in E].
    + eauto.
    + specialize (IH _ _ Hinv'). rewrite length_app in IH.
      pose proof (length_filter (λ k, k ∉ out ++ [i]) (kids db i)).
      simpl in Hfuel. specialize (IH ltac:(lia)). destruct (descendants_from _ _ _ _ _); [|done].
      destruct IH as [? Hl]. split; [done|]. auto.
Qed.

(** [descendants] always terminates. Its result lists, without repetition, exactly the node and
    everything reachable from it through child links, also in the presence of cycles; it throws
    exactly when that set has more than 4096 nodes. *)
Theorem descendants_reachable db root :
  match descendants db root with
  | Ok l => NoDup l ∧ (∀ x, x ∈ l ↔ rtc (child db) root x) ∧ length l <= 4096
  | Throw _ => ∃ l, NoDup l ∧ 4096 < length l ∧ ∀ x, x ∈ l → rtc (child db) root x
  end.
Proof.
  pose proof (descendants_from_spec db root (S (length db)) [] [root]) as H.
  unfold descendants. destruct (descendants_from _ _ _ _ _) as [l|e].
  - destruct H as [[Hnd Hr Hroot Hc] Hlen].
    + split; [constructor| |set_solver|set_solver].
      intros x ->%list_elem_of_singleton. constructor.
    + unfold pending. pose proof (length_filter (awaits []) db). simpl. lia.
    + split_and!; [done| |apply Hlen; simpl; lia]. intros x.
      split; [intros; apply Hr, elem_of_app; by left|].
      clear Hr. rewrite app_nil_r in Hroot. setoid_rewrite app_nil_r in Hc.
      intros Hx. induction Hx as [|x y z Hxy Hyz IH]; [done|].
      exact (IH (Hc x y Hroot Hxy)).
  - destruct H as (l & queue & Hlen & [Hnd Hr _ _]).
    + split; [constructor| |set_solver|set_solver].
      intros x ->%list_elem_of_singleton. constructor.
    + unfold pending. pose proof (length_filter (awaits []) db). simpl. lia.
    + exists l. split_and!; [done..|]. intros x Hx. apply Hr. set_solver.
Qed.

Definition demo_orgs : list Organization :=
  [{| id := "g"; name := "G"; type := GROUP; parentId := None; policy := JNull |};
   {| id := "c"; name := "C"; type := COMPANY; parentId := Some "g"; policy := JObj [] |};
   {| id := "d"; name := "D"; type := DEPARTMENT; parentId := Some "c"; policy := JNull |}].

Lemma ancestors_iff_witness :
  "d" ≠ "" ∧ ∃ l, ancestors demo_orgs "d" = Ok l ∧ walk demo_orgs "d" l ∧ NoDup (id <$> l).
Proof.
  assert ("d" ≠ "") as H by done. split; [exact H|]. eexists. split; [vm_compute; reflexivity|].
  split.
  - apply (ancestors_iff demo_orgs "d" _ H). vm_compute. reflexivity.
  - apply (ancestors_iff demo_orgs "d" _ H). vm_compute. reflexivity.
Defined.
