(* ===== verification/Ssrf.v ===== *)
(** The outbound-request guard ([src/security/ssrf.ts]): address classification, the URL check and
    the redirect-following fetch. [URL] parsing, DNS, the IPv6 syntax check of [node:net] and [fetch]
    are parameters. *)
From S2P Require Import Prelude Js Numerals.
Local Open Scope Z_scope.

(** * Policy *)

Record SsrfPolicy := {
  allowHosts : list string; blockPrivateWhenOpen : bool; maxRedirects : number }.

(** [n || d] for a number *)
Definition num_or (n : number) (d : Z) : number :=
  match n with
  | NaN => numZ d
  | Num q => if Qeq_bool q 0 then numZ d else n
  | Infinity _ => n
  end.

Definition loadSsrfPolicy (e : env) : SsrfPolicy :=
  {| allowHosts := uniq (filter (λ s, truthy s = true)
       (map (λ h, toLowerCase (trim h)) (split "," (nullish (e "HARA_SSRF_ALLOW_HOSTS") ""))));
     blockPrivateWhenOpen := bool_decide (e "HARA_SSRF_BLOCK_PRIVATE" = Some "1");
     maxRedirects := num_or (from_option Number_str NaN (e "HARA_SSRF_MAX_REDIRECTS")) 5 |}.

(** * Addresses *)

Definition num_eqb (n : number) (z : Z) : bool :=
  match n with Num q => Qeq_bool q (inject_Z z) | _ => false end.
Definition num_between (lo hi : Z) (n : number) : bool :=
  match n with Num q => Qle_bool (inject_Z lo) q && Qle_bool q (inject_Z hi) | _ => false end.

Definition isPrivateIPv4 (ip : string) : bool :=
  match map Number_str (split "." ip) with
  | [a; b; c; d] =>
      if existsb (λ n, negb (num_between 0 255 n)) [a; b; c; d] then false
      else if num_eqb a 0 then true
      else if num_eqb a 10 then true
      else if num_eqb a 127 then true
      else if num_eqb a 169 && num_eqb b 254 then true
      else if num_eqb a 172 && num_between 16 31 b then true
      else if num_eqb a 192 && num_eqb b 168 then true
      else if num_eqb a 100 && num_between 64 127 b then true
      else false
  | _ => false
  end.

(** [ip.toLowerCase().replace(/^\[|\]$/g, "")] *)
Definition unbracket (l : list ascii) : list ascii :=
  let l := match l with c :: l' => if is_char "[" c then l' else l | [] => [] end in
  match reverse l with c :: r => if is_char "]" c then reverse r else l | [] => [] end.
Definition normalize6 (ip : string) : string := str (unbracket (chars (toLowerCase ip))).

Fixpoint hex_prefix (l : list ascii) : list ascii :=
  match l with
  | c :: l' => match digit_val c with
      | Some v => if (v <? 16)%nat then c :: hex_prefix l' else []
      | None => []
      end
  | [] => []
  end.
(** [Number.parseInt(s, 16)] on the magnitude digits; [None] is NaN. *)
Definition parseInt16 (s : string) : option Z :=
  let l := dropWhile is_ws (chars s) in
  let '(neg, l) := match l with
    | c :: l' => if is_char "-" c then (true, l') else if is_char "+" c then (false, l') else (false, l)
    | [] => (false, [])
    end in
  let l := match l with
    | c :: d :: l' => if is_char "0" c && is_char "xX" d then l' else l
    | _ => l
    end in
  match hex_prefix l with
  | [] => None
  | ds => (λ v, if neg : bool then - v else v) <$> parse_digits 16 0 ds
  end.

Definition isIPv6LinkLocal (ip : string) : bool :=
  match parseInt16 (default "" (split ":" (normalize6 ip) !! 0%nat)) with
  | Some first => Z.land first 0xffc0 =? 0xfe80
  | None => false
  end.

(** The last [n] dot-separated digit runs of a reversed text, the lowest first. *)
Fixpoint octet_runs (n : nat) (rev : list ascii) : option (list string) :=
  let '(ds, rest) := span_digits rev in
  match ds, n with
  | [], _ => None
  | _, O => Some [str (reverse ds)]
  | _, S n' => match rest with
      | c :: rest' => if is_char "." c then cons (str (reverse ds)) <$> octet_runs n' rest' else None
      | [] => None
      end
  end.
(** The capture of [/(?:::ffff:)?(\d+\.\d+\.\d+\.\d+)$/]. *)
Definition mapped_ipv4 (v : string) : option string :=
  (λ l, join "." (reverse l)) <$> octet_runs 3 (reverse (chars v)).

Definition isPrivateIPv6 (ip : string) : bool :=
  let v := normalize6 ip in
  if String.eqb v "::1" || String.eqb v "::" then true
  else if isIPv6LinkLocal v then true
  else if startsWith "fc" v || startsWith "fd" v then true
  else match mapped_ipv4 v with Some m => isPrivateIPv4 m | None => false end.

(** The octets [a], [b] of a dotted address are 169.254 or [a] is 0. *)
Definition always_blocked4 (ip : string) : bool :=
  match map Number_str (split "." ip) with
  | a :: b :: _ => (num_eqb a 169 && num_eqb b 254) || num_eqb a 0
  | [a] => num_eqb a 0
  | [] => false
  end.

Definition is_octet (s : string) : bool :=
  let l := chars s in
  forallb is_digit l && negb (length l =? 0)%nat
  && ((length l =? 1)%nat || negb (match l with c :: _ => is_char "0" c | [] => false end))
  && (default 256 (parse_digits 10 0 l) <=? 255).
Definition isIPv4 (ip : string) : bool :=
  let parts := split "." ip in (length parts =? 4)%nat && forallb is_octet parts.

(** A parsed URL and a response: the members the services read. [text] is the outcome of reading the
    whole body, with the limits applied by the callers. *)
Record url := {
  protocol : string; hostname : string; username : string; password : string; pathname : string;
  search : string; hash : string; origin : string; href : string }.
Record Response := {
  status_ : Z; location : option string; content_length : option string; text : res string }.

Definition exn_message (e : exn) : string :=
  match e with
  | BadRequestException m | UnauthorizedException m | ForbiddenException m | NotFoundException m
  | ConflictException m | TooManyRequests m | BadGatewayException m | ServiceUnavailableException m
  | Error m | KmsConfigError m => m
  | SsrfBlockedError m => "SSRF guard blocked request: " +:+ m
  | LiteLLMAdminHttpError endpoint status => "LiteLLM " +:+ endpoint +:+ " -> HTTP " +:+ pretty status
  | DeskProvisioningFailure _ target => target
  | PrismaError code => code
  end.

Section ssrf.
Context (isIPv6 : string → bool) (URL : string → option url) (resolve : string → string → option string).

(** [isIP] of [node:net] *)
Definition isIP (ip : string) : Z := if isIPv4 ip then 4 else if isIPv6 ip then 6 else 0.

Definition isAlwaysBlockedIP (ip : string) : bool :=
  if isIP ip =? 4 then always_blocked4 ip
  else if isIP ip =? 6 then
    let v := normalize6 ip in
    if String.eqb v "::" || isIPv6LinkLocal v then true
    else match mapped_ipv4 v with Some m => always_blocked4 m | None => false end
  else false.

Definition isPrivateIP (ip : string) : bool :=
  if isIP ip =? 4 then isPrivateIPv4 ip else if isIP ip =? 6 then isPrivateIPv6 ip else false.

(** * The URL check *)

(** [lookup] is the DNS answer at the time of the check. *)
Definition addresses (lookup : string → res (list string)) (host : string) : res (list string) :=
  if negb (isIP host =? 0) then Ok [host]
  else match lookup host with
       | Throw e => Throw (SsrfBlockedError ("dns lookup failed for " +:+ dquote host +:+ ": "
                                             +:+ exn_message e))
       | Ok [] => Throw (SsrfBlockedError ("no addresses for " +:+ dquote host))
       | Ok l => Ok l
       end.

Fixpoint check_addresses (policy : SsrfPolicy) (addrs : list string) : res unit :=
  match addrs with
  | [] => Ok tt
  | ip :: rest =>
      if isAlwaysBlockedIP ip
      then Throw (SsrfBlockedError ("resolves to blocked address " +:+ ip
                                    +:+ " (loopback/link-local/metadata)"))
      else if (length (allowHosts policy) =? 0)%nat && blockPrivateWhenOpen policy && isPrivateIP ip
      then Throw (SsrfBlockedError ("resolves to private address " +:+ ip
                                    +:+ " (set HARA_SSRF_ALLOW_HOSTS to permit)"))
      else check_addresses policy rest
  end.

Definition assertUrlAllowed (lookup : string → res (list string)) (rawUrl : string)
    (policy : SsrfPolicy) : res unit :=
  match URL rawUrl with
  | None => Throw (SsrfBlockedError ("unparseable url: " +:+ slice0 80 rawUrl))
  | Some u =>
      if negb (String.eqb (protocol u) "http:") && negb (String.eqb (protocol u) "https:")
      then Throw (SsrfBlockedError ("scheme not allowed: " +:+ protocol u))
      else
        let host := toLowerCase (hostname u) in
        if (0 <? length (allowHosts policy))%nat && negb (mem host (allowHosts policy))
        then Throw (SsrfBlockedError ("host " +:+ dquote host +:+ " not on HARA_SSRF_ALLOW_HOSTS"))
        else addrs ← addresses lookup host; check_addresses policy addrs
  end.

(** * The fetch loop *)

(** What hop [n] of the loop meets: the DNS answers and the upstream's response. *)
Context (lookup_at : nat → string → res (list string)) (fetch_at : nat → string → res Response).

(** [hop <= policy.maxRedirects] *)
Definition within (hop : nat) (max : number) : bool :=
  match max with
  | Num q => Qle_bool (inject_Z (Z.of_nat hop)) q
  | Infinity neg => negb neg
  | NaN => false
  end.
Definition is_redirect (r : Response) : option string :=
  if (300 <=? status_ r) && (status_ r <? 400) then location r else None.

(** The [for] loop from [hop]: the outcome and the URLs fetched, in order; [None]: out of fuel. *)
Fixpoint fetch_from (fuel hop : nat) (url : string) (policy : SsrfPolicy)
    : option (res Response * list (nat * string)) :=
  if negb (within hop (maxRedirects policy)) then
    Some (Throw (SsrfBlockedError "too many redirects"), [])
  else match fuel with
  | O => None
  | S fuel =>
      match assertUrlAllowed (lookup_at hop) url policy with
      | Throw e => Some (Throw e, [])
      | Ok _ =>
          match fetch_at hop url with
          | Throw e => Some (Throw e, [(hop, url)])
          | Ok response =>
              match is_redirect response with
              | None => Some (Ok response, [(hop, url)])
              | Some loc =>
                  match resolve loc url with
                  | None => Some (Throw (Error "Invalid URL"), [(hop, url)])
                  | Some url' =>
                      (λ '(r, trace), (r, (hop, url) :: trace)) <$> fetch_from fuel (S hop) url' policy
                  end
              end
          end
      end
  end.

(** One iteration per permitted hop is enough for a finite bound. *)
Definition hop_fuel (max : number) : nat :=
  match max with Num q => Z.to_nat (Qfloor q + 1) | _ => O end.
Definition safeFetch (input : string) (policy : SsrfPolicy)
    : option (res Response * list (nat * string)) :=
  fetch_from (hop_fuel (maxRedirects policy)) 0 input policy.

(** * What the checks guarantee *)

(** An address the guard may let a request reach under the policy. *)
Definition address_permitted (policy : SsrfPolicy) (ip : string) : Prop :=
  isAlwaysBlockedIP ip = false ∧
  (allowHosts policy = [] → blockPrivateWhenOpen policy = true → isPrivateIP ip = false).

Lemma check_addresses_ok policy addrs :
  check_addresses policy addrs = Ok tt ↔ Forall (address_permitted policy) addrs.
Proof.
  induction addrs as [|ip addrs IH]; cbn [check_addresses]; [by split|].
  rewrite Forall_cons, <-IH. unfold address_permitted.
  destruct (isAlwaysBlockedIP ip); [naive_solver|].
  destruct (allowHosts policy) as [|h hs]; simpl; [|naive_solver].
  destruct (blockPrivateWhenOpen policy); simpl; [|naive_solver].
  destruct (isPrivateIP ip); naive_solver.
Qed.

#[local] Arguments check_addresses : simpl never.

(** The URL check passes exactly for a parseable http(s) URL whose lower-cased host is on the
    allow-list when one is configured and all of whose addresses (the literal host, or a non-empty
    DNS answer) are outside the always-blocked set and, when no allow-list is set and the operator
    opted in, outside private space. *)
Theorem assertUrlAllowed_iff lookup rawUrl policy :
  assertUrlAllowed lookup rawUrl policy = Ok tt ↔
  ∃ u addrs, URL rawUrl = Some u ∧ (protocol u = "http:" ∨ protocol u = "https:") ∧
    (allowHosts policy = [] ∨ toLowerCase (hostname u) ∈ allowHosts policy) ∧
    (isIP (toLowerCase (hostname u)) ≠ 0 ∧ addrs = [toLowerCase (hostname u)] ∨
     isIP (toLowerCase (hostname u)) = 0 ∧ addrs ≠ [] ∧
     lookup (toLowerCase (hostname u)) = Ok addrs) ∧
    Forall (address_permitted policy) addrs.
Proof.
  unfold assertUrlAllowed. destruct (URL rawUrl) as [u|]; [|naive_solver].
  destruct (_ && _) eqn:Hs; boolify; [naive_solver|].
  set (host := toLowerCase (hostname u)).
  destruct (_ && negb (mem host _)) eqn:Ha.
  { apply andb_prop in Ha as [Hl Hm]. apply Nat.ltb_lt in Hl. apply negb_true_iff, mem_false in Hm.
    split; [done|]. intros (? & ? & [= <-] & _ & [Hn|?] & _); [rewrite Hn in Hl; simpl in Hl; lia|done]. }
  assert (allowHosts policy = [] ∨ host ∈ allowHosts policy) as Hhost.
  { apply andb_false_iff in Ha as [Ha|Ha].
    - apply Nat.ltb_ge in Ha. left. destruct (allowHosts policy); [done|simpl in Ha; lia].
    - right. by apply negb_false_iff, mem_true in Ha. }
  unfold addresses. destruct (isIP host =? 0) eqn:Hip; simpl; boolify.
  - destruct (lookup host) as [[|a l]|e] eqn:Hl; simpl.
    1,3: split; [done|]; intros (? & addrs & [= <-] & _ & _ & [[? _]|(_ & Hne & Hlk)] & _);
      [done|fold host in Hlk; congruence].
    rewrite check_addresses_ok. split.
    + intros Hp. exists u, (a :: l). split_and!; try done. by right.
    + intros (? & addrs & [= <-] & _ & _ & [[? _]|(_ & _ & Hlk)] & Hp); [done|].
      fold host in Hlk. rewrite Hl in Hlk. by injection Hlk as <-.
  - rewrite check_addresses_ok. split.
    + intros Hp. exists u, [host]. split_and!; try done. by left.
    + intros (? & addrs & [= <-] & _ & _ & [[_ ->]|(? & _)] & Hp); done.
Qed.

Lemma fetch_from_spec fuel hop url policy r trace :
  fetch_from fuel hop url policy = Some (r, trace) →
  Forall (λ '(n, u), (hop <= n)%nat ∧ within n (maxRedirects policy) = true ∧
            assertUrlAllowed (lookup_at n) u policy = Ok tt) trace ∧
  (∀ i n u, trace !! i = Some (n, u) → n = (hop + i)%nat) ∧
  (∀ response, r = Ok response → ∃ n u, last trace = Some (n, u) ∧ fetch_at n u = Ok response ∧
     is_redirect response = None).
Proof.
  revert hop url r trace. induction fuel as [|fuel IH]; intros hop url r trace; cbn [fetch_from];
    (destruct (within hop (maxRedirects policy)) eqn:Hw; cbn [negb];
      [|intros [= <- <-]; split_and!; [constructor|by intros []|by intros]]); [done|].
  destruct (assertUrlAllowed _ _ _) as [[]|e] eqn:Ha; [|intros [= <- <-]; split_and!; [constructor|by intros []|by intros]].
  assert (Forall (λ '(n, u), (hop <= n)%nat ∧ within n (maxRedirects policy) = true ∧
            assertUrlAllowed (lookup_at n) u policy = Ok tt) [(hop, url)]) as Hone.
  { constructor; [done|constructor]. }
  assert (∀ i n u, [(hop, url)] !! i = Some (n, u) → n = (hop + i)%nat) as Hidx.
  { intros [|i] n u; [intros [= <- _]; lia|done]. }
  destruct (fetch_at hop url) as [response|e] eqn:Hf; [|intros [= <- <-]; split_and!; [done..|by intros]].
  destruct (is_redirect response) as [loc|] eqn:Hr.
  2: { intros [= <- <-]. split_and!; [done..|]. intros ? [= <-]. by exists hop, url. }
  destruct (resolve loc url) as [url'|]; [|intros [= <- <-]; split_and!; [done..|by intros]].
  destruct (fetch_from fuel (S hop) url' policy) as [[r' trace']|] eqn:Hrec; simpl; [|done].
  intros [= <- <-]. apply IH in Hrec as (Hall & Hix & Hlast). split_and!.
  - constructor; [done|]. eapply Forall_impl; [exact Hall|]. intros [n u] (? & ? & ?). split; [lia|done].
  - intros [|i] n u; simpl; [intros [= <- _]; lia|]. intros Hi. apply Hix in Hi. lia.
  - intros response' Hresp. destruct (Hlast _ Hresp) as (n & u & Hl & ?). exists n, u.
    split; [|done]. rewrite last_cons. by rewrite Hl.
Qed.

Lemma fetch_from_terminates fuel hop url policy q :
  maxRedirects policy = Num q → (Z.to_nat (Qfloor q + 1) <= fuel + hop)%nat →
  is_Some (fetch_from fuel hop url policy).
Proof.
  intros Hq. revert hop url. induction fuel as [|fuel IH]; intros hop url Hf; cbn [fetch_from];
    rewrite Hq; cbn [within].
  - assert (Qle_bool (inject_Z (Z.of_nat hop)) q = false) as ->; [|by eexists].
    apply Qle_bool_false. apply Qnot_le_lt. intros Hle.
    apply Qfloor_resp_le in Hle. rewrite Qfloor_Z in Hle. lia.
  - destruct (negb _); [by eexists|]. repeat case_match; try by eexists.
    apply fmap_is_Some. apply IH. lia.
Qed.

(** C22: Every request [safeFetch] lets out goes to a URL that passed the check at that hop, redirects
    included; hops are numbered consecutively from 0 and never exceed the configured maximum; a
    returned response is the answer of the last of them and is not a redirect; and with a finite
    maximum the loop always ends. *)
Theorem safeFetch_every_hop_checked input policy :
  (∀ r trace, safeFetch input policy = Some (r, trace) →
     (∀ i n u, trace !! i = Some (n, u) → n = i ∧ within n (maxRedirects policy) = true ∧
        assertUrlAllowed (lookup_at n) u policy = Ok tt) ∧
     (∀ response, r = Ok response → ∃ n u, last trace = Some (n, u) ∧ fetch_at n u = Ok response ∧
        is_redirect response = None)) ∧
  (∀ q, maxRedirects policy = Num q → is_Some (safeFetch input policy)).
Proof.
  split.
  - intros r trace H. apply fetch_from_spec in H as (Hall & Hix & Hlast). split; [|done].
    intros i n u Hi. split; [by apply Hix in Hi|]. rewrite Forall_lookup in Hall. by apply Hall in Hi as [_ ?].
  - intros q Hq. unfold safeFetch, hop_fuel. rewrite Hq. eapply fetch_from_terminates; [done|lia].
Qed.
End ssrf.

(** * Address classification *)

(** The dotted text of an address and the address as a 32-bit number. *)
Definition dotted (a b c d : Z) : string := join "." [pretty a; pretty b; pretty c; pretty d].
Definition addr32 (a b c d : Z) : Z := ((a * 256 + b) * 256 + c) * 256 + d.
Definition octet (z : Z) : Prop := 0 <= z <= 255.

(** CIDR blocks: base address and prefix length. *)
Definition in_block (x : Z) (blk : Z * Z) : bool :=
  x / 2 ^ (32 - blk.2) =? blk.1 / 2 ^ (32 - blk.2).
Definition PRIVATE_BLOCKS : list (Z * Z) :=
  [(addr32 0 0 0 0, 8); (addr32 10 0 0 0, 8); (addr32 127 0 0 0, 8); (addr32 169 254 0 0, 16);
   (addr32 172 16 0 0, 12); (addr32 192 168 0 0, 16); (addr32 100 64 0 0, 10)].
Definition CROWN_BLOCKS : list (Z * Z) := [(addr32 169 254 0 0, 16); (addr32 0 0 0 0, 8)].

Lemma pretty_no_dot n : 0 <= n → "."%char ∉ chars (pretty n).
Proof.
  intros Hn Hin. destruct (pretty_digits n Hn) as [Hd _]. rewrite forallb_forall in Hd.
  specialize (Hd _ (proj1 (list_elem_of_In _ _) Hin)). done.
Qed.

Lemma split_dotted a b c d :
  octet a → octet b → octet c → octet d →
  split "." (dotted a b c d) = [pretty a; pretty b; pretty c; pretty d].
Proof.
  unfold octet. intros. apply split_join; [done|].
  repeat (apply Forall_cons_2; [apply pretty_no_dot; lia|]). constructor.
Qed.

Lemma numbers_dotted a b c d :
  octet a → octet b → octet c → octet d →
  map Number_str (split "." (dotted a b c d)) = [numZ a; numZ b; numZ c; numZ d].
Proof.
  intros. rewrite split_dotted by done. unfold octet in *. cbn [map].
  by rewrite !Number_str_pretty by lia.
Qed.

Lemma num_eqb_numZ z k : num_eqb (numZ z) k = (z =? k).
Proof.
  unfold num_eqb, numZ. apply eq_true_iff_eq. rewrite Qeq_bool_iff, Z.eqb_eq.
  apply inject_Z_injective.
Qed.
Lemma num_between_numZ lo hi z : num_between lo hi (numZ z) = (lo <=? z) && (z <=? hi).
Proof.
  unfold num_between, numZ. apply eq_true_iff_eq.
  rewrite !andb_true_iff, !Qle_bool_iff, !Z.leb_le, <-!Zle_Qle. done.
Qed.

Lemma always_blocked4_dotted a b c d :
  octet a → octet b → octet c → octet d →
  always_blocked4 (dotted a b c d) = existsb (in_block (addr32 a b c d)) CROWN_BLOCKS.
Proof.
  intros. unfold always_blocked4. rewrite numbers_dotted by done. rewrite !num_eqb_numZ.
  unfold octet, in_block, CROWN_BLOCKS, addr32 in *. simpl existsb. cbn [fst snd].
  apply eq_true_iff_eq. boolify.
  change (2 ^ (32 - 16)) with 65536. change (2 ^ (32 - 8)) with 16777216.
  change ((((0 * 256 + 0) * 256 + 0) * 256 + 0) / 16777216) with 0.
  change ((((169 * 256 + 254) * 256 + 0) * 256 + 0) / 65536) with 43518.
  Z.div_mod_to_equations. lia.
Qed.

Lemma isPrivateIPv4_dotted a b c d :
  octet a → octet b → octet c → octet d →
  isPrivateIPv4 (dotted a b c d) = existsb (in_block (addr32 a b c d)) PRIVATE_BLOCKS.
Proof.
  intros. unfold isPrivateIPv4. rewrite numbers_dotted by done. cbn [existsb].
  rewrite !num_eqb_numZ, !num_between_numZ. unfold octet in *.
  replace ((0 <=? a) && (a <=? 255)) with true by lia.
  replace ((0 <=? b) && (b <=? 255)) with true by lia.
  replace ((0 <=? c) && (c <=? 255)) with true by lia.
  replace ((0 <=? d) && (d <=? 255)) with true by lia.
  cbn [negb orb]. unfold PRIVATE_BLOCKS, in_block, addr32. cbn [existsb fst snd].
  change (2 ^ (32 - 16)) with 65536. change (2 ^ (32 - 8)) with 16777216.
  change (2 ^ (32 - 12)) with 1048576. change (2 ^ (32 - 10)) with 4194304.
  set (x := ((a * 256 + b) * 256 + c) * 256 + d).
  assert (x / 16777216 = a) as -> by (unfold x; Z.div_mod_to_equations; lia).
  assert (x / 65536 = a * 256 + b) as -> by (unfold x; Z.div_mod_to_equations; lia).
  assert (x / 1048576 = a * 16 + b / 16) as -> by (unfold x; Z.div_mod_to_equations; lia).
  assert (x / 4194304 = a * 4 + b / 64) as -> by (unfold x; Z.div_mod_to_equations; lia).
  clear x. assert (∀ p q : bool, (if p then true else q) = p || q) as Hor by by intros [].
  rewrite !Hor, !orb_false_r.
  change ((((0 * 256 + 0) * 256 + 0) * 256 + 0) / 16777216) with 0.
  change ((((10 * 256 + 0) * 256 + 0) * 256 + 0) / 16777216) with 10.
  change ((((127 * 256 + 0) * 256 + 0) * 256 + 0) / 16777216) with 127.
  change ((((169 * 256 + 254) * 256 + 0) * 256 + 0) / 65536) with 43518.
  change ((((172 * 256 + 16) * 256 + 0) * 256 + 0) / 1048576) with 2753.
  change ((((192 * 256 + 168) * 256 + 0) * 256 + 0) / 65536) with 49320.
  change ((((100 * 256 + 64) * 256 + 0) * 256 + 0) / 4194304) with 401.
  apply eq_true_iff_eq. boolify.
  Z.div_mod_to_equations. lia.
Qed.

(** The IPv4-mapped text of an address. *)
Definition mapped_text (a b c d : Z) : string := "::ffff:" +:+ dotted a b c d.

Lemma lower_digits l : forallb is_digit l = true → map lower_ascii l = l.
Proof.
  induction l as [|c l IH]; [done|]. cbn [forallb map]. intros [Hc Hl]%andb_prop. rewrite IH by done.
  f_equal. revert Hc. by destruct c as [[] [] [] [] [] [] [] []].
Qed.
Lemma chars_dotted a b c d :
  chars (dotted a b c d) = chars (pretty a) ++ "."%char :: chars (pretty b) ++ "."%char ::
    chars (pretty c) ++ "."%char :: chars (pretty d).
Proof. unfold dotted. cbn [join]. by rewrite !chars_app. Qed.

Lemma span_digits_app l c r :
  forallb is_digit l = true → is_digit c = false → span_digits (l ++ c :: r) = (l, c :: r).
Proof.
  intros Hl Hc. induction l as [|x l IH]; cbn [app span_digits]; [by rewrite Hc|].
  cbn [forallb] in Hl. apply andb_prop in Hl as [Hx Hl]. by rewrite Hx, IH.
Qed.

Lemma forallb_reverse {A} (q : A → bool) l : forallb q (reverse l) = forallb q l.
Proof.
  induction l as [|x l IH]; [done|]. rewrite reverse_cons, forallb_app, IH. simpl.
  by rewrite andb_true_r, andb_comm.
Qed.

Lemma octet_runs_step n s r :
  forallb is_digit (chars s) = true → chars s ≠ [] →
  octet_runs (S n) (reverse (chars s) ++ "."%char :: r) = cons s <$> octet_runs n r.
Proof.
  intros Hd Hne. cbn [octet_runs]. rewrite span_digits_app; [|by rewrite forallb_reverse|done].
  destruct (reverse (chars s)) as [|x l] eqn:Hr.
  { by apply (f_equal reverse) in Hr; rewrite reverse_involutive in Hr. }
  rewrite <-Hr, reverse_involutive, str_chars. done.
Qed.

Lemma octet_runs_last s r :
  forallb is_digit (chars s) = true → chars s ≠ [] →
  octet_runs 0 (reverse (chars s) ++ ":"%char :: r) = Some [s].
Proof.
  intros Hd Hne. cbn [octet_runs]. rewrite span_digits_app; [|by rewrite forallb_reverse|done].
  destruct (reverse (chars s)) as [|x l] eqn:Hr.
  { by apply (f_equal reverse) in Hr; rewrite reverse_involutive in Hr. }
  by rewrite <-Hr, reverse_involutive, str_chars.
Qed.

Lemma mapped_ipv4_text a b c d :
  octet a → octet b → octet c → octet d → mapped_ipv4 (mapped_text a b c d) = Some (dotted a b c d).
Proof.
  unfold octet. intros. unfold mapped_ipv4, mapped_text. rewrite chars_app, chars_dotted.
  repeat (rewrite reverse_app || rewrite reverse_cons). rewrite <-!app_assoc. cbn [app].
  repeat (rewrite octet_runs_step by (apply pretty_digits; lia)).
  change (reverse (chars "::ffff:")) with (":"%char :: reverse (chars "::ffff")).
  rewrite octet_runs_last by (apply pretty_digits; lia). done.
Qed.

Lemma unbracket_id l x :
  match l with c :: _ => is_char "[" c = false | [] => True end →
  last l = Some x → is_char "]" x = false → unbracket l = l.
Proof.
  intros Hh Hl Hx. unfold unbracket.
  replace (match l with c :: l' => if is_char "[" c then l' else l | [] => [] end) with l
    by (destruct l as [|c l]; [done|by rewrite Hh]).
  apply last_Some in Hl as [l' ->]. rewrite reverse_snoc. by rewrite Hx.
Qed.

Lemma normalize6_text a b c d :
  octet a → octet b → octet c → octet d → normalize6 (mapped_text a b c d) = mapped_text a b c d.
Proof.
  unfold octet. intros. unfold normalize6, toLowerCase.
  assert (lower_ascii <$> chars (mapped_text a b c d) = chars (mapped_text a b c d)) as ->.
  { unfold mapped_text. rewrite chars_app, chars_dotted, fmap_app.
    change (lower_ascii <$> ?l) with (map lower_ascii l).
    change (map lower_ascii (chars "::ffff:")) with (chars "::ffff:").
    repeat (rewrite map_app; cbn [map]). by rewrite !lower_digits by (apply pretty_digits; lia). }
  rewrite str_chars.
  destruct (pretty_digits d ltac:(lia)) as [Hd Hne].
  destruct (exists_last Hne) as (l & x & Hx).
  rewrite (unbracket_id _ x); [apply str_chars|done| |].
  - unfold mapped_text. rewrite chars_app, chars_dotted, Hx, !last_app, last_cons, last_app.
    rewrite last_cons, last_app, last_cons, last_snoc. done.
  - rewrite Hx, forallb_app in Hd. apply andb_prop in Hd as [_ Hd]. simpl in Hd.
    rewrite andb_true_r in Hd. by revert Hd; destruct x as [[] [] [] [] [] [] [] []].
Qed.

(** The text of an octet passes the strict syntax check. *)
Lemma octet_text z : octet z → is_octet (pretty z) = true.
Proof.
  unfold octet. intros Hz. assert (∃ n : nat, (n < 256)%nat ∧ z = Z.of_nat n) as (n & Hn & ->).
  { exists (Z.to_nat z). lia. }
  clear Hz. do 256 (destruct n as [|n]; [vm_compute; reflexivity|]). lia.
Qed.

Lemma isIPv4_mapped a b c d :
  octet a → octet b → octet c → octet d → isIPv4 (mapped_text a b c d) = false.
Proof.
  intros. unfold isIPv4.
  assert (split "." (mapped_text a b c d) = ["::ffff:" +:+ pretty a; pretty b; pretty c; pretty d]) as ->.
  { unfold octet in *. change (mapped_text a b c d)
      with (join (String "." "") ["::ffff:" +:+ pretty a; pretty b; pretty c; pretty d]).
    apply split_join; [done|]. apply Forall_cons_2; [|repeat (apply Forall_cons_2; [apply pretty_no_dot; lia|]); constructor].
    rewrite chars_app. intros [Hin|Hin]%elem_of_app; [set_solver|]. by apply pretty_no_dot in Hin; [|lia]. }
  done.
Qed.

Lemma isIPv4_dotted a b c d :
  octet a → octet b → octet c → octet d → isIPv4 (dotted a b c d) = true.
Proof.
  intros Ha Hb Hc Hd. unfold isIPv4. rewrite split_dotted by done. cbn [length forallb].
  rewrite !octet_text by done. done.
Qed.

(** The IPv4 classifiers decide membership in CIDR blocks for every dotted-quad address: the
    private test is exactly 0/8, 10/8, 127/8, 169.254/16, 172.16/12, 192.168/16 and 100.64/10, the
    always-blocked test exactly link-local (with the cloud metadata address) and 0/8, and both give
    the same answers for the [::ffff:a.b.c.d] form of the address. *)
Theorem ipv4_classification isIPv6 a b c d :
  octet a → octet b → octet c → octet d →
  isPrivateIPv4 (dotted a b c d) = existsb (in_block (addr32 a b c d)) PRIVATE_BLOCKS ∧
  isAlwaysBlockedIP isIPv6 (dotted a b c d) = existsb (in_block (addr32 a b c d)) CROWN_BLOCKS ∧
  isPrivateIPv6 (mapped_text a b c d) = existsb (in_block (addr32 a b c d)) PRIVATE_BLOCKS ∧
  (isIPv6 (mapped_text a b c d) = true →
   isAlwaysBlockedIP isIPv6 (mapped_text a b c d) = existsb (in_block (addr32 a b c d)) CROWN_BLOCKS).
Proof.
  intros Ha Hb Hc Hd. rewrite <-isPrivateIPv4_dotted, <-always_blocked4_dotted by done.
  split; [done|]. split; [by unfold isAlwaysBlockedIP, isIP; rewrite isIPv4_dotted|].
  assert (isIPv6LinkLocal (mapped_text a b c d) = false) as Hll.
  { unfold isIPv6LinkLocal. rewrite normalize6_text by done. done. }
  split.
  - unfold isPrivateIPv6. rewrite normalize6_text, Hll, mapped_ipv4_text by done. done.
  - intros H6. unfold isAlwaysBlockedIP, isIP. rewrite isIPv4_mapped, H6 by done. simpl Z.eqb. cbv iota.
    rewrite normalize6_text, Hll, mapped_ipv4_text by done. done.
Qed.

Lemma ipv4_classification_witness :
  octet 169 ∧ octet 254 ∧
  isAlwaysBlockedIP (λ s, String.eqb s "::ffff:169.254.169.254") "169.254.169.254" = true ∧
  isAlwaysBlockedIP (λ s, String.eqb s "::ffff:169.254.169.254") "::ffff:169.254.169.254" = true ∧
  isPrivateIPv4 "169.254.169.254" = true.
Proof.
  assert (octet 169) as H1 by (unfold octet; lia). assert (octet 254) as H2 by (unfold octet; lia).
  destruct (ipv4_classification (λ s, String.eqb s "::ffff:169.254.169.254") 169 254 169 254 H1 H2 H1 H2)
    as (E1 & E2 & _ & E3).
  split; [exact H1|]. split; [exact H2|]. split; [exact E2|]. split; [exact (E3 eq_refl)|exact E1].
Defined.
