(* ===== verification/Policy.v ===== *)
(** Governance policies ([src/roles/roles.service.ts], lines 14-152): normalisation of untrusted
    policy JSON, the restrictive budget merge and the monotone merge of policy layers. Object members
    are own members; JSON numbers are finite. *)
From S2P Require Import Prelude Js.

(** * Data *)

Record Policy := {
  modelAllow : option (list string);
  modelDeny : option (list string);
  toolDeny : option (list string);
  requireApprovalForWrites : bool;
  allowPersonalModelConnections : option bool;
  budget : option json }.

(** * Normalisation *)

Definition normalizedEntry (key : string) (entry : json) : res string :=
  match entry with
  | JStr s =>
      if negb (truthy (trim s)) || (256 <? String.length s)%nat || existsb is_control (chars s)
      then Throw (BadRequestException (key +:+ " contains an invalid value"))
      else Ok (trim s)
  | _ => Throw (BadRequestException (key +:+ " contains an invalid value"))
  end.

Definition normalizedStringList (value : json) (key : string) : res (list string) :=
  match value with
  | JArr l =>
      if (128 <? length l)%nat
      then Throw (BadRequestException (key +:+ " must be an array of at most 128 strings"))
      else values ← mapR (normalizedEntry key) l; Ok (sort_str (uniq values))
  | _ => Throw (BadRequestException (key +:+ " must be an array of at most 128 strings"))
  end.

Definition budget_key_char (c : ascii) : bool := is_alnum c || is_char "._-" c.
(** [/^[A-Za-z0-9][A-Za-z0-9._-]{0,63}$/] *)
Definition budget_key_ok (key : string) : bool :=
  match chars key with
  | c :: l => is_alnum c && forallb budget_key_char l && (length l <=? 63)%nat
  | [] => false
  end.

Fixpoint normalizedBudget (value : json) (depth : nat) : res json :=
  match value with
  | JNum q => if Qle_bool 0 q then Ok (JNum q)
              else Throw (BadRequestException "budget values must be finite non-negative numbers")
  | JObj m =>
      if (4 <=? depth)%nat then Throw (BadRequestException "budget must contain bounded numeric limits")
      else if (32 <? length m)%nat then Throw (BadRequestException "budget has too many dimensions")
      else
        out ← (fix go (m : list (string * json)) : res (list (string * json)) :=
                 match m with
                 | [] => Ok []
                 | (key, child) :: m' =>
                     if negb (budget_key_ok key)
                     then Throw (BadRequestException "budget contains an invalid key")
                     else c ← normalizedBudget child (S depth); rest ← go m'; Ok ((key, c) :: rest)
                 end) m;
        Ok (JObj out)
  | _ => Throw (BadRequestException "budget must contain bounded numeric limits")
  end.

Definition supported : list string :=
  ["modelAllow"; "modelDeny"; "toolDeny"; "requireApprovalForWrites";
   "allowPersonalModelConnections"; "budget"].

(** A present member, handled by [f]; an absent one stays absent. *)
Definition member {A} (input : list (string * json)) (key : string) (f : json → res A)
    : res (option A) :=
  match assoc key input with
  | None => Ok None
  | Some v => Some <$> f v
  end.
Definition boolean (key : string) (v : json) : res bool :=
  match v with JBool b => Ok b | _ => Throw (BadRequestException (key +:+ " must be a boolean")) end.

Definition normalizePolicy (value : json) : res Policy :=
  match value with
  | JObj input =>
      match filter (λ k, k ∉ supported) (map fst input) with
      | k :: _ => Throw (BadRequestException ("policy contains unsupported field '" +:+ k +:+ "'"))
      | [] =>
          approval ← member input "requireApprovalForWrites" (boolean "requireApprovalForWrites");
          personal ← member input "allowPersonalModelConnections"
                       (boolean "allowPersonalModelConnections");
          deny ← member input "modelDeny" (λ v, normalizedStringList v "modelDeny");
          allow ← member input "modelAllow" (λ v, normalizedStringList v "modelAllow");
          tools ← member input "toolDeny" (λ v, normalizedStringList v "toolDeny");
          b ← member input "budget" (λ v, normalizedBudget v 0);
          Ok {| modelAllow := allow; modelDeny := deny; toolDeny := tools;
                requireApprovalForWrites := default false approval;
                allowPersonalModelConnections := personal; budget := b |}
      end
  | _ => Throw (BadRequestException "policy must be an object")
  end.

(** The JSON form in which a normalised policy is stored. *)
Definition strings (l : list string) : json := JArr (map JStr l).
Definition opt_member {A} (key : string) (f : A → json) (o : option A) : list (string * json) :=
  match o with Some x => [(key, f x)] | None => [] end.
Definition policy_json (p : Policy) : json :=
  JObj (opt_member "modelDeny" strings (modelDeny p) ++ opt_member "modelAllow" strings (modelAllow p)
        ++ opt_member "toolDeny" strings (toolDeny p)
        ++ (if requireApprovalForWrites p then [("requireApprovalForWrites", JBool true)] else [])
        ++ opt_member "allowPersonalModelConnections" JBool (allowPersonalModelConnections p)
        ++ opt_member "budget" (λ b, b) (budget p)).

(** * Merging *)

Definition qmin (a b : Q) : Q := if Qle_bool a b then a else b.

(** [restrictiveBudget(current, next)] for a defined [next]. *)
Fixpoint restrict (current : option json) (next : json) : json :=
  match current with
  | None => next
  | Some cur =>
      match cur, next with
      | JNum a, JNum b => JNum (qmin a b)
      | JObj m, JObj entries =>
          JObj ((fix go (merged entries : list (string * json)) : list (string * json) :=
                   match entries with
                   | [] => merged
                   | (key, value) :: rest =>
                       go (obj_set key (restrict (assoc key merged) value) merged) rest
                   end) m entries)
      | _, _ => cur
      end
  end.
Definition restrictiveBudget (current next : option json) : option json :=
  match next with None => current | Some n => Some (restrict current n) end.

(** The local variables of [mergePolicy]. *)
Record MergeState := {
  m_deny : list string; m_tools : list string; m_allow : option (list string);
  m_approval : bool; m_personal : option bool; m_budget : option json }.
Definition merge_start : MergeState :=
  {| m_deny := []; m_tools := []; m_allow := None; m_approval := false; m_personal := None;
     m_budget := None |}.

Definition merge_layer (st : MergeState) (p : Policy) : MergeState :=
  {| m_deny := uniq (m_deny st ++ default [] (modelDeny p));
     m_tools := uniq (m_tools st ++ default [] (toolDeny p));
     m_allow := match modelAllow p with
       | None => m_allow st
       | Some layer => match m_allow st with
           | None => Some (uniq layer)
           | Some allow => Some (filter (λ m, m ∈ layer) allow)
           end
       end;
     m_approval := if requireApprovalForWrites p then true else m_approval st;
     m_personal := match allowPersonalModelConnections p with
       | None => m_personal st
       | Some b => match m_personal st with None => Some b | Some b' => Some (b' && b) end
       end;
     m_budget := restrictiveBudget (m_budget st) (budget p) |}.

(** [if (!raw) continue;] *)
Definition falsy (raw : json) : bool :=
  match raw with
  | JNull | JBool false => true
  | JNum q => Qeq_bool q 0
  | JStr s => String.eqb s ""
  | _ => false
  end.
Fixpoint merge_from (st : MergeState) (layers : list json) : res MergeState :=
  match layers with
  | [] => Ok st
  | raw :: rest =>
      if falsy raw then merge_from st rest
      else p ← normalizePolicy raw; merge_from (merge_layer st p) rest
  end.

Definition nonempty (l : list string) : option (list string) :=
  match l with [] => None | _ => Some (sort_str l) end.
Definition mergePolicy (layers : list json) : res Policy :=
  st ← merge_from merge_start layers;
  Ok {| modelDeny := nonempty (m_deny st); toolDeny := nonempty (m_tools st);
        modelAllow := sort_str <$> m_allow st; requireApprovalForWrites := m_approval st;
        allowPersonalModelConnections := m_personal st; budget := m_budget st |}.

(** * What a policy permits *)

Definition denied_models (p : Policy) : list string := default [] (modelDeny p).
Definition denied_tools (p : Policy) : list string := default [] (toolDeny p).

Definition permits_model (p : Policy) (m : string) : Prop :=
  (m ∉ denied_models p) ∧ ∀ allow, modelAllow p = Some allow → m ∈ allow.
Definition permits_tool (p : Policy) (t : string) : Prop := t ∉ denied_tools p.

(** The numeric limit a budget sets for a path of dimensions. *)
Fixpoint limit (b : json) (path : list string) : option Q :=
  match path with
  | [] => match b with JNum q => Some q | _ => None end
  | k :: path' => match b with JObj m => assoc k m ≫= λ v, limit v path' | _ => None end
  end.
Definition limit_of (p : Policy) (path : list string) : option Q := budget p ≫= λ b, limit b path.

(** The normalised layers of a successful merge. *)
Definition layers_of (layers : list json) (ps : list Policy) : Prop :=
  Forall2 (λ raw p, normalizePolicy raw = Ok p) (filter (λ raw, falsy raw = false) layers) ps.

Lemma merge_from_layers st layers st' :
  merge_from st layers = Ok st' ↔ ∃ ps, layers_of layers ps ∧ st' = foldl merge_layer st ps.
Proof.
  unfold layers_of. revert st. induction layers as [|raw layers IH]; intros st; cbn [merge_from].
  { split; [intros [= <-]; by exists []|]. intros (ps & H & ->). by inversion H. }
  destruct (falsy raw) eqn:Hf.
  - rewrite filter_cons_False by congruence. apply IH.
  - rewrite filter_cons_True by done. rewrite res_bind_ok. setoid_rewrite IH. split.
    + intros (p & Hp & ps & Hps & ->). exists (p :: ps). split; [by constructor|done].
    + intros (ps' & H & ->). inversion H as [|? p ? ps Hp Hps]; subst. eauto.
Qed.

(** What one layer adds to the state. *)
Definition state_permits (st : MergeState) (m : string) : Prop :=
  (m ∉ m_deny st) ∧ ∀ allow, m_allow st = Some allow → m ∈ allow.

Lemma merge_layer_permits st p m :
  state_permits (merge_layer st p) m ↔ state_permits st m ∧ permits_model p m.
Proof.
  unfold state_permits, permits_model, denied_models. simpl.
  rewrite elem_of_uniq, elem_of_app.
  destruct (modelAllow p) as [layer|], (m_allow st) as [allow|].
  - split.
    + intros [Hd Ha]. specialize (Ha _ eq_refl). apply list_elem_of_filter in Ha as [? ?]. naive_solver.
    + intros [[Hd Ha] [Hd' Ha']]. split; [tauto|]. intros ? [= <-]. apply list_elem_of_filter.
      split; [by apply Ha'|by apply Ha].
  - split.
    + intros [Hd Ha]. specialize (Ha _ eq_refl). rewrite elem_of_uniq in Ha. naive_solver.
    + intros [[Hd Ha] [Hd' Ha']]. split; [tauto|]. intros ? [= <-]. rewrite elem_of_uniq. by apply Ha'.
  - naive_solver.
  - naive_solver.
Qed.

Lemma merge_layers_permits ps st m :
  state_permits (foldl merge_layer st ps) m ↔ state_permits st m ∧ Forall (λ p, permits_model p m) ps.
Proof.
  revert st. induction ps as [|p ps IH]; intros st; simpl.
  - split; [intros; split; [done|constructor]|tauto].
  - rewrite IH, merge_layer_permits, Forall_cons. tauto.
Qed.
Lemma merge_layers_tools ps st t :
  t ∉ m_tools (foldl merge_layer st ps) ↔ (t ∉ m_tools st) ∧ Forall (λ p, permits_tool p t) ps.
Proof.
  revert st. induction ps as [|p ps IH]; intros st; simpl.
  - split; [intros; split; [done|constructor]|tauto].
  - rewrite IH, Forall_cons. unfold permits_tool, denied_tools. simpl. rewrite elem_of_uniq, elem_of_app. tauto.
Qed.
Lemma merge_layers_approval ps st :
  m_approval (foldl merge_layer st ps) = m_approval st || existsb requireApprovalForWrites ps.
Proof.
  revert st. induction ps as [|p ps IH]; intros st; simpl; [by rewrite orb_false_r|].
  rewrite IH. simpl. by destruct (requireApprovalForWrites p), (m_approval st).
Qed.
(** Consent is granted by the merge when some layer grants it and no layer withholds it. *)
Lemma merge_layers_personal ps st :
  m_personal (foldl merge_layer st ps) = Some true ↔
  Forall (λ p, allowPersonalModelConnections p ≠ Some false) ps ∧ m_personal st ≠ Some false ∧
  (m_personal st = Some true ∨ Exists (λ p, allowPersonalModelConnections p = Some true) ps).
Proof.
  revert st. induction ps as [|p ps IH]; intros st; simpl.
  - rewrite Exists_nil. split; [intros ->; split_and!; [constructor|done|auto]|naive_solver].
  - rewrite IH, Forall_cons, Exists_cons. simpl.
    destruct (allowPersonalModelConnections p) as [[]|], (m_personal st) as [[]|]; simpl; naive_solver.
Qed.

Lemma mem_nonempty l x : x ∈ default [] (nonempty l) ↔ x ∈ l.
Proof. unfold nonempty. destruct l; [done|]. simpl default. by rewrite elem_of_sort_str. Qed.

Lemma mergePolicy_ok layers p :
  mergePolicy layers = Ok p ↔ ∃ ps, layers_of layers ps ∧ let st := foldl merge_layer merge_start ps in
    p = {| modelDeny := nonempty (m_deny st); toolDeny := nonempty (m_tools st);
           modelAllow := sort_str <$> m_allow st; requireApprovalForWrites := m_approval st;
           allowPersonalModelConnections := m_personal st; budget := m_budget st |}.
Proof.
  unfold mergePolicy. rewrite res_bind_ok. setoid_rewrite merge_from_layers. split.
  - intros (st & (ps & Hps & ->) & [= <-]). by exists ps.
  - intros (ps & Hps & ->). eexists. split; [by exists ps|done].
Qed.

Lemma mergePolicy_exact layers p :
  mergePolicy layers = Ok p →
  ∃ ps, layers_of layers ps ∧
    (∀ m, permits_model p m ↔ Forall (λ q, permits_model q m) ps) ∧
    (∀ t, permits_tool p t ↔ Forall (λ q, permits_tool q t) ps) ∧
    requireApprovalForWrites p = existsb requireApprovalForWrites ps ∧
    (allowPersonalModelConnections p = Some true ↔
     Forall (λ q, allowPersonalModelConnections q ≠ Some false) ps ∧
     Exists (λ q, allowPersonalModelConnections q = Some true) ps).
Proof.
  intros (ps & Hps & ->)%mergePolicy_ok. exists ps. split; [done|].
  pose proof (λ m, merge_layers_permits ps merge_start m) as Hm.
  pose proof (λ t, merge_layers_tools ps merge_start t) as Ht.
  pose proof (merge_layers_approval ps merge_start) as Ha.
  pose proof (merge_layers_personal ps merge_start) as Hp.
  generalize dependent (foldl merge_layer merge_start ps). intros st Hm Ht Ha Hp.
  split_and!; simpl.
  - intros m. assert (state_permits merge_start m) as Hstart by (by split; [set_solver|]).
    trans (state_permits st m); [|rewrite Hm; tauto].
    unfold permits_model, denied_models, state_permits. simpl. rewrite mem_nonempty.
    destruct (m_allow st) as [allow|]; simpl; [|naive_solver].
    split; intros [Hd Hal]; (split; [done|]); intros ? [= <-].
    + rewrite <-elem_of_sort_str. by apply Hal.
    + rewrite elem_of_sort_str. by apply Hal.
  - intros t. unfold permits_tool, denied_tools. simpl. rewrite mem_nonempty, Ht. set_solver.
  - done.
  - rewrite Hp. simpl. naive_solver.
Qed.

Lemma layers_of_total layers :
  Forall (λ raw, is_ok (normalizePolicy raw) = true) layers → ∃ ps, layers_of layers ps.
Proof.
  unfold layers_of. induction 1 as [|raw layers Hraw _ (ps & Hps)]; [by exists []|].
  rewrite filter_cons. case_decide; [|by exists ps].
  destruct (normalizePolicy raw) as [p|] eqn:Hp; [|done]. exists (p :: ps). by constructor.
Qed.
Lemma mergePolicy_total layers :
  Forall (λ raw, is_ok (normalizePolicy raw) = true) layers → ∃ p, mergePolicy layers = Ok p.
Proof.
  intros (ps & Hps)%layers_of_total. eexists. apply mergePolicy_ok. by exists ps.
Qed.
Lemma normalize_not_falsy raw p : normalizePolicy raw = Ok p → falsy raw = false.
Proof. by destruct raw. Qed.

(** C24: Merging policy layers is exact on permissions and fails closed: the merge succeeds only when
    every non-empty layer is well formed, a model is permitted by the result if and only if every
    layer permits it, a tool likewise, approval is required as soon as one layer requires it, and
    personal connections are allowed only when some layer grants them and none withholds them. *)
Theorem mergePolicy_permits layers p :
  mergePolicy layers = Ok p →
  ∃ ps, layers_of layers ps ∧
    (∀ m, permits_model p m ↔ Forall (λ q, permits_model q m) ps) ∧
    (∀ t, permits_tool p t ↔ Forall (λ q, permits_tool q t) ps) ∧
    requireApprovalForWrites p = existsb requireApprovalForWrites ps ∧
    (allowPersonalModelConnections p = Some true ↔
     Forall (λ q, allowPersonalModelConnections q ≠ Some false) ps ∧
     Exists (λ q, allowPersonalModelConnections q = Some true) ps).
Proof. apply mergePolicy_exact. Qed.

(** * Budgets only tighten *)

Lemma qmin_le a b : (qmin a b <= a)%Q ∧ (qmin a b <= b)%Q.
Proof.
  unfold qmin. destruct (Qle_bool a b) eqn:E.
  - apply Qle_bool_iff in E. split; [apply Qle_refl|done].
  - apply Qle_bool_false in E. split; [by apply Qlt_le_weak|apply Qle_refl].
Qed.

Definition restrict_entry (merged : list (string * json)) (kv : string * json) : list (string * json) :=
  obj_set kv.1 (restrict (assoc kv.1 merged) kv.2) merged.

Lemma restrict_obj m entries :
  restrict (Some (JObj m)) (JObj entries) = JObj (foldl restrict_entry m entries).
Proof.
  cbn [restrict]. f_equal. revert m. induction entries as [|[k v] entries IH]; intros m; [done|].
  simpl. rewrite IH. done.
Qed.

(** The limit of a dimension after a merge: at most the old one and at most the lower layer's. *)
Definition tightens (old merged next : json) : Prop :=
  ∀ path c, limit old path = Some c → ∃ c', limit merged path = Some c' ∧ (c' <= c)%Q ∧
    ∀ n, limit next path = Some n → (c' <= n)%Q.

Lemma tightens_same old next : (∀ path c, limit old path = Some c → limit next path = None) →
  tightens old old next.
Proof. intros H path c Hc. exists c. split; [done|]. split; [apply Qle_refl|]. intros n. by rewrite (H _ _ Hc). Qed.

Lemma restrict_entry_limit m kv path c :
  tightens (default JNull (assoc kv.1 m)) (restrict (assoc kv.1 m) kv.2) kv.2 →
  limit (JObj m) path = Some c →
  ∃ c', limit (JObj (restrict_entry m kv)) path = Some c' ∧ (c' <= c)%Q ∧
    ∀ n, limit (JObj [kv]) path = Some n → (c' <= n)%Q.
Proof.
  destruct kv as [key value]. intros Ht. destruct path as [|k path]; [done|]. simpl. unfold restrict_entry. simpl in *.
  destruct (decide (k = key)) as [->|Hne].
  - rewrite assoc_obj_set, String.eqb_refl. destruct (assoc key m) as [v|] eqn:Hv; simpl; [|done].
    apply Ht.
  - rewrite assoc_obj_set_ne by done. assert (String.eqb k key = false) as -> by by apply String.eqb_neq.
    intros Hc. exists c. split; [done|]. split; [apply Qle_refl|done].
Qed.

Lemma restrict_tightens next cur : tightens cur (restrict (Some cur) next) next.
Proof.
  revert cur. induction next as [| | b | | | entries IH] using json_ind'; intros cur;
    try (destruct cur; apply tightens_same; by intros []).
  - destruct cur as [| | a | | |]; try (apply tightens_same; by intros []).
    intros [|k path] c; [|done]. intros [= <-]. exists (qmin a b). simpl.
    destruct (qmin_le a b). split_and!; [done..|]. by intros n [= <-].
  - destruct cur as [| | a | | | m]; try (apply tightens_same; by intros []).
    rewrite restrict_obj. revert m. induction IH as [|kv entries Hkv _ IHe]; intros m path c Hc; simpl.
    + exists c. split; [done|]. split; [apply Qle_refl|]. intros n. by destruct path.
    + destruct (restrict_entry_limit m kv path c) as (c1 & Hc1 & Hle1 & Hn1); [|done|].
      { destruct (assoc kv.1 m) as [v|]; [apply Hkv|]. intros p ? Hp. by destruct p. }
      destruct (IHe _ _ _ Hc1) as (c2 & Hc2 & Hle2 & Hn2). exists c2. split; [done|].
      split; [by eapply Qle_trans|]. intros n Hn. destruct path as [|k path]; [done|].
      destruct kv as [key value]. simpl in *. destruct (String.eqb k key) eqn:E.
      * eapply Qle_trans; [exact Hle2|]. by apply Hn1.
      * by apply Hn2.
Qed.

Lemma merge_layers_budget ps st path c :
  m_budget st ≫= (λ b, limit b path) = Some c →
  ∃ c', m_budget (foldl merge_layer st ps) ≫= (λ b, limit b path) = Some c' ∧ (c' <= c)%Q ∧
    Forall (λ p, ∀ n, limit_of p path = Some n → (c' <= n)%Q) ps.
Proof.
  revert st c. induction ps as [|p ps IH]; intros st c Hc; simpl.
  { exists c. split; [done|]. split; [apply Qle_refl|constructor]. }
  destruct (m_budget st) as [cur|] eqn:Hcur; [|done]. simpl in Hc.
  assert (∃ c1, m_budget (merge_layer st p) ≫= (λ b, limit b path) = Some c1 ∧ (c1 <= c)%Q ∧
    ∀ n, limit_of p path = Some n → (c1 <= n)%Q) as (c1 & Hc1 & Hle & Hn).
  { unfold limit_of. simpl. rewrite Hcur. destruct (budget p) as [next|]; simpl.
    - by apply restrict_tightens.
    - exists c. split; [done|]. split; [apply Qle_refl|done]. }
  destruct (IH _ _ Hc1) as (c2 & Hc2 & Hle2 & Hall). exists c2. split; [done|].
  split; [by eapply Qle_trans|]. constructor; [|done].
  intros n Hlim. eapply Qle_trans; [exact Hle2|]. by apply Hn.
Qed.

Lemma layers_of_app l1 l2 ps :
  layers_of (l1 ++ l2) ps ↔ ∃ ps1 ps2, ps = ps1 ++ ps2 ∧ layers_of l1 ps1 ∧ layers_of l2 ps2.
Proof.
  unfold layers_of. rewrite filter_app. split.
  - intros (ps1 & ps2 & ? & ? & ->)%Forall2_app_inv_l. eauto 10.
  - intros (ps1 & ps2 & -> & ? & ?). by apply Forall2_app.
Qed.
Lemma layers_of_fun l ps ps' : layers_of l ps → layers_of l ps' → ps = ps'.
Proof.
  unfold layers_of. intros H. revert ps'. induction H as [|raw p l0 ps Hp _ IH]; intros ps' H';
    inversion H'; subst; [done|]. f_equal; [congruence|auto].
Qed.

(** Lower policy layers can only tighten budgets: whatever numeric limit the upper layers
    together set for a dimension (a path of nested keys), the merge with any further layers still
    sets one for it, no higher than before and no higher than each limit the further layers set
    for that dimension. *)
Theorem mergePolicy_budget_tightens upper lower pu p path c :
  mergePolicy upper = Ok pu → mergePolicy (upper ++ lower) = Ok p → limit_of pu path = Some c →
  ∃ c' qs, limit_of p path = Some c' ∧ (c' <= c)%Q ∧ layers_of lower qs ∧
    Forall (λ q, ∀ n, limit_of q path = Some n → (c' <= n)%Q) qs.
Proof.
  intros (ps1 & Hps1 & ->)%mergePolicy_ok (ps & Hps & ->)%mergePolicy_ok.
  apply layers_of_app in Hps as (ps1' & ps2 & -> & Hps1' & Hps2).
  rewrite (layers_of_fun _ _ _ Hps1' Hps1) in *. unfold limit_of. simpl. rewrite foldl_app. intros Hc.
  destruct (merge_layers_budget ps2 _ _ _ Hc) as (c' & Hc' & Hle & Hall). exists c', ps2. done.
Qed.

(** * The stored form *)

Definition policy_ok (p : Policy) : Prop := ∃ value, normalizePolicy value = Ok p.

Lemma normalizedEntry_ok key v s :
  normalizedEntry key v = Ok s → normalizedEntry key (JStr s) = Ok s ∧ trim s = s.
Proof.
  unfold normalizedEntry. destruct v as [| | |s0| |]; try done. destruct (_ || _) eqn:E; [done|].
  intros [= <-]. rewrite trim_idemp. split; [|done]. apply orb_false_iff in E as [E Hc].
  apply orb_false_iff in E as [Ht Hl].
  assert (∀ x, x ∈ chars (trim s0) → x ∈ chars s0) as Hsub.
  { intros x. unfold trim, trim_l. rewrite chars_str, elem_of_reverse.
    destruct (dropWhile_suffix is_ws (reverse (dropWhile is_ws (chars s0)))) as (k1 & H1 & _).
    destruct (dropWhile_suffix is_ws (chars s0)) as (k2 & H2 & _). intros Hx. rewrite H2.
    apply elem_of_app. right. rewrite <-elem_of_reverse, H1. apply elem_of_app. by right. }
  assert (String.length (trim s0) <= String.length s0) as Hlen.
  { rewrite <-!length_chars. unfold trim, trim_l. rewrite chars_str, length_reverse.
    destruct (dropWhile_suffix is_ws (reverse (dropWhile is_ws (chars s0)))) as (k1 & H1 & _).
    destruct (dropWhile_suffix is_ws (chars s0)) as (k2 & H2 & _).
    apply (f_equal length) in H1, H2. rewrite length_app in H1, H2. rewrite length_reverse in H1. lia. }
  rewrite Ht. apply Nat.ltb_ge in Hl. assert ((256 <? String.length (trim s0)) = false) as ->
    by (apply Nat.ltb_ge; lia).
  assert (existsb is_control (chars (trim s0)) = false) as ->; [|done].
  apply not_true_iff_false. rewrite existsb_exists. intros (x & Hx & Hctl).
  apply not_true_iff_false in Hc. apply Hc, existsb_exists. exists x. split; [|done].
  apply list_elem_of_In, Hsub. by apply list_elem_of_In.
Qed.

Lemma uniq_length {A} `{EqDecision A} (l : list A) : length (uniq l) <= length l.
Proof. apply submseteq_length, NoDup_submseteq; [apply NoDup_uniq|]. intros x. apply elem_of_uniq_1. Qed.

Lemma normalizedStringList_ok v key l :
  normalizedStringList v key = Ok l → normalizedStringList (strings l) key = Ok l.
Proof.
  unfold normalizedStringList, strings. destruct v as [| | | |vs|]; try done.
  destruct (128 <? length vs) eqn:Hn; [done|]. apply Nat.ltb_ge in Hn. intros H. inv_ok.
  rename a into ws. match goal with H : mapR _ _ = _ |- _ => apply mapR_ok in H; rename H into Hm end.
  set (k := sort_str (uniq ws)).
  assert (Forall (λ s, normalizedEntry key (JStr s) = Ok s) k) as Hl.
  { apply Forall_forall. intros s Hs. unfold k in Hs.
    rewrite elem_of_sort_str, elem_of_uniq in Hs.
    apply list_elem_of_lookup in Hs as [i Hi]. destruct (Forall2_lookup_r _ _ _ _ _ Hm Hi) as (v & _ & Hv).
    by apply normalizedEntry_ok in Hv as [? _]. }
  assert (length k <= 128) as Hlen.
  { unfold k. rewrite (Permutation_length (sort_str_perm _)). pose proof (uniq_length ws).
    apply Forall2_length in Hm. lia. }
  rewrite length_map. assert ((128 <? length k) = false) as -> by (apply Nat.ltb_ge; lia).
  assert (mapR (normalizedEntry key) (map JStr k) = Ok k) as ->.
  { apply mapR_ok. clear Hlen. induction Hl; simpl; by constructor. }
  simpl. f_equal. rewrite uniq_id by (apply NoDup_sort_str, NoDup_uniq).
  apply sort_str_id, sort_str_sorted.
Qed.

Definition budget_entries (depth : nat) : list (string * json) → res (list (string * json)) :=
  mapR (λ kv, if negb (budget_key_ok kv.1)
              then Throw (BadRequestException "budget contains an invalid key")
              else c ← normalizedBudget kv.2 depth; Ok (kv.1, c)).

Lemma normalizedBudget_obj m depth :
  normalizedBudget (JObj m) depth =
  if (4 <=? depth) then Throw (BadRequestException "budget must contain bounded numeric limits")
  else if (32 <? length m) then Throw (BadRequestException "budget has too many dimensions")
  else out ← budget_entries (S depth) m; Ok (JObj out).
Proof.
  cbn [normalizedBudget]. destruct (4 <=? depth); [done|]. destruct (32 <? length m); [done|].
  match goal with |- (?x ≫= _) = (?y ≫= _) => assert (x = y) as ->; [|done] end.
  induction m as [|[k v] m IH]; [done|]. unfold budget_entries. cbn [mapR fst snd].
  destruct (negb (budget_key_ok k)); [done|]. destruct (normalizedBudget v (S depth)); [|done].
  simpl. by rewrite IH.
Qed.

Lemma normalizedBudget_ok v depth b' :
  normalizedBudget v depth = Ok b' → normalizedBudget b' depth = Ok b'.
Proof.
  revert depth b'. induction v as [| |q| | |m IH] using json_ind'; intros depth b'; try done.
  - cbn [normalizedBudget]. destruct (Qle_bool 0 q) eqn:E; [|done]. intros [= <-].
    cbn [normalizedBudget]. by rewrite E.
  - rewrite normalizedBudget_obj. destruct (4 <=? depth) eqn:Hd; [done|].
    destruct (32 <? length m) eqn:Hn; [done|].
    intros H. inv_ok. rename a into out. rewrite normalizedBudget_obj, Hd.
    match goal with H : budget_entries _ m = Ok out |- _ => apply mapR_ok in H; rename H into Hm end.
    rewrite <-(Forall2_length _ _ _ Hm), Hn.
    assert (budget_entries (S depth) out = Ok out) as ->; [|done].
    apply mapR_ok. clear Hn. induction Hm as [|[k v] [k' c] m out Hkv _ IHm]; [constructor|].
    apply Forall_cons in IH as [Hv IH]. constructor; [|by apply IHm]. cbn [fst snd] in *.
    destruct (negb (budget_key_ok k)) eqn:Hk; [done|]. inv_ok. rewrite Hk.
    erewrite Hv by done. done.
Qed.

#[local] Arguments normalizedStringList : simpl never.
#[local] Arguments normalizedBudget : simpl never.

(** The components of a normalised policy are fixed points of normalisation. *)
Definition policy_fixed (p : Policy) : Prop :=
  (∀ l, modelAllow p = Some l → normalizedStringList (strings l) "modelAllow" = Ok l) ∧
  (∀ l, modelDeny p = Some l → normalizedStringList (strings l) "modelDeny" = Ok l) ∧
  (∀ l, toolDeny p = Some l → normalizedStringList (strings l) "toolDeny" = Ok l) ∧
  (∀ b, budget p = Some b → normalizedBudget b 0 = Ok b).

Lemma member_ok {A} input key (f : json → res A) o :
  member input key f = Ok o → ∀ x, o = Some x → ∃ v, assoc key input = Some v ∧ f v = Ok x.
Proof.
  unfold member. destruct (assoc key input) as [v|].
  - destruct (f v) as [y|e] eqn:Hf; simpl; [|done]. intros [= <-] x [= <-]. eauto.
  - by intros [= <-].
Qed.

Lemma normalizePolicy_fixed value p : normalizePolicy value = Ok p → policy_fixed p.
Proof.
  destruct value as [| | | | |input]; try done. cbn [normalizePolicy].
  destruct (filter _ _); [|done]. intros H. inv_ok. unfold policy_fixed. simpl.
  repeat match goal with H : member _ _ _ = Ok _ |- _ => pose proof (member_ok _ _ _ _ H); clear H end.
  split_and!; intros x Hx;
    match goal with H : ∀ x, ?o = Some x → _, Hx : ?o = Some _ |- _ =>
      destruct (H _ Hx) as (v & _ & Hv) end;
    [by eapply normalizedStringList_ok..|by eapply normalizedBudget_ok].
Qed.

Lemma normalize_fixed p : policy_fixed p → normalizePolicy (policy_json p) = Ok p.
Proof.
  destruct p as [allow deny tools approval personal b]. unfold policy_fixed. simpl. intros (Ha & Hd & Ht & Hb).
  unfold policy_json, normalizePolicy, member. simpl.
  destruct deny as [deny|]; [specialize (Hd _ eq_refl)|clear Hd];
    (destruct allow as [allow|]; [specialize (Ha _ eq_refl)|clear Ha]);
    (destruct tools as [tools|]; [specialize (Ht _ eq_refl)|clear Ht]);
    destruct approval;
    destruct personal as [personal|];
    (destruct b as [b|]; [specialize (Hb _ eq_refl)|clear Hb]);
    cbn [opt_member app map fst assoc String.eqb Ascii.eqb Bool.eqb];
    match goal with |- context [filter ?P ?l] =>
      change (filter P l) with (@nil string) end; cbn [boolean fmap res_fmap mbind res_bind];
    rewrite ?Hd; cbn [fmap res_fmap mbind res_bind]; rewrite ?Ha; cbn [fmap res_fmap mbind res_bind];
    rewrite ?Ht; cbn [fmap res_fmap mbind res_bind]; rewrite ?Hb; reflexivity.
Qed.

(** A policy that passed normalisation is stored in a form that normalises to itself: re-reading
    an organization, team or assignment policy never changes or rejects what an administrator saved. *)
Theorem policy_stored_roundtrip value p :
  normalizePolicy value = Ok p → normalizePolicy (policy_json p) = Ok p.
Proof. intros H. apply normalize_fixed. by eapply normalizePolicy_fixed. Qed.

(** * Witnesses *)

Definition org_layer : json :=
  JObj [("modelAllow", JArr [JStr "b"; JStr " a "]); ("budget", JObj [("daily", JNum (5 # 1))])].
Definition team_layer : json :=
  JObj [("modelDeny", JArr [JStr "a"]); ("allowPersonalModelConnections", JBool true);
        ("budget", JObj [("daily", JNum (9 # 1)); ("weekly", JNum (20 # 1))])].

Lemma mergePolicy_permits_witness :
  ∃ p, mergePolicy [org_layer; JNull; team_layer] = Ok p ∧
  ∃ ps, layers_of [org_layer; JNull; team_layer] ps ∧
    (∀ m, permits_model p m ↔ Forall (λ q, permits_model q m) ps).
Proof.
  eexists. split; [vm_compute; reflexivity|].
  destruct (mergePolicy_permits [org_layer; JNull; team_layer] _ eq_refl) as (ps & Hps & Hm & _).
  exists ps. split; [exact Hps|exact Hm].
Defined.

Lemma mergePolicy_budget_tightens_witness :
  ∃ pu p, mergePolicy [org_layer] = Ok pu ∧ mergePolicy ([org_layer] ++ [team_layer]) = Ok p ∧
  limit_of pu ["daily"] = Some (5 # 1)%Q ∧
  ∃ c' qs, limit_of p ["daily"] = Some c' ∧ (c' <= 5 # 1)%Q ∧ layers_of [team_layer] qs ∧
    Forall (λ q, ∀ n, limit_of q ["daily"] = Some n → (c' <= n)%Q) qs.
Proof.
  eexists _, _. split; [vm_compute; reflexivity|]. split; [vm_compute; reflexivity|].
  split; [vm_compute; reflexivity|].
  exact (mergePolicy_budget_tightens [org_layer] [team_layer] _ _ ["daily"] (5 # 1) eq_refl eq_refl eq_refl).
Defined.

Lemma policy_stored_roundtrip_witness :
  ∃ p, normalizePolicy team_layer = Ok p ∧ normalizePolicy (policy_json p) = Ok p.
Proof.
  eexists. split; [vm_compute; reflexivity|]. exact (policy_stored_roundtrip team_layer _ eq_refl).
Defined.
