(* ===== verification/Roles.v ===== *)
(** Digital employees ([src/roles/roles.service.ts], lines 154-547): role templates, persons, teams,
    assignments, policies at every level, and the resolver that computes the role bundle of a device.
    Relations of included rows are joined by id; ids are UUIDs, on which [localeCompare] is code-unit
    order. Generated ids and the time are arguments. *)
From S2P Require Import Prelude Js Table AuditStore ModelPolicy Policy Access.
Local Open Scope nat_scope.

(** * Data *)

Record Role := {
  r_id : string; r_org : string; r_key : string; r_description : string; r_owns : list string;
  r_rejects : list string; r_model : option string; r_reasoningEffort : option string;
  r_allowTools : list string; r_denyTools : list string; r_system : string; r_version : Z;
  r_archivedAt : option Z }.
Record Person := { p_id : string; p_org : string; p_email : string; p_name : string }.
Record Team := { t_id : string; t_org : string; t_name : string; t_policy : json }.
Record PersonTeam := { pt_org : string; pt_person : string; pt_team : string }.
Record DigitalEmployee := {
  de_id : string; de_org : string; de_role : string; de_person : option string;
  de_team : option string; de_name : string; de_status : string; de_policy : json }.
Record OrgRow := { o_id : string; o_policy : json }.
Record DeviceRow := { d_id : string; d_org : string; d_person : option string }.
Record TokenRow := { k_hash : string; k_device : string; k_token : Token.ValidatableToken }.

Record DB := {
  orgs : list OrgRow; roles : list Role; persons : list Person; teams : list Team;
  personTeams : list PersonTeam; assignments : list DigitalEmployee; devices : list DeviceRow;
  tokens : list TokenRow; audits : list AuditEvent }.

#[export] Instance Role_eq_dec : EqDecision Role.
Proof. solve_decision. Defined.

Definition set_orgs (v : list OrgRow) (db : DB) : DB :=
  {| orgs := v; roles := roles db; persons := persons db; teams := teams db;
     personTeams := personTeams db; assignments := assignments db; devices := devices db;
     tokens := tokens db; audits := audits db |}.
Definition set_roles (v : list Role) (db : DB) : DB :=
  {| orgs := orgs db; roles := v; persons := persons db; teams := teams db;
     personTeams := personTeams db; assignments := assignments db; devices := devices db;
     tokens := tokens db; audits := audits db |}.
Definition set_persons (v : list Person) (db : DB) : DB :=
  {| orgs := orgs db; roles := roles db; persons := v; teams := teams db;
     personTeams := personTeams db; assignments := assignments db; devices := devices db;
     tokens := tokens db; audits := audits db |}.
Definition set_teams (v : list Team) (db : DB) : DB :=
  {| orgs := orgs db; roles := roles db; persons := persons db; teams := v;
     personTeams := personTeams db; assignments := assignments db; devices := devices db;
     tokens := tokens db; audits := audits db |}.
Definition set_personTeams (v : list PersonTeam) (db : DB) : DB :=
  {| orgs := orgs db; roles := roles db; persons := persons db; teams := teams db;
     personTeams := v; assignments := assignments db; devices := devices db;
     tokens := tokens db; audits := audits db |}.
Definition set_assignments (v : list DigitalEmployee) (db : DB) : DB :=
  {| orgs := orgs db; roles := roles db; persons := persons db; teams := teams db;
     personTeams := personTeams db; assignments := v; devices := devices db;
     tokens := tokens db; audits := audits db |}.

#[export] Instance roles_audit : AuditStore DB := {
  trail := audits;
  record_event ev db :=
    {| orgs := orgs db; roles := roles db; persons := persons db; teams := teams db;
       personTeams := personTeams db; assignments := assignments db; devices := devices db;
       tokens := tokens db; audits := audits db ++ [ev] |};
  trail_record ev db := eq_refl }.

Record RoleInput := {
  i_key : string; i_description : option string; i_owns : option (list string);
  i_rejects : option (list string); i_model : option string; i_reasoningEffort : option string;
  i_allowTools : option (list string); i_denyTools : option (list string); i_system : option string }.

(** A field of a partial update: [None] is [undefined], [Some None] an explicit null. *)
Record RoleUpdate := {
  u_description : option string; u_owns : option (list string); u_rejects : option (list string);
  u_model : option (option string); u_reasoningEffort : option (option string);
  u_allowTools : option (list string); u_denyTools : option (list string); u_system : option string }.

(** * Validation *)

Definition normalizedRoleModel (e : env) (value : option string) : res (option string) :=
  let model := trim (nullish value "") in
  if negb (truthy model) then Ok None
  else match resolveEnrollmentModel (Some model) e with
       | Ok m => Ok (Some m)
       | Throw (Error m) => Throw (BadRequestException m)
       | Throw err => Throw err
       end.

Definition normalizedRoleReasoningEffort (value model : option string) : res (option string) :=
  let effort := trim (nullish value "") in
  if negb (truthy effort) then Ok None
  else match model with
       | Some m =>
           if negb (truthy m) then
             Throw (BadRequestException "an Agent reasoning effort requires an explicit Agent model")
           else if mem effort (managedModelThinkingEfforts m) then Ok (Some effort)
           else Throw (BadRequestException ("model '" +:+ m +:+ "' does not support Agent reasoning effort '"
                                            +:+ effort +:+ "'"))
       | None => Throw (BadRequestException "an Agent reasoning effort requires an explicit Agent model")
       end.

Definition actorType (actor : Guard.AuthedUser) : string :=
  if Guard.viaSharedKey actor then "shared-key" else "admin".

(** [audit.transact] on behalf of an administrator. *)
Definition audited_by {T} (action : string) (actor : Guard.AuthedUser)
    (mutation : M DB (T * string * payload_arg)) : M DB T :=
  audited action (actorType actor) (Guard.id actor) mutation.

Section roles.
Context (e : env) (license : option License.LicenseClaims) (nowSec nowMs : Z).

(** * Roles *)

(** [tx.role.create]: the foreign key, the primary key and the unique [(orgId, key)]. *)
Definition insert_role (r : Role) : M DB unit :=
  os ← gets orgs; rs ← gets roles;
  _ ← guard_throw (negb (isSome (find_by o_id (r_org r) os))) (PrismaError "P2003");
  _ ← guard_throw (existsb (λ r', String.eqb (r_id r') (r_id r)
        || String.eqb (r_org r') (r_org r) && String.eqb (r_key r') (r_key r)) rs)
        (PrismaError "P2002");
  modify (λ db, set_roles (roles db ++ [r]) db).

Definition createRole (rid : string) (orgId : string) (input : RoleInput) (actor : Guard.AuthedUser)
    : M DB Role :=
  _ ← lift (License.assert_feature e license nowSec "agent-org");
  model ← lift (normalizedRoleModel e (i_model input));
  effort ← lift (normalizedRoleReasoningEffort (i_reasoningEffort input) model);
  audited_by "role.create" actor (
    let role := {| r_id := rid; r_org := orgId; r_key := i_key input;
                   r_description := default "" (i_description input);
                   r_owns := default [] (i_owns input); r_rejects := default [] (i_rejects input);
                   r_model := model; r_reasoningEffort := effort;
                   r_allowTools := default [] (i_allowTools input);
                   r_denyTools := default [] (i_denyTools input);
                   r_system := default "" (i_system input); r_version := 1; r_archivedAt := None |} in
    _ ← insert_role role;
    mret (role, orgId, [("resourceId", some_str (r_id role)); ("key", some_str (r_key role))])).

Definition listRoles (db : DB) (orgId : string) : list Role :=
  merge_sort (λ a b, String.le (r_key a) (r_key b))
    (filter (λ r, r_org r = orgId ∧ r_archivedAt r = None) (roles db)).

(** The row [role.update] writes. *)
Definition updated_role (input : RoleUpdate) (model effort : option string) (r : Role) : Role :=
  {| r_id := r_id r; r_org := r_org r; r_key := r_key r;
     r_description := default (r_description r) (u_description input);
     r_owns := default (r_owns r) (u_owns input);
     r_rejects := default (r_rejects r) (u_rejects input);
     r_model := if isSome (u_model input) then model else r_model r;
     r_reasoningEffort := if isSome (u_model input) || isSome (u_reasoningEffort input)
                          then effort else r_reasoningEffort r;
     r_allowTools := default (r_allowTools r) (u_allowTools input);
     r_denyTools := default (r_denyTools r) (u_denyTools input);
     r_system := default (r_system r) (u_system input);
     r_version := r_version r + 1; r_archivedAt := r_archivedAt r |}.

Definition updateRole (id : string) (input : RoleUpdate) (actor : Guard.AuthedUser) : M DB Role :=
  audited_by "role.update" actor (
    rs ← gets roles;
    current ← require (find_by r_id id rs) (NotFoundException "role not found");
    model ← lift (match u_model input with
                  | Some v => normalizedRoleModel e v
                  | None => Ok (r_model current)
                  end);
    effort ← lift (normalizedRoleReasoningEffort
                     (default (r_reasoningEffort current) (u_reasoningEffort input)) model);
    let role := updated_role input model effort current in
    _ ← modify (λ db, set_roles (update_by r_id id (updated_role input model effort) (roles db)) db);
    mret (role, r_org role,
          [("resourceId", some_str (r_id role)); ("version", Some (JNum (inject_Z (r_version role))))])).

Definition archive_row (r : Role) : Role :=
  {| r_id := r_id r; r_org := r_org r; r_key := r_key r; r_description := r_description r;
     r_owns := r_owns r; r_rejects := r_rejects r; r_model := r_model r;
     r_reasoningEffort := r_reasoningEffort r; r_allowTools := r_allowTools r;
     r_denyTools := r_denyTools r; r_system := r_system r; r_version := r_version r;
     r_archivedAt := Some nowMs |}.
Definition archiveRole (id : string) (actor : Guard.AuthedUser) : M DB unit :=
  audited_by "role.archive" actor (
    rs ← gets roles;
    role ← require (find_by r_id id rs) (PrismaError "P2025");
    _ ← modify (λ db, set_roles (update_by r_id id archive_row (roles db)) db);
    mret (tt, r_org role, [("resourceId", some_str (r_id role))])).

(** * Persons and teams *)

Definition createPerson (pid orgId email : string) (name : option string) (actor : Guard.AuthedUser)
    : M DB Person :=
  audited_by "person.create" actor (
    os ← gets orgs; ps ← gets persons;
    _ ← guard_throw (negb (isSome (find_by o_id orgId os))) (PrismaError "P2003");
    _ ← guard_throw (existsb (λ p, String.eqb (p_id p) pid
          || String.eqb (p_org p) orgId && String.eqb (p_email p) email) ps)
          (PrismaError "P2002");
    let person := {| p_id := pid; p_org := orgId; p_email := email; p_name := default "" name |} in
    _ ← modify (λ db, set_persons (persons db ++ [person]) db);
    mret (person, orgId, [("resourceId", some_str pid)])).

Definition createTeam (tid orgId name : string) (actor : Guard.AuthedUser) : M DB Team :=
  audited_by "team.create" actor (
    os ← gets orgs; ts ← gets teams;
    _ ← guard_throw (negb (isSome (find_by o_id orgId os))) (PrismaError "P2003");
    _ ← guard_throw (existsb (λ t, String.eqb (t_id t) tid
          || String.eqb (t_org t) orgId && String.eqb (t_name t) name) ts)
          (PrismaError "P2002");
    let team := {| t_id := tid; t_org := orgId; t_name := name; t_policy := JObj [] |} in
    _ ← modify (λ db, set_teams (teams db ++ [team]) db);
    mret (team, orgId, [("resourceId", some_str tid)])).

Definition addTeamMember (teamId personId : string) (actor : Guard.AuthedUser) : M DB unit :=
  audited_by "team.member.add" actor (
    ts ← gets teams; ps ← gets persons; pts ← gets personTeams;
    team ← require (find_by t_id teamId ts) (NotFoundException "team not found");
    person ← require (find_by p_id personId ps) (NotFoundException "person not found");
    _ ← guard_throw (negb (String.eqb (t_org team) (p_org person)))
          (BadRequestException "person and team must belong to the same organization");
    _ ← when (negb (existsb (λ m, String.eqb (pt_person m) personId && String.eqb (pt_team m) teamId) pts))
          (modify (λ db, set_personTeams (personTeams db ++
             [{| pt_org := t_org team; pt_person := personId; pt_team := teamId |}]) db));
    mret (tt, t_org team, [("resourceId", some_str teamId); ("personId", some_str personId)])).

Definition set_team_policy (p : json) (t : Team) : Team :=
  {| t_id := t_id t; t_org := t_org t; t_name := t_name t; t_policy := p |}.
Definition setTeamPolicy (teamId : string) (policy : json) (actor : Guard.AuthedUser) : M DB unit :=
  normalized ← lift (normalizePolicy policy);
  audited_by "team.policy" actor (
    ts ← gets teams;
    team ← require (find_by t_id teamId ts) (PrismaError "P2025");
    _ ← modify (λ db, set_teams (update_by t_id teamId (set_team_policy (policy_json normalized)) (teams db)) db);
    mret (tt, t_org team, [("resourceId", some_str teamId)])).

(** * Assignments *)

(** [id ? tx.x.findUnique({ where: { id } }) : null]; an empty id is falsy. *)
Definition optional_ref {A} (key : A → string) (l : list A) (i : option string) : option A :=
  match i with Some j => if truthy j then find_by key j l else None | None => None end.
Definition given (i : option string) : bool := match i with Some j => truthy j | None => false end.
Definition other_org {A} (org_of : A → string) (o : option A) (org : string) : bool :=
  match o with Some a => negb (String.eqb (org_of a) org) | None => false end.

Definition createAssignment (did orgId roleId : string) (personId teamId name : option string)
    (actor : Guard.AuthedUser) : M DB DigitalEmployee :=
  _ ← guard_throw (negb (given personId) && negb (given teamId))
        (BadRequestException "assignment requires a personId or teamId");
  audited_by "assignment.create" actor (
    rs ← gets roles; ps ← gets persons; ts ← gets teams;
    let person := optional_ref p_id ps personId in
    let team := optional_ref t_id ts teamId in
    role ← require (find_by r_id roleId rs) (NotFoundException "role not found");
    _ ← guard_throw (given personId && negb (isSome person)) (NotFoundException "person not found");
    _ ← guard_throw (given teamId && negb (isSome team)) (NotFoundException "team not found");
    _ ← guard_throw (negb (String.eqb (r_org role) orgId) || other_org p_org person orgId
                     || other_org t_org team orgId)
          (BadRequestException "role, person, team, and assignment must belong to the same organization");
    (* the foreign keys of the row: an empty id names no row *)
    _ ← guard_throw (isSome personId && negb (given personId) || isSome teamId && negb (given teamId))
          (PrismaError "P2003");
    let de := {| de_id := did; de_org := orgId; de_role := roleId; de_person := personId;
                 de_team := teamId; de_name := default "" name; de_status := "active";
                 de_policy := JObj [] |} in
    _ ← modify (λ db, set_assignments (assignments db ++ [de]) db);
    mret (de, orgId, [("resourceId", some_str did); ("roleId", some_str roleId);
                      ("personId", opt_str personId); ("teamId", opt_str teamId)])).

Definition deleteAssignment (id : string) (actor : Guard.AuthedUser) : M DB unit :=
  audited_by "assignment.delete" actor (
    des ← gets assignments;
    de ← require (find_by de_id id des) (PrismaError "P2025");
    _ ← modify (λ db, set_assignments (delete_by de_id id (assignments db)) db);
    mret (tt, de_org de, [("resourceId", some_str id)])).

Definition updated_assignment (status : option string) (policy : option Policy) (de : DigitalEmployee)
    : DigitalEmployee :=
  {| de_id := de_id de; de_org := de_org de; de_role := de_role de; de_person := de_person de;
     de_team := de_team de; de_name := de_name de;
     de_status := match status with Some s => or_default s (de_status de) | None => de_status de end;
     de_policy := match policy with Some p => policy_json p | None => de_policy de end |}.
Definition updateAssignment (id : string) (status : option string) (policy : option json)
    (actor : Guard.AuthedUser) : M DB DigitalEmployee :=
  normalized ← lift (match policy with Some p => Some <$> normalizePolicy p | None => Ok None end);
  audited_by "assignment.update" actor (
    des ← gets assignments;
    de ← require (find_by de_id id des) (PrismaError "P2025");
    let de' := updated_assignment status normalized de in
    _ ← modify (λ db, set_assignments (update_by de_id id (updated_assignment status normalized) (assignments db)) db);
    mret (de', de_org de', [("resourceId", some_str id); ("status", some_str (de_status de'))])).

Definition setOrgPolicy (orgId : string) (policy : json) (actor : Guard.AuthedUser) : M DB unit :=
  normalized ← lift (normalizePolicy policy);
  audited_by "org.policy" actor (
    os ← gets orgs;
    org ← require (find_by o_id orgId os) (PrismaError "P2025");
    _ ← modify (λ db, set_orgs (update_by o_id orgId
          (λ o, {| o_id := o_id o; o_policy := policy_json normalized |}) (orgs db)) db);
    mret (tt, orgId, [("resourceId", some_str orgId)])).

(** * The device's role bundle *)

Record BundleRole := {
  b_name : string; b_description : string; b_owns : list string; b_rejects : list string;
  b_model : option string; b_reasoning_effort : option string; b_allow_tools : list string;
  b_deny_tools : list string; b_system : string }.
Record Bundle := { version : option Z; org_policy : Policy; bundle_roles : list BundleRole }.

Definition bundle_role (r : Role) : BundleRole :=
  {| b_name := r_key r; b_description := r_description r; b_owns := r_owns r; b_rejects := r_rejects r;
     b_model := r_model r; b_reasoning_effort := r_reasoningEffort r; b_allow_tools := r_allowTools r;
     b_deny_tools := r_denyTools r; b_system := r_system r |}.

(** [policy ?? {}] *)
Definition policy_or_empty (p : json) : json := match p with JNull => JObj [] | _ => p end.

Context (sha256 : string → string).

Definition bundle_version (policy : Policy) (rs : list Role) : option Z :=
  parse_digits 16 0 (take 8 (chars (sha256 (JSON_stringify (JObj
    [("policy", policy_json policy);
     ("roles", JArr (map (λ r, JObj [("id", JStr (r_id r)); ("version", JNum (inject_Z (r_version r)))]) rs))]))))).

(** An assignment with its included role. *)
Definition with_role (db : DB) (de : DigitalEmployee) : res (DigitalEmployee * Role) :=
  match find_by r_id (de_role de) (roles db) with
  | Some r => Ok (de, r)
  | None => Throw (Error "Inconsistent query result")
  end.
Definition bad_binding (db : DB) (org : string) (a : DigitalEmployee * Role) : bool :=
  negb (String.eqb (r_org a.2) org)
  || other_org p_org (optional_ref p_id (persons db) (de_person a.1)) org
  || other_org t_org (optional_ref t_id (teams db) (de_team a.1)) org.

Definition team_ids (db : DB) (personId : string) : list string :=
  map pt_team (filter (λ m, pt_person m = personId) (personTeams db)).
Definition granted (db : DB) (org personId : string) : list DigitalEmployee :=
  filter (λ de, de_org de = org ∧ de_status de = "active" ∧
                (de_person de = Some personId ∨ Exists (λ t, de_team de = Some t) (team_ids db personId)))
    (assignments db).
Definition teams_of (db : DB) (org personId : string) : list Team :=
  filter (λ t, t_id t ∈ team_ids db personId ∧ t_org t = org) (teams db).

Definition resolveBundleForDevice (db : DB) (deviceId : string) : res Bundle :=
  match find_by d_id deviceId (devices db) with
  | None => Throw (NotFoundException "device not found")
  | Some device =>
      match find_by o_id (d_org device) (orgs db) with
      | None => Throw (Error "Inconsistent query result")
      | Some org =>
          let orgPolicy := policy_or_empty (o_policy org) in
          match (if given (d_person device) then optional_ref p_id (persons db) (d_person device) else None) with
          | None =>
              policy ← mergePolicy [orgPolicy];
              Ok {| version := Some 0%Z; org_policy := policy; bundle_roles := [] |}
          | Some person =>
              if negb (String.eqb (p_org person) (d_org device))
              then Throw (UnauthorizedException "device organization binding is invalid")
              else
                let teamIds := team_ids db (p_id person) in
                assigned ← mapR (with_role db) (granted db (d_org device) (p_id person));
                let ts := teams_of db (d_org device) (p_id person) in
                if negb (length ts =? length (uniq teamIds))
                then Throw (UnauthorizedException "team organization binding is invalid")
                else if existsb (bad_binding db (d_org device)) assigned
                then Throw (UnauthorizedException "Agent assignment organization binding is invalid")
                else
                  let applicable := filter (λ a, r_archivedAt a.2 = None) assigned in
                  policy ← mergePolicy (orgPolicy :: map (λ t, policy_or_empty (t_policy t)) ts
                                        ++ map (λ a, policy_or_empty (de_policy a.1)) applicable);
                  let rs := merge_sort (λ a b, String.le (r_id a) (r_id b)) (uniq (map snd applicable)) in
                  Ok {| version := bundle_version policy rs; org_policy := policy;
                        bundle_roles := map bundle_role rs |}
          end
      end
  end.

(** The bearer path: token hash, token discipline, then the bundle of its device. *)
Definition bundleForBearer (db : DB) (bearer : option string) : res Bundle :=
  match bearer with
  | Some b =>
      if negb (truthy b) then Throw (UnauthorizedException "missing token")
      else
        let dt := find_by k_hash (sha256 b) (tokens db) in
        _ ← Token.assertTokenUsable (k_token <$> dt) nowMs e None;
        match dt with
        | Some t => resolveBundleForDevice db (k_device t)
        | None => Throw (UnauthorizedException "revoked or unknown token")
        end
  | None => Throw (UnauthorizedException "missing token")
  end.

(** * Tenant consistency *)

(** A reference to a row of the given organization. *)
Definition ref_in {A} (key org_of : A → string) (l : list A) (i org : string) : Prop :=
  ∃ x, find_by key i l = Some x ∧ org_of x = org.
Definition opt_ref_in {A} (key org_of : A → string) (l : list A) (o : option string) (org : string) : Prop :=
  ∀ i, o = Some i → i ≠ "" ∧ ref_in key org_of l i org.
Definition policy_valid (p : json) : Prop := is_ok (normalizePolicy (policy_or_empty p)) = true.

Record consistent (db : DB) : Prop := {
  c_team_ids : NoDup (map t_id (teams db));
  c_members : Forall (λ m, ref_in p_id p_org (persons db) (pt_person m) (pt_org m) ∧
                           ref_in t_id t_org (teams db) (pt_team m) (pt_org m)) (personTeams db);
  c_assignments : Forall (λ de, ref_in r_id r_org (roles db) (de_role de) (de_org de) ∧
                                opt_ref_in p_id p_org (persons db) (de_person de) (de_org de) ∧
                                opt_ref_in t_id t_org (teams db) (de_team de) (de_org de)) (assignments db);
  c_org_policies : Forall (λ o, policy_valid (o_policy o)) (orgs db);
  c_team_policies : Forall (λ t, policy_valid (t_policy t)) (teams db);
  c_assignment_policies : Forall (λ de, policy_valid (de_policy de)) (assignments db) }.

Lemma ref_in_app {A} (key org_of : A → string) l k i org :
  ref_in key org_of l i org → ref_in key org_of (l ++ k) i org.
Proof. intros (x & Hx & Ho). exists x. split; [|done]. by rewrite find_by_app, Hx. Qed.
Lemma ref_in_update {A} (key org_of : A → string) l i org j f :
  (∀ x, key (f x) = key x) → (∀ x, x ∈ l → key x = j → org_of (f x) = org_of x) →
  ref_in key org_of l i org → ref_in key org_of (update_by key j f l) i org.
Proof.
  intros Hk Ho (x & Hx & Hox). unfold ref_in. rewrite find_by_update by done.
  apply find_by_Some in Hx as Hx'. destruct Hx' as [Hkx Hin].
  case_decide as Hij; [|by exists x]. subst j. rewrite Hx. exists (f x). split; [done|].
  rewrite Ho by done. done.
Qed.
Lemma opt_ref_in_mono {A} (key org_of : A → string) l l' o org :
  (∀ i, ref_in key org_of l i org → ref_in key org_of l' i org) →
  opt_ref_in key org_of l o org → opt_ref_in key org_of l' o org.
Proof. intros H Ho i Hi. destruct (Ho i Hi). auto. Qed.

Lemma policy_valid_json p : policy_valid (policy_json p) ↔ is_ok (normalizePolicy (policy_json p)) = true.
Proof. done. Qed.
Lemma policy_valid_normalized v p : normalizePolicy v = Ok p → policy_valid (policy_json p).
Proof. intros H. apply policy_valid_json. by rewrite (normalize_fixed p (normalizePolicy_fixed _ _ H)). Qed.
Lemma policy_valid_empty : policy_valid (JObj []).
Proof. done. Qed.

(** The tables a consistency proof may weaken to. *)
Lemma consistent_mono db db' :
  consistent db → NoDup (map t_id (teams db')) → personTeams db' = personTeams db →
  assignments db' = assignments db →
  (∀ i org, ref_in r_id r_org (roles db) i org → ref_in r_id r_org (roles db') i org) →
  (∀ i org, ref_in p_id p_org (persons db) i org → ref_in p_id p_org (persons db') i org) →
  (∀ i org, ref_in t_id t_org (teams db) i org → ref_in t_id t_org (teams db') i org) →
  Forall (λ o, policy_valid (o_policy o)) (orgs db') → Forall (λ t, policy_valid (t_policy t)) (teams db') →
  consistent db'.
Proof.
  intros [Hnd Hm Ha Ho Ht Hp] Hnd' Hpt Has Hr Hpe Hte Ho' Ht'. split; try done; rewrite ?Hpt, ?Has; [..|done].
  - eapply Forall_impl; [exact Hm|]. intros m [? ?]. auto.
  - eapply Forall_impl; [exact Ha|]. intros de (H1 & H2 & H3). split_and!; [by apply Hr|..].
    + eapply opt_ref_in_mono; [intros i; apply Hpe|done].
    + eapply opt_ref_in_mono; [intros i; apply Hte|done].
Qed.

Lemma consistent_record ev db : consistent db → consistent (record_event ev db).
Proof. intros [? ? ? ? ? ?]. by split. Qed.

(** * The requests of the service *)

Inductive request :=
  | ReqCreateRole (rid orgId : string) (input : RoleInput)
  | ReqUpdateRole (id : string) (input : RoleUpdate)
  | ReqArchiveRole (id : string)
  | ReqCreatePerson (pid orgId email : string) (name : option string)
  | ReqCreateTeam (tid orgId name : string)
  | ReqAddTeamMember (teamId personId : string)
  | ReqSetTeamPolicy (teamId : string) (policy : json)
  | ReqCreateAssignment (did orgId roleId : string) (personId teamId name : option string)
  | ReqDeleteAssignment (id : string)
  | ReqUpdateAssignment (id : string) (status : option string) (policy : option json)
  | ReqSetOrgPolicy (orgId : string) (policy : json).

Definition void {T} (m : M DB T) : M DB unit := _ ← m; mret tt.
Definition handle (actor : Guard.AuthedUser) (r : request) : M DB unit :=
  match r with
  | ReqCreateRole rid org input => void (createRole rid org input actor)
  | ReqUpdateRole i input => void (updateRole i input actor)
  | ReqArchiveRole i => archiveRole i actor
  | ReqCreatePerson pid org email name => void (createPerson pid org email name actor)
  | ReqCreateTeam tid org name => void (createTeam tid org name actor)
  | ReqAddTeamMember tid pid => addTeamMember tid pid actor
  | ReqSetTeamPolicy tid policy => setTeamPolicy tid policy actor
  | ReqCreateAssignment did org rid pid tid name => void (createAssignment did org rid pid tid name actor)
  | ReqDeleteAssignment i => deleteAssignment i actor
  | ReqUpdateAssignment i status policy => void (updateAssignment i status policy actor)
  | ReqSetOrgPolicy org policy => setOrgPolicy org policy actor
  end.

(** [P] survives the computation, whether it returns or throws. *)
Definition preserves {S A} (P : S → Prop) (m : M S A) : Prop := ∀ s r s', m s = (r, s') → P s → P s'.

Lemma preserves_audited {T} action actor (m : M DB (T * string * payload_arg)) :
  (∀ x db db', m db = (Ok x, db') → consistent db → consistent db') →
  preserves consistent (audited_by action actor m).
Proof.
  intros Hm db r db' Hrun. eapply audited_preserves; [intros ? ?; apply consistent_record| |exact Hrun].
  intros x d Hx Hc. eauto.
Qed.
Lemma preserves_void {T} (m : M DB T) : preserves consistent m → preserves consistent (void m).
Proof. intros Hm db r db'. unfold void, mbind, M_bind. destruct (m db) as [[x|e'] d] eqn:E; intros [= <- <-]; eauto. Qed.
Lemma preserves_lift {A T} (x : res A) (m : A → M DB T) :
  (∀ a, x = Ok a → preserves consistent (m a)) → preserves consistent (a ← lift x; m a).
Proof.
  intros Hm db r db'. unfold mbind, M_bind, lift. destruct x as [a|e'].
  - intros H. by eapply Hm.
  - by intros [= <- <-].
Qed.
Lemma preserves_guard {T} b ex (m : unit → M DB T) :
  (b = false → preserves consistent (m tt)) → preserves consistent (a ← guard_throw b ex; m a).
Proof.
  intros Hm db r db'. unfold mbind, M_bind, guard_throw, raise, mret, M_ret. destruct b.
  - by intros [= <- <-].
  - intros H. by eapply Hm.
Qed.

Lemma insert_role_ok r db u db' :
  insert_role r db = (Ok u, db') → db' = set_roles (roles db ++ [r]) db.
Proof. intros H. unfold insert_role in H. inv_ok. done. Qed.

(** Proof of a request that only touches one table: run it, then weaken. *)
Ltac run_request := unfold gets, modify in *; inv_ok; simplify_eq; cbn [fst snd] in *.

Lemma createRole_consistent rid org input actor : preserves consistent (createRole rid org input actor).
Proof.
  unfold createRole. repeat (apply preserves_lift; intros ? _).
  apply preserves_audited. intros x db db' H Hc. inv_ok.
  match goal with H : insert_role _ _ = _ |- _ => apply insert_role_ok in H as -> end.
  eapply consistent_mono; try done; simpl; try apply Hc; auto using ref_in_app.
Qed.

Lemma updateRole_consistent i input actor : preserves consistent (updateRole i input actor).
Proof.
  unfold updateRole. apply preserves_audited. intros x db db' H Hc. run_request.
  eapply consistent_mono; try done; simpl; try apply Hc; auto.
  intros j org. by apply ref_in_update.
Qed.

Lemma archiveRole_consistent i actor : preserves consistent (archiveRole i actor).
Proof.
  unfold archiveRole. apply preserves_audited. intros x db db' H Hc. run_request.
  eapply consistent_mono; try done; simpl; try apply Hc; auto.
  intros j org. by apply ref_in_update.
Qed.

Lemma createPerson_consistent pid org em nm actor : preserves consistent (createPerson pid org em nm actor).
Proof.
  unfold createPerson. apply preserves_audited. intros x db db' H Hc. run_request.
  eapply consistent_mono; try done; simpl; try apply Hc; auto using ref_in_app.
Qed.

Lemma createTeam_consistent tid org nm actor : preserves consistent (createTeam tid org nm actor).
Proof.
  unfold createTeam. apply preserves_audited. intros x db db' H Hc. run_request.
  match goal with H : existsb _ _ = false |- _ => rename H into Hex end.
  eapply consistent_mono; try done; simpl; try apply Hc; auto using ref_in_app.
  - rewrite map_app. apply NoDup_app. split_and!; [apply Hc| |apply NoDup_singleton].
    intros y Hy ->%list_elem_of_singleton. apply list_elem_of_fmap in Hy as (t & Ht & Hin).
    apply not_true_iff_false in Hex. apply Hex, existsb_exists. exists t.
    split; [by apply list_elem_of_In|]. simpl in Ht. rewrite <-Ht. by rewrite String.eqb_refl.
  - apply Forall_snoc_intro; [apply Hc|apply policy_valid_empty].
Qed.

Lemma addTeamMember_consistent tid pid actor : preserves consistent (addTeamMember tid pid actor).
Proof.
  unfold addTeamMember. apply preserves_audited. intros x db db' H Hc. run_request. boolify.
  match goal with H : when ?b _ _ = _ |- _ => destruct b; unfold when in H; run_request end; [|done].
  destruct Hc as [Hnd Hm Ha Ho Ht Hp]. split; try done. simpl. apply Forall_snoc_intro; [done|].
  simpl. split; eexists; (split; [eassumption|]); congruence.
Qed.

Lemma setTeamPolicy_consistent tid p actor : preserves consistent (setTeamPolicy tid p actor).
Proof.
  unfold setTeamPolicy. apply preserves_lift. intros q Hq. apply preserves_audited.
  intros x db db' H Hc. run_request. apply policy_valid_normalized in Hq.
  eapply consistent_mono; try done; simpl; try apply Hc; auto.
  - rewrite update_by_keys by done. apply Hc.
  - intros j org. by apply ref_in_update.
  - apply Forall_update_by; [done|apply Hc].
Qed.

Lemma optional_ref_in {A} (key org_of : A → string) l o org :
  given o && negb (isSome (optional_ref key l o)) = false →
  other_org org_of (optional_ref key l o) org = false → isSome o && negb (given o) = false →
  opt_ref_in key org_of l o org.
Proof.
  intros Hg Ho He i ->. simpl in *. destruct (truthy i) eqn:Ht; [|done]. apply truthy_true in Ht.
  split; [done|]. destruct (find_by key i l) as [a|] eqn:Ha; [|done]. simpl in Ho.
  exists a. split; [done|]. by apply negb_false_iff, String.eqb_eq in Ho.
Qed.

Lemma createAssignment_consistent did org rid pid tid nm actor :
  preserves consistent (createAssignment did org rid pid tid nm actor).
Proof.
  unfold createAssignment. apply preserves_guard. intros _. apply preserves_audited.
  intros x db db' H Hc. run_request.
  repeat match goal with H : _ || _ = false |- _ => apply orb_false_iff in H as [? ?] end.
  match goal with H : negb (String.eqb (r_org _) _) = false |- _ =>
    apply negb_false_iff, String.eqb_eq in H end.
  destruct Hc as [Hnd Hm Ha Ho Ht Hp]. split; try done; simpl.
  - apply Forall_snoc_intro; [done|]. simpl. split; [by eexists|].
    split; by apply optional_ref_in.
  - apply Forall_snoc_intro; [done|apply policy_valid_empty].
Qed.

Lemma deleteAssignment_consistent i actor : preserves consistent (deleteAssignment i actor).
Proof.
  unfold deleteAssignment. apply preserves_audited. intros x db db' H Hc. run_request.
  destruct Hc as [Hnd Hm Ha Ho Ht Hp]. split; try done; simpl; by apply Forall_delete_by.
Qed.

Lemma updateAssignment_consistent i status p actor : preserves consistent (updateAssignment i status p actor).
Proof.
  unfold updateAssignment. apply preserves_lift. intros q Hq. apply preserves_audited.
  intros x db db' H Hc. run_request. destruct Hc as [Hnd Hm Ha Ho Ht Hp]. split; try done; simpl.
  - by apply Forall_update_by.
  - apply Forall_update_by; [|done]. intros de _ Hde. unfold updated_assignment. simpl.
    destruct p as [p|]; [|by injection Hq as <-].
    destruct (normalizePolicy p) as [n|] eqn:Hn; [|done]. injection Hq as <-.
    by eapply policy_valid_normalized.
Qed.

Lemma setOrgPolicy_consistent org p actor : preserves consistent (setOrgPolicy org p actor).
Proof.
  unfold setOrgPolicy. apply preserves_lift. intros q Hq. apply preserves_audited.
  intros x db db' H Hc. run_request. apply policy_valid_normalized in Hq.
  eapply consistent_mono; try done; simpl; try apply Hc; auto.
  apply Forall_update_by; [done|apply Hc].
Qed.

Lemma handle_consistent actor r : preserves consistent (handle actor r).
Proof.
  destruct r; cbn [handle]; try apply preserves_void.
  - apply createRole_consistent.
  - apply updateRole_consistent.
  - apply archiveRole_consistent.
  - apply createPerson_consistent.
  - apply createTeam_consistent.
  - apply addTeamMember_consistent.
  - apply setTeamPolicy_consistent.
  - apply createAssignment_consistent.
  - apply deleteAssignment_consistent.
  - apply updateAssignment_consistent.
  - apply setOrgPolicy_consistent.
Qed.

(** C30: Tenant consistency is an invariant of the service: in every state reached from a consistent
    one by any sequence of requests, successful or failing, each assignment's role, person and team
    and each membership's person and team exist in the row's own organization, team ids are unique,
    and every stored policy is well formed. *)
Theorem tenant_consistency requests db :
  consistent db →
  consistent (run_events (λ db '(actor, r), snd (handle actor r db)) db requests).
Proof.
  apply run_events_inv. intros d [actor r] Hc. destruct (handle actor r d) as [out d'] eqn:H. simpl.
  by eapply handle_consistent.
Qed.

(** * What a bundle contains *)

(** A grant whose role is not archived. *)
Definition live (db : DB) (de : DigitalEmployee) (r : Role) : Prop :=
  find_by r_id (de_role de) (roles db) = Some r ∧ r_archivedAt r = None.

(** The permission every policy that governs the person's device gives a model: the organization's,
    those of the person's teams and those of the live grants. *)
Definition permits_json (m : string) (raw : json) : Prop :=
  ∃ q, normalizePolicy (policy_or_empty raw) = Ok q ∧ permits_model q m.
(** A membership of the person, an active assignment granted to the person or to one of the person's
    teams. *)
Definition member_of (db : DB) (pid tid : string) : Prop :=
  ∃ m, m ∈ personTeams db ∧ pt_person m = pid ∧ pt_team m = tid.
Definition is_grant (db : DB) (org pid : string) (de : DigitalEmployee) : Prop :=
  de ∈ assignments db ∧ de_org de = org ∧ de_status de = "active" ∧
  (de_person de = Some pid ∨ ∃ tid, de_team de = Some tid ∧ member_of db pid tid).
Definition governed (db : DB) (org : OrgRow) (device : DeviceRow) (pid m : string) : Prop :=
  permits_json m (o_policy org) ∧
  (∀ t, t ∈ teams db → t_org t = d_org device → member_of db pid (t_id t) → permits_json m (t_policy t)) ∧
  (∀ de r, is_grant db (d_org device) pid de → live db de r → permits_json m (de_policy de)).

Lemma elem_of_team_ids db pid tid : tid ∈ team_ids db pid ↔ member_of db pid tid.
Proof.
  unfold team_ids, member_of. rewrite list_elem_of_fmap. split.
  - intros (m & -> & [? ?]%list_elem_of_filter). by exists m.
  - intros (m & ? & ? & <-). exists m. split; [done|]. by apply list_elem_of_filter.
Qed.
Lemma elem_of_granted db org pid de : de ∈ granted db org pid ↔ is_grant db org pid de.
Proof.
  unfold granted, is_grant. rewrite list_elem_of_filter, Exists_exists.
  setoid_rewrite elem_of_team_ids. naive_solver.
Qed.
Lemma elem_of_teams_of db org pid t :
  t ∈ teams_of db org pid ↔ t ∈ teams db ∧ t_org t = org ∧ member_of db pid (t_id t).
Proof. unfold teams_of. rewrite list_elem_of_filter, elem_of_team_ids. naive_solver. Qed.

Section bundle.
Context (db : DB) (device : DeviceRow) (person : Person).
Hypothesis Hc : consistent db.
Hypothesis Hperson : optional_ref p_id (persons db) (d_person device) = Some person.
Hypothesis Horg : p_org person = d_org device.

Lemma teams_complete : length (teams_of db (d_org device) (p_id person)) = length (uniq (team_ids db (p_id person))).
Proof.
  rewrite <-(length_map t_id). apply Permutation_length, NoDup_Permutation.
  - unfold teams_of. pose proof (c_team_ids db Hc) as Hnd. revert Hnd. generalize (teams db). intros l.
    induction l as [|t l IH]; [done|]. cbn [map]. intros [Ht Hnd]%NoDup_cons. rewrite filter_cons.
    case_decide; [|auto]. cbn [map]. constructor; [|auto]. intros Hin. apply Ht.
    apply list_elem_of_fmap in Hin as (t' & Heq & Hin). rewrite Heq. apply list_elem_of_fmap.
    exists t'. split; [done|]. by apply list_elem_of_filter in Hin as [_ ?].
  - apply NoDup_uniq.
  - intros i. rewrite elem_of_uniq. unfold teams_of. split.
    + intros (t & -> & [[? _] _]%list_elem_of_filter)%list_elem_of_fmap. done.
    + intros Hi. pose proof Hi as Hi'. unfold team_ids in Hi'.
      apply list_elem_of_fmap in Hi' as (m & -> & [Hm Hin]%list_elem_of_filter).
      pose proof (c_members db Hc) as Hmem. rewrite Forall_forall in Hmem.
      destruct (Hmem m Hin) as [(p & Hp & Hpo) (t & Ht & Hto)].
      assert (p = person) as ->.
      { rewrite Hm in Hp. unfold optional_ref in Hperson. destruct (d_person device) as [j|]; [|done].
        destruct (truthy j); [|done]. pose proof (find_by_Some _ _ _ _ Hperson) as [Hj _].
        rewrite <-Hj in Hperson. congruence. }
      apply find_by_Some in Ht as [Hti Htin]. apply list_elem_of_fmap. exists t. split; [done|].
      apply list_elem_of_filter. split; [|done]. split; [by rewrite Hti|congruence].
Qed.

Lemma granted_roles : ∃ assigned, mapR (with_role db) (granted db (d_org device) (p_id person)) = Ok assigned ∧
  (∀ de r, (de, r) ∈ assigned ↔ de ∈ granted db (d_org device) (p_id person) ∧ find_by r_id (de_role de) (roles db) = Some r) ∧
  existsb (bad_binding db (d_org device)) assigned = false.
Proof.
  pose proof (c_assignments db Hc) as Ha.
  assert (Forall (λ de, de ∈ assignments db ∧ de_org de = d_org device) (granted db (d_org device) (p_id person))) as Hg.
  { apply Forall_forall. intros de [(? & _) ?]%list_elem_of_filter. done. }
  revert Hg. generalize (granted db (d_org device) (p_id person)). intros l Hl.
  induction Hl as [|de l [Hin Ho] _ (assigned & Hm & Hel & Hbad)].
  { exists []. split; [done|]. split; [|done]. intros de r. rewrite !elem_of_nil. naive_solver. }
  rewrite Forall_forall in Ha. destruct (Ha de Hin) as ((r & Hr & Hro) & Hp & Ht).
  assert (with_role db de = Ok (de, r)) as Hw by (unfold with_role; by rewrite Hr).
  exists ((de, r) :: assigned). cbn [mapR]. rewrite Hw. cbn [mbind res_bind]. rewrite Hm. split; [done|].
  split.
  - intros de' r'. rewrite !elem_of_cons, Hel. split.
    + intros [[= -> ->]|[? ?]]; auto.
    + intros [[->|?] Hr']; [left; congruence|right; auto].
  - cbn [existsb]. rewrite Hbad, orb_false_r. unfold bad_binding. simpl. rewrite Hro, Ho, String.eqb_refl. simpl.
    assert (∀ {A} (key org_of : A → string) l o, opt_ref_in key org_of l o (de_org de) →
      other_org org_of (optional_ref key l o) (d_org device) = false) as Hother.
    { intros A key org_of k o Hr'. destruct o as [i|]; [|done]. destruct (Hr' i eq_refl) as [Hne (x & Hx & Hxo)].
      simpl. rewrite (proj2 (truthy_true i) Hne), Hx. simpl. rewrite Hxo, Ho, String.eqb_refl. done. }
    by rewrite !Hother.
Qed.
End bundle.

(** In a consistent state the bundle of a device bound to a person always resolves; its roles are
    exactly the unarchived roles of the active assignments granted to the person or to one of the
    person's teams in the device's own organization, and its policy permits a model if and only if
    the organization, every team of the person and every such assignment permit it. *)
Theorem bundle_is_the_grants db deviceId device org person :
  consistent db → find_by d_id deviceId (devices db) = Some device →
  find_by o_id (d_org device) (orgs db) = Some org →
  optional_ref p_id (persons db) (d_person device) = Some person → p_org person = d_org device →
  ∃ b, resolveBundleForDevice db deviceId = Ok b ∧
    (∀ br, br ∈ bundle_roles b ↔ ∃ de r, is_grant db (d_org device) (p_id person) de ∧ live db de r ∧
       br = bundle_role r) ∧
    (∀ m, permits_model (org_policy b) m ↔ governed db org device (p_id person) m).
Proof.
  intros Hc Hdev Horgrow Hperson Horg. unfold resolveBundleForDevice. rewrite Hdev, Horgrow.
  assert (given (d_person device) = true) as ->.
  { unfold optional_ref, given in *. destruct (d_person device) as [j|]; [|done]. by destruct (truthy j). }
  rewrite Hperson, Horg, String.eqb_refl. cbn [negb].
  destruct (granted_roles db device person Hc) as (assigned & Hassigned & Hel & Hbad).
  rewrite Hassigned. cbn [mbind res_bind].
  rewrite (teams_complete db device person Hc Hperson Horg), Nat.eqb_refl, Hbad. cbn [negb].
  set (live_grants := filter (λ a : DigitalEmployee * Role, r_archivedAt a.2 = None) assigned).
  set (layers := policy_or_empty (o_policy org) :: _).
  assert (Forall (λ raw, is_ok (normalizePolicy raw) = true) layers) as Hvalid.
  { destruct Hc as [_ _ _ Ho Ht Ha]. unfold layers. rewrite Forall_forall in Ho; rewrite Forall_forall in Ht; rewrite Forall_forall in Ha.
    constructor; [apply Ho; by apply find_by_Some in Horgrow as [_ ?]|]. apply Forall_app. split.
    - apply Forall_map, Forall_forall. intros t [_ Htin]%list_elem_of_filter. by apply Ht.
    - apply Forall_map, Forall_forall. intros [de r] [_ Hin]%list_elem_of_filter.
      apply Hel in Hin as [[_ Hin]%list_elem_of_filter _]. by apply Ha. }
  destruct (mergePolicy_total layers Hvalid) as [p Hp]. rewrite Hp. cbn [mbind res_bind].
  eexists. split; [done|]. split.
  - intros br. cbn [bundle_roles]. rewrite list_elem_of_fmap. setoid_rewrite merge_sort_Permutation.
    setoid_rewrite elem_of_uniq. setoid_rewrite list_elem_of_fmap.
    setoid_rewrite <-elem_of_granted. unfold live. split.
    + intros (r & -> & [de r'] & -> & [Harch Hin]%list_elem_of_filter). simpl in *.
      apply Hel in Hin as [? ?]. eauto 10.
    + intros (de & r & Hg & [Hr Harch] & ->). exists r. split; [done|]. exists (de, r). split; [done|].
      apply list_elem_of_filter. split; [done|]. by apply Hel.
  - intros m. cbn [org_policy]. destruct (mergePolicy_exact _ _ Hp) as (ps & Hps & Hm & _).
    rewrite Hm. trans (Forall (λ raw, ∃ q, normalizePolicy raw = Ok q ∧ permits_model q m) layers).
    + clear Hp Hm. unfold layers_of in Hps. rewrite filter_all in Hps.
      * clear Hvalid. induction Hps as [|raw q ls ps Hq _ IH]; [by split|].
        rewrite !Forall_cons, IH. split; [intros [? ?]; split; [by exists q|done]|].
        intros [(q' & Hq' & ?) ?]. split; [congruence|done].
      * eapply Forall_impl; [exact Hvalid|]. intros raw Hraw. simpl in Hraw.
        destruct (normalizePolicy raw) eqn:E; [|done]. by eapply normalize_not_falsy.
    + unfold layers, governed. rewrite Forall_cons, Forall_app, !Forall_map. unfold permits_json.
      setoid_rewrite <-elem_of_granted. rewrite !Forall_forall. split.
      * intros (H1 & H2 & H3). split_and!; [done|..].
        -- intros t ? ? ?. apply H2. by apply elem_of_teams_of.
        -- intros de r Hg [Hr Harch]. apply (H3 (de, r)). apply list_elem_of_filter. split; [done|].
           by apply Hel.
      * intros (H1 & H2 & H3). split_and!; [done|..].
        -- intros t (? & ? & ?)%elem_of_teams_of. auto.
        -- intros [de r] [Harch Hin]%list_elem_of_filter. apply Hel in Hin as [Hg Hr]. by apply (H3 de r).
Qed.
End roles.

(** * Witnesses *)

Definition demo_role (i key : string) (archived : option Z) : Role :=
  {| r_id := i; r_org := "o1"; r_key := key; r_description := ""; r_owns := []; r_rejects := [];
     r_model := None; r_reasoningEffort := None; r_allowTools := []; r_denyTools := []; r_system := "";
     r_version := 1; r_archivedAt := archived |}.
Definition demo_grant (i role : string) (person team : option string) : DigitalEmployee :=
  {| de_id := i; de_org := "o1"; de_role := role; de_person := person; de_team := team; de_name := "";
     de_status := "active"; de_policy := JObj [] |}.
Definition demo_device : DeviceRow := {| d_id := "d1"; d_org := "o1"; d_person := Some "p1" |}.
Definition demo_person : Person := {| p_id := "p1"; p_org := "o1"; p_email := "a@b"; p_name := "a" |}.
Definition demo_db : DB :=
  {| orgs := [{| o_id := "o1"; o_policy := org_layer |}];
     roles := [demo_role "r1" "dev" None; demo_role "r2" "old" (Some 5%Z)];
     persons := [demo_person];
     teams := [{| t_id := "t1"; t_org := "o1"; t_name := "core"; t_policy := team_layer |}];
     personTeams := [{| pt_org := "o1"; pt_person := "p1"; pt_team := "t1" |}];
     assignments := [demo_grant "a1" "r1" None (Some "t1"); demo_grant "a2" "r2" (Some "p1") None];
     devices := [demo_device]; tokens := []; audits := [] |}.
Definition demo_actor : Guard.AuthedUser :=
  {| Guard.id := "u1"; Guard.email := "a@b"; Guard.role := Guard.ADMIN; Guard.orgId := Some "o1";
     Guard.viaSharedKey := false |}.

Lemma ref_in_check {A} (key org_of : A → string) l i org :
  match find_by key i l with Some x => String.eqb (org_of x) org | None => false end = true →
  ref_in key org_of l i org.
Proof. destruct (find_by key i l) as [x|] eqn:E; [|done]. intros H%String.eqb_eq. by exists x. Qed.

Lemma demo_consistent : consistent demo_db.
Proof.
  split; try (repeat constructor; fail).
  - constructor; [apply not_elem_of_nil|constructor].
  - constructor; [split; by apply ref_in_check|constructor].
  - repeat (apply Forall_cons; split); [..|constructor]; (split; [by apply ref_in_check|]; split);
      intros i; try done; intros [= <-]; split; try done; by apply ref_in_check.
Qed.

Lemma tenant_consistency_witness :
  consistent demo_db ∧
  consistent (run_events (λ db '(actor, r), snd (handle (λ _, None) None 0 0 actor r db)) demo_db
    [(demo_actor, ReqCreatePerson "p2" "o1" "c@d" None); (demo_actor, ReqAddTeamMember "t1" "p2");
     (demo_actor, ReqArchiveRole "r1")]).
Proof. split; [exact demo_consistent|]. apply tenant_consistency. exact demo_consistent. Defined.

Lemma bundle_is_the_grants_witness :
  consistent demo_db ∧
  ∃ b, resolveBundleForDevice (λ _, "00000010ff") demo_db "d1" = Ok b ∧
    (∀ br, br ∈ bundle_roles b ↔ ∃ de r, is_grant demo_db "o1" "p1" de ∧ live demo_db de r ∧
       br = bundle_role r) ∧
    (∀ m, permits_model (org_policy b) m ↔
       governed demo_db {| o_id := "o1"; o_policy := org_layer |} demo_device "p1" m).
Proof.
  split; [exact demo_consistent|].
  exact (bundle_is_the_grants (λ _, "00000010ff") demo_db "d1" demo_device _ demo_person
           demo_consistent eq_refl eq_refl eq_refl eq_refl).
Defined.

Example demo_bundle :
  b_name <$> (match resolveBundleForDevice (λ _, "00000010ff") demo_db "d1" with
              | Ok b => bundle_roles b | Throw _ => [] end) = ["dev"].
Proof. vm_compute. reflexivity. Qed.
