(* ===== verification/Tenancy.v ===== *)
(** Tenant isolation, as the controllers share it: the rows of a table that belong to other organizations,
    what an update does to them, and the administrators who are confined to one organization. *)
From S2P Require Import Prelude Js Table Access Session.
Local Open Scope nat_scope.

(** * Rows of the other organizations *)

Lemma filter_same {A} (P Q : A → Prop) `{!∀ x, Decision (P x), !∀ x, Decision (Q x)} (l : list A) :
  (∀ x, x ∈ l → P x ↔ Q x) → filter P l = filter Q l.
Proof.
  induction l as [|x l IH]; [done|]. intros Heq. rewrite !filter_cons.
  rewrite IH by (intros y Hy; apply Heq; by right). destruct (Heq x) as [H1 H2]; [by left|].
  destruct (decide (P x)), (decide (Q x)); naive_solver.
Qed.

Section rows.
Context {A K : Type} `{EqDecision K} (org : A → K).

Definition elsewhere (o : K) (l : list A) : list A := filter (λ x, org x ≠ o) l.
Definition ours (o : K) (l : list A) : list A := filter (λ x, org x = o) l.

Lemma elsewhere_snoc o l x : org x = o → elsewhere o (l ++ [x]) = elsewhere o l.
Proof. intros Hx. unfold elsewhere. rewrite filter_app, filter_cons_False by naive_solver. apply app_nil_r. Qed.
Lemma elsewhere_map o f l : (∀ x, x ∈ l → f x = x ∨ org x = o ∧ org (f x) = o) → elsewhere o (map f l) = elsewhere o l.
Proof.
  unfold elsewhere. induction l as [|x l IH]; [done|]. intros Hf. cbn [map]. rewrite !filter_cons.
  rewrite IH by (intros y Hy; apply Hf; by right). destruct (Hf x) as [->|[H1 H2]]; [by left|done|].
  by rewrite !decide_False by naive_solver.
Qed.

(** What concerns an organization does not see the others. *)
Lemma elsewhere_ours a o l l' : a ≠ o → elsewhere a l' = elsewhere a l → ours o l' = ours o l.
Proof.
  intros Hne Heq. assert (∀ k, ours o k = ours o (elsewhere a k)) as Hk.
  { intros k. unfold ours, elsewhere. rewrite list_filter_filter. apply filter_same. intros x _. naive_solver. }
  by rewrite (Hk l'), Heq, <-Hk.
Qed.
Lemma filter_ours (P : A → Prop) `{!∀ x, Decision (P x)} o (l : list A) :
  (∀ x, x ∈ l → P x → org x = o) → filter P l = filter P (ours o l).
Proof.
  intros HP. unfold ours. rewrite list_filter_filter. apply filter_same. intros x Hx. naive_solver.
Qed.
Context (key : A → string).
Lemma elsewhere_update o i f l :
  (∀ x, x ∈ l → key x = i → org x = o) → (∀ x, org (f x) = org x) → elsewhere o (update_by key i f l) = elsewhere o l.
Proof.
  intros Hl Hf. unfold update_by. apply elsewhere_map. intros x Hx. destruct (decide (key x = i)) as [Hk|]; [|by left].
  right. rewrite Hf. by rewrite (Hl x Hx Hk).
Qed.
Lemma elsewhere_delete o i l : (∀ x, x ∈ l → key x = i → org x = o) → elsewhere o (delete_by key i l) = elsewhere o l.
Proof.
  intros Hl. unfold elsewhere, delete_by. rewrite list_filter_filter. apply filter_same. intros x Hx. naive_solver.
Qed.

(** The row with a unique key, as seen by its organization. *)
Definition at_home (o : K) (i : string) (l : list A) : Prop := ∀ x, x ∈ l → key x = i → org x = o.
Lemma find_at_home i l x : NoDup (map key l) → find_by key i l = Some x → at_home (org x) i l.
Proof.
  intros Hnd Hx y Hy Hk. pose proof (find_by_unique key i l y Hnd Hy Hk) as Hf. congruence.
Qed.
Lemma find_ours o i l x : find_by key i l = Some x → org x = o → x ∈ ours o l.
Proof. intros [_ Hx]%find_by_Some Ho. by apply list_elem_of_filter. Qed.
(** Two tables with the same rows of an organization agree on its rows. *)
Lemma find_same o i l l' x :
  NoDup (map key l') → ours o l = ours o l' → find_by key i l = Some x → org x = o → find_by key i l' = Some x.
Proof.
  intros Hnd Heq Hx Ho. pose proof (find_ours _ _ _ _ Hx Ho) as Hin. rewrite Heq in Hin.
  apply list_elem_of_filter in Hin as [_ Hin]. apply find_by_unique; [done..|]. by apply find_by_Some in Hx as [? _].
Qed.
End rows.

(** * Interference *)

(** The database moves by requests of others only. *)
Definition others_only {DB : Type} (others : nat → DB → DB) (d d' : DB) : Prop :=
  ∃ l : list nat, d' = foldl (λ d n, others n d) d l.
Lemma others_refl {DB} (others : nat → DB → DB) d : others_only others d d.
Proof. by exists []. Qed.
Lemma others_step {DB} (others : nat → DB → DB) n d d' : others_only others d d' → others_only others d (others n d').
Proof. intros [l ->]. exists (l ++ [n]). by rewrite foldl_app. Qed.
Lemma others_trans {DB} (others : nat → DB → DB) d1 d2 d3 :
  others_only others d1 d2 → others_only others d2 d3 → others_only others d1 d3.
Proof. intros [l1 ->] [l2 ->]. exists (l1 ++ l2). by rewrite foldl_app. Qed.
Lemma call_reads {DB A} (others : nat → DB → DB) fails (m : M DB A) s r s1 :
  (∀ d, (m d).2 = d) → call others fails m s = (r, s1) → others_only others (db s) (db s1).
Proof.
  intros Hsame. unfold call. specialize (Hsame (others (2 * calls s) (db s))).
  destruct (fails (calls s)); [|destruct (m _) as [x d]; cbn [snd] in Hsame; subst d];
    intros [= _ <-]; cbn [db]; apply others_step, others_step, others_refl.
Qed.
Create HintDb tenancy.
#[export] Hint Resolve others_refl others_step : tenancy.

(** * Confined administrators *)

Definition confined_to (o : string) (user : Guard.AuthedUser) : Prop :=
  Guard.viaSharedKey user = false ∧ Guard.role user ≠ Guard.SUPERADMIN ∧ Guard.orgId user = Some o.
Lemma confined_access o user org :
  confined_to o user → Guard.assertAdminOrgAccess user org = Ok tt → org = o.
Proof.
  intros (Hs & Hr & Ho). unfold Guard.assertAdminOrgAccess. rewrite Hs, bool_decide_eq_false_2, Ho by done. simpl.
  destruct (truthy o && String.eqb o org) eqn:Heq; [|done]. intros _. by apply andb_true_iff in Heq as [_ ->%String.eqb_eq].
Qed.
