(* ===== verification/RolesApi.v ===== *)
(** The routes of the digital-employee service ([src/roles/roles.controller.ts], and the reads of
    [src/roles/roles.service.ts]): the organization a request is about is taken from its body or looked up
    from the row it names, the caller's right to administer it is checked, and only then the service runs.
    What an administrator of one organization does leaves the rows, and the bundles, of the others alone. *)
From S2P Require Import Prelude Js Table AuditStore ModelPolicy Policy Access Session Tenancy Roles.
Local Open Scope nat_scope.

(** * Reads *)

Definition org_of {A} (rows : DB → list A) (key org : A → string) (missing : string) (i : string) : M DB string :=
  l ← gets rows;
  row ← require (find_by key i l) (NotFoundException missing);
  mret (org row).
Definition roleOrgId : string → M DB string := org_of roles r_id r_org "role not found".
Definition teamOrgId : string → M DB string := org_of teams t_id t_org "team not found".
Definition assignmentOrgId : string → M DB string := org_of assignments de_id de_org "assignment not found".
Definition deviceOrgId : string → M DB string := org_of devices d_id d_org "device not found".

(** The columns of a person that are kept here, with the number of devices. *)
Record PersonView := { pv_id : string; pv_name : string; pv_email : string; pv_devices : nat }.
Definition listPersons (org : string) (db : DB) : list PersonView :=
  let before p q := String.ltb (p_name p) (p_name q) || String.eqb (p_name p) (p_name q) && String.ltb (p_email p) (p_email q) in
  map (λ p, {| pv_id := p_id p; pv_name := p_name p; pv_email := p_email p;
               pv_devices := length (filter (λ v, d_person v = Some (p_id p)) (devices db)) |})
    (stable_sort before (filter (λ p, p_org p = org) (persons db))).

Record EmployeeView := {
  em_id : string; em_name : string; em_status : string; em_role : string; em_person : option string;
  em_team : option string }.
(** Rows are in creation order, the view has the latest first. *)
Definition listDigitalEmployees (org : string) (db : DB) : res (list EmployeeView) :=
  assigned ← mapR (with_role db) (rev (filter (λ de, de_org de = org) (assignments db)));
  Ok (map (λ a : DigitalEmployee * Role,
        {| em_id := de_id a.1; em_name := de_name a.1; em_status := de_status a.1; em_role := r_key a.2;
           em_person := p_email <$> optional_ref p_id (persons db) (de_person a.1);
           em_team := t_name <$> optional_ref t_id (teams db) (de_team a.1) |}) assigned).

(** * The controller *)

Section controller.
Context (e : env) (license : option License.LicenseClaims) (nowSec nowMs : Z) (sha256 : string → string).
Context (others : nat → DB → DB) (fails : nat → option exn).

(** The organization a request is about. *)
Definition organization (q : request) : M (Session DB) string :=
  match q with
  | ReqCreateRole _ org _ | ReqCreatePerson _ org _ _ | ReqCreateTeam _ org _ | ReqCreateAssignment _ org _ _ _ _
  | ReqSetOrgPolicy org _ => mret org
  | ReqUpdateRole i _ | ReqArchiveRole i => call others fails (roleOrgId i)
  | ReqAddTeamMember i _ | ReqSetTeamPolicy i _ => call others fails (teamOrgId i)
  | ReqDeleteAssignment i | ReqUpdateAssignment i _ _ => call others fails (assignmentOrgId i)
  end.
(** The service's checks of the input are pure, so its transaction is its one database call. *)
Definition roles_route (user : Guard.AuthedUser) (q : request) : M (Session DB) unit :=
  org ← organization q;
  _ ← lift (Guard.assertAdminOrgAccess user org);
  call others fails (handle e license nowSec nowMs user q).

Definition roles_list (user : Guard.AuthedUser) (org : string) : M (Session DB) (list Role) :=
  _ ← lift (Guard.assertAdminOrgAccess user org);
  call others fails (gets (λ db, listRoles db org)).
Definition persons_list (user : Guard.AuthedUser) (org : string) : M (Session DB) (list PersonView) :=
  _ ← lift (Guard.assertAdminOrgAccess user org);
  call others fails (gets (listPersons org)).
Definition employees_list (user : Guard.AuthedUser) (org : string) : M (Session DB) (list EmployeeView) :=
  _ ← lift (Guard.assertAdminOrgAccess user org);
  call others fails (λ db, (listDigitalEmployees org db, db)).
Definition device_bundle (user : Guard.AuthedUser) (i : string) : M (Session DB) Bundle :=
  org ← call others fails (deviceOrgId i);
  _ ← lift (Guard.assertAdminOrgAccess user org);
  call others fails (λ db, (resolveBundleForDevice sha256 db i, db)).
End controller.

(** * Isolation *)

(** The rows of organizations other than [o] are as they were. *)
Record confined (o : string) (d d' : DB) : Prop := {
  cf_orgs : elsewhere o_id o (orgs d') = elsewhere o_id o (orgs d);
  cf_roles : elsewhere r_org o (roles d') = elsewhere r_org o (roles d);
  cf_persons : elsewhere p_org o (persons d') = elsewhere p_org o (persons d);
  cf_teams : elsewhere t_org o (teams d') = elsewhere t_org o (teams d);
  cf_members : elsewhere pt_org o (personTeams d') = elsewhere pt_org o (personTeams d);
  cf_assignments : elsewhere de_org o (assignments d') = elsewhere de_org o (assignments d);
  cf_devices : devices d' = devices d;
  cf_tokens : tokens d' = tokens d;
  cf_audits : elsewhere ev_org o (audits d') = elsewhere ev_org o (audits d) }.
Lemma confined_refl o d : confined o d d.
Proof. done. Qed.

(** The primary keys. *)
Record keyed (d : DB) : Prop := {
  k_orgs : NoDup (map o_id (orgs d)); k_roles : NoDup (map r_id (roles d)); k_persons : NoDup (map p_id (persons d));
  k_teams : NoDup (map t_id (teams d)); k_assignments : NoDup (map de_id (assignments d)) }.
(** An id that denotes a row before and after denotes a row of the same organization. *)
Definition stays {A} (key org : A → string) (l l' : list A) : Prop := ∀ i x x',
  find_by key i l = Some x → find_by key i l' = Some x' → org x' = org x.
Definition steady (d d' : DB) : Prop :=
  stays r_id r_org (roles d) (roles d') ∧ stays t_id t_org (teams d) (teams d') ∧
  stays de_id de_org (assignments d) (assignments d').

(** The request is about the organization, in the database it runs on. *)
Definition about (o : string) (q : request) (d : DB) : Prop :=
  match q with
  | ReqCreateRole _ org _ | ReqCreatePerson _ org _ _ | ReqCreateTeam _ org _ | ReqCreateAssignment _ org _ _ _ _
  | ReqSetOrgPolicy org _ => org = o
  | ReqUpdateRole i _ | ReqArchiveRole i => at_home r_org r_id o i (roles d)
  | ReqAddTeamMember i _ | ReqSetTeamPolicy i _ => at_home t_org t_id o i (teams d)
  | ReqDeleteAssignment i | ReqUpdateAssignment i _ _ => at_home de_org de_id o i (assignments d)
  end.

Lemma audited_confined {T} o action actor (m : M DB (T * string * payload_arg)) d :
  (∀ x org p d', m d = (Ok (x, org, p), d') → org = o ∧ confined o d d') →
  confined o d (audited_by action actor m d).2.
Proof.
  intros Hm. destruct (audited_by action actor m d) as [[x|er] d'] eqn:Hrun.
  - apply audited_ok in Hrun as (org & p & d1 & Hx & ->). destruct (Hm _ _ _ _ Hx) as [-> []]. cbn [snd].
    split; try done. cbn [record_event roles_audit audits]. by rewrite elsewhere_snoc.
  - by apply audited_throw in Hrun as ->.
Qed.
Lemma confined_void {T} o (m : M DB T) d : confined o d (m d).2 → confined o d (void m d).2.
Proof. unfold void, mbind, M_bind. by destruct (m d) as [[x|er] d1]. Qed.
Lemma confined_lift {T A} o (r : res A) (k : A → M DB T) d :
  (∀ a, confined o d (k a d).2) → confined o d ((a ← lift r; k a) d).2.
Proof. intros Hk. rewrite bind_lift. by destruct r. Qed.

Section isolation.
Context (e : env) (license : option License.LicenseClaims) (nowSec nowMs : Z) (sha256 : string → string).

(** Run the mutation of a request: its rows are of the organization, one table changes. *)
Ltac run_mutation := unfold gets, modify in *; inv_ok; simplify_eq; cbn [fst snd] in *.
Ltac own_rows :=
  repeat match goal with H : find_by ?k ?i ?l = Some ?x, Ha : at_home _ ?k _ ?i ?l |- _ =>
    apply find_by_Some in H as [? ?] end.

Lemma handle_confined o user q d : about o q d → confined o d (handle e license nowSec nowMs user q d).2.
Proof.
  destruct q; cbn [about handle]; intros Hat;
    unfold createRole, updateRole, createPerson, createTeam, setTeamPolicy, createAssignment, updateAssignment, setOrgPolicy;
    try apply confined_void; repeat (apply confined_lift; intros ?);
    rewrite ?bind_guard; try (destruct (_ && _); [done|]); apply audited_confined; intros x org p d' H.
  - run_mutation. match goal with H : insert_role _ _ = _ |- _ => apply insert_role_ok in H as -> end.
    split; [done|]. split; try done. by apply elsewhere_snoc.
  - run_mutation. own_rows. split; [by apply Hat|]. split; try done. by apply elsewhere_update.
  - run_mutation. own_rows. split; [by apply Hat|]. split; try done. by apply elsewhere_update.
  - run_mutation. split; [done|]. split; try done. by apply elsewhere_snoc.
  - run_mutation. split; [done|]. split; try done. by apply elsewhere_snoc.
  - run_mutation. boolify. match goal with H : when ?b _ _ = _ |- _ => destruct b; unfold when in H; run_mutation end.
    + match goal with H : find_by t_id _ _ = Some ?t |- _ => apply find_by_Some in H as [? ?] end.
      split; [by apply Hat|]. split; try done. apply elsewhere_snoc. by apply Hat.
    + match goal with H : find_by t_id _ _ = Some ?t |- _ => apply find_by_Some in H as [? ?] end.
      split; [by apply Hat|done].
  - run_mutation. own_rows. split; [by apply Hat|]. split; try done. by apply elsewhere_update.
  - run_mutation. split; [done|]. split; try done. by apply elsewhere_snoc.
  - run_mutation. own_rows. split; [by apply Hat|]. split; try done. by apply elsewhere_delete.
  - run_mutation. own_rows. split; [by apply Hat|]. split; try done. by apply elsewhere_update.
  - run_mutation. split; [done|]. split; try done. by apply elsewhere_update.
Qed.

Context (others : nat → DB → DB) (fails : nat → option exn).
(** The other requests keep the primary keys, and never give an id to a row of another organization: ids are
    fresh and no operation changes the organization of a row. *)
Record rely : Prop := {
  rely_keyed n d : keyed d → keyed (others n d);
  rely_steady d d' : keyed d → others_only others d d' → steady d d' }.
Context (Hrely : rely).

Lemma others_keyed d d' : others_only others d d' → keyed d → keyed d'.
Proof.
  intros [l ->]. revert d. induction l as [|n l IH]; [done|]. intros d Hd. cbn [foldl]. apply IH. by apply Hrely.
Qed.
Lemma stays_home {A} (key org : A → string) i l l' x :
  NoDup (map key l') → stays key org l l' → find_by key i l = Some x → at_home org key (org x) i l'.
Proof.
  intros Hnd Hst Hx y Hy Hk. eapply Hst; [exact Hx|]. by apply find_by_unique.
Qed.

Lemma call_org_of {A} rows (key org : A → string) missing i s o s1 :
  call others fails (org_of rows key org missing i) s = (Ok o, s1) →
  ∃ d x, others_only others (db s) d ∧ others_only others d (db s1) ∧ find_by key i (rows d) = Some x ∧ org x = o.
Proof.
  intros (d & Hrun & Hdb & _)%call_ok. unfold org_of, gets in Hrun. unfold mbind at 1, M_bind at 1 in Hrun.
  destruct (find_by key i _) as [x|] eqn:Hx; [|done]. injection Hrun as <- <-. rewrite Hdb.
  eexists _, x. split_and!; [|apply others_step, others_refl|exact Hx|done]. apply others_step, others_refl.
Qed.

Lemma organization_ok q s o s1 :
  keyed (db s) → organization others fails q s = (Ok o, s1) →
  others_only others (db s) (db s1) ∧ ∀ d, others_only others (db s1) d → about o q d.
Proof.
  intros Hk Hrun.
  assert (∀ {A} rows (key org : A → string) missing i,
    (∀ d, keyed d → NoDup (map key (rows d))) → (∀ d d', steady d d' → stays key org (rows d) (rows d')) →
    call others fails (org_of rows key org missing i) s = (Ok o, s1) →
    others_only others (db s) (db s1) ∧ ∀ d, others_only others (db s1) d → at_home org key o i (rows d)) as Hlookup.
  { intros A rows key org missing i Hnd Hst (d0 & x & H0 & H1 & Hx & <-)%call_org_of.
    split; [by eapply others_trans|]. intros d Hd. pose proof (others_trans _ _ _ _ H1 Hd) as Hd'.
    pose proof (others_keyed _ _ H0 Hk) as Hk0. apply (stays_home key org i (rows d0) (rows d) x); [..|done].
    - by apply Hnd, (others_keyed _ _ Hd').
    - by apply Hst, Hrely. }
  destruct q; cbn [organization about] in *;
    first [injection Hrun as <- <-; split; [apply others_refl|done]|eapply Hlookup; [..|exact Hrun]];
    first [by intros ? []|intros ? ? (?&?&?); done].
Qed.

Lemma organization_reads q s r s1 : organization others fails q s = (r, s1) → others_only others (db s) (db s1).
Proof.
  assert (∀ {A} rows (key org : A → string) missing i d, (org_of rows key org missing i d).2 = d) as Hread.
  { intros. unfold org_of, gets, mbind, M_bind. by destruct (find_by key i (rows d)). }
  destruct q; cbn [organization]; first [by intros [= _ <-]; apply others_refl|by apply call_reads; intros; apply Hread].
Qed.

(** Apart from the others, a request is one run of its service, for an organization the caller may administer. *)
Lemma roles_route_step user q (s : Session DB) r s' :
  keyed (db s) → roles_route e license nowSec nowMs others fails user q s = (r, s') →
  ∃ d d', others_only others (db s) d ∧ others_only others d' (db s') ∧
    (d' = d ∨ ∃ o, Guard.assertAdminOrgAccess user o = Ok tt ∧ about o q d ∧ d' = (handle e license nowSec nowMs user q d).2).
Proof.
  intros Hk. unfold roles_route.
  destruct (organization others fails q s) as [[o|er] s1] eqn:Horg.
  2: { rewrite (bind_throw _ _ _ _ _ Horg). intros [= _ <-]. exists (db s), (db s).
       split; [apply others_refl|]. split; [by apply organization_reads in Horg|by left]. }
  rewrite (bind_step _ _ _ _ _ Horg). apply (organization_ok _ _ _ _ Hk) in Horg as [H1 Habout].
  rewrite bind_lift. destruct (Guard.assertAdminOrgAccess user o) as [[]|] eqn:Ha.
  2: { intros [= _ <-]. exists (db s1), (db s1). split; [done|]. split; [apply others_refl|by left]. }
  unfold call. set (d := others (2 * calls s1) (db s1)).
  assert (others_only others (db s1) d) as Hd by apply others_step, others_refl. specialize (Habout d Hd).
  assert (∀ x, others_only others x (others (2 * calls s1 + 1) x)) as Hlast by (intros; apply others_step, others_refl).
  destruct (fails (calls s1)); [|destruct (handle _ _ _ _ user q d) as [x d'] eqn:Hrun]; intros [= _ <-]; cbn [db].
  - exists d, d. split; [by eapply others_trans|]. split; [done|by left].
  - exists d, d'. split; [by eapply others_trans|]. split; [done|]. right. exists o. by rewrite Hrun.
Qed.

(** C7: What a tenant administrator does stays in the tenant. When an administrator confined to an organization
    calls any changing route of the digital-employee service (with the body or the row id of the caller's
    choice, and with other requests running before, between and after its database calls), then apart from
    what those others did the database made at most one step, and that step left every organization, role,
    person, team, membership, assignment and audit event of the other organizations, and all devices and
    tokens, exactly as they were. *)
Theorem roles_stay_home o user q (s : Session DB) r s' :
  confined_to o user → keyed (db s) → roles_route e license nowSec nowMs others fails user q s = (r, s') →
  ∃ d d', others_only others (db s) d ∧ confined o d d' ∧ others_only others d' (db s').
Proof.
  intros Huser Hk (d & d' & Hd & Hd' & Hstep)%(roles_route_step _ _ _ _ _ Hk). exists d, d'. split; [done|]. split; [|done].
  destruct Hstep as [->|(a & Ha & Habout & ->)]; [done|]. apply (confined_access _ _ _ Huser) in Ha as ->. by apply handle_confined.
Qed.
End isolation.

(** * Bundles *)

(** Two databases with the same rows of an organization. *)
Record agree (o : string) (d d' : DB) : Prop := {
  ag_orgs : ours o_id o (orgs d) = ours o_id o (orgs d'); ag_roles : ours r_org o (roles d) = ours r_org o (roles d');
  ag_persons : ours p_org o (persons d) = ours p_org o (persons d'); ag_teams : ours t_org o (teams d) = ours t_org o (teams d');
  ag_members : ours pt_org o (personTeams d) = ours pt_org o (personTeams d');
  ag_assignments : ours de_org o (assignments d) = ours de_org o (assignments d') }.
#[export] Instance agree_equivalence o : Equivalence (agree o).
Proof.
  split.
  - by intros d.
  - intros d d' []. by split.
  - intros d1 d2 d3 [] []. split; congruence.
Qed.
Lemma confined_agree a o d d' : a ≠ o → confined a d d' → agree o d d'.
Proof. intros Hne []. symmetry. split; by eapply elsewhere_ours. Qed.

Section bundles.
Context (d d' : DB) (device : DeviceRow) (person : Person) (sha256 : string → string).
Local Abbreviation o := (d_org device).
Hypothesis Hagree : agree o d d'.
Hypothesis Hc : consistent d.
Hypothesis Hc' : consistent d'.
Hypothesis Hroles : NoDup (map r_id (roles d')).
Hypothesis Hpersons : NoDup (map p_id (persons d')).

Lemma same_org_row : find_by o_id o (orgs d') = find_by o_id o (orgs d).
Proof.
  assert (∀ l, find_by o_id o l = head (ours o_id o l)) as Hhead.
  { unfold ours. induction l as [|x l IH]; [done|]. rewrite find_by_cons, filter_cons. by destruct (decide _). }
  rewrite !Hhead. by rewrite (ag_orgs _ _ _ Hagree).
Qed.

Context (Hperson : optional_ref p_id (persons d) (d_person device) = Some person) (Horg : p_org person = o).

Lemma same_person : optional_ref p_id (persons d') (d_person device) = Some person.
Proof.
  unfold optional_ref in *. destruct (d_person device) as [i|]; [|done]. destruct (truthy i); [|done].
  eapply find_same; [done|apply (ag_persons _ _ _ Hagree)|done|done].
Qed.
(** The memberships of a person are in the person's organization. *)
Lemma memberships db : consistent db → find_by p_id (p_id person) (persons db) = Some person →
  filter (λ m, pt_person m = p_id person) (personTeams db) =
  filter (λ m, pt_person m = p_id person) (ours pt_org o (personTeams db)).
Proof.
  intros Hdb Hp. apply filter_ours. intros m Hm Hpm. pose proof (c_members db Hdb) as Hall. rewrite Forall_forall in Hall.
  destruct (Hall m Hm) as [(q & Hq & <-) _]. rewrite Hpm, Hp in Hq. congruence.
Qed.
Lemma by_id db : optional_ref p_id (persons db) (d_person device) = Some person → find_by p_id (p_id person) (persons db) = Some person.
Proof.
  unfold optional_ref. destruct (d_person device) as [i|]; [|done]. destruct (truthy i); [|done]. intros Hp.
  by pose proof (find_by_Some _ _ _ _ Hp) as [-> _].
Qed.
Lemma same_team_ids : team_ids d' (p_id person) = team_ids d (p_id person).
Proof.
  unfold team_ids. rewrite !memberships by (done || apply by_id, same_person || by apply by_id).
  by rewrite (ag_members _ _ _ Hagree).
Qed.
Lemma same_granted : granted d' o (p_id person) = granted d o (p_id person).
Proof.
  unfold granted. rewrite same_team_ids. rewrite (filter_ours de_org _ o (assignments d')) by naive_solver.
  rewrite (filter_ours de_org _ o (assignments d)) by naive_solver. by rewrite (ag_assignments _ _ _ Hagree).
Qed.
Lemma same_teams : teams_of d' o (p_id person) = teams_of d o (p_id person).
Proof.
  unfold teams_of. rewrite same_team_ids. rewrite (filter_ours t_org _ o (teams d')) by naive_solver.
  rewrite (filter_ours t_org _ o (teams d)) by naive_solver. by rewrite (ag_teams _ _ _ Hagree).
Qed.
Lemma same_roles : mapR (with_role d') (granted d o (p_id person)) = mapR (with_role d) (granted d o (p_id person)).
Proof.
  assert (Forall (λ de, de ∈ assignments d ∧ de_org de = o) (granted d o (p_id person))) as Hg.
  { apply Forall_forall. intros de [(? & _) ?]%list_elem_of_filter. done. }
  pose proof (c_assignments d Hc) as Ha. rewrite Forall_forall in Ha.
  induction Hg as [|de l [Hin Ho] _ IH]; [done|]. cbn [mapR]. rewrite IH.
  destruct (Ha de Hin) as ((r & Hr & Hro) & _ & _). unfold with_role. rewrite Hr.
  rewrite (find_same r_org r_id o _ _ _ r Hroles (ag_roles _ _ _ Hagree) Hr) by congruence. done.
Qed.

Lemma same_bundle i :
  find_by d_id i (devices d) = Some device → find_by d_id i (devices d') = Some device →
  resolveBundleForDevice sha256 d' i = resolveBundleForDevice sha256 d i.
Proof.
  intros Hd Hd'. unfold resolveBundleForDevice. rewrite Hd, Hd', same_org_row. destruct (find_by o_id o (orgs d)); [|done].
  rewrite same_person, Hperson. destruct (given (d_person device)); [|done]. rewrite Horg, String.eqb_refl. cbn [negb].
  rewrite same_granted, same_roles, same_teams, same_team_ids.
  destruct (granted_roles d device person Hc) as (assigned & Has & _ & Hbad).
  destruct (granted_roles d' device person Hc') as (assigned' & Has' & _ & Hbad').
  rewrite same_granted, same_roles, Has in Has'. injection Has' as <-. rewrite Has. cbn [mbind res_bind].
  by rewrite Hbad, Hbad'.
Qed.
End bundles.

(** * Bundles and the other tenants *)

Section shielded.
Context (e : env) (license : option License.LicenseClaims) (nowSec nowMs : Z) (sha256 : string → string).
Context (fails : nat → option exn).

Lemma snoc_key {A} (key : A → string) (clash : A → bool) l x :
  existsb (λ y, String.eqb (key y) (key x) || clash y) l = false →
  NoDup (map key l) → NoDup (map key (l ++ [x])).
Proof.
  intros Hex Hnd. rewrite map_app. apply NoDup_app. split_and!; [done| |apply NoDup_singleton].
  intros k Hk ->%list_elem_of_singleton. apply list_elem_of_fmap in Hk as (y & Hy & Hin).
  apply not_true_iff_false in Hex. apply Hex, existsb_exists. exists y. split; [by apply list_elem_of_In|].
  by rewrite Hy, String.eqb_refl.
Qed.

(** The keys the resolver looks rows up by. *)
Definition keys_ok (d : DB) : Prop := NoDup (map r_id (roles d)) ∧ NoDup (map p_id (persons d)).
Definition keeps_keys {T} (m : M DB T) : Prop := ∀ d, keys_ok d → keys_ok (m d).2.
Lemma keys_void {T} (m : M DB T) : keeps_keys m → keeps_keys (void m).
Proof. intros Hm d Hd. specialize (Hm d Hd). unfold void, mbind, M_bind. by destruct (m d) as [[x|er] d1]. Qed.
Lemma keys_lift {T A} (r : res A) (k : A → M DB T) : (∀ a, keeps_keys (k a)) → keeps_keys (lift r ≫= k).
Proof. intros Hk d Hd. rewrite bind_lift. destruct r; [by apply Hk|done]. Qed.
Lemma keys_guard {T} b er (k : unit → M DB T) : keeps_keys (k tt) → keeps_keys (guard_throw b er ≫= k).
Proof. intros Hk d Hd. rewrite bind_guard. destruct b; [done|by apply Hk]. Qed.
Lemma keys_audited {T} action actor (m : M DB (T * string * payload_arg)) :
  (∀ d x d', m d = (Ok x, d') → keys_ok d → keys_ok d') → keeps_keys (audited_by action actor m).
Proof.
  intros Hm d Hd. destruct (audited_by action actor m d) as [[x|er] d'] eqn:Hrun.
  - apply audited_ok in Hrun as (org & p & d1 & Hx & ->). by apply (Hm _ _ _ Hx).
  - by apply audited_throw in Hrun as ->.
Qed.

Ltac run_mutation := unfold gets, modify in *; inv_ok; simplify_eq; cbn [fst snd] in *.
Lemma handle_keys user q : keeps_keys (handle e license nowSec nowMs user q).
Proof.
  destruct q; cbn [handle]; try apply keys_void;
    unfold createRole, updateRole, archiveRole, createPerson, createTeam, addTeamMember, setTeamPolicy, createAssignment,
      deleteAssignment, updateAssignment, setOrgPolicy;
    repeat (apply keys_lift; intros ?); try (apply keys_guard); apply keys_audited; intros d x d' H [Hr Hp].
  - run_mutation. match goal with H : insert_role _ _ = _ |- _ => unfold insert_role in H end. run_mutation.
    split; [|done]. match goal with H : existsb _ _ = false |- _ => exact (snoc_key r_id _ _ _ H Hr) end.
  - run_mutation. split; [|done]. cbn [roles set_roles]. by rewrite update_by_keys.
  - run_mutation. split; [|done]. cbn [roles set_roles]. by rewrite update_by_keys.
  - run_mutation. split; [done|]. by apply (snoc_key p_id (λ p, String.eqb (p_org p) orgId && String.eqb (p_email p) email)).
  - run_mutation. done.
  - run_mutation. match goal with H : when ?b _ _ = _ |- _ => destruct b; unfold when in H; run_mutation end; done.
  - run_mutation. done.
  - run_mutation. done.
  - run_mutation. done.
  - run_mutation. done.
  - run_mutation. done.
Qed.
Lemma alone_same (d d' : DB) : others_only alone d d' → d' = d.
Proof. intros [l ->]. by induction l. Qed.
Lemma rely_alone : rely alone.
Proof.
  split; [done|]. intros d d' _ ->%alone_same. split_and!; intros i x x'; congruence.
Qed.

(** The agents another company runs are out of reach. Whatever changing request of the digital-employee
    service an administrator confined to one organization makes, the role bundle resolved for a device of any
    other organization (roles, their settings, the effective policy and the version the device compares) is
    the very bundle it had before: not only are the foreign rows unchanged, no row of the administrator's own
    organization enters the bundle of a foreign device. *)
Theorem foreign_bundle_unchanged a user q i device person (s : Session DB) r s' :
  confined_to a user → keyed (db s) → consistent (db s) →
  find_by d_id i (devices (db s)) = Some device → d_org device ≠ a →
  optional_ref p_id (persons (db s)) (d_person device) = Some person → p_org person = d_org device →
  roles_route e license nowSec nowMs alone fails user q s = (r, s') →
  resolveBundleForDevice sha256 (db s') i = resolveBundleForDevice sha256 (db s) i.
Proof.
  intros Huser Hk Hc Hdev Hne Hperson Horg Hrun.
  apply (roles_route_step _ _ _ _ _ _ rely_alone _ _ _ _ _ Hk) in Hrun as (d & d' & ->%alone_same & ->%alone_same & Hstep).
  destruct Hstep as [->|(o & Ha & Habout & ->)]; [done|]. apply (confined_access _ _ _ Huser) in Ha as ->.
  pose proof (handle_confined e license nowSec nowMs a user q (db s) Habout) as Hconf.
  destruct (handle_keys user q (db s)) as [Hr Hp]; [split; apply Hk|].
  eapply same_bundle; [by eapply confined_agree| |..]; try done.
  - by eapply handle_consistent; [apply surjective_pairing|].
  - by rewrite (cf_devices _ _ _ Hconf).
Qed.
End shielded.

(** * Witnesses *)

(** The demo company beside a second one, with an administrator confined to the second. *)
Definition two_companies : DB := set_orgs (orgs demo_db ++ [{| o_id := "o2"; o_policy := JObj [] |}]) demo_db.
Definition other_admin : Guard.AuthedUser :=
  {| Guard.id := "u2"; Guard.email := "b@c"; Guard.role := Guard.ADMIN; Guard.orgId := Some "o2"; Guard.viaSharedKey := false |}.
Definition at_start : Session DB := {| db := two_companies; calls := 0 |}.

Lemma two_companies_consistent : consistent two_companies.
Proof.
  destruct demo_consistent as [Ht Hm Ha Ho Htp Hap]. split; try done. cbn [orgs set_orgs two_companies].
  apply Forall_snoc_intro; [done|]. apply policy_valid_empty.
Qed.
Lemma two_companies_keyed : keyed two_companies.
Proof. split; apply (bool_decide_unpack _); vm_compute; exact I. Qed.
Lemma other_admin_confined : confined_to "o2" other_admin.
Proof. by split_and!. Qed.

Definition demo_route (user : Guard.AuthedUser) (q : request) : res unit * Session DB :=
  roles_route (λ _, None) None 0 0 alone no_fault user q at_start.

Lemma roles_stay_home_witness :
  confined_to "o2" other_admin ∧ keyed two_companies ∧
  ∃ d d', others_only alone two_companies d ∧
    confined "o2" d d' ∧ others_only alone d' (db (demo_route other_admin (ReqCreatePerson "p9" "o2" "x@y" None)).2).
Proof.
  split; [exact other_admin_confined|]. split; [exact two_companies_keyed|].
  exact (roles_stay_home (λ _, None) None 0 0 alone no_fault rely_alone "o2" other_admin
    (ReqCreatePerson "p9" "o2" "x@y" None) at_start _ _ other_admin_confined two_companies_keyed (surjective_pairing _)).
Defined.
Example other_admin_works : (demo_route other_admin (ReqCreatePerson "p9" "o2" "x@y" None)).1 = Ok tt ∧
  (demo_route other_admin (ReqArchiveRole "r1")).1 = Throw (ForbiddenException "organization access denied").
Proof. split; vm_compute; reflexivity. Qed.

Lemma foreign_bundle_unchanged_witness :
  consistent two_companies ∧
  resolveBundleForDevice (λ _, "00000010ff") (db (demo_route other_admin (ReqCreatePerson "p9" "o2" "x@y" None)).2) "d1" =
  resolveBundleForDevice (λ _, "00000010ff") two_companies "d1".
Proof.
  split; [exact two_companies_consistent|].
  refine (foreign_bundle_unchanged (λ _, None) None 0 0 (λ _, "00000010ff") no_fault "o2" other_admin
    (ReqCreatePerson "p9" "o2" "x@y" None) "d1" demo_device demo_person at_start _ _ other_admin_confined
    two_companies_keyed two_companies_consistent eq_refl _ eq_refl eq_refl (surjective_pairing _)).
  done.
Defined.
