(* ===== verification/Secrets.v ===== *)
(** The encrypted secret store: the local-keyfile KMS ([src/security/kms/local-keyfile.ts]), the
    provider factory ([src/security/kms/index.ts]) and the service that stores envelopes in the
    [Secret] table ([src/security/secrets.service.ts]). AES-256-GCM, SHA-256 and the file system are
    parameters; the random bytes of one encryption are an argument. *)
From S2P Require Import Prelude Js Crypto.
Local Open Scope nat_scope.

(** * The adapter interface ([src/security/kms/kms-adapter.ts]) *)

Record Envelope := { ciphertext : list Z; wrappedDek : list Z; keyRef : string }.
(** The outputs of the three [randomBytes] calls of one encryption. *)
Record Randomness := { r_dek : list Z; r_iv : list Z; r_wrapIv : list Z }.
Record KmsAdapter := {
  encrypt : Randomness → list Z → option string → res Envelope;
  decrypt : list Z → list Z → string → option string → res (list Z) }.

Definition fresh (r : Randomness) : Prop :=
  length (r_dek r) = 32 ∧ length (r_iv r) = 12 ∧ length (r_wrapIv r) = 12.

(** What the store relies on: an envelope decrypts, in the same context, to what was encrypted. *)
Definition lawful (kms : KmsAdapter) : Prop := ∀ r p ctx env,
  fresh r → encrypt kms r p ctx = Ok env →
  decrypt kms (ciphertext env) (wrappedDek env) (keyRef env) ctx = Ok p.

(** AES-256-GCM: the ciphertext and tag of a plaintext; the plaintext, or nothing when the tag does
    not verify. *)
Class Aead := {
  gcm_seal : list Z → list Z → list Z → list Z → list Z * list Z;
  gcm_open : list Z → list Z → list Z → list Z → list Z → option (list Z) }.
(** The documented behaviour the code relies on. *)
Class AeadLaws `{Aead} := {
  gcm_tag_length k iv aad p : length (gcm_seal k iv aad p).2 = 16;
  gcm_open_seal k iv aad p :
    gcm_open k iv aad (gcm_seal k iv aad p).2 (gcm_seal k iv aad p).1 = Some p }.

(** * The local-keyfile adapter *)

Definition KEY_BYTES : nat := 32.
Definition IV_BYTES : nat := 12.
Definition TAG_BYTES : nat := 16.

Definition aadFor (ctx : option string) : list Z := bytes_of ("org:" +:+ nullish ctx "").

Definition hex_val (c : ascii) : option nat :=
  match digit_val c with Some v => if v <? 16 then Some v else None | None => None end.
Fixpoint hex_bytes (l : list ascii) : list Z :=
  match l with
  | a :: b :: l' => (Z.of_nat (default 0%nat (hex_val a)) * 16 + Z.of_nat (default 0%nat (hex_val b)))%Z :: hex_bytes l'
  | _ => []
  end.
Definition is_hex64 (s : string) : bool :=
  (String.length s =? 64) && forallb (λ c, isSome (hex_val c)) (chars s).
Definition decodeKey (raw : string) : option (list Z) :=
  let s := trim raw in
  if negb (truthy s) then None
  else if is_hex64 s then Some (hex_bytes (chars s))
  else let b := from_base64 s in
       (* Node decodes "base64" and "base64url" with the same decoder *)
       if length b =? KEY_BYTES then Some b else None.

Section kms.
Context `{Aead} (sha256 : list Z → string) (readFileSync : string → res string).

Definition seal (iv key plaintext aad : list Z) : list Z :=
  let '(enc, tag) := gcm_seal key iv aad plaintext in
  iv ++ tag ++ enc.
Definition open (key blob aad : list Z) : res (list Z) :=
  if length blob <? IV_BYTES + TAG_BYTES then Throw (Error "ciphertext too short / corrupt")
  else
    let iv := take IV_BYTES blob in
    let tag := take TAG_BYTES (drop IV_BYTES blob) in
    let enc := drop (IV_BYTES + TAG_BYTES) blob in
    match gcm_open key iv aad tag enc with
    | Some p => Ok p
    | None => Throw (Error "Unsupported state or unable to authenticate data")
    end.

Definition loadMasterKey (e : env) : res (list Z) :=
  match e "HARA_KMS_MASTER_KEY", e "HARA_KMS_KEYFILE" with
  | inline, file =>
      if truthy (trim (nullish inline "")) then
        match decodeKey (nullish inline "") with
        | Some k => Ok k
        | None => Throw (KmsConfigError
            "HARA_KMS_MASTER_KEY must decode to exactly 32 bytes (base64, base64url, or 64-char hex)")
        end
      else if truthy (trim (nullish file "")) then
        let path := trim (nullish file "") in
        match readFileSync path with
        | Throw (Error m) => Throw (KmsConfigError ("HARA_KMS_KEYFILE not readable (" +:+ path +:+ "): " +:+ m))
        | Throw _ => Throw (KmsConfigError ("HARA_KMS_KEYFILE not readable (" +:+ path +:+ ")"))
        | Ok contents =>
            match decodeKey contents with
            | Some k => Ok k
            | None => Throw (KmsConfigError ("HARA_KMS_KEYFILE (" +:+ path
                +:+ ") must contain exactly 32 bytes encoded as base64, base64url, or 64-char hex"))
            end
        end
      else Throw (KmsConfigError
        "no KMS master key configured — set HARA_KMS_MASTER_KEY (32 bytes base64/hex) or HARA_KMS_KEYFILE (path) for the local KMS provider")
  end.

Definition key_ref (cek : list Z) : string :=
  "local:" +:+ str (take 16 (chars (sha256 cek))).
Definition local_encrypt (cek : list Z) (r : Randomness) (plaintext : list Z) (ctx : option string)
    : res Envelope :=
  Ok {| ciphertext := seal (r_iv r) (r_dek r) plaintext (aadFor ctx);
        wrappedDek := seal (r_wrapIv r) cek (r_dek r) []; keyRef := key_ref cek |}.
Definition local_decrypt (cek ciphertext wrappedDek : list Z) (ref : string) (ctx : option string)
    : res (list Z) :=
  if negb (String.eqb ref (key_ref cek))
  then Throw (KmsConfigError ("secret was wrapped under key " +:+ dquote ref
         +:+ " but the active local CEK is " +:+ dquote (key_ref cek)
         +:+ " — configure the matching master key"))
  else dek ← open cek wrappedDek []; open dek ciphertext (aadFor ctx).
Definition LocalKeyfileKms (e : env) : res KmsAdapter :=
  cek ← loadMasterKey e; Ok {| encrypt := local_encrypt cek; decrypt := local_decrypt cek |}.

(** * The provider factory *)

Definition kmsProvider (e : env) : string :=
  toLowerCase (trim (or_default (nullish (e "HARA_KMS_PROVIDER") "") "local")).

Definition NotImplementedKms (provider hint : string) : KmsAdapter :=
  let fail {A} : res A := Throw (KmsConfigError ("KMS provider " +:+ dquote provider
    +:+ " is not implemented yet — " +:+ hint
    +:+ ", or set HARA_KMS_PROVIDER=local with HARA_KMS_MASTER_KEY/HARA_KMS_KEYFILE")) in
  {| encrypt := λ _ _ _, fail; decrypt := λ _ _ _ _, fail |}.

Definition createKms (e : env) : res KmsAdapter :=
  let provider := kmsProvider e in
  if String.eqb provider "local" then LocalKeyfileKms e
  else if String.eqb provider "aws" then Ok (NotImplementedKms "aws"
    "configure an AWS KMS CMK (HARA_KMS_AWS_KEY_ID + AWS creds) and implement AwsKmsAdapter")
  else if String.eqb provider "gcp" then Ok (NotImplementedKms "gcp"
    "configure a GCP KMS key (HARA_KMS_GCP_KEY_NAME + ADC) and implement GcpKmsAdapter")
  else if String.eqb provider "vault" then Ok (NotImplementedKms "vault"
    "configure HashiCorp Vault Transit (HARA_KMS_VAULT_ADDR/HARA_KMS_VAULT_KEY/token) and implement VaultTransitAdapter")
  else Throw (KmsConfigError ("unknown HARA_KMS_PROVIDER " +:+ dquote provider
    +:+ " (expected: local | aws | gcp | vault)")).
End kms.

(** * The store *)

Record SecretRow := {
  s_id : string; s_org : option string; s_name : string; s_ciphertext : list Z; s_wrappedDek : list Z;
  s_keyRef : string; s_version : Z; s_createdAt : Z; s_updatedAt : Z }.
Record SystemAudit := { y_action : string; y_actorType : string; y_actorId : string; y_payload : json }.
Record SecretDB := { secrets : list SecretRow; systemAudits : list SystemAudit }.
Definition set_secrets (l : list SecretRow) (db : SecretDB) : SecretDB :=
  {| secrets := l; systemAudits := systemAudits db |}.

(** [findFirst({ where: { orgId, name } })] *)
Definition has_key (org : option string) (name : string) (r : SecretRow) : Prop :=
  s_org r = org ∧ s_name r = name.
#[export] Instance has_key_dec org name r : Decision (has_key org name r).
Proof. unfold has_key. apply _. Defined.
Definition find_secret (db : SecretDB) (org : option string) (name : string) : option SecretRow :=
  snd <$> list_find (has_key org name) (secrets db).

(** A row of the [Secret] table with an envelope written into it. *)
Definition with_envelope (env : Envelope) (version : Z) (now : Z) (r : SecretRow) : SecretRow :=
  {| s_id := s_id r; s_org := s_org r; s_name := s_name r; s_ciphertext := ciphertext env;
     s_wrappedDek := wrappedDek env; s_keyRef := keyRef env; s_version := version;
     s_createdAt := s_createdAt r; s_updatedAt := now |}.
(** [secret.update({ where: { id }, data: { ...data, version: { increment: 1 } } })] *)
Definition rotate (i : string) (env : Envelope) (now : Z) (l : list SecretRow) : list SecretRow :=
  map (λ r, if decide (s_id r = i) then with_envelope env (s_version r + 1) now r else r) l.

Section store.
Context (kms : KmsAdapter) (now : Z) (rid : string) (rnd : Randomness).

(** The writes shared by [put] and [putWithSystemAudit]. *)
Definition write_envelope (org : option string) (name : string) (env : Envelope) : M SecretDB unit :=
  db ← gets (λ db, db);
  match find_secret db org name with
  | Some existing => modify (λ db, set_secrets (rotate (s_id existing) env now (secrets db)) db)
  | None => modify (λ db, set_secrets (secrets db ++
      [{| s_id := rid; s_org := org; s_name := name; s_ciphertext := ciphertext env;
          s_wrappedDek := wrappedDek env; s_keyRef := keyRef env; s_version := 1;
          s_createdAt := now; s_updatedAt := now |}]) db)
  end.
Definition put (org : option string) (name : string) (plaintext : list Z) : M SecretDB unit :=
  env ← lift (encrypt kms rnd plaintext org); write_envelope org name env.
Definition putWithSystemAudit (org : option string) (name : string) (plaintext : list Z)
    (audit : SystemAudit) : M SecretDB unit :=
  env ← lift (encrypt kms rnd plaintext org);
  transaction (
    _ ← write_envelope org name env;
    modify (λ db, {| secrets := secrets db; systemAudits := systemAudits db ++ [audit] |})).

Definition getVersioned (db : SecretDB) (org : option string) (name : string)
    : res (option (list Z * Z * Z)) :=
  match find_secret db org name with
  | None => Ok None
  | Some row =>
      value ← decrypt kms (s_ciphertext row) (s_wrappedDek row) (s_keyRef row) org;
      Ok (Some (value, s_version row, s_updatedAt row))
  end.
Definition get (db : SecretDB) (org : option string) (name : string) : res (option (list Z)) :=
  match getVersioned db org name with
  | Ok (Some (value, _, _)) => Ok (Some value)
  | Ok None => Ok None
  | Throw e => Throw e
  end.
Definition getString (db : SecretDB) (org : option string) (name : string) : res (option string) :=
  match get db org name with
  | Ok (Some buf) => Ok (Some (of_bytes buf))
  | Ok None => Ok None
  | Throw e => Throw e
  end.
End store.

Definition describe (db : SecretDB) (org : option string) (name : string)
    : bool * option Z * option Z * option Z :=
  match find_secret db org name with
  | Some r => (true, Some (s_version r), Some (s_createdAt r), Some (s_updatedAt r))
  | None => (false, None, None, None)
  end.
Definition remove (org : option string) (name : string) : M SecretDB unit :=
  modify (λ db, set_secrets (filter (λ r, ¬ has_key org name r) (secrets db)) db).

(** * The adapter's contract *)

Section adapter.
Context `{AeadLaws} (sha256 : list Z → string) (readFileSync : string → res string).

Lemma open_sealed iv key p aad aad' :
  length iv = 12 →
  open key (seal iv key p aad) aad' =
  match gcm_open key iv aad' (gcm_seal key iv aad p).2 (gcm_seal key iv aad p).1 with
  | Some q => Ok q
  | None => Throw (Error "Unsupported state or unable to authenticate data")
  end.
Proof.
  intros Hiv. unfold open, seal. pose proof (gcm_tag_length key iv aad p) as Ht.
  destruct (gcm_seal key iv aad p) as [enc tag]. simpl fst. simpl snd in Ht |- *.
  rewrite !length_app, Hiv, Ht.
  assert (Nat.ltb (12 + (16 + length enc)) (IV_BYTES + TAG_BYTES) = false) as ->
    by (apply Nat.ltb_ge; unfold IV_BYTES, TAG_BYTES; lia).
  assert (take IV_BYTES (iv ++ tag ++ enc) = iv) as -> by (by apply take_app_length').
  assert (drop IV_BYTES (iv ++ tag ++ enc) = tag ++ enc) as -> by (by apply drop_app_length').
  assert (take TAG_BYTES (tag ++ enc) = tag) as -> by (by apply take_app_length').
  assert (drop (IV_BYTES + TAG_BYTES) (iv ++ tag ++ enc) = enc) as ->; [|done].
  rewrite app_assoc. apply drop_app_length'. by rewrite length_app, Hiv, Ht.
Qed.

Lemma local_decrypt_encrypt cek r p ctx env ctx' :
  fresh r → local_encrypt sha256 cek r p ctx = Ok env →
  local_decrypt sha256 cek (ciphertext env) (wrappedDek env) (keyRef env) ctx' =
  match gcm_open (r_dek r) (r_iv r) (aadFor ctx') (gcm_seal (r_dek r) (r_iv r) (aadFor ctx) p).2
                 (gcm_seal (r_dek r) (r_iv r) (aadFor ctx) p).1 with
  | Some q => Ok q
  | None => Throw (Error "Unsupported state or unable to authenticate data")
  end.
Proof.
  intros (Hd & Hi & Hw) [= <-]. unfold local_decrypt. simpl. rewrite String.eqb_refl. simpl.
  rewrite open_sealed, gcm_open_seal by done. cbn [mbind res_bind]. by rewrite open_sealed.
Qed.

Lemma createKms_cases e kms : createKms sha256 readFileSync e = Ok kms →
  (∃ cek, kms = {| encrypt := local_encrypt sha256 cek; decrypt := local_decrypt sha256 cek |}) ∨
  (∃ provider hint, kms = NotImplementedKms provider hint).
Proof.
  unfold createKms, LocalKeyfileKms. repeat destruct (String.eqb _ _); intros Hk; inv_ok; [by left; eexists|by right; eexists _, _..].
Qed.

Lemma createKms_lawful e kms : createKms sha256 readFileSync e = Ok kms → lawful kms.
Proof.
  intros [[cek ->]|(p & h & ->)]%createKms_cases r pl ctx env Hr Henc; [|done].
  simpl in *. by rewrite (local_decrypt_encrypt cek r pl ctx env ctx), gcm_open_seal.
Qed.

Lemma aadFor_inj ctx ctx' : aadFor ctx = aadFor ctx' → nullish ctx "" = nullish ctx' "".
Proof.
  unfold aadFor. intros Heq%(f_equal of_bytes). rewrite !of_bytes_bytes_of in Heq. by injection Heq.
Qed.

(** This very envelope is forged for another context: the cipher accepts the ciphertext and the tag that were made of
    [p] for [org], with the key and the nonce they were made with, under the associated data of [other], which differ. *)
Definition accepted_elsewhere (r : Randomness) (p : list Z) (org other : option string) (q : list Z) : Prop :=
  let '(enc, tag) := gcm_seal (r_dek r) (r_iv r) (aadFor org) p in
  aadFor other ≠ aadFor org ∧ gcm_open (r_dek r) (r_iv r) (aadFor other) tag enc = Some q.

(** C29: Tenant binding: with any configured provider, an envelope made for one tenant (the global context counts as
    a tenant) decrypts in the same context to what was encrypted. In another context it decrypts to a text exactly
    when the cipher accepts the ciphertext and the tag of this envelope, with the key and the nonce drawn for it,
    under associated data that are not those it was sealed with, and opens it to that text; otherwise decryption
    throws. So with a cipher that authenticates its associated data no tenant reads the envelope of another. *)
Theorem envelope_bound_to_tenant e kms r p org env other :
  createKms sha256 readFileSync e = Ok kms → fresh r → encrypt kms r p org = Ok env →
  let opened := decrypt kms (ciphertext env) (wrappedDek env) (keyRef env) other in
  (nullish other "" = nullish org "" → opened = Ok p) ∧
  (nullish other "" ≠ nullish org "" →
     (∀ q, opened = Ok q ↔ accepted_elsewhere r p org other q) ∧
     ((∀ q, ¬ accepted_elsewhere r p org other q) → is_ok opened = false)).
Proof.
  intros [[cek ->]|(pr & h & ->)]%createKms_cases Hr Henc; [|done]. cbn [decrypt encrypt] in *. cbv zeta.
  rewrite (local_decrypt_encrypt cek r p org env other Hr Henc). unfold accepted_elsewhere.
  pose proof (gcm_open_seal (r_dek r) (r_iv r) (aadFor org) p) as Hown.
  destruct (gcm_seal _ _ _ _) as [enc tag]. cbn [fst snd] in *. split.
  - intros Heq. assert (aadFor other = aadFor org) as -> by (unfold aadFor; by rewrite Heq). by rewrite Hown.
  - intros Hne. assert (aadFor other ≠ aadFor org) as Ha by (by intros ?%aadFor_inj).
    clear Hown. case (gcm_open (r_dek r) (r_iv r) (aadFor other) tag enc) as [q'|].
    + split; [intros q; split; [by intros [= ->]|by intros [_ [= ->]]]|]. intros Hno. by destruct (Hno q').
    + split; [intros q; split; [done|by intros [_ ?]]|done].
Qed.
End adapter.

(** * The store's contract *)

(** The keys of the table: unique ids and, as the unique indexes say, one row per organization and
    name. *)
Record keyed (db : SecretDB) : Prop := {
  k_ids : NoDup (map s_id (secrets db));
  k_names : NoDup (map (λ r, (s_org r, s_name r)) (secrets db)) }.

Lemma find_secret_Some db org name r :
  find_secret db org name = Some r → has_key org name r ∧ r ∈ secrets db.
Proof.
  intros ([n y] & H & ->)%fmap_Some. apply list_find_Some in H as (Hl & Hk & _).
  split; [done|]. by apply list_elem_of_lookup_2 in Hl.
Qed.

Lemma find_secret_map db f org name :
  (∀ r, s_org (f r) = s_org r ∧ s_name (f r) = s_name r) →
  find_secret (set_secrets (map f (secrets db)) db) org name = f <$> find_secret db org name.
Proof.
  intros Hf. unfold find_secret. simpl. induction (secrets db) as [|r l IH]; [done|]. cbn [map list_find].
  destruct (Hf r) as [Ho Hn].
  destruct (decide (has_key org name (f r))) as [H1|H1], (decide (has_key org name r)) as [H2|H2];
    unfold has_key in *; [done|destruct H2; intuition congruence|destruct H1; intuition congruence|].
  destruct (list_find _ l) as [[? ?]|], (list_find _ (map f l)) as [[? ?]|]; simpl in *; congruence.
Qed.

Lemma same_id_same_row db r1 r2 :
  keyed db → r1 ∈ secrets db → r2 ∈ secrets db → s_id r1 = s_id r2 → r1 = r2.
Proof.
  intros [Hnd _] [i Hi]%list_elem_of_lookup [j Hj]%list_elem_of_lookup Heq.
  assert (i = j) as ->; [|congruence].
  apply (NoDup_lookup (s_id <$> secrets db) i j (s_id r1)); [done| |];
    rewrite list_lookup_fmap; [rewrite Hi|rewrite Hj]; simpl; congruence.
Qed.

Lemma find_secret_snoc db x org name :
  find_secret (set_secrets (secrets db ++ [x]) db) org name =
  match find_secret db org name with
  | Some r => Some r
  | None => if decide (has_key org name x) then Some x else None
  end.
Proof.
  unfold find_secret. simpl. induction (secrets db) as [|r l IH]; cbn [app list_find].
  - by destruct (decide (has_key _ _ _)).
  - destruct (decide (has_key org name r)); [done|].
    assert (∀ o : option (nat * SecretRow), snd <$> (prod_map S id <$> o) = snd <$> o) as Hpm
      by (by intros [[? ?]|]).
    rewrite !Hpm. exact IH.
Qed.

Lemma write_envelope_spec now rid org name env db db' :
  keyed db → rid ∉ map s_id (secrets db) →
  write_envelope now rid org name env db = (Ok tt, db') →
  keyed db' ∧ systemAudits db' = systemAudits db ∧
  (∀ org' name', (org', name') ≠ (org, name) → find_secret db' org' name' = find_secret db org' name') ∧
  ∃ r, find_secret db' org name = Some r ∧ s_ciphertext r = ciphertext env ∧
    s_wrappedDek r = wrappedDek env ∧ s_keyRef r = keyRef env ∧ s_updatedAt r = now ∧
    s_version r = from_option (λ r, s_version r + 1)%Z 1%Z (find_secret db org name).
Proof.
  intros Hk Hrid Hw. unfold write_envelope, gets, modify, mbind, M_bind in Hw.
  destruct (find_secret db org name) as [old|] eqn:Hold; injection Hw as <-.
  - destruct (find_secret_Some _ _ _ _ Hold) as [[Ho Hn] Hin].
    set (f := λ r, if decide (s_id r = s_id old) then with_envelope env (s_version r + 1) now r else r).
    assert (∀ r, s_org (f r) = s_org r ∧ s_name (f r) = s_name r) as Hf
      by (intros r; unfold f; by case_decide).
    change (rotate (s_id old) env now (secrets db)) with (map f (secrets db)). split_and!.
    + destruct Hk as [Hi Hnm]. split; simpl; rewrite map_map.
      * erewrite map_ext; [exact Hi|]. intros r. unfold f. by case_decide.
      * erewrite map_ext; [exact Hnm|]. intros r. unfold f. by case_decide.
    + done.
    + intros org' name' Hne. rewrite find_secret_map by done.
      destruct (find_secret db org' name') as [r|] eqn:Hr; [|done]. simpl. unfold f.
      destruct (find_secret_Some _ _ _ _ Hr) as [[Ho' Hn'] Hin']. rewrite decide_False; [done|].
      intros Hid. assert (r = old) as -> by (by eapply same_id_same_row). congruence.
    + exists (f old). rewrite find_secret_map, Hold by done. split; [done|]. unfold f. by rewrite !decide_True.
  - set (row := {| s_id := rid |}). split_and!; [|done|..].
    + destruct Hk as [Hi Hnm]. split; simpl; rewrite map_app; apply NoDup_app;
        (split_and!; [done| |apply NoDup_singleton]); intros y Hy ->%list_elem_of_singleton; [done|].
      apply list_elem_of_fmap in Hy as (r & [= Ho Hn] & Hin).
      unfold find_secret in Hold. apply fmap_None, list_find_None in Hold. rewrite Forall_forall in Hold.
      by apply (Hold r Hin).
    + intros org' name' Hne. rewrite find_secret_snoc. destruct (find_secret db org' name'); [done|].
      rewrite decide_False; [done|]. intros [Ho Hn]. simpl in *. congruence.
    + exists row. rewrite find_secret_snoc, Hold, decide_True by done. done.
Qed.

(** [put], or [putWithSystemAudit] with an event. *)
Definition store_secret (kms : KmsAdapter) (now : Z) (rid : string) (rnd : Randomness)
    (org : option string) (name : string) (p : list Z) (audit : option SystemAudit) : M SecretDB unit :=
  match audit with
  | None => put kms now rid rnd org name p
  | Some a => putWithSystemAudit kms now rid rnd org name p a
  end.

Section contract.
Context `{AeadLaws} (sha256 : list Z → string) (readFileSync : string → res string).

Lemma store_secret_spec e kms now rid rnd org name p audit db r db' :
  createKms sha256 readFileSync e = Ok kms → fresh rnd → keyed db → rid ∉ map s_id (secrets db) →
  store_secret kms now rid rnd org name p audit db = (r, db') →
  match r with
  | Throw _ => db' = db
  | Ok _ =>
      getVersioned kms db' org name =
        Ok (Some (p, from_option (λ r, s_version r + 1)%Z 1%Z (find_secret db org name), now)) ∧
      (∀ org' name', (org', name') ≠ (org, name) →
         find_secret db' org' name' = find_secret db org' name') ∧
      keyed db' ∧ systemAudits db' = systemAudits db ++ option_list audit
  end.
Proof.
  intros Hkms Hrnd Hk Hrid Hrun. destruct (encrypt kms rnd p org) as [env|err] eqn:Henc.
  2: { destruct audit; unfold store_secret, put, putWithSystemAudit, mbind, M_bind, lift in Hrun;
       rewrite Henc in Hrun; by injection Hrun as <- <-. }
  destruct (write_envelope now rid org name env db) as [[[]|err] db1] eqn:Hw.
  2: { unfold write_envelope, gets, modify, mbind, M_bind in Hw. by destruct (find_secret db org name). }
  destruct (write_envelope_spec _ _ _ _ _ _ _ Hk Hrid Hw) as (Hk1 & Ha1 & Hother & row & Hrow & Hct & Hwd & Hkr & Hup & Hv).
  assert (getVersioned kms db1 org name =
    Ok (Some (p, from_option (λ r, s_version r + 1)%Z 1%Z (find_secret db org name), now))) as Hget.
  { unfold getVersioned. rewrite Hrow, Hct, Hwd, Hkr, (createKms_lawful _ _ _ _ Hkms rnd p org env Hrnd Henc).
    simpl. by rewrite Hv, Hup. }
  destruct audit as [a|]; unfold store_secret, put, putWithSystemAudit, transaction, modify, mbind, M_bind, lift in Hrun;
    rewrite Henc, Hw in Hrun; injection Hrun as <- <-.
  - split_and!; [exact Hget|exact Hother| |simpl; by rewrite Ha1]. destruct Hk1. by split.
  - split_and!; [done..|]. by rewrite app_nil_r.
Qed.

(** The store is a versioned map: whichever provider is configured, storing a secret either
    throws and leaves the table as it was, or makes [getVersioned] return exactly the plaintext with
    the version one above the previous one (1 for a new secret), leaves every other secret's row
    untouched, keeps ids and (organization, name) pairs unique, and records the audit event it was
    given in the same transaction. *)
Theorem secret_put_get e kms now rid rnd org name p audit db r db' :
  createKms sha256 readFileSync e = Ok kms → fresh rnd → keyed db → rid ∉ map s_id (secrets db) →
  store_secret kms now rid rnd org name p audit db = (r, db') →
  match r with
  | Throw _ => db' = db
  | Ok _ =>
      getVersioned kms db' org name =
        Ok (Some (p, from_option (λ r, s_version r + 1)%Z 1%Z (find_secret db org name), now)) ∧
      (∀ org' name', (org', name') ≠ (org, name) →
         find_secret db' org' name' = find_secret db org' name') ∧
      keyed db' ∧ systemAudits db' = systemAudits db ++ option_list audit
  end.
Proof. apply store_secret_spec. Qed.
End contract.

(** * Witnesses *)

Definition sumZ (l : list Z) : Z := foldr Z.add 0%Z l.
#[export] Instance toy_aead : Aead := {
  gcm_seal := λ k iv aad p, (p, replicate 16 (sumZ k + sumZ iv + 3 * sumZ aad + sumZ p)%Z);
  gcm_open := λ k iv aad tag enc,
    if decide (tag = replicate 16 (sumZ k + sumZ iv + 3 * sumZ aad + sumZ enc)%Z) then Some enc else None }.
#[export] Instance toy_laws : AeadLaws.
Proof. split; intros; simpl; [done|]. by rewrite decide_True. Qed.

Definition demo_keys : env := λ k,
  if String.eqb k "HARA_KMS_MASTER_KEY"
  then Some "00112233445566778899aabbccddeeff00112233445566778899AABBCCDDEEFF" else None.
Definition demo_rnd : Randomness :=
  {| r_dek := replicate 32 7%Z; r_iv := replicate 12 1%Z; r_wrapIv := replicate 12 2%Z |}.
Definition demo_sha (_ : list Z) : string := "0123456789abcdef0123".
Definition demo_read (_ : string) : res string := Throw (Error "ENOENT").
Definition demo_cek : list Z :=
  Eval vm_compute in match loadMasterKey demo_read demo_keys with Ok k => k | Throw _ => [] end.
Definition demo_kms : KmsAdapter :=
  {| encrypt := local_encrypt demo_sha demo_cek; decrypt := local_decrypt demo_sha demo_cek |}.
Definition demo_audit : SystemAudit :=
  {| y_action := "provider.key.rotate"; y_actorType := "admin"; y_actorId := "u1"; y_payload := JObj [] |}.

Lemma demo_kms_ok :
  createKms demo_sha demo_read demo_keys = Ok demo_kms.
Proof.
  unfold createKms, LocalKeyfileKms.
  assert (kmsProvider demo_keys = "local") as -> by (vm_compute; reflexivity).
  assert (loadMasterKey demo_read demo_keys = Ok demo_cek) as -> by (vm_compute; reflexivity).
  reflexivity.
Qed.
Lemma demo_fresh : fresh demo_rnd.
Proof. done. Qed.
Lemma empty_keyed : keyed {| secrets := []; systemAudits := [] |}.
Proof. split; constructor. Qed.

Lemma secret_put_get_witness : ∃ db',
  store_secret demo_kms 9 "s1" demo_rnd None "upstream.api_key" [115; 107]%Z (Some demo_audit)
    {| secrets := []; systemAudits := [] |} = (Ok tt, db') ∧
  getVersioned demo_kms db' None "upstream.api_key" = Ok (Some ([115; 107]%Z, 1%Z, 9%Z)).
Proof.
  eexists. split; [vm_compute; reflexivity|].
  refine (proj1 (secret_put_get demo_sha demo_read demo_keys demo_kms
    9 "s1" demo_rnd None "upstream.api_key" [115; 107]%Z (Some demo_audit)
    {| secrets := []; systemAudits := [] |} (Ok tt) _ demo_kms_ok demo_fresh empty_keyed _ _)).
  - apply not_elem_of_nil.
  - vm_compute. reflexivity.
Defined.

(** The toy cipher can be forged for two tenants whose names have the same character sum, and for no others. *)
Lemma envelope_bound_to_tenant_witness : ∃ env,
  encrypt demo_kms demo_rnd [115; 107]%Z (Some "ad") = Ok env ∧
  decrypt demo_kms (ciphertext env) (wrappedDek env) (keyRef env) (Some "ad") = Ok [115; 107]%Z ∧
  is_ok (decrypt demo_kms (ciphertext env) (wrappedDek env) (keyRef env) (Some "zz")) = false ∧
  accepted_elsewhere demo_rnd [115; 107]%Z (Some "ad") (Some "bc") [115; 107]%Z.
Proof.
  eexists. split; [vm_compute; reflexivity|].
  split; [|split].
  - refine (proj1 (envelope_bound_to_tenant demo_sha demo_read demo_keys demo_kms demo_rnd [115; 107]%Z (Some "ad") _ (Some "ad")
      demo_kms_ok demo_fresh _) eq_refl). vm_compute. reflexivity.
  - refine (proj2 (proj2 (envelope_bound_to_tenant demo_sha demo_read demo_keys demo_kms demo_rnd [115; 107]%Z (Some "ad") _ (Some "zz")
      demo_kms_ok demo_fresh _) _) _); [vm_compute; reflexivity|vm_compute; discriminate|].
    intros q. vm_compute. by intros [_ [=]].
  - refine (proj1 (proj1 (proj2 (envelope_bound_to_tenant demo_sha demo_read demo_keys demo_kms demo_rnd [115; 107]%Z (Some "ad") _ (Some "bc")
      demo_kms_ok demo_fresh _) _) _) _); [vm_compute; reflexivity|vm_compute; discriminate|vm_compute; reflexivity].
Defined.

(** The refusal itself, on the same envelope and a tenant that does not collide. *)
Example other_tenant_refused :
  match encrypt demo_kms demo_rnd [115; 107]%Z (Some "ad") with
  | Ok env => decrypt demo_kms (ciphertext env) (wrappedDek env) (keyRef env) (Some "zz")
  | Throw e => Throw e
  end = Throw (Error "Unsupported state or unable to authenticate data").
Proof. vm_compute. reflexivity. Qed.
