(* ===== verification/Hub.v ===== *)
(** What the audit and licence services offer besides the audited transactions and the checks of a licence: the
    single events of [src/audit/audit.service.ts] and the issuing of a licence by the hub
    ([src/license/license.ts]). Ed25519, SHA-256 and the reading of JSON are parameters. *)
From S2P Require Import Prelude Js Crypto AuditStore AuditLog Access Secrets.
Local Open Scope Z_scope.

(** * Single events *)

Section events.
Context (sha256 : string → string).

(** [log]: an audited transaction without a mutation. [rid n] and [now n] are the identifier and the time the
    [n]-th attempt draws; the append of an attempt is that of [AuditLog]. *)
Definition log (others : nat → list AuditRow → list AuditRow) (commit : nat → option exn) (rid : string) (now : Z)
    (org action aType aId : string) (p : payload_arg) : M (list AuditRow) unit :=
  AuditLog.transact (λ o q d, append sha256 d rid now o action aType aId q) others commit
    (λ db, (Ok (tt, org, Some p), db)).

(** [logSystem]: a row of the control-plane trail, outside the chains. *)
Definition logSystem (action aType aId : string) (p : json) : M SecretDB unit :=
  modify (λ db, {| secrets := secrets db;
    systemAudits := systemAudits db ++ [{| y_action := action; y_actorType := aType; y_actorId := aId; y_payload := p |}] |}).
End events.

(** * Issuing a licence *)

Module Hub.
Import License.
Section hub.
Context (ed25519_sign : string → list Z → list Z) (ed25519_verify : string → list Z → list Z → bool)
  (parse_claims : string → option LicenseClaims).

(** [JSON.stringify(claims)], the members in the order of the type. *)
Definition claims_json (c : LicenseClaims) : json :=
  JObj [("hubOrgId", JStr (hubOrgId c)); ("plan", JStr (plan c)); ("seatLimit", JNum (inject_Z (seatLimit c)));
        ("features", JArr (map JStr (features c))); ("notBefore", JNum (inject_Z (notBefore c)));
        ("notAfter", JNum (inject_Z (notAfter c))); ("graceDays", JNum (inject_Z (graceDays c)))].
Definition signLicense (privateKeyPem : string) (c : LicenseClaims) : string :=
  let payload := bytes_of (JSON_stringify (claims_json c)) in
  b64uEncode payload +:+ "." +:+ b64uEncode (ed25519_sign privateKeyPem payload).

(** The decoder reads the url-safe alphabet back. *)
Lemma url_char_back i : is_sextet i → is_char "=" (url_char i) = false ∧ b64_index (url_char i) = Some i.
Proof.
  intros Hi. assert (∃ n : nat, (n < 64)%nat ∧ i = Z.of_nat n) as (n & Hn & ->) by (exists (Z.to_nat i); unfold is_sextet in Hi; lia).
  do 64 (destruct n as [|n]; [by vm_compute|]). lia.
Qed.
Lemma from_base64_url buf : Forall is_byte buf → from_base64 (b64uEncode buf) = buf.
Proof.
  intros H. unfold from_base64. rewrite b64uEncode_chars by done.
  assert (∀ l, Forall is_sextet l → b64_valid (map url_char l) = l) as Hback.
  { induction 1 as [|i l Hi _ IH]; [done|]. cbn [map b64_valid]. destruct (url_char_back i Hi) as [-> ->]. by rewrite IH. }
  rewrite Hback by (by apply b64_digits_range). by apply b64_undigits_digits.
Qed.
Lemma b64uEncode_nonempty buf : Forall is_byte buf → buf ≠ [] → truthy (b64uEncode buf) = true.
Proof.
  intros H Hne. apply truthy_true. intros He. apply (f_equal chars) in He. rewrite b64uEncode_chars in He by done.
  destruct buf as [|a [|b [|c l]]]; done.
Qed.

(** A licence the hub signs is one a runtime accepts. For a key pair whose public half verifies what the private
    half signs, the token of [signLicense] passes [verifyLicense] with exactly the claims that were signed,
    so the boot of a deployment configured with it ends with those claims. *)
Theorem licence_roundtrip private public c (e : env) :
  (∀ m, ed25519_verify public m (ed25519_sign private m) = true) →
  (∀ m, Forall is_byte (ed25519_sign private m) ∧ ed25519_sign private m ≠ []) →
  parse_claims (JSON_stringify (claims_json c)) = Some c →
  e "HARA_LICENSE" = Some (signLicense private c) → e "HARA_LICENSE_PUBKEY" = Some public → public ≠ "" →
  verifyLicense ed25519_verify parse_claims public (signLicense private c) = Ok c ∧
  onModuleInit ed25519_verify parse_claims e = Ok (Some c).
Proof.
  intros Hpair Hsig Hparse Htoken Hpub Hne. set (payload := bytes_of (JSON_stringify (claims_json c))).
  assert (Forall is_byte payload) as Hbytes by apply bytes_of_is_byte.
  assert (payload ≠ []) as Hpayload by done. destruct (Hsig payload) as [Hs Hs0].
  assert (split "." (signLicense private c) = [b64uEncode payload; b64uEncode (ed25519_sign private payload)]) as Hsplit.
  { unfold signLicense. fold payload. apply (split_join "." [_; _]); [done|].
    repeat (apply Forall_cons_2; [by apply b64uEncode_no_dot|]). constructor. }
  assert (verifyLicense ed25519_verify parse_claims public (signLicense private c) = Ok c) as Hok.
  { unfold verifyLicense. rewrite Hsplit. cbv zeta.
    change (default "" ([?a; ?b] !! 0%nat)) with a. change (default "" ([?a; ?b] !! 1%nat)) with b.
    rewrite !b64uEncode_nonempty, !from_base64_url, Hpair by done. cbn [negb orb].
    unfold payload. by rewrite of_bytes_bytes_of, Hparse. }
  split; [done|]. unfold onModuleInit. rewrite Htoken, Hpub. cbv zeta. change (nullish (Some ?x) "") with x.
  assert (truthy (signLicense private c) = true) as ->.
  { apply truthy_true. intros He. rewrite He in Hok. by vm_compute in Hok. }
  rewrite (proj2 (truthy_true _) Hne). cbn [andb]. by rewrite Hok.
Qed.
End hub.
End Hub.

(** * Properties of single events *)

Section single.
Context (sha256 : string → string).

(** A single event is one more link of an intact chain. When [log] returns, the organization's chain is intact and
    exactly one row longer than in the database its last attempt saw, if the other transactions keep that chain
    intact; when it throws, nothing was appended. *)
Theorem log_extends_chain others commit rid now org action aType aId p db r db' :
  (∀ n d, ok (verify sha256 d org) = true → ok (verify sha256 (others n d) org) = true) →
  ok (verify sha256 db org) = true →
  log sha256 others commit rid now org action aType aId p db = (r, db') →
  ok (verify sha256 db' org) = true ∧
  ∃ n, (n < 4)%nat ∧ let seen := foldl (λ d k, others k d) db (List.seq 0 (S n)) in
    match r with
    | Ok _ => count (verify sha256 db' org) = S (count (verify sha256 seen org))
    | Throw _ => db' = seen
    end.
Proof.
  intros Hothers Hok Hrun. apply transact_from_spec in Hrun as (n & Hn & Hspec); [|lia..]. rewrite Nat.sub_0_r in Hspec.
  cbv zeta in *. set (seen := foldl _ _ _) in *.
  assert (ok (verify sha256 seen org) = true) as Hseen.
  { assert (∀ l d, ok (verify sha256 d org) = true → ok (verify sha256 (foldl (λ d k, others k d) d l) org) = true) as Hfold.
    { induction l as [|k l IH]; intros d Hd; [done|]. cbn [foldl]. apply IH. by apply Hothers. }
    by apply Hfold. }
  destruct r as [u|er].
  - destruct Hspec as [_ Hrun]. unfold attempt_body, modify, mbind, M_bind, mret, M_ret in Hrun. cbn [default] in Hrun.
    injection Hrun as _ <-. destruct (append_keeps sha256 seen rid now org action aType aId p Hseen) as (H1 & H2).
    split; [done|]. exists n. split; [lia|done].
  - destruct Hspec as (-> & _). split; [done|]. exists n. split; [lia|done].
Qed.
End single.

(** * Witnesses *)

Import License Hub.
Definition pair_sign (k : string) (m : list Z) : list Z := bytes_of k ++ bytes_of "!".
Definition pair_verify (k : string) (m sig : list Z) : bool := bool_decide (sig = bytes_of k ++ bytes_of "!").
Definition hub_env : env := λ k,
  if String.eqb k "HARA_LICENSE" then Some (signLicense pair_sign "k" sample_license)
  else if String.eqb k "HARA_LICENSE_PUBKEY" then Some "k" else None.
Definition sample_text : string := JSON_stringify (claims_json sample_license).
Definition hub_parse (s : string) : option LicenseClaims := if String.eqb s sample_text then Some sample_license else None.
Lemma pair_bytes m : Forall is_byte (pair_sign "k" m) ∧ pair_sign "k" m ≠ [].
Proof. split; [|done]. apply Forall_app. split; apply bytes_of_is_byte. Qed.

Lemma licence_roundtrip_witness :
  verifyLicense pair_verify hub_parse "k" (signLicense pair_sign "k" sample_license) = Ok sample_license ∧
  onModuleInit pair_verify hub_parse hub_env = Ok (Some sample_license).
Proof.
  apply (licence_roundtrip pair_sign pair_verify hub_parse "k" "k" sample_license hub_env).
  - intros m. by apply bool_decide_eq_true.
  - exact pair_bytes.
  - unfold hub_parse, sample_text. by rewrite String.eqb_refl.
  - reflexivity.
  - reflexivity.
  - discriminate.
Defined.

Lemma log_extends_chain_witness : ∃ db',
  log AuditLog.demo_sha (λ _ d, d) AuditLog.demo_commit "r9" 2000 "o" "enroll" "device" "d2" [] AuditLog.demo_db = (Ok tt, db') ∧
  ok (verify AuditLog.demo_sha db' "o") = true.
Proof.
  eexists. split; [vm_compute; reflexivity|].
  refine (proj1 (log_extends_chain AuditLog.demo_sha (λ _ d, d) AuditLog.demo_commit "r9" 2000 "o" "enroll" "device" "d2" [] AuditLog.demo_db (Ok tt) _
    (λ _ _ H, H) _ _)); vm_compute; reflexivity.
Defined.
