(* ===== verification/ControlDb.v ===== *)
(** The tables of [prisma/schema.prisma] that the enrollment, service-binding and device-revocation
    services share, with the setters and the audit trail of their state. Rows keep the columns these
    services read or write; times are milliseconds. The organization rows are those of [OrgTree]. The encrypted secrets are the state of [Secrets]. *)
From S2P Require Import Prelude Js Table AuditStore OrgTree KeyPolicy Secrets.
Local Open Scope Z_scope.

Inductive TenantServiceKind := MODEL_CONTROL | DESK_TASKS | COLLAB | EXTENSION_CATALOG.
Inductive TenantServiceMode := HARA_HOSTED | CUSTOMER_HOSTED.
Inductive TenantServiceRegion := CN | GLOBAL.
Inductive TenantServiceStatus := PENDING_VERIFICATION | ACTIVE | DEGRADED | DISABLED.
#[export] Instance TenantServiceKind_eq_dec : EqDecision TenantServiceKind.
Proof. solve_decision. Defined.
#[export] Instance TenantServiceStatus_eq_dec : EqDecision TenantServiceStatus.
Proof. solve_decision. Defined.

Record Person := { pe_id : string; pe_org : string; pe_email : string; pe_name : string }.
Record TenantServiceBinding := {
  t_id : string; t_orgId : string; service : TenantServiceKind; mode : TenantServiceMode;
  accountRegion : TenantServiceRegion; apiOrigin : string; issuer : option string;
  jwksUri : option string; audience : option string; credentialRef : option string;
  t_status : TenantServiceStatus; capabilitiesVersion : Z; configVersion : Z; verifiedAt : option Z;
  t_createdAt : Z; t_updatedAt : Z }.
Record EnrollCode := {
  ec_id : string; ec_org : string; ec_code : string; ec_model : string; ec_reasoningEffort : string;
  ec_baseUrl : option string; ec_expiresAt : Z; ec_usedAt : option Z; ec_policy : StoredColumns;
  ec_person : option string }.
Record Device := {
  v_id : string; v_org : string; v_name : string; v_os : string; v_haraVersion : string;
  v_lastSeenAt : Z; v_enrollCode : option string; v_person : option string;
  revocationRequestedAt : option Z; revocationCompletedAt : option Z;
  deskProvisionedAt : option Z; deskCleanupPendingAt : option Z;
  deskOwner : option string; deskOrigin : option string }.
Record DeviceToken := {
  k_device : string; k_hash : string; k_gatewayKeyId : string; k_model : string;
  k_reasoningEffort : string; k_expiresAt : option Z; k_revokedAt : option Z;
  k_budgetLimits : json; k_rpmLimit : option Z; k_tpmLimit : option Z; k_createdAt : Z }.

Record ControlDB := {
  orgs : list OrgTree.Organization; persons : list Person; bindings : list TenantServiceBinding;
  codes : list EnrollCode; devices : list Device; tokens : list DeviceToken; vault : SecretDB;
  audits : list AuditEvent }.

Definition on_bindings (f : list TenantServiceBinding → list TenantServiceBinding) (db : ControlDB) : ControlDB :=
  {| orgs := orgs db; persons := persons db; bindings := f (bindings db); codes := codes db;
     devices := devices db; tokens := tokens db; vault := vault db; audits := audits db |}.
Definition on_codes (f : list EnrollCode → list EnrollCode) (db : ControlDB) : ControlDB :=
  {| orgs := orgs db; persons := persons db; bindings := bindings db; codes := f (codes db);
     devices := devices db; tokens := tokens db; vault := vault db; audits := audits db |}.
Definition on_devices (f : list Device → list Device) (db : ControlDB) : ControlDB :=
  {| orgs := orgs db; persons := persons db; bindings := bindings db; codes := codes db;
     devices := f (devices db); tokens := tokens db; vault := vault db; audits := audits db |}.
Definition on_tokens (f : list DeviceToken → list DeviceToken) (db : ControlDB) : ControlDB :=
  {| orgs := orgs db; persons := persons db; bindings := bindings db; codes := codes db;
     devices := devices db; tokens := f (tokens db); vault := vault db; audits := audits db |}.
Definition with_vault (v : SecretDB) (db : ControlDB) : ControlDB :=
  {| orgs := orgs db; persons := persons db; bindings := bindings db; codes := codes db;
     devices := devices db; tokens := tokens db; vault := v; audits := audits db |}.

#[export] Instance control_audit : AuditStore ControlDB := {
  trail := audits;
  record_event ev db :=
    {| orgs := orgs db; persons := persons db; bindings := bindings db; codes := codes db;
       devices := devices db; tokens := tokens db; vault := vault db; audits := audits db ++ [ev] |};
  trail_record ev db := eq_refl }.

(** A computation on the secret table, on the whole state. *)
Definition in_vault {A} (m : M SecretDB A) : M ControlDB A := λ db,
  let '(r, v) := m (vault db) in (r, with_vault v db).

(** [tenantServiceBinding.findUnique({ where: { orgId_service } })] *)
Definition find_binding (db : ControlDB) (org : string) (s : TenantServiceKind) : option TenantServiceBinding :=
  snd <$> list_find (λ b, t_orgId b = org ∧ service b = s) (bindings db).

Definition find_device (db : ControlDB) (i : string) : option Device := find_by v_id i (devices db).

Definition tokens_of (i : string) (db : ControlDB) : list DeviceToken := filter (λ k, k_device k = i) (tokens db).

(** The Desk columns of a device. *)
Definition with_desk (provisioned pending : option Z) (owner origin : option string) (v : Device) : Device :=
  {| v_id := v_id v; v_org := v_org v; v_name := v_name v; v_os := v_os v;
     v_haraVersion := v_haraVersion v; v_lastSeenAt := v_lastSeenAt v; v_enrollCode := v_enrollCode v;
     v_person := v_person v; revocationRequestedAt := revocationRequestedAt v;
     revocationCompletedAt := revocationCompletedAt v; deskProvisionedAt := provisioned;
     deskCleanupPendingAt := pending; deskOwner := owner; deskOrigin := origin |}.

(** A Desk installation exists, or may exist, for the device. *)
Definition desk_bound (v : Device) : bool := isSome (deskProvisionedAt v) || isSome (deskCleanupPendingAt v).

Lemma find_binding_Some db org s b :
  find_binding db org s = Some b → t_orgId b = org ∧ service b = s ∧ b ∈ bindings db.
Proof.
  intros ([n y] & H & ->)%fmap_Some. apply list_find_Some in H as (Hl & [? ?] & _).
  split_and!; [done..|]. by apply list_elem_of_lookup_2 in Hl.
Qed.
Lemma find_binding_None db org s : find_binding db org s = None ↔
  Forall (λ b, ¬ (t_orgId b = org ∧ service b = s)) (bindings db).
Proof. unfold find_binding. by rewrite fmap_None, list_find_None. Qed.

Lemma in_vault_ok {A} (m : M SecretDB A) db a db' :
  in_vault m db = (Ok a, db') ↔ ∃ v, m (vault db) = (Ok a, v) ∧ db' = with_vault v db.
Proof. unfold in_vault. destruct (m (vault db)) as [r v]. naive_solver. Qed.
