(* ===== verification/Bindings.v ===== *)
(** Organization service bindings ([src/service-bindings/service-bindings.service.ts]): configuring,
    verifying and disabling a connection, and the reservation that fences a Desk installation. Every
    mutation is one transaction under the advisory lock of its (organization, service); [others n] is
    what other requests commit at the request's [n]-th suspension point. The network is reached
    through [Ssrf.safeFetch], credentials through [Secrets]. *)
From S2P Require Import Prelude Js Table AuditStore Crypto Ssrf KeyPolicy Secrets Access ControlDb.
Local Open Scope nat_scope.

(** * Data *)

Record PublicTenantServiceBinding := {
  p_id : string; p_orgId : string; p_service : TenantServiceKind; p_mode : TenantServiceMode;
  p_accountRegion : TenantServiceRegion; p_apiOrigin : string; p_issuer : option string;
  p_jwksUri : option string; p_audience : option string; p_status : TenantServiceStatus;
  p_capabilitiesVersion : Z; p_configVersion : Z; credentialConfigured : bool;
  p_verifiedAt : option Z; p_createdAt : Z; p_updatedAt : Z }.
Record EnrollmentServiceBinding := {
  tenant_id : string; eb_service : TenantServiceKind; eb_mode : TenantServiceMode;
  account_region : TenantServiceRegion; api_origin : string; eb_issuer : option string;
  jwks_uri : option string; eb_audience : option string; capabilities_version : Z; config_version : Z }.
Record UpsertTenantServiceBindingDto := {
  d_mode : TenantServiceMode; d_accountRegion : TenantServiceRegion; d_apiOrigin : string;
  d_issuer : option string; d_jwksUri : option string; d_audience : option string;
  d_credential : option string; d_capabilitiesVersion : option Z }.

Record DeskProvisioningTarget := { target_url : string; enrollKey : list Z }.
(** A resolution; [prepared] is only set by a reservation. *)
Record DeskProvisioningReservation := {
  managedConfigured : bool; target : option DeskProvisioningTarget; prepared : bool }.

Definition MAX_HEALTH_RESPONSE_BYTES : nat := 64 * 1024.
Definition MAX_JWKS_RESPONSE_BYTES : nat := 256 * 1024.

Definition all_services : list (string * TenantServiceKind) :=
  [("MODEL_CONTROL", MODEL_CONTROL); ("DESK_TASKS", DESK_TASKS); ("COLLAB", COLLAB);
   ("EXTENSION_CATALOG", EXTENSION_CATALOG)].
Definition service_str (s : TenantServiceKind) : string :=
  match s with
  | MODEL_CONTROL => "MODEL_CONTROL" | DESK_TASKS => "DESK_TASKS" | COLLAB => "COLLAB"
  | EXTENSION_CATALOG => "EXTENSION_CATALOG"
  end.
Definition status_str (s : TenantServiceStatus) : string :=
  match s with
  | PENDING_VERIFICATION => "PENDING_VERIFICATION" | ACTIVE => "ACTIVE" | DEGRADED => "DEGRADED"
  | DISABLED => "DISABLED"
  end.
Definition mode_str (m : TenantServiceMode) : string :=
  match m with HARA_HOSTED => "HARA_HOSTED" | CUSTOMER_HOSTED => "CUSTOMER_HOSTED" end.
Definition region_str (r : TenantServiceRegion) : string := match r with CN => "CN" | GLOBAL => "GLOBAL" end.

Definition serviceKind (value : string) : res TenantServiceKind :=
  match assoc value all_services with
  | Some k => Ok k
  | None => Throw (BadRequestException "unknown organization service")
  end.

Definition isLoopback (hostname : string) : bool :=
  mem (toLowerCase hostname) ["localhost"; "127.0.0.1"; "[::1]"; "::1"].
(** [CONTROL_CHARACTERS.test(s)] *)
Definition has_control (s : string) : bool := existsb is_control (chars s).
(** [value.replace(/\/$/, "")] *)
Definition strip_slash (s : string) : string :=
  match reverse (chars s) with
  | c :: l => if is_char "/" c then str (reverse l) else s
  | [] => s
  end.
Definition actorType (actor : Guard.AuthedUser) : string :=
  if Guard.viaSharedKey actor then "shared-admin-key" else "admin-user".

Definition publicBinding (row : TenantServiceBinding) : PublicTenantServiceBinding :=
  {| p_id := t_id row; p_orgId := t_orgId row; p_service := service row; p_mode := mode row;
     p_accountRegion := accountRegion row; p_apiOrigin := apiOrigin row; p_issuer := issuer row;
     p_jwksUri := jwksUri row; p_audience := audience row; p_status := t_status row;
     p_capabilitiesVersion := capabilitiesVersion row; p_configVersion := configVersion row;
     credentialConfigured := isSome (credentialRef row); p_verifiedAt := verifiedAt row;
     p_createdAt := t_createdAt row; p_updatedAt := t_updatedAt row |}.

Definition healthPath (s : TenantServiceKind) : string :=
  match s with DESK_TASKS | EXTENSION_CATALOG => "/health" | _ => "/health/ready" end.

Definition safe_audience (s : string) : bool :=
  (0 <? String.length s) && (String.length s <=? 160)
  && forallb (λ c, is_alnum c || is_char "._:/-" c) (chars s).
Definition normalizeAudience (value : option string) : res (option string) :=
  match value with
  | None => Ok None
  | Some v =>
      if String.eqb (trim v) "" then Ok None
      else if negb (String.eqb v (trim v)) || negb (safe_audience v)
      then Throw (BadRequestException "audience is invalid")
      else Ok (Some v)
  end.

Section service.
Context (isIPv6 : string → bool) (URL : string → option url) (resolve : string → string → option string)
  (lookup_at : nat → string → res (list string)) (fetch_at : nat → string → res Response)
  (JSON_parse : string → option json) (kms : KmsAdapter).

Definition normalizeUrl (value : option string) (field : string) (originOnly : bool) : res (option string) :=
  match value with
  | None => Ok None
  | Some v =>
      if String.eqb (trim v) "" then Ok None
      else if (2048 <? String.length v) || has_control v
      then Throw (BadRequestException (field +:+ " is invalid"))
      else match URL (trim v) with
      | None => Throw (BadRequestException (field +:+ " must be an absolute URL"))
      | Some parsed =>
          if (negb (String.eqb (protocol parsed) "https:")
              && negb (String.eqb (protocol parsed) "http:" && isLoopback (hostname parsed)))
             || truthy (username parsed) || truthy (password parsed) || truthy (search parsed)
             || truthy (hash parsed)
             || (originOnly && negb (String.eqb (pathname parsed) "/") && negb (String.eqb (pathname parsed) ""))
          then Throw (BadRequestException (field
                 +:+ " must use HTTPS and must not contain credentials, query, or fragment data"))
          else Ok (Some (if originOnly then origin parsed else strip_slash (href parsed)))
      end
  end.

(** * Readiness probes *)

Definition not_ready : exn := BadGatewayException "organization service readiness check failed".
Definition response_ok (r : Response) : bool := ((200 <=? status_ r) && (status_ r <? 300))%Z.

Definition probe (target : string) (maximumBytes : nat) : res Response :=
  match URL target with
  | None => Throw (BadRequestException "organization service URL is invalid")
  | Some u =>
      match safeFetch isIPv6 URL resolve lookup_at fetch_at (href u)
              {| allowHosts := [toLowerCase (hostname u)]; blockPrivateWhenOpen := false;
                 maxRedirects := numZ 0 |} with
      | Some (Ok response, _) =>
          if num_ltb (numZ (Z.of_nat maximumBytes)) (Number_str (nullish (content_length response) "0"))
             && isFinite (Number_str (nullish (content_length response) "0"))
          then Throw (BadGatewayException "organization service response is too large")
          else Ok response
      | _ => Throw not_ready
      end
  end.
Definition readJson (response : Response) (maximumBytes : nat) (errorMessage : string)
    : res (list (string * json)) :=
  match text response with
  | Throw _ => Throw (BadGatewayException errorMessage)
  | Ok body =>
      if maximumBytes <? String.length body then Throw (BadGatewayException errorMessage)
      else match JSON_parse body with
           | Some (JObj m) => Ok m
           | _ => Throw (BadGatewayException errorMessage)
           end
  end.

(** [body[k] === "s"] *)
Definition says (m : list (string * json)) (k s : string) : bool :=
  match assoc k m with Some (JStr t) => String.eqb t s | _ => false end.
Definition is_true (m : list (string * json)) (k : string) : bool :=
  match assoc k m with Some (JBool b) => b | _ => false end.
Definition healthy (row : TenantServiceBinding) (body : list (string * json)) : bool :=
  let deployment := match assoc "deployment" body with Some (JObj d) => d | _ => [] end in
  match service row with
  | DESK_TASKS =>
      is_true body "ok" && says deployment "mode" "self-hosted"
      && says deployment "tenancy" "single-organization" && says deployment "realmId" (t_orgId row)
  | COLLAB => says body "status" "ready" && says body "service" "hara-collab"
  | _ => says body "status" "ok" || says body "status" "ready"
         || is_true body "ok"
  end.
Definition verifyHealth (row : TenantServiceBinding) : res unit :=
  response ← probe (apiOrigin row +:+ healthPath (service row)) MAX_HEALTH_RESPONSE_BYTES;
  if negb (response_ok response) then Throw not_ready
  else body ← readJson response MAX_HEALTH_RESPONSE_BYTES "organization service readiness check failed";
       throw_if (negb (healthy row body)) not_ready.

Definition bad_key (key : json) : bool := match key with JObj m => isSome (assoc "d" m) | _ => true end.
Definition verifyJwks (u : string) : res unit :=
  let failed := BadGatewayException "organization service JWKS check failed" in
  response ← probe u MAX_JWKS_RESPONSE_BYTES;
  if negb (response_ok response) then Throw failed
  else body ← readJson response MAX_JWKS_RESPONSE_BYTES "organization service JWKS check failed";
       match assoc "keys" body with
       | Some (JArr keys) =>
           throw_if ((length keys <? 1) || (20 <? length keys) || existsb bad_key keys) failed
       | _ => Throw failed
       end.

(** * Database calls *)

Definition withServiceBindingLock {A} (operation : M ControlDB A) : M ControlDB A := transaction operation.
(** What other requests commit while this one is suspended. *)
Definition suspend (others : nat → ControlDB → ControlDB) (n : nat) : M ControlDB unit := modify (others n).

Definition requireOrganization (orgId : string) : M ControlDB unit :=
  os ← gets orgs;
  guard_throw (negb (isSome (find_by OrgTree.id orgId os))) (NotFoundException "organization not found").
Definition hasProvisionedDeskDevices (orgId : string) (db : ControlDB) : bool :=
  existsb (λ v, String.eqb (v_org v) orgId && desk_bound v) (devices db).
Definition find (orgId : string) (s : TenantServiceKind) : M ControlDB TenantServiceBinding :=
  db ← gets (λ db, db);
  require (find_binding db orgId s) (NotFoundException "organization service not found").

(** [audit.log] of a binding request. *)
Definition log_binding (orgId action : string) (actor : Guard.AuthedUser) (p : payload_arg) : M ControlDB unit :=
  audit_log orgId action (actorType actor) (Guard.id actor) p.

(** * Configuring *)

(** The connection a request asks for, validated. *)
Record Connection := {
  c_mode : TenantServiceMode; c_region : TenantServiceRegion; c_origin : string;
  c_issuer : option string; c_jwksUri : option string; c_audience : option string }.
Definition validated (s : TenantServiceKind) (input : UpsertTenantServiceBindingDto) : res Connection :=
  o ← normalizeUrl (Some (d_apiOrigin input)) "apiOrigin" true;
  if absent o then Throw (BadRequestException "apiOrigin is required") else
  i ← normalizeUrl (d_issuer input) "issuer" false;
  j ← normalizeUrl (d_jwksUri input) "jwksUri" false;
  a ← normalizeAudience (d_audience input);
  if bool_decide (s = COLLAB) && (absent i || absent j || absent a)
  then Throw (BadRequestException "COLLAB requires issuer, jwksUri, and audience") else
  _ ← match d_credential input with
      | None => Ok tt
      | Some c =>
          if (String.length c =? 0) || (4096 <? String.length c) || negb (String.eqb c (trim c)) || has_control c
          then Throw (BadRequestException "credential must be 1 to 4096 printable non-padding characters")
          else throw_if (negb (bool_decide (s = DESK_TASKS)))
                 (BadRequestException "only DESK_TASKS accepts an enrollment credential")
      end;
  Ok {| c_mode := d_mode input; c_region := d_accountRegion input; c_origin := nullish o "";
        c_issuer := i; c_jwksUri := j; c_audience := a |}.

(** The row the upsert creates, or the one it writes over [existing]. *)
Definition configured (bid orgId : string) (s : TenantServiceKind) (c : Connection) (ref : option string)
    (caps : option Z) (now : Z) (existing : option TenantServiceBinding) : TenantServiceBinding :=
  {| t_id := from_option t_id bid existing; t_orgId := from_option t_orgId orgId existing;
     service := from_option service s existing; mode := c_mode c; accountRegion := c_region c;
     apiOrigin := c_origin c; issuer := c_issuer c; jwksUri := c_jwksUri c; audience := c_audience c;
     credentialRef := ref; t_status := PENDING_VERIFICATION;
     capabilitiesVersion := default (from_option capabilitiesVersion 1%Z existing) caps;
     configVersion := from_option (λ b, configVersion b + 1)%Z 1%Z existing; verifiedAt := None;
     t_createdAt := from_option t_createdAt now existing; t_updatedAt := now |}.

(** The locked transaction of [upsert]: the new row and the credential it retires. *)
Definition upsert_row (bid orgId : string) (s : TenantServiceKind) (c : Connection) (newRef : option string)
    (caps : option Z) (now : Z) : M ControlDB (TenantServiceBinding * option string) :=
  withServiceBindingLock (
    db ← gets (λ db, db);
    let existing := find_binding db orgId s in
    _ ← guard_throw (bool_decide (s = DESK_TASKS) && hasProvisionedDeskDevices orgId db)
          (ConflictException "revoke every provisioned Desk device before changing this organization binding");
    let ref := match newRef with Some r => Some r | None => existing ≫= credentialRef end in
    let write e := configured bid orgId s c ref caps now e in
    _ ← match existing with
        | None => modify (on_bindings (λ l, l ++ [write None]))
        | Some _ => modify (on_bindings (map (λ b, if decide (t_orgId b = orgId ∧ service b = s)
                                                   then write (Some b) else b)))
        end;
    let retired := match newRef, existing ≫= credentialRef with
                   | Some r, Some old => if String.eqb old r then None else Some old
                   | _, _ => None
                   end in
    mret (write existing, retired)).

Definition remove_secret (orgId : string) (ref : option string) : M ControlDB unit :=
  match ref with Some r => in_vault (remove (Some orgId) r) | None => mret tt end.

Definition upsert (others : nat → ControlDB → ControlDB) (bid uuid rid : string) (rnd : Randomness)
    (now : Z) (orgId rawService : string) (input : UpsertTenantServiceBindingDto) (actor : Guard.AuthedUser)
    : M ControlDB PublicTenantServiceBinding :=
  _ ← requireOrganization orgId;
  s ← lift (serviceKind rawService);
  c ← lift (validated s input);
  let newRef := match d_credential input with
                | Some _ => Some ("tenant-service." +:+ service_str s +:+ "." +:+ uuid) | None => None end in
  _ ← match d_credential input, newRef with
      | Some credential, Some r => in_vault (put kms now rid rnd (Some orgId) r (bytes_of credential))
      | _, _ => mret tt
      end;
  _ ← suspend others 0;
  updated ← try_catch (upsert_row bid orgId s c newRef (d_capabilitiesVersion input) now)
              (λ error, _ ← remove_secret orgId newRef; raise error);
  _ ← suspend others 1;
  _ ← remove_secret orgId (updated.2);
  _ ← log_binding orgId "tenant-service.configure" actor
        [("service", some_str (service_str s)); ("mode", some_str (mode_str (d_mode input)));
         ("accountRegion", some_str (region_str (d_accountRegion input)));
         ("status", some_str "PENDING_VERIFICATION"); ("credentialReplaced", Some (JBool (isSome newRef)));
         ("configVersion", Some (JNum (inject_Z (configVersion (updated.1)))))];
  mret (publicBinding (updated.1)).

(** * Verifying *)

(** What [verify] checks of a row, with the secrets at that moment. *)
Definition check_binding (row : TenantServiceBinding) (v : SecretDB) : res unit :=
  _ ← throw_if (bool_decide (service row = DESK_TASKS) && absent (credentialRef row))
        (BadRequestException "DESK_TASKS requires an encrypted enrollment credential");
  _ ← (if bool_decide (service row = DESK_TASKS) then
         match get kms v (Some (t_orgId row)) (nullish (credentialRef row) "") with
         | Ok (Some credential) =>
             throw_if ((length credential <? 1) || (4096 <? length credential))
               (BadGatewayException "Hara Desk enrollment credential is not readable")
         | _ => Throw (BadGatewayException "Hara Desk enrollment credential is not readable")
         end
       else Ok tt);
  _ ← verifyHealth row;
  match jwksUri row with
  | Some u => if truthy u then verifyJwks u else Ok tt
  | None => Ok tt
  end.

Definition with_status (s : TenantServiceStatus) (at_ : option Z) (now : Z) (b : TenantServiceBinding)
    : TenantServiceBinding :=
  {| t_id := t_id b; t_orgId := t_orgId b; service := service b; mode := mode b;
     accountRegion := accountRegion b; apiOrigin := apiOrigin b; issuer := issuer b; jwksUri := jwksUri b;
     audience := audience b; credentialRef := credentialRef b; t_status := s;
     capabilitiesVersion := capabilitiesVersion b; configVersion := configVersion b; verifiedAt := at_;
     t_createdAt := t_createdAt b; t_updatedAt := now |}.
(** [update({ where: { id }, data })] *)
Definition update_binding (i : string) (f : TenantServiceBinding → TenantServiceBinding) : M ControlDB unit :=
  modify (on_bindings (update_by t_id i f)).

Definition commitVerificationResult (probed : TenantServiceBinding) (s : TenantServiceStatus) (at_ : option Z)
    (now : Z) : M ControlDB (option TenantServiceBinding) :=
  withServiceBindingLock (
    db ← gets (λ db, db);
    match find_binding db (t_orgId probed) (service probed) with
    | None => mret None
    | Some current =>
        if negb (String.eqb (t_id current) (t_id probed))
           || negb (configVersion current =? configVersion probed)%Z
        then mret None
        else _ ← update_binding (t_id current) (with_status s at_ now);
             mret (Some (with_status s at_ now current))
    end).

Definition changed : exn :=
  ConflictException "organization service changed while its previous configuration was being verified".
Definition verify (others : nat → ControlDB → ControlDB) (now : Z) (orgId rawService : string)
    (actor : Guard.AuthedUser) : M ControlDB PublicTenantServiceBinding :=
  s ← lift (serviceKind rawService);
  row ← find orgId s;
  _ ← suspend others 0;
  v ← gets vault;
  match check_binding row v with
  | Throw error =>
      _ ← suspend others 1;
      degraded ← commitVerificationResult row DEGRADED None now;
      d ← require degraded changed;
      _ ← log_binding orgId "tenant-service.verify-failed" actor
            [("service", some_str (service_str s)); ("status", some_str "DEGRADED");
             ("configVersion", Some (JNum (inject_Z (configVersion d))))];
      raise error
  | Ok _ =>
      _ ← suspend others 1;
      committed ← commitVerificationResult row ACTIVE (Some now) now;
      b ← require committed changed;
      _ ← log_binding orgId "tenant-service.verify" actor
            [("service", some_str (service_str s)); ("status", some_str "ACTIVE");
             ("configVersion", Some (JNum (inject_Z (configVersion b))))];
      mret (publicBinding b)
  end.

(** * Disabling and listing *)

Definition disabled_row (now : Z) (b : TenantServiceBinding) : TenantServiceBinding :=
  {| t_id := t_id b; t_orgId := t_orgId b; service := service b; mode := mode b;
     accountRegion := accountRegion b; apiOrigin := apiOrigin b; issuer := issuer b; jwksUri := jwksUri b;
     audience := audience b; credentialRef := credentialRef b; t_status := DISABLED;
     capabilitiesVersion := capabilitiesVersion b; configVersion := configVersion b + 1; verifiedAt := None;
     t_createdAt := t_createdAt b; t_updatedAt := now |}.
Definition disable_row (orgId : string) (s : TenantServiceKind) (now : Z) : M ControlDB TenantServiceBinding :=
  withServiceBindingLock (
    db ← gets (λ db, db);
    row ← require (find_binding db orgId s) (NotFoundException "organization service not found");
    _ ← guard_throw (bool_decide (s = DESK_TASKS) && hasProvisionedDeskDevices orgId db)
          (ConflictException "revoke every provisioned Desk device before disabling this organization binding");
    _ ← update_binding (t_id row) (disabled_row now);
    mret (disabled_row now row)).
Definition disable (now : Z) (orgId rawService : string) (actor : Guard.AuthedUser)
    : M ControlDB PublicTenantServiceBinding :=
  s ← lift (serviceKind rawService);
  disabled ← disable_row orgId s now;
  _ ← log_binding orgId "tenant-service.disable" actor
        [("service", some_str (service_str s)); ("status", some_str "DISABLED");
         ("configVersion", Some (JNum (inject_Z (configVersion disabled))))];
  mret (publicBinding disabled).

(** [orderBy: { service: "asc" }]: an enum in the order of its declaration. *)
Definition service_rank (s : TenantServiceKind) : nat :=
  match s with MODEL_CONTROL => 0 | DESK_TASKS => 1 | COLLAB => 2 | EXTENSION_CATALOG => 3 end.
Definition by_service (l : list TenantServiceBinding) : list TenantServiceBinding :=
  sort_by (λ b, Z.of_nat (service_rank (service b))) l.
Definition list_bindings (orgId : string) : M ControlDB (list PublicTenantServiceBinding) :=
  _ ← requireOrganization orgId;
  l ← gets bindings;
  mret (map publicBinding (by_service (filter (λ b, t_orgId b = orgId) l))).

Definition activeForEnrollment (db : ControlDB) (orgId : string) : list EnrollmentServiceBinding :=
  let shown o := if absent o then None else o in
  map (λ row, {| tenant_id := t_orgId row; eb_service := service row; eb_mode := mode row;
                 account_region := accountRegion row; api_origin := apiOrigin row;
                 eb_issuer := shown (issuer row); jwks_uri := shown (jwksUri row);
                 eb_audience := shown (audience row); capabilities_version := capabilitiesVersion row;
                 config_version := configVersion row |})
    (by_service (filter (λ b, t_orgId b = orgId ∧ t_status b = ACTIVE) (bindings db))).

(** * Desk credentials *)

(** [secrets.get] of an enrollment credential, bounded. *)
Definition readable_key (v : SecretDB) (orgId ref : string) (err : exn) : res (list Z) :=
  o ← get kms v (Some orgId) ref;
  match o with
  | Some k => if (length k <? 1) || (4096 <? length k) then Throw err else Ok k
  | None => Throw err
  end.
Definition resolution (configured : bool) (t : option DeskProvisioningTarget) : DeskProvisioningReservation :=
  {| managedConfigured := configured; target := t; prepared := false |}.

Definition deskProvisioningResolution (db : ControlDB) (orgId : string) : res DeskProvisioningReservation :=
  match find_binding db orgId DESK_TASKS with
  | None => Ok (resolution false None)
  | Some row =>
      if negb (bool_decide (t_status row = ACTIVE)) then Ok (resolution true None)
      else if absent (credentialRef row)
      then Throw (Error "active Hara Desk binding has no enrollment credential reference")
      else k ← readable_key (vault db) orgId (nullish (credentialRef row) "")
                 (Error "active Hara Desk binding has no readable enrollment credential");
           Ok (resolution true (Some {| target_url := apiOrigin row; enrollKey := k |}))
  end.

Definition deskRevocationResolution (db : ControlDB) (orgId expectedOrigin : string)
    : res DeskProvisioningReservation :=
  expected ← normalizeUrl (Some expectedOrigin) "expected Desk origin" true;
  if absent expected then Throw (BadRequestException "expected Desk origin is required for revocation") else
  match find_binding db orgId DESK_TASKS with
  | None => Ok (resolution false None)
  | Some row =>
      if negb (String.eqb (apiOrigin row) (nullish expected ""))
      then Throw (ConflictException "managed Hara Desk binding does not match the enrolled installation origin")
      else if absent (credentialRef row)
      then Throw (Error "managed Hara Desk binding has no enrollment credential reference")
      else k ← readable_key (vault db) orgId (nullish (credentialRef row) "")
                 (Error "managed Hara Desk binding has no readable enrollment credential");
           Ok (resolution true (Some {| target_url := apiOrigin row; enrollKey := k |}))
  end.

(** * The reservation of an installation *)

(** [device.update({ where: { id }, data: { deskProvisionedAt: null, deskCleanupPendingAt, ... } })] *)
Definition mark_pending (deviceId owner origin : string) (preparedAt : Z) : M ControlDB unit :=
  db ← gets (λ db, db);
  _ ← require (find_device db deviceId) (PrismaError "P2025");
  modify (on_devices (update_by v_id deviceId (with_desk None (Some preparedAt) (Some owner) (Some origin)))).

(** The locked transaction: the reservation, and the route and credential reference it captured. *)
Definition reserve_row (orgId deviceId owner : string) (preparedAt : Z) (legacyOrigin : option string)
    : M ControlDB (DeskProvisioningReservation * option (string * string)) :=
  withServiceBindingLock (
    db ← gets (λ db, db);
    match find_binding db orgId DESK_TASKS with
    | Some row =>
        if negb (bool_decide (t_status row = ACTIVE)) then mret (resolution true None, None)
        else if absent (credentialRef row)
        then raise (Error "active Hara Desk binding has no enrollment credential reference")
        else _ ← mark_pending deviceId owner (apiOrigin row) preparedAt;
             mret ({| managedConfigured := true; target := None; prepared := true |},
                   Some (apiOrigin row, nullish (credentialRef row) ""))
    | None =>
        if absent legacyOrigin then mret (resolution false None, None)
        else _ ← mark_pending deviceId owner (nullish legacyOrigin "") preparedAt;
             mret ({| managedConfigured := false; target := None; prepared := true |}, None)
    end).

Definition clearDeskProvisioningReservation (orgId deviceId owner origin : string) : M ControlDB unit :=
  withServiceBindingLock (modify (on_devices (map (λ v,
    if decide (v_id v = deviceId ∧ v_org v = orgId ∧ deskProvisionedAt v = None ∧ isSome (deskCleanupPendingAt v) = true
               ∧ deskOwner v = Some owner ∧ deskOrigin v = Some origin)
    then with_desk None None None None v else v)))).

Definition reserveDeskProvisioning (others : nat → ControlDB → ControlDB) (orgId deviceId owner : string)
    (preparedAt : Z) (legacyOrigin : option string) : M ControlDB DeskProvisioningReservation :=
  captured ← reserve_row orgId deviceId owner preparedAt legacyOrigin;
  match captured with
  | (r, None) => mret r
  | (r, Some (capturedUrl, ref)) =>
      _ ← suspend others 0;
      v ← gets vault;
      match readable_key v orgId ref (Error "active Hara Desk binding has no readable enrollment credential") with
      | Ok k => mret {| managedConfigured := true;
                        target := Some {| target_url := capturedUrl; enrollKey := k |}; prepared := true |}
      | Throw error =>
          _ ← suspend others 1;
          _ ← clearDeskProvisioningReservation orgId deviceId owner capturedUrl;
          raise error
      end
  end.
End service.

(** * Atomic steps *)

(** A binding row is found through any map that keeps organizations and services. *)
Lemma find_binding_map db f org s :
  (∀ b, t_orgId (f b) = t_orgId b ∧ service (f b) = service b) →
  find_binding (on_bindings (map f) db) org s = f <$> find_binding db org s.
Proof.
  intros Hf. unfold find_binding. simpl. induction (bindings db) as [|b l IH]; [done|]. cbn [map list_find].
  destruct (Hf b) as [Ho Hs].
  destruct (decide (t_orgId (f b) = org ∧ service (f b) = s)) as [H1|H1],
    (decide (t_orgId b = org ∧ service b = s)) as [H2|H2]; [done|destruct H2; intuition congruence|
    destruct H1; intuition congruence|].
  destruct (list_find _ l) as [[? ?]|], (list_find _ (map f l)) as [[? ?]|]; simpl in *; congruence.
Qed.
Lemma find_binding_snoc db x org s :
  find_binding (on_bindings (λ l, l ++ [x]) db) org s =
  match find_binding db org s with
  | Some r => Some r
  | None => if decide (t_orgId x = org ∧ service x = s) then Some x else None
  end.
Proof.
  unfold find_binding. simpl. induction (bindings db) as [|r l IH]; cbn [app list_find].
  - by destruct (decide _).
  - destruct (decide (t_orgId r = org ∧ service r = s)); [done|].
    assert (∀ o : option (nat * TenantServiceBinding), snd <$> (prod_map S id <$> o) = snd <$> o) as Hpm
      by (by intros [[? ?]|]).
    rewrite !Hpm. exact IH.
Qed.

(** One transaction of a binding request, or any commit that leaves the bindings alone and only binds
    a device to a Desk it was already bound to. *)
Inductive bstep : ControlDB → ControlDB → Prop :=
  | b_upsert bid org s c ref caps now db : bstep db (upsert_row bid org s c ref caps now db).2
  | b_commit probed s at_ now db : bstep db (commitVerificationResult probed s at_ now db).2
  | b_disable org s now db : bstep db (disable_row org s now db).2
  | b_reserve org dev owner preparedAt legacy db :
      Forall (λ v, v_id v = dev → v_org v = org) (devices db) →
      bstep db (reserve_row org dev owner preparedAt legacy db).2
  | b_clear org dev owner origin db : bstep db (clearDeskProvisioningReservation org dev owner origin db).2
  | b_other db db' :
      bindings db' = bindings db →
      (∀ v', v' ∈ devices db' → desk_bound v' = true → ∃ v, v ∈ devices db ∧ desk_bound v = true ∧
         v_org v = v_org v' ∧ deskOrigin v = deskOrigin v') →
      bstep db db'.

(** The fence: while a Desk installation exists or may exist for a device, the organization's Desk
    connection, if there is one, is the one it was made through, and has a credential. *)
Definition fenced (db : ControlDB) : Prop := ∀ v b,
  v ∈ devices db → desk_bound v = true → find_binding db (v_org v) DESK_TASKS = Some b →
  deskOrigin v = Some (apiOrigin b) ∧ absent (credentialRef b) = false.

Lemma bound_devices db org v :
  hasProvisionedDeskDevices org db = false → v ∈ devices db → v_org v = org → desk_bound v = true → False.
Proof.
  intros Hh Hin <- Hb. apply not_true_iff_false in Hh. apply Hh, existsb_exists. exists v.
  split; [by apply list_elem_of_In|]. by rewrite String.eqb_refl, Hb.
Qed.

(** A change of the bindings that keeps the route and the credential of every Desk row keeps the fence. *)
Lemma fenced_map db f :
  (∀ b, t_orgId (f b) = t_orgId b ∧ service (f b) = service b) →
  (∀ b, b ∈ bindings db → service b = DESK_TASKS →
     (apiOrigin (f b) = apiOrigin b ∧ credentialRef (f b) = credentialRef b) ∨
     hasProvisionedDeskDevices (t_orgId b) db = false) →
  fenced db → fenced (on_bindings (map f) db).
Proof.
  intros Hf Hkeep Hfen v b Hv Hb Hfind. rewrite find_binding_map in Hfind by done.
  destruct (find_binding db (v_org v) DESK_TASKS) as [b0|] eqn:Hb0; [|done]. injection Hfind as <-.
  destruct (find_binding_Some _ _ _ _ Hb0) as (Ho & Hs & Hin).
  destruct (Hkeep b0 Hin Hs) as [[-> ->]|Hh]; [by apply Hfen|].
  exfalso. by eapply (bound_devices db (t_orgId b0) v).
Qed.

Lemma upsert_row_fenced bid org s c ref caps now db :
  fenced db → fenced (upsert_row bid org s c ref caps now db).2.
Proof.
  intros Hf. unfold upsert_row, withServiceBindingLock, transaction, gets, modify, guard_throw, raise, mbind,
    M_bind, mret, M_ret. destruct (bool_decide (s = DESK_TASKS) && _) eqn:Hg; [done|].
  assert (s = DESK_TASKS → hasProvisionedDeskDevices org db = false) as Hnone.
  { intros ->. by rewrite bool_decide_eq_true_2 in Hg. }
  destruct (find_binding db org s) as [b0|] eqn:Hb0; cbn [snd].
  - apply fenced_map; [| |done].
    + intros b. by destruct (decide (t_orgId b = org ∧ service b = s)).
    + intros b Hin Hs. destruct (decide (t_orgId b = org ∧ service b = s)) as [Hd|]; [|by left]. right. destruct Hd as [-> Hd]. apply Hnone. congruence.
  - intros v b Hv Hb Hfind. rewrite find_binding_snoc in Hfind.
    destruct (find_binding db (v_org v) DESK_TASKS) as [b'|] eqn:Hb'; [injection Hfind as <-; by apply Hf|].
    destruct (decide _) as [[Ho Hs]|]; [|done]. exfalso. simpl in Ho, Hs.
    simpl in Hv. eapply (bound_devices db org v); [by apply Hnone|exact Hv|by rewrite Ho|exact Hb].
Qed.

Lemma update_binding_fenced i f db :
  (∀ b, t_orgId (f b) = t_orgId b ∧ service (f b) = service b ∧ apiOrigin (f b) = apiOrigin b ∧
        credentialRef (f b) = credentialRef b) →
  fenced db → fenced (on_bindings (update_by t_id i f) db).
Proof.
  intros Hf. unfold update_by. apply fenced_map.
  - intros b. case_decide; [|done]. destruct (Hf b) as (? & ? & _). done.
  - intros b _ _. left. case_decide; [|done]. by destruct (Hf b) as (_ & _ & ? & ?).
Qed.

Lemma mark_pending_fenced org dev owner origin preparedAt db :
  Forall (λ v, v_id v = dev → v_org v = org) (devices db) →
  (∀ b, find_binding db org DESK_TASKS = Some b → origin = apiOrigin b ∧ absent (credentialRef b) = false) →
  fenced db → fenced (mark_pending dev owner origin preparedAt db).2.
Proof.
  intros Horg Hrow Hf. unfold mark_pending, gets, modify, require, raise, mbind, M_bind, mret, M_ret.
  destruct (find_device db dev); [|done]. cbn [snd]. intros v b Hv Hb Hfind. simpl in Hv.
  change (find_binding db (v_org v) DESK_TASKS = Some b) in Hfind.
  apply elem_of_update_by in Hv as (v0 & Hin & ->). case_decide as Hd; [|by apply Hf].
  rewrite Forall_forall in Horg. simpl in *. rewrite (Horg v0 Hin Hd) in Hfind.
  destruct (Hrow b Hfind) as [-> ?]. done.
Qed.

Lemma bstep_fenced db db' : bstep db db' → fenced db → fenced db'.
Proof.
  destruct 1 as [| | | |org dev owner origin db|db db' Hb Hd]; intros Hf.
  - by apply upsert_row_fenced.
  - unfold commitVerificationResult, withServiceBindingLock, transaction, gets, mbind, M_bind, mret, M_ret.
    destruct (find_binding _ _ _); [|done]. destruct (_ || _); [done|]. by apply update_binding_fenced.
  - unfold disable_row, withServiceBindingLock, transaction, gets, guard_throw, require, raise, mbind, M_bind, mret, M_ret.
    destruct (find_binding _ _ _); [|done]. destruct (_ && _); [done|]. by apply update_binding_fenced.
  - unfold reserve_row, withServiceBindingLock, transaction, gets, mbind, M_bind, mret, M_ret, raise.
    destruct (find_binding db org DESK_TASKS) as [row|] eqn:Hrow.
    + destruct (negb _); [done|]. destruct (absent (credentialRef row)) eqn:Ha; [done|].
      pose proof (mark_pending_fenced org dev owner (apiOrigin row) preparedAt db H) as Hm.
      destruct (mark_pending _ _ _ _ db) as [[?|?] ?]; [|done]. apply Hm; [|done]. intros b. rewrite Hrow.
      by intros [= <-].
    + destruct (absent legacy); [done|].
      pose proof (mark_pending_fenced org dev owner (nullish legacy "") preparedAt db H) as Hm.
      destruct (mark_pending _ _ _ _ db) as [[?|?] ?]; [|done]. apply Hm; [|done]. by rewrite Hrow.
  - unfold clearDeskProvisioningReservation, withServiceBindingLock, transaction, modify. cbn [snd].
    intros v b Hv Hb Hfind. simpl in Hv. change (find_binding db (v_org v) DESK_TASKS = Some b) in Hfind.
    apply list_elem_of_fmap in Hv as (v0 & -> & Hin). case_decide; [done|]. by apply Hf.
  - intros v b Hv Hbv Hfind. destruct (Hd v Hv Hbv) as (v0 & Hin & Hb0 & Ho & Hor).
    rewrite <-Hor. apply Hf; [done..|]. unfold find_binding in *. by rewrite Ho, <-Hb.
Qed.

(** The requests are sequences of these steps, whatever the others do in between. *)
Section requests.
Context (others : nat → ControlDB → ControlDB).
Hypothesis Hothers : ∀ n db, rtc bstep db (others n db).

Lemma unbound_step db db' : bindings db' = bindings db → devices db' = devices db → bstep db db'.
Proof. intros Hb Hd. apply b_other; [done|]. rewrite Hd. intros v ? ?. by exists v. Qed.
Lemma suspend_runs n : runs_in bstep (suspend others n).
Proof. apply runs_in_modify. intros db. apply Hothers. Qed.
Lemma in_vault_runs {A} (m : M SecretDB A) : runs_in bstep (in_vault m).
Proof. apply runs_in_step. intros db. unfold in_vault. destruct (m (vault db)). by apply unbound_step. Qed.
Lemma remove_secret_runs org ref : runs_in bstep (remove_secret org ref).
Proof. destruct ref; [apply in_vault_runs|apply runs_in_ret]. Qed.
Lemma log_runs org action actor p : runs_in bstep (log_binding org action actor p).
Proof. apply runs_in_step. intros db. by apply unbound_step. Qed.

#[local] Hint Resolve suspend_runs in_vault_runs remove_secret_runs log_runs : runs_in.
#[local] Hint Extern 1 (runs_in _ (upsert_row _ _ _ _ _ _ _)) => apply runs_in_step; intros; constructor : runs_in.
#[local] Hint Extern 1 (runs_in _ (disable_row _ _ _)) => apply runs_in_step; intros; constructor : runs_in.
#[local] Hint Extern 1 (runs_in _ (commitVerificationResult _ _ _ _)) => apply runs_in_step; intros; constructor : runs_in.
#[local] Hint Extern 2 (runs_in _ (match ?x with _ => _ end)) => destruct x : runs_in.

Context (isIPv6 : string → bool) (URL : string → option url) (resolve : string → string → option string)
  (lookup_at : nat → string → res (list string)) (fetch_at : nat → string → res Response)
  (JSON_parse : string → option json) (kms : KmsAdapter).

Lemma upsert_runs bid uuid rid rnd now org raw input actor :
  runs_in bstep (upsert URL kms others bid uuid rid rnd now org raw input actor).
Proof. unfold upsert, requireOrganization. auto 30 with runs_in. Qed.
Lemma verify_runs now org raw actor :
  runs_in bstep (verify isIPv6 URL resolve lookup_at fetch_at JSON_parse kms others now org raw actor).
Proof. unfold verify, find. auto 30 with runs_in. Qed.
Lemma disable_runs now org raw actor : runs_in bstep (disable now org raw actor).
Proof. unfold disable. auto 30 with runs_in. Qed.
End requests.

Lemma bsteps_fenced db db' : rtc bstep db db' → fenced db → fenced db'.
Proof. induction 1; eauto using bstep_fenced. Qed.

Inductive request :=
  | ReqUpsert (bid uuid rid : string) (rnd : Randomness) (input : UpsertTenantServiceBindingDto)
  | ReqVerify
  | ReqDisable.

Section theorems.
Context (isIPv6 : string → bool) (URL : string → option url) (resolve : string → string → option string)
  (lookup_at : nat → string → res (list string)) (fetch_at : nat → string → res Response)
  (JSON_parse : string → option json) (kms : KmsAdapter).
Context (others : nat → ControlDB → ControlDB).

Definition handle (r : request) (now : Z) (orgId rawService : string) (actor : Guard.AuthedUser)
    : M ControlDB PublicTenantServiceBinding :=
  _ ← lift (Guard.assertAdminOrgAccess actor orgId);
  match r with
  | ReqUpsert bid uuid rid rnd input => upsert URL kms others bid uuid rid rnd now orgId rawService input actor
  | ReqVerify => verify isIPv6 URL resolve lookup_at fetch_at JSON_parse kms others now orgId rawService actor
  | ReqDisable => disable now orgId rawService actor
  end.

(** C26: The Desk fence. Take a request of the binding service, with other commits before it and at every point where
    it is suspended: the transactions of the binding service itself (configure, commit a verification, disable,
    reserve a Desk for a device of the organization, clear a reservation), and any commit that leaves the bindings
    alone and binds no device to a Desk it was not already bound to. Starting from a fenced state, in the state after
    it a device that has, or may have, a Desk installation finds its organization's Desk connection, if one is
    configured, still on the origin it was provisioned through and with a credential; so revoking the installation
    resolves to that very origin, and can only fail if the credential itself is unreadable. The last write of an
    enrollment is one of these commits only while the reservation it made stands: it does not look, and after a
    revocation of the device and a move of the organization to another Desk it breaks the fence
    ([Lifecycle.fence_broken_by_enrolling_device]). *)
Theorem desk_fence db r now orgId rawService actor :
  (∀ n d, rtc bstep d (others n d)) → fenced db →
  let db' := (handle r now orgId rawService actor (others 0 db)).2 in
  fenced db' ∧
  ∀ v o, v ∈ devices db' → desk_bound v = true → deskOrigin v = Some o → truthy o = true →
    normalizeUrl URL (Some o) "expected Desk origin" true = Ok (Some o) →
    deskRevocationResolution URL kms db' (v_org v) o = Ok (resolution false None) ∨
    ∃ ref, deskRevocationResolution URL kms db' (v_org v) o =
      (k ← readable_key kms (vault db') (v_org v) ref
             (Error "managed Hara Desk binding has no readable enrollment credential");
       Ok (resolution true (Some {| target_url := o; enrollKey := k |}))).
Proof.
  intros Ho Hf db'. assert (fenced db') as Hf'.
  { eapply bsteps_fenced; [|exact Hf]. etrans; [apply (Ho 0)|]. unfold db'.
    unfold handle. apply runs_in_bind; [apply runs_in_lift|]. intros _.
    destruct r; [by apply upsert_runs|by apply verify_runs|by apply disable_runs]. }
  split; [done|]. intros v o Hv Hb Hor Ht Hn. unfold deskRevocationResolution. rewrite Hn.
  cbn [mbind res_bind]. change (absent (Some o)) with (negb (truthy o)). rewrite Ht. cbn [negb].
  destruct (find_binding db' (v_org v) DESK_TASKS) as [b|] eqn:Hfind; [|by left]. right.
  destruct (Hf' v b Hv Hb Hfind) as [Heq Hcred]. rewrite Hor in Heq. injection Heq as ->.
  rewrite String.eqb_refl, Hcred. by eexists.
Qed.

(** The part of a binding a probe depends on. *)
Definition connection_of (b : TenantServiceBinding)
    : TenantServiceMode * TenantServiceRegion * string * option string * option string * option string * option string :=
  (mode b, accountRegion b, apiOrigin b, issuer b, jwksUri b, audience b, credentialRef b).
(** The version counts the changes of the connection. *)
Definition evolves (b b' : TenantServiceBinding) : Prop :=
  t_id b' = t_id b ∧ (configVersion b <= configVersion b')%Z ∧
  (configVersion b' = configVersion b → connection_of b' = connection_of b).

Lemma update_evolves db i f org s b :
  (∀ b, t_orgId (f b) = t_orgId b ∧ service (f b) = service b ∧ evolves b (f b)) →
  find_binding db org s = Some b →
  ∃ b', find_binding (on_bindings (update_by t_id i f) db) org s = Some b' ∧ evolves b b'.
Proof.
  intros Hf Hfind. unfold update_by. rewrite find_binding_map.
  - rewrite Hfind. eexists. split; [reflexivity|]. simpl. case_decide; [apply Hf|done].
  - intros c. case_decide; [|done]. by destruct (Hf c) as (? & ? & _).
Qed.

Lemma mark_pending_bindings dev owner origin at_ db : bindings (mark_pending dev owner origin at_ db).2 = bindings db.
Proof.
  unfold mark_pending, gets, modify, require, raise, mbind, M_bind, mret, M_ret. by destruct (find_device db dev).
Qed.

Lemma bstep_evolves db db' org s b :
  bstep db db' → find_binding db org s = Some b → ∃ b', find_binding db' org s = Some b' ∧ evolves b b'.
Proof.
  destruct 1 as [bid o k c ref caps now db|probed st at_ now db|o k now db|o dev owner at_ legacy db ?|o dev owner orig db|db db' Hb ?]; intros Hfind.
  - unfold upsert_row, withServiceBindingLock, transaction, gets, modify, guard_throw, raise, mbind, M_bind, mret, M_ret.
    destruct (_ && _); [by exists b|]. destruct (find_binding db o k) as [b0|]; cbn [snd].
    + rewrite find_binding_map.
      * rewrite Hfind. eexists. split; [reflexivity|].
        destruct (decide (t_orgId b = o ∧ service b = k)); [|done].
        split; [done|]. unfold configured. simpl. split; [lia|]. intros; lia.
      * intros c0. by destruct (decide (t_orgId c0 = o ∧ service c0 = k)).
    + exists b. by rewrite find_binding_snoc, Hfind.
  - unfold commitVerificationResult, withServiceBindingLock, transaction, gets, mbind, M_bind, mret, M_ret.
    destruct (find_binding db (t_orgId probed) (service probed)); [|by exists b].
    destruct (_ || _); [by exists b|]. by apply update_evolves.
  - unfold disable_row, withServiceBindingLock, transaction, gets, guard_throw, require, raise, mbind, M_bind, mret, M_ret.
    destruct (find_binding db o k); [|by exists b]. destruct (_ && _); [by exists b|].
    apply update_evolves; [|done]. intros c. split_and!; [done..|]. split; [done|]. simpl. split; [lia|]. intros; lia.
  - assert (∀ (m : M ControlDB (DeskProvisioningReservation * option (string * string))) d,
      (∀ d, bindings (m d).2 = bindings d) → bindings (transaction m d).2 = bindings d) as Htx.
    { intros m d Hm. unfold transaction. specialize (Hm d). by destruct (m d) as [[?|?] ?]. }
    exists b. split; [|done]. unfold find_binding, reserve_row, withServiceBindingLock. rewrite Htx; [done|].
    intros d. unfold gets, raise, mbind, M_bind, mret, M_ret.
    destruct (find_binding d o DESK_TASKS) as [row|].
    + destruct (negb _); [done|]. destruct (absent (credentialRef row)); [done|].
      pose proof (mark_pending_bindings dev owner (apiOrigin row) at_ d).
      by destruct (mark_pending _ _ _ _ d) as [[?|?] ?].
    + destruct (absent legacy); [done|].
      pose proof (mark_pending_bindings dev owner (nullish legacy "") at_ d).
      by destruct (mark_pending _ _ _ _ d) as [[?|?] ?].
  - by exists b.
  - exists b. split; [|done]. unfold find_binding in *. by rewrite Hb.
Qed.

Lemma bsteps_evolve db db' org s b :
  rtc bstep db db' → find_binding db org s = Some b → ∃ b', find_binding db' org s = Some b' ∧ evolves b b'.
Proof.
  intros Hsteps. revert b. induction Hsteps as [db|db db1 db' Hs _ IH]; intros b Hfind; [by exists b|].
  destruct (bstep_evolves _ _ _ _ _ Hs Hfind) as (b1 & Hf1 & Hid1 & Hle1 & Hc1).
  destruct (IH _ Hf1) as (b2 & Hf2 & Hid2 & Hle2 & Hc2). exists b2. split; [done|].
  split; [congruence|]. split; [lia|]. intros Heq. rewrite Hc2, Hc1 by lia. done.
Qed.

Lemma commit_spec probed st at_ now db r db' :
  commitVerificationResult probed st at_ now db = (Ok (Some r), db') →
  ∃ current, find_binding db (t_orgId probed) (service probed) = Some current ∧ t_id current = t_id probed ∧
    configVersion current = configVersion probed ∧ r = with_status st at_ now current ∧
    find_binding db' (t_orgId probed) (service probed) = Some r.
Proof.
  unfold commitVerificationResult, withServiceBindingLock, transaction, gets, mbind, M_bind, mret, M_ret.
  destruct (find_binding db (t_orgId probed) (service probed)) as [c|] eqn:Hc; [|done].
  destruct (_ || _) eqn:Hg; [done|]. apply orb_false_iff in Hg as [Hi Hv].
  apply negb_false_iff, String.eqb_eq in Hi. apply negb_false_iff, Z.eqb_eq in Hv.
  intros [= <- <-]. exists c. split_and!; [done..|]. unfold update_binding, modify. cbn [snd].
  unfold update_by. rewrite find_binding_map by (intros d; by case_decide). rewrite Hc. simpl. by rewrite decide_True.
Qed.

(** C27: A verification never activates a configuration it did not check: however the transactions of
    other requests interleave with the probe, if [verify] returns then the connection that is stored
    as ACTIVE (origin, issuer, key set, audience, credential, mode and region) is the one that was
    read at the start and passed every check, with the credential store as it was during the probe. *)
Theorem verify_activates_what_it_checked now orgId rawService actor db p db' :
  (∀ n d, rtc bstep d (others n d)) →
  handle ReqVerify now orgId rawService actor db = (Ok p, db') →
  ∃ s row b d, serviceKind rawService = Ok s ∧ find_binding db orgId s = Some row ∧ rtc bstep db d ∧
    check_binding isIPv6 URL resolve lookup_at fetch_at JSON_parse kms row (vault d) = Ok tt ∧
    find_binding db' orgId s = Some b ∧ t_status b = ACTIVE ∧ connection_of b = connection_of row ∧
    p = publicBinding b.
Proof.
  intros Ho Hrun. unfold handle in Hrun. apply bind_ok in Hrun as (u & d0 & Ha & Hrun).
  unfold lift in Ha. injection Ha as _ <-. unfold verify, find in Hrun.
  apply bind_ok in Hrun as (s & d0 & Hs & Hrun). unfold lift in Hs. injection Hs as Hs <-.
  apply bind_ok in Hrun as (row & d1 & Hrow & Hrun). unfold gets, mbind at 1, M_bind at 1 in Hrow.
  apply require_ok in Hrow as [Hrow ->].
  apply bind_ok in Hrun as ([] & d1 & H1 & Hrun). unfold suspend, modify in H1. injection H1 as <-.
  apply bind_ok in Hrun as (v & d1 & H1 & Hrun). unfold gets in H1. injection H1 as <- <-.
  destruct (check_binding _ _ _ _ _ _ _ _ _) as [[]|error] eqn:Hcheck.
  2: { inv_ok. }
  apply bind_ok in Hrun as ([] & d1 & H1 & Hrun). unfold suspend, modify in H1. injection H1 as <-.
  apply bind_ok in Hrun as (committed & d1 & Hcommit & Hrun).
  apply bind_ok in Hrun as (b & d2 & Hb & Hrun). apply require_ok in Hb as [-> ->].
  apply bind_ok in Hrun as ([] & d2 & Hlog & Hrun). unfold log_binding, audit_log, modify in Hlog. injection Hlog as <-.
  unfold mret, M_ret in Hrun. injection Hrun as <- <-.
  destruct (find_binding_Some _ _ _ _ Hrow) as (Horg & Hsrv & _).
  apply commit_spec in Hcommit as (cur & Hcur & Hid & Hver & -> & Hfin). rewrite Horg, Hsrv in Hcur, Hfin.
  assert (rtc bstep db (others 1 (others 0 db))) as Hsteps by (etrans; apply Ho).
  destruct (bsteps_evolve _ _ _ _ _ Hsteps Hrow) as (b' & Hb' & _ & _ & Hconn).
  assert (b' = cur) as -> by congruence.
  exists s, row, (with_status ACTIVE (Some now) now cur), (others 0 db).
  split_and!; [done|done|apply Ho|exact Hcheck|exact Hfin|done|by apply Hconn|done].
Qed.
End theorems.

(** * Witnesses *)

Definition demo_url (s : string) : option url :=
  Some {| protocol := "https:"; hostname := "a.example"; username := ""; password := ""; pathname := "/";
          search := ""; hash := ""; origin := "https://a.example"; href := s |}.
Definition demo_fetch (_ : nat) (_ : string) : res Response :=
  Ok {| status_ := 200; location := None; content_length := Some "2"; text := Ok "ok" |}.
Definition demo_json (s : string) : option json :=
  if String.eqb s "ok" then Some (JObj [("ok", JBool true)]) else None.
Definition demo_lookup (_ : nat) (_ : string) : res (list string) := Ok ["8.8.8.8"].
Definition demo_binding (s : TenantServiceKind) (st : TenantServiceStatus) : TenantServiceBinding :=
  {| t_id := "b" +:+ service_str s; t_orgId := "o1"; service := s; mode := HARA_HOSTED; accountRegion := GLOBAL;
     apiOrigin := "https://a.example"; issuer := None; jwksUri := None; audience := None;
     credentialRef := Some "ref1"; t_status := st; capabilitiesVersion := 1; configVersion := 3;
     verifiedAt := None; t_createdAt := 0; t_updatedAt := 0 |}.
Definition demo_desk_device : Device :=
  {| v_id := "d1"; v_org := "o1"; v_name := "mac"; v_os := ""; v_haraVersion := ""; v_lastSeenAt := 0;
     v_enrollCode := None; v_person := None; revocationRequestedAt := None; revocationCompletedAt := None;
     deskProvisionedAt := Some 5%Z; deskCleanupPendingAt := None; deskOwner := Some "a@b";
     deskOrigin := Some "https://a.example" |}.
Definition demo_org : OrgTree.Organization :=
  {| OrgTree.id := "o1"; OrgTree.name := "Org"; OrgTree.type := OrgTree.COMPANY; OrgTree.parentId := None;
     OrgTree.policy := JObj [] |}.
Definition demo_control : ControlDB :=
  {| orgs := [demo_org]; persons := [];
     bindings := [demo_binding DESK_TASKS ACTIVE; demo_binding EXTENSION_CATALOG PENDING_VERIFICATION];
     codes := []; devices := [demo_desk_device]; tokens := [];
     vault := {| secrets := []; systemAudits := [] |}; audits := [] |}.
Definition demo_admin : Guard.AuthedUser :=
  {| Guard.id := "u1"; Guard.email := "a@b"; Guard.role := Guard.ADMIN; Guard.orgId := Some "o1";
     Guard.viaSharedKey := false |}.
Definition nobody (_ : nat) (db : ControlDB) : ControlDB := db.

Lemma demo_fenced : fenced demo_control.
Proof. by intros v b ->%list_elem_of_singleton _ [= <-]. Qed.

(** Disabling the Desk connection of an organization with an installation is refused. *)
Lemma desk_fence_witness :
  let db' := (handle (λ _, false) demo_url (λ _ _, None) demo_lookup demo_fetch demo_json demo_kms nobody
    ReqDisable 9 "o1" "DESK_TASKS" demo_admin demo_control).2 in
  fenced db' ∧ t_status <$> find_binding db' "o1" DESK_TASKS = Some ACTIVE.
Proof.
  split; [|vm_compute; reflexivity].
  exact (proj1 (desk_fence (λ _, false) demo_url (λ _ _, None) demo_lookup demo_fetch demo_json demo_kms nobody
    demo_control ReqDisable 9 "o1" "DESK_TASKS" demo_admin (λ n d, rtc_refl _ d) demo_fenced)).
Defined.

Lemma verify_activates_what_it_checked_witness : ∃ p db',
  handle (λ _, false) demo_url (λ _ _, None) demo_lookup demo_fetch demo_json demo_kms nobody
    ReqVerify 9 "o1" "EXTENSION_CATALOG" demo_admin demo_control = (Ok p, db') ∧
  ∃ s row b d, serviceKind "EXTENSION_CATALOG" = Ok s ∧ find_binding demo_control "o1" s = Some row ∧
    rtc bstep demo_control d ∧
    check_binding (λ _, false) demo_url (λ _ _, None) demo_lookup demo_fetch demo_json demo_kms row (vault d) = Ok tt ∧
    find_binding db' "o1" s = Some b ∧ t_status b = ACTIVE ∧ connection_of b = connection_of row ∧
    p = publicBinding b.
Proof.
  eexists _, _. split; [vm_compute; reflexivity|].
  apply (verify_activates_what_it_checked (λ _, false) demo_url (λ _ _, None) demo_lookup demo_fetch demo_json
    demo_kms nobody 9 "o1" "EXTENSION_CATALOG" demo_admin demo_control _ _ (λ n d, rtc_refl _ d)).
  vm_compute. reflexivity.
Defined.
