(* ===== verification/Gateway.v ===== *)
(** The seam between the control plane and the data plane ([src/gateway/gateway-adapter.ts]): the
    operations of an adapter as a class, with what the enrollment service relies on as its laws, and the
    in-memory adapter ([src/gateway/mock.adapter.ts]) as the instance that satisfies them. A key is named
    by the alias Control chose, never by the raw key. *)
From S2P Require Import Prelude Js KeyPolicy.
Local Open Scope nat_scope.

(** * Data *)

Record IssuedKey := { issued_key : string; issued_keyId : string; issued_expiresAt : option Z }.
Record SpendRecord := { sp_keyId : string; sp_spend : option Q }.
Record IssueOptions := {
  o_model : string; o_models : option (list string); o_alias : string; o_expiresAt : option Z;
  o_metadata : option (list (string * json)); o_limits : option GatewayKeyLimits }.
Record GatewayUsageBucket := {
  ub_keyId : string; ub_bucketAt : Z; ub_model : string; ub_spend : Q; ub_totalTokens : Q; ub_requests : Q;
  ub_lastRequestAt : Z }.
Record GatewayRollingSpend := { ro_keyId : string; ro_spend5h : Q; ro_spend7d : Q; ro_spend30d : Q }.
Record GatewayPaygUsageReport := {
  rep_source : string; rep_available : bool; rep_buckets : list GatewayUsageBucket;
  rep_rolling : list GatewayRollingSpend }.
(** A meter of a provider's own allowance, in its own unit; the optional members may be absent. *)
Record GatewayNativeAllowanceMeter := {
  mt_keyId : string; mt_id : string; mt_label : string; mt_unit : string; mt_availability : string;
  mt_used : option json; mt_remaining : option json; mt_limit : option json; mt_window : option string;
  mt_resetAt : option Z }.
Record GatewayNativeUsageReport := {
  nat_provider : string; nat_available : bool; nat_authoritative : bool; nat_fetchedAt : Z;
  nat_validUntil : option Z; nat_meters : list GatewayNativeAllowanceMeter }.
Inductive GatewayUsageReport := PaygLedger (r : GatewayPaygUsageReport) | ProviderNative (r : GatewayNativeUsageReport).

(** * Interface *)

(** [G] is the state of the adapter and of the engine behind it. *)
Class GatewayAdapter (G : Type) := {
  issueKey : IssueOptions → M G IssuedKey;
  syncKeyModels : string → list string → M G (list string);
  revokeKey : string → M G unit;
  listSpend : list string → M G (list SpendRecord);
  usage : list string → UsageRange → Z → M G GatewayUsageReport;
  readiness : M G bool }.

(** What Control relies on. [live g a]: the engine accepts a key with the alias [a]. An issued key is
    named by its alias and lives; a key whose revocation returned does not; the other aliases keep their
    state; and an issued key does not outlive the requested expiry by more than the engine's rounding. *)
Class GatewayLaws (G : Type) `{GatewayAdapter G} := {
  live : G → string → bool;
  rounding : Z;
  issue_live o g k g' : issueKey o g = (Ok k, g') → issued_keyId k = o_alias o ∧ live g' (o_alias o) = true;
  issue_expiry o g k g' : issueKey o g = (Ok k, g') →
    match o_expiresAt o with
    | None => issued_expiresAt k = None
    | Some t => ∃ t', issued_expiresAt k = Some t' ∧ (t' <= t + rounding)%Z
    end;
  issue_frame o g r g' a : issueKey o g = (r, g') → a ≠ o_alias o → live g' a = live g a;
  revoke_dead k g u g' : revokeKey k g = (Ok u, g') → live g' k = false;
  revoke_frame k g r g' a : revokeKey k g = (r, g') → a ≠ k → live g' a = live g a;
  sync_frame k l g r g' a : syncKeyModels k l g = (r, g') → live g' a = live g a }.

(** The models a key is issued for: [models?.length ? [...new Set(models)] : model ? [model] : []]. *)
Definition authorized (model : string) (models : option (list string)) : list string :=
  match models with
  | Some (m :: l) => uniq (m :: l)
  | _ => if truthy model then [model] else []
  end.

(** * The in-memory adapter *)
Module Mock.

Record State := { spend : gmap string Q; models : gmap string (list string); issued : nat }.

Section mock.
(** [randomId]: the identifiers of the successive draws. *)
Context (randomId : nat → string → string).

Definition issueKey (o : IssueOptions) : M State IssuedKey := λ g,
  (Ok {| issued_key := randomId (issued g) "sk-hara-mock-"; issued_keyId := o_alias o;
         issued_expiresAt := o_expiresAt o |},
   {| spend := <[o_alias o := 0%Q]> (spend g);
      models := <[o_alias o := authorized (o_model o) (o_models o)]> (models g); issued := S (issued g) |}).
(** [Map.set] adds the alias when it is not there. *)
Definition syncKeyModels (keyId : string) (l : list string) : M State (list string) := λ g,
  (Ok (uniq l), {| spend := spend g; models := <[keyId := uniq l]> (models g); issued := issued g |}).
Definition revokeKey (keyId : string) : M State unit := λ g,
  (Ok tt, {| spend := delete keyId (spend g); models := delete keyId (models g); issued := issued g |}).
Definition listSpend (keyIds : list string) : M State (list SpendRecord) := λ g,
  (Ok (map (λ k, {| sp_keyId := k; sp_spend := Some (nullish (spend g !! k) 0%Q) |}) keyIds), g).
Definition usage (keyIds : list string) (r : UsageRange) (now : Z) : M State GatewayUsageReport := λ g,
  (Ok (PaygLedger {| rep_source := "mock"; rep_available := true; rep_buckets := []; rep_rolling := [] |}), g).
Definition readiness : M State bool := mret true.
End mock.

(** The adapter for a stream of identifiers. *)
Definition adapter (randomId : nat → string → string) : GatewayAdapter State := {|
  Gateway.issueKey := issueKey randomId; Gateway.syncKeyModels := syncKeyModels; Gateway.revokeKey := revokeKey;
  Gateway.listSpend := listSpend; Gateway.usage := usage; Gateway.readiness := readiness |}.

(** An alias is live while its spend is tracked. *)
Definition is_live (g : State) (a : string) : bool := isSome (spend g !! a).

Lemma is_live_insert g a b m i : is_live {| spend := <[a := 0%Q]> (spend g); models := m; issued := i |} b =
  bool_decide (a = b) || is_live g b.
Proof.
  unfold is_live. cbn [spend]. case_bool_decide as H; [subst; by rewrite lookup_insert_eq|].
  by rewrite lookup_insert_ne.
Qed.
Lemma is_live_delete g a b m i : is_live {| spend := delete a (spend g); models := m; issued := i |} b =
  bool_decide (a ≠ b) && is_live g b.
Proof.
  unfold is_live. cbn [spend]. case_bool_decide as H; [by rewrite lookup_delete_ne|].
  subst. by rewrite lookup_delete_eq.
Qed.

#[export] Instance laws randomId : @GatewayLaws State (adapter randomId).
Proof.
  refine {| live := is_live; rounding := 0 |}.
  - intros o g k g' [= <- <-]. split; [done|]. by rewrite is_live_insert, bool_decide_true.
  - intros o g k g' [= <- <-]. cbn. destruct (o_expiresAt o); [|done]. eexists. split; [done|lia].
  - intros o g r g' a [= _ <-] ?. by rewrite is_live_insert, bool_decide_false.
  - intros k g u g' [= _ <-]. rewrite is_live_delete, bool_decide_false; naive_solver.
  - intros k g r g' a [= _ <-] ?. by rewrite is_live_delete, bool_decide_true.
  - by intros k l g r g' a [= _ <-].
Defined.
End Mock.
