(* ===== verification/Desk.v ===== *)
(** The Desk provisioner ([src/enroll/desk-provisioner.ts]): exchanging the server-held enrollment
    secret for a per-device Desk credential, and revoking an installation. The state is the control
    database with the log of the requests that left the process; a response may depend on everything
    sent before it. *)
From S2P Require Import Prelude Js Table Crypto Ssrf Secrets ControlDb Bindings.
Local Open Scope nat_scope.

(** * Data *)

Record ProvisionedDeskBinding := {
  pb_url : string; agent_id : string; pb_owner : string; token : string; credential_generation : Z }.
Record DeskProvisioningInput := {
  orgId : string; owner : string; deviceName : string; installationId : string; platform : string;
  version : string; clientKind : string; instanceId : option string; agentName : option string;
  expectedUrl : option string }.
Record Target := { url_ : string; secret : list Z }.
(** A receipt: the binding with the origin, secret and identities its [compensate] closure captured,
    and the [active] flag. *)
Record DeskProvisioningReceipt := {
  binding : ProvisionedDeskBinding; rc_target : Target; rc_org : string; rc_owner : string;
  rc_installation : string; active : bool }.

(** [prepared_seen] is the caller's [deskCleanupPrepared], which [onPrepared] sets. *)
Record World := { control : ControlDB; sent : list (string * json); prepared_seen : bool }.
Definition set_control (db : ControlDB) (w : World) : World :=
  {| control := db; sent := sent w; prepared_seen := prepared_seen w |}.
Definition in_control {A} (m : M ControlDB A) : M World A := λ w,
  let '(r, db) := m (control w) in (r, set_control db w).

Definition MAX_CONFIG_BYTES : nat := 64 * 1024.
Definition MAX_RESPONSE_BYTES : nat := 64 * 1024.
Definition MAX_DESK_TOKEN_BYTES : nat := 4096.

Section desk.
Context (isIPv6 : string → bool) (URL : string → option url) (resolve : string → string → option string)
  (lookup_at : nat → string → res (list string)) (JSON_parse : string → option json)
  (sha256 : string → string) (kms : KmsAdapter).
(** The network: the response to a request, after the ones already sent. *)
Context (respond : list (string * json) → nat → string → json → res Response).
Context (others : nat → ControlDB → ControlDB).
(** [this.targets], and whether the binding service is injected. *)
Context (targets : list (string * Target)) (has_bindings : bool).

(** * Configuration *)

Definition deskOrigin (value : json) : res string :=
  match value with
  | JStr v =>
      if String.eqb (trim v) "" || (2048 <? String.length v)
      then Throw (Error "HARA_DESK_PROVISIONING_JSON contains an invalid Desk URL")
      else match URL (trim v) with
      | None => Throw (Error "HARA_DESK_PROVISIONING_JSON contains an invalid Desk URL")
      | Some parsed =>
          let loopback := mem (hostname parsed) ["localhost"; "127.0.0.1"; "[::1]"] in
          if (negb (String.eqb (protocol parsed) "https:") && negb (String.eqb (protocol parsed) "http:" && loopback))
             || truthy (username parsed) || truthy (password parsed)
             || (negb (String.eqb (pathname parsed) "/") && negb (String.eqb (pathname parsed) ""))
             || truthy (search parsed) || truthy (hash parsed)
          then Throw (Error "HARA_DESK_PROVISIONING_JSON Desk URLs must be HTTPS origins")
          else Ok (origin parsed)
      end
  | _ => Throw (Error "HARA_DESK_PROVISIONING_JSON contains an invalid Desk URL")
  end.

Definition parse_entry (entry : string * json) : res (string * Target) :=
  let '(org, value) := entry in
  match value with
  | JObj m =>
      if negb (truthy org) || (128 <? String.length org) || has_control org
      then Throw (Error "HARA_DESK_PROVISIONING_JSON contains an invalid organization entry")
      else match assoc "enrollKey" m with
      | Some (JStr k) =>
          if negb (truthy k) || (4096 <? String.length k) || has_control k
          then Throw (Error "HARA_DESK_PROVISIONING_JSON contains an invalid enrollment secret")
          else u ← deskOrigin (nullish (assoc "url" m) JNull);
               Ok (org, {| url_ := u; secret := bytes_of k |})
      | _ => Throw (Error "HARA_DESK_PROVISIONING_JSON contains an invalid enrollment secret")
      end
  | _ => Throw (Error "HARA_DESK_PROVISIONING_JSON contains an invalid organization entry")
  end.
Definition parseDeskProvisioning (raw : option string) : res (list (string * Target)) :=
  let r := nullish raw "" in
  if negb (truthy (trim r)) then Ok []
  else if MAX_CONFIG_BYTES <? String.length r then Throw (Error "HARA_DESK_PROVISIONING_JSON is too large")
  else match JSON_parse r with
       | None => Throw (Error "HARA_DESK_PROVISIONING_JSON must be valid JSON")
       | Some (JObj m) => mapR parse_entry m
       | Some _ => Throw (Error "HARA_DESK_PROVISIONING_JSON must be an organization map")
       end.

Definition boundedIdentity (value : option json) (field : string) (maxLength : nat) : res string :=
  let normalized := match value with Some (JStr s) => trim s | _ => "" end in
  if negb (truthy normalized) || (maxLength <? String.length normalized) || has_control normalized
  then Throw (Error ("Hara Desk returned an invalid " +:+ field))
  else Ok normalized.
Definition bounded (s field : string) (maxLength : nat) : res string :=
  boundedIdentity (Some (JStr s)) field maxLength.

(** * Requests *)

Definition post (base path : string) (body : json) : M World Response := λ w,
  match URL base with
  | None => (Throw (Error "Invalid URL"), w)
  | Some u =>
      match safeFetch isIPv6 URL resolve lookup_at (λ hop a, respond (sent w) hop a body) (base +:+ path)
              {| allowHosts := [toLowerCase (hostname u)]; blockPrivateWhenOpen := false;
                 maxRedirects := numZ 0 |} with
      | Some (r, trace) =>
          (r, {| control := control w; sent := sent w ++ map (λ '(_, a), (a, body)) trace;
                 prepared_seen := prepared_seen w |})
      | None => (Throw (Error "unreachable"), w)
      end
  end.
(** The body of a response, as an object within the size limit. *)
Definition oversized (r : Response) : bool :=
  match Number_str (nullish (content_length r) "0") with
  | Num q => negb (Qle_bool q (inject_Z (Z.of_nat MAX_RESPONSE_BYTES)))
  | _ => false
  end.
Definition read_record (r : Response) (too_large invalid : string) : res (list (string * json)) :=
  if oversized r then Throw (Error too_large) else
  raw ← text r;
  if MAX_RESPONSE_BYTES <? String.length raw then Throw (Error too_large)
  else match JSON_parse raw with Some (JObj m) => Ok m | _ => Throw (Error invalid) end.

Definition revocation (t : Target) (org own inst : string) : json :=
  JObj [("enrollKey", JStr (of_bytes (secret t))); ("owner", JStr own); ("realmId", JStr org);
        ("installationId", JStr inst)].
Definition check_revocation (response : Response) (allowMissing : bool) : res unit :=
  if negb (response_ok response)
  then Throw (Error ("Hara Desk installation revocation failed with HTTP " +:+ pretty (status_ response)))
  else
    record ← read_record response "Hara Desk revocation response is too large" "Hara Desk revocation response is invalid";
    match assoc "revoked" record, assoc "alreadyRevoked" record with
    | Some (JBool revoked), Some (JBool _) =>
        throw_if (negb revoked && negb allowMissing) (Error "Hara Desk did not find the installation to revoke")
    | _, _ => Throw (Error "Hara Desk revocation response is invalid")
    end.
Definition revokeAtTarget (t : Target) (org own inst : string) (allowMissing : bool) : M World unit :=
  response ← post (url_ t) "/provisioning/installations/revoke" (revocation t org own inst);
  lift (check_revocation response allowMissing).

(** * Provisioning *)

Definition register_body (t : Target) (own org name client pid inst dev plat ver : string) : json :=
  JObj [("enrollKey", JStr (of_bytes (secret t))); ("owner", JStr own); ("realmId", JStr org);
        ("name", JStr name); ("client", JStr client); ("provisioningId", JStr pid);
        ("installationId", JStr inst); ("deviceName", JStr dev); ("platform", JStr plat);
        ("version", JStr ver);
        ("capabilities", JArr (map JStr ["tasks"; "comments"; "organization-workbench"; "session-lease"]))].

(** [typeof v === "number" && Number.isSafeInteger(v) && v >= 1] *)
Definition generation (v : option json) : option Z :=
  match v with
  | Some (JNum q) =>
      let n := Qnum q in let d := Zpos (Qden q) in
      if (n mod d =? 0)%Z && (1 <=? n / d)%Z && (n / d <=? MAX_SAFE_INTEGER)%Z then Some (n / d)%Z else None
  | _ => None
  end.
Definition is_one (v : option json) : bool := match v with Some (JNum q) => Qeq_bool q 1 | _ => false end.

(** The checks on a registration response. *)
Definition check_registration (t : Target) (org own client pid inst : string) (response : Response)
    : res ProvisionedDeskBinding :=
  if negb (response_ok response) then Throw (Error "Desk rejected the registration request") else
  record ← read_record response "Desk returned an oversized registration response"
             "Desk returned an invalid registration response";
  if negb (says record "realmId" org) || negb (says record "provisioningId" pid)
     || negb (is_one (assoc "protocolVersion" record))
  then Throw (Error "Desk did not prove the requested organization provisioning identity") else
  returnedOwner ← boundedIdentity (assoc "owner" record) "Desk owner" 256;
  if negb (String.eqb returnedOwner own)
  then Throw (Error "Desk returned a different owner than Control authenticated") else
  returnedClient ← boundedIdentity (assoc "client" record) "Desk client kind" 80;
  if negb (String.eqb returnedClient client)
  then Throw (Error "Desk returned a different client than Control requested") else
  match assoc "device" record with
  | Some (JObj returnedDevice) =>
      i ← boundedIdentity (assoc "installationId" returnedDevice) "Desk installation identity" 160;
      if negb (String.eqb i inst)
         || negb (match assoc "revoked" returnedDevice with Some (JBool false) => true | _ => false end)
      then Throw (Error "Desk returned a different or revoked Control installation") else
      tok ← boundedIdentity (assoc "token" record) "Desk token" MAX_DESK_TOKEN_BYTES;
      match generation (assoc "credentialGeneration" record) with
      | None => Throw (Error "Hara Desk returned an invalid credential generation")
      | Some g =>
          a ← boundedIdentity (assoc "agentId" record) "Desk agent identity" 256;
          Ok {| pb_url := url_ t; agent_id := a; pb_owner := returnedOwner; token := tok; credential_generation := g |}
      end
  | _ => Throw (Error "Desk did not bind the Agent to the Control installation")
  end.

Definition managed_target (t : option DeskProvisioningTarget) : option Target :=
  (λ t, {| url_ := target_url t; secret := enrollKey t |}) <$> t.

Definition is_configured (org : string) : bool := isSome (assoc org targets).

(** The target, and whether the reservation was prepared. *)
Definition resolve_target (input : DeskProvisioningInput) (own : string)
    (reservation : option (string * Z)) : M World (option Target * bool) :=
  let legacy := assoc (orgId input) targets in
  r ← (if has_bindings then
         match reservation with
         | Some (deviceId, preparedAt) =>
             in_control (reserveDeskProvisioning kms others (orgId input) deviceId own preparedAt (url_ <$> legacy))
         | None => db ← gets control; lift (deskProvisioningResolution kms db (orgId input))
         end
       else mret (resolution false None));
  let managed := managed_target (target r) in
  mret (if managedConfigured r then managed else match managed with Some t => Some t | None => legacy end, prepared r).

(** The body of the [try] block after [onPrepared]: register, and check the answer. *)
Definition register (t : Target) (input : DeskProvisioningInput)
    (own dev inst plat ver client instance name : string) : M World DeskProvisioningReceipt :=
  let pid := "control_" +:+ sha256 (JSON_stringify (JArr (map JStr [orgId input; inst; client; instance]))) in
  response ← post (url_ t) "/register" (register_body t own (orgId input) name client pid inst dev plat ver);
  b ← lift (check_registration t (orgId input) own client pid inst response);
  mret {| binding := b; rc_target := t; rc_org := orgId input; rc_owner := own; rc_installation := inst; active := true |}.

(** The [try]/[catch] around it: an uncertain registration is revoked, except on a retryable one. *)
Definition register_or_compensate (t : Target) (input : DeskProvisioningInput)
    (own dev inst plat ver client instance name : string) (compensateOnUncertain : bool)
    : M World DeskProvisioningReceipt :=
  try_catch (register t input own dev inst plat ver client instance name) (λ error,
    if negb compensateOnUncertain
    then raise (Error "Hara Desk Agent provisioning failed; retry the same client and instance")
    else
      confirmed ← try_catch (_ ← revokeAtTarget t (orgId input) own inst true; mret true) (λ _, mret false);
      raise (DeskProvisioningFailure confirmed (url_ t))).

Definition provisionForEnrollment (input : DeskProvisioningInput) (compensateOnUncertain : bool)
    (reservation : option (string * Z)) : M World (option DeskProvisioningReceipt) :=
  own ← lift (bounded (owner input) "Desk owner" 256);
  dev ← lift (bounded (deviceName input) "Desk device name" 256);
  inst ← lift (bounded (installationId input) "Desk installation identity" 160);
  plat ← lift (bounded (or_default (platform input) "unknown") "Desk platform" 40);
  ver ← lift (bounded (or_default (version input) "unknown") "Desk client version" 40);
  client ← lift (bounded (clientKind input) "Desk client kind" 80);
  instance ← lift (bounded (or_default (nullish (instanceId input) "") "default") "Desk Agent instance" 80);
  _ ← guard_throw (negb (String.eqb instance (toLowerCase instance)))
        (Error "Desk Agent instance must use a canonical lowercase identifier");
  name ← lift (bounded (or_default (nullish (agentName input) "") dev) "Desk Agent name" 120);
  expected ← lift (if absent (expectedUrl input) then Ok None
                   else Some <$> deskOrigin (JStr (nullish (expectedUrl input) "")));
  resolved ← resolve_target input own reservation;
  match resolved with
  | (None, _) => mret None
  | (Some t, prepared) =>
      _ ← guard_throw (match expected with Some e => negb (String.eqb e (url_ t)) | None => false end)
            (Error "Hara Desk provisioning target no longer matches the enrolled installation");
      _ ← guard_throw (isSome reservation && has_bindings && negb prepared)
            (Error "Hara Desk provisioning reservation was not prepared");
      _ ← when (isSome reservation) (modify (λ w, {| control := control w; sent := sent w; prepared_seen := true |}));
      Some <$> register_or_compensate t input own dev inst plat ver client instance name compensateOnUncertain
  end.

(** [receipt.release()] and [receipt.compensate()]; a receipt is released after either. *)
Definition release (r : DeskProvisioningReceipt) : DeskProvisioningReceipt :=
  {| binding := binding r; rc_target := rc_target r; rc_org := rc_org r; rc_owner := rc_owner r;
     rc_installation := rc_installation r; active := false |}.
Definition compensate (r : DeskProvisioningReceipt) : M World unit :=
  if negb (active r) then mret tt
  else revokeAtTarget (rc_target r) (rc_org r) (rc_owner r) (rc_installation r) false.

Definition provision (input : DeskProvisioningInput) : M World (option ProvisionedDeskBinding) :=
  receipt ← provisionForEnrollment input false None;
  mret (binding <$> receipt).

Definition revokeInstallation (org own inst : string) (expected : option string) (allowMissing : bool)
    : M World bool :=
  let legacy := assoc org targets in
  db ← gets control;
  r ← lift (if negb has_bindings then Ok (resolution false None)
            else if absent expected then deskProvisioningResolution kms db org
            else deskRevocationResolution URL kms db org (nullish expected ""));
  let managed := managed_target (target r) in
  match (if managedConfigured r then managed else match managed with Some t => Some t | None => legacy end) with
  | None =>
      if absent expected then mret false
      else raise (Error "Hara Desk revocation credential is unavailable for this enrolled installation")
  | Some t =>
      e ← lift (if absent expected then Ok (url_ t) else deskOrigin (JStr (nullish expected "")));
      _ ← guard_throw (negb (String.eqb e (url_ t)))
            (Error "Hara Desk revocation target no longer matches the enrolled installation");
      own' ← lift (bounded own "Desk owner" 256);
      inst' ← lift (bounded inst "Desk installation identity" 160);
      _ ← revokeAtTarget t org own' inst' allowMissing;
      mret true
  end.
End desk.

(** A throw on the way leaves the state where the first steps left it. *)

(** * What a request can do *)

Section theorems.
Context (isIPv6 : string → bool) (URL : string → option url) (resolve : string → string → option string)
  (lookup_at : nat → string → res (list string)) (JSON_parse : string → option json)
  (sha256 : string → string) (kms : KmsAdapter).
Context (respond : list (string * json) → nat → string → json → res Response).
Context (others : nat → ControlDB → ControlDB) (targets : list (string * Target)).

(** Without redirects, a fetch is at most one request, to the URL it was given. *)
Lemma fetch_once fetch_at u p :
  maxRedirects p = numZ 0 →
  ∃ r trace, safeFetch isIPv6 URL resolve lookup_at fetch_at u p = Some (r, trace) ∧
    (trace = [] ∨ trace = [(0, u)]) ∧
    (∀ response, r = Ok response → trace = [(0, u)] ∧ fetch_at 0 u = Ok response).
Proof.
  intros Hp. unfold safeFetch. rewrite Hp. change (hop_fuel (numZ 0)) with 1. cbn [fetch_from].
  rewrite Hp. change (within 0 (numZ 0)) with true. change (within 1 (numZ 0)) with false. cbn [negb].
  destruct (assertUrlAllowed _ _ _ _ _) as [[]|e]; [|eexists _, _; split; [done|]; split; [by left|done]].
  destruct (fetch_at 0 u) as [response|e] eqn:Hf; [|eexists _, _; split; [done|]; split; [by right|done]].
  destruct (is_redirect response) as [loc|].
  - destruct (resolve loc u); eexists _, _; (split; [done|]; split; [by right|done]).
  - eexists _, _. split; [done|]. split; [by right|]. by intros ? [= <-].
Qed.

Lemma post_spec base path body w r w' :
  post isIPv6 URL resolve lookup_at respond base path body w = (r, w') →
  control w' = control w ∧ prepared_seen w' = prepared_seen w ∧
  (sent w' = sent w ∨ sent w' = sent w ++ [(base +:+ path, body)]) ∧
  (∀ response, r = Ok response → sent w' = sent w ++ [(base +:+ path, body)] ∧
     respond (sent w) 0 (base +:+ path) body = Ok response).
Proof.
  unfold post. destruct (URL base) as [u|]; [|intros [= <- <-]; split_and!; [done|done|by left|done]].
  destruct (fetch_once (λ hop a, respond (sent w) hop a body) (base +:+ path)
    {| allowHosts := [toLowerCase (hostname u)]; blockPrivateWhenOpen := false; maxRedirects := numZ 0 |} eq_refl)
    as (r0 & trace & -> & Htr & Hok).
  intros [= <- <-]. cbn [control sent prepared_seen]. split_and!; [done|done| |].
  - destruct Htr as [->| ->]; [left; by rewrite app_nil_r|by right].
  - intros response Hr. destruct (Hok response Hr) as [-> ?]. done.
Qed.

(** The two endpoints of a Desk. *)
Definition register_url (t : Target) : string := url_ t +:+ "/register".
Definition revoke_url (t : Target) : string := url_ t +:+ "/provisioning/installations/revoke".
Definition to_desk (t : Target) (r : string * json) : Prop := r.1 = register_url t ∨ r.1 = revoke_url t.

Lemma revokeAtTarget_spec t org own inst missing w r w' :
  revokeAtTarget isIPv6 URL resolve lookup_at JSON_parse respond t org own inst missing w = (r, w') →
  control w' = control w ∧ prepared_seen w' = prepared_seen w ∧
  (∃ l, sent w' = sent w ++ l ∧ Forall (to_desk t) l) ∧
  (r = Ok tt → ∃ response,
     sent w' = sent w ++ [(revoke_url t, revocation t org own inst)] ∧
     respond (sent w) 0 (revoke_url t) (revocation t org own inst) = Ok response ∧
     check_revocation JSON_parse response missing = Ok tt).
Proof.
  unfold revokeAtTarget, mbind, M_bind, lift.
  destruct (post _ _ _ _ _ _ _ _ w) as [[response|e] w1] eqn:Hp; apply post_spec in Hp as (Hc & Hs & Hsent & Hok).
  - intros [= <- <-]. split_and!; [done|done| |].
    + destruct (Hok response eq_refl) as [-> _]. eexists. split; [reflexivity|]. constructor; [by right|constructor].
    + intros Hcheck. destruct (Hok response eq_refl) as [Hsnt Hresp]. by exists response.
  - intros [= <- <-]. split_and!; [done|done| |done].
    destruct Hsent as [->| ->]; [exists []; split; [by rewrite app_nil_r|constructor]|].
    eexists. split; [reflexivity|]. constructor; [by right|constructor].
Qed.

Lemma bounded_trim s f n o : bounded s f n = Ok o → o = trim s.
Proof. unfold bounded, boundedIdentity. destruct (_ || _ || _); [done|]. by intros [= <-]. Qed.

(** Revoking an installation writes no row; when it answers for an expected Desk, that Desk confirmed it. *)
Lemma revokeInstallation_spec has_bindings org own inst expected missing w r w' :
  revokeInstallation isIPv6 URL resolve lookup_at JSON_parse kms respond targets has_bindings org own inst expected missing w
    = (r, w') →
  control w' = control w ∧ prepared_seen w' = prepared_seen w ∧
  (∀ o b, expected = Some o → truthy o = true → r = Ok b → b = true ∧ ∃ t own' before response,
     deskOrigin URL (JStr o) = Ok (url_ t) ∧ sent w' = before ++ [(revoke_url t, revocation t org own' (trim inst))] ∧
     respond before 0 (revoke_url t) (revocation t org own' (trim inst)) = Ok response ∧
     check_revocation JSON_parse response missing = Ok tt).
Proof.
  unfold revokeInstallation. intros H. unfold gets in H. unfold mbind at 1, M_bind at 1 in H.
  rewrite bind_lift in H.
  match type of H with match ?x with Ok _ => _ | Throw _ => _ end = _ => destruct x as [rs|er] end;
    [|injection H as <- <-; by split_and!].
  match type of H with (match ?x with Some _ => _ | None => _ end) w = _ => destruct x as [t|] end.
  2: { destruct (absent expected) eqn:Ha; injection H as <- <-; split_and!; try done.
       intros o b -> Ho. unfold absent in Ha. cbn in Ha. by rewrite Ho in Ha. }
  rewrite bind_lift in H.
  match type of H with match ?x with Ok _ => _ | Throw _ => _ end = _ => destruct x as [eo|er] eqn:He end;
    [|injection H as <- <-; by split_and!].
  rewrite bind_guard in H. destruct (String.eqb_spec eo (url_ t)) as [Heo|]; cbn [negb] in H;
    [|injection H as <- <-; by split_and!].
  rewrite bind_lift in H. destruct (bounded own "Desk owner" 256) as [own'|er]; [|injection H as <- <-; by split_and!].
  rewrite bind_lift in H. destruct (bounded inst _ _) as [inst'|er] eqn:Hi; [|injection H as <- <-; by split_and!].
  apply bounded_trim in Hi as ->. unfold mbind, M_bind in H.
  destruct (revokeAtTarget _ _ _ _ _ _ _ _ _ _ _ _) as [[[]|er] w1] eqn:Hr; injection H as <- <-;
    apply revokeAtTarget_spec in Hr as (Hc & Hp & _ & Hok); (split; [done|]); (split; [done|]); [|done].
  intros o b -> Ho [= <-]. split; [done|]. destruct (Hok eq_refl) as (response & ? & ? & ?).
  exists t, own', (sent w), response. split_and!; [|done..]. rewrite <-Heo.
  assert (absent (Some o) = false) as Hab by (unfold absent; cbn; by rewrite Ho). rewrite Hab in He. exact He.
Qed.

(** An installation that is confirmed revoked is in particular confirmed gone. *)
Lemma check_revocation_weaken r : check_revocation JSON_parse r false = Ok tt → check_revocation JSON_parse r true = Ok tt.
Proof.
  unfold check_revocation. destruct (negb _); [done|]. destruct (read_record _ _ _ _) as [m|]; [|done].
  cbn [mbind res_bind]. destruct (assoc "revoked" m) as [[]|]; try done.
  destruct (assoc "alreadyRevoked" m) as [[]|]; try done. by destruct b.
Qed.

(** The device of a reservation is recorded as possibly installed at the target. *)
Definition pending_at (db : ControlDB) (dev : string) (at_ : Z) (origin : string) : Prop :=
  ∃ v, find_device db dev = Some v ∧ deskProvisionedAt v = None ∧ deskCleanupPendingAt v = Some at_ ∧
    ControlDb.deskOrigin v = Some origin.

Lemma mark_pending_spec dev own orig at_ db db' :
  mark_pending dev own orig at_ db = (Ok tt, db') → pending_at db' dev at_ orig.
Proof.
  unfold mark_pending, gets, modify, require, raise, mbind, M_bind, mret, M_ret.
  destruct (find_device db dev) as [v|] eqn:Hv; [|done]. intros [= <-].
  exists (with_desk None (Some at_) (Some own) (Some orig) v). split; [|done].
  unfold find_device in *. cbn [devices on_devices]. rewrite find_by_update by done. by rewrite decide_True, Hv.
Qed.

(** The reservation is committed: its transaction recorded the device as pending at the origin, and the database is as
    it left it, or as other requests made it while the credential was read. *)
Definition reserved (org dev own : string) (at_ : Z) (legacy : option string) (origin : string) (db db' : ControlDB) : Prop :=
  ∃ row d1, reserve_row org dev own at_ legacy db = (Ok row, d1) ∧ pending_at d1 dev at_ origin ∧ (db' = d1 ∨ db' = others 0 d1).

Lemma reserve_commits org dev own at_ legacy db r db' :
  reserveDeskProvisioning kms others org dev own at_ legacy db = (Ok r, db') →
  match target r with
  | Some t => managedConfigured r = true ∧ prepared r = true ∧ reserved org dev own at_ legacy (target_url t) db db'
  | None => prepared r = true → managedConfigured r = true ∨
      ∃ o, legacy = Some o ∧ managedConfigured r = false ∧ reserved org dev own at_ legacy o db db'
  end.
Proof.
  unfold reserveDeskProvisioning. intros H. apply bind_ok in H as ([r0 cap] & d1 & Hrow & Hk). pose proof Hrow as Hrow0.
  unfold reserve_row, withServiceBindingLock in Hrow. rewrite transaction_ok in Hrow.
  unfold gets, mbind at 1, M_bind at 1 in Hrow.
  destruct (find_binding db org DESK_TASKS) as [row|].
  - destruct (negb _) in Hrow; [unfold mret, M_ret in Hrow; injection Hrow as <- <- <-; by injection Hk as <- <-|].
    destruct (absent _) in Hrow; [done|].
    apply bind_ok in Hrow as ([] & d2 & Hm & Hret). unfold mret, M_ret in Hret. injection Hret as <- <- <-.
    apply mark_pending_spec in Hm. unfold suspend, modify, gets, mbind, M_bind in Hk.
    destruct (readable_key _ _ _ _ _) as [k|e].
    + unfold mret, M_ret in Hk. injection Hk as <- <-. cbn [target managedConfigured prepared]. split_and!; [done..|].
      eexists _, _. split_and!; [exact Hrow0|done|by right].
    + destruct (clearDeskProvisioningReservation _ _ _ _ _) as [[?|?] ?]; done.
  - destruct (absent legacy) eqn:Ha in Hrow; [unfold mret, M_ret in Hrow; injection Hrow as <- <- <-; by injection Hk as <- <-|].
    apply bind_ok in Hrow as ([] & d2 & Hm & Hret). unfold mret, M_ret in Hret. injection Hret as <- <- <-.
    injection Hk as <- <-. cbn [target managedConfigured prepared]. intros _. right.
    destruct legacy as [o|]; [|done]. exists o. split_and!; [done..|]. eexists _, _. split_and!; [exact Hrow0| |by left].
    by eapply mark_pending_spec.
Qed.

Lemma resolve_target_frame input own reservation w r w' :
  resolve_target kms others targets true input own reservation w = (r, w') →
  sent w' = sent w ∧ prepared_seen w' = prepared_seen w.
Proof.
  unfold resolve_target, mbind, M_bind, in_control, gets, lift, mret, M_ret. destruct reservation as [[d at_]|].
  - destruct (reserveDeskProvisioning _ _ _ _ _ _ _ _) as [[] db]; by intros [= <- <-].
  - destruct (deskProvisioningResolution _ _ _); by intros [= <- <-].
Qed.

Lemma resolve_target_commits input dev own at_ w t p w' :
  resolve_target kms others targets true input own (Some (dev, at_)) w = (Ok (t, p), w') →
  ∀ x, t = Some x → p = true →
    reserved (orgId input) dev own at_ (url_ <$> assoc (orgId input) targets) (url_ x) (control w) (control w').
Proof.
  unfold resolve_target. intros (r & w1 & Hr & Hret)%bind_ok. unfold mret, M_ret in Hret. injection Hret as <- <- <-.
  unfold in_control in Hr. destruct (reserveDeskProvisioning _ _ _ _ _ _ _ _) as [[r0|e] db] eqn:Hres; [|done].
  injection Hr as <- <-. intros x Hx Hp. apply reserve_commits in Hres.
  cbn [control set_control]. unfold managed_target in Hx. destruct (target r0) as [mt|].
  - destruct Hres as (Hm & _ & Hpend). rewrite Hm in Hx. injection Hx as <-. exact Hpend.
  - destruct (Hres Hp) as [Hm|(o & Ho & Hm & Hpend)]; rewrite Hm in Hx; [done|].
    cbn in Hx. rewrite Hx in Ho. injection Ho as <-. exact Hpend.
Qed.

(** The name Control gives a registration. *)
Definition provisioning_id (org inst client instance : string) : string :=
  "control_" +:+ sha256 (JSON_stringify (JArr (map JStr [org; inst; client; instance]))).

Lemma generation_range v g : generation v = Some g → (1 <= g <= MAX_SAFE_INTEGER)%Z.
Proof.
  unfold generation. destruct v as [[]|]; try done. destruct (_ && _ && _) eqn:H; [|done]. intros [= <-].
  rewrite !andb_true_iff, !Z.leb_le in H. lia.
Qed.

(** An accepted answer names the organization, the owner and the client of the request. *)
Lemma check_registration_ok t org own client pid inst response b :
  check_registration JSON_parse t org own client pid inst response = Ok b →
  response_ok response = true ∧ pb_url b = url_ t ∧ pb_owner b = own ∧
  (1 <= credential_generation b <= MAX_SAFE_INTEGER)%Z ∧
  ∃ m, read_record JSON_parse response "Desk returned an oversized registration response"
         "Desk returned an invalid registration response" = Ok m ∧
    says m "realmId" org = true ∧ says m "provisioningId" pid = true.
Proof.
  unfold check_registration. destruct (response_ok response); [cbn [negb]|done].
  intros (m & Hm & H)%res_bind_ok. destruct (says m "realmId" org) eqn:H1; [|done].
  destruct (says m "provisioningId" pid) eqn:H2; [|done]. destruct (is_one _); [cbn [negb orb] in H|done].
  apply res_bind_ok in H as (o & _ & H). destruct (String.eqb o own) eqn:Ho; [apply String.eqb_eq in Ho; subst o; cbn [negb] in H|done].
  apply res_bind_ok in H as (c & _ & H). destruct (String.eqb c client); [cbn [negb] in H|done].
  destruct (assoc "device" m) as [[]|]; try done.
  apply res_bind_ok in H as (i & _ & H). destruct (_ || _); [done|].
  apply res_bind_ok in H as (tok & _ & H). destruct (generation _) as [g|] eqn:Hg; [|done].
  apply res_bind_ok in H as (a & _ & H). injection H as <-. apply generation_range in Hg.
  cbn [pb_url pb_owner credential_generation]. split_and!; [done|done|done|lia|lia|by exists m].
Qed.

Lemma register_spec t input own name' inst plat ver client instance name w r w' :
  register isIPv6 URL resolve lookup_at JSON_parse sha256 respond t input own name' inst plat ver client instance name w = (r, w') →
  control w' = control w ∧ prepared_seen w' = prepared_seen w ∧
  (∃ l, sent w' = sent w ++ l ∧ Forall (to_desk t) l) ∧
  (∀ rc, r = Ok rc → rc_target rc = t ∧ rc_org rc = orgId input ∧ rc_owner rc = own ∧ rc_installation rc = inst ∧
    active rc = true ∧ ∃ body response, sent w' = sent w ++ [(register_url t, body)] ∧
      respond (sent w) 0 (register_url t) body = Ok response ∧
      check_registration JSON_parse t (orgId input) own client (provisioning_id (orgId input) inst client instance)
        inst response = Ok (binding rc)).
Proof.
  unfold register, mbind, M_bind, lift.
  destruct (post _ _ _ _ _ _ _ _ w) as [[response|e] w1] eqn:Hp; apply post_spec in Hp as (Hc & Hs & Hsent & Hok).
  - destruct (Hok response eq_refl) as [Hsnt Hresp].
    assert (∃ l, sent w1 = sent w ++ l ∧ Forall (to_desk t) l).
    { rewrite Hsnt. eexists. split; [reflexivity|]. constructor; [by left|constructor]. }
    destruct (check_registration _ _ _ _ _ _ _ _) as [b|e] eqn:Hb; [|intros [= <- <-]; by split_and!].
    unfold mret, M_ret. intros [= <- <-]. split_and!; [done|done|done|].
    intros rc [= <-]. split_and!; [done..|]. eexists _, response. split; [exact Hsnt|]. by split.
  - intros [= <- <-]. split_and!; [done|done| |done].
    destruct Hsent as [->| ->]; [exists []; split; [by rewrite app_nil_r|constructor]|].
    eexists. split; [reflexivity|]. constructor; [by left|constructor].
Qed.

(** What an attempt leaves: a receipt for an accepted answer, or a failure that says whether the Desk
    confirmed the revocation. *)
Definition attempted (t : Target) (org own inst : string) (start : list (string * json))
    (r : res DeskProvisioningReceipt) (requests : list (string * json)) : Prop :=
  match r with
  | Ok rc =>
      rc_target rc = t ∧ rc_org rc = org ∧ rc_owner rc = own ∧ rc_installation rc = inst ∧ active rc = true ∧
      ∃ body response client pid, requests = start ++ [(register_url t, body)] ∧
        respond start 0 (register_url t) body = Ok response ∧
        check_registration JSON_parse t org own client pid inst response = Ok (binding rc)
  | Throw (DeskProvisioningFailure confirmed target) =>
      target = url_ t ∧ (confirmed = true → ∃ before response,
        requests = before ++ [(revoke_url t, revocation t org own inst)] ∧
        respond before 0 (revoke_url t) (revocation t org own inst) = Ok response ∧
        check_revocation JSON_parse response true = Ok tt)
  | Throw _ => False
  end.

Lemma register_or_compensate_spec t input own name' inst plat ver client instance name w r w' :
  register_or_compensate isIPv6 URL resolve lookup_at JSON_parse sha256 respond
    t input own name' inst plat ver client instance name true w = (r, w') →
  control w' = control w ∧ prepared_seen w' = prepared_seen w ∧
  (∃ l, sent w' = sent w ++ l ∧ Forall (to_desk t) l) ∧ attempted t (orgId input) own inst (sent w) r (sent w').
Proof.
  unfold register_or_compensate. unfold try_catch at 1.
  destruct (register _ _ _ _ _ _ _ _ _ _ _ _ _ _ _ _ _ w) as [[rc|e] w1] eqn:Hr;
    apply register_spec in Hr as (Hc & Hp & (l & Hl & Hto) & Hok).
  - intros [= <- <-]. split_and!; [done|done|by exists l|].
    destruct (Hok rc eq_refl) as (? & ? & ? & ? & ? & body & response & ? & ? & ?).
    cbn [attempted]. split_and!; [done..|]. by eexists _, _, _, _.
  - cbn [negb]. unfold try_catch, mbind, M_bind, mret, M_ret, raise.
    destruct (revokeAtTarget _ _ _ _ _ _ _ _ _ _ _ w1) as [[[]|e2] w2] eqn:Hv;
      apply revokeAtTarget_spec in Hv as (Hc2 & Hp2 & (l2 & Hl2 & Hto2) & Hok2); intros [= <- <-].
    + split_and!; [congruence|congruence| |].
      * exists (l ++ l2). rewrite Hl2, Hl, app_assoc. split; [done|by apply Forall_app].
      * split; [done|]. intros _. destruct (Hok2 eq_refl) as (response & ? & ? & ?). by exists (sent w1), response.
    + split_and!; [congruence|congruence| |done].
      exists (l ++ l2). rewrite Hl2, Hl, app_assoc. split; [done|by apply Forall_app].
Qed.

(** A binding for a device that expects a Desk is one of that Desk, for its owner. *)
Lemma provision_bound has_bindings input o w b w' :
  expectedUrl input = Some o → truthy o = true →
  provision isIPv6 URL resolve lookup_at JSON_parse sha256 kms respond others targets has_bindings input w = (Ok (Some b), w') →
  deskOrigin URL (JStr o) = Ok (pb_url b) ∧ bounded (owner input) "Desk owner" 256 = Ok (pb_owner b).
Proof.
  intros He Ho (receipt & w1 & H & Hret)%bind_ok. unfold mret, M_ret in Hret. injection Hret as Hb <-.
  destruct receipt as [rc|]; [injection Hb as <-|done]. unfold provisionForEnrollment in H.
  assert (absent (expectedUrl input) = false) as Hab by (rewrite He; unfold absent; cbn; by rewrite Ho).
  rewrite Hab, He in H. change (nullish (Some o) "") with o in H.
  destruct (deskOrigin URL (JStr o)) as [eo|er] eqn:Heo.
  2: { repeat match type of H with
       | (lift ?x ≫= _) _ = _ => rewrite bind_lift in H; destruct x eqn:?
       | (guard_throw ?b _ ≫= _) _ = _ => rewrite bind_guard in H; destruct b
       end; done. }
  change (Some <$> Ok eo) with (Ok (Some eo)) in H.
  repeat match type of H with
  | (lift ?x ≫= _) _ = _ => rewrite bind_lift in H; destruct x eqn:?; [|done]
  | (guard_throw ?b _ ≫= _) _ = _ => rewrite bind_guard in H; destruct b; [done|]
  end.
  apply bind_ok in H as ([t p] & w2 & _ & H). destruct t as [t|]; [|done].
  simplify_eq. cbv match in H. rewrite bind_guard in H. destruct (String.eqb_spec eo (url_ t)) as [->|]; [|done].
  cbn [negb] in H. rewrite bind_guard in H. cbn [isSome andb when] in H.
  unfold mbind at 1, M_bind at 1 in H. cbn [mret M_ret] in H. unfold fmap, M_fmap in H.
  unfold register_or_compensate, try_catch in H.
  destruct (register _ _ _ _ _ _ _ _ _ _ _ _ _ _ _ _ _ w2) as [[rc'|er] w3] eqn:Hr; [|done].
  injection H as -> <-. apply register_spec in Hr as (_ & _ & _ & Hok).
  destruct (Hok rc eq_refl) as (Ht & _ & Hown & _ & _ & body & response & _ & _ & Hcheck).
  apply check_registration_ok in Hcheck as (_ & -> & -> & _). split; [done|]. congruence.
Qed.

(** The device being enrolled. *)
Context (dev : string).

(** What provisioning may write: the Desk columns of the device. *)
Definition desk_only (f : Device → Device) : Prop := ∀ v,
  f v = v ∨ v_id v = dev ∧ ∃ p c o u, f v = with_desk p c o u v.
Section keeps.
Context (P : ControlDB → Prop) (Pothers : ∀ n d, P d → P (others n d))
  (Pdesk : ∀ f d, desk_only f → P d → P (on_devices (map f) d)).

Lemma mark_pending_keeps own o at_ d : P d → P (mark_pending dev own o at_ d).2.
Proof.
  unfold mark_pending, gets, modify, require, raise, mbind, M_bind, mret, M_ret.
  destruct (find_device d dev); [|done]. intros. apply Pdesk; [|done].
  intros v. case_decide; [right|by left]. by eauto 10.
Qed.
Lemma clear_keeps org own o d : P d → P (clearDeskProvisioningReservation org dev own o d).2.
Proof.
  intros. apply Pdesk; [|done]. intros v. case_decide; [right|by left]. naive_solver.
Qed.
Lemma reserve_keeps org own at_ legacy d : P d → P (reserveDeskProvisioning kms others org dev own at_ legacy d).2.
Proof.
  intros HP. unfold reserveDeskProvisioning, mbind, M_bind.
  destruct (reserve_row org dev own at_ legacy d) as [r1 d1] eqn:Hr.
  assert (P d1) as H1.
  { revert Hr. unfold reserve_row, withServiceBindingLock, transaction, gets, raise, mbind, M_bind, mret, M_ret.
    destruct (find_binding d org DESK_TASKS) as [row|].
    - destruct (negb _); [by intros [= _ <-]|]. destruct (absent (credentialRef row)); [by intros [= _ <-]|].
      pose proof (mark_pending_keeps own (apiOrigin row) at_ d HP).
      destruct (mark_pending _ _ _ _ d) as [[?|?] ?]; by intros [= _ <-].
    - destruct (absent legacy); [by intros [= _ <-]|].
      pose proof (mark_pending_keeps own (nullish legacy "") at_ d HP).
      destruct (mark_pending _ _ _ _ d) as [[?|?] ?]; by intros [= _ <-]. }
  destruct r1 as [[r [[u ref]|]]|er]; [|done..]. unfold suspend, modify, gets, raise, mret, M_ret.
  destruct (readable_key _ _ _ _ _); [by apply Pothers|].
  pose proof (clear_keeps org own u (others 1 (others 0 d1)) (Pothers _ _ (Pothers _ _ H1))).
  by destruct (clearDeskProvisioningReservation _ _ _ _ _) as [[?|?] ?].
Qed.

(** A provisioning for the device writes nothing else of the database. *)
Lemma provision_keeps input at_ w :
  P (control w) →
  P (control (provisionForEnrollment isIPv6 URL resolve lookup_at JSON_parse sha256 kms respond others targets true
                input true (Some (dev, at_)) w).2).
Proof.
  intros HP. destruct (provisionForEnrollment _ _ _ _ _ _ _ _ _ _ _ _ _ _ w) as [r w'] eqn:H. cbn [snd].
  unfold provisionForEnrollment in H.
  repeat match type of H with
  | (lift ?x ≫= _) _ = _ => rewrite bind_lift in H; destruct x eqn:?
  | (guard_throw ?b _ ≫= _) _ = _ => rewrite bind_guard in H; destruct b
  | (Throw _, _) = _ => by injection H as _ <-
  end.
  unfold mbind, M_bind in H. destruct (resolve_target _ _ _ _ _ _ _ _) as [rt w1] eqn:Ht.
  assert (P (control w1)) as H1.
  { revert Ht. unfold resolve_target, in_control, mbind at 1, M_bind at 1.
    pose proof (reserve_keeps (orgId input) a at_ (url_ <$> assoc (orgId input) targets) (control w) HP) as Hk.
    destruct (reserveDeskProvisioning _ _ _ _ _ _ _ _) as [[r0|er] db]; by intros [= _ <-]. }
  destruct rt as [[[t|] p]|er]; [|by injection H as _ <-..].
  destruct (match _ with Some _ => _ | None => _ end); cbn [guard_throw] in H; [by injection H as _ <-|].
  destruct p; [|by injection H as _ <-]. cbn [isSome andb negb guard_throw mret M_ret when modify] in H.
  unfold fmap, M_fmap in H.
  destruct (register_or_compensate _ _ _ _ _ _ _ _ _ _ _ _ _ _ _ _ _ _ _) as [attempt w2] eqn:Hr.
  apply register_or_compensate_spec in Hr as (Hc2 & _). cbn [control] in Hc2.
  destruct attempt; injection H as _ <-; by rewrite Hc2.
Qed.
End keeps.


(** What an enrollment does from the commit of its reservation on. *)
Definition from_commit (t : Target) (input : DeskProvisioningInput) (own inst : string) (w1 : World)
    (attempt : res DeskProvisioningReceipt) (w' : World) : Prop :=
  ∃ name' plat ver client instance name,
    register_or_compensate isIPv6 URL resolve lookup_at JSON_parse sha256 respond
      t input own name' inst plat ver client instance name true
      {| control := control w1; sent := sent w1; prepared_seen := true |} = (attempt, w').

Lemma provision_steps input at_ w r w' :
  provisionForEnrollment isIPv6 URL resolve lookup_at JSON_parse sha256 kms respond others targets true
    input true (Some (dev, at_)) w = (r, w') →
  prepared_seen w = false →
  (sent w' = sent w ∧ prepared_seen w' = false ∧ ∀ rc, r ≠ Ok (Some rc)) ∨
  ∃ t own inst w1 attempt, bounded (owner input) "Desk owner" 256 = Ok own ∧
    bounded (installationId input) "Desk installation identity" 160 = Ok inst ∧
    sent w1 = sent w ∧
    reserved (orgId input) dev own at_ (url_ <$> assoc (orgId input) targets) (url_ t) (control w) (control w1) ∧
    from_commit t input own inst w1 attempt w' ∧ r = (Some <$> attempt).
Proof.
  intros H Hw. unfold provisionForEnrollment in H.
  repeat match type of H with
  | (lift ?x ≫= _) _ = _ => rewrite bind_lift in H; destruct x eqn:?
  | (guard_throw ?b _ ≫= _) _ = _ => rewrite bind_guard in H; destruct b
  | (Throw _, _) = _ => injection H as <- <-; by left
  end.
  unfold mbind, M_bind in H. destruct (resolve_target _ _ _ _ _ _ _ _) as [[[[t|] p]|e] w1] eqn:Ht;
    destruct (resolve_target_frame _ _ _ _ _ _ Ht) as [Hs Hp]; rewrite Hw in Hp;
    [|injection H as <- <-; by left..].
  pose proof (resolve_target_commits _ _ _ _ _ _ _ _ Ht) as Hpend.
  destruct (match _ with Some _ => _ | None => _ end); cbn [guard_throw] in H; [injection H as <- <-; by left|].
  destruct p; [|injection H as <- <-; by left]. cbn [isSome andb negb guard_throw mret M_ret when modify] in H.
  unfold fmap, M_fmap in H.
  destruct (register_or_compensate _ _ _ _ _ _ _ _ _ _ _ _ _ _ _ _ _ _ _) as [attempt w2] eqn:Hr.
  right. eexists t, _, _, w1, attempt. split; [reflexivity|]. split; [reflexivity|]. split; [done|]. split; [by apply Hpend|].
  destruct attempt; injection H as <- <-; (split; [|done]); by eexists _, _, _, _, _, _.
Qed.
Lemma from_commit_spec t input own inst w1 attempt w' :
  from_commit t input own inst w1 attempt w' →
  control w' = control w1 ∧ prepared_seen w' = true ∧ (∃ l, sent w' = sent w1 ++ l ∧ Forall (to_desk t) l) ∧
  attempted t (orgId input) own inst (sent w1) attempt (sent w').
Proof. intros (? & ? & ? & ? & ? & ? & H). by apply register_or_compensate_spec in H. Qed.

(** C21: the Desk is written ahead. When Control enrolls a device (the binding service is there and the device is to be
    reserved), a call that is told to compensate either sends no request, hands out no receipt and does not report a
    claim to keep; or it is two parts, one after the other. The first ends, before any request was sent, in a database
    where the transaction of the reservation has recorded the device as pending cleanup at the target, and nothing
    followed but what other requests did while the credential was read. The second starts from there, sends all the
    requests, on the registration and revocation endpoints of that target only, and writes nothing; it ends with an
    active receipt for an answer that passed every check, or with a failure, which claims that the rollback is
    confirmed only when the last request was this installation's revocation and the Desk's answer to it was accepted.
    The calls to the database do not fail here, and what other requests later do to the device's row is theirs. *)
Theorem provision_write_ahead input at_ w r w' :
  provisionForEnrollment isIPv6 URL resolve lookup_at JSON_parse sha256 kms respond others targets true
    input true (Some (dev, at_)) w = (r, w') →
  prepared_seen w = false →
  (sent w' = sent w ∧ prepared_seen w' = false ∧ ∀ rc, r ≠ Ok (Some rc)) ∨
  ∃ t own inst w1 attempt l, bounded (owner input) "Desk owner" 256 = Ok own ∧
    bounded (installationId input) "Desk installation identity" 160 = Ok inst ∧
    (sent w1 = sent w ∧
     reserved (orgId input) dev own at_ (url_ <$> assoc (orgId input) targets) (url_ t) (control w) (control w1)) ∧
    (from_commit t input own inst w1 attempt w' ∧ control w' = control w1 ∧ prepared_seen w' = true ∧
     sent w' = sent w1 ++ l ∧ Forall (to_desk t) l) ∧
    r = (Some <$> attempt) ∧ attempted t (orgId input) own inst (sent w) attempt (sent w').
Proof.
  intros H Hw. destruct (provision_steps _ _ _ _ _ H Hw) as [?|(t & own & inst & w1 & attempt & Ho & Hi & Hs & Hres & Hfrom & Hr)]; [by left|right].
  pose proof (from_commit_spec _ _ _ _ _ _ _ Hfrom) as (Hc & Hp & (l & Hl & Hto) & Hatt). rewrite <-Hs.
  by exists t, own, inst, w1, attempt, l.
Qed.

(** When the requests that run in between do not touch the device, its row still records the target at the end. *)
Hypothesis Hothers : ∀ n d, find_device (others n d) dev = find_device d dev.
Lemma reserved_pending org own at_ legacy origin db db' :
  reserved org dev own at_ legacy origin db db' → pending_at db' dev at_ origin.
Proof. intros (row & d1 & _ & Hp & [->| ->]); [done|]. unfold pending_at in *. by rewrite Hothers. Qed.
Lemma provision_spec input at_ w r w' :
  provisionForEnrollment isIPv6 URL resolve lookup_at JSON_parse sha256 kms respond others targets true
    input true (Some (dev, at_)) w = (r, w') →
  prepared_seen w = false →
  (sent w' = sent w ∧ prepared_seen w' = false ∧ ∀ rc, r ≠ Ok (Some rc)) ∨
  ∃ t own inst attempt l, bounded (owner input) "Desk owner" 256 = Ok own ∧
    bounded (installationId input) "Desk installation identity" 160 = Ok inst ∧
    prepared_seen w' = true ∧ pending_at (control w') dev at_ (url_ t) ∧
    sent w' = sent w ++ l ∧ Forall (to_desk t) l ∧
    r = (Some <$> attempt) ∧ attempted t (orgId input) own inst (sent w) attempt (sent w').
Proof.
  intros H Hw. destruct (provision_steps _ _ _ _ _ H Hw) as [?|(t & own & inst & w1 & attempt & Ho & Hi & Hs & Hres & Hfrom & Hr)]; [by left|right].
  apply from_commit_spec in Hfrom as (Hc & Hp & (l & Hl & Hto) & Hatt). apply reserved_pending in Hres.
  rewrite Hs in Hl, Hatt. rewrite <- Hc in Hres. by exists t, own, inst, attempt, l.
Qed.
End theorems.

(** * Witness *)

(** A Desk that fails the registration and confirms the revocation. *)
Definition demo_desk (_ : list (string * json)) (_ : nat) (u : string) (_ : json) : res Response :=
  if String.eqb u "https://a.example/register"
  then Ok {| status_ := 500; location := None; content_length := None; text := Ok "" |}
  else Ok {| status_ := 200; location := None; content_length := Some "7"; text := Ok "revoked" |}.
Definition desk_json (s : string) : option json :=
  if String.eqb s "revoked" then Some (JObj [("revoked", JBool true); ("alreadyRevoked", JBool false)]) else None.
Definition demo_input : DeskProvisioningInput :=
  {| orgId := "o1"; owner := " a@b "; deviceName := "mac"; installationId := "d1"; platform := ""; version := "1";
     clientKind := "hara"; instanceId := None; agentName := None; expectedUrl := None |}.
Definition demo_targets : list (string * Target) := [("o1", {| url_ := "https://a.example"; secret := [107]%Z |})].
Definition demo_world : World :=
  {| control := on_bindings (λ _, []) demo_control; sent := []; prepared_seen := false |}.

Lemma provision_write_ahead_witness : ∃ r w',
  provisionForEnrollment (λ _, false) demo_url (λ _ _, None) demo_lookup desk_json (λ s, s) demo_kms demo_desk nobody
    demo_targets true demo_input true (Some ("d1", 77%Z)) demo_world = (r, w') ∧
  length (sent w') = 2 ∧ r = Throw (DeskProvisioningFailure true "https://a.example") ∧
  ((sent w' = sent demo_world ∧ prepared_seen w' = false ∧ ∀ rc, r ≠ Ok (Some rc)) ∨
   ∃ t own inst w1 attempt l, bounded (owner demo_input) "Desk owner" 256 = Ok own ∧
    bounded (installationId demo_input) "Desk installation identity" 160 = Ok inst ∧
    (sent w1 = sent demo_world ∧
     reserved nobody (orgId demo_input) "d1" own 77 (url_ <$> assoc (orgId demo_input) demo_targets) (url_ t)
       (control demo_world) (control w1)) ∧
    (from_commit (λ _, false) demo_url (λ _ _, None) demo_lookup desk_json (λ s, s) demo_desk t demo_input own inst w1 attempt w' ∧
     control w' = control w1 ∧ prepared_seen w' = true ∧ sent w' = sent w1 ++ l ∧ Forall (to_desk t) l) ∧
    r = (Some <$> attempt) ∧
    attempted desk_json demo_desk t (orgId demo_input) own inst (sent demo_world) attempt (sent w')).
Proof.
  eexists _, _. split; [vm_compute; reflexivity|]. split; [reflexivity|]. split; [reflexivity|].
  apply (provision_write_ahead (λ _, false) demo_url (λ _ _, None) demo_lookup desk_json (λ s, s) demo_kms demo_desk
    nobody demo_targets "d1" demo_input 77 demo_world); [vm_compute; reflexivity|reflexivity].
Defined.
