(* ===== verification/Services.v ===== *)
(** What a service that works on the database, the gateway and the Desk runs on: the state, the calls to
    each of the three, and what each call leaves alone. A database call may fail, and runs after
    arbitrary other requests; a failed call did nothing. *)
From S2P Require Import Prelude Js ControlDb Gateway Desk.
Local Open Scope nat_scope.

(** The state with the local variables [L] of the operation. [clock] numbers the database calls. *)
Record Backend {G L : Type} := { world : World; gateway : G; clock : nat; locals : L }.
Arguments Backend : clear implicits.

Section calls.
Context (others : nat → ControlDB → ControlDB) (fails : nat → bool).
Context {G L : Type}.

(** A database call. *)
Definition query {A} (m : M ControlDB A) : M (Backend G L) A := λ s,
  let w := world s in
  let db := others (clock s) (control w) in
  let '(r, db') := if fails (clock s) then (Throw (PrismaError "P1001"), db) else m db in
  (r, {| world := set_control db' w; gateway := gateway s; clock := S (clock s); locals := locals s |}).
Definition gateway_call {A} (m : M G A) : M (Backend G L) A := λ s,
  let '(r, g) := m (gateway s) in
  (r, {| world := world s; gateway := g; clock := clock s; locals := locals s |}).
Definition desk_call {A} (m : M World A) : M (Backend G L) A := λ s,
  let '(r, w) := m (world s) in
  (r, {| world := w; gateway := gateway s; clock := clock s; locals := locals s |}).
(** [try { m; flag = true } catch { log }] *)
Definition attempt {A} (m : M (Backend G L) A) : M (Backend G L) bool := try_catch (_ ← m; mret true) (λ _, mret false).

End calls.


Section lemmas.
Context (others : nat → ControlDB → ControlDB) (fails : nat → bool).
Context {G L : Type}.

(** Everything but the database is as before. *)
Definition only_db (s s' : Backend G L) : Prop :=
  gateway s' = gateway s ∧ locals s' = locals s ∧ sent (world s') = sent (world s) ∧
  prepared_seen (world s') = prepared_seen (world s).
Lemma query_spec {A} (m : M ControlDB A) (s : Backend G L) r s' :
  query others fails m s = (r, s') →
  only_db s s' ∧
  ((∃ er, r = Throw er ∧ control (world s') = others (clock s) (control (world s))) ∨
   m (others (clock s) (control (world s))) = (r, control (world s'))).
Proof.
  unfold query, only_db. destruct (fails (clock s)).
  - intros [= <- <-]. split; [done|]. left. by eexists.
  - destruct (m _) as [r0 db] eqn:Hm. intros [= <- <-]. split; [done|]. right. done.
Qed.
Lemma attempt_spec {A} (m : M (Backend G L) A) s r s' :
  attempt m s = (r, s') → ∃ b x, r = Ok b ∧ m s = (x, s') ∧ b = is_ok x.
Proof.
  unfold attempt, try_catch, mbind, M_bind, mret, M_ret. destruct (m s) as [[a|er] s1]; intros [= <- <-]; eauto.
Qed.

Lemma always_ok {A} (m : M (Backend G L) A) s : ∃ b s', attempt m s = (Ok b, s').
Proof. destruct (attempt m s) as [r s'] eqn:Hr. apply attempt_spec in Hr as (b & _ & -> & _). eauto. Qed.

Lemma query_read {A} (f : ControlDB → A) (s : Backend G L) a s' :
  query others fails (gets f) s = (Ok a, s') →
  a = f (control (world s')) ∧ sent (world s') = sent (world s) ∧ gateway s' = gateway s.
Proof.
  unfold query, gets. destruct (fails (clock s)); [done|]. intros [= <- <-]. done.
Qed.
End lemmas.
