(* ===== verification/Litellm.v ===== *)
(** The LiteLLM adapter ([src/gateway/litellm.adapter.ts]): the payload of a key, the checks on the engine's
    answers, and the adapter itself as a [GatewayAdapter] over an engine that is a parameter. The state is
    the log of the requests that left the process; an answer may depend on everything sent before it. *)
From S2P Require Import Prelude Js KeyPolicy ModelPolicy Ssrf Bindings Gateway.
Local Open Scope Z_scope.

(** * Payload *)

Definition liteLLMKeyDuration (expiresAt now : Z) : res string :=
  let remainingMs := expiresAt - now in
  if remainingMs <=? 0 then Throw (Error "device-token expiry must be a future date")
  else Ok (pretty (Z.max 1 (remainingMs / 1000)) +:+ "s").

Definition liteLLMKeyIssuePayload (o : IssueOptions) (now : Z) : res json :=
  duration ← match o_expiresAt o with None => Ok JNull | Some t => JStr <$> liteLLMKeyDuration t now end;
  let limits := o_limits o in
  let budget_limits := nullish (gw_budgetLimits <$> limits) [] in
  Ok (JObj ([("models", JArr (JStr <$> authorized (o_model o) (o_models o))); ("key_alias", JStr (o_alias o));
             ("duration", duration); ("metadata", JObj (nullish (o_metadata o) []))]
    ++ (if (length budget_limits =? 0)%nat then []
        else [("budget_limits", JArr ((λ b, JObj [("budget_duration", JStr (duration_str (gw_budgetDuration b)));
                                                  ("max_budget", JNum (maxBudgetUsd b))]) <$> budget_limits))])
    ++ match limits ≫= gw_rpmLimit with None => [] | Some n => [("rpm_limit", JNum (inject_Z n))] end
    ++ match limits ≫= gw_tpmLimit with None => [] | Some n => [("tpm_limit", JNum (inject_Z n))] end)).

(** * What the engine answered *)

(** [(v as Record)[k]] of a value that is not [null]. *)
Definition prop (v : json) (k : string) : option json := match v with JObj m => assoc k m | _ => None end.
(** The same where [v] may be [null]: a [TypeError]. *)
Definition member (v : json) (k : string) : res (option json) :=
  match v with JNull => Throw (Error "Cannot read properties of null") | _ => Ok (prop v k) end.
Definition number_is (v : option json) (n : Z) : bool :=
  match Number_opt v with Num q => Qeq_bool q (inject_Z n) | _ => false end.

(** [`${budgetDuration}:${maxBudgetUsd}`] *)
Definition budget_text (duration : string) (max : Q) : string := duration +:+ ":" +:+ num_toString max.
Definition actual_budget (entry : json) : list string :=
  match entry with
  | JObj row =>
      match Number_opt (assoc "max_budget" row) with
      | Num q => [budget_text (str_or_empty (assoc "budget_duration" row)) q]
      | _ => []
      end
  | _ => []
  end.
Definition expected_budget (b : GatewayBudgetLimit) : string := budget_text (duration_str (gw_budgetDuration b)) (maxBudgetUsd b).
Definition liteLLMResponseConfirmsLimits (response : json) (limits : option GatewayKeyLimits) : bool :=
  match limits with
  | None => true
  | Some l =>
      let confirms k o := match o with Some n => number_is (prop response k) n | None => true end in
      confirms "rpm_limit" (gw_rpmLimit l) && confirms "tpm_limit" (gw_tpmLimit l) &&
      ((length (gw_budgetLimits l) =? 0)%nat ||
       match prop response "budget_limits" with
       | Some (JArr rows) =>
           (length rows =? length (gw_budgetLimits l))%nat &&
           bool_decide (sort_str (mjoin (actual_budget <$> rows)) = sort_str (expected_budget <$> gw_budgetLimits l))
       | _ => false
       end)
  end.

Definition isPositivePrice (value : option json) : bool :=
  match Number_opt value with Num q => negb (Qle_bool q 0) | _ => false end.
Definition priced (entry : json) : bool :=
  match prop entry "model_info" with
  | Some (JObj pricing) => isPositivePrice (assoc "input_cost_per_token" pricing) && isPositivePrice (assoc "output_cost_per_token" pricing)
  | _ => false
  end.
Definition deployments (rows : list json) (model : string) : list json :=
  filter (λ entry, match prop entry "model_name" with Some (JStr m) => String.eqb m model | _ => false end = true) rows.
Definition liteLLMModelsHavePositivePricing (response : json) (requiredModels : list string) : res bool :=
  if (length requiredModels =? 0)%nat then Ok false
  else
    data ← member response "data";
    match data with
    | Some (JArr rows) =>
        Ok (forallb (λ m, negb (length (deployments rows m) =? 0)%nat && forallb priced (deployments rows m)) (uniq requiredModels))
    | _ => Ok false
    end.

(** A cell of a raw query: a date object, or another value. *)
Inductive cell := CellDate (t : option Z) | Cell (v : json).
Definition Number_cell (c : cell) : number :=
  match c with CellDate (Some t) => numZ t | CellDate None => NaN | Cell v => Number_json v end.
Record SpendRow := { sr_keyId : cell; sr_spend : cell }.
Record UsageRow := {
  us_keyId : cell; us_bucketAt : cell; us_model : cell; us_spend : cell; us_totalTokens : cell; us_requests : cell;
  us_lastRequestAt : cell }.
Record RollingRow := { rr_keyId : cell; rr_spend5h : cell; rr_spend7d : cell; rr_spend30d : cell }.
Definition cell_string (c : cell) : option string := match c with Cell (JStr s) => Some s | _ => None end.
Definition finite (c : cell) : option Q := match Number_cell c with Num q => Some q | _ => None end.

(** [byAlias]: a later row replaces an earlier one. *)
Definition by_alias (rows : list SpendRow) : list (string * Q) :=
  foldl (λ m r, match cell_string (sr_keyId r), finite (sr_spend r) with
                | Some k, Some q => obj_set k q m | _, _ => m end) [] rows.
Definition normalizeLiteLLMSpendRows (keyIds : list string) (rows : list SpendRow) : list SpendRecord :=
  map (λ k, {| sp_keyId := k; sp_spend := assoc k (by_alias rows) |}) keyIds.

Section dates.
(** [Date.parse] of a string. *)
Context (Date_parse : string → option Z).
(** [v instanceof Date ? v : new Date(String(v))] *)
Definition cell_date (c : cell) : option Z := match c with CellDate t => t | Cell v => Date_parse (json_toString v) end.
Definition usage_bucket (r : UsageRow) : list GatewayUsageBucket :=
  match cell_string (us_keyId r), cell_date (us_bucketAt r), cell_date (us_lastRequestAt r), finite (us_spend r),
        finite (us_totalTokens r), finite (us_requests r) with
  | Some k, Some bucketAt, Some lastRequestAt, Some spend, Some totalTokens, Some requests =>
      [{| ub_keyId := k; ub_bucketAt := bucketAt; ub_model := nullish (cell_string (us_model r)) ""; ub_spend := spend;
          ub_totalTokens := totalTokens; ub_requests := requests; ub_lastRequestAt := lastRequestAt |}]
  | _, _, _, _, _, _ => []
  end.
Definition normalizeLiteLLMUsageRows (rows : list UsageRow) : list GatewayUsageBucket := mjoin (usage_bucket <$> rows).
End dates.
Definition rolling_spend (r : RollingRow) : list GatewayRollingSpend :=
  match cell_string (rr_keyId r), finite (rr_spend5h r), finite (rr_spend7d r), finite (rr_spend30d r) with
  | Some k, Some a, Some b, Some c => [{| ro_keyId := k; ro_spend5h := a; ro_spend7d := b; ro_spend30d := c |}]
  | _, _, _, _ => []
  end.
Definition normalizeLiteLLMRollingRows (rows : list RollingRow) : list GatewayRollingSpend := mjoin (rolling_spend <$> rows).
(** The text bound to the query: the instant as [timestamptz], projected to the UTC wall clock. *)
Definition liteLLMUtcTimestamp (value : Z) : string := toISOString value +:+ "::timestamptz AT TIME ZONE 'UTC'".

(** * The adapter *)
Module Adapter.

Record Request := { rq_method : string; rq_url : string; rq_authorization : option string; rq_body : option json }.
(** [queries] numbers the reads of the engine's tables. *)
Record Engine := { requests : list Request; queries : nat }.
Record KeyRow := { kr_token : json; kr_models : json }.

Section adapter.
Context (isIPv6 : string → bool) (URL : string → option url) (resolve : string → string → option string)
  (lookup_at : nat → string → res (list string)) (JSON_parse : string → option json) (Date_parse : string → option Z).
(** The engine: the answer to a request after the ones already sent, at a hop of it; and its tables. *)
Context (respond : list Request → nat → Request → res Response).
Context (key_rows : nat → list Request → string → res (list KeyRow))
  (spend_rows : nat → list Request → list string → res (list SpendRow))
  (bucket_rows : nat → list Request → list string → BucketUnit → string → string → res (list UsageRow))
  (rolling_rows : nat → list Request → list string → string → string → string → string → res (list RollingRow))
  (spend_schema : nat → list Request → res unit).
(** The time when a key is requested. *)
Context (now_at : list Request → Z) (e : env).

Definition base : string :=
  let u := or_default (nullish (e "LITELLM_URL") "") "http://localhost:4000" in
  match reverse (chars u) with c :: l => if is_char "/" c then str (reverse l) else u | [] => u end.
Definition masterKey : string := nullish (e "LITELLM_MASTER_KEY") "".

Definition at_url (q : Request) (u : string) : Request :=
  {| rq_method := rq_method q; rq_url := u; rq_authorization := rq_authorization q; rq_body := rq_body q |}.
(** [safeFetch]: every hop repeats the request. *)
Definition send (q : Request) : M Engine Response := λ g,
  match safeFetch isIPv6 URL resolve lookup_at (λ hop u, respond (requests g) hop (at_url q u)) (rq_url q) (loadSsrfPolicy e) with
  | Some (r, trace) => (r, {| requests := requests g ++ map (λ '(_, u), at_url q u) trace; queries := queries g |})
  | None => (Throw (Error "unreachable"), g)
  end.
Definition read_json (path : string) (r : Response) : res json :=
  if negb (response_ok r) then Throw (LiteLLMAdminHttpError path (status_ r))
  else raw ← text r; match JSON_parse raw with Some v => Ok v | None => Throw (Error "invalid JSON") end.
Definition get_request (path : string) : Request :=
  {| rq_method := "GET"; rq_url := base +:+ path;
     rq_authorization := if truthy masterKey then Some ("Bearer " +:+ masterKey) else None; rq_body := None |}.
Definition post_request (path : string) (body : json) : Request :=
  {| rq_method := "POST"; rq_url := base +:+ path; rq_authorization := Some ("Bearer " +:+ masterKey); rq_body := Some body |}.
Definition get (path : string) : M Engine json := r ← send (get_request path); lift (read_json path r).
Definition call (path : string) (body : json) : M Engine json := r ← send (post_request path body); lift (read_json path r).
Definition ask {A} (table : nat → list Request → res A) : M Engine A := λ g,
  (table (queries g) (requests g), {| requests := requests g; queries := S (queries g) |}).
(** [try { m; return true } catch { return false }] *)
Definition succeeds {A} (m : M Engine A) : M Engine bool := try_catch (_ ← m; mret true) (λ _, mret false).

Definition liteLLMKeyManagementReady : M Engine bool := succeeds (get "/key/list?page=1&size=1").
Definition liteLLMSpendSchemaReady : M Engine bool := succeeds (ask spend_schema).
Definition liteLLMModelPricingReady (requiredModels : list string) : M Engine bool :=
  try_catch (j ← get "/model/info"; lift (liteLLMModelsHavePositivePricing j requiredModels)) (λ _, mret false).

Definition revokeKey (keyId : string) : M Engine unit :=
  try_catch (_ ← call "/key/delete" (JObj [("key_aliases", JArr [JStr keyId])]); mret tt) (λ er,
    match er with
    | LiteLLMAdminHttpError endpoint status =>
        if String.eqb endpoint "/key/delete" && (status =? 404)
        then rows ← ask (λ n l, key_rows n l keyId); guard_throw (negb (length rows =? 0)%nat) er
        else raise er
    | _ => raise er
    end).

Definition pricing_unavailable (what : string) : exn :=
  Error ("LiteLLM model pricing is unavailable; refusing to " +:+ what).
Definition invalid_key : exn := Error "LiteLLM returned an invalid or unenforced key-policy response".
(** [typeof j.expires === "string" ? new Date(j.expires) : null] *)
Definition gateway_expiry (expires : option json) : option (option Z) :=
  match expires with Some (JStr s) => Some (Date_parse s) | _ => None end.
Definition expiryIsValid (requested : option Z) (expires : option json) (startedAt : Z) : bool :=
  match requested with
  | None => match expires with Some JNull => true | _ => false end
  | Some t => match gateway_expiry expires with Some (Some x) => (startedAt <? x) && (x <=? t + 5000) | _ => false end
  end.
Definition generate (o : IssueOptions) (startedAt : Z) : M Engine json :=
  try_catch
    (body ← lift (liteLLMKeyIssuePayload {| o_model := o_model o; o_models := Some (authorized (o_model o) (o_models o));
                    o_alias := o_alias o; o_expiresAt := o_expiresAt o; o_metadata := o_metadata o; o_limits := o_limits o |} startedAt);
     call "/key/generate" body)
    (λ er, _ ← ignore_error (revokeKey (o_alias o)); raise er).
Definition accept (o : IssueOptions) (startedAt : Z) (j : json) : M Engine IssuedKey :=
  k ← lift (member j "key");
  let key := str_or_empty k in
  let expires := prop j "expires" in
  if negb (truthy key) || negb (expiryIsValid (o_expiresAt o) expires startedAt)
     || negb (liteLLMResponseConfirmsLimits j (o_limits o))
  then _ ← ignore_error (revokeKey (o_alias o)); raise invalid_key
  else mret {| issued_key := key; issued_keyId := o_alias o; issued_expiresAt := nullish (gateway_expiry expires) None |}.
Definition budgeted (o : IssueOptions) : bool :=
  match o_limits o with Some l => negb (length (gw_budgetLimits l) =? 0)%nat | None => false end.
Definition issueKey (o : IssueOptions) : M Engine IssuedKey :=
  ready ← (if budgeted o then liteLLMModelPricingReady (authorized (o_model o) (o_models o)) else mret true);
  _ ← guard_throw (negb ready) (pricing_unavailable "issue an unenforceable USD budget");
  startedAt ← gets (λ g, now_at (requests g));
  j ← generate o startedAt;
  accept o startedAt j.

Definition is_hex64 (s : string) : bool :=
  (String.length s =? 64)%nat && forallb (λ c, is_digit c || in_range 97 102 c || in_range 65 70 c) (chars s).
Definition string_list (v : json) : option (list string) :=
  match v with JArr l => mapM (λ x, match x with JStr s => Some s | _ => None end) l | _ => None end.
Definition readKey (keyId : string) : M Engine (string * list string) :=
  rows ← ask (λ n l, key_rows n l keyId);
  match rows with
  | [row] =>
      match kr_token row with
      | JStr token =>
          _ ← guard_throw (negb (is_hex64 token)) (Error "LiteLLM device key identifier is invalid");
          currentModels ← require (string_list (kr_models row)) (Error "LiteLLM device key model policy is invalid");
          mret (token, uniq currentModels)
      | _ => raise (Error "LiteLLM device key identifier is invalid")
      end
  | _ => raise (Error "LiteLLM device key was not found by its private alias")
  end.
Definition same_models (desired current : list string) : bool :=
  (length current =? length desired)%nat && forallb (λ m, mem m current) desired.
Definition syncKeyModels (keyId : string) (l : list string) : M Engine (list string) :=
  let desired := uniq l in
  _ ← guard_throw (length desired =? 0)%nat (Error "managed device key must authorize at least one model");
  current ← readKey keyId;
  if same_models desired current.2 then mret desired
  else
    ready ← liteLLMModelPricingReady desired;
    _ ← guard_throw (negb ready) (pricing_unavailable "expand a budgeted device key");
    _ ← call "/key/update" (JObj [("key", JStr current.1); ("models", JArr (JStr <$> desired))]);
    updated ← readKey keyId;
    _ ← guard_throw (negb (same_models desired updated.2)) (Error "LiteLLM did not apply the requested device key model policy");
    mret desired.

Definition listSpend (keyIds : list string) : M Engine (list SpendRecord) :=
  if (length keyIds =? 0)%nat then mret []
  else try_catch (rows ← ask (λ n l, spend_rows n l keyIds); mret (normalizeLiteLLMSpendRows keyIds rows))
         (λ _, mret (map (λ k, {| sp_keyId := k; sp_spend := None |}) keyIds)).

Definition ledger (available : bool) (b : list GatewayUsageBucket) (r : list GatewayRollingSpend) : GatewayUsageReport :=
  PaygLedger {| rep_source := "litellm"; rep_available := available; rep_buckets := b; rep_rolling := r |}.
Definition usage (keyIds : list string) (r : UsageRange) (now : Z) : M Engine GatewayUsageReport :=
  if (length keyIds =? 0)%nat then mret (ledger true [] [])
  else
    w ← lift (usageWindow r (Some now));
    let fromUtc := liteLLMUtcTimestamp (from w) in
    let toUtc := liteLLMUtcTimestamp (to w) in
    let ago hours := liteLLMUtcTimestamp (now - hours * 60 * 60000) in
    try_catch (b ← ask (λ n l, bucket_rows n l keyIds (bucketUnit w) fromUtc toUtc);
               ro ← ask (λ n l, rolling_rows n l keyIds (ago 5) (ago (7 * 24)) (ago (30 * 24)) toUtc);
               mret (ledger true (normalizeLiteLLMUsageRows Date_parse b) (normalizeLiteLLMRollingRows ro)))
      (λ _, mret (ledger false [] [])).

Definition readiness : M Engine bool :=
  try_catch
    (r ← send (get_request "/health/liveliness");
     if negb (response_ok r) then mret false
     else
       keyManagement ← liteLLMKeyManagementReady;
       spendSchema ← liteLLMSpendSchemaReady;
       allowed ← lift (allowedManagedModels e);
       modelPricing ← liteLLMModelPricingReady allowed;
       mret (keyManagement && spendSchema && modelPricing))
    (λ _, mret false).

Definition adapter : GatewayAdapter Engine := {|
  Gateway.issueKey := issueKey; Gateway.syncKeyModels := syncKeyModels; Gateway.revokeKey := revokeKey;
  Gateway.listSpend := listSpend; Gateway.usage := usage; Gateway.readiness := readiness |}.
End adapter.
End Adapter.

(** * What the adapter guarantees *)
Module AdapterFacts.
Import Adapter.

Section engine.
Context (isIPv6 : string → bool) (URL : string → option url) (resolve : string → string → option string)
  (lookup_at : nat → string → res (list string)) (JSON_parse : string → option json) (Date_parse : string → option Z).
Context (respond : list Request → nat → Request → res Response).
Context (key_rows : nat → list Request → string → res (list KeyRow))
  (spend_rows : nat → list Request → list string → res (list SpendRow))
  (bucket_rows : nat → list Request → list string → BucketUnit → string → string → res (list UsageRow))
  (rolling_rows : nat → list Request → list string → string → string → string → string → res (list RollingRow))
  (spend_schema : nat → list Request → res unit).
Context (now_at : list Request → Z) (e : env).
(** The aliases with a key, after a sequence of requests. *)
Context (alive : list Request → string → bool).

Local Abbreviation send := (send isIPv6 URL resolve lookup_at respond e).
Local Abbreviation call := (call isIPv6 URL resolve lookup_at JSON_parse respond e).
Local Abbreviation get := (get isIPv6 URL resolve lookup_at JSON_parse respond e).
Local Abbreviation revokeKey := (revokeKey isIPv6 URL resolve lookup_at JSON_parse respond key_rows e).
Local Abbreviation pricing_ready := (liteLLMModelPricingReady isIPv6 URL resolve lookup_at JSON_parse respond e).
Local Abbreviation generate := (generate isIPv6 URL resolve lookup_at JSON_parse respond key_rows e).
Local Abbreviation accept := (accept isIPv6 URL resolve lookup_at JSON_parse Date_parse respond key_rows e).
Local Abbreviation issueKey := (issueKey isIPv6 URL resolve lookup_at JSON_parse Date_parse respond key_rows now_at e).
Local Abbreviation syncKeyModels := (syncKeyModels isIPv6 URL resolve lookup_at JSON_parse respond key_rows e).

(** The request carries the alias. *)
Definition names (q : Request) (a : string) : Prop :=
  ∃ m, rq_body q = Some (JObj m) ∧
    (assoc "key_alias" m = Some (JStr a) ∨ ∃ l, assoc "key_aliases" m = Some (JArr l) ∧ JStr a ∈ l).
Definition delete_request (a : string) : Request := post_request e "/key/delete" (JObj [("key_aliases", JArr [JStr a])]).

(** The documented behaviour of the engine's admin API: it answers without redirects; a request changes only
    the aliases it names; a returned key exists; a deletion it answers with success is done; and its table
    holds every key. *)
Record EngineLaws : Prop := {
  el_direct l hop q r : respond l hop q = Ok r → is_redirect r = None;
  el_frame l q a : ¬ names q a → alive (l ++ [q]) a = alive l a;
  el_generate l m r j a k : respond l 0 (post_request e "/key/generate" (JObj m)) = Ok r →
    assoc "key_alias" m = Some (JStr a) → read_json JSON_parse "/key/generate" r = Ok j →
    prop j "key" = Some (JStr k) → truthy k = true → alive (l ++ [post_request e "/key/generate" (JObj m)]) a = true;
  el_delete l a r j : respond l 0 (delete_request a) = Ok r → read_json JSON_parse "/key/delete" r = Ok j →
    alive (l ++ [delete_request a]) a = false;
  el_absent n l a : key_rows n l a = Ok [] → alive l a = false }.
Context (Hlaws : EngineLaws).

Lemma send_spec q g r g' : send q g = (r, g') →
  queries g' = queries g ∧ (requests g' = requests g ∨ requests g' = requests g ++ [q]) ∧
  (∀ response, r = Ok response → requests g' = requests g ++ [q] ∧ respond (requests g) 0 q = Ok response).
Proof.
  assert (at_url q (rq_url q) = q) as Hq by by destruct q.
  assert (∀ fuel p, match fetch_from isIPv6 URL resolve lookup_at (λ hop u, respond (requests g) hop (at_url q u)) fuel 0 (rq_url q) p with
    | Some (x, trace) => (trace = [] ∨ trace = [(0%nat, rq_url q)]) ∧
        ∀ response, x = Ok response → trace = [(0%nat, rq_url q)] ∧ respond (requests g) 0 q = Ok response
    | None => True end) as Hf.
  { intros fuel p. destruct fuel as [|fuel]; cbn [fetch_from]; destruct (negb (within _ _)); [by split; [left|]|done|by split; [left|]|].
    destruct (assertUrlAllowed _ _ _ _ _) as [[]|er]; [|by split; [left|]]. rewrite Hq.
    destruct (respond (requests g) 0 q) as [response|er] eqn:Hr; [|by split; [right|]].
    rewrite (el_direct Hlaws _ _ _ _ Hr). split; [by right|]. by intros ? [= <-]. }
  unfold Adapter.send, safeFetch. specialize (Hf (hop_fuel (maxRedirects (loadSsrfPolicy e))) (loadSsrfPolicy e)).
  destruct (fetch_from _ _ _ _ _ _ _ _ _) as [[x trace]|]; [|intros [= <- <-]; split_and!; [done|by left|done]].
  destruct Hf as [Ht Hok]. intros [= <- <-]. cbn [requests queries]. split; [done|]. split.
  - destruct Ht as [->| ->]; cbn [map]; [left; by rewrite app_nil_r|right; by rewrite Hq].
  - intros response Hx. destruct (Hok _ Hx) as [-> ?]. cbn [map]. by rewrite Hq.
Qed.

(** A request that does not name an alias leaves it. *)
Lemma send_frame q g r g' a : send q g = (r, g') → ¬ names q a → alive (requests g') a = alive (requests g) a.
Proof. intros Hs Hn. destruct (send_spec _ _ _ _ Hs) as (_ & [->| ->] & _); [done|by apply (el_frame Hlaws)]. Qed.
Lemma exchange_inv path q g r g' :
  (x ← send q; lift (read_json JSON_parse path x)) g = (r, g') → ∃ x, send q g = (x, g') ∧
  ∀ j, r = Ok j → ∃ response, x = Ok response ∧ read_json JSON_parse path response = Ok j.
Proof.
  unfold mbind, M_bind, lift. destruct (send q g) as [[response|er] g1]; intros [= <- <-]; [|by eexists].
  eexists. split; [done|]. eauto.
Qed.
Lemma get_frame path g r g' a : get path g = (r, g') → alive (requests g') a = alive (requests g) a.
Proof. intros (x & Hs & _)%exchange_inv. apply (send_frame _ _ _ _ _ Hs). by intros (m & [=] & _). Qed.
Lemma call_frame path m g r g' a : call path (JObj m) g = (r, g') →
  assoc "key_alias" m ≠ Some (JStr a) → (∀ l, assoc "key_aliases" m = Some (JArr l) → JStr a ∉ l) →
  alive (requests g') a = alive (requests g) a.
Proof.
  intros (x & Hs & _)%exchange_inv Hn Hl. apply (send_frame _ _ _ _ _ Hs). intros (m' & [= <-] & [?|(l & Hm & Ha)]); [done|].
  by destruct (Hl l Hm).
Qed.
Lemma pricing_frame models g r g' a : pricing_ready models g = (r, g') → alive (requests g') a = alive (requests g) a.
Proof.
  unfold liteLLMModelPricingReady, try_catch, mbind, M_bind. destruct (get "/model/info" g) as [[j|er] g1] eqn:Hg;
    pose proof (get_frame _ _ _ _ a Hg); unfold lift.
  - destruct (liteLLMModelsHavePositivePricing j models); by intros [= <- <-].
  - by intros [= <- <-].
Qed.
Lemma ask_inv {A} (table : nat → list Request → res A) g r g' : ask table g = (r, g') →
  requests g' = requests g ∧ r = table (queries g) (requests g).
Proof. unfold ask. by intros [= <- <-]. Qed.

(** Deleting by alias: only the alias is concerned, and when the call returns it has no key. *)
Lemma revokeKey_spec k g r g' : revokeKey k g = (r, g') →
  (∀ a, a ≠ k → alive (requests g') a = alive (requests g) a) ∧ (r = Ok tt → alive (requests g') k = false).
Proof.
  unfold Adapter.revokeKey, try_catch. unfold mbind at 1, M_bind at 1.
  destruct (call "/key/delete" (JObj [("key_aliases", JArr [JStr k])]) g) as [x g1] eqn:Hc.
  assert (∀ a, a ≠ k → alive (requests g1) a = alive (requests g) a) as Hf.
  { intros a Ha. apply (call_frame _ _ _ _ _ _ Hc); [done|]. intros l. cbn. intros [= <-]. set_solver. }
  destruct x as [j|er].
  - intros [= <- <-]. split; [done|]. intros _. apply exchange_inv in Hc as (x & Hs & Hj).
    destruct (Hj _ eq_refl) as (response & -> & Hread). destruct (send_spec _ _ _ _ Hs) as (_ & _ & Hok).
    destruct (Hok _ eq_refl) as [-> Hresp]. by apply (el_delete Hlaws _ _ _ _ Hresp Hread).
  - destruct er; try (intros [= <- <-]; by split).
    destruct (String.eqb endpoint "/key/delete" && (httpStatus =? 404)); [|intros [= <- <-]; by split].
    unfold mbind, M_bind. destruct (ask (λ n l, key_rows n l k) g1) as [rows g2] eqn:Ha.
    apply ask_inv in Ha as [Hrq ->]. destruct (key_rows (queries g1) (requests g1) k) as [rows|er] eqn:Hrows.
    + unfold guard_throw. destruct (negb (length rows =? 0)%nat) eqn:Hl; intros [= <- <-]; rewrite Hrq; (split; [done|]); [done|].
      intros _. apply (el_absent Hlaws (queries g1)). by destruct rows.
    + intros [= <- <-]. rewrite Hrq. by split.
Qed.

Lemma payload_alias o t body : liteLLMKeyIssuePayload o t = Ok body → ∃ m, body = JObj m ∧
  assoc "key_alias" m = Some (JStr (o_alias o)) ∧ assoc "key_aliases" m = None.
Proof.
  unfold liteLLMKeyIssuePayload. intros (d & _ & [= <-])%res_bind_ok. eexists. split; [reflexivity|].
  split; [done|]. cbn [app assoc String.eqb Ascii.eqb]. destruct (length _ =? 0)%nat; destruct (o_limits o ≫= gw_rpmLimit); by destruct (o_limits o ≫= gw_tpmLimit).
Qed.

(** The compensating deletion of the alias was tried last, and did not return. *)
Definition cleanup_failed (a : string) (g' : Engine) : Prop := ∃ g er, revokeKey a g = (Throw er, g').
Lemma cleanup_spec a g r g' : ignore_error (revokeKey a) g = (r, g') →
  r = Ok tt ∧ (∀ b, b ≠ a → alive (requests g') b = alive (requests g) b) ∧ (alive (requests g') a = false ∨ cleanup_failed a g').
Proof.
  unfold ignore_error, try_catch. destruct (revokeKey a g) as [[[]|er] g1] eqn:Hr; destruct (revokeKey_spec _ _ _ _ Hr) as [Hf Hd];
    intros [= <- <-]; (split; [done|split; [done|]]); [left; by apply Hd|right; by exists g, er].
Qed.

(** The options a payload is made of: with the resolved models. *)
Definition resolved (o : IssueOptions) : IssueOptions :=
  {| o_model := o_model o; o_models := Some (authorized (o_model o) (o_models o)); o_alias := o_alias o;
     o_expiresAt := o_expiresAt o; o_metadata := o_metadata o; o_limits := o_limits o |}.
(** The answer [j] to the last request, which asked for the key. *)
Definition answered (o : IssueOptions) (t : Z) (g' : Engine) (j : json) : Prop := ∃ m before response,
  liteLLMKeyIssuePayload (resolved o) t = Ok (JObj m) ∧
  requests g' = before ++ [post_request e "/key/generate" (JObj m)] ∧
  respond before 0 (post_request e "/key/generate" (JObj m)) = Ok response ∧
  read_json JSON_parse "/key/generate" response = Ok j.

Lemma generate_spec o t g r g' : generate o t g = (r, g') →
  (∀ b, b ≠ o_alias o → alive (requests g') b = alive (requests g) b) ∧
  match r with
  | Ok j => answered o t g' j ∧ ∃ m response, assoc "key_alias" m = Some (JStr (o_alias o)) ∧
      requests g' = requests g ++ [post_request e "/key/generate" (JObj m)] ∧
      respond (requests g) 0 (post_request e "/key/generate" (JObj m)) = Ok response ∧
      read_json JSON_parse "/key/generate" response = Ok j
  | Throw _ => alive (requests g') (o_alias o) = false ∨ cleanup_failed (o_alias o) g'
  end.
Proof.
  unfold Adapter.generate. unfold try_catch at 1. rewrite bind_lift. change (liteLLMKeyIssuePayload _ t) with (liteLLMKeyIssuePayload (resolved o) t).
  destruct (liteLLMKeyIssuePayload (resolved o) t) as [body|er] eqn:Hp.
  2: { unfold mbind, M_bind. destruct (ignore_error (revokeKey (o_alias o)) g) as [x g1] eqn:Hc.
       apply cleanup_spec in Hc as (-> & Hf & Hd). by intros [= <- <-]. }
  pose proof Hp as Hp'. apply payload_alias in Hp' as (m & -> & Ha & Hl). cbn [resolved o_alias] in Ha.
  destruct (call "/key/generate" (JObj m) g) as [x g1] eqn:Hc.
  assert (∀ b, b ≠ o_alias o → alive (requests g1) b = alive (requests g) b) as Hf.
  { intros b Hb. apply (call_frame _ _ _ _ _ _ Hc); [congruence|]. rewrite Hl. done. }
  destruct x as [j|er].
  - intros [= <- <-]. split; [done|]. apply exchange_inv in Hc as (x & Hs & Hj).
    destruct (Hj _ eq_refl) as (response & -> & Hread). destruct (send_spec _ _ _ _ Hs) as (_ & _ & Hok).
    destruct (Hok _ eq_refl) as [? ?].
    split; [by exists m, (requests g), response|]. by exists m, response.
  - unfold mbind, M_bind. destruct (ignore_error (revokeKey (o_alias o)) g1) as [x g2] eqn:Hcl.
    apply cleanup_spec in Hcl as (-> & Hf2 & Hd). intros [= <- <-]. split; [|done]. intros b Hb. by rewrite Hf2, Hf.
Qed.

(** The adapter accepts an answer only when it is what was asked for. *)
Definition acceptable (o : IssueOptions) (startedAt : Z) (j : json) (k : IssuedKey) : Prop :=
  prop j "key" = Some (JStr (issued_key k)) ∧ truthy (issued_key k) = true ∧ issued_keyId k = o_alias o ∧
  liteLLMResponseConfirmsLimits j (o_limits o) = true ∧
  match o_expiresAt o with
  | None => issued_expiresAt k = None
  | Some t => ∃ x, issued_expiresAt k = Some x ∧ startedAt < x <= t + 5000
  end.
Lemma accept_spec o t j g r g' : accept o t j g = (r, g') →
  (∀ b, b ≠ o_alias o → alive (requests g') b = alive (requests g) b) ∧
  match r with
  | Ok k => g' = g ∧ acceptable o t j k
  | Throw _ => j = JNull ∧ g' = g ∨ alive (requests g') (o_alias o) = false ∨ cleanup_failed (o_alias o) g'
  end.
Proof.
  unfold Adapter.accept. rewrite bind_lift. destruct (member j "key") as [k|er] eqn:Hk.
  2: { intros [= <- <-]. split; [done|]. left. by destruct j. }
  assert (k = prop j "key") as -> by (unfold member in Hk; destruct j; congruence).
  cbv zeta. destruct (negb _ || _ || _) eqn:Hbad.
  - unfold mbind, M_bind. destruct (ignore_error (revokeKey (o_alias o)) g) as [x g1] eqn:Hc.
    apply cleanup_spec in Hc as (-> & Hf & Hd). intros [= <- <-]. split; [done|]. by right.
  - apply orb_false_iff in Hbad as [[Ht He]%orb_false_iff Hl]. rewrite !negb_false_iff in Ht, He, Hl.
    intros [= <- <-]. split; [done|]. split; [done|]. unfold acceptable. cbn [issued_key issued_keyId issued_expiresAt].
    split_and!; [by destruct (prop j "key") as [[]|]|done|done|done|]. unfold expiryIsValid in He.
    destruct (o_expiresAt o) as [t0|].
    + destruct (gateway_expiry _ _) as [[x|]|]; [|done|done]. apply andb_true_iff in He as [?%Z.ltb_lt ?%Z.leb_le].
      exists x. split; [done|lia].
    + destruct (prop j "expires") as [[]|]; done.
Qed.

(** How issuing a key can end, for its alias. *)
Lemma issueKey_spec o g r g' : issueKey o g = (r, g') →
  (∀ b, b ≠ o_alias o → alive (requests g') b = alive (requests g) b) ∧
  match r with
  | Ok k => (∃ t j, acceptable o t j k ∧ alive (requests g') (o_alias o) = true ∧ answered o t g' j) ∧
      (budgeted o = true → ∃ g1, pricing_ready (authorized (o_model o) (o_models o)) g = (Ok true, g1))
  | Throw _ => alive (requests g') (o_alias o) = alive (requests g) (o_alias o) ∨
      alive (requests g') (o_alias o) = false ∨ cleanup_failed (o_alias o) g' ∨
      ∃ t g1, generate o t g1 = (Ok JNull, g')
  end.
Proof.
  unfold Adapter.issueKey.
  match goal with |- (?m ≫= _) g = _ → _ => destruct (m g) as [x g1] eqn:Hq end.
  assert (∀ b, alive (requests g1) b = alive (requests g) b) as Hf1.
  { intros b. revert Hq. destruct (budgeted o); [apply pricing_frame|by intros [= _ <-]]. }
  destruct x as [ready|er]; [|unfold mbind, M_bind; rewrite Hq; intros [= <- <-]; split; [done|by left]].
  unfold mbind at 1, M_bind at 1. rewrite Hq, bind_guard. destruct ready; cbn [negb]; [|intros [= <- <-]; split; [done|by left]].
  unfold gets. unfold mbind at 1, M_bind at 1. set (t := now_at (requests g1)). unfold mbind, M_bind.
  destruct (generate o t g1) as [x g2] eqn:Hg. destruct (generate_spec _ _ _ _ _ Hg) as [Hf2 Hx].
  assert (∀ b, b ≠ o_alias o → alive (requests g2) b = alive (requests g) b) as Hf by (intros b Hb; by rewrite Hf2, Hf1).
  destruct x as [j|er]; [|intros [= <- <-]; split; [done|]; destruct Hx; eauto].
  intros Ha. destruct (accept_spec _ _ _ _ _ _ Ha) as [Hf3 Hr]. split; [intros b Hb; by rewrite Hf3, Hf|].
  destruct r as [k|er].
  - destruct Hr as [-> Hacc]. split; [|intros Hb; rewrite Hb in Hq; by exists g1]. exists t, j. split; [done|]. destruct Hx as (Hans & m & response & Hal & Hreq & Hresp & Hread).
    split; [|done]. rewrite Hreq. destruct Hacc as (Hk & Ht & _). by apply (el_generate Hlaws _ _ _ _ _ _ Hresp Hal Hread Hk).
  - destruct Hr as [[-> ->]|Hr]; [right; right; right; eauto|destruct Hr; eauto].
Qed.

(** Reading and changing the models of a key names no alias. *)
Lemma readKey_inv k g r g' : readKey key_rows k g = (r, g') → requests g' = requests g.
Proof.
  unfold readKey. unfold mbind at 1, M_bind at 1. destruct (ask _ g) as [rows g1] eqn:Ha. apply ask_inv in Ha as [<- _].
  destruct rows as [[|row [|? ?]]|er]; try (by intros [= _ <-]).
  destruct (kr_token row); try (by intros [= _ <-]). rewrite bind_guard. destruct (negb _); [by intros [= _ <-]|].
  destruct (string_list _); by intros [= _ <-].
Qed.
Lemma syncKeyModels_frame k l g r g' a : syncKeyModels k l g = (r, g') → alive (requests g') a = alive (requests g) a.
Proof.
  unfold Adapter.syncKeyModels. cbv zeta. rewrite bind_guard. destruct (_ =? 0)%nat; [by intros [= _ <-]|].
  unfold mbind at 1, M_bind at 1. destruct (readKey key_rows k g) as [x g1] eqn:Hq. apply readKey_inv in Hq as <-.
  destruct x as [current|]; [|by intros [= _ <-]]. destruct (same_models _ _); [by intros [= _ <-]|].
  unfold mbind at 1, M_bind at 1. destruct (pricing_ready (uniq l) g1) as [x g2] eqn:Hq. rewrite <-(pricing_frame _ _ _ _ a Hq).
  destruct x as [ready|]; [|by intros [= _ <-]]. rewrite bind_guard. destruct (negb ready); [by intros [= _ <-]|].
  unfold mbind at 1, M_bind at 1. match goal with |- context [call ?p ?b g2] => destruct (call p b g2) as [x g3] eqn:Hc end.
  rewrite <-(call_frame _ _ _ _ _ a Hc) by done. destruct x as [j|]; [|by intros [= _ <-]].
  unfold mbind at 1, M_bind at 1. destruct (readKey key_rows k g3) as [x g4] eqn:Hq4. apply readKey_inv in Hq4 as <-.
  destruct x as [updated|]; [|by intros [= _ <-]]. rewrite bind_guard. by destruct (negb _); intros [= _ <-].
Qed.

Local Abbreviation adapter := (adapter isIPv6 URL resolve lookup_at JSON_parse Date_parse respond key_rows spend_rows bucket_rows
  rolling_rows spend_schema now_at e).
(** The adapter is a gateway as Control relies on it, to within the five seconds of [expiryIsValid]. *)
Definition laws : @GatewayLaws Engine adapter.
Proof.
  refine {| live := λ (g : Engine) a, alive (requests g) a; rounding := 5000 |}.
  - intros o g k g' Hi. apply issueKey_spec in Hi as [_ [(t & j & (_ & _ & ? & _) & ? & _) _]]. done.
  - intros o g k g' Hi. apply issueKey_spec in Hi as [_ [(t & j & (_ & _ & _ & _ & Hx) & _) _]].
    destruct (o_expiresAt o); [|done]. destruct Hx as (x & ? & ?). exists x. split; [done|lia].
  - intros o g r g' a Hi Ha. by apply issueKey_spec in Hi as [Hf _]; apply Hf.
  - intros k g [] g' Hr. by apply revokeKey_spec in Hr as [_ Hd]; apply Hd.
  - intros k g r g' a Hr Ha. by apply revokeKey_spec in Hr as [Hf _]; apply Hf.
  - intros k l g r g' a. apply syncKeyModels_frame.
Defined.

(** C20: a LiteLLM key is what was asked for, or accounted for. Whatever happens, no other alias changes. A returned
    key is live under the requested alias; the engine's answer to the payload of the request confirms the rate and
    budget limits, and its expiry is after the start and at most five seconds later than the requested one (it may be
    any time earlier), or explicitly none when none was requested; a budget is only issued after every model was found
    priced. When issuing throws, the alias is as before, or it is dead, or the compensating deletion was tried and
    failed, or the engine answered a bare [null]. *)
Theorem issued_key_accountable o g r g' : issueKey o g = (r, g') →
  (∀ b, b ≠ o_alias o → alive (requests g') b = alive (requests g) b) ∧
  match r with
  | Ok k => (∃ t j, acceptable o t j k ∧ alive (requests g') (o_alias o) = true ∧ answered o t g' j) ∧
      (budgeted o = true → ∃ g1, pricing_ready (authorized (o_model o) (o_models o)) g = (Ok true, g1))
  | Throw _ => alive (requests g') (o_alias o) = alive (requests g) (o_alias o) ∨
      alive (requests g') (o_alias o) = false ∨ cleanup_failed (o_alias o) g' ∨
      ∃ t g1, generate o t g1 = (Ok JNull, g')
  end.
Proof. exact (issueKey_spec o g r g'). Qed.
End engine.
End AdapterFacts.

(** * The checks on the answers *)

(** The duration of a key never exceeds the time to its expiry, except that a remainder below one second becomes
    one second. *)
Lemma key_duration_bounds expiresAt now s : liteLLMKeyDuration expiresAt now = Ok s →
  ∃ n, s = pretty n +:+ "s" ∧ 1 <= n ∧ (1000 <= expiresAt - now → n * 1000 <= expiresAt - now < (n + 1) * 1000).
Proof.
  unfold liteLLMKeyDuration. cbv zeta. destruct (_ <=? 0) eqn:Hr; [done|]. intros [= <-]. apply Z.leb_gt in Hr.
  eexists. split; [reflexivity|]. split; [lia|]. intros Hb. pose proof (Z.div_mod (expiresAt - now) 1000).
  pose proof (Z.mod_pos_bound (expiresAt - now) 1000). pose proof (Z.div_le_mono 1000 _ 1000 ltac:(lia) Hb). lia.
Qed.
(** An expiry less than a second away: the key outlives it. *)
Example key_outlives_subsecond_expiry : liteLLMKeyDuration 1001 1000 = Ok "1s".
Proof. vm_compute. reflexivity. Qed.

Lemma number_is_true v n : number_is v n = true ↔ ∃ q, Number_opt v = Num q ∧ (q == inject_Z n)%Q.
Proof.
  unfold number_is. destruct (Number_opt v) as [| |q0]; [split; [done|by intros (q' & [=] & _)]..|].
  rewrite Qeq_bool_iff. split; [intros ?; by eexists|by intros (q' & [= <-] & ?)].
Qed.

(** the engine's answer confirms the limits of a key exactly when each requested rate limit is the number it
    reports, and the budget limits it reports are the requested ones, each with its amount, in any order. *)
Theorem confirmed_limits_iff response l :
  liteLLMResponseConfirmsLimits response (Some l) = true ↔
  (∀ k o n, (k, o) ∈ [("rpm_limit", gw_rpmLimit l); ("tpm_limit", gw_tpmLimit l)] → o = Some n →
     ∃ q, Number_opt (prop response k) = Num q ∧ (q == inject_Z n)%Q) ∧
  (gw_budgetLimits l = [] ∨ ∃ rows, prop response "budget_limits" = Some (JArr rows) ∧
     length rows = length (gw_budgetLimits l) ∧
     mjoin (actual_budget <$> rows) ≡ₚ expected_budget <$> gw_budgetLimits l).
Proof.
  unfold liteLLMResponseConfirmsLimits. cbv zeta. rewrite !andb_true_iff, orb_true_iff.
  assert (∀ k o, match o with Some n => number_is (prop response k) n | None => true end = true ↔
    ∀ n, o = Some n → ∃ q, Number_opt (prop response k) = Num q ∧ (q == inject_Z n)%Q) as Hn.
  { intros k [n|]; [|naive_solver]. rewrite number_is_true. naive_solver. }
  rewrite !Hn. clear Hn. apply Morphisms_Prop.and_iff_morphism; [split|apply Morphisms_Prop.or_iff_morphism].
  - intros [? ?] k o n [[= -> ->]|[[= -> ->]|[]%elem_of_nil]%elem_of_cons]%elem_of_cons; eauto.
  - intros Hk. split; intros n Hs; eapply Hk; [|exact Hs| |exact Hs]; set_solver.
  - rewrite Nat.eqb_eq. split; [apply length_zero_iff_nil|by intros ->].
  - destruct (prop response "budget_limits") as [[| | | |rows|]|]; try (split; [done|naive_solver]).
    rewrite andb_true_iff, Nat.eqb_eq, bool_decide_eq_true. split.
    + intros [Hl Hs]. exists rows. split; [done|]. split; [done|]. by rewrite <-sort_str_perm, Hs, sort_str_perm.
    + intros (? & [= <-] & Hl & Hs). split; [done|]. by apply sort_str_perm_eq.
Qed.

(** spend is never made up. The records answer the requested keys in order; a key has a spend exactly when a row
    of the ledger names it with a finite number, and it is then such a number; otherwise it is unknown, not zero. *)
Theorem spend_rows_never_made_up keyIds rows :
  map sp_keyId (normalizeLiteLLMSpendRows keyIds rows) = keyIds ∧
  Forall (λ r, match sp_spend r with
    | Some q => ∃ row, row ∈ rows ∧ cell_string (sr_keyId row) = Some (sp_keyId r) ∧ Number_cell (sr_spend row) = Num q
    | None => ∀ row q, row ∈ rows → cell_string (sr_keyId row) = Some (sp_keyId r) → Number_cell (sr_spend row) ≠ Num q
    end) (normalizeLiteLLMSpendRows keyIds rows).
Proof.
  unfold normalizeLiteLLMSpendRows. split; [by rewrite map_map, map_id|].
  apply Forall_map, Forall_true. intros k. cbn [sp_spend sp_keyId].
  unfold by_alias. induction rows as [|row rows IH] using rev_ind; [set_solver|]. rewrite foldl_app. cbn [foldl].
  set (m := foldl _ [] rows) in *. clearbody m.
  destruct (decide (cell_string (sr_keyId row) = Some k ∧ isSome (finite (sr_spend row)) = true)) as [[Hk Hf]|Hno].
  - rewrite Hk. unfold finite in *. destruct (Number_cell (sr_spend row)) as [| |q] eqn:Hq; [done..|]. rewrite assoc_obj_set.
    exists row. set_solver.
  - assert (assoc k (match cell_string (sr_keyId row), finite (sr_spend row) with Some k, Some q => obj_set k q m | _, _ => m end)
      = assoc k m) as ->.
    { destruct (cell_string (sr_keyId row)) as [k'|]; [|done]. destruct (finite (sr_spend row)); [|done].
      apply assoc_obj_set_ne. intros ->. by apply Hno. }
    destruct (assoc k m) as [q|]; [destruct IH as (r0 & ? & ?); exists r0; set_solver|].
    intros r0 q Hr Hk Hq. rewrite elem_of_app, list_elem_of_singleton in Hr. destruct Hr as [Hr| ->]; [by eapply IH|].
    apply Hno. unfold finite. by rewrite Hq.
Qed.

(** a budget is enforceable when every deployment of every model is priced. The pricing check passes exactly
    when there are models and each has at least one deployment, all of them with positive prices. *)
Theorem positive_pricing_iff response requiredModels :
  liteLLMModelsHavePositivePricing response requiredModels = Ok true ↔
  requiredModels ≠ [] ∧ ∃ rows, prop response "data" = Some (JArr rows) ∧
  ∀ m, m ∈ requiredModels → deployments rows m ≠ [] ∧ ∀ d, d ∈ deployments rows m → priced d = true.
Proof.
  unfold liteLLMModelsHavePositivePricing. destruct requiredModels as [|m0 l]; [naive_solver|].
  set (ms := m0 :: l). assert (ms ≠ []) as Hms by done. change (length ms =? 0)%nat with false. cbn iota. clearbody ms.
  assert (member response "data" = Throw (Error "Cannot read properties of null") ∧ prop response "data" = None
    ∨ member response "data" = Ok (prop response "data")) as Hm by (destruct response; auto).
  destruct Hm as [[-> Hp]| ->]; [split; [done|intros (_ & rows & Hr & _); congruence]|]. cbn [mbind res_bind].
  destruct (prop response "data") as [[| | | |rows|]|]; try (split; [done|naive_solver]).
  transitivity (∀ m, m ∈ ms → deployments rows m ≠ [] ∧ ∀ d, d ∈ deployments rows m → priced d = true); [|naive_solver].
  split.
  - intros [= Hall] m Hin. rewrite forallb_forall in Hall.
    specialize (Hall m). rewrite <-list_elem_of_In, elem_of_uniq in Hall. apply Hall, andb_true_iff in Hin as [Hne Hpr].
    split; [by destruct (deployments rows m)|]. intros d Hd. rewrite forallb_forall in Hpr. by apply Hpr, list_elem_of_In.
  - intros Hall. f_equal. apply forallb_forall. intros m Hin%list_elem_of_In. rewrite elem_of_uniq in Hin.
    destruct (Hall m Hin) as [Hne Hpr]. apply andb_true_iff. split; [by destruct (deployments rows m)|].
    apply forallb_forall. intros d Hd%list_elem_of_In. by apply Hpr.
Qed.

(** * Witnesses *)
Module Demo.
Import Adapter AdapterFacts.

(** An engine that issues and deletes keys; [alive] is the last word on an alias. *)
Definition key_alias (q : Request) : option string :=
  match rq_body q with Some (JObj m) => match assoc "key_alias" m with Some (JStr a) => Some a | _ => None end | _ => None end.
Definition deleted (q : Request) (a : string) : bool :=
  match rq_body q with
  | Some (JObj m) => match assoc "key_aliases" m with
      | Some (JArr l) => existsb (λ v, match v with JStr b => String.eqb a b | _ => false end) l | _ => false end
  | _ => false
  end.
Definition alive (l : list Request) (a : string) : bool :=
  foldl (λ b q, if bool_decide (key_alias q = Some a) then true else if deleted q a then false else b) false l.
Definition parse (s : string) : option json :=
  if String.eqb s "key" then Some (JObj [("key", JStr "sk-1"); ("expires", JNull); ("rpm_limit", JStr "60")])
  else if String.eqb s "prices" then Some (JObj [("data", JArr [])]) else if String.eqb s "{}" then Some (JObj []) else None.
Definition answer (q : Request) : res Response :=
  Ok {| status_ := 200; location := None; content_length := None; text := Ok (if isSome (key_alias q) then "key" else "{}") |}.
Definition any_url (_ : string) : option url :=
  Some {| protocol := "http:"; hostname := "10.0.0.5"; username := ""; password := ""; pathname := "/"; search := ""; hash := "";
          origin := "http://10.0.0.5"; href := "http://10.0.0.5/" |}.
Definition rows (_ : nat) (l : list Request) (a : string) : res (list KeyRow) :=
  Ok (if alive l a then [{| kr_token := JNull; kr_models := JArr [] |}] else []).
Definition idle {A} (r : A) : nat → list Request → A := λ _ _, r.

Lemma engine_laws : EngineLaws parse (λ _ _ q, answer q) rows (λ _, None) alive.
Proof.
  split.
  - by intros l hop q r [= <-].
  - intros l q a Hn. unfold alive. rewrite foldl_app. cbn [foldl]. unfold names in Hn.
    rewrite bool_decide_false.
    2: { unfold key_alias. intros Hk. apply Hn. repeat case_match; simplify_eq. eauto. }
    assert (deleted q a = false) as ->; [|done]. unfold deleted. apply not_true_iff_false. intros Hd. apply Hn.
    repeat case_match; try done. eexists. split; [done|]. right. eexists. split; [done|].
    apply existsb_exists in Hd as (v & Hv%list_elem_of_In & Hb). destruct v; try done. by apply String.eqb_eq in Hb as ->.
  - intros l m r j a k _ Ha _ _ _. unfold alive. rewrite foldl_app. cbn [foldl].
    rewrite bool_decide_true; [done|]. unfold key_alias. cbn [rq_body post_request]. by rewrite Ha.
  - intros l a r j _ _. unfold alive. rewrite foldl_app. cbn [foldl]. rewrite bool_decide_false by done.
    assert (deleted (delete_request (λ _, None) a) a = true) as ->; [|done].
    unfold deleted. cbn. by rewrite String.eqb_refl.
  - intros n l a. unfold rows. by destruct (alive l a).
Qed.

Definition options : IssueOptions :=
  {| o_model := "m"; o_models := None; o_alias := "d1"; o_expiresAt := None; o_metadata := None;
     o_limits := Some {| gw_budgetLimits := []; gw_rpmLimit := Some 60; gw_tpmLimit := None |} |}.
End Demo.

Lemma issued_key_accountable_witness : ∃ k g',
  Adapter.issueKey (λ _, false) Demo.any_url (λ _ _, None) (λ _ _, Ok ["10.0.0.5"]) Demo.parse (λ _, None)
    (λ _ _ q, Demo.answer q) Demo.rows (λ _, 5) (λ _, None) Demo.options {| Adapter.requests := []; Adapter.queries := 0 |}
    = (Ok k, g') ∧ issued_key k = "sk-1" ∧
  (∀ b, b ≠ "d1" → Demo.alive (Adapter.requests g') b = Demo.alive [] b).
Proof.
  eexists _, _. split; [vm_compute; reflexivity|]. split; [reflexivity|].
  refine (proj1 (AdapterFacts.issued_key_accountable (λ _, false) Demo.any_url (λ _ _, None) (λ _ _, Ok ["10.0.0.5"]) Demo.parse
    (λ _, None) (λ _ _ q, Demo.answer q) Demo.rows (λ _, 5) (λ _, None) Demo.alive Demo.engine_laws Demo.options
    {| Adapter.requests := []; Adapter.queries := 0 |} (Ok _) _ _)).
  vm_compute. reflexivity.
Defined.
