(* ===== verification/Enroll.v ===== *)
(** Device enrollment ([src/enroll/enroll.service.ts], [src/enroll/enroll.controller.ts]): exchanging a
    one-time code for a gateway key and an optional Desk credential, with the compensation of every
    boundary it crossed; minting further Desk Agent credentials; and the heartbeat. The state is the
    control database with the requests sent to the Desk, the gateway, and the local variables that the
    [catch] block reads. *)
From S2P Require Import Prelude Js Table AuditStore Crypto Access KeyPolicy ModelPolicy Ssrf Secrets ControlDb Bindings Gateway Desk Services.
Local Open Scope nat_scope.

(** * Data *)

Record DeviceInfo := { di_name : string; di_os : string; di_version : string; di_clientKind : string }.
Record AgentRequest := { ar_clientKind : string; ar_instanceId : option string; ar_name : option string }.
Record EnrollResult := {
  device_token : string; device_id : string; tenant_id : string; tenant_name : string; model : string;
  available_models : list string; model_capabilities : list ManagedModelCapability;
  thinking_efforts : list string; default_reasoning_effort : option string; base_url : option string;
  expires_at : option string; access_policy : StoredAccessKeyPolicy;
  service_bindings : list EnrollmentServiceBinding; desk : option ProvisionedDeskBinding }.
Record HeartbeatResult := {
  h_model : string; h_available_models : list string; h_model_capabilities : list ManagedModelCapability;
  h_thinking_efforts : list string; h_default_reasoning_effort : option string; h_expires_at : option string }.
Record AgentResult := { a_desk : ProvisionedDeskBinding; a_client_kind : string; a_instance_id : string }.

(** The [let] variables of [enroll] that outlive the [try] block ([deskCleanupPrepared] is
    [Desk.prepared_seen]). *)
Record Locals := {
  dev : option string; issued : option IssuedKey; enrollmentAuditRecorded : bool;
  deskReceipt : option DeskProvisioningReceipt }.
Definition no_locals : Locals :=
  {| dev := None; issued := None; enrollmentAuditRecorded := false; deskReceipt := None |}.

Definition EnrollState (G : Type) : Type := Backend G Locals.

(** * Rows *)

Definition find_code (i : string) (db : ControlDB) : option EnrollCode := find_by ec_id i (codes db).
Definition set_used (t : option Z) (c : EnrollCode) : EnrollCode :=
  {| ec_id := ec_id c; ec_org := ec_org c; ec_code := ec_code c; ec_model := ec_model c;
     ec_reasoningEffort := ec_reasoningEffort c; ec_baseUrl := ec_baseUrl c; ec_expiresAt := ec_expiresAt c;
     ec_usedAt := t; ec_policy := ec_policy c; ec_person := ec_person c |}.

(** [enrollCode.updateMany({ where, data: { usedAt } })], with the number of rows it changed. *)
Definition update_codes (hit : EnrollCode → bool) (t : option Z) : M ControlDB nat := λ db,
  (Ok (length (filter (λ c, hit c = true) (codes db))),
   on_codes (map (λ c, if hit c then set_used t c else c)) db).
Definition claimable (i : string) (now : Z) (c : EnrollCode) : bool :=
  String.eqb (ec_id c) i && negb (isSome (ec_usedAt c)) && (now <=? ec_expiresAt c)%Z.
Definition claimed_at (i : string) (now : Z) (c : EnrollCode) : bool :=
  String.eqb (ec_id c) i && bool_decide (ec_usedAt c = Some now).
Definition claim (i : string) (now : Z) : M ControlDB nat := update_codes (claimable i now) (Some now).
Definition restore (i : string) (now : Z) : M ControlDB nat := update_codes (claimed_at i now) None.

(** [device.create], with the unique columns and the person's foreign key. *)
Definition create_device (v : Device) : M ControlDB unit := λ db,
  if existsb (λ x, String.eqb (v_id x) (v_id v)
                   || (isSome (v_enrollCode v) && bool_decide (v_enrollCode x = v_enrollCode v))) (devices db)
  then (Throw (PrismaError "P2002"), db)
  else if match v_person v with
          | Some p => negb (existsb (λ x, String.eqb (pe_id x) p && String.eqb (pe_org x) (v_org v)) (persons db))
          | None => false
          end
  then (Throw (PrismaError "P2003"), db)
  else (Ok tt, on_devices (λ l, l ++ [v]) db).
(** [device.update({ where: { id } })] and [device.delete], which takes the tokens along. *)
Definition update_device (i : string) (f : Device → Device) : M ControlDB unit := λ db,
  match find_device db i with
  | None => (Throw (PrismaError "P2025"), db)
  | Some _ => (Ok tt, on_devices (update_by v_id i f) db)
  end.
Definition delete_device (i : string) : M ControlDB unit := λ db,
  match find_device db i with
  | None => (Throw (PrismaError "P2025"), db)
  | Some _ => (Ok tt, on_tokens (delete_by k_device i) (on_devices (delete_by v_id i) db))
  end.
Definition create_token (k : DeviceToken) : M ControlDB unit := λ db,
  if existsb (λ x, String.eqb (k_hash x) (k_hash k)) (tokens db) then (Throw (PrismaError "P2002"), db)
  else match find_device db (k_device k) with
       | None => (Throw (PrismaError "P2003"), db)
       | Some _ => (Ok tt, on_tokens (λ l, l ++ [k]) db)
       end.
Definition set_seen (now : Z) (version os : option string) (v : Device) : Device :=
  {| v_id := v_id v; v_org := v_org v; v_name := v_name v;
     v_os := if absent os then v_os v else nullish os "";
     v_haraVersion := if absent version then v_haraVersion v else nullish version "";
     v_lastSeenAt := now; v_enrollCode := v_enrollCode v; v_person := v_person v;
     revocationRequestedAt := revocationRequestedAt v; revocationCompletedAt := revocationCompletedAt v;
     deskProvisionedAt := deskProvisionedAt v; deskCleanupPendingAt := deskCleanupPendingAt v;
     deskOwner := deskOwner v; ControlDb.deskOrigin := ControlDb.deskOrigin v |}.

(** [deviceToken.findUnique({ where: { tokenHash }, include: { device } })]; a token has a device. *)
Definition find_token (h : string) (db : ControlDB) : option (DeviceToken * Device) :=
  k ← find_by k_hash h (tokens db);
  v ← find_device db (k_device k);
  Some (k, v).
Definition validatable (k : DeviceToken) : Token.ValidatableToken :=
  {| Token.revokedAt := k_revokedAt k; Token.expiresAt := k_expiresAt k |}.

(** * Payloads *)

(** [name.replace(control, " ").replace(/\s+/g, " ").trim().slice(0, 80)] *)
Fixpoint squeeze (in_space : bool) (l : list ascii) : list ascii :=
  match l with
  | [] => []
  | c :: l' => if is_ws c then if in_space then squeeze true l' else " "%char :: squeeze true l'
               else c :: squeeze false l'
  end.
Definition display_name (s : string) : string :=
  let spaced := map (λ c, if is_control c then " "%char else c) (chars s) in
  slice0 80 (trim (str (squeeze false spaced))).

(** [auth?.startsWith("Bearer ") ? auth.slice(7) : undefined] *)
Definition bearer (auth : option string) : option string :=
  match auth with
  | Some h => if startsWith "Bearer " h then Some (str (drop 7 (chars h))) else None
  | None => None
  end.

(** * The service *)

Section enroll.
Context (isIPv6 : string → bool) (URL : string → option url) (resolve : string → string → option string)
  (lookup_at : nat → string → res (list string)) (JSON_parse : string → option json)
  (sha256 : string → string) (kms : KmsAdapter).
Context (respond : list (string * json) → nat → string → json → res Response).
(** Other requests run before the n-th database call, which may fail. *)
Context (others : nat → ControlDB → ControlDB) (fails : nat → bool).
Context (targets : list (string * Target)) (has_desk has_bindings : bool).
Context (e : env) (license : option License.LicenseClaims).
Context {G : Type} `{GatewayAdapter G}.

Definition set_locals (f : Locals → Locals) : M (EnrollState G) unit :=
  modify (λ s, {| world := world s; gateway := gateway s; clock := clock s; locals := f (locals s) |}).
Definition set_dev (d : string) : M (EnrollState G) unit := set_locals (λ l,
  {| dev := Some d; issued := issued l; enrollmentAuditRecorded := enrollmentAuditRecorded l;
     deskReceipt := deskReceipt l |}).
Definition set_issued (k : IssuedKey) : M (EnrollState G) unit := set_locals (λ l,
  {| dev := dev l; issued := Some k; enrollmentAuditRecorded := enrollmentAuditRecorded l;
     deskReceipt := deskReceipt l |}).
Definition set_recorded : M (EnrollState G) unit := set_locals (λ l,
  {| dev := dev l; issued := issued l; enrollmentAuditRecorded := true; deskReceipt := deskReceipt l |}).
Definition set_receipt (r : option DeskProvisioningReceipt) : M (EnrollState G) unit := set_locals (λ l,
  {| dev := dev l; issued := issued l; enrollmentAuditRecorded := enrollmentAuditRecorded l; deskReceipt := r |}).

(** The declarations before the [try]. *)
Definition declare_locals : M (EnrollState G) unit := modify (λ s,
  {| world := {| control := control (world s); sent := sent (world s); prepared_seen := false |};
     gateway := gateway s; clock := clock s; locals := no_locals |}).

(** [entitlement.seatCheck]: the devices are only counted under a limit. *)
Definition seat_check (org : string) : M (EnrollState G) unit :=
  if (License.seatLimitOf e license =? 0)%Z then mret tt
  else
    seats ← query others fails (gets (λ db, Z.of_nat (length (filter (λ v, v_org v = org) (devices db)))));
    lift (License.seatCheck e license seats).

Definition new_device (i : string) (ec : EnrollCode) (d : DeviceInfo) (now : Z) : Device :=
  {| v_id := i; v_org := ec_org ec; v_name := di_name d; v_os := di_os d; v_haraVersion := di_version d;
     v_lastSeenAt := now; v_enrollCode := Some (ec_id ec); v_person := ec_person ec;
     revocationRequestedAt := None; revocationCompletedAt := None; deskProvisionedAt := None;
     deskCleanupPendingAt := None; deskOwner := None; ControlDb.deskOrigin := None |}.
Definition new_token (d : string) (k : IssuedKey) (m effort : string) (p : StoredAccessKeyPolicy) (now : Z) : DeviceToken :=
  {| k_device := d; k_hash := sha256 (issued_key k); k_gatewayKeyId := issued_keyId k; k_model := m;
     k_reasoningEffort := effort; k_expiresAt := issued_expiresAt k; k_revokedAt := None;
     k_budgetLimits := JArr (limit_json <$> budgetLimits p); k_rpmLimit := rpmLimit p; k_tpmLimit := tpmLimit p;
     k_createdAt := now |}.
Definition key_options (i : string) (org m : string) (models : list string) (p : StoredAccessKeyPolicy) (now : Z)
    : IssueOptions :=
  {| o_model := m; o_models := Some models; o_alias := i;
     o_expiresAt := if tokenNeverExpires p then None
       else Some (Token.deviceTokenExpiry now (nullish (inject_Z <$> tokenTtlMinutes p) (Token.deviceTokenTtlMinutes e)));
     o_metadata := Some [("orgId", JStr org)]; o_limits := Some (gatewayLimits p) |}.
Definition desk_input (i : string) (ec : EnrollCode) (owner : string) (d : DeviceInfo) : DeskProvisioningInput :=
  {| orgId := ec_org ec; owner := owner; deviceName := di_name d; installationId := i;
     platform := or_default (di_os d) "unknown"; version := or_default (di_version d) "unknown";
     clientKind := or_default (di_clientKind d) "nanhara.hara-desktop"; instanceId := None; agentName := None;
     expectedUrl := None |}.

(** The checks before the claim: the code, its organization and its person, the seat, and the policy. *)
Record Prepared := {
  p_code : EnrollCode; p_org : OrgTree.Organization; p_owner : string; p_model : string; p_models : list string;
  p_policy : StoredAccessKeyPolicy }.
Definition BadCode : exn := UnauthorizedException "bad or expired code".
Definition prepare (code : string) (now : Z) : M (EnrollState G) Prepared :=
  found ← query others fails (gets (λ db, find_by ec_code code (codes db)));
  ec ← require found BadCode;
  _ ← guard_throw (isSome (ec_usedAt ec) || (ec_expiresAt ec <? now)%Z) BadCode;
  organization ← query others fails (gets (λ db, find_by OrgTree.id (ec_org ec) (orgs db)));
  person ← (if absent (ec_person ec) then mret None
            else query others fails (gets (λ db, find_by pe_id (nullish (ec_person ec) "") (persons db))));
  org ← require organization BadCode;
  person ← require person BadCode;
  _ ← guard_throw (negb (String.eqb (pe_org person) (ec_org ec))) BadCode;
  _ ← seat_check (ec_org ec);
  resolvedModel ← lift (resolveEnrollmentModel (Some (ec_model ec)) e);
  models ← lift (enrollmentManagedModels resolvedModel e);
  policy ← lift (parseStoredAccessKeyPolicy (ec_policy ec) (Num (Token.deviceTokenTtlMinutes e)));
  mret {| p_code := ec; p_org := org; p_owner := pe_email person; p_model := resolvedModel; p_models := models;
          p_policy := policy |}.

(** The [try] block, for the identifier [i] the new device row is given. *)
Definition issue_and_record (p : Prepared) (i : string) (d : DeviceInfo) (now : Z) : M (EnrollState G) IssuedKey :=
  let ec := p_code p in
  _ ← query others fails (create_device (new_device i ec d now));
  _ ← set_dev i;
  key ← gateway_call (issueKey (key_options i (ec_org ec) (p_model p) (p_models p) (p_policy p) now));
  _ ← set_issued key;
  _ ← query others fails (create_token (new_token i key (p_model p) (ec_reasoningEffort ec) (p_policy p) now));
  _ ← query others fails (audit_log (ec_org ec) "enroll" "device" i
        [("name", some_str (di_name d)); ("os", some_str (di_os d)); ("accessPolicy", Some (policy_json (p_policy p)))]);
  _ ← set_recorded;
  mret key.
Definition provision_desk (p : Prepared) (i : string) (d : DeviceInfo) (now : Z) : M (EnrollState G) (option ProvisionedDeskBinding) :=
  receipt ← (if has_desk
             then desk_call (provisionForEnrollment isIPv6 URL resolve lookup_at JSON_parse sha256 kms respond others
                    targets has_bindings (desk_input i (p_code p) (p_owner p) d) true (Some (i, now)))
             else mret None);
  _ ← set_receipt receipt;
  let provisionedDesk := binding <$> receipt in
  _ ← match provisionedDesk with
      | Some b => query others fails (update_device i (with_desk (Some now) None (Some (p_owner p)) (Some (pb_url b))))
      | None => mret tt
      end;
  mret provisionedDesk.
Definition enroll_result (p : Prepared) (i : string) (key : IssuedKey) (bindings : list EnrollmentServiceBinding)
    (provisioned : option ProvisionedDeskBinding) : EnrollResult :=
  {| device_token := issued_key key; device_id := i; tenant_id := OrgTree.id (p_org p);
     tenant_name := or_default (display_name (OrgTree.name (p_org p))) (OrgTree.id (p_org p)); model := p_model p;
     available_models := p_models p; model_capabilities := managedModelCapabilities (p_models p);
     thinking_efforts := managedModelsThinkingEfforts (p_models p);
     default_reasoning_effort := if truthy (ec_reasoningEffort (p_code p)) then Some (ec_reasoningEffort (p_code p)) else None;
     base_url := ec_baseUrl (p_code p); expires_at := toISOString <$> issued_expiresAt key;
     access_policy := p_policy p; service_bindings := bindings; desk := provisioned |}.
Definition enroll_device (p : Prepared) (i : string) (d : DeviceInfo) (now : Z) : M (EnrollState G) EnrollResult :=
  key ← issue_and_record p i d now;
  bindings ← (if has_bindings then query others fails (gets (λ db, activeForEnrollment db (ec_org (p_code p)))) else mret []);
  provisioned ← provision_desk p i d now;
  _ ← set_receipt None;
  mret (enroll_result p i key bindings provisioned).

(** The [catch] block. *)
Definition not_confirmed (error : exn) : option string :=
  match error with DeskProvisioningFailure false url => Some url | _ => None end.
Definition persist_pending (l : Locals) (prepared : bool) (owner : string) (error : exn) (now : Z) : M (EnrollState G) bool :=
  match dev l, not_confirmed error with
  | Some d, Some url =>
      if prepared then mret false
      else attempt (query others fails (update_device d (with_desk None (Some now) (Some owner) (Some url))))
  | _, _ => mret false
  end.
Definition audit_rollback (org d : string) (gatewayRevoked deskRevoked pending deviceRemoved codeRestored : bool) : M (EnrollState G) bool :=
  attempt (query others fails (audit_log org "enroll.rollback" "system" d
    [("gatewayRevoked", Some (JBool gatewayRevoked)); ("deskRevoked", Some (JBool deskRevoked));
     ("deskCleanupPending", Some (JBool pending)); ("deviceRemoved", Some (JBool deviceRemoved));
     ("codeRestored", Some (JBool codeRestored))])).
Definition rollback (p : Prepared) (now : Z) (error : exn) : M (EnrollState G) EnrollResult :=
  l ← gets locals;
  prepared ← gets (λ s, prepared_seen (world s));
  let settled := negb (isSome (deskReceipt l)) && negb (isSome (not_confirmed error)) in
  persisted ← persist_pending l prepared (p_owner p) error now;
  let pending := (prepared && negb settled) || persisted in
  deskRevoked ← match deskReceipt l with
                | Some r => attempt (desk_call (compensate isIPv6 URL resolve lookup_at JSON_parse respond r))
                | None => mret settled
                end;
  gatewayRevoked ← match issued l with
                   | Some k => attempt (gateway_call (revokeKey (issued_keyId k)))
                   | None => mret true
                   end;
  deviceRemoved ← match dev l with
                  | Some d => if gatewayRevoked && deskRevoked then attempt (query others fails (delete_device d)) else mret false
                  | None => mret true
                  end;
  codeRestored ← (if gatewayRevoked && deskRevoked && deviceRemoved
                  then try_catch (n ← query others fails (restore (ec_id (p_code p)) now); mret (n =? 1)) (λ _, mret false)
                  else mret false);
  _ ← (if enrollmentAuditRecorded l
       then audit_rollback (ec_org (p_code p)) (nullish (dev l) "") gatewayRevoked deskRevoked pending deviceRemoved codeRestored
       else mret true);
  raise error.

Definition enroll (code : string) (i : string) (d : DeviceInfo) (now : Z) : M (EnrollState G) EnrollResult :=
  p ← prepare code now;
  n ← query others fails (claim (ec_id (p_code p)) now);
  _ ← guard_throw (negb (n =? 1)) BadCode;
  _ ← declare_locals;
  try_catch (enroll_device p i d now) (rollback p now).

(** [provisionDeskAgent], at the times of its two token checks. *)
Definition usable_token (auth : string) (now : Z) : M (EnrollState G) (DeviceToken * Device) :=
  found ← query others fails (gets (find_token (sha256 auth)));
  _ ← lift (Token.assertTokenUsable (validatable ∘ fst <$> found) now e None);
  require found (UnauthorizedException "revoked or unknown token").
Definition instance_ok (s : string) : bool :=
  match chars s with
  | c :: l => (is_digit c || is_lower c) && forallb (λ x, is_digit x || is_lower x || is_char "._-" x) l
  | [] => false
  end.
Definition no_desk : exn := ServiceUnavailableException "Hara Desk is not provisioned for this organization device".
Definition agent_input (v : Device) (instance : string) (input : AgentRequest) : DeskProvisioningInput :=
  {| orgId := v_org v; owner := nullish (deskOwner v) ""; deviceName := v_name v; installationId := v_id v;
     platform := or_default (v_os v) "unknown"; version := or_default (v_haraVersion v) "unknown";
     clientKind := ar_clientKind input; instanceId := Some instance;
     agentName := Some (or_default (trim (nullish (ar_name input) "")) (ar_clientKind input +:+ " · " +:+ v_name v));
     expectedUrl := ControlDb.deskOrigin v |}.
Definition provisionDeskAgent (auth : option string) (input : AgentRequest) (now later : Z) : M (EnrollState G) AgentResult :=
  _ ← guard_throw (absent auth) (UnauthorizedException "missing token");
  found ← usable_token (nullish auth "") now;
  let device := found.2 in
  _ ← guard_throw (negb (isSome (deskProvisionedAt device)) || absent (deskOwner device)
                   || absent (ControlDb.deskOrigin device) || negb has_desk) no_desk;
  let instance := or_default (trim (nullish (ar_instanceId input) "")) "default" in
  _ ← guard_throw (negb (String.eqb instance (toLowerCase instance)) || (80 <? String.length instance)
                   || negb (instance_ok instance))
        (BadRequestException "Desk Agent instance must use 1-80 lowercase letters, numbers, dots, underscores, or dashes");
  provisioned ← desk_call (provision isIPv6 URL resolve lookup_at JSON_parse sha256 kms respond others targets
                  has_bindings (agent_input device instance input));
  b ← require provisioned
        (ServiceUnavailableException "Hara Desk provisioning is unavailable for this organization");
  current ← usable_token (nullish auth "") later;
  let currentDevice := current.2 in
  _ ← guard_throw (negb (String.eqb (v_id currentDevice) (v_id device))
                   || negb (isSome (deskProvisionedAt currentDevice))
                   || negb (bool_decide (deskOwner currentDevice = deskOwner device))
                   || negb (bool_decide (ControlDb.deskOrigin currentDevice = ControlDb.deskOrigin device)))
        (ServiceUnavailableException "Hara Desk installation changed while the Agent credential was being provisioned");
  mret {| a_desk := b; a_client_kind := ar_clientKind input; a_instance_id := instance |}.

Definition heartbeat (auth : option string) (version os : option string) (now : Z) : M (EnrollState G) HeartbeatResult :=
  _ ← guard_throw (absent auth) (UnauthorizedException "missing token");
  found ← query others fails (gets (λ db, find_by k_hash (sha256 (nullish auth "")) (tokens db)));
  _ ← lift (Token.assertTokenUsable (validatable <$> found) now e None);
  dt ← require found (UnauthorizedException "revoked or unknown token");
  resolvedModel ← lift (resolveEnrollmentModel (Some (k_model dt)) e);
  models ← lift (enrollmentManagedModels resolvedModel e);
  _ ← gateway_call (syncKeyModels (k_gatewayKeyId dt) (managedKeyAuthorizationModels (k_model dt) models));
  _ ← query others fails (update_device (k_device dt) (set_seen now version os));
  mret {| h_model := resolvedModel; h_available_models := models;
          h_model_capabilities := managedModelCapabilities models;
          h_thinking_efforts := managedModelsThinkingEfforts models;
          h_default_reasoning_effort := if truthy (k_reasoningEffort dt) then Some (k_reasoningEffort dt) else None;
          h_expires_at := toISOString <$> k_expiresAt dt |}.
End enroll.

(** * The footprint of an enrollment *)

(** The device without its Desk columns. *)
Definition core_of (v : Device) : Device := with_desk None None None None v.

(** The rows an enrollment of code [ci] as device [i] owns: the device (but for its Desk columns), its
    tokens, and the claim of the code. *)
Record footprint (i ci : string) (v : option Device) (ts : list DeviceToken) (used : option Z) (db : ControlDB) : Prop := {
  f_device : core_of <$> find_device db i = v;
  f_tokens : tokens_of i db = ts;
  f_codes : NoDup (map ec_id (codes db));
  f_code : ∃ c, find_code ci db = Some c ∧ ec_usedAt c = used }.

(** Other requests leave alone a device that is not theirs and a code that is claimed. *)
Record separate (i ci : string) (now : Z) (others : nat → ControlDB → ControlDB) : Prop := {
  s_device n db : find_device (others n db) i = find_device db i;
  s_tokens n db : tokens_of i (others n db) = tokens_of i db;
  s_codes n db : NoDup (map ec_id (codes db)) → NoDup (map ec_id (codes (others n db)));
  s_code n db c : find_code ci db = Some c → ec_usedAt c = Some now → find_code ci (others n db) = Some c }.

Lemma footprint_others i ci now others v ts n db :
  separate i ci now others → footprint i ci v ts (Some now) db → footprint i ci v ts (Some now) (others n db).
Proof.
  intros [] [Hd Ht Hn (c & Hc & Hu)]. split; [by rewrite s_device0|by rewrite s_tokens0|auto|].
  exists c. eauto.
Qed.

Lemma map_update_codes (hit : EnrollCode → bool) t db : (∀ c, ec_id (if hit c then set_used t c else c) = ec_id c) →
  map ec_id (map (λ c, if hit c then set_used t c else c) (codes db)) = map ec_id (codes db).
Proof. intros Hk. rewrite map_map. by apply map_ext. Qed.
Lemma set_used_id (hit : EnrollCode → bool) t c : ec_id (if hit c then set_used t c else c) = ec_id c.
Proof. by destruct (hit c). Qed.
Lemma find_code_map ci (hit : EnrollCode → bool) t db :
  find_code ci (on_codes (map (λ c, if hit c then set_used t c else c)) db) =
  (λ c, if hit c then set_used t c else c) <$> find_code ci db.
Proof.
  unfold find_code. cbn [codes on_codes]. rewrite find_by_map; [done|]. intros c. apply set_used_id.
Qed.

Lemma core_desk_only f v i : desk_only i f → core_of (f v) = core_of v.
Proof. intros Hf. destruct (Hf v) as [->|(_ & ? & ? & ? & ? & ->)]; done. Qed.
Lemma id_desk_only f v i : desk_only i f → v_id (f v) = v_id v.
Proof. intros Hf. destruct (Hf v) as [->|(_ & ? & ? & ? & ? & ->)]; done. Qed.
Lemma find_device_map i j f db : desk_only j f → find_device (on_devices (map f) db) i = f <$> find_device db i.
Proof.
  intros Hf. unfold find_device. cbn [devices on_devices]. apply find_by_map. intros x. by apply (id_desk_only f x j).
Qed.
Lemma footprint_desk i ci v ts u f db :
  desk_only i f → footprint i ci v ts u db → footprint i ci v ts u (on_devices (map f) db).
Proof.
  intros Hf [Hd Ht Hn Hc]. split; [|done..]. rewrite (find_device_map i i) by done. rewrite <-Hd.
  destruct (find_device db i) as [x|]; [|done]. simpl. by rewrite (core_desk_only f x i).
Qed.

Lemma footprint_record i ci v ts u ev db : footprint i ci v ts u db → footprint i ci v ts u (record_event ev db).
Proof. by intros []. Qed.

(** * The database calls *)

Lemma create_device_spec v db r db' i ci u :
  v_id v = i → create_device v db = (r, db') → footprint i ci None [] u db →
  match r with
  | Ok _ => footprint i ci (Some (core_of v)) [] u db' ∧ find_device db' i = Some v
  | Throw _ => db' = db
  end.
Proof.
  intros Hi H [Hd Ht Hn Hc]. unfold create_device in H.
  destruct (existsb _ (devices db)); [by injection H as <- <-|].
  destruct (match v_person v with Some _ => _ | None => _ end); [by injection H as <- <-|]. injection H as <- <-.
  assert (find_device (on_devices (λ l, l ++ [v]) db) i = Some v) as Hv.
  { unfold find_device in *. cbn [devices on_devices]. rewrite find_by_app. destruct (find_by v_id i (devices db)); [done|].
    rewrite find_by_cons. by rewrite decide_True. }
  split; [|done]. split; [by rewrite Hv|done..].
Qed.

Lemma create_token_spec k db r db' i ci v u :
  k_device k = i → create_token k db = (r, db') → footprint i ci v [] u db →
  match r with Ok _ => footprint i ci v [k] u db' | Throw _ => db' = db end.
Proof.
  intros Hi H [Hd Ht Hn Hc]. unfold create_token in H. destruct (existsb _ _); [by injection H as <- <-|].
  destruct (find_device db (k_device k)); [|by injection H as <- <-]. injection H as <- <-.
  split; [done| |done|done]. unfold tokens_of in *. cbn [tokens on_tokens]. rewrite filter_app, Ht, filter_cons_True by done. done.
Qed.

Lemma delete_device_spec db r db' i ci v ts u :
  delete_device i db = (r, db') → footprint i ci v ts u db →
  match r with Ok _ => footprint i ci None [] u db' | Throw _ => db' = db end.
Proof.
  intros H [Hd Ht Hn Hc]. unfold delete_device in H. destruct (find_device db i); [|by injection H as <- <-].
  injection H as <- <-. split; [| |done|done].
  - apply fmap_None, find_by_None. cbn [devices on_devices on_tokens]. unfold delete_by. intros x.
    rewrite list_elem_of_filter. naive_solver.
  - unfold tokens_of. cbn [tokens on_tokens]. unfold delete_by.
    apply elem_of_nil_inv. intros x. rewrite !list_elem_of_filter. naive_solver.
Qed.

Lemma update_desk_spec db r db' i ci v ts u p c o g :
  update_device i (with_desk p c o g) db = (r, db') → footprint i ci v ts u db →
  match r with
  | Ok _ => footprint i ci v ts u db' ∧ find_device db' i = with_desk p c o g <$> find_device db i
  | Throw _ => db' = db
  end.
Proof.
  intros H Hf. unfold update_device in H. destruct (find_device db i) as [x|] eqn:Hx; [|by injection H as <- <-].
  injection H as <- <-. unfold update_by.
  assert (desk_only i (λ y, if decide (v_id y = i) then with_desk p c o g y else y)) as Hdesk
    by (intros y; case_decide; [right; eauto 10|by left]).
  split; [by apply footprint_desk|]. rewrite (find_device_map i i) by done. rewrite Hx. simpl.
  apply find_by_Some in Hx as [Hx _]. by rewrite decide_True.
Qed.

Lemma claim_spec now db n db' i ci v ts :
  claim ci now db = (Ok n, db') → n = 1 → core_of <$> find_device db i = v → tokens_of i db = ts →
  NoDup (map ec_id (codes db)) →
  footprint i ci v ts (Some now) db' ∧ ∃ c, find_code ci db = Some c ∧ ec_usedAt c = None ∧ (now <= ec_expiresAt c)%Z.
Proof.
  unfold claim, update_codes. intros [= Hn <-] -> Hd Ht Hnd.
  assert (∃ c, c ∈ codes db ∧ claimable ci now c = true) as (c & Hin & Hc).
  { destruct (filter _ (codes db)) as [|c l] eqn:Hf; [done|]. exists c.
    assert (c ∈ filter (λ c, claimable ci now c = true) (codes db)) as Hin by (rewrite Hf; left).
    apply list_elem_of_filter in Hin. naive_solver. }
  pose proof Hc as Hc'. unfold claimable in Hc'. rewrite !andb_true_iff, String.eqb_eq, Z.leb_le in Hc'.
  destruct Hc' as [[Hid Hu] Hexp]. assert (ec_usedAt c = None) as Hnone by (by destruct (ec_usedAt c)).
  assert (find_code ci db = Some c) as Hfind by (by apply find_by_unique).
  split; [|by exists c]. split; [done|done| |].
  - cbn [codes on_codes]. by rewrite map_update_codes by (intros; apply set_used_id).
  - eexists. rewrite find_code_map, Hfind. cbn [fmap option_fmap option_map]. rewrite Hc. split; reflexivity.
Qed.

Lemma restore_spec now db n db' i ci v ts :
  restore ci now db = (Ok n, db') → footprint i ci v ts (Some now) db → footprint i ci v ts None db'.
Proof.
  unfold restore, update_codes. intros [= _ <-] [Hd Ht Hn (c & Hc & Hu)]. split; [done|done| |].
  - cbn [codes on_codes]. by rewrite map_update_codes by (intros; apply set_used_id).
  - eexists. rewrite find_code_map, Hc. cbn [fmap option_fmap option_map]. unfold claimed_at.
    pose proof Hc as [Hid _]%find_by_Some. rewrite Hid, Hu, String.eqb_refl, bool_decide_true by done.
    split; reflexivity.
Qed.

(** * The saga *)

Section saga.
Context (isIPv6 : string → bool) (URL : string → option url) (resolve : string → string → option string)
  (lookup_at : nat → string → res (list string)) (JSON_parse : string → option json)
  (sha256 : string → string) (kms : KmsAdapter).
Context (respond : list (string * json) → nat → string → json → res Response).
Context (others : nat → ControlDB → ControlDB) (fails : nat → bool).
Context (targets : list (string * Target)) (has_desk : bool).
Context (e : env) (license : option License.LicenseClaims).
Context {G : Type} `{GatewayLaws G}.
Context (i ci : string) (now : Z) (Hsep : separate i ci now others).

(** No key of the device works: none was issued, it was revoked, or issuing it failed inside the gateway. *)
Definition no_key (s0 s : EnrollState G) : Prop :=
  live (gateway s) i = false ∨ ∃ o er, o_alias o = i ∧ issueKey o (gateway s0) = (Throw er, gateway s).
(** The Desk holds nothing: it was not contacted, or its last answer confirmed the revocation. *)
Definition desk_clear (before after : list (string * json)) : Prop :=
  after = before ∨ ∃ t org own l response, after = l ++ [(revoke_url t, revocation t org own i)] ∧
    respond l 0 (revoke_url t) (revocation t org own i) = Ok response ∧
    check_revocation JSON_parse response true = Ok tt.
(** The device row records the Desk that all the requests went to. *)
Definition desk_recorded (t : Target) (before after : list (string * json)) (db : ControlDB) : Prop :=
  (∃ v, find_device db i = Some v ∧ desk_bound v = true ∧ ControlDb.deskOrigin v = Some (url_ t)) ∧
  ∃ l, after = before ++ l ∧ Forall (to_desk t) l.

(** A failed enrollment while it is unwound: what [gatewayRevoked], [deskRevoked] and [deviceRemoved] stand for. *)
Record unwound (gr dr rm : bool) (s0 s : EnrollState G) : Prop := {
  u_code : gr && dr && rm = true ∨ ∃ c, find_code ci (control (world s)) = Some c ∧ ec_usedAt c = Some now;
  u_rows : rm = true → find_device (control (world s)) i = None ∧ tokens_of i (control (world s)) = [];
  u_device : no_key s0 s ∨ find_device (control (world s)) i ≠ None;
  u_key : gr = true → no_key s0 s;
  u_clear : dr = true → desk_clear (sent (world s0)) (sent (world s));
  u_desk : desk_clear (sent (world s0)) (sent (world s)) ∨
    ∃ t, desk_recorded t (sent (world s0)) (sent (world s)) (control (world s)) }.

(** The state the [catch] block starts in. *)
Record caught (s0 s : EnrollState G) (error : exn) : Prop := {
  c_rows : ∃ v ts, footprint i ci v ts (Some now) (control (world s)) ∧
    match dev (locals s) with Some d => d = i ∧ v ≠ None | None => v = None ∧ ts = [] end;
  c_key : match issued (locals s) with Some k => issued_keyId k = i ∧ dev (locals s) = Some i | None => no_key s0 s end;
  c_desk : match deskReceipt (locals s) with
    | Some rc => not_confirmed error = None ∧ active rc = true ∧ rc_installation rc = i ∧
        desk_recorded (rc_target rc) (sent (world s0)) (sent (world s)) (control (world s))
    | None => match not_confirmed error with
        | Some _ => desk_clear (sent (world s0)) (sent (world s)) ∨ prepared_seen (world s) = true ∧
            ∃ t, desk_recorded t (sent (world s0)) (sent (world s)) (control (world s))
        | None => desk_clear (sent (world s0)) (sent (world s))
        end
    end }.

Lemma no_key_only_db s0 s s' : only_db s s' → no_key s0 s → no_key s0 s'.
Proof. intros (Hg & _). unfold no_key. by rewrite Hg. Qed.
Lemma desk_recorded_others t before after db n :
  desk_recorded t before after db → desk_recorded t before after (others n db).
Proof. intros [(v & Hv & Hb) Hl]. split; [|done]. exists v. by rewrite (s_device _ _ _ _ Hsep). Qed.

(** [deskRevoked]: a receipt is compensated at the Desk it came from. *)
Lemma desk_phase (s0 s : EnrollState G) rc b s' :
  active rc = true → rc_installation rc = i →
  desk_recorded (rc_target rc) (sent (world s0)) (sent (world s)) (control (world s)) →
  attempt (desk_call (compensate isIPv6 URL resolve lookup_at JSON_parse respond rc)) s = (Ok b, s') →
  gateway s' = gateway s ∧ control (world s') = control (world s) ∧ prepared_seen (world s') = prepared_seen (world s) ∧
  (b = true → desk_clear (sent (world s0)) (sent (world s'))) ∧
  desk_recorded (rc_target rc) (sent (world s0)) (sent (world s')) (control (world s')).
Proof.
  intros Ha Hi [Hv (l & Hl & Hto)] Hrun. apply attempt_spec in Hrun as (b' & x & [= <-] & Hrun & ->).
  unfold desk_call, compensate in Hrun. rewrite Ha, Hi in Hrun. cbn [negb] in Hrun.
  destruct (revokeAtTarget _ _ _ _ _ _ _ _ _ _ _ _) as [r w] eqn:Hr. injection Hrun as <- <-.
  apply revokeAtTarget_spec in Hr as (Hc & Hp & (l2 & Hl2 & Hto2) & Hok). cbn [world gateway].
  split_and!; [done|done|done| |].
  - destruct r as [[]|]; [|done]. intros _. right.
    destruct (Hok eq_refl) as (response & Hs & Hresp & Hcheck).
    exists (rc_target rc), (rc_org rc), (rc_owner rc), (sent (world s)), response.
    split_and!; [done|done|by apply check_revocation_weaken].
  - rewrite Hc. split; [done|]. exists (l ++ l2). rewrite Hl2, Hl, app_assoc. split; [done|by apply Forall_app].
Qed.

(** Database calls that leave the rows alone: a failed one, or the audit. *)
Lemma unwound_db gr dr rm s0 s s' n :
  only_db s s' →
  find_device (control (world s')) i = find_device (others n (control (world s))) i →
  tokens_of i (control (world s')) = tokens_of i (others n (control (world s))) →
  (∀ c, find_code ci (others n (control (world s))) = Some c → ec_usedAt c = Some now →
        gr && dr && rm = true ∨ find_code ci (control (world s')) = Some c) →
  unwound gr dr rm s0 s → unwound gr dr rm s0 s'.
Proof.
  intros Hdb Hdev Htok Hcode [Hc Hr Hd Hgr Hdr Hdesk]. pose proof Hdb as (Hg & _ & Hs & _).
  rewrite (s_device _ _ _ _ Hsep) in Hdev. rewrite (s_tokens _ _ _ _ Hsep) in Htok.
  split; rewrite ?Hdev, ?Htok, ?Hs; [|done| | |done|].
  - destruct Hc as [?|(c & Hc & Hu)]; [by left|].
    destruct (Hcode c) as [?|?]; [by apply (s_code _ _ _ _ Hsep)|done|by left|right; eauto].
  - destruct Hd as [Hd|?]; [left; by eapply no_key_only_db|by right].
  - intros ?. eapply no_key_only_db; eauto.
  - destruct Hdesk as [?|(t & (v & Hv & Hb) & Hl)]; [by left|right]. exists t. split; [|done]. exists v. by rewrite Hdev.
Qed.
Lemma unwound_others gr dr rm s0 s s' n :
  only_db s s' → control (world s') = others n (control (world s)) →
  unwound gr dr rm s0 s → unwound gr dr rm s0 s'.
Proof. intros Hdb Hc. apply (unwound_db _ _ _ _ _ _ n Hdb); rewrite Hc; auto. Qed.

(** [deviceRemoved] *)
Lemma device_phase gr dr s0 s b s' :
  gr && dr = true → attempt (query others fails (delete_device i)) s = (Ok b, s') →
  unwound gr dr false s0 s → unwound gr dr b s0 s' ∧ locals s' = locals s.
Proof.
  intros [-> ->]%andb_true_iff Hrun HU. apply attempt_spec in Hrun as (b' & x & [= <-] & Hrun & ->).
  apply query_spec in Hrun as [Hdb Hrun]. split; [|apply Hdb].
  destruct Hrun as [(er & -> & Hc)|Hdel]; [by eapply unwound_others|].
  unfold delete_device in Hdel. set (n := clock s) in *.
  destruct (find_device (others n (control (world s))) i) as [v|] eqn:Hv.
  - injection Hdel as <- Hc. destruct HU as [_ _ _ Hgr Hdr _]. pose proof Hdb as (Hg & _ & Hs & _).
    split; [by left| | | | |].
    + intros _. rewrite <-Hc. split.
      * apply find_by_None. cbn [devices on_devices on_tokens]. unfold delete_by. intros x.
        rewrite list_elem_of_filter. naive_solver.
      * unfold tokens_of. cbn [tokens on_tokens]. unfold delete_by.
        apply elem_of_nil_inv. intros x. rewrite !list_elem_of_filter. naive_solver.
    + left. eapply no_key_only_db; eauto.
    + intros _. eapply no_key_only_db; eauto.
    + rewrite Hs. done.
    + rewrite Hs. left. auto.
  - injection Hdel as <- Hc. by eapply unwound_others.
Qed.

(** [codeRestored] *)
Lemma code_phase gr dr rm s0 s b s' :
  gr && dr && rm = true →
  try_catch (n ← query others fails (restore ci now); mret (n =? 1)) (λ _, mret false) s = (b, s') →
  unwound gr dr rm s0 s → unwound gr dr rm s0 s' ∧ locals s' = locals s ∧ is_ok b = true.
Proof.
  intros Hall Hrun HU. unfold try_catch, mbind, M_bind, mret, M_ret in Hrun.
  destruct (query _ _ _ s) as [x s1] eqn:Hq. apply query_spec in Hq as [Hdb Hq].
  assert (s' = s1 ∧ is_ok b = true) as [-> ?] by (destruct x; by injection Hrun as <- <-).
  split; [|by split; [apply Hdb|]]. destruct Hq as [(er & -> & Hc)|Hq]; [by eapply unwound_others|].
  unfold restore, update_codes in Hq. injection Hq as _ Hc.
  eapply (unwound_db _ _ _ _ _ _ (clock s)); [done|by rewrite <-Hc..|auto|done].
Qed.

(** The audit of the rollback *)
Lemma audit_phase gr dr rm s0 s org d b1 b2 b3 b4 b5 r s' :
  audit_rollback others fails org d b1 b2 b3 b4 b5 s = (r, s') →
  unwound gr dr rm s0 s → unwound gr dr rm s0 s' ∧ is_ok r = true.
Proof.
  intros Hrun HU. apply attempt_spec in Hrun as (b & x & -> & Hrun & ->). split; [|done].
  apply query_spec in Hrun as [Hdb [(er & -> & Hc)|Hq]]; [by eapply unwound_others|].
  unfold audit_log, modify in Hq. injection Hq as _ Hc.
  eapply (unwound_db _ _ _ _ _ _ (clock s)); [done|by rewrite <-Hc..| |done]. rewrite <-Hc. auto.
Qed.

(** Writing the pending cleanup of an unprepared failure keeps what is known. *)
Lemma persist_phase s0 s error owner :
  caught s0 s error → ∃ b s1,
  persist_pending others fails (locals s) (prepared_seen (world s)) owner error now s = (Ok b, s1) ∧
  locals s1 = locals s ∧ caught s0 s1 error.
Proof.
  intros HC. pose proof HC as [(v & ts & Hf & Hdev) Hkey Hdesk]. unfold persist_pending.
  destruct (dev (locals s)) as [d|] eqn:Hd; [|by exists false, s]. destruct Hdev as [-> Hv].
  destruct (not_confirmed error) as [url|] eqn:He; [|by exists false, s].
  destruct (prepared_seen (world s)) eqn:Hp; [by exists false, s|].
  set (upd := update_device i (with_desk None (Some now) (Some owner) (Some url))).
  destruct (always_ok (query others fails upd) s) as (b & s1 & Hb). exists b, s1. split; [done|].
  apply attempt_spec in Hb as (b' & x & _ & Hq & _). apply query_spec in Hq as [Hdb Hq].
  pose proof Hdb as (Hg & Hl & Hs & Hp1). split; [done|].
  assert (footprint i ci v ts (Some now) (control (world s1))) as Hf1.
  { pose proof (footprint_others _ _ _ _ _ _ (clock s) _ Hsep Hf) as Ho.
    destruct Hq as [(er & _ & ->)|Hupd]; [done|]. pose proof (update_desk_spec _ _ _ _ _ _ _ _ _ _ _ _ Hupd Ho) as Hx.
    destruct x; [by destruct Hx|by rewrite Hx]. }
  split; rewrite ?Hl, ?Hs, ?Hd, ?He.
  - by exists v, ts.
  - destruct (issued (locals s)); [done|]. by eapply no_key_only_db.
  - destruct (deskReceipt (locals s)); [naive_solver|]. destruct Hdesk as [?|[? _]]; [by left|done].
Qed.

(** The two remote compensations. *)
Lemma remote_phase s0 s error (dr' gr' : bool) s1 s2 :
  caught s0 s error →
  (match deskReceipt (locals s) with
   | Some r => attempt (desk_call (compensate isIPv6 URL resolve lookup_at JSON_parse respond r))
   | None => mret (negb (isSome (deskReceipt (locals s))) && negb (isSome (not_confirmed error)))
   end) s = (Ok dr', s1) →
  (match issued (locals s) with
   | Some k => attempt (gateway_call (revokeKey (issued_keyId k)))
   | None => mret true
   end) s1 = (Ok gr', s2) →
  locals s2 = locals s ∧
  unwound gr' dr' (match dev (locals s) with Some _ => false | None => true end) s0 s2.
Proof.
  intros [(v & ts & [Hv Ht _ Hc] & Hdev) Hkey Hdesk] Hdr Hgr.
  assert (gateway s1 = gateway s ∧ control (world s1) = control (world s) ∧ locals s1 = locals s ∧
    (dr' = true → desk_clear (sent (world s0)) (sent (world s1))) ∧
    (desk_clear (sent (world s0)) (sent (world s1)) ∨
     ∃ t, desk_recorded t (sent (world s0)) (sent (world s1)) (control (world s1)))) as (Hg1 & Hc1 & Hl1 & Hdr1 & Hd1).
  { destruct (deskReceipt (locals s)) as [rc|].
    - destruct Hdesk as (_ & Ha & Hi & Hrec).
      assert (locals s1 = locals s) as Hl.
      { apply attempt_spec in Hdr as (? & ? & _ & Hdr & _). unfold desk_call in Hdr.
        destruct (compensate _ _ _ _ _ _ _ _). by injection Hdr as _ <-. }
      destruct (desk_phase _ _ _ _ _ Ha Hi Hrec Hdr) as (? & ? & _ & ? & ?). split_and!; eauto.
    - injection Hdr as <- <-. split_and!; [done..| |]; destruct (not_confirmed error); naive_solver. }
  assert (world s2 = world s1 ∧ locals s2 = locals s1) as [Hw2 Hl2].
  { destruct (issued (locals s)); [|by injection Hgr as _ <-].
    apply attempt_spec in Hgr as (? & ? & _ & Hgr & _). unfold gateway_call in Hgr.
    destruct (revokeKey _ _). by injection Hgr as _ <-. }
  assert ((gr' = true → no_key s0 s2) ∧ (dev (locals s) = None → no_key s0 s2)) as [Hk1 Hk2].
  { destruct (issued (locals s)) as [k|] eqn:Hiss.
    - destruct Hkey as [Hki Hkd]. split; [intros ->|by rewrite Hkd].
      apply attempt_spec in Hgr as (b & x & [= <-] & Hgr & Hx). unfold gateway_call in Hgr.
      destruct (revokeKey _ _) as [r0 g] eqn:Hrev. injection Hgr as <- <-. destruct r0; [|done].
      left. cbn [gateway]. rewrite <-Hki. by eapply revoke_dead.
    - injection Hgr as <- <-. assert (no_key s0 s1) by (unfold no_key; by rewrite Hg1). done. }
  split; [congruence|]. split; rewrite ?Hw2, ?Hc1; [right; done| | |done|done|].
  - destruct (dev (locals s)) as [d|]; [done|]. destruct Hdev as [-> ->]. by apply fmap_None in Hv.
  - destruct (dev (locals s)) as [d|]; [right|left; auto]. destruct Hdev as [_ Hne]. intros Heq.
    rewrite Heq in Hv. by rewrite <-Hv in Hne.
  - by rewrite <-Hc1.
Qed.

(** The [catch] block rethrows, and leaves the enrollment unwound. *)
Lemma rollback_spec p error s0 s r s' :
  ec_id (p_code p) = ci →
  rollback isIPv6 URL resolve lookup_at JSON_parse respond others fails p now error s = (r, s') →
  caught s0 s error → r = Throw error ∧ ∃ gr dr rm, unwound gr dr rm s0 s'.
Proof.
  intros Hci Hrun HC. unfold rollback in Hrun. unfold gets in Hrun. unfold mbind at 1 2, M_bind at 1 2 in Hrun.
  cbv zeta in Hrun. destruct (persist_phase _ _ _ (p_owner p) HC) as (persisted & sp & Hpers & Hlp & HCp).
  rewrite (bind_step _ _ _ _ _ Hpers) in Hrun. clear Hpers HC. rewrite <-Hlp in Hrun. rename HCp into HC.
  match type of Hrun with (?A ≫= _) sp = _ => destruct (A sp) as [[dr|er] s1] eqn:Hdr end.
  2: { exfalso. destruct (deskReceipt (locals sp)) as [rc|]; [|done].
       match type of Hdr with attempt ?m ?s = _ => destruct (always_ok m s) as (? & ? & ?) end. congruence. }
  rewrite (bind_step _ _ _ _ _ Hdr) in Hrun.
  match type of Hrun with (?A ≫= _) s1 = _ => destruct (A s1) as [[gr|er] s2] eqn:Hgr end.
  2: { exfalso. destruct (issued (locals sp)) as [k|]; [|done].
       match type of Hgr with attempt ?m ?s = _ => destruct (always_ok m s) as (? & ? & ?) end. congruence. }
  rewrite (bind_step _ _ _ _ _ Hgr) in Hrun.
  destruct (remote_phase _ _ _ _ _ _ _ HC Hdr Hgr) as [Hl HU]. clear Hdr Hgr.
  match type of Hrun with (?A ≫= _) s2 = _ => assert (∃ rm s3, A s2 = (Ok rm, s3) ∧ unwound gr dr rm s0 s3) as (rm & s3 & Hrm & HU3) end.
  { destruct (c_rows _ _ _ HC) as (v & ts & _ & Hdev). destruct (dev (locals sp)) as [d|]; [|by exists true, s2].
    destruct Hdev as [-> _]. destruct (gr && dr) eqn:Hgd; [|by exists false, s2].
    destruct (always_ok (query others fails (delete_device i)) s2) as (b & s3 & Hb). exists b, s3. split; [done|].
    by eapply device_phase. }
  rewrite (bind_step _ _ _ _ _ Hrm) in Hrun. clear Hrm HU Hl s1 s2.
  match type of Hrun with (?A ≫= _) s3 = _ => destruct (A s3) as [x s4] eqn:Hx end.
  assert (unwound gr dr rm s0 s4 ∧ is_ok x = true) as [HU4 Hok].
  { destruct (gr && dr && rm) eqn:Hall; [|by injection Hx as <- <-].
    rewrite Hci in Hx. destruct (code_phase _ _ _ _ _ _ _ Hall Hx HU3) as (? & _ & ?). done. }
  destruct x as [restored|]; [|done]. rewrite (bind_step _ _ _ _ _ Hx) in Hrun.
  match type of Hrun with (?A ≫= _) s4 = _ => destruct (A s4) as [y s5] eqn:Hy end.
  assert (unwound gr dr rm s0 s5 ∧ is_ok y = true) as [HU5 Hok2].
  { destruct (enrollmentAuditRecorded (locals sp)); [by eapply audit_phase|by injection Hy as <- <-]. }
  destruct y as [?|]; [|done]. rewrite (bind_step _ _ _ _ _ Hy) in Hrun. injection Hrun as <- <-.
  split; [done|]. by exists gr, dr, rm.
Qed.

(** * The [try] block *)

(** Where the [try] block starts. *)
Record claimed (s : EnrollState G) : Prop := {
  cl_rows : footprint i ci None [] (Some now) (control (world s));
  cl_locals : locals s = no_locals;
  cl_prepared : prepared_seen (world s) = false;
  cl_key : live (gateway s) i = false }.

(** A state in which device, key and token exist and the Desk was not contacted. *)
Record issued_state (p : Prepared) (d : DeviceInfo) (s0 s : EnrollState G) (key : IssuedKey) (ts : list DeviceToken) : Prop := {
  is_rows : footprint i ci (Some (new_device i (p_code p) d now)) ts (Some now) (control (world s));
  is_dev : dev (locals s) = Some i;
  is_issued : issued (locals s) = Some key;
  is_receipt : deskReceipt (locals s) = None;
  is_sent : sent (world s) = sent (world s0);
  is_prepared : prepared_seen (world s) = false;
  is_key : issueKey (key_options e i (ec_org (p_code p)) (p_model p) (p_models p) (p_policy p) now) (gateway s0)
           = (Ok key, gateway s) }.

Lemma issued_caught p d s0 s key ts er : issued_state p d s0 s key ts → caught s0 s er.
Proof.
  intros [Hr Hd Hi Hrc Hs Hp Hk]. split.
  - eexists _, _. split; [done|]. by rewrite Hd.
  - rewrite Hi, Hd. by apply issue_live in Hk as [? _].
  - rewrite Hrc, Hs. destruct (not_confirmed er); left; [left|]; done.
Qed.

(** A database call of the block: it fails, or runs after the other requests. *)
Lemma issued_query {A} p d s0 s key ts (m : M ControlDB A) r s' :
  query others fails m s = (r, s') → issued_state p d s0 s key ts →
  (∃ er, r = Throw er ∧ issued_state p d s0 s' key ts) ∨
  ∃ db, footprint i ci (Some (new_device i (p_code p) d now)) ts (Some now) db ∧ m db = (r, control (world s')) ∧
    ∀ ts', footprint i ci (Some (new_device i (p_code p) d now)) ts' (Some now) (control (world s')) →
      issued_state p d s0 s' key ts'.
Proof.
  intros Hq [Hr Hd Hi Hrc Hs Hp Hk]. apply query_spec in Hq as [(Hg & Hl & Hs1 & Hp1) Hq].
  pose proof (footprint_others _ _ _ _ _ _ (clock s) _ Hsep Hr) as Ho.
  destruct Hq as [(er & -> & Hc)|Hm].
  - left. exists er. split; [done|]. split; rewrite ?Hl, ?Hs1, ?Hp1, ?Hg; try done. by rewrite Hc.
  - right. eexists. split; [exact Ho|]. split; [exact Hm|]. intros ts' Hf.
    split; rewrite ?Hl, ?Hs1, ?Hp1, ?Hg; done.
Qed.

Lemma issue_and_record_spec p d s0 r s :
  issue_and_record sha256 others fails e p i d now s0 = (r, s) → claimed s0 →
  match r with
  | Ok key => issued_state p d s0 s key [new_token sha256 i key (p_model p) (ec_reasoningEffort (p_code p)) (p_policy p) now]
  | Throw er => caught s0 s er
  end.
Proof.
  intros Hrun [Hrow Hloc Hprep Hlive]. unfold issue_and_record in Hrun. cbv zeta in Hrun.
  destruct (query others fails (create_device (new_device i (p_code p) d now)) s0) as [x s1] eqn:Hq.
  pose proof Hq as Hq'. apply query_spec in Hq' as [(Hg1 & Hl1 & Hs1 & Hp1) Hq'].
  pose proof (footprint_others _ _ _ _ _ _ (clock s0) _ Hsep Hrow) as Ho.
  assert (match x with Ok _ => footprint i ci (Some (new_device i (p_code p) d now)) [] (Some now) (control (world s1))
          | Throw _ => footprint i ci None [] (Some now) (control (world s1)) end) as Hf1.
  { destruct Hq' as [(er & -> & ->)|Hc]; [done|].
    pose proof (create_device_spec (new_device i (p_code p) d now) _ _ _ i _ _ eq_refl Hc Ho) as Hx. destruct x; [apply Hx|by rewrite Hx]. }
  destruct x as [[]|er].
  2: { rewrite (bind_throw _ _ _ _ _ Hq) in Hrun. injection Hrun as <- <-. split; rewrite ?Hl1, ?Hloc, ?Hs1; cbn.
       - by exists None, [].
       - left. by rewrite Hg1.
       - destruct (not_confirmed er); left; [left|]; done. }
  rewrite (bind_step _ _ _ _ _ Hq) in Hrun. unfold set_dev, set_issued, set_locals, modify, gateway_call in Hrun.
  unfold mbind at 1 2, M_bind at 1 2 in Hrun. cbn [gateway] in Hrun. rewrite Hg1 in Hrun.
  destruct (issueKey _ (gateway s0)) as [[key|er] g] eqn:Hk.
  2: { injection Hrun as <- <-. split; cbn [control world locals gateway dev issued deskReceipt sent]; rewrite ?Hs1, ?Hl1, ?Hloc; cbn.
       - eexists _, _. by split.
       - right. eexists _, _. split; [|exact Hk]. done.
       - destruct (not_confirmed er); left; [left|]; done. }
  unfold mbind at 1, M_bind at 1 in Hrun.
  cbn [world gateway clock locals dev issued enrollmentAuditRecorded deskReceipt] in Hrun.
  match type of Hrun with (_ ≫= _) ?st = _ => set (s2 := st) in Hrun end.
  assert (issued_state p d s0 s2 key []) as H2.
  { split; cbn [s2 world gateway locals dev issued deskReceipt]; rewrite ?Hl1, ?Hloc, ?Hs1, ?Hp1; done. }
  clearbody s2. clear Hq Hq' Ho Hg1 Hl1 Hs1 Hp1 Hf1 Hk s1.
  destruct (query others fails (create_token (new_token sha256 i key (p_model p) (ec_reasoningEffort (p_code p)) (p_policy p) now)) s2) as [x s3] eqn:Hq.
  destruct (issued_query _ _ _ _ _ _ _ _ _ Hq H2) as [(er & -> & H3)|(db & Hf & Hm & H3)].
  { rewrite (bind_throw _ _ _ _ _ Hq) in Hrun. injection Hrun as <- <-. by eapply issued_caught. }
  pose proof (create_token_spec (new_token sha256 i key (p_model p) (ec_reasoningEffort (p_code p)) (p_policy p) now) _ _ _ i _ _ _ eq_refl Hm Hf) as Hx. destruct x as [[]|er].
  2: { rewrite (bind_throw _ _ _ _ _ Hq) in Hrun. injection Hrun as <- <-. eapply issued_caught, H3. by rewrite Hx. }
  rewrite (bind_step _ _ _ _ _ Hq) in Hrun. specialize (H3 _ Hx). clear Hq Hf Hm Hx H2 s2 db.
  match type of Hrun with (query _ _ ?m ≫= _) _ = _ => destruct (query others fails m s3) as [x s4] eqn:Hq end.
  destruct (issued_query _ _ _ _ _ _ _ _ _ Hq H3) as [(er & -> & H4)|(db & Hf & Hm & H4)].
  { rewrite (bind_throw _ _ _ _ _ Hq) in Hrun. injection Hrun as <- <-. by eapply issued_caught. }
  unfold audit_log, modify in Hm. injection Hm as <- Hc.
  assert (issued_state p d s0 s4 key [new_token sha256 i key (p_model p) (ec_reasoningEffort (p_code p)) (p_policy p) now]) as H5
    by (apply H4; rewrite <-Hc; by apply footprint_record).
  rewrite (bind_step _ _ _ _ _ Hq) in Hrun. unfold set_recorded, set_locals, modify, mbind, M_bind, mret, M_ret in Hrun.
  injection Hrun as <- <-. by destruct H5.
Qed.

(** The device after a successful enrollment, with the Desk columns of its Desk binding if there is one. *)
Definition desk_columns (desk : option ProvisionedDeskBinding) (s0 s : EnrollState G) : Prop :=
  match desk with
  | Some b => ∃ v, find_device (control (world s)) i = Some v ∧ deskProvisionedAt v = Some now ∧
      deskCleanupPendingAt v = None ∧ ControlDb.deskOrigin v = Some (pb_url b)
  | None => sent (world s) = sent (world s0)
  end.

Hypothesis Hid : trim i = i.

(** The Desk part of the block: the result of [provision_desk], with everything it did before it. *)
Lemma desk_attempt_spec p d s0 s key ts r s' :
  issued_state p d s0 s key ts →
  desk_call (provisionForEnrollment isIPv6 URL resolve lookup_at JSON_parse sha256 kms respond others targets true
    (desk_input i (p_code p) (p_owner p) d) true (Some (i, now))) s = (r, s') →
  gateway s' = gateway s ∧ locals s' = locals s ∧
  footprint i ci (Some (new_device i (p_code p) d now)) ts (Some now) (control (world s')) ∧
  match r with
  | Ok None => sent (world s') = sent (world s0)
  | Ok (Some rc) => active rc = true ∧ rc_installation rc = i ∧ pb_url (binding rc) = url_ (rc_target rc) ∧
      desk_recorded (rc_target rc) (sent (world s0)) (sent (world s')) (control (world s'))
  | Throw er => match not_confirmed er with
      | Some _ => desk_clear (sent (world s0)) (sent (world s')) ∨ prepared_seen (world s') = true ∧
          ∃ t, desk_recorded t (sent (world s0)) (sent (world s')) (control (world s'))
      | None => desk_clear (sent (world s0)) (sent (world s'))
      end
  end.
Proof.
  intros [Hr Hd Hi Hrc Hs Hp Hk] Hrun. unfold desk_call in Hrun.
  destruct (provisionForEnrollment _ _ _ _ _ _ _ _ _ _ _ _ _ _ _) as [x w] eqn:Hprov. injection Hrun as <- <-.
  cbn [world gateway locals]. split; [done|]. split; [done|]. split.
  { change w with (x, w).2. rewrite <-Hprov. apply (provision_keeps _ _ _ _ _ _ _ _ _ _ _
      (footprint i ci (Some (new_device i (p_code p) d now)) ts (Some now))); [|by intros; apply footprint_desk|done].
    intros n db. by apply footprint_others. }
  apply provision_spec in Hprov; [|intros; apply (s_device _ _ _ _ Hsep)|done]. rewrite Hs in Hprov.
  destruct Hprov as [(Hsent & Hprep & Hnot)|(t & own & inst & att & l & _ & Hinst & Hprep & Hpend & Hsent & Hto & -> & Hatt)].
  - destruct x as [[rc|]|er]; [by destruct (Hnot rc)|done|]. destruct (not_confirmed er); left; [left|]; done.
  - apply bounded_trim in Hinst. cbn [installationId desk_input] in Hinst. rewrite Hid in Hinst. subst inst.
    assert (desk_recorded t (sent (world s0)) (sent w) (control w)) as Hrec.
    { destruct Hpend as (v & Hv & _ & Hpen & Hor). split; [|by exists l]. exists v.
      split_and!; [done| |done]. unfold desk_bound. rewrite Hpen. by rewrite orb_true_r. }
    destruct att as [rc|er]; cbn [fmap res_fmap].
    + destruct Hatt as (Ht & _ & _ & Hin & Ha & body & response & client & pid & _ & _ & Hcheck).
      apply check_registration_ok in Hcheck as (_ & Hu & _). rewrite Ht. by split_and!.
    + destruct er; try done. destruct compensationConfirmed; cbn [not_confirmed].
      * destruct Hatt as [_ Hconf]. destruct (Hconf eq_refl) as (before & response & ? & ? & ?).
        right. by exists t, (orgId (desk_input i (p_code p) (p_owner p) d)), own, before, response.
      * right. split; [done|]. by exists t.
Qed.

(** What a successful enrollment establishes. *)
Record enrolled (p : Prepared) (d : DeviceInfo) (s0 s : EnrollState G) (r : EnrollResult) : Prop := {
  en_id : device_id r = i;
  en_device : core_of <$> find_device (control (world s)) i = Some (new_device i (p_code p) d now);
  en_token : ∃ k, tokens_of i (control (world s)) = [k] ∧ k_hash k = sha256 (device_token r) ∧ k_revokedAt k = None ∧
    expires_at r = toISOString <$> k_expiresAt k ∧
    match o_expiresAt (key_options e i (ec_org (p_code p)) (p_model p) (p_models p) (p_policy p) now) with
    | None => k_expiresAt k = None
    | Some t => ∃ t', k_expiresAt k = Some t' ∧ (t' <= t + rounding)%Z
    end;
  en_live : live (gateway s) i = true;
  en_code : ∃ c, find_code ci (control (world s)) = Some c ∧ ec_usedAt c = Some now;
  en_desk : desk_columns (desk r) s0 s }.

(** Only the receipt changes. *)
Lemma set_receipt_spec o (s : EnrollState G) : ∃ s', set_receipt o s = (Ok tt, s') ∧ world s' = world s ∧
  gateway s' = gateway s ∧ dev (locals s') = dev (locals s) ∧ issued (locals s') = issued (locals s) ∧
  deskReceipt (locals s') = o.
Proof. eexists. split; [reflexivity|]. done. Qed.

Lemma provision_desk_spec p d s0 s key ts r s' :
  issued_state p d s0 s key ts →
  provision_desk isIPv6 URL resolve lookup_at JSON_parse sha256 kms respond others fails targets has_desk true p i d now s
    = (r, s') →
  match r with
  | Ok b => footprint i ci (Some (new_device i (p_code p) d now)) ts (Some now) (control (world s')) ∧
      gateway s' = gateway s ∧ desk_columns b s0 s'
  | Throw er => caught s0 s' er
  end.
Proof.
  intros HI Hrun. unfold provision_desk in Hrun.
  match type of Hrun with (?A ≫= _) s = _ => destruct (A s) as [x s1] eqn:Hx end.
  assert (gateway s1 = gateway s ∧ locals s1 = locals s ∧
    footprint i ci (Some (new_device i (p_code p) d now)) ts (Some now) (control (world s1)) ∧
    match x with
    | Ok None => sent (world s1) = sent (world s0)
    | Ok (Some rc) => active rc = true ∧ rc_installation rc = i ∧ pb_url (binding rc) = url_ (rc_target rc) ∧
        desk_recorded (rc_target rc) (sent (world s0)) (sent (world s1)) (control (world s1))
    | Throw er => caught s0 s1 er
    end) as (Hg & Hl & Hf & Hcase).
  { destruct has_desk.
    - destruct (desk_attempt_spec _ _ _ _ _ _ _ _ HI Hx) as (Hg & Hl & Hf & Hcase). destruct HI.
      split_and!; [done..|]. destruct x as [[rc|]|er]; [done..|]. split; rewrite ?Hl.
      + rewrite is_dev0. eexists _, _. by split.
      + rewrite is_issued0, is_dev0. by apply issue_live in is_key0 as [? _].
      + by rewrite is_receipt0.
    - injection Hx as <- <-. by destruct HI. }
  destruct x as [rc|er]; [|rewrite (bind_throw _ _ _ _ _ Hx) in Hrun; by injection Hrun as <- <-].
  rewrite (bind_step _ _ _ _ _ Hx) in Hrun. destruct HI as [_ Hdev Hiss _ _ _ Hkey].
  destruct (set_receipt_spec rc s1) as (s2 & H2 & Hw2 & Hg2 & Hd2 & Hi2 & Hr2).
  rewrite (bind_step _ _ _ _ _ H2) in Hrun. rewrite Hl in Hd2, Hi2. rewrite Hdev in Hd2. rewrite Hiss in Hi2.
  cbv zeta in Hrun. destruct rc as [rc|]; cbn [fmap option_fmap option_map] in Hrun.
  - destruct Hcase as (Ha & Hinst & Hurl & Hrec).
    match type of Hrun with (query _ _ ?m ≫= _) _ = _ => destruct (query others fails m s2) as [x s3] eqn:Hq end.
    pose proof Hq as Hq'. apply query_spec in Hq' as [(Hg3 & Hl3 & Hs3 & Hp3) Hq']. rewrite Hw2 in Hq', Hs3.
    pose proof (footprint_others _ _ _ _ _ _ (clock s2) _ Hsep Hf) as Ho.
    pose proof (desk_recorded_others _ _ _ _ (clock s2) Hrec) as Hro.
    assert (∀ er, control (world s3) = others (clock s2) (control (world s1)) → not_confirmed er = None → caught s0 s3 er) as Hcaught.
    { intros er Hc Her. split; rewrite ?Hl3, ?Hd2, ?Hi2, ?Hr2, ?Hs3, ?Hc.
      - eexists _, _. by split.
      - by apply issue_live in Hkey as [? _].
      - by split_and!. }
    destruct Hq' as [(er & -> & Hc)|Hupd].
    + rewrite (bind_throw _ _ _ _ _ Hq) in Hrun. injection Hrun as <- <-. apply Hcaught; [done|].
      unfold query in Hq. destruct (fails (clock s2)); [by simplify_eq/=|].
      unfold update_device in Hq. destruct (find_device _ i); by simplify_eq/=.
    + pose proof (update_desk_spec _ _ _ _ _ _ _ _ _ _ _ _ Hupd Ho) as Hx3. destruct x as [[]|er].
      2: { rewrite (bind_throw _ _ _ _ _ Hq) in Hrun. injection Hrun as <- <-. apply Hcaught; [done|].
           unfold update_device in Hupd. destruct (find_device _ i); by simplify_eq/=. }
      rewrite (bind_step _ _ _ _ _ Hq) in Hrun. injection Hrun as <- <-. destruct Hx3 as [Hf3 Hfind].
      split; [done|]. split; [congruence|]. destruct Hro as [(v & Hv & _) _]. rewrite Hv in Hfind.
      eexists. by split.
  - rewrite ret_bind in Hrun. injection Hrun as <- <-. rewrite Hw2. split; [done|]. split; [congruence|].
    unfold desk_columns. by rewrite Hw2.
Qed.

Lemma enroll_device_spec p d s0 r s :
  claimed s0 →
  enroll_device isIPv6 URL resolve lookup_at JSON_parse sha256 kms respond others fails targets has_desk true e p i d now s0
    = (r, s) →
  match r with Ok res => enrolled p d s0 s res | Throw er => caught s0 s er end.
Proof.
  intros HC Hrun. unfold enroll_device in Hrun.
  destruct (issue_and_record sha256 others fails e p i d now s0) as [x s1] eqn:Hx.
  pose proof (issue_and_record_spec _ _ _ _ _ Hx HC) as H1. destruct x as [key|er];
    [|rewrite (bind_throw _ _ _ _ _ Hx) in Hrun; by injection Hrun as <- <-].
  rewrite (bind_step _ _ _ _ _ Hx) in Hrun. clear Hx. set (tok := new_token _ _ _ _ _ _ _) in *.
  match type of Hrun with (query _ _ ?m ≫= _) _ = _ => destruct (query others fails m s1) as [x s2] eqn:Hq end.
  destruct (issued_query _ _ _ _ _ _ _ _ _ Hq H1) as [(er & -> & H2)|(db & Hf & Hm & H2)].
  { rewrite (bind_throw _ _ _ _ _ Hq) in Hrun. injection Hrun as <- <-. by eapply issued_caught. }
  unfold gets in Hm. injection Hm as <- Hc. rewrite (bind_step _ _ _ _ _ Hq) in Hrun.
  assert (issued_state p d s0 s2 key [tok]) as H3 by (apply H2; by rewrite <-Hc). clear H1 H2 Hq Hc Hf.
  match type of Hrun with (?A ≫= _) s2 = _ => destruct (A s2) as [x s3] eqn:Hx end.
  pose proof (provision_desk_spec _ _ _ _ _ _ _ _ H3 Hx) as H4.
  destruct x as [b|er]; [|rewrite (bind_throw _ _ _ _ _ Hx) in Hrun; by injection Hrun as <- <-].
  rewrite (bind_step _ _ _ _ _ Hx) in Hrun. destruct (set_receipt_spec None s3) as (s4 & H5 & Hw & Hg4 & _).
  rewrite (bind_step _ _ _ _ _ H5) in Hrun. unfold mret, M_ret in Hrun. injection Hrun as <- <-.
  destruct H4 as ([Hfd Hft _ Hfc] & Hg & Hcols), H3 as [_ _ _ _ _ _ Hkey].
  split; rewrite ?Hw, ?Hg4, ?Hg; [done|done| |by apply issue_live in Hkey as [_ ?]|done|].
  - exists tok. split_and!; [done..|]. by apply issue_expiry in Hkey.
  - cbn [desk enroll_result]. unfold desk_columns in *. by rewrite Hw.
Qed.

(** * The whole exchange *)

(** What reading the database does to the rows of the enrollment. *)
Definition quiet (s s' : EnrollState G) : Prop :=
  only_db s s' ∧ find_device (control (world s')) i = find_device (control (world s)) i ∧
  tokens_of i (control (world s')) = tokens_of i (control (world s)) ∧
  (NoDup (map ec_id (codes (control (world s)))) → NoDup (map ec_id (codes (control (world s'))))).
#[local] Instance quiet_refl : Reflexive quiet.
Proof. by intros s. Qed.
#[local] Instance quiet_trans : Transitive quiet.
Proof.
  intros x y z [(? & ? & ? & ?) (? & ? & ?)] [(? & ? & ? & ?) (? & ? & ?)]. unfold quiet, only_db.
  split_and!; [congruence..|auto].
Qed.
Lemma quiet_rtc s s' : rtc quiet s s' → quiet s s'.
Proof. induction 1; [done|by etrans]. Qed.
Lemma query_quiet {A} (m : M ControlDB A) :
  (∀ db, (m db).2 = db) → runs_in quiet (query others fails m : M (EnrollState G) A).
Proof.
  intros Hm. apply runs_in_step. intros s. destruct (query others fails m s) as [r s'] eqn:Hq.
  apply query_spec in Hq as [Hdb Hq]. cbn [snd]. unfold quiet.
  assert (control (world s') = others (clock s) (control (world s))) as ->.
  { destruct Hq as [(? & _ & ?)|Hq]; [done|]. specialize (Hm (others (clock s) (control (world s)))). by rewrite Hq in Hm. }
  split; [done|]. rewrite (s_device _ _ _ _ Hsep), (s_tokens _ _ _ _ Hsep). split_and!; [done..|].
  apply (s_codes _ _ _ _ Hsep).
Qed.
Lemma query_gets_quiet {A} (f : ControlDB → A) : runs_in quiet (query others fails (gets f) : M (EnrollState G) A).
Proof. by apply query_quiet. Qed.
#[local] Hint Resolve query_gets_quiet : runs_in.

Lemma prepare_quiet code : runs_in quiet (prepare others fails e license code now : M (EnrollState G) Prepared).
Proof.
  unfold prepare, seat_check. repeat (apply runs_in_bind; [auto with runs_in|intros]); [auto with runs_in|..].
  all: repeat (first [progress auto with runs_in|case_match|apply runs_in_bind; [auto with runs_in|intros]]).
Qed.

Lemma query_gets_ok {A} (f : ControlDB → A) (s : EnrollState G) a s' :
  query others fails (gets f) s = (Ok a, s') → a = f (others (clock s) (control (world s))).
Proof.
  intros Hq. apply query_spec in Hq as [_ [(? & ? & _)|Hq]]; [done|]. unfold gets in Hq. by injection Hq.
Qed.

(** A code that passes the checks is the one presented, unused and unexpired, of the tenant named in the answer. *)
Definition acceptable_code (code : string) (p : Prepared) : Prop :=
  ec_code (p_code p) = code ∧ ec_usedAt (p_code p) = None ∧ (now <= ec_expiresAt (p_code p))%Z ∧
  OrgTree.id (p_org p) = ec_org (p_code p) ∧ ∃ person, ec_person (p_code p) = Some person ∧ truthy person = true.
Lemma prepare_ok code (s : EnrollState G) p s' :
  prepare others fails e license code now s = (Ok p, s') →
  acceptable_code code p ∧
  find_by ec_code code (codes (others (clock s) (control (world s)))) = Some (p_code p).
Proof.
  unfold prepare. intros (found & s1 & Hfound & Hrun)%bind_ok. apply query_gets_ok in Hfound.
  apply bind_ok in Hrun as (ec & s2 & Hec & Hrun). apply require_ok in Hec as [-> ->].
  apply bind_ok in Hrun as ([] & s2 & Hg & Hrun). apply guard_throw_ok in Hg as [Hg ->].
  apply bind_ok in Hrun as (organization & s3 & Horg & Hrun). apply query_gets_ok in Horg.
  apply bind_ok in Hrun as (person & s4 & Hp & Hrun).
  apply bind_ok in Hrun as (org & s5 & Ho & Hrun). apply require_ok in Ho as [-> ->].
  apply bind_ok in Hrun as (person' & s5 & Hper & Hrun). apply require_ok in Hper as [-> ->].
  apply bind_ok in Hrun as ([] & s5 & _ & Hrun). apply bind_ok in Hrun as ([] & s6 & _ & Hrun).
  apply bind_ok in Hrun as (m & s7 & _ & Hrun). apply bind_ok in Hrun as (ms & s8 & _ & Hrun).
  apply bind_ok in Hrun as (pol & s9 & _ & Hrun). unfold mret, M_ret in Hrun. injection Hrun as <- <-. cbn [p_code p_org].
  apply orb_false_iff in Hg as [Hu Hexp]. symmetry in Hfound, Horg.
  apply find_by_Some in Horg as [Horg _]. split; [|done]. split; [by apply find_by_Some in Hfound as [? _]|].
  cbn [p_code p_org].
  split_and!; [by destruct (ec_usedAt ec)|by apply Z.ltb_ge|done|].
  destruct (absent (ec_person ec)) eqn:Ha; [done|]. destruct (ec_person ec) as [x|]; [|done]. exists x.
  split; [done|]. unfold absent in Ha. cbn [nullish default] in Ha. by apply negb_false_iff in Ha.
Qed.

(** Only the gateway and the requests of the start matter. *)
Lemma unwound_start gr dr rm s0 s1 s :
  gateway s1 = gateway s0 → sent (world s1) = sent (world s0) → unwound gr dr rm s0 s → unwound gr dr rm s1 s.
Proof.
  intros Hg Hs HU. destruct HU as [Hc Hr Hd Hk Hcl Hde]. split; unfold no_key in *; rewrite ?Hg, ?Hs; done.
Qed.

(** The state before an enrollment: the identifier drawn for the device is new in the database and at the
    gateway, and the presented code, if there is one, is the row [ci]. *)
Record fresh (code : string) (s : EnrollState G) : Prop := {
  fr_device : find_device (control (world s)) i = None;
  fr_tokens : tokens_of i (control (world s)) = [];
  fr_codes : NoDup (map ec_id (codes (control (world s))));
  fr_key : live (gateway s) i = false;
  fr_code c : find_by ec_code code (codes (others (clock s) (control (world s)))) = Some c → ec_id c = ci }.

(** Nothing of the enrollment is left. *)
Record gone (s s' : EnrollState G) : Prop := {
  go_key : no_key s s';
  go_desk : desk_clear (sent (world s)) (sent (world s'));
  go_device : find_device (control (world s')) i = None;
  go_tokens : tokens_of i (control (world s')) = [] }.

Lemma enroll_spec code d s r s' :
  enroll isIPv6 URL resolve lookup_at JSON_parse sha256 kms respond others fails targets has_desk true e license
    code i d now s = (r, s') →
  fresh code s →
  match r with
  | Ok res => ∃ p s0, acceptable_code code p ∧ ec_id (p_code p) = ci ∧ gateway s0 = gateway s ∧
      sent (world s0) = sent (world s) ∧ enrolled p d s0 s' res
  | Throw er => gone s s' ∨ ∃ gr dr rm, unwound gr dr rm s s'
  end.
Proof.
  intros Hrun [Hdev Htok Hnd Hlive Hcode]. unfold enroll in Hrun.
  pose proof (quiet_rtc _ _ (prepare_quiet code s)) as Hq.
  destruct (prepare _ _ _ _ _ _ s) as [[p|er] s1] eqn:Hp.
  2: { rewrite (bind_throw _ _ _ _ _ Hp) in Hrun. injection Hrun as <- <-. left. cbn [snd] in Hq.
       destruct Hq as ((Hg & Hl & Hs & Hpr) & Hd & Ht & _). split; [left; congruence|left; congruence|congruence|congruence]. }
  cbn [snd] in Hq. destruct (prepare_ok _ _ _ _ Hp) as [Hacc Hfind]. specialize (Hcode _ Hfind).
  rewrite (bind_step _ _ _ _ _ Hp) in Hrun. destruct Hq as ((Hg & Hl & Hs & Hpr) & Hd & Ht & Hn). specialize (Hn Hnd).
  rewrite Hcode in Hrun. destruct (query others fails (claim ci now) s1) as [x s2] eqn:Hc.
  pose proof Hc as Hc'. apply query_spec in Hc' as [(Hg2 & Hl2 & Hs2 & Hp2) Hc'].
  set (db := others (clock s1) (control (world s1))) in *.
  assert (find_device db i = None ∧ tokens_of i db = [] ∧ NoDup (map ec_id (codes db))) as (Hd1 & Ht1 & Hn1).
  { unfold db. rewrite (s_device _ _ _ _ Hsep), (s_tokens _ _ _ _ Hsep), Hd, Ht, Hdev, Htok.
    split_and!; [done..|by apply (s_codes _ _ _ _ Hsep)]. }
  assert (find_device (control (world s2)) i = None ∧ tokens_of i (control (world s2)) = []) as [Hd2 Ht2].
  { destruct Hc' as [(? & _ & ->)|Hc']; [done|]. unfold claim, update_codes in Hc'. injection Hc' as _ <-. done. }
  destruct x as [n|er].
  2: { rewrite (bind_throw _ _ _ _ _ Hc) in Hrun. injection Hrun as <- <-. left.
       split; [left; congruence|left; congruence|congruence|congruence]. }
  rewrite (bind_step _ _ _ _ _ Hc), bind_guard in Hrun. destruct (n =? 1) eqn:Hone; cbn [negb] in Hrun.
  2: { injection Hrun as <- <-. left.
       split; [left; congruence|left; congruence|congruence|congruence]. }
  destruct Hc' as [(? & ? & _)|Hc']; [done|]. apply Nat.eqb_eq in Hone. subst n.
  destruct (claim_spec now _ _ _ i ci None [] Hc' eq_refl) as [Hf _]; [by rewrite Hd1|done..|].
  unfold declare_locals, modify in Hrun. unfold mbind at 1, M_bind at 1 in Hrun.
  match type of Hrun with try_catch _ _ ?st = _ => set (s3 := st) in Hrun end.
  assert (claimed s3) as Hcl.
  { split; [done|done|done|]. cbn [s3 gateway]. by rewrite Hg2, Hg. }
  assert (gateway s3 = gateway s ∧ sent (world s3) = sent (world s)) as [Hg3 Hs3]
    by (cbn [s3 gateway world sent]; split; congruence).
  unfold try_catch in Hrun.
  match type of Hrun with match ?m with _ => _ end = _ => destruct m as [y s4] eqn:Hy end.
  pose proof (enroll_device_spec _ _ _ _ _ Hcl Hy) as Hed. destruct y as [res|er].
  - injection Hrun as <- <-. exists p, s3. by split_and!.
  - destruct (rollback_spec _ _ _ _ _ _ Hcode Hrun Hed) as [-> (gr & dr & rm & HU)].
    right. exists gr, dr, rm. by eapply unwound_start.
Qed.

(** C14: a failed enrollment strands nothing, as long as nobody else touches what it works on. Assume that other
    requests, which may run before every database call of the saga, write neither the row of the new device nor a
    token of it nor the claimed code, and keep the identifiers of codes distinct: an administrator's revocation of
    the device while it enrolls is thereby excluded. Assume too that the new identifier is not in use, by a row, a
    token or a live key. Then, whichever of its checks, its database calls (those inside the reservation of the Desk
    apart, which do not fail here), the gateway and the Desk failed, in the saga or in its compensation: a live
    gateway key of the device, unless issuing it failed inside the gateway itself, still has its device row,
    from which it can be revoked; a Desk that was contacted and did not confirm a revocation is recorded in
    the device row with the origin all the requests went to; and the one-time code is either still claimed,
    or nothing of the enrollment is left: no key, no Desk installation, no device and no token. *)
Theorem enroll_strands_nothing code d s er s' :
  enroll isIPv6 URL resolve lookup_at JSON_parse sha256 kms respond others fails targets has_desk true e license
    code i d now s = (Throw er, s') →
  fresh code s →
  (no_key s s' ∨ find_device (control (world s')) i ≠ None) ∧
  (desk_clear (sent (world s)) (sent (world s')) ∨
   ∃ t, desk_recorded t (sent (world s)) (sent (world s')) (control (world s'))) ∧
  ((∃ c, find_code ci (control (world s')) = Some c ∧ ec_usedAt c = Some now) ∨ gone s s').
Proof.
  intros Hrun Hf. destruct (enroll_spec _ _ _ _ _ Hrun Hf) as [HG|(gr & dr & rm & [Hc Hr Hd Hk Hcl Hde])].
  - split; [left; by apply go_key|]. split; [left; by apply go_desk|by right].
  - split_and!; [done|done|]. destruct Hc as [Hall|?]; [|by left]. right.
    apply andb_true_iff in Hall as [[-> ->]%andb_true_iff ->]. destruct (Hr eq_refl). split; auto.
Qed.

(** C19: a successful enrollment that nobody else disturbs is one device, one token, one live key. Assume that the
    new identifier is not in use, and that other requests, which may run before every database call, write neither
    the row of the new device nor a token of it nor the claimed code (a revocation of the device while it enrolls is
    excluded). Then the code was the presented one, unused and unexpired, and is now claimed; the device row is the
    new one, of the code's organization and person; its single token is the hash of the returned credential, expires
    when the answer says, and no later than the stored policy allows (up to the gateway's rounding); the gateway
    accepts the key; and the row records the returned Desk binding, or the Desk was never contacted. *)
Theorem enroll_complete code d s r s' :
  enroll isIPv6 URL resolve lookup_at JSON_parse sha256 kms respond others fails targets has_desk true e license
    code i d now s = (Ok r, s') →
  fresh code s →
  ∃ p s0, acceptable_code code p ∧ ec_id (p_code p) = ci ∧ gateway s0 = gateway s ∧
    sent (world s0) = sent (world s) ∧ enrolled p d s0 s' r.
Proof. intros Hrun Hf. exact (enroll_spec _ _ _ _ _ Hrun Hf). Qed.
End saga.

(** * Enrolled devices *)

Section sessions.
Context (isIPv6 : string → bool) (URL : string → option url) (resolve : string → string → option string)
  (lookup_at : nat → string → res (list string)) (JSON_parse : string → option json)
  (sha256 : string → string) (kms : KmsAdapter).
Context (respond : list (string * json) → nat → string → json → res Response).
Context (others : nat → ControlDB → ControlDB) (fails : nat → bool).
Context (targets : list (string * Target)) (has_desk has_bindings : bool).
Context (e : env).
Context {G : Type} `{GatewayAdapter G}.

(** The token authorises its bearer in a database. *)
Definition authorises (a : string) (t : Z) (db : ControlDB) (k : DeviceToken) (v : Device) : Prop :=
  find_token (sha256 a) db = Some (k, v) ∧ Token.usable (Some (validatable k)) t.

Lemma usable_token_ok a t (s : EnrollState G) k v s' :
  usable_token sha256 others fails e a t s = (Ok (k, v), s') → authorises a t (control (world s')) k v.
Proof.
  unfold usable_token. intros (found & s1 & Hf & Hk)%bind_ok. apply query_read in Hf as [-> _].
  apply bind_ok in Hk as ([] & s2 & Hu & Hr). unfold lift in Hu. injection Hu as Hu <-.
  apply require_ok in Hr as [Hr ->]. rewrite Hr in Hu. apply Token.usable_ok in Hu. by split.
Qed.

(** an Agent credential is only handed to a device that is still allowed to have it. If
    [provisionDeskAgent] answers, then in the database as it is at the end, after the network call, the
    bearer is an unrevoked and unexpired token of the device that asked; the device is still provisioned,
    with the same owner and the same Desk; and the credential is for that owner and from that Desk. *)
Theorem agent_credential_current auth input now later (s : EnrollState G) r s' :
  provisionDeskAgent isIPv6 URL resolve lookup_at JSON_parse sha256 kms respond others fails targets has_desk has_bindings
    e auth input now later s = (Ok r, s') →
  ∃ a v0 k v o own, auth = Some a ∧ authorises a later (control (world s')) k v ∧ v_id v = v_id v0 ∧
    isSome (deskProvisionedAt v) = true ∧ ControlDb.deskOrigin v = Some o ∧ deskOwner v = Some own ∧
    deskOrigin URL (JStr o) = Ok (pb_url (a_desk r)) ∧
    bounded own "Desk owner" 256 = Ok (pb_owner (a_desk r)) ∧
    (∃ db k0, authorises a now db k0 v0) ∧ a_instance_id r = toLowerCase (a_instance_id r) ∧
    instance_ok (a_instance_id r) = true.
Proof.
  unfold provisionDeskAgent. intros ([] & s1 & Hg & Hrun)%bind_ok. apply guard_throw_ok in Hg as [Hauth ->].
  apply bind_ok in Hrun as ([k0 v0] & s2 & Ht & Hrun). apply usable_token_ok in Ht. cbn [snd] in Hrun.
  apply bind_ok in Hrun as ([] & s3 & Hg & Hrun). apply guard_throw_ok in Hg as [Hg ->].
  apply bind_ok in Hrun as ([] & s3 & Hi & Hrun). apply guard_throw_ok in Hi as [Hi ->].
  apply bind_ok in Hrun as (provisioned & s3 & Hp & Hrun).
  apply bind_ok in Hrun as (b & s4 & Hb & Hrun). apply require_ok in Hb as [-> ->].
  apply bind_ok in Hrun as ([k v] & s4 & Ht2 & Hrun). apply usable_token_ok in Ht2. cbn [snd] in Hrun.
  apply bind_ok in Hrun as ([] & s5 & Hc & Hrun). apply guard_throw_ok in Hc as [Hc ->].
  unfold mret, M_ret in Hrun. injection Hrun as <- <-. cbn [a_desk a_instance_id].
  apply orb_false_iff in Hg as [[[_ Hown]%orb_false_iff Hor]%orb_false_iff _].
  apply orb_false_iff in Hi as [[Hlow _]%orb_false_iff Hok].
  apply orb_false_iff in Hc as [[[Hid Hprov]%orb_false_iff Howner]%orb_false_iff Horigin].
  rewrite negb_false_iff in Hlow, Hok, Hid, Hprov, Howner, Horigin.
  apply String.eqb_eq in Hlow, Hid. rewrite bool_decide_eq_true in Howner, Horigin.
  destruct auth as [a|]; [|done]. destruct (ControlDb.deskOrigin v0) as [o|] eqn:Ho; [|done].
  destruct (deskOwner v0) as [own|] eqn:Hw; [|done]. unfold desk_call in Hp.
  destruct (provision _ _ _ _ _ _ _ _ _ _ _ _ _) as [x w] eqn:Hprovision. injection Hp as -> _.
  eapply provision_bound in Hprovision as [Hu Hbo];
    [|exact Ho|unfold absent in Hor; cbn in Hor; by apply negb_false_iff in Hor].
  cbn [owner agent_input] in Hbo. rewrite Hw in Hbo. exists a, v0, k, v, o, own.
  split_and!; try done. by exists (control (world s2)), k0.
Qed.

(** a heartbeat only speaks for a usable token. If it answers, the bearer's token row was unrevoked and
    unexpired at that time; the gateway was asked to authorise the token's key for exactly the models of the
    answer, with the stored legacy alias kept routable; and only the device's last-seen time and reported
    versions changed in the rows of the device. Otherwise neither the Desk is contacted nor is any device,
    token or code row written. *)
Theorem heartbeat_authorised auth version os now (s : EnrollState G) r s' :
  heartbeat sha256 others fails e auth version os now s = (r, s') →
  sent (world s') = sent (world s) ∧
  match r with
  | Ok h => ∃ a k db v n, auth = Some a ∧ find_by k_hash (sha256 a) (tokens db) = Some k ∧
      Token.usable (Some (validatable k)) now ∧
      resolveEnrollmentModel (Some (k_model k)) e = Ok (h_model h) ∧
      enrollmentManagedModels (h_model h) e = Ok (h_available_models h) ∧
      (∃ l, syncKeyModels (k_gatewayKeyId k) (managedKeyAuthorizationModels (k_model k) (h_available_models h)) (gateway s)
            = (Ok l, gateway s')) ∧
      control (world s') = on_devices (update_by v_id (k_device k) (set_seen now version os)) (others n db) ∧
      find_device (control (world s')) (k_device k) = Some (set_seen now version os v) ∧
      find_device (others n db) (k_device k) = Some v
  | Throw _ => ∃ l, control (world s') = foldl (λ db n, others n db) (control (world s)) l
  end.
Proof.
  unfold heartbeat. rewrite bind_guard. destruct (absent auth) eqn:Ha; [intros [= <- <-]; split; [done|by exists []]|].
  destruct auth as [a|]; [|done]. change (nullish (Some a) "") with a.
  destruct (query others fails (gets (λ db, find_by k_hash (sha256 a) (tokens db))) s) as [x s1] eqn:Hq.
  assert (sent (world s1) = sent (world s) ∧ gateway s1 = gateway s ∧
    control (world s1) = others (clock s) (control (world s))) as (Hs1 & Hg1 & Hc1).
  { unfold query, gets in Hq. destruct (fails (clock s)); by injection Hq as <- <-. }
  assert (∃ l, control (world s1) = foldl (λ db n, others n db) (control (world s)) l) as Hl1 by (by exists [clock s]).
  destruct x as [found|er]; [|rewrite (bind_throw _ _ _ _ _ Hq); by intros [= <- <-]].
  rewrite (bind_step _ _ _ _ _ Hq), bind_lift. apply query_read in Hq as [-> _].
  set (found := find_by _ _ _).
  destruct (Token.assertTokenUsable (validatable <$> found) now e None) as [[]|er] eqn:Hu; [|by intros [= <- <-]].
  apply Token.usable_ok in Hu. destruct found as [k|] eqn:Hk; [|by destruct Hu as (? & ? & _)].
  cbn [require]. rewrite ret_bind, bind_lift.
  destruct (resolveEnrollmentModel _ _) as [m|er] eqn:Hm; [|by intros [= <- <-]]. rewrite bind_lift.
  destruct (enrollmentManagedModels m e) as [ms|er] eqn:Hms; [|by intros [= <- <-]].
  unfold gateway_call. unfold mbind at 1, M_bind at 1. rewrite Hg1.
  destruct (syncKeyModels _ _ (gateway s)) as [[l|er] g] eqn:Hsync; [|by intros [= <- <-]].
  match goal with |- (_ ≫= _) ?st = _ → _ => set (s2 := st) end.
  destruct (query others fails (update_device (k_device k) (set_seen now version os)) s2) as [x s3] eqn:Hq.
  assert (sent (world s3) = sent (world s) ∧ gateway s3 = g ∧ match x with
    | Ok _ => ∃ v, control (world s3) = on_devices (update_by v_id (k_device k) (set_seen now version os))
                (others (clock s1) (control (world s1))) ∧
              find_device (others (clock s1) (control (world s1))) (k_device k) = Some v
    | Throw _ => control (world s3) = others (clock s1) (control (world s1)) end) as (Hs3 & Hg3 & Hc3).
  { unfold query, update_device in Hq. cbn [s2 clock world control set_control gateway] in Hq.
    destruct (fails (clock s1)); [by injection Hq as <- <-|].
    destruct (find_device _ (k_device k)) as [v|] eqn:Hv; injection Hq as <- <-; [|done].
    cbn [world control sent set_control gateway]. split_and!; [done..|]. by exists v. }
  destruct x as [[]|er].
  - rewrite (bind_step _ _ _ _ _ Hq). intros [= <- <-]. split; [done|]. destruct Hc3 as (v & Hc3 & Hv).
    exists a, k, (control (world s1)), v, (clock s1). split_and!; [done..|by exists l; rewrite Hg3|done| |done].
    rewrite Hc3. unfold find_device in *. cbn [devices on_devices]. rewrite find_by_update by done.
    by rewrite decide_True, Hv.
  - rewrite (bind_throw _ _ _ _ _ Hq). intros [= <- <-]. split; [done|].
    exists [clock s; clock s1]. cbn [foldl]. congruence.
Qed.
End sessions.

(** * Witnesses *)

Definition demo_code : EnrollCode :=
  {| ec_id := "c1"; ec_org := "o1"; ec_code := "secret"; ec_model := "m"; ec_reasoningEffort := ""; ec_baseUrl := None;
     ec_expiresAt := 1000; ec_usedAt := None;
     ec_policy := {| col_tokenTtlMinutes := Some 60%Z; col_tokenNeverExpires := false; col_budgetLimits := JArr [];
                     col_rpmLimit := None; col_tpmLimit := None |};
     ec_person := Some "p1" |}.
Definition demo_device : DeviceInfo :=
  {| di_name := "mac"; di_os := "darwin"; di_version := "1.0"; di_clientKind := "hara" |}.
Definition demo_enroll_db : ControlDB :=
  {| orgs := [demo_org];
     persons := [{| pe_id := "p1"; pe_org := "o1"; pe_email := "a@b"; pe_name := "" |}]; bindings := []; codes := [demo_code];
     devices := []; tokens := []; vault := {| secrets := []; systemAudits := [] |}; audits := [] |}.
Definition demo_start : EnrollState Mock.State :=
  {| world := {| control := demo_enroll_db; sent := []; prepared_seen := false |};
     gateway := {| Mock.spend := ∅; Mock.models := ∅; Mock.issued := 0 |}; clock := 0; locals := no_locals |}.
Definition demo_ids (n : nat) (prefix : string) : string := prefix +:+ pretty n.
Definition demo_enroll (with_desk : bool) : M (EnrollState Mock.State) EnrollResult :=
  enroll (H := Mock.adapter demo_ids) (λ _, false) demo_url (λ _ _, None) demo_lookup desk_json (λ s, s) demo_kms
    demo_desk nobody (λ _, false) demo_targets with_desk true (λ _, None) None "secret" "d1" demo_device 500.

Lemma nobody_separate i ci now : separate i ci now nobody.
Proof. by split. Qed.
Lemma demo_enroll_fresh : fresh (H0 := Mock.laws demo_ids) nobody "d1" "c1" "secret" demo_start.
Proof. split; [done|done|apply (bool_decide_unpack _); by vm_compute|done|by intros c [= <-]]. Qed.

(** The Desk refuses the registration and confirms the revocation: everything is undone and the code is free. *)
Lemma enroll_strands_nothing_witness : ∃ s',
  demo_enroll true demo_start = (Throw (DeskProvisioningFailure true "https://a.example"), s') ∧
  ec_usedAt <$> find_code "c1" (control (world s')) = Some None ∧
  (no_key (H0 := Mock.laws demo_ids) "d1" demo_start s' ∨ find_device (control (world s')) "d1" ≠ None) ∧
  (desk_clear desk_json demo_desk "d1" (sent (world demo_start)) (sent (world s')) ∨
   ∃ t, desk_recorded "d1" t (sent (world demo_start)) (sent (world s')) (control (world s'))) ∧
  ((∃ c, find_code "c1" (control (world s')) = Some c ∧ ec_usedAt c = Some 500%Z) ∨
   gone (H0 := Mock.laws demo_ids) desk_json demo_desk "d1" demo_start s').
Proof.
  eexists. split; [vm_compute; reflexivity|]. split; [reflexivity|].
  apply (enroll_strands_nothing (H0 := Mock.laws demo_ids) (λ _, false) demo_url (λ _ _, None) demo_lookup desk_json
    (λ s, s) demo_kms demo_desk nobody (λ _, false) demo_targets true (λ _, None) None "d1" "c1" 500
    (nobody_separate _ _ _) eq_refl "secret" demo_device demo_start (DeskProvisioningFailure true "https://a.example"));
    [vm_compute; reflexivity|apply demo_enroll_fresh].
Defined.

(** Without a Desk the enrollment succeeds. *)
Lemma enroll_complete_witness : ∃ r s', demo_enroll false demo_start = (Ok r, s') ∧ device_token r = "sk-hara-mock-0" ∧
  ∃ p s0, acceptable_code 500 "secret" p ∧ ec_id (p_code p) = "c1" ∧ gateway s0 = gateway demo_start ∧
    sent (world s0) = sent (world demo_start) ∧
    enrolled (H0 := Mock.laws demo_ids) (λ s, s) (λ _, None) "d1" "c1" 500 p demo_device s0 s' r.
Proof.
  eexists _, _. split; [vm_compute; reflexivity|]. split; [reflexivity|].
  apply (enroll_complete (H0 := Mock.laws demo_ids) (λ _, false) demo_url (λ _ _, None) demo_lookup desk_json
    (λ s, s) demo_kms demo_desk nobody (λ _, false) demo_targets false (λ _, None) None "d1" "c1" 500
    (nobody_separate _ _ _) eq_refl "secret" demo_device demo_start);
    [vm_compute; reflexivity|apply demo_enroll_fresh].
Defined.

(** An enrolled device with a Desk, and a Desk that registers its Agents. *)
Definition demo_token : DeviceToken :=
  {| k_device := "d1"; k_hash := "x"; k_gatewayKeyId := "d1"; k_model := "m"; k_reasoningEffort := "";
     k_expiresAt := Some 900%Z; k_revokedAt := None; k_budgetLimits := JArr []; k_rpmLimit := None; k_tpmLimit := None; k_createdAt := 0 |}.
Definition demo_enrolled : EnrollState Mock.State :=
  {| world := {| control := on_tokens (λ _, [demo_token]) (on_devices (λ _, [demo_desk_device]) demo_enroll_db);
                 sent := []; prepared_seen := false |};
     gateway := gateway demo_start; clock := 0; locals := no_locals |}.
Definition demo_registry (_ : list (string * json)) (_ : nat) (_ : string) (_ : json) : res Response :=
  Ok {| status_ := 200; location := None; content_length := Some "10"; text := Ok "registered" |}.
Definition registry_json (s : string) : option json :=
  if String.eqb s "registered" then Some (JObj
    [("realmId", JStr "o1"); ("provisioningId", JStr "control_x"); ("protocolVersion", JNum 1);
     ("owner", JStr "a@b"); ("client", JStr "hara-cli");
     ("device", JObj [("installationId", JStr "d1"); ("revoked", JBool false)]); ("token", JStr "t");
     ("credentialGeneration", JNum 2); ("agentId", JStr "agent1")]) else None.
Definition demo_request : AgentRequest :=
  {| ar_clientKind := "hara-cli"; ar_instanceId := Some " second "; ar_name := None |}.

Lemma agent_credential_current_witness : ∃ r s',
  provisionDeskAgent (λ _, false) demo_url (λ _ _, None) demo_lookup registry_json
    (λ _, "x") demo_kms demo_registry nobody (λ _, false) demo_targets true true (λ _, None)
    (Some "bearer") demo_request 100 200 demo_enrolled = (Ok r, s') ∧ token (a_desk r) = "t" ∧
  ∃ a v0 k v o own, Some "bearer" = Some a ∧ authorises (λ _, "x") a 200 (control (world s')) k v ∧ v_id v = v_id v0 ∧
    isSome (deskProvisionedAt v) = true ∧ ControlDb.deskOrigin v = Some o ∧ deskOwner v = Some own ∧
    deskOrigin demo_url (JStr o) = Ok (pb_url (a_desk r)) ∧
    bounded own "Desk owner" 256 = Ok (pb_owner (a_desk r)) ∧
    (∃ db k0, authorises (λ _, "x") a 100 db k0 v0) ∧ a_instance_id r = toLowerCase (a_instance_id r) ∧
    instance_ok (a_instance_id r) = true.
Proof.
  eexists _, _. split; [vm_compute; reflexivity|]. split; [reflexivity|].
  apply (agent_credential_current (λ _, false) demo_url (λ _ _, None) demo_lookup
    registry_json (λ _, "x") demo_kms demo_registry nobody (λ _, false) demo_targets true true (λ _, None)
    (Some "bearer") demo_request 100 200 demo_enrolled).
  vm_compute. reflexivity.
Defined.

Lemma heartbeat_authorised_witness : ∃ h s',
  heartbeat (H := Mock.adapter demo_ids) (λ _, "x") nobody (λ _, false) (λ _, None) (Some "bearer") (Some "2.0") None 100
    demo_enrolled = (Ok h, s') ∧
  sent (world s') = sent (world demo_enrolled) ∧
  ∃ a k db v n, Some "bearer" = Some a ∧ find_by k_hash "x" (tokens db) = Some k ∧
    Token.usable (Some (validatable k)) 100 ∧
    resolveEnrollmentModel (Some (k_model k)) (λ _, None) = Ok (h_model h) ∧
    enrollmentManagedModels (h_model h) (λ _, None) = Ok (h_available_models h) ∧
    (∃ l, @syncKeyModels _ (Mock.adapter demo_ids) (k_gatewayKeyId k)
            (managedKeyAuthorizationModels (k_model k) (h_available_models h)) (gateway demo_enrolled)
          = (Ok l, gateway s')) ∧
    control (world s') = on_devices (update_by v_id (k_device k) (set_seen 100 (Some "2.0") None)) (nobody n db) ∧
    find_device (control (world s')) (k_device k) = Some (set_seen 100 (Some "2.0") None v) ∧
    find_device (nobody n db) (k_device k) = Some v.
Proof.
  eexists _, _. split; [vm_compute; reflexivity|].
  refine (heartbeat_authorised (H := Mock.adapter demo_ids) (λ _, "x") nobody (λ _, false) (λ _, None) (Some "bearer")
    (Some "2.0") None 100 demo_enrolled (Ok _) _ _).
  vm_compute. reflexivity.
Defined.
