(* ===== verification/Admin.v ===== *)
(** Fleet administration ([src/admin/admin.service.ts], [src/admin/admin.controller.ts]): organization
    units, one-time enrollment codes, the accountable person of a device, and the two-phase revocation of
    a device. The read-only fleet and usage views are in [Fleet]. *)
From S2P Require Import Prelude Js Table AuditStore Crypto OrgTree Ssrf KeyPolicy ModelPolicy Access Secrets ControlDb Bindings Gateway Desk Services.
Local Open Scope nat_scope.

(** * Data *)

Record CodeOptions := { co_policy : AccessKeyPolicyInput; co_reasoningEffort : option string }.
Record CreatedCode := {
  cc_code : string; cc_model : string; cc_reasoningEffort : string; cc_models : list string; cc_expiresAt : Z;
  cc_accessPolicy : StoredAccessKeyPolicy }.
Record RevokeResult := { revoked : nat; deskRevoked : option bool }.
Record BoundPerson := { bp_deviceId : string; bp_person : Person }.

Definition isGlobalOperator (actor : Guard.AuthedUser) : bool :=
  Guard.viaSharedKey actor || match Guard.role actor with Guard.SUPERADMIN => true | _ => false end.
Definition actor_type (actor : Guard.AuthedUser) : string := if Guard.viaSharedKey actor then "shared-key" else "admin".
Definition denied : exn := ForbiddenException "organization access denied".
Definition type_str (t : OrgUnitType) : string :=
  match t with GROUP => "GROUP" | COMPANY => "COMPANY" | DEPARTMENT => "DEPARTMENT" | TEAM => "TEAM" end.

(** [orderBy: [{ name: "asc" }, { createdAt: "asc" }]] on rows in creation order: a stable sort. *)
Definition by_name : list OrgTree.Organization → list OrgTree.Organization :=
  stable_sort (λ o x, String.ltb (OrgTree.name o) (OrgTree.name x)).

(** * Rows *)

Definition on_orgs (f : list OrgTree.Organization → list OrgTree.Organization) (db : ControlDB) : ControlDB :=
  {| orgs := f (orgs db); persons := persons db; bindings := bindings db; codes := codes db;
     devices := devices db; tokens := tokens db; vault := vault db; audits := audits db |}.
Definition create_code (c : EnrollCode) : M ControlDB unit := λ db,
  if existsb (λ x, String.eqb (ec_code x) (ec_code c) || String.eqb (ec_id x) (ec_id c)) (codes db)
  then (Throw (PrismaError "P2002"), db)
  else (Ok tt, on_codes (λ l, l ++ [c]) db).
Definition with_person (p : string) (v : Device) : Device :=
  {| v_id := v_id v; v_org := v_org v; v_name := v_name v; v_os := v_os v; v_haraVersion := v_haraVersion v;
     v_lastSeenAt := v_lastSeenAt v; v_enrollCode := v_enrollCode v; v_person := Some p;
     revocationRequestedAt := revocationRequestedAt v; revocationCompletedAt := revocationCompletedAt v;
     deskProvisionedAt := deskProvisionedAt v; deskCleanupPendingAt := deskCleanupPendingAt v;
     deskOwner := deskOwner v; ControlDb.deskOrigin := ControlDb.deskOrigin v |}.
Definition code_person (p : string) (c : EnrollCode) : EnrollCode :=
  {| ec_id := ec_id c; ec_org := ec_org c; ec_code := ec_code c; ec_model := ec_model c;
     ec_reasoningEffort := ec_reasoningEffort c; ec_baseUrl := ec_baseUrl c; ec_expiresAt := ec_expiresAt c;
     ec_usedAt := ec_usedAt c; ec_policy := ec_policy c; ec_person := Some p |}.
Definition with_revocation (requested completed : option Z) (v : Device) : Device :=
  {| v_id := v_id v; v_org := v_org v; v_name := v_name v; v_os := v_os v; v_haraVersion := v_haraVersion v;
     v_lastSeenAt := v_lastSeenAt v; v_enrollCode := v_enrollCode v; v_person := v_person v;
     revocationRequestedAt := requested; revocationCompletedAt := completed;
     deskProvisionedAt := deskProvisionedAt v; deskCleanupPendingAt := deskCleanupPendingAt v;
     deskOwner := deskOwner v; ControlDb.deskOrigin := ControlDb.deskOrigin v |}.
Definition with_revoked (t : Z) (k : DeviceToken) : DeviceToken :=
  {| k_device := k_device k; k_hash := k_hash k; k_gatewayKeyId := k_gatewayKeyId k; k_model := k_model k;
     k_reasoningEffort := k_reasoningEffort k; k_expiresAt := k_expiresAt k; k_revokedAt := Some t;
     k_budgetLimits := k_budgetLimits k; k_rpmLimit := k_rpmLimit k; k_tpmLimit := k_tpmLimit k;
     k_createdAt := k_createdAt k |}.
(** [updateMany]: the changed rows are counted. *)
Definition update_devices (hit : Device → bool) (f : Device → Device) : M ControlDB nat := λ db,
  (Ok (length (filter (λ v, hit v = true) (devices db))), on_devices (map (λ v, if hit v then f v else v)) db).
Definition update_tokens (hit : DeviceToken → bool) (f : DeviceToken → DeviceToken) : M ControlDB nat := λ db,
  (Ok (length (filter (λ k, hit k = true) (tokens db))), on_tokens (map (λ k, if hit k then f k else k)) db).

(** * The service *)

Section admin.
Context (isIPv6 : string → bool) (URL : string → option url) (resolve : string → string → option string)
  (lookup_at : nat → string → res (list string)) (JSON_parse : string → option json) (kms : KmsAdapter).
Context (respond : list (string * json) → nat → string → json → res Response).
Context (others : nat → ControlDB → ControlDB) (fails : nat → bool).
Context (targets : list (string * Target)) (has_desk has_bindings : bool).
Context (e : env).
Context {G : Type} `{GatewayAdapter G}.
Local Abbreviation State := (Backend G unit).

Definition read {A} (f : ControlDB → A) : M State A := query others fails (gets f).
(** [audit.transact] *)
Definition transact {T} (action : string) (actor : Guard.AuthedUser) (m : M ControlDB (T * string * payload_arg))
    : M State T :=
  query others fails (audited action (actor_type actor) (Guard.id actor) m).

(** ** Organization units *)

Definition listOrgs (org : option string) (global : bool) : M State (list OrgTree.Organization) :=
  _ ← guard_throw (negb global && absent org) denied;
  read (λ db, by_name (if global then orgs db else filter (λ o, Some (OrgTree.id o) = org) (orgs db))).
(** The tree is read in one go. *)
Definition assertOrgTreeAccess (actor : Guard.AuthedUser) (target : string) : M State unit :=
  if isGlobalOperator actor then mret tt
  else
    _ ← guard_throw (absent (Guard.orgId actor)) denied;
    found ← read (λ db, ancestors (orgs db) target);
    chain ← lift found;
    guard_throw (negb (existsb (λ o, bool_decide (Some (OrgTree.id o) = Guard.orgId actor)) chain)) denied.
Definition insert_unit (i name : string) (type : OrgUnitType) (parent : option string)
    : M ControlDB (OrgTree.Organization * string * payload_arg) :=
  let unit_ := {| OrgTree.id := i; OrgTree.name := name; OrgTree.type := type; OrgTree.parentId := parent;
                  OrgTree.policy := JObj [] |} in
  db ← gets (λ db, db);
  _ ← guard_throw (negb (absent parent) && negb (isSome (find_by OrgTree.id (nullish parent "") (orgs db))))
        (BadRequestException ("parent org " +:+ dquote (nullish parent "") +:+ " not found"));
  _ ← guard_throw (isSome (find_by OrgTree.id i (orgs db))) (PrismaError "P2002");
  _ ← modify (on_orgs (λ l, l ++ [unit_]));
  mret (unit_, i, [("name", some_str name); ("type", some_str (type_str type));
                   ("parentId", Some (match parent with Some p => JStr p | None => JNull end))]).
Definition createOrg (i name : string) (actor : Guard.AuthedUser) (type : OrgUnitType) (parent : option string)
    : M State OrgTree.Organization :=
  let normalizedName := trim name in
  _ ← guard_throw (negb (truthy normalizedName) || (80 <? String.length normalizedName) || has_control normalizedName)
        (BadRequestException "organization name must be 1-80 printable characters");
  _ ← guard_throw (absent parent && negb (isGlobalOperator actor))
        (ForbiddenException "creating a root company requires SUPERADMIN");
  _ ← (if absent parent then mret tt else assertOrgTreeAccess actor (nullish parent ""));
  transact "org.create" actor (insert_unit i normalizedName type parent).
Definition orgAncestors (org : string) (actor : Guard.AuthedUser) : M State (list OrgTree.Organization) :=
  _ ← assertOrgTreeAccess actor org;
  found ← read (λ db, ancestors (orgs db) org);
  lift found.
Definition orgSubtree (org : string) (actor : Guard.AuthedUser) : M State (list string) :=
  _ ← assertOrgTreeAccess actor org;
  found ← read (λ db, descendants (orgs db) org);
  lift found.

(** ** Enrollment codes *)

Definition bad_request {A} (r : res A) : res A :=
  match r with Ok a => Ok a | Throw err => Throw (BadRequestException (exn_message err)) end.
Definition new_code (i code org m effort : string) (baseUrl : option string) (expires : Z) (person : string)
    (p : StoredAccessKeyPolicy) : EnrollCode :=
  {| ec_id := i; ec_org := org; ec_code := code; ec_model := m; ec_reasoningEffort := effort; ec_baseUrl := baseUrl;
     ec_expiresAt := expires; ec_usedAt := None; ec_policy := store_policy p; ec_person := Some person |}.
Definition insert_code (org person : string) (c : EnrollCode) (r : CreatedCode) (ttlMinutes : Q)
    : M ControlDB (CreatedCode * string * payload_arg) :=
  _ ← guard_throw (negb (truthy person)) (BadRequestException "personId is required for company key accountability");
  db ← gets (λ db, db);
  found ← require (find_by pe_id person (persons db)) (BadRequestException "person not found");
  _ ← guard_throw (negb (String.eqb (pe_org found) org))
        (BadRequestException "enrollment person must belong to the same organization");
  _ ← create_code c;
  mret (r, org, [("model", some_str (cc_model r)); ("reasoningEffort", some_str (cc_reasoningEffort r));
                 ("models", Some (JArr (map JStr (cc_models r)))); ("ttlMinutes", Some (JNum ttlMinutes));
                 ("personId", some_str person); ("accessPolicy", Some (policy_json (cc_accessPolicy r)))]).
(** [i] and [code] are the drawn identifier and one-time code. *)
Definition createEnrollCode (i code org model : string) (baseUrl : option string) (ttlMinutes : Q) (person : string)
    (actor : Guard.AuthedUser) (options : CodeOptions) (now : Z) : M State CreatedCode :=
  _ ← guard_throw (negb (truthy (Guard.id actor))) (BadRequestException "authenticated audit actor is required");
  resolvedModel ← lift (bad_request (resolveEnrollmentModel (Some model) e));
  effort ← lift (bad_request (resolveEnrollmentReasoningEffort (co_reasoningEffort options) resolvedModel));
  policy ← lift (bad_request (normalizeAccessKeyPolicy (co_policy options) (Num (Token.deviceTokenTtlMinutes e))));
  models ← lift (enrollmentManagedModels resolvedModel e);
  let expires := Token.deviceTokenExpiry now ttlMinutes in
  transact "enroll_code.create" actor
    (insert_code org person (new_code i code org resolvedModel effort baseUrl expires person policy)
       {| cc_code := code; cc_model := resolvedModel; cc_reasoningEffort := effort; cc_models := models;
          cc_expiresAt := expires; cc_accessPolicy := policy |} ttlMinutes).
(** [AdminController.createEnrollCode] *)
Definition post_enroll_code (i code org : string) (model baseUrl : option string) (ttlMinutes : option Q) (person : string)
    (actor : Guard.AuthedUser) (options : CodeOptions) (now : Z) : M State CreatedCode :=
  _ ← lift (Guard.assertAdminOrgAccess actor org);
  _ ← guard_throw (nullish (in_tokenNeverExpires (co_policy options)) false && negb (isGlobalOperator actor))
        (ForbiddenException "non-expiring keys require SUPERADMIN");
  createEnrollCode i code org (nullish model "") baseUrl (nullish ttlMinutes (inject_Z 60)) person actor options now.

(** ** The accountable person of a device *)

Definition bind_person (v : Device) (person : Person) : M ControlDB (BoundPerson * string * payload_arg) :=
  n ← update_devices (λ x, String.eqb (v_id x) (v_id v) && String.eqb (v_org x) (v_org v) && negb (isSome (v_person x)))
        (with_person (pe_id person));
  _ ← guard_throw (negb (n =? 1)) (BadRequestException "device identity was bound concurrently; refresh and retry");
  _ ← when (negb (absent (v_enrollCode v))) (modify (on_codes (map (λ c,
        if bool_decide (Some (ec_id c) = v_enrollCode v) && String.eqb (ec_org c) (v_org v) && negb (isSome (ec_person c))
        then code_person (pe_id person) c else c))));
  mret ({| bp_deviceId := v_id v; bp_person := person |}, v_org v,
        [("deviceId", some_str (v_id v)); ("personId", some_str (pe_id person))]).
Definition bindDevicePerson (deviceId personId : string) (actor : Guard.AuthedUser) : M State BoundPerson :=
  device ← read (λ db, find_device db deviceId);
  person ← read (λ db, find_by pe_id personId (persons db));
  v ← require device (NotFoundException "device not found");
  _ ← lift (Guard.assertAdminOrgAccess actor (v_org v));
  p ← require person (NotFoundException "person not found");
  _ ← guard_throw (negb (String.eqb (pe_org p) (v_org v)))
        (BadRequestException "person and device must belong to the same organization");
  _ ← guard_throw (negb (absent (v_person v)) && negb (bool_decide (v_person v = Some personId)))
        (BadRequestException "device identity is already bound; revoke and re-enroll to change people");
  if bool_decide (v_person v = Some personId) then mret {| bp_deviceId := deviceId; bp_person := p |}
  else transact "device.person.bind" actor (bind_person v p).

(** ** Revocation *)

(** Local access ends: the request and the tokens are marked in one transaction. *)
Definition request_revocation (i org : string) (now : Z) : M ControlDB (bool * nat * string * payload_arg) :=
  claimed ← update_devices (λ v, String.eqb (v_id v) i && negb (isSome (revocationRequestedAt v)))
              (λ v, with_revocation (Some now) (revocationCompletedAt v) v);
  local ← update_tokens (λ k, String.eqb (k_device k) i && negb (isSome (k_revokedAt k))) (with_revoked now);
  mret (claimed =? 1, local, org,
        [("deviceId", some_str i); ("claimed", Some (JBool (claimed =? 1)));
         ("tokens", Some (JNum (inject_Z (Z.of_nat local))))]).
Fixpoint revoke_keys (l : list DeviceToken) : M State unit :=
  match l with
  | [] => mret tt
  | k :: l' => _ ← gateway_call (revokeKey (k_gatewayKeyId k)); revoke_keys l'
  end.
Definition revoke_desk (v : Device) : M State bool :=
  if desk_bound v then
    _ ← guard_throw (negb has_desk || absent (deskOwner v) || absent (ControlDb.deskOrigin v))
          (Error "Hara Desk revocation is unavailable for this provisioned device");
    _ ← desk_call (revokeInstallation isIPv6 URL resolve lookup_at JSON_parse kms respond targets has_bindings (v_org v)
          (nullish (deskOwner v) "") (v_id v) (ControlDb.deskOrigin v)
          (isSome (deskCleanupPendingAt v) && negb (isSome (deskProvisionedAt v))));
    mret true
  else mret false.
Definition complete_revocation (v : Device) (n : nat) (desk : bool) (now : Z)
    : M ControlDB (RevokeResult * string * payload_arg) :=
  let completedAt := match revocationRequestedAt v with
                     | Some t => if (now <? t)%Z then t else now | None => now end in
  db ← gets (λ db, db);
  _ ← require (find_device db (v_id v)) (PrismaError "P2025");
  _ ← modify (on_devices (update_by v_id (v_id v) (λ x,
        let y := with_revocation (revocationRequestedAt x) (Some completedAt) x in
        if desk then with_desk None None None None y else y)));
  mret ({| revoked := n; deskRevoked := Some desk |}, v_org v,
        [("deviceId", some_str (v_id v)); ("tokens", Some (JNum (inject_Z (Z.of_nat n)))); ("deskRevoked", Some (JBool desk))]).
Definition revokeDevice (deviceId : string) (user : Guard.AuthedUser) (now : Z) : M State RevokeResult :=
  found ← read (λ db, find_device db deviceId);
  match found with
  | None => mret {| revoked := 0; deskRevoked := None |}
  | Some dev =>
      _ ← lift (Guard.assertAdminOrgAccess user (v_org dev));
      _ ← when (negb (isSome (revocationRequestedAt dev)))
            (_ ← transact "device.revocation_requested" user (request_revocation deviceId (v_org dev) now); mret tt);
      again ← read (λ db, find_device db deviceId);
      match again with
      | None => mret {| revoked := 0; deskRevoked := None |}
      | Some dev =>
          l ← read (tokens_of deviceId);
          if isSome (revocationCompletedAt dev) then mret {| revoked := length l; deskRevoked := Some false |}
          else
            _ ← revoke_keys l;
            desk ← revoke_desk dev;
            transact "device.revocation_completed" user (complete_revocation dev (length l) desk now)
      end
  end.
End admin.

(** * Revocation *)

(** Other requests leave the device and its tokens alone. *)
Record apart (i : string) (others : nat → ControlDB → ControlDB) : Prop := {
  ap_device n db : find_device (others n db) i = find_device db i;
  ap_tokens n db : tokens_of i (others n db) = tokens_of i db }.
(** No token of the device authorises anything. *)
Definition all_revoked (i : string) (db : ControlDB) : Prop := Forall (λ k, isSome (k_revokedAt k) = true) (tokens_of i db).
Definition requested_of (now : Z) (v : Device) : Device :=
  if isSome (revocationRequestedAt v) then v else with_revocation (Some now) (revocationCompletedAt v) v.

Lemma tokens_of_map i f db : (∀ k, k_device (f k) = k_device k) →
  tokens_of i (on_tokens (map f) db) = map f (tokens_of i db).
Proof.
  intros Hf. unfold tokens_of. cbn [tokens on_tokens]. induction (tokens db) as [|k l IH]; [done|]. cbn [map].
  rewrite !filter_cons, Hf, IH. by case_decide.
Qed.

Lemma request_revocation_spec i org now db :
  ∃ x db', request_revocation i org now db = (Ok x, db') ∧
    find_device db' i = requested_of now <$> find_device db i ∧
    tokens_of i db' = map (λ k, if isSome (k_revokedAt k) then k else with_revoked now k) (tokens_of i db).
Proof.
  eexists _, _. split; [reflexivity|]. split.
  - unfold find_device. cbn [devices on_devices on_tokens]. rewrite find_by_map by (intros v; by destruct (_ && _)).
    destruct (find_by v_id i (devices db)) as [v|] eqn:Hv; [|done]. apply find_by_Some in Hv as [<- _]. simpl.
    rewrite String.eqb_refl. unfold requested_of. by destruct (isSome _).
  - rewrite tokens_of_map by (intros k; by destruct (_ && _)). apply map_ext_in. intros k Hk.
    apply list_elem_of_In, list_elem_of_filter in Hk as [<- _]. rewrite String.eqb_refl. by destruct (isSome _).
Qed.

Lemma bind_assoc {S A B C} (m : M S A) (k : A → M S B) (h : B → M S C) s :
  ((m ≫= k) ≫= h) s = (m ≫= (λ a, k a ≫= h)) s.
Proof. unfold mbind, M_bind. by destruct (m s) as [[?|?] ?]. Qed.

Lemma all_revoked_after now l :
  Forall (λ k, isSome (k_revokedAt k) = true) (map (λ k, if isSome (k_revokedAt k) then k else with_revoked now k) l).
Proof. apply Forall_map, Forall_true. intros k. simpl. by destruct (isSome (k_revokedAt k)) eqn:E. Qed.

Section revocation.
Context (isIPv6 : string → bool) (URL : string → option url) (resolve : string → string → option string)
  (lookup_at : nat → string → res (list string)) (JSON_parse : string → option json) (kms : KmsAdapter).
Context (respond : list (string * json) → nat → string → json → res Response).
Context (others : nat → ControlDB → ControlDB) (fails : nat → bool).
Context (targets : list (string * Target)) (has_desk has_bindings : bool).
Context {G : Type} `{GatewayLaws G}.
Context (i : string) (Hap : apart i others).
Local Abbreviation State := (Backend G unit).

(** A database call that leaves the device and its tokens alone. *)
Definition still (s s' : State) : Prop :=
  gateway s' = gateway s ∧ sent (world s') = sent (world s) ∧
  find_device (control (world s')) i = find_device (control (world s)) i ∧
  tokens_of i (control (world s')) = tokens_of i (control (world s)).
Lemma still_refl s : still s s.
Proof. done. Qed.
Lemma still_trans s1 s2 s3 : still s1 s2 → still s2 s3 → still s1 s3.
Proof. unfold still. intros (? & ? & ? & ?) (? & ? & ? & ?). split_and!; congruence. Qed.

Lemma read_still {A} (f : ControlDB → A) (s : State) r s' :
  read others fails f s = (r, s') → still s s' ∧ (∀ a, r = Ok a → a = f (control (world s'))).
Proof.
  unfold read. intros Hq. pose proof Hq as Hq'. apply query_spec in Hq' as [(Hg & _ & Hs & _) Hc]. unfold still.
  assert (control (world s') = others (clock s) (control (world s))) as Hdb.
  { destruct Hc as [(? & _ & ?)|Hc]; [done|]. unfold gets in Hc. by injection Hc. }
  split; [by rewrite Hdb, (ap_device _ _ Hap), (ap_tokens _ _ Hap)|].
  intros a ->. by apply query_read in Hq as [-> _].
Qed.

(** The local boundary: the revocation is requested and no token works any more, or nothing happened. *)
Lemma request_phase user org now (s : State) r s' :
  transact others fails "device.revocation_requested" user (request_revocation i org now) s = (r, s') →
  gateway s' = gateway s ∧ sent (world s') = sent (world s) ∧
  match r with
  | Ok _ => find_device (control (world s')) i = requested_of now <$> find_device (control (world s)) i ∧
      map k_gatewayKeyId (tokens_of i (control (world s'))) = map k_gatewayKeyId (tokens_of i (control (world s))) ∧
      all_revoked i (control (world s'))
  | Throw _ => still s s'
  end.
Proof.
  unfold transact. intros Hq. apply query_spec in Hq as [(Hg & _ & Hs & _) Hc]. split; [done|]. split; [done|].
  set (db := others (clock s) (control (world s))) in *.
  assert (find_device db i = find_device (control (world s)) i ∧ tokens_of i db = tokens_of i (control (world s))) as [Hd Ht]
    by (split; [apply (ap_device _ _ Hap)|apply (ap_tokens _ _ Hap)]).
  destruct Hc as [(er & -> & Hc)|Hc]; [unfold still; rewrite Hc; by split_and!|].
  destruct r as [x|er]; [|apply audited_throw in Hc; unfold still; rewrite Hc; by split_and!].
  apply audited_ok in Hc as (o & p & db1 & Hm & Hdb).
  destruct (request_revocation_spec i org now db) as (y & db2 & Hreq & Hd2 & Ht2).
  rewrite Hreq in Hm. injection Hm as _ <-. rewrite Hdb.
  change (find_device (record_event _ db2) i) with (find_device db2 i).
  change (tokens_of i (record_event _ db2)) with (tokens_of i db2). rewrite Hd2, Hd. split; [done|].
  unfold all_revoked. change (tokens_of i (record_event _ db2)) with (tokens_of i db2). rewrite Ht2, Ht.
  split; [|apply all_revoked_after]. rewrite map_map. apply map_ext. intros k. by destruct (isSome _).
Qed.

(** [for (const t of tokens) await gateway.revokeKey(t.gatewayKeyId)] *)
Lemma revoke_keys_spec l (s : State) r s' :
  revoke_keys l s = (r, s') → world s' = world s ∧
  (r = Ok tt → (∀ a, live (gateway s) a = false → live (gateway s') a = false) ∧
     Forall (λ k, live (gateway s') (k_gatewayKeyId k) = false) l).
Proof.
  revert s. induction l as [|k l IH]; intros s Hrun; [injection Hrun as <- <-; by split_and!|].
  cbn [revoke_keys] in Hrun. unfold mbind, M_bind, gateway_call in Hrun.
  destruct (revokeKey (k_gatewayKeyId k) (gateway s)) as [[u|er] g] eqn:Hk; [|injection Hrun as <- <-; by split].
  apply IH in Hrun as (Hw & Hall). cbn [world gateway] in Hw, Hall. split; [done|]. intros Hr.
  destruct (Hall Hr) as [Hdead Hl]. pose proof (revoke_dead _ _ _ _ Hk) as Hk0. split.
  - intros a Ha. apply Hdead. destruct (decide (a = k_gatewayKeyId k)) as [->|Hne]; [done|].
    by rewrite (revoke_frame _ _ _ _ _ Hk Hne).
  - constructor; auto.
Qed.

(** The Desk's last answer confirmed the revocation of the installation. *)
Definition desk_confirmed (v : Device) (requests : list (string * json)) : Prop :=
  ∃ o t own before response, ControlDb.deskOrigin v = Some o ∧ deskOrigin URL (JStr o) = Ok (url_ t) ∧
    requests = before ++ [(revoke_url t, revocation t (v_org v) own (trim (v_id v)))] ∧
    respond before 0 (revoke_url t) (revocation t (v_org v) own (trim (v_id v))) = Ok response ∧
    check_revocation JSON_parse response true = Ok tt.

Lemma revoke_desk_spec v (s : State) r s' :
  revoke_desk isIPv6 URL resolve lookup_at JSON_parse kms respond targets has_desk has_bindings v s = (r, s') →
  gateway s' = gateway s ∧ control (world s') = control (world s) ∧
  (∀ b, r = Ok b → b = desk_bound v ∧ (b = true → desk_confirmed v (sent (world s')))).
Proof.
  unfold revoke_desk. destruct (desk_bound v) eqn:Hb; [|intros [= <- <-]; split_and!; try done; by intros b [= <-]].
  rewrite bind_guard. destruct (negb has_desk || _ || _) eqn:Hg; [by intros [= <- <-]|].
  apply orb_false_iff in Hg as [[_ _]%orb_false_iff Ho].
  destruct (ControlDb.deskOrigin v) as [o|] eqn:Hor; [|done].
  assert (truthy o = true) as Ht by (unfold absent in Ho; cbn in Ho; by apply negb_false_iff in Ho).
  unfold mbind, M_bind, desk_call.
  destruct (revokeInstallation _ _ _ _ _ _ _ _ _ _ _ _ _ _ _) as [x w] eqn:Hr.
  apply revokeInstallation_spec in Hr as (Hc & _ & Hok).
  destruct x as [b|er]; intros [= <- <-]; cbn [world gateway]; (split; [done|]); (split; [done|]); [|done].
  intros b' [= <-]. split; [done|]. intros _.
  destruct (Hok o b eq_refl Ht eq_refl) as (_ & t & own & before & response & Hu & Hs & Hresp & Hcheck).
  exists o, t, own, before, response. split_and!; try done.
  revert Hcheck. destruct (_ && _); [done|]. apply check_revocation_weaken.
Qed.

(** The final transaction *)
Lemma complete_phase user v n desk now (s : State) r s' :
  v_id v = i → desk = desk_bound v →
  transact others fails "device.revocation_completed" user (complete_revocation v n desk now) s = (r, s') →
  gateway s' = gateway s ∧ sent (world s') = sent (world s) ∧
  tokens_of i (control (world s')) = tokens_of i (control (world s)) ∧
  match r with
  | Ok res => res = {| revoked := n; deskRevoked := Some desk |} ∧
      ∃ t, find_device (control (world s')) i = (λ x, let y := with_revocation (revocationRequestedAt x) (Some t) x in
        if desk then with_desk None None None None y else y) <$> find_device (control (world s)) i ∧
        (find_device (control (world s')) i ≠ None)
  | Throw _ => find_device (control (world s')) i = find_device (control (world s)) i
  end.
Proof.
  intros Hv Hdesk. unfold transact. intros Hq. apply query_spec in Hq as [(Hg & _ & Hs & _) Hc].
  split; [done|]. split; [done|]. set (db := others (clock s) (control (world s))) in *.
  assert (find_device db i = find_device (control (world s)) i ∧ tokens_of i db = tokens_of i (control (world s))) as [Hd Ht]
    by (split; [apply (ap_device _ _ Hap)|apply (ap_tokens _ _ Hap)]).
  destruct Hc as [(er & -> & Hc)|Hc]; [by rewrite Hc|].
  destruct r as [x|er]; [|apply audited_throw in Hc; by rewrite Hc].
  apply audited_ok in Hc as (o & p & db1 & Hm & ->). unfold complete_revocation, gets in Hm. rewrite Hv in Hm.
  unfold mbind at 1, M_bind at 1 in Hm. destruct (find_device db i) as [y|] eqn:Hy; [|done].
  cbn [require] in Hm. rewrite ret_bind in Hm. unfold modify, mbind, M_bind, mret, M_ret in Hm. injection Hm as <- _ _ <-.
  split; [done|]. split; [done|]. eexists.
  change (find_device (record_event ?e ?d) i) with (find_device d i).
  unfold find_device in *. cbn [record_event control_audit devices on_devices].
  rewrite find_by_update by (intros z; by destruct desk). rewrite decide_True, Hy by done. rewrite <-Hd.
  split; [reflexivity|done].
Qed.

(** The part of the row that a revocation does not touch before it completes. *)
Definition unrevoked (v : Device) : Device := with_revocation None None v.
Lemma requested_of_spec now v :
  isSome (revocationRequestedAt (requested_of now v)) = true ∧ unrevoked (requested_of now v) = unrevoked v ∧
  revocationCompletedAt (requested_of now v) = revocationCompletedAt v ∧ v_id (requested_of now v) = v_id v ∧
  desk_bound (requested_of now v) = desk_bound v.
Proof. unfold requested_of. by destruct (isSome (revocationRequestedAt v)) eqn:E. Qed.
Lemma confirmed_requested now v l : desk_confirmed (requested_of now v) l → desk_confirmed v l.
Proof. unfold requested_of. by destruct (isSome _). Qed.

(** Everything after the local boundary. *)
Lemma remote_revocation user now v (s : State) r s' :
  (again ← read others fails (λ db, find_device db i);
   match again with
   | None => mret {| revoked := 0; deskRevoked := None |}
   | Some dev =>
       l ← read others fails (tokens_of i);
       if isSome (revocationCompletedAt dev) then mret {| revoked := length l; deskRevoked := Some false |}
       else
         _ ← revoke_keys l;
         desk ← revoke_desk isIPv6 URL resolve lookup_at JSON_parse kms respond targets has_desk has_bindings dev;
         transact others fails "device.revocation_completed" user (complete_revocation dev (length l) desk now)
   end) s = (r, s') →
  find_device (control (world s)) i = Some v → isSome (revocationRequestedAt v) = true →
  tokens_of i (control (world s')) = tokens_of i (control (world s)) ∧
  ∃ v', find_device (control (world s')) i = Some v' ∧ isSome (revocationRequestedAt v') = true ∧
    match r with
    | Ok res => revoked res = length (tokens_of i (control (world s))) ∧ isSome (revocationCompletedAt v') = true ∧
        (isSome (revocationCompletedAt v) = true ∨
         Forall (λ k, live (gateway s') (k_gatewayKeyId k) = false) (tokens_of i (control (world s))) ∧
         desk_bound v' = false ∧ deskRevoked res = Some (desk_bound v) ∧
         (desk_bound v = true → desk_confirmed v (sent (world s'))))
    | Throw _ => v' = v
    end.
Proof.
  intros Hrun Hv Hreq. pose proof Hv as [Hid _]%find_by_Some.
  destruct (read others fails (λ db, find_device db i) s) as [x s1] eqn:Hq.
  destruct (read_still _ _ _ _ Hq) as [(Hg1 & Hs1 & Hd1 & Ht1) Hx].
  destruct x as [again|er]; [|rewrite (bind_throw _ _ _ _ _ Hq) in Hrun; injection Hrun as <- <-; split; [congruence|exists v; split_and!; congruence]].
  rewrite (bind_step _ _ _ _ _ Hq) in Hrun. specialize (Hx again eq_refl). rewrite Hd1, Hv in Hx. subst again. clear Hq.
  destruct (read others fails (tokens_of i) s1) as [x s2] eqn:Hq.
  destruct (read_still _ _ _ _ Hq) as [(Hg2 & Hs2 & Hd2 & Ht2) Hx].
  destruct x as [l|er]; [|rewrite (bind_throw _ _ _ _ _ Hq) in Hrun; injection Hrun as <- <-; split; [congruence|exists v; split_and!; congruence]].
  rewrite (bind_step _ _ _ _ _ Hq) in Hrun. specialize (Hx l eq_refl). clear Hq.
  assert (l = tokens_of i (control (world s))) as -> by congruence.
  destruct (isSome (revocationCompletedAt v)) eqn:Hcomp.
  { injection Hrun as <- <-. split; [congruence|]. exists v. split_and!; [congruence|done|done|done|by left]. }
  destruct (revoke_keys (tokens_of i (control (world s))) s2) as [x s3] eqn:Hk. pose proof (revoke_keys_spec _ _ _ _ Hk) as [Hw3 Hdead].
  destruct x as [[]|er].
  2: { rewrite (bind_throw _ _ _ _ _ Hk) in Hrun. injection Hrun as <- <-. rewrite Hw3. split; [congruence|].
       exists v. split_and!; congruence. }
  rewrite (bind_step _ _ _ _ _ Hk) in Hrun. destruct (Hdead eq_refl) as [_ Hall].
  match type of Hrun with (?A ≫= _) s3 = _ => destruct (A s3) as [x s4] eqn:Hdsk end.
  destruct (revoke_desk_spec _ _ _ _ Hdsk) as (Hg4 & Hc4 & Hok).
  destruct x as [desk|er].
  2: { rewrite (bind_throw _ _ _ _ _ Hdsk) in Hrun. injection Hrun as <- <-. rewrite Hc4, Hw3. split; [congruence|].
       exists v. split_and!; congruence. }
  rewrite (bind_step _ _ _ _ _ Hdsk) in Hrun. destruct (Hok desk eq_refl) as [Hdesk Hconf].
  destruct (complete_phase _ _ _ _ _ _ _ _ Hid Hdesk Hrun) as (Hg5 & Hs5 & Ht5 & Hres).
  rewrite Hc4, Hw3 in Ht5, Hres. split; [congruence|]. rewrite Hd2, Hd1, Hv in Hres. destruct r as [res|er].
  2: { exists v. by split_and!. }
  destruct Hres as [-> (t & Hfin & _)]. simpl in Hfin. eexists. split; [exact Hfin|]. cbn [revoked deskRevoked].
  split; [by destruct desk|]. split; [done|]. split; [by destruct desk|]. right. rewrite Hg5, Hg4. split; [done|].
  split; [destruct desk; [done|by rewrite Hdesk]|]. split; [by rewrite Hdesk|]. intros Hb. rewrite Hs5. apply Hconf. congruence.
Qed.

Lemma revokeDevice_spec user now v (s : State) r s' :
  revokeDevice isIPv6 URL resolve lookup_at JSON_parse kms respond others fails targets has_desk has_bindings i user now s
    = (r, s') →
  find_device (control (world s)) i = Some v →
  (isSome (revocationRequestedAt v) = true → all_revoked i (control (world s))) →
  (still s s' ∧ ∀ res, r ≠ Ok res) ∨
  all_revoked i (control (world s')) ∧
  map k_gatewayKeyId (tokens_of i (control (world s'))) = map k_gatewayKeyId (tokens_of i (control (world s))) ∧
  ∃ v', find_device (control (world s')) i = Some v' ∧ isSome (revocationRequestedAt v') = true ∧
    match r with
    | Ok res => revoked res = length (tokens_of i (control (world s))) ∧ isSome (revocationCompletedAt v') = true ∧
        (isSome (revocationCompletedAt v) = true ∨
         Forall (λ k, live (gateway s') (k_gatewayKeyId k) = false) (tokens_of i (control (world s'))) ∧
         desk_bound v' = false ∧ deskRevoked res = Some (desk_bound v) ∧
         (desk_bound v = true → desk_confirmed v (sent (world s'))))
    | Throw _ => revocationCompletedAt v' = revocationCompletedAt v ∧ unrevoked v' = unrevoked v
    end.
Proof.
  intros Hrun Hv Hinv. unfold revokeDevice in Hrun.
  destruct (read others fails (λ db, find_device db i) s) as [x s1] eqn:Hq.
  destruct (read_still _ _ _ _ Hq) as [Hst1 Hx]. pose proof Hst1 as (Hg1 & Hs1 & Hd1 & Ht1).
  destruct x as [found|er]; [|rewrite (bind_throw _ _ _ _ _ Hq) in Hrun; injection Hrun as <- <-; by left].
  rewrite (bind_step _ _ _ _ _ Hq) in Hrun. specialize (Hx found eq_refl). rewrite Hd1, Hv in Hx. subst found. clear Hq.
  rewrite bind_lift in Hrun. destruct (Guard.assertAdminOrgAccess user (v_org v)) as [[]|er]; [|injection Hrun as <- <-; by left].
  unfold when in Hrun. destruct (isSome (revocationRequestedAt v)) eqn:Hreq; cbn [negb] in Hrun.
  - rewrite ret_bind in Hrun. rewrite <-Hd1 in Hv.
    destruct (remote_revocation _ _ _ _ _ _ Hrun Hv Hreq) as (Ht & v' & Hv' & Hreq' & Hr). right.
    rewrite Ht, Ht1. unfold all_revoked. rewrite Ht, Ht1. split; [by apply Hinv|]. split; [done|].
    exists v'. split; [done|]. split; [done|]. rewrite Ht1 in Hr. destruct r; [done|by subst v'].
  - rewrite bind_assoc in Hrun.
    match type of Hrun with (?A ≫= _) s1 = _ => destruct (A s1) as [x s2] eqn:Hq end.
    destruct (request_phase _ _ _ _ _ _ Hq) as (Hg2 & Hs2 & Hx). destruct x as [y|er].
    2: { rewrite (bind_throw _ _ _ _ _ Hq) in Hrun. injection Hrun as <- <-. left. split; [by eapply still_trans|done]. }
    rewrite (bind_step _ _ _ _ _ Hq), ret_bind in Hrun. destruct Hx as (Hd2 & Hids & Hall). rewrite Hd1, Hv in Hd2.
    destruct (requested_of_spec now v) as (Hrq & Hun & Hco & _ & Hbo).
    destruct (remote_revocation _ _ _ _ _ _ Hrun Hd2 Hrq) as (Ht & v' & Hv' & Hreq' & Hr). right.
    rewrite Hco, Hbo in Hr. unfold all_revoked. rewrite Ht. split; [done|]. split; [congruence|].
    exists v'. split; [done|]. split; [done|]. destruct r as [res|er]; [|by subst v'].
    assert (length (tokens_of i (control (world s2))) = length (tokens_of i (control (world s)))) as <-
      by (rewrite <-!(length_map k_gatewayKeyId), Hids, Ht1; done).
    destruct Hr as (? & ? & [?|(? & ? & ? & Hconf)]); split_and!; try done; [by left|right]. split_and!; try done.
    intros Hb. by apply (confirmed_requested now), Hconf.
Qed.

(** C15: a revocation that nobody else disturbs fails closed. Take a run of [revokeDevice] on a device during which
    other requests write neither the row of the device nor a token of it: no enrollment is creating it, no heartbeat
    of it and no second revocation runs beside it. And let the device be in a consistent state before: if a revocation
    of it is recorded already, all its tokens are revoked. (An enrollment that was still under way when an earlier
    revocation ran breaks that, see [Lifecycle.revocation_misses_enrolling_device], and nothing is claimed of it.)
    Then either the request is refused or fails before anything happened, at the gateway, at the Desk or to the rows
    of the device; or, whatever happens to the remote calls, the request is recorded and no token of the device is
    usable any more. If it returns, the revocation is complete: the count is that of the device's tokens, the gateway
    accepts none of their keys, a Desk installation has been revoked with the Desk's confirmation and is
    forgotten (unless an earlier run had completed already). If it throws, the device stays visibly pending
    with everything a retry needs: only the request was recorded. *)
Theorem revocation_fails_closed user now v (s : State) r s' :
  revokeDevice isIPv6 URL resolve lookup_at JSON_parse kms respond others fails targets has_desk has_bindings i user now s
    = (r, s') →
  find_device (control (world s)) i = Some v →
  (isSome (revocationRequestedAt v) = true → all_revoked i (control (world s))) →
  (still s s' ∧ ∀ res, r ≠ Ok res) ∨
  all_revoked i (control (world s')) ∧
  map k_gatewayKeyId (tokens_of i (control (world s'))) = map k_gatewayKeyId (tokens_of i (control (world s))) ∧
  ∃ v', find_device (control (world s')) i = Some v' ∧ isSome (revocationRequestedAt v') = true ∧
    match r with
    | Ok res => revoked res = length (tokens_of i (control (world s))) ∧ isSome (revocationCompletedAt v') = true ∧
        (isSome (revocationCompletedAt v) = true ∨
         Forall (λ k, live (gateway s') (k_gatewayKeyId k) = false) (tokens_of i (control (world s'))) ∧
         desk_bound v' = false ∧ deskRevoked res = Some (desk_bound v) ∧
         (desk_bound v = true → desk_confirmed v (sent (world s'))))
    | Throw _ => revocationCompletedAt v' = revocationCompletedAt v ∧ unrevoked v' = unrevoked v
    end.
Proof. apply revokeDevice_spec. Qed.
End revocation.

(** * Codes, people and units *)

Section changes.
Context (others : nat → ControlDB → ControlDB) (fails : nat → bool) (e : env).
Context {G : Type}.
Local Abbreviation State := (Backend G unit).

Lemma transact_ok {T} action user (m : M ControlDB (T * string * payload_arg)) (s : State) (x : T) s' :
  transact others fails action user m s = (Ok x, s') → ∃ org p db,
    m (others (clock s) (control (world s))) = (Ok (x, org, p), db) ∧
    control (world s') = record_event {| ev_org := org; ev_action := action; ev_actorType := actor_type user;
      ev_actorId := Guard.id user; ev_payload := p |} db.
Proof.
  unfold transact. intros Hq. apply query_spec in Hq as [_ [(? & ? & _)|Hq]]; [done|].
  by apply audited_ok in Hq.
Qed.

Lemma bad_request_ok {A} (r : res A) a : bad_request r = Ok a ↔ r = Ok a.
Proof. by destruct r. Qed.

(** an enrollment code is issued within the authority of its administrator and carries exactly what
    was approved. Issuing it means the administrator may act for the organization, and only a global operator
    gets a key that does not expire; the stored row is unused, belongs to that organization and to a
    person of it; redeeming it later re-reads the policy of the answer, whatever the deployment's default
    lifetime has become; and the audit trail of the organization ends with the event. *)
Theorem issued_code_carries_policy i code org model baseUrl ttl person user options now (s : State) r s' :
  post_enroll_code others fails e i code org model baseUrl ttl person user options now s = (Ok r, s') →
  Guard.assertAdminOrgAccess user org = Ok tt ∧
  (tokenNeverExpires (cc_accessPolicy r) = true → isGlobalOperator user = true) ∧
  ∃ c p ev, c ∈ codes (control (world s')) ∧ ec_id c = i ∧ ec_code c = code ∧ cc_code r = code ∧ ec_org c = org ∧
    ec_usedAt c = None ∧ ec_expiresAt c = cc_expiresAt r ∧ ec_model c = cc_model r ∧
    ec_person c = Some person ∧ find_by pe_id person (persons (control (world s'))) = Some p ∧ pe_org p = org ∧
    (∀ d, parseStoredAccessKeyPolicy (ec_policy c) d = Ok (cc_accessPolicy r)) ∧
    last (audits (control (world s'))) = Some ev ∧ ev_org ev = org ∧ ev_action ev = "enroll_code.create" ∧
    ev_actorId ev = Guard.id user.
Proof.
  unfold post_enroll_code. rewrite bind_lift. destruct (Guard.assertAdminOrgAccess user org) as [[]|]; [|done].
  rewrite bind_guard. destruct (_ && _) eqn:Hnever; [done|]. unfold createEnrollCode. rewrite bind_guard.
  destruct (negb (truthy (Guard.id user))); [done|]. rewrite bind_lift.
  destruct (bad_request (resolveEnrollmentModel _ e)) as [m|]; [|done]. rewrite bind_lift.
  destruct (bad_request (resolveEnrollmentReasoningEffort _ m)) as [effort|]; [|done]. rewrite bind_lift.
  destruct (bad_request _) as [policy|] eqn:Hp; [|done]. rewrite bad_request_ok in Hp. rewrite bind_lift.
  destruct (enrollmentManagedModels m e) as [models|]; [|done]. cbv zeta.
  intros Htx. apply transact_ok in Htx as (o & pl & db & Hm & ->). unfold insert_code in Hm.
  rewrite bind_guard in Hm. destruct (negb (truthy person)); [done|]. unfold gets in Hm.
  unfold mbind at 1, M_bind at 1 in Hm. set (db0 := others _ _) in Hm.
  destruct (find_by pe_id person (persons db0)) as [p|] eqn:Hper; [|done]. cbn [require] in Hm.
  rewrite ret_bind, bind_guard in Hm. destruct (String.eqb_spec (pe_org p) org) as [Horg|]; [|done]. cbn [negb] in Hm.
  unfold create_code in Hm. unfold mbind, M_bind in Hm. destruct (existsb _ _); [done|].
  unfold mret, M_ret in Hm. injection Hm as <- <- _ <-.
  split; [done|]. split.
  { cbn [cc_accessPolicy]. rewrite (normalize_never _ _ _ Hp). intros Hn. rewrite Hn in Hnever. cbn [andb] in Hnever.
    by apply negb_false_iff in Hnever. }
  eexists (new_code i code org m effort baseUrl _ person policy), p, _. cbn [record_event control_audit codes persons audits on_codes].
  split; [apply list_elem_of_In, in_or_app; right; by left|].
  split_and!; try done; [|by rewrite last_snoc|done..].
  intros d. cbn [ec_policy new_code cc_accessPolicy]. eapply parse_store, normalize_wf, Hp.
Qed.

(** A passed access check is a global operator, or an administrator whose company is an ancestor. *)
Lemma assertOrgTreeAccess_ok user target (s : State) u s' :
  assertOrgTreeAccess others fails user target s = (Ok u, s') →
  isGlobalOperator user = true ∨
  ∃ chain o, ancestors (orgs (control (world s'))) target = Ok chain ∧ o ∈ chain ∧ Guard.orgId user = Some (OrgTree.id o).
Proof.
  unfold assertOrgTreeAccess. destruct (isGlobalOperator user); [by left|]. rewrite bind_guard.
  destruct (absent _); [done|]. intros (found & s1 & Hf & Hk)%bind_ok. apply query_read in Hf as [-> _].
  rewrite bind_lift in Hk. destruct (ancestors (orgs (control (world s1))) target) as [chain|] eqn:Hc; [|done].
  apply guard_throw_ok in Hk as [Hk ->]. apply negb_false_iff, existsb_exists in Hk as (o & Hin & Ho).
  apply bool_decide_eq_true in Ho. right. exists chain, o. split; [done|]. split; [by apply list_elem_of_In|done].
Qed.

(** tenant administrators build only inside their own tree. A created unit has a bounded, printable
    name and a new identifier; its parent, if it has one, exists when the unit is inserted; and unless the
    actor is a global operator there is a parent, and the actor's company is the parent or one of its
    ancestors in the database the check read. *)
Theorem unit_under_own_tree i name user type parent (s : State) o s' :
  createOrg others fails i name user type parent s = (Ok o, s') →
  OrgTree.id o = i ∧ OrgTree.name o = trim name ∧ OrgTree.parentId o = parent ∧
  1 <= String.length (OrgTree.name o) <= 80 ∧ has_control (OrgTree.name o) = false ∧
  (∃ db, orgs (control (world s')) = orgs db ++ [o] ∧ find_by OrgTree.id i (orgs db) = None ∧
    (absent parent = false → ∃ p, find_by OrgTree.id (nullish parent "") (orgs db) = Some p)) ∧
  (isGlobalOperator user = false → absent parent = false ∧
    ∃ db chain a, ancestors (orgs db) (nullish parent "") = Ok chain ∧ a ∈ chain ∧
      Guard.orgId user = Some (OrgTree.id a)).
Proof.
  unfold createOrg. cbv zeta. rewrite bind_guard. destruct (_ || _ || _) eqn:Hname; [done|].
  apply orb_false_iff in Hname as [[Ht Hlen]%orb_false_iff Hctl]. rewrite bind_guard.
  destruct (absent parent && _) eqn:Hroot; [done|]. intros ([] & s1 & Hacc & Hrun)%bind_ok.
  apply transact_ok in Hrun as (org & p & db & Hm & ->). unfold insert_unit, gets in Hm. cbv zeta in Hm.
  unfold mbind at 1, M_bind at 1 in Hm. rewrite bind_guard in Hm. destruct (negb (absent parent) && _) eqn:Hpar; [done|].
  rewrite bind_guard in Hm. destruct (isSome (find_by _ i _)) eqn:Hnew; [done|].
  unfold modify, mbind, M_bind, mret, M_ret in Hm. injection Hm as <- _ _ <-. cbn [OrgTree.id OrgTree.name OrgTree.parentId].
  apply negb_false_iff, negb_true_iff, String.eqb_neq in Ht. apply Nat.ltb_ge in Hlen.
  split_and!; try done.
  - destruct (trim name); [done|]. simpl. lia.
  - eexists. split; [reflexivity|]. split; [by destruct (find_by _ i _)|]. intros Hp. rewrite Hp in Hpar. cbn [negb andb] in Hpar.
    apply negb_false_iff in Hpar. destruct (find_by _ _ _) as [q|]; [|done]. by exists q.
  - intros Hglob. rewrite Hglob in Hroot. destruct (absent parent) eqn:Hp; [done|]. split; [done|].
    apply assertOrgTreeAccess_ok in Hacc as [?|(chain & a & Hc & Ha & Hu)]; [congruence|].
    by exists (control (world s1)), chain, a.
Qed.

(** The binding of a person to a device, as rows. *)
Lemma bind_person_spec v p db x db' :
  bind_person v p db = (x, db') →
  (∀ j y q, find_device db j = Some y → v_person y = Some q →
     ∃ y', find_device db' j = Some y' ∧ v_person y' = Some q) ∧
  (∀ a, x = Ok a → a = ({| bp_deviceId := v_id v; bp_person := p |}, v_org v,
        [("deviceId", some_str (v_id v)); ("personId", some_str (pe_id p))]) ∧
     ∀ y, find_device db (v_id v) = Some y → v_org y = v_org v → v_person y = None →
       ∃ y', find_device db' (v_id v) = Some y' ∧ v_person y' = Some (pe_id p)).
Proof.
  intros Hrun. unfold bind_person, update_devices in Hrun. unfold mbind at 1, M_bind at 1 in Hrun. rewrite bind_guard in Hrun.
  set (hit := λ y, String.eqb (v_id y) (v_id v) && String.eqb (v_org y) (v_org v) && negb (isSome (v_person y))) in *.
  set (db1 := on_devices (map (λ y, if hit y then with_person (pe_id p) y else y)) db) in *.
  assert (∀ j y q, find_device db j = Some y → v_person y = Some q → ∃ y', find_device db1 j = Some y' ∧ v_person y' = Some q) as Hkeep.
  { intros j y q Hy Hq. unfold find_device, db1. cbn [devices on_devices].
    rewrite find_by_map by (intros z; by destruct (hit z)). unfold find_device in Hy. rewrite Hy. eexists. split; [reflexivity|].
    unfold hit. rewrite Hq. by rewrite andb_false_r. }
  destruct (length _ =? 1) eqn:Hone; cbn [negb] in Hrun.
  2: { injection Hrun as <- <-. split; [done|]. by intros a [=]. }
  assert (∃ db2, devices db2 = devices db1 ∧ db' = db2 ∧ ∀ a, x = Ok a →
    a = ({| bp_deviceId := v_id v; bp_person := p |}, v_org v,
         [("deviceId", some_str (v_id v)); ("personId", some_str (pe_id p))])) as (db2 & Hd2 & -> & Hx).
  { unfold when, modify, mbind, M_bind, mret, M_ret in Hrun.
    destruct (negb (absent (v_enrollCode v))); injection Hrun as <- <-; eexists; (split; [|split; [reflexivity|by intros a [= <-]]]); done. }
  split.
  - intros j y q Hy Hq. destruct (Hkeep j y q Hy Hq) as (y' & Hy' & Hq'). exists y'. split; [|done].
    unfold find_device in *. by rewrite Hd2.
  - intros a Ha. split; [by apply Hx|]. intros y Hy Ho Hn. exists (with_person (pe_id p) y). split; [|done].
    unfold find_device in *. rewrite Hd2. cbn [db1 devices on_devices].
    rewrite find_by_map by (intros z; by destruct (hit z)). rewrite Hy. simpl. unfold hit.
    apply find_by_Some in Hy as [Hid _]. by rewrite Hid, Ho, Hn, !String.eqb_refl.
Qed.

(** A read runs after the requests of others. *)
Lemma read_run {A} (f : ControlDB → A) (s : State) x s1 :
  read others fails f s = (x, s1) →
  control (world s1) = others (clock s) (control (world s)) ∧ ∀ a, x = Ok a → a = f (control (world s1)).
Proof.
  intros Hq. split; [|intros a ->; by apply query_read in Hq as [-> _]].
  apply query_spec in Hq as [_ [(? & _ & ?)|Hq]]; [done|]. unfold gets in Hq. by injection Hq.
Qed.

(** What a binding request leaves, in terms of the database [db] its last step ran on. *)
Definition bound_once (deviceId personId : string) (user : Guard.AuthedUser) (db : ControlDB) (s : State)
    (r : res BoundPerson) (s' : State) : Prop :=
  (∀ j v p, find_device db j = Some v → v_person v = Some p →
    ∃ v', find_device (control (world s')) j = Some v' ∧ v_person v' = Some p) ∧
  (∀ a, r = Ok a → bp_deviceId a = deviceId ∧ pe_id (bp_person a) = personId ∧
    Guard.assertAdminOrgAccess user (pe_org (bp_person a)) = Ok tt ∧
    ((∀ v, find_device (control (world s)) deviceId = Some v → v_person v ≠ Some "") →
     ∃ v, find_device (control (world s')) deviceId = Some v ∧ v_person v = Some personId)).
Lemma bound_once_refused i p user db s er s' : control (world s') = db → bound_once i p user db s (Throw er) s'.
Proof. intros <-. split; [by eauto|done]. Qed.

(** The transaction, for a device and a person of its organization that were read before. *)
Lemma bind_transaction user v p (s0 s : State) r s' :
  (∀ n db, find_device (others n db) (v_id v) = find_device db (v_id v)) →
  transact others fails "device.person.bind" user (bind_person v p) s = (r, s') →
  Guard.assertAdminOrgAccess user (v_org v) = Ok tt → pe_org p = v_org v →
  negb (absent (v_person v)) = false →
  find_device (control (world s0)) (v_id v) = Some v → find_device (control (world s)) (v_id v) = Some v →
  bound_once (v_id v) (pe_id p) user (others (clock s) (control (world s))) s0 r s'.
Proof.
  intros Hoth Hrun Hacc Horg Habs Hv0 Hv. unfold transact in Hrun. apply query_spec in Hrun as [_ Hrun].
  destruct Hrun as [(er & -> & Hc)|Hrun]; [by apply bound_once_refused|].
  destruct r as [a|er]; [|apply audited_throw in Hrun; by apply bound_once_refused].
  apply audited_ok in Hrun as (org & pl & db1 & Hm & Hdb). apply bind_person_spec in Hm as [Hkeep Hset].
  unfold bound_once. rewrite Hdb. split; [exact Hkeep|]. intros a' [= <-]. destruct (Hset _ eq_refl) as [[= -> _ _] Hdev].
  cbn [bp_deviceId bp_person]. rewrite Horg. split_and!; [done..|]. intros Hne.
  change (find_device (record_event ?ev ?d)) with (find_device d). apply Hdev with v; [by rewrite Hoth|done|].
  destruct (v_person v) as [q|] eqn:Hq; [|done]. destruct (Hne v Hv0). rewrite Hq. f_equal.
  apply negb_false_iff in Habs. unfold absent in Habs. cbn in Habs.
  by apply negb_true_iff, negb_false_iff, String.eqb_eq in Habs.
Qed.

(** the person accountable for a device is set at most once. Whatever the outcome, the request changes no
    existing binding: every device that has a person in the database it runs on (the one before it, after the
    requests of others) still has that person. When it returns, the caller may administer the device's
    organization and the requested person exists in it; and if the others left the device alone, its row has
    exactly that person. *)
Theorem identity_bound_once deviceId personId user (s : State) r s' :
  bindDevicePerson others fails deviceId personId user s = (r, s') →
  (∀ n db, find_device (others n db) deviceId = find_device db deviceId) →
  ∃ l, bound_once deviceId personId user (foldl (λ db n, others n db) (control (world s)) l) s r s'.
Proof.
  unfold bindDevicePerson. intros Hrun Hoth.
  destruct (read others fails (λ db, find_device db deviceId) s) as [x s1] eqn:Hq. destruct (read_run _ _ _ _ Hq) as [Hc1 Hx1].
  destruct x as [device|er]; [|rewrite (bind_throw _ _ _ _ _ Hq) in Hrun; injection Hrun as <- <-; exists [clock s]; by apply bound_once_refused].
  rewrite (bind_step _ _ _ _ _ Hq) in Hrun. clear Hq.
  destruct (read others fails (λ db, find_by pe_id personId (persons db)) s1) as [x s2] eqn:Hq. destruct (read_run _ _ _ _ Hq) as [Hc2 Hx2].
  assert (control (world s2) = foldl (λ db n, others n db) (control (world s)) [clock s; clock s1]) as Hc12 by (cbn; congruence).
  assert (∀ er, r = Throw er → s' = s2 → ∃ l, bound_once deviceId personId user (foldl (λ db n, others n db) (control (world s)) l) s r s')
    as Hthrow by (intros er -> ->; exists [clock s; clock s1]; by apply bound_once_refused).
  destruct x as [person|er]; [|rewrite (bind_throw _ _ _ _ _ Hq) in Hrun; injection Hrun as <- <-; by eapply Hthrow].
  rewrite (bind_step _ _ _ _ _ Hq) in Hrun. clear Hq. specialize (Hx1 _ eq_refl). specialize (Hx2 _ eq_refl).
  destruct device as [v|]; [|injection Hrun as <- <-; by eapply Hthrow]. cbn [require] in Hrun. rewrite ret_bind, bind_lift in Hrun.
  destruct (Guard.assertAdminOrgAccess user (v_org v)) as [[]|] eqn:Hacc; [|injection Hrun as <- <-; by eapply Hthrow].
  destruct person as [p|]; [|injection Hrun as <- <-; by eapply Hthrow]. cbn [require] in Hrun. rewrite ret_bind, bind_guard in Hrun.
  destruct (String.eqb_spec (pe_org p) (v_org v)) as [Horg|]; cbn [negb] in Hrun; [|injection Hrun as <- <-; by eapply Hthrow].
  rewrite bind_guard in Hrun. destruct (negb (absent (v_person v)) && _) eqn:Hbound; [injection Hrun as <- <-; by eapply Hthrow|].
  symmetry in Hx1, Hx2. pose proof Hx2 as [<- _]%find_by_Some. pose proof Hx1 as [<- _]%find_by_Some.
  rewrite Hc1, Hoth in Hx1. case_bool_decide as Hsame.
  - injection Hrun as <- <-. exists [clock s; clock s1]. rewrite <-Hc12. split; [by eauto|].
    intros a [= <-]. cbn [bp_deviceId bp_person]. rewrite Horg. split_and!; [done..|]. intros _. exists v.
    by rewrite Hc2, Hc1, !Hoth.
  - exists [clock s; clock s1; clock s2]. cbn [foldl]. rewrite <-Hc1, <-Hc2. cbn [negb] in Hbound. rewrite andb_true_r in Hbound.
    apply (bind_transaction user v p s s2); try done. by rewrite Hc2, Hoth, Hc1, Hoth.
Qed.
End changes.

(** * Witnesses *)

Definition demo_global : Guard.AuthedUser :=
  {| Guard.id := "root"; Guard.email := ""; Guard.role := Guard.SUPERADMIN; Guard.orgId := None; Guard.viaSharedKey := false |}.
Definition demo_key_token : DeviceToken :=
  {| k_device := "d1"; k_hash := "x"; k_gatewayKeyId := "d1"; k_model := "m"; k_reasoningEffort := "";
     k_expiresAt := Some 900%Z; k_revokedAt := None; k_budgetLimits := JArr []; k_rpmLimit := None; k_tpmLimit := None;
     k_createdAt := 0 |}.
Definition demo_admin_state : Backend Mock.State unit :=
  {| world := {| control := {| orgs := [demo_org]; persons := [{| pe_id := "p1"; pe_org := "o1"; pe_email := "a@b"; pe_name := "A" |}];
                               bindings := []; codes := []; devices := [demo_desk_device]; tokens := [demo_key_token];
                               vault := {| secrets := []; systemAudits := [] |}; audits := [] |};
                 sent := []; prepared_seen := false |};
     gateway := {| Mock.spend := {[ "d1" := 0%Q ]}; Mock.models := ∅; Mock.issued := 1 |}; clock := 0; locals := tt |}.
Definition demo_ids (n : nat) (prefix : string) : string := prefix +:+ pretty n.
Definition calm (_ : nat) : bool := false.

Lemma nobody_apart i : apart i nobody.
Proof. by split. Qed.

(** The Desk confirms: the revocation completes. *)
Lemma revocation_fails_closed_witness : ∃ res s',
  revokeDevice (H := Mock.adapter demo_ids) (λ _, false) demo_url (λ _ _, None) demo_lookup desk_json demo_kms demo_desk
    nobody calm demo_targets true true "d1" demo_admin 50 demo_admin_state = (Ok res, s') ∧ revoked res = 1 ∧
  deskRevoked res = Some true ∧
  ((still "d1" demo_admin_state s' ∧ ∀ y, Ok res ≠ Ok y) ∨
   all_revoked "d1" (control (world s')) ∧
   map k_gatewayKeyId (tokens_of "d1" (control (world s'))) = map k_gatewayKeyId (tokens_of "d1" (control (world demo_admin_state))) ∧
   ∃ v', find_device (control (world s')) "d1" = Some v' ∧ isSome (revocationRequestedAt v') = true ∧
     revoked res = length (tokens_of "d1" (control (world demo_admin_state))) ∧ isSome (revocationCompletedAt v') = true ∧
     (isSome (revocationCompletedAt demo_desk_device) = true ∨
      Forall (λ k, @live _ _ (Mock.laws demo_ids) (gateway s') (k_gatewayKeyId k) = false) (tokens_of "d1" (control (world s'))) ∧
      desk_bound v' = false ∧ deskRevoked res = Some (desk_bound demo_desk_device) ∧
      (desk_bound demo_desk_device = true → desk_confirmed demo_url desk_json demo_desk demo_desk_device (sent (world s'))))).
Proof.
  eexists _, _. split; [vm_compute; reflexivity|]. split; [reflexivity|]. split; [reflexivity|].
  refine (revocation_fails_closed (H0 := Mock.laws demo_ids) (λ _, false) demo_url (λ _ _, None) demo_lookup desk_json
    demo_kms demo_desk nobody calm demo_targets true true "d1" (nobody_apart _) demo_admin 50 demo_desk_device
    demo_admin_state (Ok _) _ _ _ _); [vm_compute; reflexivity|reflexivity|by intros [=]].
Defined.

Definition demo_options : CodeOptions := {| co_policy := sample_input; co_reasoningEffort := None |}.
Lemma issued_code_carries_policy_witness : ∃ r s',
  post_enroll_code nobody calm (λ _, None) "c9" "hara-abc" "o1" (Some "m") None None "p1" demo_admin demo_options 100
    demo_admin_state = (Ok r, s') ∧ cc_accessPolicy r = sample_policy ∧
  Guard.assertAdminOrgAccess demo_admin "o1" = Ok tt.
Proof.
  eexists _, _. split; [vm_compute; reflexivity|]. split; [reflexivity|].
  refine (proj1 (issued_code_carries_policy nobody calm (λ _, None) "c9" "hara-abc" "o1" (Some "m") None None "p1"
    demo_admin demo_options 100 demo_admin_state _ _ _)).
  vm_compute. reflexivity.
Defined.

Lemma unit_under_own_tree_witness : ∃ o s',
  createOrg nobody calm "u9" " Research " demo_admin DEPARTMENT (Some "o1") demo_admin_state = (Ok o, s') ∧
  OrgTree.id o = "u9" ∧ OrgTree.name o = "Research".
Proof.
  eexists _, _. split; [vm_compute; reflexivity|].
  match goal with |- _ ∧ ?b =>
    match b with OrgTree.name ?o = _ =>
      pose proof (unit_under_own_tree nobody calm "u9" " Research " demo_admin DEPARTMENT (Some "o1") demo_admin_state o) as Hu end end.
  destruct (Hu _ ltac:(vm_compute; reflexivity)) as (Hid & Hname & _). split; [exact Hid|rewrite Hname; reflexivity].
Defined.

Lemma identity_bound_once_witness : ∃ r s',
  bindDevicePerson nobody calm "d1" "p1" demo_admin demo_admin_state = (r, s') ∧ is_ok r = true ∧
  ∃ l, bound_once "d1" "p1" demo_admin (foldl (λ db n, nobody n db) (control (world demo_admin_state)) l) demo_admin_state r s'.
Proof.
  eexists _, _. split; [vm_compute; reflexivity|]. split; [reflexivity|].
  apply (identity_bound_once nobody calm "d1" "p1" demo_admin demo_admin_state); [vm_compute; reflexivity|done].
Defined.
