(* ===== verification/Lifecycle.v ===== *)
(** The life of a device across the components: what enrollment ([Enroll]) and revocation ([Admin])
    establish together, and a schedule of the two that leaves a usable token on a revoked device. *)
From S2P Require Import Prelude Js Table AuditStore Crypto Access KeyPolicy Ssrf Secrets ControlDb Bindings Gateway Desk Services Enroll Admin Litellm.
Local Open Scope nat_scope.

Section lockout.
Context (isIPv6 : string → bool) (URL : string → option url) (resolve : string → string → option string)
  (lookup_at : nat → string → res (list string)) (JSON_parse : string → option json)
  (sha256 : string → string) (kms : KmsAdapter).
Context (respond : list (string * json) → nat → string → json → res Response).
Context (others : nat → ControlDB → ControlDB) (fails : nat → bool).
Context (targets : list (string * Target)) (has_desk has_bindings : bool) (e : env).
Context {G : Type} `{GatewayLaws G}.
Context (i : string) (Hap : apart i others).

(** The bearer is a credential of the device, if it is one at all; no other request re-issues it. *)
Definition credential (a : string) (db : ControlDB) : Prop := ∀ k,
  find_by k_hash (sha256 a) (tokens db) = Some k → k_device k = i.

Lemma revoked_unusable a db k now :
  credential a db → all_revoked i db → find_by k_hash (sha256 a) (tokens db) = Some k →
  Token.assertTokenUsable (Some (validatable k)) now e None = Throw (UnauthorizedException "revoked or unknown token").
Proof.
  intros Hc Hr Hk. pose proof (Hc k Hk) as Hi. apply find_by_Some in Hk as [_ Hin].
  unfold all_revoked in Hr. rewrite Forall_forall in Hr. specialize (Hr k).
  unfold Token.assertTokenUsable. cbn [validatable Token.revokedAt]. rewrite Hr; [done|].
  unfold tokens_of. by apply list_elem_of_filter.
Qed.

(** A database without a usable token of the device, whatever the others do. *)
Definition locked (a : string) (db : ControlDB) : Prop := all_revoked i db ∧ credential a db.
Lemma read_locked {A} (f : ControlDB → A) a (s : EnrollState G) x s' :
  (∀ n db, credential a db → credential a (others n db)) → locked a (control (world s)) →
  query others fails (gets f) s = (x, s') →
  gateway s' = gateway s ∧ sent (world s') = sent (world s) ∧ locked a (control (world s')) ∧
  (∀ y, x = Ok y → y = f (control (world s'))).
Proof.
  intros Ho [Hr Hc] Hq. pose proof Hq as Hq'. apply query_spec in Hq' as [(Hg & _ & Hs & _) Hq'].
  assert (control (world s') = others (clock s) (control (world s))) as Hdb.
  { destruct Hq' as [(? & _ & ?)|Hm]; [done|]. unfold gets in Hm. by injection Hm. }
  split; [done|]. split; [done|]. split.
  - rewrite Hdb. split; [|by apply Ho]. unfold all_revoked. by rewrite (ap_tokens _ _ Hap).
  - intros y ->. by apply query_read in Hq as [-> _].
Qed.

Lemma heartbeat_locked a version os now (s : EnrollState G) r s' :
  (∀ n db, credential a db → credential a (others n db)) → locked a (control (world s)) →
  heartbeat sha256 others fails e (Some a) version os now s = (r, s') →
  is_ok r = false ∧ gateway s' = gateway s ∧ sent (world s') = sent (world s).
Proof.
  intros Ho Hl. unfold heartbeat. rewrite bind_guard. destruct (absent (Some a)); [by intros [= <- <-]|].
  change (nullish (Some a) "") with a.
  match goal with |- (?m ≫= _) s = _ → _ => destruct (m s) as [x s1] eqn:Hq end.
  destruct (read_locked _ _ _ _ _ Ho Hl Hq) as (Hg & Hs & [Hr Hc] & Hx).
  destruct x as [found|er]; [|rewrite (bind_throw _ _ _ _ _ Hq); by intros [= <- <-]].
  rewrite (bind_step _ _ _ _ _ Hq), bind_lift. rewrite (Hx found eq_refl). clear Hx.
  destruct (find_by k_hash (sha256 a) (tokens (control (world s1)))) as [k|] eqn:Hk; cbn [fmap option_fmap option_map].
  - rewrite (revoked_unusable a (control (world s1)) k now) by done. by intros [= <- <-].
  - by intros [= <- <-].
Qed.

Lemma usable_token_locked a now (s : EnrollState G) r s' :
  (∀ n db, credential a db → credential a (others n db)) → locked a (control (world s)) →
  usable_token sha256 others fails e a now s = (r, s') →
  is_ok r = false ∧ gateway s' = gateway s ∧ sent (world s') = sent (world s).
Proof.
  intros Ho Hl. unfold usable_token.
  match goal with |- (?m ≫= _) s = _ → _ => destruct (m s) as [x s1] eqn:Hq end.
  destruct (read_locked _ _ _ _ _ Ho Hl Hq) as (Hg & Hs & [Hr Hc] & Hx).
  destruct x as [found|er]; [|rewrite (bind_throw _ _ _ _ _ Hq); by intros [= <- <-]].
  rewrite (bind_step _ _ _ _ _ Hq), bind_lift. rewrite (Hx found eq_refl). clear Hx.
  unfold find_token. destruct (find_by k_hash (sha256 a) (tokens (control (world s1)))) as [k|] eqn:Hk;
    [|by intros [= <- <-]].
  cbn [mbind option_bind]. destruct (find_device (control (world s1)) (k_device k)) as [d|]; [|by intros [= <- <-]].
  change (validatable ∘ fst <$> (Some d ≫= λ v, Some (k, v))) with (Some (validatable k)).
  rewrite (revoked_unusable a (control (world s1)) k now) by done. by intros [= <- <-].
Qed.

Lemma agent_locked a input now later (s : EnrollState G) r s' :
  (∀ n db, credential a db → credential a (others n db)) → locked a (control (world s)) →
  provisionDeskAgent isIPv6 URL resolve lookup_at JSON_parse sha256 kms respond others fails targets has_desk has_bindings
    e (Some a) input now later s = (r, s') →
  is_ok r = false ∧ gateway s' = gateway s ∧ sent (world s') = sent (world s).
Proof.
  intros Ho Hl. unfold provisionDeskAgent. rewrite bind_guard. destruct (absent (Some a)); [by intros [= <- <-]|].
  change (nullish (Some a) "") with a. destruct (usable_token sha256 others fails e a now s) as [x s1] eqn:Hq.
  destruct (usable_token_locked _ _ _ _ _ Ho Hl Hq) as (Hx & ? & ?). destruct x as [?|er]; [done|].
  rewrite (bind_throw _ _ _ _ _ Hq). by intros [= <- <-].
Qed.

(** C25: a revoked device is locked out, if its revocation was not disturbed. Assume that other requests write
    neither the row of the device nor a token of it, during the revocation and after it, and that the device was
    consistent before: if a revocation was recorded already, all its tokens were revoked. (Without that it is false:
    [revocation_misses_enrolling_device] is a device that an enrollment was still creating when an earlier
    revocation ran.) Once [revokeDevice] has passed its local boundary, whether it then returned or threw, no
    credential of the device works any more: every later heartbeat and every request for a Desk Agent credential
    with a bearer whose hash is that of a token of the device, or of none, is refused, and neither the gateway nor
    the Desk hears of it. *)
Theorem revoked_device_locked_out user now v (s : Backend G unit) r s1 a clock' locals' :
  revokeDevice isIPv6 URL resolve lookup_at JSON_parse kms respond others fails targets has_desk has_bindings i user now s
    = (r, s1) →
  find_device (control (world s)) i = Some v →
  (isSome (revocationRequestedAt v) = true → all_revoked i (control (world s))) →
  ¬ still i s s1 ∨ is_ok r = true →
  (∀ n db, credential a db → credential a (others n db)) → credential a (control (world s1)) →
  let s2 : EnrollState G := {| world := world s1; gateway := gateway s1; clock := clock'; locals := locals' |} in
  (∀ version os t x s3, heartbeat sha256 others fails e (Some a) version os t s2 = (x, s3) →
     is_ok x = false ∧ gateway s3 = gateway s1 ∧ sent (world s3) = sent (world s1)) ∧
  (∀ input t t' x s3, provisionDeskAgent isIPv6 URL resolve lookup_at JSON_parse sha256 kms respond others fails targets
     has_desk has_bindings e (Some a) input t t' s2 = (x, s3) →
     is_ok x = false ∧ gateway s3 = gateway s1 ∧ sent (world s3) = sent (world s1)).
Proof.
  intros Hrun Hv Hinv Hpast Ho Hc s2.
  assert (all_revoked i (control (world s1))) as Hr.
  { destruct (revokeDevice_spec isIPv6 URL resolve lookup_at JSON_parse kms respond others fails targets has_desk
      has_bindings i Hap user now v s r s1 Hrun Hv Hinv) as [[Hst Hno]|[? _]]; [|done].
    destruct Hpast as [?|Hok]; [done|]. destruct r as [y|]; [by destruct (Hno y)|done]. }
  split.
  - intros version os t x s3. exact (heartbeat_locked a version os t s2 x s3 Ho (conj Hr Hc)).
  - intros input t t' x s3. exact (agent_locked a input t t' s2 x s3 Ho (conj Hr Hc)).
Qed.
End lockout.

(** * A revocation completes *)

Section completion.
Context (isIPv6 : string → bool) (URL : string → option url) (resolve : string → string → option string)
  (lookup_at : nat → string → res (list string)) (JSON_parse : string → option json) (kms : KmsAdapter).
Context (respond : list (string * json) → nat → string → json → res Response).
Context (others : nat → ControlDB → ControlDB) (fails : nat → bool).
Context (targets : list (string * Target)) (has_desk has_bindings : bool).
Context {G : Type} `{GatewayLaws G}.
Context (i : string) (Hap : apart i others).
Local Abbreviation State := (Backend G unit).

(** The services are back: the database answers, the gateway deletes what it is asked to, and the Desk, where an
    installation may exist, answers the revocation. *)
Record reachable_services (v : Device) : Prop := {
  rs_database n : fails n = false;
  rs_gateway k (g : G) : ∃ g', revokeKey k g = (Ok tt, g');
  rs_desk : desk_bound v = true → has_desk = true ∧ absent (deskOwner v) = false ∧ absent (ControlDb.deskOrigin v) = false ∧
    ∀ missing w, is_ok (revokeInstallation isIPv6 URL resolve lookup_at JSON_parse kms respond targets has_bindings (v_org v)
      (nullish (deskOwner v) "") (v_id v) (ControlDb.deskOrigin v) missing w).1 = true }.

Lemma read_answers v {A} (f : ControlDB → A) (s : State) : reachable_services v →
  ∃ s1, read others fails f s = (Ok (f (control (world s1))), s1) ∧ still i s s1.
Proof.
  intros Hr. unfold read, query, gets. rewrite (rs_database _ Hr).
  exists {| world := set_control (others (clock s) (control (world s))) (world s); gateway := gateway s; clock := S (clock s);
            locals := locals s |}.
  split; [reflexivity|]. unfold still. cbn [gateway world set_control sent control]. by rewrite (ap_device _ _ Hap), (ap_tokens _ _ Hap).
Qed.
Lemma transact_answers v {T} action user (m : M ControlDB (T * string * payload_arg)) (s : State) : reachable_services v →
  (∀ db, find_device db i = find_device (control (world s)) i → is_ok (m db).1 = true) →
  is_ok (transact others fails action user m s).1 = true.
Proof.
  intros Hr Hm. unfold transact, query. rewrite (rs_database _ Hr).
  specialize (Hm (others (clock s) (control (world s))) (ap_device _ _ Hap _ _)). unfold audited, transaction.
  unfold mbind, M_bind. destruct (m _) as [[[[a o] p]|er] db]; [done|done].
Qed.
Lemma revoke_keys_answers v l (s : State) : reachable_services v → ∃ s', revoke_keys l s = (Ok tt, s') ∧ world s' = world s.
Proof.
  intros Hr. revert s. induction l as [|k l IH]; intros s; [by exists s|]. cbn [revoke_keys].
  destruct (rs_gateway _ Hr (k_gatewayKeyId k) (gateway s)) as [g' Hg]. unfold mbind, M_bind, gateway_call. rewrite Hg.
  apply (IH {| world := world s; gateway := g'; clock := clock s; locals := locals s |}).
Qed.
Lemma revoke_desk_answers v (s : State) : reachable_services v →
  ∃ b s', revoke_desk isIPv6 URL resolve lookup_at JSON_parse kms respond targets has_desk has_bindings v s = (Ok b, s').
Proof.
  intros Hr. unfold revoke_desk. destruct (desk_bound v) eqn:Hb; [|by eexists _, _].
  destruct (rs_desk _ Hr Hb) as (Hd & Ho & Hu & Hok). rewrite bind_guard, Hd, Ho, Hu. cbn [negb orb].
  unfold mbind, M_bind, desk_call.
  specialize (Hok (isSome (deskCleanupPendingAt v) && negb (isSome (deskProvisionedAt v))) (world s)).
  destruct (revokeInstallation _ _ _ _ _ _ _ _ _ _ _ _ _ _ _) as [[b|er] w]; [by eexists _, _|done].
Qed.

(** The part after the local boundary answers. *)
Lemma remote_answers user now v (s : State) : reachable_services v →
  find_device (control (world s)) i = Some v →
  is_ok ((again ← read others fails (λ db, find_device db i);
   match again with
   | None => mret {| revoked := 0; deskRevoked := None |}
   | Some dev =>
       l ← read others fails (tokens_of i);
       if isSome (revocationCompletedAt dev) then mret {| revoked := length l; deskRevoked := Some false |}
       else
         _ ← revoke_keys l;
         desk ← revoke_desk isIPv6 URL resolve lookup_at JSON_parse kms respond targets has_desk has_bindings dev;
         transact others fails "device.revocation_completed" user (complete_revocation dev (length l) desk now)
   end) s).1 = true.
Proof.
  intros Hr Hv. pose proof Hv as [Hid _]%find_by_Some.
  destruct (read_answers v (λ db, find_device db i) s Hr) as (s1 & Hq & (_ & _ & Hd1 & _)).
  rewrite (bind_step _ _ _ _ _ Hq), Hd1, Hv. clear Hq.
  destruct (read_answers v (tokens_of i) s1 Hr) as (s2 & Hq & (_ & _ & Hd2 & _)). rewrite (bind_step _ _ _ _ _ Hq). clear Hq.
  destruct (isSome (revocationCompletedAt v)); [done|].
  destruct (revoke_keys_answers v (tokens_of i (control (world s2))) s2 Hr) as (s3 & Hq & Hw3).
  rewrite (bind_step _ _ _ _ _ Hq). clear Hq.
  destruct (revoke_desk_answers v s3 Hr) as (b & s4 & Hq). rewrite (bind_step _ _ _ _ _ Hq).
  destruct (revoke_desk_spec _ _ _ _ _ _ _ _ _ _ _ _ _ _ Hq) as (_ & Hc4 & _).
  apply (transact_answers v); [done|]. intros db Hdb. rewrite Hc4, Hw3, Hd2, Hd1, Hv in Hdb.
  unfold complete_revocation, gets. unfold mbind at 1, M_bind at 1. rewrite Hid, Hdb. done.
Qed.
Lemma services_requested now v : reachable_services v → reachable_services (requested_of now v).
Proof. intros [? ? ?]. unfold requested_of. destruct (isSome _); by split. Qed.

(** C16: a revocation completes as soon as the services are back. From any state in which the device exists, be it
    untouched or left with a pending revocation by failed attempts, one further request of an administrator of its
    organization, during which the database, the gateway and (where an installation may exist) the Desk answer,
    returns, and leaves the device with a completed revocation. *)
Theorem revocation_completes user now v (s : State) :
  find_device (control (world s)) i = Some v → Guard.assertAdminOrgAccess user (v_org v) = Ok tt →
  (isSome (revocationRequestedAt v) = true → all_revoked i (control (world s))) → reachable_services v →
  ∃ res s' v', revokeDevice isIPv6 URL resolve lookup_at JSON_parse kms respond others fails targets has_desk has_bindings i
      user now s = (Ok res, s') ∧
    find_device (control (world s')) i = Some v' ∧ isSome (revocationCompletedAt v') = true ∧ all_revoked i (control (world s')).
Proof.
  intros Hv Hacc Hinv Hr.
  destruct (revokeDevice isIPv6 URL resolve lookup_at JSON_parse kms respond others fails targets has_desk has_bindings i
    user now s) as [r s'] eqn:Hrun. assert (is_ok r = true) as Hok.
  - change r with (r, s').1. rewrite <-Hrun. clear Hrun. unfold revokeDevice.
    destruct (read_answers v (λ db, find_device db i) s Hr) as (s1 & Hq & (_ & _ & Hd1 & _)).
    rewrite (bind_step _ _ _ _ _ Hq), Hd1, Hv, bind_lift, Hacc. clear Hq. unfold when.
    destruct (isSome (revocationRequestedAt v)) eqn:Hreq; cbn [negb].
    + rewrite ret_bind. apply (remote_answers user now v); [done|congruence].
    + rewrite bind_assoc.
      match goal with |- is_ok (((?m ≫= _) s1).1) = true => destruct (m s1) as [x s2] eqn:Hq end.
      assert (is_ok x = true) as Hx.
      { change x with (x, s2).1. rewrite <-Hq. apply (transact_answers v); [done|]. intros db _.
        destruct (request_revocation_spec i (v_org v) now db) as (y & db' & -> & _). done. }
      destruct x as [y|]; [|done]. rewrite (bind_step _ _ _ _ _ Hq), ret_bind.
      destruct (request_phase _ _ _ Hap _ _ _ _ _ _ Hq) as (_ & _ & Hd2 & _). rewrite Hd1, Hv in Hd2.
      apply (remote_answers user now (requested_of now v)); [by apply services_requested|done].
  - destruct r as [res|]; [|done].
    destruct (revokeDevice_spec isIPv6 URL resolve lookup_at JSON_parse kms respond others fails targets has_desk
      has_bindings i Hap user now v s _ _ Hrun Hv Hinv) as [[_ Hno]|(Hall & _ & v' & Hv' & _ & _ & Hc & _)]; [by destruct (Hno res)|].
    by exists res, s', v'.
Qed.
End completion.

(** * A revocation during an enrollment *)

(** The administrator's revocation of device [d1], as one of the other requests. *)
Definition revoke_now (db : ControlDB) : ControlDB :=
  control (world (revokeDevice (H := Mock.adapter demo_ids) (λ _, false) demo_url (λ _ _, None) demo_lookup desk_json
    demo_kms demo_desk nobody calm demo_targets true true "d1" demo_global 500
    {| world := {| control := db; sent := []; prepared_seen := false |}; gateway := gateway demo_start; clock := 0;
       locals := tt |}).2).
(** It runs between the creation of the device and of its token. *)
Definition racing (n : nat) (db : ControlDB) : ControlDB := if n =? 5 then revoke_now db else db.
Definition race : res EnrollResult * EnrollState Mock.State :=
  enroll (H := Mock.adapter demo_ids) (λ _, false) demo_url (λ _ _, None) demo_lookup desk_json (λ s, s) demo_kms
    demo_desk racing calm demo_targets false true (λ _, None) None "secret" "d1" demo_device 500 demo_start.
Definition after_race : Backend Mock.State unit :=
  {| world := world race.2; gateway := gateway race.2; clock := 9; locals := tt |}.

(** The enrollment returns a credential although the revocation of its device has completed; the token is
    usable and its key is live; and revoking the device again changes nothing. *)
Example revocation_misses_enrolling_device :
  is_ok race.1 = true ∧
  (isSome ∘ revocationCompletedAt <$> find_device (control (world after_race)) "d1") = Some true ∧
  map k_revokedAt (tokens_of "d1" (control (world after_race))) = [None] ∧
  Mock.is_live (gateway after_race) "d1" = true ∧
  let '(r, s) := revokeDevice (H := Mock.adapter demo_ids) (λ _, false) demo_url (λ _ _, None) demo_lookup desk_json
    demo_kms demo_desk nobody calm demo_targets true true "d1" demo_global 600 after_race in
  r = Ok {| revoked := 1; deskRevoked := Some false |} ∧
  map k_revokedAt (tokens_of "d1" (control (world s))) = [None] ∧ Mock.is_live (gateway s) "d1" = true.
Proof. vm_compute. by split_and!. Qed.

(** Two Desks. The device reserves the first and registers there; before enroll's last write, an administrator revokes
    the device and moves the organization to the second, which nothing forbids, for no device is bound any more. *)
Definition two_desks (s : string) : option url :=
  if String.eqb s "https://b.example"
  then Some {| protocol := "https:"; hostname := "b.example"; username := ""; password := ""; pathname := "/";
               search := ""; hash := ""; origin := "https://b.example"; href := s |}
  else demo_url s.
Definition second_desk : UpsertTenantServiceBindingDto :=
  {| d_mode := HARA_HOSTED; d_accountRegion := GLOBAL; d_apiOrigin := "https://b.example"; d_issuer := None;
     d_jwksUri := None; d_audience := None; d_credential := Some "key"; d_capabilitiesVersion := None |}.
Definition rebind (db : ControlDB) : res PublicTenantServiceBinding * ControlDB :=
  Bindings.handle (λ _, false) two_desks (λ _ _, None) demo_lookup demo_fetch demo_json demo_kms nobody
    (ReqUpsert "b9" "u9" "r9" demo_rnd second_desk) 600 "o1" "DESK_TASKS" demo_admin db.
Definition moving (n : nat) (db : ControlDB) : ControlDB := if n =? 8 then (rebind (revoke_now db)).2 else db.
Definition moved : res EnrollResult * EnrollState Mock.State :=
  enroll (H := Mock.adapter demo_ids) (λ _, false) two_desks (λ _ _, None) demo_lookup registry_json (λ _, "x") demo_kms
    demo_registry moving calm demo_targets true true (λ _, None) None "secret" "d1"
    {| di_name := "mac"; di_os := "darwin"; di_version := "1.0"; di_clientKind := "hara-cli" |} 500 demo_start.

(** The last write binds the device to the first Desk again: the fence is broken, and the new installation can no more
    be revoked through Control. *)
Example fence_broken_by_enrolling_device :
  is_ok moved.1 = true ∧ ¬ fenced (control (world moved.2)) ∧
  is_ok (deskRevocationResolution two_desks demo_kms (control (world moved.2)) "o1" "https://a.example") = false.
Proof.
  split; [vm_compute; reflexivity|]. split; [|vm_compute; reflexivity]. intros Hf.
  destruct (devices (control (world moved.2))) as [|v l] eqn:Hd; [vm_compute in Hd; discriminate|].
  destruct (find_binding (control (world moved.2)) (v_org v) DESK_TASKS) as [b|] eqn:Hb.
  - destruct (Hf v b) as [Ho _]; [rewrite Hd; left| |exact Hb|].
    + assert (desk_bound <$> head (devices (control (world moved.2))) = Some true) as H by (vm_compute; reflexivity).
      rewrite Hd in H. by injection H.
    + assert (ControlDb.deskOrigin <$> head (devices (control (world moved.2))) = Some (Some "https://a.example")) as H by (vm_compute; reflexivity).
      assert (apiOrigin <$> find_binding (control (world moved.2)) "o1" DESK_TASKS = Some "https://b.example") as H' by (vm_compute; reflexivity).
      assert (v_org <$> head (devices (control (world moved.2))) = Some "o1") as H'' by (vm_compute; reflexivity).
      rewrite Hd in H, H''. injection H as H. injection H'' as H''. rewrite H'' in Hb. rewrite Hb in H'. injection H' as H'. congruence.
  - assert (v_org <$> head (devices (control (world moved.2))) = Some "o1") as H'' by (vm_compute; reflexivity).
    rewrite Hd in H''. injection H'' as H''. rewrite H'' in Hb.
    assert (isSome (find_binding (control (world moved.2)) "o1" DESK_TASKS) = true) as H by (vm_compute; reflexivity). by rewrite Hb in H.
Qed.

Definition demo_after_revocation : EnrollState Mock.State :=
  let s1 := (revokeDevice (H := Mock.adapter demo_ids) (λ _, false) demo_url (λ _ _, None) demo_lookup desk_json
    demo_kms demo_desk nobody calm demo_targets true true "d1" demo_admin 50 demo_admin_state).2 in
  {| world := world s1; gateway := gateway s1; clock := 0; locals := no_locals |}.

(** After its revocation, the bearer of the only token of device [d1] is refused by the heartbeat. *)
Lemma revoked_device_locked_out_witness : ∃ x s3,
  heartbeat (H := Mock.adapter demo_ids) (λ _, "x") nobody calm (λ _, None) (Some "dev-1") None None 60
    demo_after_revocation = (x, s3) ∧
  is_ok x = false ∧ gateway s3 = gateway demo_after_revocation ∧ sent (world s3) = sent (world demo_after_revocation).
Proof.
  eexists _, _. split; [vm_compute; reflexivity|].
  refine (proj1 (revoked_device_locked_out (H0 := Mock.laws demo_ids) (λ _, false) demo_url (λ _ _, None)
    demo_lookup desk_json (λ _, "x") demo_kms demo_desk nobody calm demo_targets true true (λ _, None) "d1"
    (nobody_apart _) demo_admin 50%Z demo_desk_device demo_admin_state _ _ "dev-1" 0 no_locals _ _ _ _ _ _) None None 60%Z _ _ _).
  - vm_compute. reflexivity.
  - vm_compute. reflexivity.
  - by intros [=].
  - right. reflexivity.
  - done.
  - intros k Hk. vm_compute in Hk. by injection Hk as <-.
  - vm_compute. reflexivity.
Defined.

Lemma calm_services : reachable_services (H := Mock.adapter demo_ids) (λ _, false) demo_url (λ _ _, None) demo_lookup
  desk_json demo_kms demo_desk calm demo_targets true false demo_desk_device.
Proof.
  split.
  - done.
  - intros k g. by eexists.
  - intros _. split; [done|]. split; [done|]. split; [done|]. intros missing w. destruct missing; vm_compute; reflexivity.
Defined.
Lemma revocation_completes_witness : ∃ res s' v',
  revokeDevice (H := Mock.adapter demo_ids) (λ _, false) demo_url (λ _ _, None) demo_lookup desk_json demo_kms demo_desk
    nobody calm demo_targets true false "d1" demo_admin 50 demo_admin_state = (Ok res, s') ∧
  find_device (control (world s')) "d1" = Some v' ∧ isSome (revocationCompletedAt v') = true ∧
  all_revoked "d1" (control (world s')).
Proof.
  apply (revocation_completes (H0 := Mock.laws demo_ids) (λ _, false) demo_url (λ _ _, None) demo_lookup desk_json demo_kms
    demo_desk nobody calm demo_targets true false "d1" (nobody_apart _) demo_admin 50 demo_desk_device demo_admin_state).
  - reflexivity.
  - vm_compute. reflexivity.
  - by intros [=].
  - exact calm_services.
Defined.

(** * An enrollment over LiteLLM whose key stays *)

(** The engine creates the key, but neither its answer nor the one to the compensating deletion arrives in time;
    the alias is live and the deletion did not happen. *)
Definition timed_out : exn := Error "The operation was aborted".
Definition stalled (q : Adapter.Request) : res Response :=
  Ok {| status_ := 200; location := None; content_length := None; text := Throw timed_out |}.
Definition lingering (l : list Adapter.Request) (a : string) : bool :=
  existsb (λ q, bool_decide (Demo.key_alias q = Some a)) l.
Definition stranding : res EnrollResult * EnrollState Adapter.Engine :=
  enroll (H := Adapter.adapter (λ _, false) Demo.any_url (λ _ _, None) (λ _ _, Ok ["10.0.0.5"]) Demo.parse (λ _, None)
      (λ _ _ q, stalled q) Demo.rows (λ _ _ _, Throw timed_out) (λ _ _ _ _ _ _, Throw timed_out)
      (λ _ _ _ _ _ _ _, Throw timed_out) (λ _ _, Throw timed_out) (λ _, 0%Z) (λ _, None))
    (λ _, false) demo_url (λ _ _, None) demo_lookup desk_json (λ s, s) demo_kms
    demo_desk nobody calm demo_targets false true (λ _, None) None "secret" "d1" demo_device 500
    {| world := world demo_start; gateway := {| Adapter.requests := []; Adapter.queries := 0 |}; clock := 0;
       locals := locals demo_start |}.

(** The enrollment fails with no trace of the device in Control, its code can be used again, and the key is live. *)
Example uncertain_issue_strands_key :
  is_ok stranding.1 = false ∧ find_device (control (world stranding.2)) "d1" = None ∧
  map ec_usedAt (codes (control (world stranding.2))) = map ec_usedAt (codes (control (world demo_start))) ∧
  map (λ q, Adapter.rq_url q) (Adapter.requests (gateway stranding.2))
    = ["http://localhost:4000/key/generate"; "http://localhost:4000/key/delete"] ∧
  lingering (Adapter.requests (gateway stranding.2)) "d1" = true.
Proof. vm_compute. by split_and!. Qed.
