(* ===== verification/Fleet.v ===== *)
(** The read-only views of the administration ([src/admin/admin.service.ts]): [fleet], the devices with their
    tokens and lifetime spend, and [usage], the report on a window of the gateway's ledger. A view never
    shows a zero where the ledger gave no value. *)
From S2P Require Import Prelude Js Table OrgTree KeyPolicy ModelPolicy Access ControlDb Bindings Gateway Desk Services Enroll Admin.
Local Open Scope Z_scope.

Definition ONLINE_WINDOW_MS : Z := 5 * 60 * 1000.

(** A device with its person and its tokens, as the [include] clauses select them. *)
Record Row := { row_device : Device; row_person : option Person; row_tokens : list DeviceToken }.
Definition row_of (order : list DeviceToken → list DeviceToken) (db : ControlDB) (v : Device) : Row :=
  {| row_device := v; row_person := p ← v_person v; find_by pe_id p (persons db);
     row_tokens := order (tokens_of (v_id v) db) |}.
(** [orderBy: { lastSeenAt: "desc" }]; the tokens in the given order. *)
Definition rows (order : list DeviceToken → list DeviceToken) (org : string) (db : ControlDB) : list Row :=
  map (row_of order db) (sort_by (λ v, - v_lastSeenAt v) (filter (λ v, v_org v = org) (devices db))).
Definition newest_first : list DeviceToken → list DeviceToken := sort_by (λ k, - k_createdAt k).

(** [person?.name || person?.email] *)
Definition shown_name (p : option Person) : option string :=
  person ← p;
  if truthy (pe_name person) then Some (pe_name person) else if truthy (pe_email person) then Some (pe_email person) else None.
(** [a || null] *)
Definition or_null (s : string) : option string := if truthy s then Some s else None.
Definition sumQ {A} (f : A → Q) (l : list A) : Q := foldl (λ acc x, acc + f x)%Q 0%Q l.

(** * The fleet *)

Record FleetKey := {
  fk_id : string; fk_model : string; fk_reasoningEffort : option string; fk_status : string; fk_createdAt : Z;
  fk_expiresAt : option Z; fk_revokedAt : option Z; fk_spend : option Q; fk_spend_available : bool;
  fk_budgetLimits : json; fk_rpmLimit : option Z; fk_tpmLimit : option Z }.
Record FleetDevice := {
  device_id : string; fd_name : string; person_id : option string; person_name : option string;
  person_email : option string; fd_os : string; fd_version : string; last_seen_at : Z; online : bool;
  revocation_state : string; revocation_requested_at : option Z; revocation_completed_at : option Z;
  token_active : bool; fd_model : string; model_policy_status : string; fd_reasoningEffort : option string;
  available_models : list string; fd_spend : option Q; fd_spend_available : bool; fd_expiresAt : option Z;
  fd_budgetLimits : json; fd_rpmLimit : option Z; fd_tpmLimit : option Z; keys : list FleetKey }.

Definition expired (t : option Z) (now : Z) : bool := match t with Some x => x <=? now | None => false end.
Definition tokenIsActive (v : Device) (k : DeviceToken) (now : Z) : bool :=
  negb (isSome (revocationRequestedAt v)) && negb (isSome (k_revokedAt k))
  && match k_expiresAt k with Some t => now <? t | None => true end.
(** [new Map(records.map(s => [s.keyId, s.spend]))]: a later record replaces an earlier one. *)
Definition spend_map (l : list SpendRecord) : list (string * option Q) :=
  foldl (λ m r, obj_set (sp_keyId r) (sp_spend r) m) [] l.
(** [spend.get(id) ?? null] *)
Definition spend_of (m : list (string * option Q)) (k : DeviceToken) : option Q := nullish (assoc (k_gatewayKeyId k) m) None.
Definition key_status (v : Device) (k : DeviceToken) (now : Z) : string :=
  if isSome (revocationRequestedAt v) && negb (isSome (revocationCompletedAt v)) then "revocation_pending"
  else if isSome (k_revokedAt k) then "revoked"
  else if expired (k_expiresAt k) now then "expired"
  else "active".
Definition fleet_key (v : Device) (m : list (string * option Q)) (now : Z) (k : DeviceToken) : FleetKey :=
  {| fk_id := k_gatewayKeyId k; fk_model := k_model k; fk_reasoningEffort := or_null (k_reasoningEffort k);
     fk_status := key_status v k now; fk_createdAt := k_createdAt k; fk_expiresAt := k_expiresAt k;
     fk_revokedAt := k_revokedAt k; fk_spend := spend_of m k; fk_spend_available := isSome (spend_of m k);
     fk_budgetLimits := k_budgetLimits k; fk_rpmLimit := k_rpmLimit k; fk_tpmLimit := k_tpmLimit k |}.
Definition fleet_device (e : env) (m : list (string * option Q)) (now : Z) (r : Row) : res FleetDevice :=
  let d := row_device r in
  let active := snd <$> list_find (λ k, tokenIsActive d k now = true) (row_tokens r) in
  let current := match active with Some k => Some k | None => head (row_tokens r) end in
  availableModels ← match active with Some k => managedModelsForRecordedToken (k_model k) e | None => Ok [] end;
  let keySpend := map (spend_of m) (row_tokens r) in
  let spendAvailable := negb (length keySpend =? 0)%nat && forallb isSome keySpend in
  Ok {| device_id := v_id d; fd_name := v_name d; person_id := pe_id <$> row_person r;
        person_name := shown_name (row_person r); person_email := pe_email <$> row_person r; fd_os := v_os d;
        fd_version := v_haraVersion d; last_seen_at := v_lastSeenAt d;
        online := now - v_lastSeenAt d <? ONLINE_WINDOW_MS;
        revocation_state := if isSome (revocationCompletedAt d) then "completed"
                            else if isSome (revocationRequestedAt d) then "pending" else "active";
        revocation_requested_at := revocationRequestedAt d; revocation_completed_at := revocationCompletedAt d;
        token_active := isSome active; fd_model := nullish (k_model <$> current) "";
        model_policy_status := if isSome active
                               then if (length availableModels =? 0)%nat then "retired" else "active" else "historical";
        fd_reasoningEffort := current ≫= λ k, or_null (k_reasoningEffort k);
        available_models := availableModels;
        fd_spend := if spendAvailable then Some (sumQ (λ x, nullish x 0%Q) keySpend) else None;
        fd_spend_available := spendAvailable; fd_expiresAt := current ≫= k_expiresAt;
        fd_budgetLimits := nullish (k_budgetLimits <$> current) (JArr []); fd_rpmLimit := current ≫= k_rpmLimit;
        fd_tpmLimit := current ≫= k_tpmLimit; keys := map (fleet_key d m now) (row_tokens r) |}.

(** * The usage report *)

Record Meta := { m_deviceId : string; m_deviceName : string; m_principal : string; m_model : string }.
Record Point := { pt_at : Z; pt_spend : Q; pt_totalTokens : Q; pt_requests : Q }.
Record Line := {
  ln_meta : Meta; ln_spend : Q; ln_totalTokens : Q; ln_requests : Q; ln_lastRequestAt : Z }.
Record QuotaLimit := {
  ql_window : AccessBudgetWindow; ql_maxUsd : Q; ql_usedUsd : option Q; ql_remainingUsd : option Q;
  ql_percent : option Q }.
Record Quota := {
  qt_deviceId : string; qt_deviceName : string; qt_principal : string; qt_model : string;
  qt_availableModels : list string; qt_expiresAt : option Z; qt_rpmLimit : option Z; qt_tpmLimit : option Z;
  qt_limits : list QuotaLimit }.
Record Totals := {
  tt_spend : option Q; tt_totalTokens : option Q; tt_requests : option Q; tt_latestRequestAt : option Z }.
Inductive Accounting :=
  | GatewayLedger (source : string)
  | ProviderMeters (source : string) (authoritative : bool) (fetchedAt : Z) (validUntil : option Z).
Record NativeAllowance := { na_available : bool; na_meters : list (Meta * GatewayNativeAllowanceMeter) }.
Record UsageReport := {
  ur_orgId : string; ur_range : UsageRange; ur_from : Z; ur_to : Z; ur_available : bool; ur_accounting : Accounting;
  ur_native : option NativeAllowance; ur_totals : Totals; ur_series : list Point; ur_breakdown : list Line;
  ur_quotas : list Quota }.

Definition principal (r : Row) : string := nullish (shown_name (row_person r)) (v_name (row_device r)).
Definition meta_of (r : Row) (k : DeviceToken) : Meta :=
  {| m_deviceId := v_id (row_device r); m_deviceName := v_name (row_device r); m_principal := principal r;
     m_model := k_model k |}.
(** [keyMeta], in insertion order. *)
Definition key_meta (l : list Row) : list (string * Meta) :=
  foldl (λ m r, foldl (λ m k, obj_set (k_gatewayKeyId k) (meta_of r k) m) m (row_tokens r)) [] l.

(** What the loop over the ledger's entries accumulates. *)
Record Sums := {
  series : list Point; breakdown : list (string * Line); totalSpend : Q; totalTokens : Q; requests : Q;
  latestRequestAt : option Z }.
Definition no_sums (w : UsageWindow) : Sums :=
  {| series := map (λ i, {| pt_at := from w + Z.of_nat i * bucketMs w; pt_spend := 0; pt_totalTokens := 0;
                            pt_requests := 0 |}) (seq 0 (Z.to_nat (bucketCount w)));
     breakdown := []; totalSpend := 0; totalTokens := 0; requests := 0; latestRequestAt := None |}.
Definition add_point (b : GatewayUsageBucket) (p : Point) : Point :=
  {| pt_at := pt_at p; pt_spend := pt_spend p + ub_spend b; pt_totalTokens := pt_totalTokens p + ub_totalTokens b;
     pt_requests := pt_requests p + ub_requests b |}%Q.
Definition bucketIndex (w : UsageWindow) (b : GatewayUsageBucket) : Z :=
  Math_round (inject_Z (ub_bucketAt b - from w) / inject_Z (bucketMs w)).
(** [a > b] of two dates, where there may be none *)
Definition later (t : Z) (o : option Z) : Z := match o with Some x => if x <? t then t else x | None => t end.
Definition line_key (m : Meta) (model : string) : string := m_deviceId m +:+ String (ascii_of_nat 0) model.
Definition with_model (model : string) (m : Meta) : Meta :=
  {| m_deviceId := m_deviceId m; m_deviceName := m_deviceName m; m_principal := m_principal m; m_model := model |}.
Definition add_line (b : GatewayUsageBucket) (l : Line) : Line :=
  {| ln_meta := ln_meta l; ln_spend := ln_spend l + ub_spend b; ln_totalTokens := ln_totalTokens l + ub_totalTokens b;
     ln_requests := ln_requests l + ub_requests b; ln_lastRequestAt := later (ub_lastRequestAt b) (Some (ln_lastRequestAt l)) |}%Q.
Definition add_entry (w : UsageWindow) (metas : list (string * Meta)) (s : Sums) (b : GatewayUsageBucket) : Sums :=
  match assoc (ub_keyId b) metas with
  | None => s
  | Some meta =>
      let i := bucketIndex w b in
      let model := or_default (ub_model b) (m_model meta) in
      let existing := nullish (assoc (line_key meta model) (breakdown s))
        {| ln_meta := with_model model meta; ln_spend := 0; ln_totalTokens := 0; ln_requests := 0;
           ln_lastRequestAt := ub_lastRequestAt b |} in
      {| series := if (0 <=? i) && (i <? Z.of_nat (length (series s))) then alter (add_point b) (Z.to_nat i) (series s)
                   else series s;
         breakdown := obj_set (line_key meta model) (add_line b existing) (breakdown s);
         totalSpend := totalSpend s + ub_spend b; totalTokens := totalTokens s + ub_totalTokens b;
         requests := requests s + ub_requests b;
         latestRequestAt := Some (later (ub_lastRequestAt b) (latestRequestAt s)) |}%Q
  end.
(** [b.spend - a.spend || b.totalTokens - a.totalTokens] is negative. *)
Definition costlier (a b : Line) : bool :=
  num_ltb (Num (ln_spend b)) (Num (ln_spend a))
  || Qeq_bool (ln_spend a) (ln_spend b) && num_ltb (Num (ln_totalTokens b)) (Num (ln_totalTokens a)).

Definition rolling_field (w : AccessBudgetWindow) (r : GatewayRollingSpend) : Q :=
  match w with W5h => ro_spend5h r | Wweek => ro_spend7d r | Wmonth => ro_spend30d r end.
Definition rolling_map (l : list GatewayRollingSpend) : list (string * GatewayRollingSpend) :=
  foldl (λ m r, obj_set (ro_keyId r) r m) [] l.
Definition quota_limit (available : bool) (usage : option GatewayRollingSpend) (entry : json) : list QuotaLimit :=
  match entry with
  | JObj row =>
      match assoc "window" row with
      | Some (JStr w) =>
          match window_of w, Number_opt (assoc "maxUsd" row) with
          | Some budgetWindow, Num maxUsd =>
              if Qle_bool maxUsd 0 then [] else
              let usedUsd := if available then Some (nullish (rolling_field budgetWindow <$> usage) 0%Q) else None in
              [{| ql_window := budgetWindow; ql_maxUsd := maxUsd; ql_usedUsd := usedUsd;
                  ql_remainingUsd := (λ u, if Qle_bool 0 (maxUsd - u) then maxUsd - u else 0)%Q <$> usedUsd;
                  ql_percent := (λ u, u / maxUsd * inject_Z 100)%Q <$> usedUsd |}]
          | _, _ => []
          end
      | _ => []
      end
  | _ => []
  end.
Definition quota (e : env) (available : bool) (rolling : list (string * GatewayRollingSpend)) (now : Z) (r : Row)
    (k : DeviceToken) : res (list Quota) :=
  if isSome (k_revokedAt k) || match k_expiresAt k with Some t => t <=? now | None => false end then Ok []
  else
    let rawLimits := match k_budgetLimits k with JArr l => l | _ => [] end in
    let limits := l ← rawLimits; quota_limit available (assoc (k_gatewayKeyId k) rolling) l in
    if (length limits =? 0)%nat && negb (isSome (k_rpmLimit k)) && negb (isSome (k_tpmLimit k)) then Ok []
    else
      availableModels ← managedModelsForRecordedToken (k_model k) e;
      Ok [{| qt_deviceId := v_id (row_device r); qt_deviceName := v_name (row_device r); qt_principal := principal r;
             qt_model := k_model k; qt_availableModels := availableModels; qt_expiresAt := k_expiresAt k;
             qt_rpmLimit := k_rpmLimit k; qt_tpmLimit := k_tpmLimit k; qt_limits := limits |}].
Definition quotas (e : env) (available : bool) (rolling : list (string * GatewayRollingSpend)) (now : Z) (l : list Row)
    : res (list Quota) :=
  found ← mapR (λ '(r, k), quota e available rolling now r k) (r ← l; map (pair r) (row_tokens r));
  Ok (concat found).

Definition accounting (g : GatewayUsageReport) : Accounting :=
  match g with
  | PaygLedger r => GatewayLedger (rep_source r)
  | ProviderNative r => ProviderMeters (nat_provider r) (nat_authoritative r) (nat_fetchedAt r) (nat_validUntil r)
  end.
Definition native_allowance (metas : list (string * Meta)) (g : GatewayUsageReport) : option NativeAllowance :=
  match g with
  | PaygLedger _ => None
  | ProviderNative r =>
      Some {| na_available := nat_available r;
              na_meters := if nat_available r
                           then m ← nat_meters r; match assoc (mt_keyId m) metas with Some meta => [(meta, m)] | None => [] end
                           else [] |}
  end.
(** The report on the rows and the gateway's answer. *)
Definition report (e : env) (org : string) (w : UsageWindow) (now : Z) (l : list Row) (g : GatewayUsageReport)
    : res UsageReport :=
  let metas := key_meta l in
  let '(spendAvailable, entries, rows) :=
    match g with PaygLedger r => (rep_available r, rep_buckets r, rep_rolling r) | ProviderNative _ => (false, [], []) end in
  let sums := if spendAvailable then foldl (add_entry w metas) (no_sums w) entries else no_sums w in
  qs ← quotas e spendAvailable (rolling_map rows) now l;
  Ok {| ur_orgId := org; ur_range := range w; ur_from := from w; ur_to := to w; ur_available := spendAvailable;
        ur_accounting := accounting g; ur_native := native_allowance metas g;
        ur_totals := if spendAvailable
                     then {| tt_spend := Some (totalSpend sums); tt_totalTokens := Some (totalTokens sums);
                             tt_requests := Some (requests sums); tt_latestRequestAt := latestRequestAt sums |}
                     else {| tt_spend := None; tt_totalTokens := None; tt_requests := None; tt_latestRequestAt := None |};
        ur_series := if spendAvailable then series sums else [];
        ur_breakdown := if spendAvailable then stable_sort costlier (snd <$> breakdown sums) else [];
        ur_quotas := qs |}.

(** * The operations *)

Section views.
Context (others : nat → ControlDB → ControlDB) (fails : nat → bool) (e : env).
Context {G : Type} `{GatewayAdapter G}.
Local Abbreviation State := (Backend G unit).

Definition fleet (org : string) (now : Z) : M State (list FleetDevice) :=
  l ← read others fails (rows newest_first org);
  records ← gateway_call (listSpend (r ← l; map k_gatewayKeyId (row_tokens r)));
  lift (mapR (fleet_device e (spend_map records) now) l).
Definition usage (org : string) (requestedRange : option string) (now : Z) : M State UsageReport :=
  _ ← guard_throw (negb (truthy org)) (BadRequestException "orgId is required");
  range ← lift (bad_request (parseUsageRange requestedRange));
  w ← lift (usageWindow range (Some now));
  l ← read others fails (rows (λ l, l) org);
  g ← gateway_call (Gateway.usage (map fst (key_meta l)) range now);
  lift (report e org w now l g).
End views.

(** * Sums *)

#[export] Instance Qplus_proper : Proper (Qeq ==> Qeq ==> Qeq) Qplus := Qplus_comp.
Lemma sumQ_acc {A} (f : A → Q) l a : (foldl (λ acc x, acc + f x) a l == a + sumQ f l)%Q.
Proof.
  unfold sumQ. revert a. induction l as [|x l IH]; intros a; cbn [foldl]; [ring|].
  rewrite (IH (a + f x)%Q), (IH (0 + f x)%Q). ring.
Qed.
Lemma sumQ_cons {A} (f : A → Q) x l : (sumQ f (x :: l) == f x + sumQ f l)%Q.
Proof. unfold sumQ at 1. cbn [foldl]. rewrite sumQ_acc. ring. Qed.
Lemma sumQ_app {A} (f : A → Q) l k : (sumQ f (l ++ k) == sumQ f l + sumQ f k)%Q.
Proof. unfold sumQ at 1. rewrite foldl_app, sumQ_acc. done. Qed.
Lemma sumQ_perm {A} (f : A → Q) l k : l ≡ₚ k → (sumQ f l == sumQ f k)%Q.
Proof.
  induction 1 as [|x l k _ IH|x y l|l1 l2 l3 _ IH1 _ IH2]; [done|..].
  - rewrite !sumQ_cons. by rewrite IH.
  - rewrite !sumQ_cons. ring.
  - by rewrite IH1.
Qed.
Lemma sumQ_snoc {A} (f : A → Q) l x : (sumQ f (l ++ [x]) == sumQ f l + f x)%Q.
Proof. rewrite sumQ_app, sumQ_cons. unfold sumQ at 2. simpl. ring. Qed.
Lemma sumQ_fmap {A B} (g : A → B) (f : B → Q) l : sumQ f (g <$> l) = sumQ (λ x, f (g x)) l.
Proof.
  unfold sumQ. generalize 0%Q. induction l as [|x l IH]; intros a; [done|]. cbn [fmap list_fmap foldl]. apply IH.
Qed.
Lemma sumQ_zero {A} (f : A → Q) l : Forall (λ x, f x == 0)%Q l → (sumQ f l == 0)%Q.
Proof. induction 1 as [|x l Hx _ IH]; [done|]. rewrite sumQ_cons, Hx, IH. ring. Qed.
(** Replacing a member of a map changes the sum by the difference. *)
Lemma sumQ_obj_set {A} (f : A → Q) k v m d :
  (f d == 0)%Q → (sumQ f (snd <$> obj_set k v m) == sumQ f (snd <$> m) + (f v - f (nullish (assoc k m) d)))%Q.
Proof.
  intros Hd. induction m as [|[k' v'] m IH]; cbn [obj_set assoc fmap list_fmap snd].
  - rewrite sumQ_cons. cbn. rewrite Hd. ring.
  - destruct (String.eqb k k'); cbn [fmap list_fmap snd nullish default from_option]; rewrite !sumQ_cons; [cbn; ring|].
    rewrite IH. ring.
Qed.
Lemma sumQ_alter {A} (f : A → Q) (g : A → A) d i l :
  (∀ x, f (g x) == f x + d)%Q → (i < length l)%nat → (sumQ f (alter g i l) == sumQ f l + d)%Q.
Proof.
  intros Hg. revert i. induction l as [|x l IH]; intros i Hi; [simpl in Hi; lia|].
  destruct i as [|i]; change (alter g ?n (x :: l)) with (match n with O => g x :: l | S i => x :: alter g i l end); cbn iota.
  - rewrite !sumQ_cons, Hg. ring.
  - rewrite !sumQ_cons, IH by (simpl in Hi; lia). ring.
Qed.

(** * The usage report *)

(** The three figures the report adds up. *)
Inductive Figure := Spend | Tokens | Requests.
Definition in_bucket (f : Figure) (b : GatewayUsageBucket) : Q :=
  match f with Spend => ub_spend b | Tokens => ub_totalTokens b | Requests => ub_requests b end.
Definition in_line (f : Figure) (l : Line) : Q :=
  match f with Spend => ln_spend l | Tokens => ln_totalTokens l | Requests => ln_requests l end.
Definition in_point (f : Figure) (p : Point) : Q :=
  match f with Spend => pt_spend p | Tokens => pt_totalTokens p | Requests => pt_requests p end.
Definition in_sums (f : Figure) (s : Sums) : Q :=
  match f with Spend => totalSpend s | Tokens => totalTokens s | Requests => requests s end.
Definition in_totals (f : Figure) (t : Totals) : option Q :=
  match f with Spend => tt_spend t | Tokens => tt_totalTokens t | Requests => tt_requests t end.

(** The entries of a key of the organization, and those that fall into the chart. *)
Definition counted (metas : list (string * Meta)) (b : GatewayUsageBucket) : Prop := isSome (assoc (ub_keyId b) metas) = true.
Definition charted (w : UsageWindow) (b : GatewayUsageBucket) : Prop := 0 <= bucketIndex w b < bucketCount w.
#[export] Instance counted_dec metas b : Decision (counted metas b).
Proof. unfold counted. apply _. Defined.
#[export] Instance charted_dec w b : Decision (charted w b).
Proof. unfold charted. apply _. Defined.

Definition ln_key (l : Line) : string := line_key (ln_meta l) (m_model (ln_meta l)).

(** What holds of the accumulated sums after the entries [done_]. *)
Record summed (w : UsageWindow) (metas : list (string * Meta)) (done_ : list GatewayUsageBucket) (s : Sums) : Prop := {
  su_total f : (in_sums f s == sumQ (in_bucket f) (filter (counted metas) done_))%Q;
  su_lines f : (in_sums f s == sumQ (in_line f) (snd <$> breakdown s))%Q;
  su_series f : (sumQ (in_point f) (series s) == sumQ (in_bucket f) (filter (charted w) (filter (counted metas) done_)))%Q;
  su_length : length (series s) = Z.to_nat (bucketCount w);
  su_keys : NoDup (fst <$> breakdown s);
  su_named : Forall (λ kl, kl.1 = ln_key kl.2 ∧ ∃ id m, assoc id metas = Some m ∧ m_deviceId (ln_meta kl.2) = m_deviceId m)
               (breakdown s) }.

Lemma summed_start w metas : summed w metas [] (no_sums w).
Proof.
  split; try done.
  - by intros [].
  - by intros [].
  - intros f. apply sumQ_zero. unfold no_sums. cbn [series]. apply Forall_forall. intros p (i & -> & _)%list_elem_of_fmap.
    by destruct f.
  - unfold no_sums. cbn [series]. by rewrite length_map, length_seq.
  - constructor.
Qed.

Lemma add_entry_series w metas s b fs :
  summed w metas fs s → counted metas b →
  let s' := add_entry w metas s b in
  length (series s') = length (series s) ∧
  ∀ f, (sumQ (in_point f) (series s') == sumQ (in_point f) (series s) + if bool_decide (charted w b) then in_bucket f b else 0)%Q.
Proof.
  intros Hs Hc. unfold counted in Hc. unfold add_entry. destruct (assoc (ub_keyId b) metas) as [meta|]; [|done].
  cbn [series]. assert (bucketCount w < 0 ∨ Z.of_nat (length (series s)) = bucketCount w) as Hlen by (rewrite (su_length _ _ _ _ Hs); lia).
  assert ((0 <=? bucketIndex w b) && (bucketIndex w b <? Z.of_nat (length (series s))) = bool_decide (charted w b)) as ->.
  { apply eq_bool_prop_intro. rewrite bool_decide_spec. unfold charted. rewrite (su_length _ _ _ _ Hs).
    rewrite andb_True, !Is_true_true, Z.leb_le, Z.ltb_lt. lia. }
  case_bool_decide as Hch.
  - split; [by rewrite length_alter|]. intros f. apply sumQ_alter.
    + intros p. by destruct f.
    + unfold charted in Hch. lia.
  - split; [done|]. intros f. ring.
Qed.

(** The line an entry starts from, and the one it leaves. *)
Definition new_line (meta : Meta) (model : string) (b : GatewayUsageBucket) : Line :=
  {| ln_meta := with_model model meta; ln_spend := 0; ln_totalTokens := 0; ln_requests := 0;
     ln_lastRequestAt := ub_lastRequestAt b |}.
Lemma add_entry_breakdown w metas s b meta : assoc (ub_keyId b) metas = Some meta →
  let model := or_default (ub_model b) (m_model meta) in
  let existing := nullish (assoc (line_key meta model) (breakdown s)) (new_line meta model b) in
  breakdown (add_entry w metas s b) = obj_set (line_key meta model) (add_line b existing) (breakdown s) ∧
  ∀ f, in_sums f (add_entry w metas s b) = (in_sums f s + in_bucket f b)%Q.
Proof. intros Hb. unfold add_entry. rewrite Hb. split; [done|]. by intros []. Qed.

Lemma add_entry_named metas b meta (l : list (string * Line)) :
  let model := or_default (ub_model b) (m_model meta) in
  assoc (ub_keyId b) metas = Some meta →
  Forall (λ kl, kl.1 = ln_key kl.2 ∧ ∃ id m, assoc id metas = Some m ∧ m_deviceId (ln_meta kl.2) = m_deviceId m) l →
  Forall (λ kl, kl.1 = ln_key kl.2 ∧ ∃ id m, assoc id metas = Some m ∧ m_deviceId (ln_meta kl.2) = m_deviceId m)
    (obj_set (line_key meta model) (add_line b (nullish (assoc (line_key meta model) l) (new_line meta model b))) l).
Proof.
  cbv zeta. intros Hb Hl. apply Forall_obj_set; [done|]. cbn [fst snd].
  destruct (assoc (line_key _ _) l) as [x|] eqn:Hx; cbn [nullish default].
  - apply assoc_elem in Hx. rewrite Forall_forall in Hl. exact (Hl _ Hx).
  - split; [done|]. by exists (ub_keyId b), meta.
Qed.

Lemma summed_step w metas done_ s b : summed w metas done_ s → summed w metas (done_ ++ [b]) (add_entry w metas s b).
Proof.
  intros Hs. destruct (decide (counted metas b)) as [Hc|Hc].
  2: { unfold add_entry. assert (filter (counted metas) (done_ ++ [b]) = filter (counted metas) done_) as Hf
         by (rewrite filter_app, filter_cons_False, filter_nil, app_nil_r; done).
    unfold counted in Hc. destruct (assoc (ub_keyId b) metas) eqn:Hb; [done|]. destruct Hs. by split; rewrite ?Hf. }
  destruct (add_entry_series _ _ _ b _ Hs Hc) as [Hlen Hpt].
  assert (filter (counted metas) (done_ ++ [b]) = filter (counted metas) done_ ++ [b]) as Hf
    by (by rewrite filter_app, filter_cons_True, filter_nil).
  destruct (assoc (ub_keyId b) metas) as [meta|] eqn:Hb; [|unfold counted in Hc; by rewrite Hb in Hc].
  destruct (add_entry_breakdown w metas s b meta Hb) as [Hl Ht].
  split; rewrite ?Hf.
  - intros f. by rewrite Ht, sumQ_snoc, (su_total _ _ _ _ Hs).
  - intros f. rewrite Hl, (sumQ_obj_set _ _ _ _ (new_line meta (or_default (ub_model b) (m_model meta)) b)) by by destruct f.
    rewrite Ht, (su_lines _ _ _ _ Hs). destruct f; cbn [in_line add_line ln_spend ln_totalTokens ln_requests in_bucket]; ring.
  - intros f. rewrite Hpt, (su_series _ _ _ _ Hs), filter_app. case_bool_decide.
    + by rewrite filter_cons_True, filter_nil, sumQ_snoc.
    + rewrite filter_cons_False, filter_nil, app_nil_r by done. ring.
  - by rewrite Hlen, (su_length _ _ _ _ Hs).
  - rewrite Hl. apply obj_set_keys, (su_keys _ _ _ _ Hs).
  - rewrite Hl. apply add_entry_named; [done|]. apply (su_named _ _ _ _ Hs).
Qed.
Lemma summed_all w metas l : summed w metas l (foldl (add_entry w metas) (no_sums w) l).
Proof.
  induction l as [|b l IH] using rev_ind; [apply summed_start|]. rewrite foldl_app. by apply summed_step.
Qed.

Lemma key_meta_spec l i m : assoc i (key_meta l) = Some m →
  ∃ r k, r ∈ l ∧ k ∈ row_tokens r ∧ k_gatewayKeyId k = i ∧ m = meta_of r k.
Proof.
  unfold key_meta. induction l as [|r l IH] using rev_ind; [done|]. rewrite foldl_app. cbn [foldl].
  set (m0 := foldl _ [] l) in *. clearbody m0.
  assert (∀ ks, assoc i (foldl (λ m k, obj_set (k_gatewayKeyId k) (meta_of r k) m) m0 ks) = Some m →
    assoc i m0 = Some m ∨ ∃ k, k ∈ ks ∧ k_gatewayKeyId k = i ∧ m = meta_of r k) as Hr.
  { induction ks as [|k ks IHk] using rev_ind; [by left|]. rewrite foldl_app. cbn [foldl].
    destruct (decide (i = k_gatewayKeyId k)) as [->|Hi].
    - rewrite assoc_obj_set. intros [= <-]. right. exists k. set_solver.
    - rewrite assoc_obj_set_ne by done. intros [?|(k' & ? & ?)]%IHk; [by left|]. right. exists k'. set_solver. }
  intros [(r' & k & ? & ?)%IH|(k & ? & ?)]%Hr; [exists r', k|exists r, k]; set_solver.
Qed.
Lemma rows_device order org db r : r ∈ rows order org db →
  row_device r ∈ devices db ∧ v_org (row_device r) = org ∧ row_tokens r = order (tokens_of (v_id (row_device r)) db).
Proof.
  unfold rows. intros (v & -> & Hv)%list_elem_of_fmap. rewrite sort_by_perm in Hv. apply list_elem_of_filter in Hv as [??]. done.
Qed.

(** The report shows no figure at all. *)
Definition no_figures (r : UsageReport) : Prop :=
  (∀ f, in_totals f (ur_totals r) = None) ∧ ur_series r = [] ∧ ur_breakdown r = [] ∧
  Forall (λ q, Forall (λ l, ql_usedUsd l = None ∧ ql_remainingUsd l = None ∧ ql_percent l = None) (qt_limits q)) (ur_quotas r).

Lemma quota_unavailable e rolling now l qs : quotas e false rolling now l = Ok qs →
  Forall (λ q, Forall (λ l, ql_usedUsd l = None ∧ ql_remainingUsd l = None ∧ ql_percent l = None) (qt_limits q)) qs.
Proof.
  unfold quotas. intros (found & Hf & [= <-])%res_bind_ok. rewrite mapR_ok in Hf. apply Forall_concat.
  induction Hf as [|[r k] q pairs found Hq _ IH]; constructor; [|done]. clear IH.
  unfold quota in Hq. destruct (isSome (k_revokedAt k) || _); [by injection Hq as <-|]. cbv zeta in Hq.
  destruct (_ && _); [by injection Hq as <-|]. apply res_bind_ok in Hq as (models & _ & [= <-]).
  repeat constructor. cbn [qt_limits]. apply Forall_forall. intros x (entry & Hx & _)%list_elem_of_bind.
  unfold quota_limit in Hx. repeat case_match; set_solver.
Qed.

(** What an available ledger's entries give. *)
Definition adds_up (org : string) (db : ControlDB) (w : UsageWindow) (entries : list GatewayUsageBucket) (r : UsageReport) : Prop :=
  let metas := key_meta (rows (λ l, l) org db) in
  (∀ f, ∃ t, in_totals f (ur_totals r) = Some t ∧ (t == sumQ (in_bucket f) (filter (counted metas) entries))%Q ∧
    (t == sumQ (in_line f) (ur_breakdown r))%Q ∧
    (sumQ (in_point f) (ur_series r) == sumQ (in_bucket f) (filter (charted w) (filter (counted metas) entries)))%Q) ∧
  length (ur_series r) = Z.to_nat (bucketCount w) ∧ NoDup (map ln_key (ur_breakdown r)) ∧
  Forall (λ l, ∃ v, v ∈ devices db ∧ v_org v = org ∧ m_deviceId (ln_meta l) = v_id v) (ur_breakdown r).

Lemma report_spec e org w now db g r : report e org w now (rows (λ l, l) org db) g = Ok r →
  ur_orgId r = org ∧ ur_range r = range w ∧
  match g with
  | PaygLedger p => if rep_available p then adds_up org db w (rep_buckets p) r else no_figures r
  | ProviderNative _ => no_figures r
  end.
Proof.
  unfold report. destruct g as [p|p]; [destruct (rep_available p)|]; intros (qs & Hqs & [= <-])%res_bind_ok;
    (split; [done|split; [done|]]).
  2,3: split; [by intros []|split; [done|split; [done|exact (quota_unavailable _ _ _ _ _ Hqs)]]].
  set (metas := key_meta _). pose proof (summed_all w metas (rep_buckets p)) as Hs.
  pose proof (su_named _ _ _ _ Hs) as Hn. unfold adds_up. cbn [ur_totals ur_series ur_breakdown]. split_and!.
  - intros f. exists (in_sums f (foldl (add_entry w metas) (no_sums w) (rep_buckets p))). split; [by destruct f|].
    split; [apply Hs|]. split; [|apply Hs]. rewrite (sumQ_perm _ _ _ (stable_sort_perm costlier _)). apply Hs.
  - apply Hs.
  - change (map ln_key ?l) with (ln_key <$> l). rewrite (stable_sort_perm costlier _), <-list_fmap_compose.
    rewrite (list_fmap_ext _ fst); [apply Hs|]. intros i kl Hi%list_elem_of_lookup_2. rewrite Forall_forall in Hn.
    symmetry. exact (proj1 (Hn kl Hi)).
  - apply Forall_forall. intros l Hl. rewrite stable_sort_perm in Hl. apply list_elem_of_fmap in Hl as (kl & -> & Hl).
    rewrite Forall_forall in Hn. destruct (Hn kl Hl) as [_ (i & m & Hm & ->)].
    apply key_meta_spec in Hm as (row & k & Hrow & _ & _ & ->). apply rows_device in Hrow as (? & ? & _).
    by exists (row_device row).
Qed.

Section theorems.
Context (others : nat → ControlDB → ControlDB) (fails : nat → bool) (e : env).
Context {G : Type} `{GatewayAdapter G}.
Local Abbreviation State := (Backend G unit).

(** C33: the usage report adds up. When the ledger is available, each of the three totals (spend, tokens,
    requests) is the sum of the ledger's entries for the keys of the organization's devices, and it is the sum
    of the lines of the breakdown; the chart has one point per bucket of the window and sums the entries that
    fall into it; no two lines of the breakdown have the same device and model, and every line is of a device
    of the organization. When the ledger is unavailable, or the provider meters usage itself, the report has no
    figure: no total, point, line or used amount, instead of a zero. *)
Theorem usage_report_adds_up org requested now (s : State) r s' :
  usage others fails e org requested now s = (Ok r, s') →
  let db := control (world s') in
  org ≠ "" ∧ parseUsageRange requested = Ok (ur_range r) ∧
  ∃ w g, usageWindow (ur_range r) (Some now) = Ok w ∧
    Gateway.usage (map fst (key_meta (rows (λ l, l) org db))) (ur_range r) now (gateway s) = (Ok g, gateway s') ∧
    match g with
    | PaygLedger p => if rep_available p then adds_up org db w (rep_buckets p) r else no_figures r
    | ProviderNative _ => no_figures r
    end.
Proof.
  unfold usage. rewrite bind_guard. destruct (truthy org) eqn:Horg; [|done]. cbn [negb]. rewrite bind_lift.
  destruct (parseUsageRange requested) as [rg|] eqn:Hrg; [|done]. cbn [bad_request]. rewrite bind_lift.
  destruct (usageWindow rg (Some now)) as [w|] eqn:Hw; [|done].
  intros (l & s1 & Hl & (g & s2 & Hg & Hrep)%bind_ok)%bind_ok. apply query_read in Hl as (-> & _ & Hgw).
  unfold gateway_call in Hg. destruct (Gateway.usage _ _ _ _) as [r0 g'] eqn:Hu. injection Hg as -> <-.
  unfold lift in Hrep. injection Hrep as Hrep <-. cbn [world control gateway].
  destruct (report_spec _ _ _ _ _ _ _ Hrep) as (_ & Hrange & Hspec).
  assert (range w = rg) as Hwr by (destruct rg; simpl in Hw; by injection Hw as <-).
  rewrite Hrange, Hwr. split; [by apply truthy_true|]. split; [done|]. exists w, g. split; [done|]. split; [|exact Hspec].
  by rewrite <-Hgw.
Qed.

Lemma tokenIsActive_usable v k now : tokenIsActive v k now = true ↔
  revocationRequestedAt v = None ∧ Token.usable (Some (validatable k)) now.
Proof.
  unfold tokenIsActive, Token.usable. rewrite !andb_true_iff, !negb_true_iff, !isSome_false.
  destruct (k_expiresAt k) as [x|] eqn:Hx; rewrite ?Z.ltb_lt; split.
  - intros [[??] ?]. split; [done|]. eexists. split; [done|]. cbn. rewrite Hx. split; [done|]. by intros ? [= <-].
  - intros [? (t & [= <-] & Hr & He)]. cbn in Hr, He. split; [done|]. by apply He.
  - intros [[??] ?]. split; [done|]. eexists. split; [done|]. cbn. by rewrite Hx.
  - intros [? (t & [= <-] & Hr & He)]. done.
Qed.

Lemma forallb_false {A} (f : A → bool) l : forallb f l = false → ∃ x, x ∈ l ∧ f x = false.
Proof.
  induction l as [|x l IH]; [done|]. cbn [forallb]. intros [Hx|(y & ? & ?)%IH]%andb_false_iff; [exists x|exists y]; set_solver.
Qed.

(** A row of the view, for the device and its tokens in the database. *)
Definition shows (db : ControlDB) (m : list (string * option Q)) (now : Z) (v : Device) (d : FleetDevice) : Prop :=
  let l := tokens_of (v_id v) db in
  device_id d = v_id v ∧ map fk_id (keys d) ≡ₚ map k_gatewayKeyId l ∧
  (token_active d = true ↔ revocationRequestedAt v = None ∧ ∃ k, k ∈ l ∧ Token.usable (Some (validatable k)) now) ∧
  (token_active d = true → ∃ x, x ∈ keys d ∧ fk_status x = "active") ∧
  match fd_spend d with
  | Some q => l ≠ [] ∧ Forall (λ k, is_Some (spend_of m k)) l ∧ (q == sumQ (λ k, nullish (spend_of m k) 0) l)%Q
  | None => l = [] ∨ ∃ k, k ∈ l ∧ spend_of m k = None
  end.

Lemma fleet_device_shows db m now v d :
  fleet_device e m now (row_of newest_first db v) = Ok d → shows db m now v d.
Proof.
  unfold fleet_device, shows. cbv zeta. change (row_device (row_of newest_first db v)) with v.
  change (row_tokens (row_of newest_first db v)) with (newest_first (tokens_of (v_id v) db)).
  set (l := tokens_of (v_id v) db). assert (newest_first l ≡ₚ l) as Hp by apply sort_by_perm.
  intros (models & _ & [= <-])%res_bind_ok.
  cbn [device_id keys token_active fd_spend]. split; [done|]. split.
  { change (map ?f ?k) with (f <$> k). rewrite <-list_fmap_compose, Hp. done. }
  assert (isSome (snd <$> list_find (λ k, tokenIsActive v k now = true) (newest_first l)) = true ↔
    ∃ k, k ∈ l ∧ tokenIsActive v k now = true) as Ha.
  { rewrite isSome_true, fmap_is_Some. split.
    - intros [[n k] (Hk & Hact & _)%list_find_Some]. exists k. split; [|done]. rewrite <-Hp. by eapply list_elem_of_lookup_2.
    - intros (k & Hk & Hact). rewrite <-Hp in Hk. by eapply list_find_elem_of. }
  split; [|split].
  - rewrite Ha. setoid_rewrite tokenIsActive_usable. naive_solver.
  - intros (k & Hk & Hact)%Ha. rewrite <-Hp in Hk. exists (fleet_key v m now k). split; [by apply list_elem_of_fmap_2|].
    unfold tokenIsActive in Hact. cbn [fleet_key fk_status]. unfold key_status, expired.
    apply andb_true_iff in Hact as [[->%negb_true_iff ->%negb_true_iff]%andb_true_iff Hexp]. cbn [andb].
    destruct (k_expiresAt k) as [x|]; [|done]. apply Z.ltb_lt in Hexp. by rewrite (proj2 (Z.leb_gt x now)).
  - rewrite length_map. assert (length (newest_first l) = length l) as -> by (by rewrite Hp).
    destruct (negb (length l =? 0)%nat && _) eqn:Hav.
    + apply andb_true_iff in Hav as [Hl Hall]. split; [by destruct l|]. split.
      * apply Forall_forall. intros k Hk. rewrite <-Hp in Hk. rewrite forallb_forall in Hall.
        apply isSome_true, Hall, list_elem_of_In, list_elem_of_fmap_2, Hk.
      * change (map ?f ?k) with (f <$> k). rewrite sumQ_fmap. by apply sumQ_perm.
    + apply andb_false_iff in Hav as [Hl|Hall]; [left; by destruct l|]. right.
      apply forallb_false in Hall as (x & (k & -> & Hk)%list_elem_of_fmap & Hx%isSome_false). exists k. by rewrite <-Hp.
Qed.

(** the fleet view shows what the other requests would act on. Its rows are the devices of the organization,
    each with all its keys. A device is shown with an active token exactly when no revocation was requested and
    one of its tokens is usable now, the condition [assertTokenUsable] enforces, and then one of its keys is shown
    as active. Its spend is the exact sum over all its keys, revoked ones too, and is shown only when the ledger
    reported every one of them. *)
Theorem fleet_shows_current_access org now (s : State) l s' :
  fleet others fails e org now s = (Ok l, s') →
  let db := control (world s') in
  ∃ records vs, listSpend (flat_map (λ v, map k_gatewayKeyId (newest_first (tokens_of (v_id v) db))) vs) (gateway s)
      = (Ok records, gateway s') ∧
    vs ≡ₚ filter (λ v, v_org v = org) (devices db) ∧ Forall2 (shows db (spend_map records) now) vs l.
Proof.
  unfold fleet. intros (rs & s1 & Hl & (records & s2 & Hg & Hrep)%bind_ok)%bind_ok.
  apply query_read in Hl as (-> & _ & Hgw). unfold gateway_call in Hg. destruct (listSpend _ _) as [r0 g'] eqn:Hu.
  injection Hg as -> <-. unfold lift in Hrep. injection Hrep as Hrep <-. cbn [world control gateway].
  exists records, (sort_by (λ v, - v_lastSeenAt v) (filter (λ v, v_org v = org) (devices (control (world s1))))).
  split; [|split; [apply sort_by_perm|]].
  - rewrite <-Hgw, <-Hu. f_equal. unfold rows. generalize (sort_by (λ v, - v_lastSeenAt v) (filter (λ v, v_org v = org) (devices (control (world s1))))).
    intros vs. induction vs as [|v vs IH]; [done|]. cbn. f_equal. exact IH.
  - rewrite mapR_ok in Hrep. unfold rows in Hrep.
    change (map ?f ?k) with (f <$> k) in Hrep. rewrite Forall2_fmap_l in Hrep.
    eapply Forall2_impl; [exact Hrep|]. intros v d. apply fleet_device_shows.
Qed.
End theorems.

(** * Witnesses *)

(** A ledger with two entries of the device's key and one of a key of another organization. *)
Definition demo_entry (k : string) (at_ : Z) (cost : Q) : GatewayUsageBucket :=
  {| ub_keyId := k; ub_bucketAt := at_; ub_model := "m"; ub_spend := cost; ub_totalTokens := 10; ub_requests := 1;
     ub_lastRequestAt := at_ |}.
Definition demo_ledger : GatewayAdapter unit := {|
  Gateway.issueKey o := raise (Error "read-only"); Gateway.syncKeyModels k l := mret l; Gateway.revokeKey k := mret tt;
  Gateway.listSpend l := mret (map (λ k, {| sp_keyId := k; sp_spend := Some (3 # 2) |}) l);
  Gateway.usage l r now := mret (PaygLedger {| rep_source := "litellm"; rep_available := true;
    rep_buckets := [demo_entry "d1" 0 (1 # 2); demo_entry "d1" hourMs (1 # 4); demo_entry "zz" 0 1]; rep_rolling := [] |});
  Gateway.readiness := mret true |}.
Definition demo_views : Backend unit unit :=
  {| world := world demo_admin_state; gateway := tt; clock := 0; locals := tt |}.

Lemma usage_report_adds_up_witness : ∃ r s',
  usage (H := demo_ledger) nobody calm (λ _, None) "o1" None (2 * hourMs) demo_views = (Ok r, s') ∧
  option_map Qred (tt_spend (ur_totals r)) = Some (3 # 4)%Q ∧ length (ur_breakdown r) = 1%nat ∧
  parseUsageRange None = Ok (ur_range r).
Proof.
  eexists _, _. split; [vm_compute; reflexivity|]. split; [reflexivity|]. split; [reflexivity|].
  refine (proj1 (proj2 (usage_report_adds_up (H := demo_ledger) nobody calm (λ _, None) "o1" None (2 * hourMs) demo_views _ _ _))).
  vm_compute. reflexivity.
Defined.

Lemma fleet_shows_current_access_witness : ∃ l s',
  fleet (H := demo_ledger) nobody calm (λ _, None) "o1" 100 demo_views = (Ok l, s') ∧ map token_active l = [true] ∧
  ∃ records vs, listSpend (GatewayAdapter := demo_ledger) (flat_map (λ v, map k_gatewayKeyId (newest_first (tokens_of (v_id v) (control (world s'))))) vs)
      (gateway demo_views) = (Ok records, gateway s') ∧
    vs ≡ₚ filter (λ v, v_org v = "o1") (devices (control (world s'))) ∧
    Forall2 (shows (control (world s')) (spend_map records) 100) vs l.
Proof.
  eexists _, _. split; [vm_compute; reflexivity|]. split; [reflexivity|].
  refine (fleet_shows_current_access (H := demo_ledger) nobody calm (λ _, None) "o1" 100 demo_views _ _ _).
  vm_compute. reflexivity.
Defined.
