(* ===== verification/AdminApi.v ===== *)
(** What the routes of an administrator can reach in the shared tables ([src/admin/admin.controller.ts],
    [src/service-bindings/service-bindings.controller.ts]): the controllers over the services of [Admin], [Fleet] and
    [Bindings]. A run is a sequence of steps, some of other requests; the steps of the request itself stay in
    the organization the administrator is confined to. *)
From S2P Require Import Prelude Js Table AuditStore Crypto OrgTree Ssrf KeyPolicy ModelPolicy Access Secrets ControlDb Bindings Gateway Desk Services Admin Fleet Tenancy.
Local Open Scope nat_scope.

(** * Confined steps *)

(** The rows of the other organizations are as they were. *)
Record confined (o : string) (d d' : ControlDB) : Prop := {
  cf_orgs : orgs d' = orgs d;
  cf_persons : persons d' = persons d;
  cf_bindings : elsewhere t_orgId o (bindings d') = elsewhere t_orgId o (bindings d);
  cf_codes : elsewhere ec_org o (codes d') = elsewhere ec_org o (codes d);
  cf_devices : elsewhere v_org o (devices d') = elsewhere v_org o (devices d);
  cf_tokens : ∀ v, v ∈ devices d → v_org v ≠ o → tokens_of (v_id v) d' = tokens_of (v_id v) d;
  cf_secrets : elsewhere s_org (Some o) (secrets (vault d')) = elsewhere s_org (Some o) (secrets (vault d));
  cf_audits : elsewhere ev_org o (audits d') = elsewhere ev_org o (audits d) }.
Lemma confined_here o d : confined o d d.
Proof. done. Qed.
Lemma confined_event o d d' ev : ev_org ev = o → confined o d d' → confined o d (record_event ev d').
Proof. intros Hev []. split; try done. cbn [record_event control_audit audits]. by rewrite elsewhere_snoc. Qed.
#[export] Hint Resolve confined_here : tenancy.

Section steps.
Context (others : nat → ControlDB → ControlDB) (o : string).

(** A step of the request, or one of the others. *)
Definition step (d d' : ControlDB) : Prop := confined o d d' ∨ ∃ n, d' = others n d.

(** A computation whose state has the tables: from [P] it moves by steps, and [Q] holds when it returns. *)
Section rules.
Context {S : Type} (tables : S → ControlDB).
Definition stays_in {A} (P : ControlDB → Prop) (m : M S A) (Q : A → ControlDB → Prop) : Prop := ∀ s,
  P (tables s) → rtc step (tables s) (tables (m s).2) ∧ ∀ a, (m s).1 = Ok a → Q a (tables (m s).2).

Lemma stays_bind {A B} P Q R (m : M S A) (k : A → M S B) :
  stays_in P m Q → (∀ a, stays_in (Q a) (k a) R) → stays_in P (m ≫= k) R.
Proof.
  intros Hm Hk s Hs. specialize (Hm s Hs). unfold mbind, M_bind. destruct (m s) as [[a|er] s1]; cbn [fst snd] in *.
  - destruct Hm as [H1 HQ]. destruct (Hk a s1 (HQ a eq_refl)) as [H2 HR]. split; [by etrans|done].
  - split; [apply Hm|done].
Qed.
Lemma stays_weaken {A} (P P' : ControlDB → Prop) (Q Q' : A → ControlDB → Prop) m :
  stays_in P' m Q' → (∀ d, P d → P' d) → (∀ a d, Q' a d → Q a d) → stays_in P m Q.
Proof. intros Hm HP HQ s Hs. destruct (Hm s (HP _ Hs)). split; [done|]. eauto. Qed.
Lemma stays_anyway {A} P Q (m : M S A) : stays_in (λ _, True) m Q → stays_in P m Q.
Proof. intros Hm. by eapply stays_weaken. Qed.
Lemma stays_done {A} P Q (m : M S A) : stays_in P m Q → stays_in P m (λ _ _, True).
Proof. intros Hm. by eapply stays_weaken. Qed.
(** What holds for good once it is known. *)
Lemma stays_fact {A} P (F : Prop) Q (m : M S A) :
  (∀ d, P d → F) → (F → stays_in P m Q) → stays_in P m Q.
Proof. intros HF Hm s Hs. by apply Hm; [eapply HF|]. Qed.
(** A computation that leaves the tables alone. *)
Lemma stays_pure {A} P (m : M S A) : (∀ s, tables (m s).2 = tables s) → stays_in P m (λ _, P).
Proof. intros Hm s Hs. rewrite Hm. by split. Qed.
Lemma stays_ret {A} P (a : A) : stays_in P (mret a) (λ _, P).
Proof. by apply stays_pure. Qed.
Lemma stays_raise {A} P e : stays_in P (raise (A := A) e) (λ _, P).
Proof. by apply stays_pure. Qed.
Lemma stays_guard P b e : stays_in P (guard_throw b e) (λ _, P).
Proof. apply stays_pure. by destruct b. Qed.
Lemma stays_lift {A} P (r : res A) : stays_in P (lift r) (λ a d, P d ∧ r = Ok a).
Proof. intros s Hs. split; [done|]. intros a Ha. by split. Qed.
Lemma stays_require {A} P (x : option A) e : stays_in P (require x e) (λ a d, P d ∧ x = Some a).
Proof. intros s Hs. destruct x; (split; [done|]); [by intros a' [= <-]|done]. Qed.
Lemma stays_try {A} P (m : M S A) h Q R :
  stays_in P m R → (∀ e, stays_in Q (h e) R) → (∀ d, P d → Q d) → (∀ d d', Q d → step d d' → Q d') →
  stays_in P (try_catch m h) R.
Proof.
  intros Hm Hh HPQ Hstable s Hs. specialize (Hm s Hs). unfold try_catch. destruct (m s) as [[a|er] s1]; cbn [fst snd] in *; [done|].
  destruct Hm as [H1 _]. assert (Q (tables s1)) as HQ.
  { assert (∀ d d', rtc step d d' → Q d → Q d') as Hrtc by (induction 1; eauto). eapply Hrtc; [exact H1|by apply HPQ]. }
  destruct (Hh er s1 HQ). split; [by etrans|done].
Qed.
End rules.

(** On the database itself: one confined step. *)
Lemma stays_own {A} (P : ControlDB → Prop) (m : M ControlDB A) (Q : A → ControlDB → Prop) :
  (∀ d, P d → confined o d (m d).2 ∧ ∀ a, (m d).1 = Ok a → Q a (m d).2) → stays_in (λ d, d) P m Q.
Proof. intros Hm d Hd. destruct (Hm d Hd). split; [|done]. apply rtc_once. by left. Qed.
Lemma stays_suspend (P : ControlDB → Prop) n : (∀ d, P d → P (others n d)) → stays_in (λ d, d) P (suspend others n) (λ _, P).
Proof. intros HP d Hd. split; [apply rtc_once; right; by exists n|]. intros ? _. by apply HP. Qed.
Lemma stays_gets {A} (P : ControlDB → Prop) (f : ControlDB → A) : stays_in (λ d, d) P (gets f) (λ a d, P d ∧ a = f d).
Proof. intros d Hd. split; [done|]. by intros a [= <-]. Qed.

(** On a service state: a database call. *)
Section backend.
Context (fails : nat → bool) {G L : Type}.
Local Abbreviation tables := (λ s : Backend G L, control (world s)).
Lemma stays_query {A} (P : ControlDB → Prop) (m : M ControlDB A) (Q : A → ControlDB → Prop) :
  (∀ n d, P d → P (others n d)) →
  (∀ d, P d → confined o d (m d).2 ∧ ∀ a, (m d).1 = Ok a → Q a (m d).2) →
  stays_in tables P (query others fails m) Q.
Proof.
  intros HP Hm s Hs. destruct (query others fails m s) as [r s'] eqn:Hq. cbn [fst snd].
  assert (rtc step (tables s) (others (clock s) (tables s))) as H1 by (apply rtc_once; right; by eexists).
  apply query_spec in Hq as [_ [(er & -> & ->)|Hq]]; [by split|].
  destruct (Hm _ (HP (clock s) _ Hs)) as [Hc HQ]. rewrite Hq in Hc, HQ. split; [|done].
  etrans; [exact H1|]. apply rtc_once. by left.
Qed.
Lemma stays_read {A} (P : ControlDB → Prop) (f : ControlDB → A) :
  (∀ n d, P d → P (others n d)) → stays_in tables P (query others fails (gets f)) (λ a d, P d ∧ a = f d).
Proof. intros HP. apply stays_query; [done|]. intros d Hd. split; [done|]. by intros a [= <-]. Qed.
Lemma stays_gateway {A} P (m : M G A) : stays_in tables P (gateway_call m) (λ _, P).
Proof. apply stays_pure. intros s. unfold gateway_call. by destruct (m _). Qed.
End backend.
End steps.

(** * Fleet administration *)

(** The device is not one of another organization. *)
Definition home (o i : string) (d : ControlDB) : Prop := at_home v_org v_id o i (devices d).

Lemma audited_stays_confined {T} o action aType aId (m : M ControlDB (T * string * payload_arg)) d :
  (∀ x org p d', m d = (Ok (x, org, p), d') → org = o ∧ confined o d d') →
  confined o d (audited action aType aId m d).2.
Proof.
  intros Hm. destruct (audited action aType aId m d) as [[x|er] d'] eqn:Hrun.
  - apply audited_ok in Hrun as (org & p & d1 & Hx & ->). destruct (Hm _ _ _ _ Hx) as [-> Hc]. by apply confined_event.
  - by apply audited_throw in Hrun as ->.
Qed.

(** Writing over the columns of a device that do not name it. *)
Lemma devices_confined o f d :
  (∀ v, v ∈ devices d → f v = v ∨ v_org v = o ∧ v_org (f v) = o) → confined o d (on_devices (map f) d).
Proof. intros Hf. split; try done. by apply elsewhere_map. Qed.
Lemma tokens_confined o i f d : home o i d → (∀ k, k_device k ≠ i → f k = k) → (∀ k, k_device (f k) = k_device k) →
  confined o d (on_tokens (map f) d).
Proof.
  intros Hh Hf Hk. split; try done. intros v Hv Ho. unfold tokens_of. cbn [tokens on_tokens].
  assert (v_id v ≠ i) as Hne by (intros Heq; by apply Ho, (Hh v)).
  induction (tokens d) as [|k l IH]; [done|]. cbn [map]. rewrite !filter_cons, IH, Hk.
  case_decide as Hd; [|done]. f_equal. apply Hf. congruence.
Qed.
Lemma confined_trans_devices o f d d' :
  confined o d d' → (∀ v, v ∈ devices d' → f v = v ∨ v_org v = o ∧ v_org (f v) = o) → confined o d (on_devices (map f) d').
Proof.
  intros [] Hf. split; try done. cbn [devices on_devices]. by rewrite elsewhere_map.
Qed.

Lemma insert_code_confined org person c r ttl d x o' p d' :
  ec_org c = org → insert_code org person c r ttl d = (Ok (x, o', p), d') → o' = org ∧ confined org d d'.
Proof.
  intros Hc. unfold insert_code, gets, create_code. intros Hrun. inv_ok. simplify_eq. split; [done|].
  destruct (existsb _ _) in *; simplify_eq. split; try done. cbn [codes on_codes]. by rewrite elsewhere_snoc.
Qed.

Lemma bind_person_confined o v p d x o' pl d' :
  v_org v = o → bind_person v p d = (Ok (x, o', pl), d') → o' = o ∧ confined o d d'.
Proof.
  intros Hv. unfold bind_person, update_devices. unfold mbind at 1, M_bind at 1. rewrite bind_guard.
  destruct (negb _); [done|]. match goal with |- context [on_devices (map ?g) d] => set (f := g) end. set (d1 := on_devices (map f) d).
  assert (confined o d d1) as H1.
  { apply devices_confined. intros y _. unfold f. destruct (_ && _) eqn:Hhit; [|by left]. right.
    apply andb_true_iff in Hhit as [[_ Ho%String.eqb_eq]%andb_true_iff _]. split; [|cbn]; congruence. }
  unfold when, modify, mbind, M_bind, mret, M_ret. destruct (negb _); intros [= _ <- _ <-]; (split; [done|]); [|done].
  destruct H1. split; try done. cbn [codes on_codes]. rewrite elsewhere_map; [done|]. intros c _.
  destruct (_ && _) eqn:Hhit; [|by left]. right. apply andb_true_iff in Hhit as [[_ Ho%String.eqb_eq]%andb_true_iff _].
  split; [|cbn]; congruence.
Qed.

Lemma request_revocation_confined i o now d x o' pl d' :
  home o i d → request_revocation i o now d = (Ok (x, o', pl), d') → o' = o ∧ confined o d d' ∧ home o i d'.
Proof.
  intros Hh. unfold request_revocation, update_devices, update_tokens, mbind, M_bind, mret, M_ret. intros [= _ <- _ <-].
  match goal with |- context [on_tokens (map ?k) (on_devices (map ?v) d)] => set (f := v); set (g := k) end.
  assert (∀ v, v_id (f v) = v_id v ∧ v_org (f v) = v_org v) as Hf by (intros v; unfold f; by destruct (_ && _)).
  split; [done|]. split.
  - assert (confined o d (on_tokens (map g) d)) as Hg.
    { apply (tokens_confined o i); [done|..]; intros k; unfold g; [|by destruct (_ && _)].
      intros Hk. by rewrite (proj2 (String.eqb_neq _ _) Hk). }
    apply (confined_trans_devices o f) in Hg; [done|]. intros v Hv. destruct (decide (v_id v = i)) as [Hi|Hi].
    + right. rewrite (proj2 (Hf v)). split; by apply Hh.
    + left. unfold f. by rewrite (proj2 (String.eqb_neq _ _) Hi).
  - intros v Hv Hi. cbn [devices on_tokens on_devices] in Hv. apply list_elem_of_fmap in Hv as (y & -> & Hy).
    rewrite (proj2 (Hf y)). apply Hh; [done|]. by rewrite <-(proj1 (Hf y)).
Qed.

Lemma complete_revocation_confined v n desk now o d x o' pl d' :
  home o (v_id v) d → v_org v = o → complete_revocation v n desk now d = (Ok (x, o', pl), d') → o' = o ∧ confined o d d'.
Proof.
  intros Hh Hv. unfold complete_revocation, gets. cbv zeta. unfold mbind at 1, M_bind at 1.
  destruct (find_device d (v_id v)); [|done]. cbn [require]. rewrite ret_bind.
  unfold modify, mbind, M_bind, mret, M_ret. intros [= _ <- _ <-]. split; [done|].
  apply devices_confined. intros y Hy. destruct (decide (v_id y = v_id v)) as [Hi|]; [|by left]. right.
  rewrite (Hh y Hy Hi). split; [done|]. destruct desk; cbn; by apply Hh.
Qed.

(** The requests of the controller that name an organization or a device. *)
Inductive FleetRequest :=
  | ReqCreateCode (i code org : string) (model baseUrl : option string) (ttlMinutes : option Q) (person : string) (options : CodeOptions)
  | ReqRevoke (i : string)
  | ReqBindPerson (i person : string).
(** The device a request names, if it names one. *)
Definition device_of (q : FleetRequest) : option string :=
  match q with ReqCreateCode _ _ _ _ _ _ _ _ => None | ReqRevoke i | ReqBindPerson i _ => Some i end.

Section fleet.
Context (isIPv6 : string → bool) (URL : string → option url) (resolve : string → string → option string)
  (lookup_at : nat → string → res (list string)) (JSON_parse : string → option json) (kms : KmsAdapter).
Context (respond : list (string * json) → nat → string → json → res Response).
Context (others : nat → ControlDB → ControlDB) (fails : nat → bool).
Context (targets : list (string * Target)) (has_desk has_bindings : bool) (e : env).
Context {G : Type} `{GatewayAdapter G}.
Local Abbreviation State := (Backend G unit).

Definition fleet_route (user : Guard.AuthedUser) (q : FleetRequest) (now : Z) : M State unit :=
  match q with
  | ReqCreateCode i code org model baseUrl ttl person options =>
      _ ← post_enroll_code others fails e i code org model baseUrl ttl person user options now; mret tt
  | ReqRevoke i =>
      _ ← revokeDevice isIPv6 URL resolve lookup_at JSON_parse kms respond others fails targets has_desk has_bindings i user now; mret tt
  | ReqBindPerson i person => _ ← bindDevicePerson others fails i person user; mret tt
  end.
(** ** The reads *)

Definition list_orgs (user : Guard.AuthedUser) : M State (list OrgTree.Organization) :=
  let global := isGlobalOperator user in
  _ ← guard_throw (negb global && absent (Guard.orgId user)) denied;
  listOrgs others fails (Guard.orgId user) global.
Record ModelOptions := { mo_defaultModel : string; mo_models : list ManagedModelOption }.
Definition model_options : res ModelOptions :=
  m ← defaultManagedModel e;
  l ← managedModelOptions e;
  Ok {| mo_defaultModel := m; mo_models := l |}.
Definition fleet_view (user : Guard.AuthedUser) (org : string) (now : Z) : M State (list FleetDevice) :=
  _ ← lift (Guard.assertAdminOrgAccess user org);
  fleet others fails e org now.
Definition usage_view (user : Guard.AuthedUser) (org : string) (range : option string) (now : Z) : M State UsageReport :=
  _ ← lift (Guard.assertAdminOrgAccess user org);
  Fleet.usage others fails e org range now.

(** ** The steps of a request *)

Context (o : string).
Local Abbreviation tables := (λ s : State, control (world s)).
Local Abbreviation unique_ids := (λ d, NoDup (map v_id (devices d))).
(** The others keep the identifiers of devices unique, and do not move the device the request names to
    another organization. *)
Record bystanders (q : FleetRequest) : Prop := {
  by_unique n d : unique_ids d → unique_ids (others n d);
  by_home i n d : device_of q = Some i → home o i d → home o i (others n d) }.

Lemma stays_transact {T} (P : ControlDB → Prop) action user (m : M ControlDB (T * string * payload_arg)) (Q : ControlDB → Prop) :
  (∀ n d, P d → P (others n d)) → (∀ ev d, Q d → Q (record_event ev d)) →
  (∀ d x o' p d', P d → m d = (Ok (x, o', p), d') → o' = o ∧ confined o d d' ∧ Q d') →
  stays_in others o tables P (transact others fails action user m) (λ _, Q).
Proof.
  intros HP HQ Hm. apply stays_query; [done|]. intros d Hd. split.
  - apply audited_stays_confined. intros x o' p d' Hx. by destruct (Hm _ _ _ _ _ Hd Hx) as (? & ? & _).
  - intros a. destruct (audited _ _ _ m d) as [r d'] eqn:Hrun. cbn [fst snd]. intros ->.
    apply audited_ok in Hrun as (o' & p & d1 & Hx & ->). apply HQ. by destruct (Hm _ _ _ _ _ Hd Hx) as (_ & _ & ?).
Qed.

Lemma create_code_stays user i code org model baseUrl ttl person options now :
  confined_to o user →
  stays_in others o tables (λ _, True) (post_enroll_code others fails e i code org model baseUrl ttl person user options now) (λ _ _, True).
Proof.
  intros Huser. unfold post_enroll_code, createEnrollCode.
  eapply stays_bind; [apply stays_lift|]. intros []. eapply stays_bind; [apply stays_guard|]. intros [].
  eapply stays_bind; [apply stays_guard|]. intros []. do 4 (eapply stays_bind; [apply stays_lift|]; intros ?). cbv zeta.
  apply stays_transact; [done..|]. intros d x o' p d' (((((_ & Ha) & _) & _) & _) & _) Hx.
  apply (confined_access _ _ _ Huser) in Ha as ->. by apply insert_code_confined in Hx as [-> ?].
Qed.
Lemma bind_person_stays user i person :
  confined_to o user → stays_in others o tables (λ _, True) (bindDevicePerson others fails i person user) (λ _ _, True).
Proof.
  intros Huser. unfold bindDevicePerson. eapply stays_bind; [by apply stays_read|]. intros device.
  eapply stays_bind; [apply stays_anyway; by apply (stays_read others o fails (λ _, True))|]. intros p.
  eapply stays_bind; [apply stays_require|]. intros v. eapply stays_bind; [apply stays_lift|]. intros [].
  eapply stays_bind; [apply stays_require|]. intros q. do 2 (eapply stays_bind; [apply stays_guard|]; intros []).
  case_bool_decide; [eapply stays_done, stays_ret|].
  apply (stays_fact others o _ _ (v_org v = o)); [intros d ((_ & Ha) & _); by apply (confined_access _ _ _ Huser)|]. intros Ho.
  apply stays_anyway, stays_transact; [done..|]. intros d x o' pl d' _ Hx. by destruct (bind_person_confined _ _ _ _ _ _ _ _ Ho Hx).
Qed.

(** What the request knows once it has read the device and passed the check. *)
Definition known (i : string) (v : Device) (d : ControlDB) : Prop := home o i d ∧ v_id v = i ∧ v_org v = o.

Lemma revoke_keys_stays P l : stays_in others o tables P (revoke_keys l : M State unit) (λ _, P).
Proof.
  induction l as [|k l IH]; cbn [revoke_keys]; [apply stays_ret|]. eapply stays_bind; [apply stays_gateway|]. by intros [].
Qed.
Lemma revoke_desk_stays P v :
  stays_in others o tables P
    (revoke_desk isIPv6 URL resolve lookup_at JSON_parse kms respond targets has_desk has_bindings v : M State bool) (λ _, P).
Proof.
  unfold revoke_desk. destruct (desk_bound v); [|apply stays_ret]. eapply stays_bind; [apply stays_guard|]. intros [].
  eapply stays_bind; [|intros ?; apply stays_ret]. apply stays_pure. intros s. unfold desk_call.
  destruct (revokeInstallation _ _ _ _ _ _ _ _ _ _ _ _ _ _ _) as [x w] eqn:Hr. by apply revokeInstallation_spec in Hr as [Hc _].
Qed.

Lemma revoke_stays user i now :
  bystanders (ReqRevoke i) → confined_to o user →
  stays_in others o tables unique_ids
    (revokeDevice isIPv6 URL resolve lookup_at JSON_parse kms respond others fails targets has_desk has_bindings i user now : M State _)
    (λ _ _, True).
Proof.
  intros Hby Huser. unfold revokeDevice. eapply stays_bind; [apply stays_read; intros n d; apply (by_unique _ Hby)|]. intros found.
  destruct found as [dev|]; [|eapply stays_done, stays_ret].
  eapply stays_bind; [apply stays_lift|]. intros [].
  apply (stays_fact others o _ _ (v_org dev = o)); [intros d (_ & Ha); by apply (confined_access _ _ _ Huser)|]. intros Ho.
  apply (stays_weaken others o _ _ (home o i) _ (λ _ _, True)); [|intros d ((Hnd & Hf) & _)|done].
  2: { rewrite <-Ho. by apply find_at_home. }
  assert (∀ n d, home o i d → home o i (others n d)) as Hstable by (intros; by eapply by_home).
  eapply (stays_bind others o _ _ (λ _, home o i)).
  { unfold when. destruct (negb _); [|apply stays_ret]. eapply stays_bind; [|intros ?; apply stays_ret].
    apply stays_transact; [done| |].
    - done.
    - intros d x o' p d' Hh Hx. rewrite Ho in Hx. by apply request_revocation_confined in Hx as (-> & ? & ?). }
  intros []. eapply stays_bind; [by apply stays_read|]. intros [v|]; [|eapply stays_done, stays_ret].
  apply (stays_fact others o _ _ (v_id v = i ∧ v_org v = o)).
  { intros d (Hh & Hv). symmetry in Hv. apply find_by_Some in Hv as [Hi Hin]. split; [done|]. by apply Hh. }
  intros [Hi Hv]. apply (stays_weaken others o _ _ (home o i) _ (λ _ _, True)); [|by intros d []|done].
  eapply stays_bind; [by apply stays_read|]. intros l.
  apply (stays_weaken others o _ _ (home o i) _ (λ _ _, True)); [|by intros d []|done].
  destruct (isSome _); [eapply stays_done, stays_ret|].
  eapply stays_bind; [apply revoke_keys_stays|]. intros []. eapply stays_bind; [apply revoke_desk_stays|]. intros desk.
  apply stays_transact; [done..|]. intros d x o' p d' Hh Hx. rewrite <-Hi in Hh.
  by destruct (complete_revocation_confined _ _ _ _ _ _ _ _ _ _ Hh Hv Hx).
Qed.

(** C12: An administrator's fleet requests stay in the administrator's organization. Take a request of an
    administrator confined to one organization that issues an enrollment code, revokes a device or binds a
    person to a device, with the ids of the caller's choice. However its database calls fail and whatever
    other requests run around them, the tables move only by steps of those others and by steps that leave
    every organization and person, and all bindings, codes, devices, tokens, secrets and audit events of the other
    organizations as they are. *)
Theorem fleet_stays_home user q now (s : State) r s' :
  bystanders q → confined_to o user → NoDup (map v_id (devices (control (world s)))) →
  fleet_route user q now s = (r, s') →
  rtc (step others o) (control (world s)) (control (world s')).
Proof.
  intros Hby Huser Hnd Hrun.
  assert (stays_in others o tables unique_ids (fleet_route user q now) (λ _ _, True)) as Hstay.
  { destruct q; cbn [fleet_route]; (eapply stays_bind; [|intros ?; apply stays_ret]).
    - by apply stays_anyway, create_code_stays.
    - by apply revoke_stays.
    - by apply stays_anyway, bind_person_stays. }
  destruct (Hstay s Hnd) as [H1 _]. by rewrite Hrun in H1.
Qed.
End fleet.

(** * Service bindings *)

Section bindings.
Context (isIPv6 : string → bool) (URL : string → option url) (resolve : string → string → option string)
  (lookup_at : nat → string → res (list string)) (fetch_at : nat → string → res Response)
  (JSON_parse : string → option json) (kms : KmsAdapter).
Context (others : nat → ControlDB → ControlDB) (o : string).

(** The primary keys of the two tables. *)
Definition unique_rows (d : ControlDB) : Prop := NoDup (map t_id (bindings d)) ∧ NoDup (map s_id (secrets (vault d))).
Local Abbreviation id_ := (λ d : ControlDB, d).
Local Abbreviation any := (λ _ : ControlDB, True).
Local Abbreviation whatever := (λ _ _, True).

Lemma put_confined now rid rnd name bytes d :
  unique_rows d → confined o d (in_vault (put kms now rid rnd (Some o) name bytes) d).2.
Proof.
  intros [_ Hnd]. unfold in_vault, put. rewrite bind_lift. destruct (encrypt kms rnd bytes (Some o)) as [env|]; [|by destruct d].
  unfold write_envelope, gets. unfold mbind, M_bind. destruct (find_secret (vault d) (Some o) name) as [x|] eqn:Hx; unfold modify; cbn [snd].
  - apply find_secret_Some in Hx as [[Horg _] Hin]. split; try done. cbn [vault with_vault secrets set_secrets]. unfold rotate.
    apply elsewhere_map. intros y Hy. case_decide as Hi; [|by left]. right.
    pose proof (find_by_unique s_id _ _ y Hnd Hy Hi). pose proof (find_by_unique s_id _ _ x Hnd Hin eq_refl).
    assert (y = x) as -> by congruence. done.
  - split; try done. cbn [vault with_vault secrets set_secrets]. by rewrite elsewhere_snoc.
Qed.

Lemma remove_confined ref d : confined o d (remove_secret o ref d).2.
Proof.
  destruct ref as [name|]; [|done]. split; try done. unfold elsewhere. cbn [vault with_vault remove_secret in_vault].
  unfold in_vault, remove, modify. cbn [snd vault with_vault secrets set_secrets]. rewrite list_filter_filter.
  apply filter_same. intros x _. unfold has_key. naive_solver.
Qed.
Lemma log_confined action actor p d : confined o d (log_binding o action actor p d).2.
Proof. by apply confined_event. Qed.
Lemma upsert_row_confined bid s c ref caps now d : confined o d (upsert_row bid o s c ref caps now d).2.
Proof.
  unfold upsert_row, withServiceBindingLock, transaction, gets, modify, guard_throw, raise, mbind, M_bind, mret, M_ret.
  destruct (_ && _); [done|]. destruct (find_binding d o s) as [b|] eqn:Hb; cbn [snd].
  - split; try done. cbn [bindings on_bindings]. apply elsewhere_map. intros x _.
    destruct (decide _) as [[Ho _]|]; [|by left]. by right.
  - split; try done. cbn [bindings on_bindings]. by rewrite elsewhere_snoc.
Qed.
Lemma update_binding_confined i f d :
  at_home t_orgId t_id o i (bindings d) → (∀ b, t_orgId (f b) = t_orgId b) → confined o d (update_binding i f d).2.
Proof. intros Hh Hf. split; try done. by apply elsewhere_update. Qed.
Lemma found_at_home s d b : unique_rows d → find_binding d o s = Some b → at_home t_orgId t_id o (t_id b) (bindings d).
Proof.
  intros [Hnd _] (Ho & _ & Hin)%find_binding_Some. rewrite <-Ho. apply find_at_home; [done|]. by apply find_by_unique.
Qed.
Lemma commit_confined probed s at_ now d :
  t_orgId probed = o → unique_rows d → confined o d (commitVerificationResult probed s at_ now d).2.
Proof.
  intros Ho Hd. unfold commitVerificationResult, withServiceBindingLock, transaction, gets, mbind, M_bind, mret, M_ret.
  destruct (find_binding d (t_orgId probed) (service probed)) as [b|] eqn:Hb; [|done]. destruct (_ || _); [done|].
  rewrite Ho in Hb. apply update_binding_confined; [by eapply found_at_home|done].
Qed.
Lemma disable_confined s now d : unique_rows d → confined o d (disable_row o s now d).2.
Proof.
  intros Hd. unfold disable_row, withServiceBindingLock, transaction, gets, guard_throw, require, raise, mbind, M_bind, mret, M_ret.
  destruct (find_binding d o s) as [b|] eqn:Hb; [|done]. destruct (_ && _); [done|].
  apply update_binding_confined; [by eapply found_at_home|done].
Qed.

(** A confined step after which nothing is known. *)
Lemma stays_step {A} (P : ControlDB → Prop) (m : M ControlDB A) :
  (∀ d, P d → confined o d (m d).2) → stays_in others o id_ P m whatever.
Proof. intros Hm. apply stays_own. intros d Hd. split; [by apply Hm|done]. Qed.
Lemma stays_any {A} (m : M ControlDB A) : (∀ d, confined o d (m d).2) → stays_in others o id_ any m whatever.
Proof. intros Hm. apply stays_step. intros d _. apply Hm. Qed.
Lemma suspend_any n : stays_in others o id_ any (suspend others n) whatever.
Proof. eapply stays_weaken; [by apply (stays_suspend others o any)|done..]. Qed.
Context (Hothers : ∀ n d, unique_rows d → unique_rows (others n d)).
Hint Resolve remove_confined log_confined upsert_row_confined : tenancy.

Lemma upsert_stays bid uuid rid rnd now raw input actor :
  stays_in others o id_ unique_rows (upsert URL kms others bid uuid rid rnd now o raw input actor) whatever.
Proof.
  unfold upsert, requireOrganization. eapply stays_bind.
  { eapply (stays_bind others o _ _ (λ _, unique_rows)); [eapply stays_weaken; [apply stays_gets|done|by intros ? ? []]|].
    intros os. apply stays_guard. }
  intros []. do 2 (eapply stays_bind; [apply stays_lift|]; intros ?). cbv zeta. eapply (stays_bind others o _ _ whatever).
  { destruct (d_credential input); [|eapply stays_done, stays_ret]. apply stays_step. intros d [[Hd _] _]. by apply put_confined. }
  intros ?. eapply stays_bind; [apply suspend_any|]. intros ?. eapply stays_bind.
  { apply (stays_try others o _ any _ _ any); [apply stays_any; auto with tenancy| |done..].
    intros er. eapply stays_bind; [apply stays_any; auto with tenancy|]. intros ?. eapply stays_done, stays_raise. }
  intros updated. eapply stays_bind; [apply suspend_any|]. intros ?. eapply stays_bind; [apply stays_any; auto with tenancy|].
  intros ?. eapply stays_bind; [apply stays_any; auto with tenancy|]. intros ?. eapply stays_done, stays_ret.
Qed.

Lemma find_stays P s : stays_in others o id_ P (find o s) (λ row d, P d ∧ t_orgId row = o).
Proof.
  intros d Hd. unfold find, gets, mbind, M_bind. destruct (find_binding d o s) as [b|] eqn:Hb; (split; [done|]); [|done].
  intros a [= <-]. apply find_binding_Some in Hb as [? _]. by split.
Qed.
Lemma verify_stays now raw actor :
  stays_in others o id_ unique_rows
    (verify isIPv6 URL resolve lookup_at fetch_at JSON_parse kms others now o raw actor) whatever.
Proof.
  unfold verify. eapply stays_bind; [apply stays_lift|]. intros s. eapply stays_bind; [apply find_stays|]. intros row.
  apply (stays_fact others o _ _ (t_orgId row = o)); [by intros d [_ ?]|]. intros Ho.
  apply (stays_weaken others o _ _ unique_rows _ whatever); [|by intros d [[? _] _]|done].
  eapply stays_bind; [apply stays_suspend, Hothers|]. intros [].
  eapply (stays_bind others o _ _ (λ _, unique_rows)); [eapply stays_weaken; [apply stays_gets|done|by intros ? ? []]|].
  intros v. destruct (check_binding _ _ _ _ _ _ _ _ _).
  all: eapply stays_bind; [apply stays_suspend, Hothers|]; intros [];
    eapply stays_bind; [by apply stays_step; intros d; apply commit_confined|]; intros c;
    eapply stays_bind; [apply stays_require|]; intros b;
    eapply stays_bind; [apply stays_anyway, stays_any; auto with tenancy|]; intros [];
    eapply stays_done; [apply stays_ret || apply stays_raise].
Qed.

Lemma disable_stays now raw actor : stays_in others o id_ unique_rows (disable now o raw actor) whatever.
Proof.
  unfold disable. eapply stays_bind; [apply stays_lift|]. intros s.
  eapply stays_bind; [by apply stays_step; intros d [Hd _]; apply disable_confined|]. intros b.
  eapply stays_bind; [apply stays_any; auto with tenancy|]. intros []. eapply stays_done, stays_ret.
Qed.

(** Configuring, verifying or disabling a service connection stays in the organization of the
    administrator. Whatever organization and service the caller puts in the path, and whatever other requests
    commit at its suspension points, the request of an administrator confined to one organization moves the
    tables only by steps of those others and by steps that leave the bindings, the encrypted secrets, the audit
    events and every other row of the other organizations as they are; for another organization it is refused. *)
Theorem bindings_stay_home r now org raw user d :
  confined_to o user → unique_rows d →
  let run := handle isIPv6 URL resolve lookup_at fetch_at JSON_parse kms others r now org raw user d in
  rtc (step others o) d run.2 ∧ (org ≠ o → run = (Throw (ForbiddenException "organization access denied"), d)).
Proof.
  intros Huser Hd run.
  assert (∀ er, Guard.assertAdminOrgAccess user org = Throw er → er = ForbiddenException "organization access denied") as Hdenied.
  { intros er. unfold Guard.assertAdminOrgAccess. repeat case_match; congruence. }
  unfold run, handle. rewrite bind_lift. destruct (Guard.assertAdminOrgAccess user org) as [[]|er] eqn:Ha.
  - apply (confined_access _ _ _ Huser) in Ha as ->. split; [|done].
    destruct r; [apply (upsert_stays _ _ _ _ _ _ _ _ d Hd)|apply (verify_stays _ _ _ d Hd)|apply (disable_stays _ _ _ d Hd)].
  - split; [done|]. intros _. by rewrite (Hdenied er eq_refl).
Qed.
End bindings.

(** * Witnesses *)

Lemma demo_admin_confined : confined_to "o1" demo_admin.
Proof. by split_and!. Qed.
Lemma nobody_bystands q o : bystanders nobody o q.
Proof. by split. Qed.

(** The revocation of [Admin] runs to its end as a route. *)
Lemma fleet_stays_home_witness : ∃ s',
  fleet_route (H := Mock.adapter demo_ids) (λ _, false) demo_url (λ _ _, None) demo_lookup desk_json demo_kms demo_desk
    nobody calm demo_targets true true (λ _, None) demo_admin (ReqRevoke "d1") 50 demo_admin_state = (Ok tt, s') ∧
  rtc (step nobody "o1") (control (world demo_admin_state)) (control (world s')).
Proof.
  eexists. split; [vm_compute; reflexivity|].
  refine (fleet_stays_home (H := Mock.adapter demo_ids) (λ _, false) demo_url (λ _ _, None) demo_lookup desk_json demo_kms
    demo_desk nobody calm demo_targets true true (λ _, None) "o1" demo_admin (ReqRevoke "d1") 50 demo_admin_state (Ok tt) _
    (nobody_bystands _ _) demo_admin_confined _ _).
  - apply (bool_decide_unpack _). vm_compute. exact I.
  - vm_compute. reflexivity.
Defined.

Lemma bindings_stay_home_witness :
  let run := handle (λ _, false) demo_url (λ _ _, None) demo_lookup demo_fetch demo_json demo_kms nobody
    ReqVerify 9 "o1" "EXTENSION_CATALOG" demo_admin demo_control in
  is_ok run.1 = true ∧ rtc (step nobody "o1") demo_control run.2.
Proof.
  split; [vm_compute; reflexivity|].
  refine (proj1 (bindings_stay_home (λ _, false) demo_url (λ _ _, None) demo_lookup demo_fetch demo_json demo_kms nobody "o1"
    (λ n d H, H) ReqVerify 9 "o1" "EXTENSION_CATALOG" demo_admin demo_control demo_admin_confined _)).
  split; apply (bool_decide_unpack _); vm_compute; exact I.
Defined.
