(* ===== verification/Regex.v ===== *)
(** Regular expressions as the sources use them: values of a small expression type with JavaScript's
    backtracking, greedy and lazy repetition, negative lookahead and word boundaries; [test] and the global
    replacement. *)
From S2P Require Import Prelude.
Local Open Scope nat_scope.

(** The constructs the expressions use: a character class, a greedy repetition of a class (at least
    [n] times), a lazy one, an optional class, a word boundary, a negative lookahead, sequence and
    alternation. *)
Inductive rx :=
  | Cls (p : ascii → bool)
  | Rep (n : nat) (p : ascii → bool)
  | Lazy (p : ascii → bool)
  | Opt (p : ascii → bool)
  | Wordb
  | NotAhead (r : rx)
  | Eps
  | Cat (r1 r2 : rx)
  | Alt (r1 r2 : rx).

Definition is_word (c : ascii) : bool := is_alnum c || is_char "_" c.
Definition at_boundary (prev : option ascii) (s : list ascii) : bool :=
  xorb (from_option is_word false prev) (from_option is_word false (head s)).

(** What is left after a class matched at least [n] times, as many times as the rest allows. *)
Definition cont : Type := option ascii → list ascii → option (list ascii).
Fixpoint match_rep (p : ascii → bool) (k : cont) (n : nat) (prev : option ascii) (s : list ascii)
    : option (list ascii) :=
  let stop := match n with O => k prev s | S _ => None end in
  match s with
  | c :: s' => if p c
               then match match_rep p k (Nat.pred n) (Some c) s' with Some rest => Some rest | None => stop end
               else stop
  | [] => stop
  end.
(** A lazy repetition: as few times as the rest allows. *)
Fixpoint match_lazy (p : ascii → bool) (k : cont) (prev : option ascii) (s : list ascii) : option (list ascii) :=
  match k prev s with
  | Some rest => Some rest
  | None => match s with c :: s' => if p c then match_lazy p k (Some c) s' else None | [] => None end
  end.
(** The first match in priority order, as the text that remains after it; [prev] is the character
    before the position. *)
Fixpoint match_rx (r : rx) (k : cont) (prev : option ascii) (s : list ascii) : option (list ascii) :=
  match r with
  | Cls p => match s with c :: s' => if p c then k (Some c) s' else None | [] => None end
  | Rep n p => match_rep p k n prev s
  | Lazy p => match_lazy p k prev s
  | Opt p =>
      match s with
      | c :: s' => if p c then match k (Some c) s' with Some rest => Some rest | None => k prev s end
                   else k prev s
      | [] => k prev s
      end
  | Wordb => if at_boundary prev s then k prev s else None
  | NotAhead r => match match_rx r (λ _ rest, Some rest) prev s with Some _ => None | None => k prev s end
  | Eps => k prev s
  | Cat r1 r2 => match_rx r1 (match_rx r2 k) prev s
  | Alt r1 r2 => match match_rx r1 k prev s with Some rest => Some rest | None => match_rx r2 k prev s end
  end.

(** [/r/.test(s)]: a match from some position on. *)
Fixpoint test_from (r : rx) (prev : option ascii) (s : list ascii) : bool :=
  match match_rx r (λ _ rest, Some rest) prev s with
  | Some _ => true
  | None => match s with c :: s' => test_from r (Some c) s' | [] => false end
  end.
Definition test (r : rx) (s : string) : bool := test_from r None (chars s).

Definition consumed (s rest : list ascii) : list ascii := take (length s - length rest) s.

(** [s.replace(/(keep)drop/g, "$1" + text)]: at each position the first match, or the next character.
    Every match of the expressions below is non-empty; [fuel] is one more than the length. *)
Fixpoint replace_from (fuel : nat) (keep drop : rx) (text : list ascii) (prev : option ascii)
    (s : list ascii) : list ascii :=
  match fuel with
  | O => s
  | S fuel =>
      match match_rx (Cat keep drop) (λ _ rest, Some rest) prev s with
      | Some rest =>
          let kept := from_option (consumed s) []
            (match_rx keep (λ p s1, match match_rx drop (λ _ r, Some r) p s1 with
                                    | Some _ => Some s1 | None => None end) prev s) in
          kept ++ text ++ replace_from fuel keep drop text (last (consumed s rest)) rest
      | None =>
          match s with
          | c :: s' => c :: replace_from fuel keep drop text (Some c) s'
          | [] => []
          end
      end
  end.
Definition replace_all (keep drop : rx) (text s : string) : string :=
  str (replace_from (S (String.length s)) keep drop (chars text) None (chars s)).

(** The number of replacements [s.replace(/r/g, text)] makes. *)
Fixpoint count_from (fuel : nat) (r : rx) (prev : option ascii) (s : list ascii) : nat :=
  match fuel with
  | O => 0
  | S fuel =>
      match match_rx r (λ _ rest, Some rest) prev s with
      | Some rest => S (count_from fuel r (last (consumed s rest)) rest)
      | None => match s with c :: s' => count_from fuel r (Some c) s' | [] => 0 end
      end
  end.
Definition count_all (r : rx) (s : string) : nat := count_from (S (String.length s)) r None (chars s).

(** ** Building expressions *)

Definition ci (c : ascii) : ascii → bool := λ d, Ascii.eqb (lower_ascii d) (lower_ascii c).
(** A literal under the [i] flag. *)
Definition lit (s : string) : rx := foldr (λ c r, Cat (Cls (ci c)) r) Eps (chars s).
(** A literal without it. *)
Definition lit_cs (s : string) : rx := foldr (λ c r, Cat (Cls (Ascii.eqb c)) r) Eps (chars s).
Fixpoint alts (l : list rx) : rx :=
  match l with [] => Cls (λ _, false) | [r] => r | r :: l' => Alt r (alts l') end.
Fixpoint cats (l : list rx) : rx := match l with [] => Eps | r :: l' => Cat r (cats l') end.
Definition one_of (s : string) : ascii → bool := is_char s.
Definition none_of (s : string) : ascii → bool := λ c, negb (is_ws c || is_char s c).


(** * What a replacement leaves *)

(** A continuation, and hence a match, only ever leaves a suffix of its input. *)
Definition shrinks (k : cont) : Prop := ∀ prev s rest, k prev s = Some rest → suffix rest s.

Lemma match_rep_shrinks p k n : shrinks k → shrinks (match_rep p k n).
Proof.
  intros Hk prev s. revert n prev. induction s as [|c s IH]; intros n prev rest; cbn [match_rep].
  - destruct n; [apply Hk|done].
  - assert (match n with 0 => k prev (c :: s) | S _ => None end = Some rest → suffix rest (c :: s)) as Hstop
      by (destruct n; [apply Hk|done]).
    destruct (p c); [|done]. destruct (match_rep p k (Nat.pred n) (Some c) s) as [r|] eqn:Hr; [|done].
    intros [= <-]. apply suffix_cons_r. by eapply IH.
Qed.
Lemma match_lazy_shrinks p k : shrinks k → shrinks (match_lazy p k).
Proof.
  intros Hk prev s. revert prev. induction s as [|c s IH]; intros prev rest; cbn [match_lazy].
  - destruct (k prev []) eqn:Hr; [intros [= <-]; by eapply Hk|done].
  - destruct (k prev (c :: s)) eqn:Hr; [intros [= <-]; by eapply Hk|]. destruct (p c); [|done].
    intros H. apply suffix_cons_r. by eapply IH.
Qed.
Lemma match_rx_shrinks r : ∀ k, shrinks k → shrinks (match_rx r k).
Proof.
  induction r as [p|n p|p|p| |r IH| |r1 IH1 r2 IH2|r1 IH1 r2 IH2]; intros k Hk prev s rest; cbn [match_rx].
  - destruct s as [|c s]; [done|]. destruct (p c); [|done]. intros H. apply suffix_cons_r. by eapply Hk.
  - by apply match_rep_shrinks.
  - by apply match_lazy_shrinks.
  - destruct s as [|c s]; [apply Hk|]. destruct (p c); [|apply Hk].
    destruct (k (Some c) s) as [r|] eqn:Hr; [|apply Hk]. intros [= <-]. apply suffix_cons_r. by eapply Hk.
  - destruct (at_boundary prev s); [apply Hk|done].
  - destruct (match_rx r _ prev s); [done|apply Hk].
  - apply Hk.
  - apply IH1. by apply IH2.
  - destruct (match_rx r1 k prev s) as [r|] eqn:Hr; [intros [= <-]; by eapply IH1|by apply IH2].
Qed.
Lemma accept_shrinks : shrinks (λ _ rest, Some rest).
Proof. by intros prev s rest [= <-]. Qed.

Lemma Forall_consumed (P : ascii → Prop) s rest : Forall P s → Forall P (consumed s rest).
Proof. apply Forall_take. Qed.

Lemma consumed_self s : consumed s s = [].
Proof. unfold consumed. by rewrite Nat.sub_diag. Qed.

(** A replacement only introduces characters of its text. *)
Lemma replace_from_Forall (P : ascii → Prop) fuel keep drop text prev s :
  Forall P text → Forall P s → Forall P (replace_from fuel keep drop text prev s).
Proof.
  intros Htext. revert prev s. induction fuel as [|fuel IH]; intros prev s Hs; [done|]. cbn [replace_from].
  destruct (match_rx (Cat keep drop) _ prev s) as [rest|] eqn:Hm.
  - apply Forall_app. split.
    { destruct (match_rx keep _ prev s); simpl; [by apply Forall_consumed|constructor]. }
    apply Forall_app. split; [done|]. apply IH.
    apply match_rx_shrinks in Hm as [l ->]; [|apply accept_shrinks]. by apply Forall_app in Hs as [_ ?].
  - destruct s as [|c s]; [constructor|]. apply Forall_cons in Hs as [? ?]. constructor; auto.
Qed.
Lemma replace_all_Forall (P : ascii → Prop) keep drop text s :
  Forall P (chars text) → Forall P (chars s) → Forall P (chars (replace_all keep drop text s)).
Proof. intros. unfold replace_all. rewrite chars_str. by apply replace_from_Forall. Qed.

(** Replacing a class leaves none of it. *)
Lemma replace_class fuel p text prev s :
  Forall (λ c, p c = false) text → length s < fuel →
  Forall (λ c, p c = false) (replace_from fuel Eps (Cls p) text prev s).
Proof.
  intros Htext. revert prev s. induction fuel as [|fuel IH]; intros prev s Hlen; [lia|].
  cbn [replace_from match_rx]. destruct s as [|c s]; [constructor|]. destruct (p c) eqn:Hc.
  - apply Forall_app. split; [|apply Forall_app; split; [done|apply IH; simpl in Hlen; lia]].
    simpl. rewrite consumed_self. constructor.
  - constructor; [done|]. apply IH. simpl in Hlen. lia.
Qed.
