(* ===== verification/Redact.v ===== *)
(** Redaction of operator-authored text ([src/common/redact.ts]): the regular expressions as values of
    [Regex.rx], and [sanitizeControlText]. *)
From S2P Require Import Prelude Regex.
Local Open Scope nat_scope.

(** * The expressions *)

Definition control_char (c : ascii) : bool :=
  in_range 0 8 c || in_range 11 12 c || in_range 14 31 c || in_range 127 127 c.
Definition CONTROL_CHARACTERS : rx := Cls control_char.
Definition api_key : rx := cats [lit "api"; Opt (one_of "_-"); lit "key"].
Definition CREDENTIAL_ASSIGNMENT : rx := cats
  [Wordb; alts [api_key; lit "token"; lit "secret"; lit "password"; lit "authorization"; lit "cookie"];
   Rep 0 is_ws; Cls (one_of ":="); Rep 0 is_ws; Rep 1 (none_of ",;")].
Definition BEARER_CREDENTIAL : rx := cats
  [Wordb; lit "Bearer"; Rep 1 is_ws; Rep 8 (λ c, is_alnum c || is_char "._~+/=-" c)].
Definition COMMON_SECRET : rx := cats
  [Wordb; alts (map lit ["sk"; "ak"; "rk"; "pk"; "ghp"; "gho"; "ghu"; "ghs"; "github_pat"; "xoxb"; "xoxp";
                         "xoxa"; "xoxr"]);
   Cls (one_of "-_"); Rep 8 (λ c, is_alnum c || is_char "._-" c); Wordb].
Definition path_char (c : ascii) : bool := none_of ",;'" c && negb (Ascii.eqb c (ascii_of_nat 34)).
Definition WINDOWS_HOME_PATH : rx := cats
  [Wordb; Cls (λ c, is_upper c || is_lower c); lit_cs ":\"; 
   alts [lit_cs "Users"; lit_cs "Documents and Settings"]; lit_cs "\"; Rep 1 path_char].
Definition POSIX_HOME_PATH : rx := cats
  [lit_cs "/"; alts [lit_cs "Users"; lit_cs "home"]; lit_cs "/"; Rep 1 path_char].
Definition URL_SECRET_NAME : rx := cats
  [Cls (one_of "?&"); alts [api_key; lit "token"; lit "secret"; lit "password"; lit "authorization"];
   lit "="].
Definition URL_SECRET_VALUE : rx := Rep 1 (none_of "&#").

(** The last three steps: white space collapsed, trimmed, cut. *)
Definition collapse (w : string) (max : nat) : string :=
  str (take max (chars (trim (replace_all Eps (Rep 1 is_ws) " " w)))).

Definition sanitizeControlText (value : string) (max : nat) : string :=
  let value := replace_all Eps CONTROL_CHARACTERS " " value in
  let value := replace_all Eps CREDENTIAL_ASSIGNMENT "credential=***" value in
  let value := replace_all Eps BEARER_CREDENTIAL "Bearer ***" value in
  let value := replace_all Eps COMMON_SECRET "<secret>" value in
  let value := replace_all Eps WINDOWS_HOME_PATH "<local-path>" value in
  let value := replace_all Eps POSIX_HOME_PATH "<local-path>" value in
  let value := replace_all URL_SECRET_NAME URL_SECRET_VALUE "***" value in
  collapse value max.

#[global] Arguments sanitizeControlText : simpl never.
Strategy 1000 [sanitizeControlText].

Example redact_bearer : sanitizeControlText "see Bearer abc.def-123456 at /home/ann/x, ok" 200 =
  "see Bearer *** at <local-path>, ok".
Proof. vm_compute. reflexivity. Qed.
Example redact_assignment : sanitizeControlText "API_KEY = s3cr3t; go?x=1&token=abc#y" 200 =
  "credential=***; go?x=1&credential=***".
Proof. vm_compute. reflexivity. Qed.
Example redact_path : sanitizeControlText "C:\Users\bob\y sk-ABCDEFGH99 !" 16 = "<local-path> <se".
Proof. vm_compute. reflexivity. Qed.

(** * What the result can contain *)

(** No two adjacent spaces. *)
Definition spaced (l : list ascii) : Prop := ∀ a b, l ≠ a ++ " "%char :: " "%char :: b.

Lemma spaced_infix l a b : spaced (a ++ l ++ b) → spaced l.
Proof. intros H x y ->. apply (H (a ++ x) (y ++ b)). rewrite <-!app_assoc. done. Qed.
Lemma spaced_cons c l : c ≠ " "%char ∨ head l ≠ Some " "%char → spaced l → spaced (c :: l).
Proof.
  intros Hc Hl a b Heq. destruct a as [|x a]; injection Heq as ? Heq; [subst|by eapply Hl].
  destruct Hc; simpl in *; congruence.
Qed.

Lemma match_spaces prev s :
  match_rep is_ws (λ _ rest, Some rest) 0 prev s = Some (dropWhile is_ws s).
Proof. revert prev. induction s as [|c s IH]; intros prev; simpl; [done|]. destruct (is_ws c); [by rewrite IH|done]. Qed.

Lemma collapse_spaces fuel prev s :
  length s < fuel →
  let out := replace_from fuel Eps (Rep 1 is_ws) [" "%char] prev s in
  spaced out ∧ Forall (λ c, is_ws c = true → c = " "%char) out ∧
  (∀ c, head s = Some c → is_ws c = false → head out = Some c).
Proof.
  revert prev s. induction fuel as [|fuel IH]; intros prev s Hlen; [lia|]. cbn [replace_from match_rx].
  destruct s as [|c s]; cbn [match_rep].
  { split_and!; [by intros [|??] ?|constructor|done]. }
  simpl in Hlen. destruct (is_ws c) eqn:Hc; cbn [Nat.pred].
  - rewrite match_spaces. cbn [from_option]. rewrite !consumed_self. cbn [app].
    assert (length (dropWhile is_ws s) ≤ length s) as Hle.
    { destruct (dropWhile_suffix is_ws s) as (k & Hk & _). apply (f_equal length) in Hk.
      rewrite length_app in Hk. lia. }
    destruct (IH (last (consumed (c :: s) (dropWhile is_ws s))) (dropWhile is_ws s) ltac:(lia)) as (H1 & H2 & H3).
    split_and!; [|by constructor|intros ? [= <-]; congruence].
    apply spaced_cons; [|done]. right. destruct (dropWhile is_ws s) as [|d k] eqn:Hd.
    + by destruct fuel.
    + rewrite (H3 d eq_refl) by (by eapply dropWhile_head). intros [= ->]. by apply dropWhile_head in Hd.
  - destruct (IH (Some c) s ltac:(lia)) as (H1 & H2 & H3). split_and!.
    + apply spaced_cons; [left; by intros ->|done].
    + constructor; [congruence|done].
    + by intros ? [= <-].
Qed.

Lemma trim_l_infix l : ∃ a b, l = a ++ trim_l l ++ b.
Proof.
  unfold trim_l. destruct (dropWhile_suffix is_ws l) as (a & Ha & _).
  set (m := dropWhile is_ws l) in *. destruct (dropWhile_suffix is_ws (reverse m)) as (b & Hb & _).
  exists a, (reverse b). rewrite Ha at 1. f_equal. apply (f_equal reverse) in Hb.
  by rewrite reverse_involutive, reverse_app in Hb.
Qed.
Lemma trim_l_head l c : head (trim_l l) = Some c → is_ws c = false.
Proof.
  unfold trim_l. set (m := dropWhile is_ws l).
  destruct (dropWhile_suffix is_ws (reverse m)) as (b & Hb & _). apply (f_equal reverse) in Hb.
  rewrite reverse_involutive, reverse_app in Hb.
  destruct (reverse (dropWhile is_ws (reverse m))) as [|x k]; [done|]. intros [= ->].
  by apply (dropWhile_head _ l c (k ++ reverse b)).
Qed.

Lemma collapse_clean w max :
  Forall (λ c, control_char c = false) (chars w) →
  let out := chars (collapse w max) in
  length out ≤ max ∧
  Forall (λ c, control_char c = false ∧ (is_ws c = true → c = " "%char)) out ∧
  spaced out ∧ (∀ c, head out = Some c → is_ws c = false).
Proof.
  intros Hw. cbv zeta. unfold collapse, trim. rewrite !chars_str.
  pose proof (replace_all_Forall (λ c, control_char c = false) Eps (Rep 1 is_ws) " " w
    ltac:(repeat constructor) Hw) as Hc.
  destruct (collapse_spaces (S (String.length w)) None (chars w)) as (Hs & Hws & _);
    [rewrite length_chars; lia|].
  unfold replace_all in *. change (chars " ") with [" "%char] in *. rewrite chars_str in *.
  revert Hc Hs Hws. generalize (replace_from (S (String.length w)) Eps (Rep 1 is_ws) [" "%char] None (chars w)).
  intros out Hc Hs Hws. destruct (trim_l_infix out) as (a & b & Hab).
  pose proof (take_drop max (trim_l out)) as Htd. pose proof (trim_l_head out) as Hh.
  rewrite <-Htd, <-app_assoc in Hab. rewrite Hab in Hs, Hws, Hc. split_and!.
  - rewrite length_take. lia.
  - apply Forall_app in Hws as [_ [Hws _]%Forall_app], Hc as [_ [Hc _]%Forall_app].
    rewrite Forall_forall in Hws, Hc |- *. auto.
  - by eapply spaced_infix.
  - intros c Ht. apply Hh. destruct max as [|max]; [discriminate Ht|]. by destruct (trim_l out).
Qed.

(** At most [max] characters, no control character, every white space a single space between other characters,
    none at the start. *)
Definition clean_text (max : nat) (s : string) : Prop :=
  length (chars s) ≤ max ∧
  Forall (λ c, control_char c = false ∧ (is_ws c = true → c = " "%char)) (chars s) ∧
  spaced (chars s) ∧ (∀ c, head (chars s) = Some c → is_ws c = false).
Lemma sanitize_spec value max : clean_text max (sanitizeControlText value max).
Proof.
  apply collapse_clean. do 6 (apply replace_all_Forall; [repeat constructor|]).
  unfold replace_all. rewrite chars_str. apply replace_class; [repeat constructor|].
  rewrite length_chars. lia.
Qed.
Lemma clean_nil max : clean_text max "".
Proof. split_and!; [apply Nat.le_0_l|constructor|by intros [] ?|done]. Qed.

(** What reaches the database is clean, whatever was typed: at most [max] characters, no control
    character, every white space a single space between other characters, none at the start. *)
Theorem sanitize_clean value max :
  let out := chars (sanitizeControlText value max) in
  length out ≤ max ∧
  Forall (λ c, control_char c = false ∧ (is_ws c = true → c = " "%char)) out ∧
  spaced out ∧ (∀ c, head out = Some c → is_ws c = false).
Proof. apply sanitize_spec. Qed.
