(* ===== verification/Tickets.v ===== *)
(** Feedback tickets ([src/feedback-tickets/feedback-tickets.service.ts]): the intake with its
    expiring claim, the status machine and its timeline. A request is a sequence of database calls;
    [others n] is what other requests commit before the request's [n]-th call. A change of status is two of them, the
    reading of the ticket and the commit of its row and event: its transaction takes no lock before it writes. SHA-256 is a parameter; the generated id, the random claim token and
    the time are arguments; times are milliseconds. *)
From S2P Require Import Prelude Js Table Redact Secrets Access.
Local Open Scope nat_scope.

(** * Data *)

Inductive FeedbackTicketSource := FEISHU | CONTROL | INTERNAL.
Inductive FeedbackTicketKind := BUG | SUGGESTION | CRASH | OTHER.
Inductive FeedbackTicketPriority := URGENT | HIGH | NORMAL | LOW.
Inductive FeedbackTicketStatus :=
  RECEIVED | ACKNOWLEDGED | IN_PROGRESS | WAITING_RELEASE | WAITING_VERIFICATION | CLOSED | BLOCKED | REJECTED.
Module EventKind.
Inductive FeedbackTicketEventKind := CREATED | ACKNOWLEDGED | STATUS_CHANGED | NOTE | RELEASED | CLOSED.
End EventKind.
#[export] Instance source_eq_dec : EqDecision FeedbackTicketSource.
Proof. solve_decision. Defined.
#[export] Instance kind_eq_dec : EqDecision FeedbackTicketKind.
Proof. solve_decision. Defined.
#[export] Instance priority_eq_dec : EqDecision FeedbackTicketPriority.
Proof. solve_decision. Defined.
#[export] Instance status_eq_dec : EqDecision FeedbackTicketStatus.
Proof. solve_decision. Defined.

Record FeedbackTicket := {
  f_id : string; number : Z; source : FeedbackTicketSource; sourceRef : string; sourceChatRef : string;
  f_kind : FeedbackTicketKind; priority : FeedbackTicketPriority; status : FeedbackTicketStatus;
  title : string; summary : string; reporterRef : string; assignee : string; fixVersion : string;
  verificationSteps : string; claimOwner : string; claimTokenHash : string; claimExpiresAt : option Z;
  acknowledgedAt : option Z; startedAt : option Z; releasedAt : option Z; closedAt : option Z;
  f_createdAt : Z; f_updatedAt : Z }.
Record FeedbackTicketEvent := {
  e_ticket : string; e_kind : EventKind.FeedbackTicketEventKind;
  fromStatus : option FeedbackTicketStatus; toStatus : option FeedbackTicketStatus;
  note : string; e_actor : string }.
(** The tables and the sequence behind [number]. *)
Record TicketDB := { tickets : list FeedbackTicket; events : list FeedbackTicketEvent; nextNumber : Z }.

Record IntakeFeedbackTicketDto := {
  in_source : FeedbackTicketSource; in_sourceRef : string; in_sourceChatRef : option string;
  in_kind : FeedbackTicketKind; in_priority : option FeedbackTicketPriority; in_title : string;
  in_summary : option string; in_reporterRef : option string; in_consumerId : string }.
Record UpdateFeedbackTicketDto := {
  up_status : FeedbackTicketStatus; up_priority : option FeedbackTicketPriority;
  up_assignee : option string; up_fixVersion : option string; up_verificationSteps : option string;
  up_note : option string }.

Definition CLAIM_LEASE_MS : Z := (15 * 60 * 1000)%Z.
Definition TERMINAL_STATUSES : list FeedbackTicketStatus := [CLOSED; REJECTED].
Definition ALLOWED_TRANSITIONS (s : FeedbackTicketStatus) : list FeedbackTicketStatus :=
  match s with
  | RECEIVED => [ACKNOWLEDGED; IN_PROGRESS; BLOCKED; REJECTED]
  | ACKNOWLEDGED => [IN_PROGRESS; BLOCKED; REJECTED]
  | IN_PROGRESS => [WAITING_RELEASE; BLOCKED; REJECTED]
  | WAITING_RELEASE => [IN_PROGRESS; WAITING_VERIFICATION; BLOCKED]
  | WAITING_VERIFICATION => [IN_PROGRESS; CLOSED; BLOCKED]
  | CLOSED => [IN_PROGRESS]
  | BLOCKED => [IN_PROGRESS; REJECTED]
  | REJECTED => [IN_PROGRESS]
  end.
Definition status_str (s : FeedbackTicketStatus) : string :=
  match s with
  | RECEIVED => "RECEIVED" | ACKNOWLEDGED => "ACKNOWLEDGED" | IN_PROGRESS => "IN_PROGRESS"
  | WAITING_RELEASE => "WAITING_RELEASE" | WAITING_VERIFICATION => "WAITING_VERIFICATION"
  | CLOSED => "CLOSED" | BLOCKED => "BLOCKED" | REJECTED => "REJECTED"
  end.

(** [Buffer.from(s, "hex")]: stops at the first pair that is not hexadecimal. *)
Fixpoint from_hex (l : list ascii) : list Z :=
  match l with
  | a :: b :: l' =>
      match hex_val a, hex_val b with
      | Some x, Some y => (Z.of_nat x * 16 + Z.of_nat y)%Z :: from_hex l'
      | _, _ => []
      end
  | _ => []
  end.
Definition hashMatches (actual expected : string) : bool :=
  let actualBytes := from_hex (chars actual) in
  let expectedBytes := from_hex (chars expected) in
  (0 <? length actualBytes) && (length actualBytes =? length expectedBytes)
  && bool_decide (actualBytes = expectedBytes).

(** [HARA-${String(number).padStart(6, "0")}] *)
Definition formatTicketNumber (n : Z) : string :=
  let s := pretty n in "HARA-" +:+ str (replicate (6 - String.length s) "0"%char) +:+ s.
Definition with_tickets (l : list FeedbackTicket) (db : TicketDB) : TicketDB :=
  {| tickets := l; events := events db; nextNumber := nextNumber db |}.

(** [findUnique({ where: { source_sourceRef } })] *)
Definition find_source (db : TicketDB) (src : FeedbackTicketSource) (ref : string) : option FeedbackTicket :=
  snd <$> list_find (λ t, source t = src ∧ sourceRef t = ref) (tickets db).
Definition find_ticket (db : TicketDB) (i : string) : option FeedbackTicket := find_by f_id i (tickets db).

Section service.
Context (sha256 : string → string).
Definition tokenHash (token : string) : string := sha256 token.

(** * The database calls *)

(** [feedbackTicket.create] with its nested event: the sequence is consumed even when the insert
    fails; the ticket's unique keys are checked first, then the width of the event's note column
    ([VarChar(1200)]). *)
Definition create_ticket (t : Z → FeedbackTicket) (ev : FeedbackTicketEvent) : M TicketDB FeedbackTicket := λ db,
  let row := t (nextNumber db) in
  let db1 := {| tickets := tickets db; events := events db; nextNumber := nextNumber db + 1 |} in
  if isSome (find_source db (source row) (sourceRef row)) || isSome (find_ticket db (f_id row))
  then (Throw (PrismaError "P2002"), db1)
  else if 1200 <? String.length (note ev) then (Throw (PrismaError "P2000"), db1)
  else (Ok row, {| tickets := tickets db ++ [row]; events := events db ++ [ev]; nextNumber := nextNumber db + 1 |}).

Definition with_claim (owner hash : string) (expires : option Z) (now : Z) (t : FeedbackTicket) : FeedbackTicket :=
  {| f_id := f_id t; number := number t; source := source t; sourceRef := sourceRef t;
     sourceChatRef := sourceChatRef t; f_kind := f_kind t; priority := priority t; status := status t;
     title := title t; summary := summary t; reporterRef := reporterRef t; assignee := assignee t;
     fixVersion := fixVersion t; verificationSteps := verificationSteps t; claimOwner := owner;
     claimTokenHash := hash; claimExpiresAt := expires; acknowledgedAt := acknowledgedAt t;
     startedAt := startedAt t; releasedAt := releasedAt t; closedAt := closedAt t;
     f_createdAt := f_createdAt t; f_updatedAt := now |}.

(** The [where] of the claim's [updateMany]. *)
Definition claimable (i consumer : string) (now : Z) (t : FeedbackTicket) : bool :=
  String.eqb (f_id t) i && negb (mem (status t) TERMINAL_STATUSES)
  && (match claimExpiresAt t with None => true | Some x => (x <=? now)%Z end || String.eqb (claimOwner t) consumer).
(** [updateMany]: the new state and the number of rows. *)
Definition claim_update (i consumer hash : string) (now : Z) (db : TicketDB) : nat * TicketDB :=
  (length (filter (λ t, claimable i consumer now t = true) (tickets db)),
   with_tickets (map (λ t, if claimable i consumer now t
                           then with_claim consumer hash (Some (now + CLAIM_LEASE_MS)%Z) now t else t) (tickets db)) db).

(** * Intake *)

Record IntakeResult := {
  r_ticket : FeedbackTicket; r_created : bool; r_claimGranted : bool; r_claimToken : option string }.

Definition refused (t : FeedbackTicket) : IntakeResult :=
  {| r_ticket := t; r_created := false; r_claimGranted := false; r_claimToken := None |}.
(** The [catch] block: the ticket exists; take its claim over if nobody holds it. *)
Definition claim_existing (others : nat → TicketDB → TicketDB) (now : Z) (claimToken consumerId : string)
    (src : FeedbackTicketSource) (ref : string) (error : exn) : M TicketDB IntakeResult := λ db,
  let db2 := others 1 db in
  match find_source db2 src ref with
  | None => (Throw error, db2)
  | Some existing =>
      if mem (status existing) TERMINAL_STATUSES then (Ok (refused existing), db2)
      else
        let '(count, db3) := claim_update (f_id existing) consumerId (tokenHash claimToken) now (others 2 db2) in
        if count =? 1 then
          let db4 := others 3 db3 in
          (Ok {| r_ticket := default existing (find_ticket db4 (f_id existing)); r_created := false;
                 r_claimGranted := true; r_claimToken := Some claimToken |}, db4)
        else (Ok (refused existing), db3)
  end.

Definition intake_row (now : Z) (newId claimToken sourceRef summary consumerId : string)
    (dto : IntakeFeedbackTicketDto) (n : Z) : FeedbackTicket :=
  {| f_id := newId; number := n; source := in_source dto; sourceRef := sourceRef;
     sourceChatRef := sanitizeControlText (nullish (in_sourceChatRef dto) "") 200; f_kind := in_kind dto;
     priority := default NORMAL (in_priority dto); status := RECEIVED;
     title := or_default (sanitizeControlText (in_title dto) 240) "Hara feedback"; summary := summary;
     reporterRef := sanitizeControlText (nullish (in_reporterRef dto) "") 200; assignee := "";
     fixVersion := ""; verificationSteps := ""; claimOwner := consumerId;
     claimTokenHash := tokenHash claimToken; claimExpiresAt := Some (now + CLAIM_LEASE_MS)%Z;
     acknowledgedAt := None; startedAt := None; releasedAt := None; closedAt := None;
     f_createdAt := now; f_updatedAt := now |}.

Definition intake (others : nat → TicketDB → TicketDB) (now : Z) (newId claimToken : string)
    (dto : IntakeFeedbackTicketDto) : M TicketDB IntakeResult := λ db,
  let sourceRef := sanitizeControlText (in_sourceRef dto) 200 in
  let summary := sanitizeControlText (nullish (in_summary dto) "") 2000 in
  let consumerId := sanitizeControlText (in_consumerId dto) 160 in
  if negb (truthy sourceRef) || negb (truthy consumerId) then
    (Throw (BadRequestException "feedback source and consumer identifiers must contain visible text"), db)
  else
    let event := {| e_ticket := newId; e_kind := EventKind.CREATED; fromStatus := None;
      toStatus := Some RECEIVED; note := summary; e_actor := consumerId |} in
    match create_ticket (intake_row now newId claimToken sourceRef summary consumerId dto) event (others 0 db) with
    | (Ok ticket, db1) =>
        (Ok {| r_ticket := ticket; r_created := true; r_claimGranted := true; r_claimToken := Some claimToken |}, db1)
    | (Throw error, db1) =>
        if bool_decide (error = PrismaError "P2002")
        then claim_existing others now claimToken consumerId (in_source dto) sourceRef error db1
        else (Throw error, db1)
    end.

(** * Status changes *)

Definition started_statuses : list FeedbackTicketStatus :=
  [IN_PROGRESS; WAITING_RELEASE; WAITING_VERIFICATION; CLOSED].
Definition event_kind (changed : bool) (s : FeedbackTicketStatus) : EventKind.FeedbackTicketEventKind :=
  match s with
  | CLOSED => EventKind.CLOSED
  | WAITING_VERIFICATION => EventKind.RELEASED
  | ACKNOWLEDGED => EventKind.ACKNOWLEDGED
  | _ => if changed then EventKind.STATUS_CHANGED else EventKind.NOTE
  end.
(** [dto.x === undefined ? existing.x : sanitizeControlText(dto.x, max)] *)
Definition updated_text (o : option string) (old : string) (max : nat) : string :=
  match o with None => old | Some s => sanitizeControlText s max end.

(** What [feedbackTicket.update] makes of a row, by the [data] computed from the [existing] one. *)
Definition written (dto : UpdateFeedbackTicketDto) (now : Z) (existing t : FeedbackTicket) : FeedbackTicket :=
  let s := up_status dto in
  let clear := mem s (WAITING_RELEASE :: TERMINAL_STATUSES) in
  {| f_id := f_id t; number := number t; source := source t; sourceRef := sourceRef t;
     sourceChatRef := sourceChatRef t; f_kind := f_kind t; priority := default (priority existing) (up_priority dto);
     status := s; title := title t; summary := summary t; reporterRef := reporterRef t;
     assignee := updated_text (up_assignee dto) (assignee existing) 160;
     fixVersion := updated_text (up_fixVersion dto) (fixVersion existing) 64;
     verificationSteps := updated_text (up_verificationSteps dto) (verificationSteps existing) 1200;
     claimOwner := if clear then "" else claimOwner t;
     claimTokenHash := if clear then "" else claimTokenHash t;
     claimExpiresAt := if clear then None else claimExpiresAt t;
     acknowledgedAt := if negb (isSome (acknowledgedAt existing)) && negb (bool_decide (s = RECEIVED)) then Some now
                       else acknowledgedAt t;
     startedAt := if negb (isSome (startedAt existing)) && mem s started_statuses then Some now else startedAt t;
     releasedAt := if bool_decide (s = WAITING_VERIFICATION) then Some now else releasedAt t;
     closedAt := if bool_decide (status existing = CLOSED) && negb (bool_decide (s = CLOSED)) then None
                 else if bool_decide (s = CLOSED) then Some now else closedAt t;
     f_createdAt := f_createdAt t; f_updatedAt := now |}.

(** The checks on the ticket that was read; the note. *)
Definition check_transition (dto : UpdateFeedbackTicketDto) (existing : FeedbackTicket) : res string :=
  let s := up_status dto in
  _ ← throw_if (negb (bool_decide (s = status existing)) && negb (mem s (ALLOWED_TRANSITIONS (status existing))))
        (BadRequestException ("invalid ticket transition " +:+ status_str (status existing) +:+ " -> "
                              +:+ status_str s));
  let note := sanitizeControlText (nullish (up_note dto) "") 1200 in
  let fixVersion := updated_text (up_fixVersion dto) (fixVersion existing) 64 in
  let verificationSteps := updated_text (up_verificationSteps dto) (verificationSteps existing) 1200 in
  _ ← throw_if (bool_decide (s = BLOCKED) && negb (truthy note)) (BadRequestException "a blocked ticket requires a reason");
  _ ← throw_if (mem s [WAITING_VERIFICATION; CLOSED] && (negb (truthy fixVersion) || negb (truthy verificationSteps)))
        (BadRequestException "released and closed tickets require a version and verification steps");
  Ok note.
Definition transition_event (i : string) (dto : UpdateFeedbackTicketDto) (actor note : string) (existing : FeedbackTicket)
    : FeedbackTicketEvent :=
  {| e_ticket := i; e_kind := event_kind (negb (bool_decide (up_status dto = status existing))) (up_status dto);
     fromStatus := Some (status existing); toStatus := Some (up_status dto); note := note;
     e_actor := sanitizeControlText actor 160 |}.
(** The commit of the transaction: the update waits for the row and then applies to it as it is. *)
Definition commit_transition (i : string) (dto : UpdateFeedbackTicketDto) (actor : string) (now : Z) (existing : FeedbackTicket)
    (note : string) : M TicketDB FeedbackTicket := λ db,
  match find_ticket db i with
  | None => (Throw (PrismaError "P2025"), db)
  | Some t => (Ok (written dto now existing t),
      {| tickets := update_by f_id i (written dto now existing) (tickets db);
         events := events db ++ [transition_event i dto actor note existing]; nextNumber := nextNumber db |})
  end.
(** The transaction: its calls are the [k]-th and the next. *)
Definition transition (others : nat → TicketDB → TicketDB) (k : nat) (i : string) (dto : UpdateFeedbackTicketDto) (actor : string)
    (now : Z) : M TicketDB FeedbackTicket := λ db,
  let db0 := others k db in
  match find_ticket db0 i with
  | None => (Throw (NotFoundException "feedback ticket not found"), db0)
  | Some existing =>
      match check_transition dto existing with
      | Throw error => (Throw error, db0)
      | Ok note => commit_transition i dto actor now existing note (others (S k) db0)
      end
  end.

Definition update (others : nat → TicketDB → TicketDB) (i : string) (dto : UpdateFeedbackTicketDto) (actor : Guard.AuthedUser)
    (now : Z) : M TicketDB FeedbackTicket :=
  transition others 0 i dto (or_default (Guard.email actor) (Guard.id actor)) now.

(** [now] is the time of the claim check, [now'] that of the write. *)
Definition updateClaimed (others : nat → TicketDB → TicketDB) (i claimToken : string)
    (dto : UpdateFeedbackTicketDto) (now now' : Z) : M TicketDB FeedbackTicket := λ db,
  let db0 := others 0 db in
  match find_ticket db0 i with
  | None => (Throw (NotFoundException "feedback ticket not found"), db0)
  | Some ticket =>
      let claimed := truthy (claimTokenHash ticket)
        && match claimExpiresAt ticket with Some x => (now <? x)%Z | None => false end
        && hashMatches (tokenHash claimToken) (claimTokenHash ticket) in
      if negb claimed
      then (Throw (UnauthorizedException "feedback ticket claim is expired, invalid, or superseded"), db0)
      else transition others 1 i dto (or_default (claimOwner ticket) "feedback-monitor") now' db0
  end.
End service.

(** * Queries *)

Definition source_str (s : FeedbackTicketSource) : string :=
  match s with FEISHU => "FEISHU" | CONTROL => "CONTROL" | INTERNAL => "INTERNAL" end.
Definition kind_str (k : FeedbackTicketKind) : string :=
  match k with BUG => "BUG" | SUGGESTION => "SUGGESTION" | CRASH => "CRASH" | OTHER => "OTHER" end.
Definition priority_str (p : FeedbackTicketPriority) : string :=
  match p with URGENT => "URGENT" | HIGH => "HIGH" | NORMAL => "NORMAL" | LOW => "LOW" end.
Definition all_statuses : list FeedbackTicketStatus :=
  [RECEIVED; ACKNOWLEDGED; IN_PROGRESS; WAITING_RELEASE; WAITING_VERIFICATION; CLOSED; BLOCKED; REJECTED].
Definition all_kinds : list FeedbackTicketKind := [BUG; SUGGESTION; CRASH; OTHER].
Definition all_priorities : list FeedbackTicketPriority := [URGENT; HIGH; NORMAL; LOW].
Definition parseOptionalEnum {A} (value : option string) (options : list A) (name : A → string) (label : string)
    : res (option A) :=
  let v := nullish value "" in
  if negb (truthy v) then Ok None
  else match list_find (λ a, name a = v) options with
       | Some (_, a) => Ok (Some a)
       | None => Throw (BadRequestException ("invalid " +:+ label))
       end.
Definition list_limit (limit : Prelude.number) : nat :=
  match limit with
  | Num q => Z.to_nat (Z.max 1 (Z.min 200 (Z.quot (Qnum q) (Zpos (Qden q)))))
  | _ => 100
  end.
(** [orderBy: [{ priority: "asc" }, { updatedAt: "desc" }]], an enum in the order of its declaration. *)
Definition priority_rank (p : FeedbackTicketPriority) : nat :=
  match p with URGENT => 0 | HIGH => 1 | NORMAL => 2 | LOW => 3 end.
Definition listed_before (a b : FeedbackTicket) : Prop :=
  priority_rank (priority a) < priority_rank (priority b) ∨
  (priority a = priority b ∧ (f_updatedAt b <= f_updatedAt a)%Z).
#[export] Instance listed_before_dec a b : Decision (listed_before a b).
Proof. unfold listed_before. apply _. Defined.
Definition wanted {A} `{EqDecision A} (o : option A) (a : A) : bool :=
  match o with Some b => bool_decide (a = b) | None => true end.
(** [list]: the rows with their display numbers. *)
Definition list_tickets (st kd pr : option string) (limit : Prelude.number) (db : TicketDB)
    : res (list (FeedbackTicket * string)) :=
  s ← parseOptionalEnum st all_statuses status_str "ticket status";
  k ← parseOptionalEnum kd all_kinds kind_str "ticket kind";
  p ← parseOptionalEnum pr all_priorities priority_str "ticket priority";
  Ok (map (λ t, (t, formatTicketNumber (number t)))
    (take (list_limit limit) (merge_sort listed_before
      (filter (λ t, wanted s (status t) && wanted k (f_kind t) && wanted p (priority t) = true) (tickets db))))).
Definition get_ticket (i : string) (db : TicketDB) : res (FeedbackTicket * string * list FeedbackTicketEvent) :=
  match find_ticket db i with
  | None => Throw (NotFoundException "feedback ticket not found")
  | Some t => Ok (t, formatTicketNumber (number t), filter (λ e, e_ticket e = i) (events db))
  end.

(** * The workflow invariant *)

(** What the timestamps, the release data and the claim of a ticket say about its status. *)
Record ticket_ok (t : FeedbackTicket) : Prop := {
  o_acknowledged : status t ≠ RECEIVED → isSome (acknowledgedAt t) = true;
  o_started : status t ∈ started_statuses → isSome (startedAt t) = true;
  o_released : status t ∈ [WAITING_VERIFICATION; CLOSED] →
    isSome (releasedAt t) = true ∧ fixVersion t ≠ "" ∧ verificationSteps t ≠ "";
  o_closed : isSome (closedAt t) = true ↔ status t = CLOSED;
  o_claim : status t ∈ TERMINAL_STATUSES → claimTokenHash t = "" ∧ claimExpiresAt t = None }.

(** A change that the status machine allows, or none. *)
Definition allowed (s s' : FeedbackTicketStatus) : Prop := s' = s ∨ s' ∈ ALLOWED_TRANSITIONS s.
Definition events_of (i : string) (db : TicketDB) : list FeedbackTicketEvent := filter (λ e, e_ticket e = i) (events db).
Definition creation (e : FeedbackTicketEvent) : Prop :=
  e_kind e = EventKind.CREATED ∧ fromStatus e = None ∧ toStatus e = Some RECEIVED.
(** The timeline leads from one status to another along allowed transitions. *)
Fixpoint trail_from (s : FeedbackTicketStatus) (l : list FeedbackTicketEvent) (last : FeedbackTicketStatus) : Prop :=
  match l with
  | [] => s = last
  | e :: l' => ∃ s', fromStatus e = Some s ∧ toStatus e = Some s' ∧ allowed s s' ∧ trail_from s' l' last
  end.
Definition timeline (l : list FeedbackTicketEvent) (last : FeedbackTicketStatus) : Prop :=
  ∃ e l', l = e :: l' ∧ creation e ∧ trail_from RECEIVED l' last.
(** Weaker: each event is an allowed transition by itself, and the last one is to this status. *)
Definition allowed_event (e : FeedbackTicketEvent) : Prop :=
  ∃ s s', fromStatus e = Some s ∧ toStatus e = Some s' ∧ allowed s s'.
Definition history (l : list FeedbackTicketEvent) (current : FeedbackTicketStatus) : Prop :=
  ∃ e l', l = e :: l' ∧ creation e ∧ Forall allowed_event l' ∧ toStatus <$> last l = Some (Some current).

(** Weaker: the closing time is set when the ticket is closed, but may be set when it is not. *)
Record row_ok (t : FeedbackTicket) : Prop := {
  r_acknowledged : status t ≠ RECEIVED → isSome (acknowledgedAt t) = true;
  r_started : status t ∈ started_statuses → isSome (startedAt t) = true;
  r_released : status t ∈ [WAITING_VERIFICATION; CLOSED] →
    isSome (releasedAt t) = true ∧ fixVersion t ≠ "" ∧ verificationSteps t ≠ "";
  r_closed : status t = CLOSED → isSome (closedAt t) = true;
  r_claim : status t ∈ TERMINAL_STATUSES → claimTokenHash t = "" ∧ claimExpiresAt t = None }.

(** The tables, for a condition on the rows and one on the events of a ticket and its status. *)
Record tables_ok (R : FeedbackTicket → Prop) (T : list FeedbackTicketEvent → FeedbackTicketStatus → Prop) (db : TicketDB) : Prop := {
  w_ids : NoDup (map f_id (tickets db));
  w_sources : NoDup (map (λ t, (source t, sourceRef t)) (tickets db));
  w_numbers : NoDup (map number (tickets db));
  w_next : Forall (λ t, (number t < nextNumber db)%Z) (tickets db);
  w_tickets : Forall (λ t, R t ∧ T (events_of (f_id t) db) (status t)) (tickets db);
  w_events : Forall (λ e, is_Some (find_ticket db (e_ticket e))) (events db) }.
Definition well_formed : TicketDB → Prop := tables_ok ticket_ok timeline.
Definition consistent : TicketDB → Prop := tables_ok row_ok history.

Definition no_tickets : TicketDB := {| tickets := []; events := []; nextNumber := 1 |}.
Lemma no_tickets_ok R T : tables_ok R T no_tickets.
Proof. split; constructor. Qed.

(** * Every database call keeps the invariant *)

Lemma trail_snoc s l m e m' :
  trail_from s l m → fromStatus e = Some m → toStatus e = Some m' → allowed m m' → trail_from s (l ++ [e]) m'.
Proof.
  revert s. induction l as [|x l IH]; intros s; cbn [trail_from app].
  - intros -> Hf Ht Ha. by exists m'.
  - intros (s' & ? & ? & ? & Hl) Hf Ht Ha. exists s'. split_and!; [done..|]. by apply IH.
Qed.
Lemma timeline_snoc l m e m' : timeline l m → fromStatus e = Some m → toStatus e = Some m' → allowed m m' → timeline (l ++ [e]) m'.
Proof.
  intros (x & l' & -> & Hc & Ht) Hf Hto Ha. exists x, (l' ++ [e]). split_and!; [done..|]. by eapply trail_snoc.
Qed.
Lemma history_snoc l m e m' : history l m → allowed_event e → toStatus e = Some m' → history (l ++ [e]) m'.
Proof.
  intros (x & l' & -> & Hc & Hall & _) He Hto. exists x, (l' ++ [e]). split_and!; [done..| |].
  - apply Forall_app. split; [done|by repeat constructor].
  - rewrite last_snoc. cbn. by rewrite Hto.
Qed.
Lemma events_of_snoc i db db' ev : events db' = events db ++ [ev] →
  events_of i db' = events_of i db ++ (if decide (e_ticket ev = i) then [ev] else []).
Proof. intros He. unfold events_of. rewrite He, filter_app. case_decide; [by rewrite filter_cons_True|by rewrite filter_cons_False]. Qed.

Lemma find_ticket_elem db t :
  NoDup (map f_id (tickets db)) → t ∈ tickets db → find_ticket db (f_id t) = Some t.
Proof. intros. by apply find_by_unique. Qed.

Section tables.
Context (R : FeedbackTicket → Prop) (T : list FeedbackTicketEvent → FeedbackTicketStatus → Prop).

(** A call that rewrites rows without touching the keys. *)
Lemma tables_map db f evs :
  (∀ t, f_id (f t) = f_id t ∧ number (f t) = number t ∧ source (f t) = source t ∧ sourceRef (f t) = sourceRef t) →
  Forall (λ e, is_Some (find_ticket db (e_ticket e))) evs →
  (let db' := {| tickets := map f (tickets db); events := events db ++ evs; nextNumber := nextNumber db |} in
   ∀ t, t ∈ tickets db → R t → T (events_of (f_id t) db) (status t) →
     R (f t) ∧ T (events_of (f_id t) db') (status (f t))) →
  tables_ok R T db →
  tables_ok R T {| tickets := map f (tickets db); events := events db ++ evs; nextNumber := nextNumber db |}.
Proof.
  intros Hf Hevs Hok [Hi Hs Hn Hx Ht He].
  assert (map f_id (map f (tickets db)) = map f_id (tickets db)) as Hids
    by (rewrite map_map; apply map_ext; intros t; apply Hf).
  split; simpl.
  - by rewrite Hids.
  - rewrite map_map. erewrite map_ext; [exact Hs|]. intros t. simpl. by destruct (Hf t) as (_ & _ & -> & ->).
  - rewrite map_map. erewrite map_ext; [exact Hn|]. intros t. apply Hf.
  - apply Forall_map. eapply Forall_impl; [exact Hx|]. intros t. simpl. by destruct (Hf t) as (_ & -> & _).
  - apply Forall_map, Forall_forall. intros t Hin. simpl. destruct (Hf t) as (-> & _).
    rewrite Forall_forall in Ht. destruct (Ht t Hin). by apply Hok.
  - assert (∀ i, is_Some (find_ticket db i) → is_Some (find_by f_id i (map f (tickets db)))) as Hmono.
    { intros i [t [Hk Hin]%find_by_Some]. apply (find_by_elem f_id i _ (f t)).
      - apply list_elem_of_fmap. by exists t.
      - by destruct (Hf t) as (-> & _). }
    apply Forall_app. split; eapply Forall_impl; [exact He| |exact Hevs|]; intros e; apply Hmono.
Qed.

Lemma create_ticket_tables row ev db :
  tables_ok R T db → (∀ n, number (row n) = n ∧ R (row n) ∧ status (row n) = RECEIVED ∧ f_id (row n) = e_ticket ev) →
  T [ev] RECEIVED → tables_ok R T (create_ticket row ev db).2.
Proof.
  intros [Hi Hs Hn Hx Ht He] Hrow HT. unfold create_ticket.
  assert (tables_ok R T {| tickets := tickets db; events := events db; nextNumber := nextNumber db + 1 |}) as Hbump.
  { split; try done. eapply Forall_impl; [exact Hx|]. intros t Hlt. simpl in *. lia. }
  destruct (_ || _) eqn:Hex; [done|]. destruct (1200 <? _); [done|]. cbn [snd].
  destruct (Hrow (nextNumber db)) as (Hnum & Hok & Hst & Hid). set (r := row (nextNumber db)) in *.
  apply orb_false_iff in Hex as [Hsrc%isSome_false Hidn%isSome_false].
  unfold find_ticket in Hidn. rewrite find_by_None in Hidn.
  assert (events_of (f_id r) db = []) as Hfresh.
  { apply elem_of_nil_inv. intros e [Heq Hin]%list_elem_of_filter. rewrite Forall_forall in He.
    destruct (He e Hin) as [t [Hkt Hint]%find_by_Some]. apply (Hidn t Hint). congruence. }
  split; simpl; rewrite ?map_app.
  - apply NoDup_app. split_and!; [done| |apply NoDup_singleton].
    intros i Hin ->%list_elem_of_singleton. apply list_elem_of_fmap in Hin as (t & Heq & Hin). by apply (Hidn t Hin).
  - apply NoDup_app. split_and!; [done| |apply NoDup_singleton].
    intros k Hin ->%list_elem_of_singleton. apply list_elem_of_fmap in Hin as (t & [= He1 He2] & Hin).
    unfold find_source in Hsrc. apply fmap_None, list_find_None in Hsrc. rewrite Forall_forall in Hsrc.
    by apply (Hsrc t Hin).
  - apply NoDup_app. split_and!; [done| |apply NoDup_singleton].
    intros k Hin ->%list_elem_of_singleton. apply list_elem_of_fmap in Hin as (t & [= Heq] & Hin).
    rewrite Forall_forall in Hx. specialize (Hx t Hin). simpl in *. lia.
  - apply Forall_app. split; [|constructor; [lia|constructor]]. eapply Forall_impl; [exact Hx|]. simpl. lia.
  - apply Forall_app. split.
    + apply Forall_forall. intros t Hin. rewrite Forall_forall in Ht. destruct (Ht t Hin) as [? Htl]. split; [done|].
      rewrite (events_of_snoc _ db _ ev) by done. rewrite decide_False by (rewrite <-Hid; intros Heq; by apply (Hidn t Hin)).
      by rewrite app_nil_r.
    + constructor; [|constructor]. split; [done|]. rewrite (events_of_snoc _ db _ ev) by done. rewrite Hfresh, decide_True by done. by rewrite Hst.
  - apply Forall_app. split.
    + eapply Forall_impl; [exact He|]. intros e [t Hfind]. exists t. unfold find_ticket in *. cbn [tickets]. by rewrite find_by_app, Hfind.
    + constructor; [|constructor]. rewrite <-Hid. apply (find_by_elem f_id _ _ r); [|done].
      apply elem_of_app. right. by apply list_elem_of_singleton.
Qed.

(** A claim does not look at a closed or rejected ticket. *)
Definition claims_keep : Prop := ∀ t owner hash expires now, (status t ∉ TERMINAL_STATUSES) → R t → R (with_claim owner hash expires now t).
Lemma claim_update_tables i consumer hash now db : claims_keep → tables_ok R T db → tables_ok R T (claim_update i consumer hash now db).2.
Proof.
  intros Hk Hw. unfold claim_update, with_tickets. cbn [snd]. rewrite <-(app_nil_r (events db)).
  apply tables_map; [|constructor| |done].
  - intros t. by destruct (claimable i consumer now t).
  - cbv zeta. intros t _ Hok Htl. unfold events_of. cbn [events]. rewrite app_nil_r.
    destruct (claimable i consumer now t) eqn:Hc; [|done]. split; [|done]. apply Hk; [|done].
    unfold claimable in Hc. rewrite !andb_true_iff, negb_true_iff in Hc. destruct Hc as [[_ Hnt] _].
    intros Hin%mem_true. congruence.
Qed.

(** The commit of a transition that read [existing]. *)
Lemma commit_tables i dto actor now existing note db t :
  find_ticket db i = Some t → (R t → R (written dto now existing t)) →
  (T (events_of i db) (status t) → T (events_of i db ++ [transition_event i dto actor note existing]) (up_status dto)) →
  tables_ok R T db → tables_ok R T (commit_transition i dto actor now existing note db).2.
Proof.
  intros Hfind Hrow Hev Hw. unfold commit_transition. rewrite Hfind. cbn [snd].
  apply tables_map; [intros u; by case_decide| | |done].
  - constructor; [|constructor]. cbn [e_ticket transition_event]. rewrite Hfind. by eexists.
  - cbv zeta. intros u Hin Hok Htl. rewrite (events_of_snoc _ db _ (transition_event i dto actor note existing)) by done. cbn [e_ticket transition_event].
    case_decide as Hu.
    + assert (t = u) as ->.
      { apply (find_ticket_elem db) in Hin; [|apply Hw]. rewrite Hu in Hin. congruence. }
      rewrite decide_True by done. split; [by apply Hrow|]. subst i. by apply Hev.
    + rewrite decide_False, app_nil_r by congruence. done.
Qed.
End tables.

Lemma closed_after s : CLOSED ∈ ALLOWED_TRANSITIONS s → s = WAITING_VERIFICATION.
Proof. intros H%mem_true. by destruct s; vm_compute in H. Qed.
Lemma terminal_clears s : s ∈ TERMINAL_STATUSES → mem s (WAITING_RELEASE :: TERMINAL_STATUSES) = true.
Proof. intros H. apply mem_true, elem_of_cons. by right. Qed.

(** What the checks say. *)
Lemma check_transition_ok dto existing note : check_transition dto existing = Ok note →
  allowed (status existing) (up_status dto) ∧ (up_status dto = BLOCKED → note ≠ "") ∧
  (up_status dto ∈ [WAITING_VERIFICATION; CLOSED] →
   ∀ now t, fixVersion (written dto now existing t) ≠ "" ∧ verificationSteps (written dto now existing t) ≠ "").
Proof.
  unfold check_transition. cbv zeta. intros ([] & Hal%throw_if_ok & ([] & Hbl%throw_if_ok & ([] & Hrel%throw_if_ok & [= <-])%res_bind_ok)%res_bind_ok)%res_bind_ok.
  split_and!.
  - apply andb_false_iff in Hal as [Hal|Hal]; apply negb_false_iff in Hal.
    + left. by apply bool_decide_eq_true in Hal.
    + right. by apply mem_true.
  - intros Heq. rewrite (bool_decide_eq_true_2 _ Heq) in Hbl. cbn [andb] in Hbl. by rewrite negb_false_iff, truthy_true in Hbl.
  - intros Hin%mem_true now t. rewrite Hin in Hrel. cbn [andb] in Hrel. by rewrite orb_false_iff, !negb_false_iff, !truthy_true in Hrel.
Qed.

Lemma written_ok dto now t note : check_transition dto t = Ok note → ticket_ok t → ticket_ok (written dto now t t).
Proof.
  intros (Hallowed & _ & Hdata)%check_transition_ok [Hack Hst Hrel Hcl Hclm].
  assert (isSome (closedAt t) = true ↔ status t = CLOSED) as Hcl' by done.
  split; cbn [written status acknowledgedAt startedAt releasedAt closedAt claimTokenHash claimExpiresAt] in *.
  - intros Hne. rewrite bool_decide_eq_false_2 by done. by destruct (acknowledgedAt t).
  - intros Hin. apply mem_true in Hin. rewrite Hin. by destruct (startedAt t).
  - intros Hin. split; [|by apply Hdata]. case_bool_decide as Hwv; [done|].
    destruct Hallowed as [Heq|Hal]; [rewrite Heq in Hin; by apply Hrel|].
    assert (up_status dto = CLOSED) as Hc.
    { apply elem_of_cons in Hin as [?|Hin]; [done|]. by apply list_elem_of_singleton in Hin. }
    rewrite Hc in Hal. apply closed_after in Hal. apply Hrel. rewrite Hal. by apply elem_of_cons; left.
  - destruct (decide (status t = CLOSED)) as [H1|H1], (decide (up_status dto = CLOSED)) as [H2|H2].
    all: rewrite ?(bool_decide_eq_true_2 _ H1), ?(bool_decide_eq_false_2 _ H1), ?(bool_decide_eq_true_2 _ H2),
           ?(bool_decide_eq_false_2 _ H2); cbn [andb negb isSome].
    all: intuition congruence.
  - intros Hin. by rewrite (terminal_clears _ Hin).
Qed.

(** [t] is [e] as other requests may have made it meanwhile: times that were set still are. *)
Record later (e t : FeedbackTicket) : Prop := {
  l_acknowledged : isSome (acknowledgedAt e) = true → isSome (acknowledgedAt t) = true;
  l_started : isSome (startedAt e) = true → isSome (startedAt t) = true;
  l_released : isSome (releasedAt e) = true → isSome (releasedAt t) = true }.
#[export] Instance later_preorder : PreOrder later.
Proof. split; [by split|]. intros a b c [] []; split; auto. Qed.
Lemma later_written dto now existing t : later t (written dto now existing t).
Proof.
  split; cbn [written acknowledgedAt startedAt releasedAt]; intros H.
  - by destruct (negb _ && _).
  - by destruct (negb _ && _).
  - by case_bool_decide.
Qed.
Lemma written_row_ok dto now e t note : check_transition dto e = Ok note → row_ok e → later e t → row_ok (written dto now e t).
Proof.
  intros (Hallowed & _ & Hdata)%check_transition_ok [Hack Hst Hrel Hcl Hclm] [Hla Hls Hlr].
  split; cbn [written status acknowledgedAt startedAt releasedAt closedAt claimTokenHash claimExpiresAt] in *.
  - intros Hne. rewrite (bool_decide_eq_false_2 _ Hne). destruct (acknowledgedAt e); [by apply Hla|done].
  - intros Hin. apply mem_true in Hin. rewrite Hin. destruct (startedAt e); [by apply Hls|done].
  - intros Hin. split; [|by apply Hdata]. case_bool_decide as Hwv; [done|]. apply Hlr.
    destruct Hallowed as [Heq|Hal]; [rewrite Heq in Hin; by apply Hrel|].
    assert (up_status dto = CLOSED) as Hc.
    { apply elem_of_cons in Hin as [?|Hin]; [done|]. by apply list_elem_of_singleton in Hin. }
    rewrite Hc in Hal. apply closed_after in Hal. apply Hrel. rewrite Hal. by apply elem_of_cons; left.
  - intros ->. by rewrite andb_false_r.
  - intros Hin. by rewrite (terminal_clears _ Hin).
Qed.

(** * Interleavings *)

(** One commit of some request. [seen e t] relates the row a transition read to the row its commit finds. *)
Inductive step (sha256 : string → string) (seen : FeedbackTicket → FeedbackTicket → Prop) : TicketDB → TicketDB → Prop :=
  | step_create now newId token ref summ consumer dto db :
      step sha256 seen db (create_ticket (intake_row sha256 now newId token ref summ consumer dto)
        {| e_ticket := newId; e_kind := EventKind.CREATED; fromStatus := None; toStatus := Some RECEIVED;
           note := summ; e_actor := consumer |} db).2
  | step_claim i consumer hash now db : step sha256 seen db (claim_update i consumer hash now db).2
  | step_commit i dto actor now existing note t db :
      find_ticket db i = Some t → check_transition dto existing = Ok note → seen existing t →
      step sha256 seen db (commit_transition i dto actor now existing note db).2.
(** Any earlier version of the row may have been read. *)
Definition any_version (e t : FeedbackTicket) : Prop := row_ok e ∧ later e t.

Inductive request :=
  | ReqIntake (now : Z) (newId claimToken : string) (dto : IntakeFeedbackTicketDto)
  | ReqUpdate (i : string) (dto : UpdateFeedbackTicketDto) (actor : Guard.AuthedUser) (now : Z)
  | ReqUpdateClaimed (i claimToken : string) (dto : UpdateFeedbackTicketDto) (now now' : Z).
Definition handle (sha256 : string → string) (others : nat → TicketDB → TicketDB) (r : request) (db : TicketDB)
    : TicketDB :=
  match r with
  | ReqIntake now newId token dto => (intake sha256 others now newId token dto db).2
  | ReqUpdate i dto actor now => (update others i dto actor now db).2
  | ReqUpdateClaimed i token dto now now' => (updateClaimed sha256 others i token dto now now' db).2
  end.

Lemma step_well_formed sha256 db db' : step sha256 eq db db' → well_formed db → well_formed db'.
Proof.
  destruct 1 as [| |i dto actor now e note t db Hfind Hcheck ->]; intros Hw.
  - apply create_ticket_tables; [done| |by eexists _, []]. intros n. split_and!; try done. split; simpl; try done; set_solver.
  - apply claim_update_tables; [|done]. intros t owner hh ex n Hnt []. split; simpl; try done.
  - apply (commit_tables _ _ _ _ _ _ _ _ _ t); [done|by eapply written_ok| |done].
    intros Ht. eapply timeline_snoc; [exact Ht|done|done|by eapply check_transition_ok].
Qed.
Lemma step_consistent sha256 db db' : step sha256 any_version db db' → consistent db → consistent db'.
Proof.
  destruct 1 as [| |i dto actor now e note t db Hfind Hcheck [He Hl]]; intros Hw.
  - apply create_ticket_tables; [done| |by eexists _, []]. intros n. split_and!; try done. split; simpl; try done; set_solver.
  - apply claim_update_tables; [|done]. intros t owner hh ex n Hnt []. split; simpl; try done.
  - apply (commit_tables _ _ _ _ _ _ _ _ _ t); [done|intros _; by eapply written_row_ok| |done].
    intros Ht. eapply history_snoc; [exact Ht| |done]. eexists _, _. split_and!; [done|done|by eapply check_transition_ok].
Qed.
Lemma steps_well_formed sha256 db db' : rtc (step sha256 eq) db db' → well_formed db → well_formed db'.
Proof. induction 1; eauto using step_well_formed. Qed.
Lemma steps_consistent sha256 db db' : rtc (step sha256 any_version) db db' → consistent db → consistent db'.
Proof. induction 1; eauto using step_consistent. Qed.

(** A row stays, and what was set stays set. *)
Lemma step_later sha256 seen db db' i t : step sha256 seen db db' → find_ticket db i = Some t → ∃ t', find_ticket db' i = Some t' ∧ later t t'.
Proof.
  destruct 1 as [now newId token ref summ consumer dto db|j consumer hash now db|j dto actor now e note u db Hfind _ _]; intros Hi.
  - exists t. split; [|done]. unfold create_ticket. destruct (_ || _); [done|]. destruct (1200 <? _); [done|]. cbn [snd].
    unfold find_ticket in *. cbn [tickets]. by rewrite find_by_app, Hi.
  - unfold claim_update. cbn [snd]. unfold find_ticket, with_tickets in *. cbn [tickets].
    rewrite (find_by_map f_id) by (intros u; by destruct (claimable j consumer now u)). rewrite Hi. cbn [fmap option_fmap option_map].
    eexists. split; [reflexivity|]. by destruct (claimable j consumer now t).
  - unfold commit_transition. rewrite Hfind. cbn [snd]. unfold find_ticket, update_by in *. cbn [tickets].
    rewrite (find_by_map f_id) by (intros v; by case_decide). rewrite Hi. cbn [fmap option_fmap option_map].
    eexists. split; [reflexivity|]. case_decide; [apply later_written|done].
Qed.
Lemma steps_later sha256 seen db db' i t : rtc (step sha256 seen) db db' → find_ticket db i = Some t → ∃ t', find_ticket db' i = Some t' ∧ later t t'.
Proof.
  intros H. revert t. induction H as [|d d1 d' Hs _ IH]; intros t Hi; [by exists t|].
  destruct (step_later _ _ _ _ _ _ Hs Hi) as (t1 & Hi1 & Hl). destruct (IH _ Hi1) as (t2 & Hi2 & Hl'). exists t2. split; [done|by etrans].
Qed.

(** A request is a sequence of commits, its own and those of the others. *)
Lemma claim_existing_steps sha256 seen others now token consumer src ref e db :
  (∀ n d, rtc (step sha256 seen) d (others n d)) →
  rtc (step sha256 seen) db (claim_existing sha256 others now token consumer src ref e db).2.
Proof.
  intros Ho. unfold claim_existing. destruct (find_source (others 1 db) src ref) as [t|]; [|apply Ho].
  destruct (mem _ _); [apply Ho|].
  assert (rtc (step sha256 seen) db (claim_update (f_id t) consumer (tokenHash sha256 token) now
    (others 2 (others 1 db))).2) as Hc.
  { etrans; [apply (Ho 1)|]. etrans; [apply (Ho 2)|]. apply rtc_once. constructor. }
  destruct (claim_update _ _ _ _ _) as [n db3]. simpl in Hc.
  destruct (n =? 1); [|done]. etrans; [exact Hc|apply Ho].
Qed.
(** What the [k]-th call of a request on ticket [i] reads, and what the next one finds. *)
Definition reads (seen : FeedbackTicket → FeedbackTicket → Prop) (others : nat → TicketDB → TicketDB) (k : nat) (i : string) (db : TicketDB) : Prop :=
  ∀ e t, find_ticket (others k db) i = Some e → find_ticket (others (S k) (others k db)) i = Some t → seen e t.
Lemma transition_steps sha256 seen others k i dto actor now db :
  (∀ n d, rtc (step sha256 seen) d (others n d)) → reads seen others k i db →
  rtc (step sha256 seen) db (transition others k i dto actor now db).2.
Proof.
  intros Ho Hr. unfold transition. destruct (find_ticket (others k db) i) as [e|] eqn:He; [|apply Ho].
  destruct (check_transition dto e) as [note|] eqn:Hc; [|apply Ho].
  assert (rtc (step sha256 seen) db (others (S k) (others k db))) as Hs by (etrans; [apply (Ho k)|apply Ho]).
  destruct (find_ticket (others (S k) (others k db)) i) as [t|] eqn:Ht.
  - etrans; [exact Hs|]. apply rtc_once. eapply step_commit; [exact Ht|exact Hc|by apply Hr].
  - unfold commit_transition. by rewrite Ht.
Qed.
Definition request_reads (seen : FeedbackTicket → FeedbackTicket → Prop) (others : nat → TicketDB → TicketDB) (r : request) (db : TicketDB) : Prop :=
  match r with
  | ReqIntake _ _ _ _ => True
  | ReqUpdate i _ _ _ => reads seen others 0 i db
  | ReqUpdateClaimed i _ _ _ _ => reads seen others 1 i (others 0 db)
  end.
Lemma handle_steps sha256 seen others r db :
  (∀ n d, rtc (step sha256 seen) d (others n d)) → request_reads seen others r db →
  rtc (step sha256 seen) db (handle sha256 others r db).
Proof.
  intros Ho Hr. destruct r; cbn [handle request_reads] in *.
  - unfold intake. destruct (_ || _); [done|].
    match goal with |- context [create_ticket ?row ?ev ?d] =>
      assert (rtc (step sha256 seen) db (create_ticket row ev d).2) as Hc
        by (etrans; [apply (Ho 0)|apply rtc_once; constructor]);
      destruct (create_ticket row ev d) as [[t|e] db1] end; [exact Hc|].
    case_bool_decide; [|exact Hc]. etrans; [exact Hc|]. by apply claim_existing_steps.
  - by apply transition_steps.
  - unfold updateClaimed. destruct (find_ticket _ _); [|apply Ho]. destruct (negb _); [apply Ho|].
    etrans; [apply (Ho 0)|]. by apply transition_steps.
Qed.

(** In a consistent state a request reads some version of the row its commit finds. *)
Lemma any_version_read sha256 others k i db :
  (∀ n d, rtc (step sha256 any_version) d (others n d)) → consistent db → reads any_version others k i db.
Proof.
  intros Ho Hw e t He Ht. pose proof (steps_consistent _ _ _ (Ho k db) Hw) as [_ _ _ _ Hrows _].
  split.
  - pose proof (find_by_Some _ _ _ _ He) as [_ Hin]. rewrite Forall_forall in Hrows. by apply Hrows.
  - destruct (steps_later _ _ _ _ _ _ (Ho (S k) (others k db)) He) as (t' & Ht' & Hl). congruence.
Qed.
Lemma handle_tickets_consistent sha256 others r db :
  (∀ n d, rtc (step sha256 any_version) d (others n d)) → consistent db → consistent (handle sha256 others r db).
Proof.
  intros Ho Hw. eapply steps_consistent; [|exact Hw]. apply handle_steps; [done|].
  destruct r; cbn [request_reads]; [done|by eapply any_version_read|]. eapply any_version_read; [exact Ho|]. exact (steps_consistent _ _ _ (Ho 0 db) Hw).
Qed.
(** Nobody else changes the ticket between the reading and the writing of a request. *)
Definition undisturbed (others : nat → TicketDB → TicketDB) (r : request) : Prop :=
  match r with
  | ReqIntake _ _ _ _ => True
  | ReqUpdate i _ _ _ => ∀ d, find_ticket (others 1 d) i = find_ticket d i
  | ReqUpdateClaimed i _ _ _ _ => ∀ d, find_ticket (others 2 d) i = find_ticket d i
  end.
Lemma handle_well_formed sha256 others r db :
  (∀ n d, rtc (step sha256 eq) d (others n d)) → undisturbed others r → well_formed db → well_formed (handle sha256 others r db).
Proof.
  intros Ho Hu Hw. eapply steps_well_formed; [|exact Hw]. apply handle_steps; [done|].
  destruct r; cbn [request_reads undisturbed] in *; [done|..]; intros e t He; rewrite Hu, He; by intros [= ->].
Qed.

(** C34: The ticket workflow. Every state the service can reach from empty tables by any requests, with commits of
    others before every one of their database calls, is consistent: ids, numbers and (source, reference) pairs are
    unique, every ticket's timeline starts with its creation, each later event is by itself a transition the status
    machine allows, and the last one is to the ticket's status; a ticket past RECEIVED was acknowledged and a started
    one has a start time, one that waits for verification or is closed has a release time, a version and verification
    steps, a closed one has a closing time, and a closed or rejected one has no claim. If moreover nobody else changes
    a ticket between the reading and the writing of a change of its status, by this request or by one of the others,
    then the events of every timeline also join up, each starting where the one before it ended, and the closing time
    is set exactly when the ticket is closed. (The code takes no lock for that: see [closed_and_reopened].) *)
Theorem ticket_workflow sha256 requests :
  let final := run_events (λ db '(others, r), handle sha256 others r db) no_tickets requests in
  ((∀ others r, (others, r) ∈ requests → ∀ n d, rtc (step sha256 any_version) d (others n d)) → consistent final) ∧
  ((∀ others r, (others, r) ∈ requests → undisturbed others r ∧ ∀ n d, rtc (step sha256 eq) d (others n d)) → well_formed final).
Proof.
  cbv zeta. split; intros Ho; (apply run_events_listed; [intros db [others r] Hin|apply no_tickets_ok]).
  - apply handle_tickets_consistent. exact (Ho others r Hin).
  - destruct (Ho others r Hin). by apply handle_well_formed.
Qed.

(** * The claim *)

Definition alone (_ : nat) (db : TicketDB) : TicketDB := db.

Lemma claim_update_none i consumer hash now db :
  (∀ t, t ∈ tickets db → claimable i consumer now t = false) →
  claim_update i consumer hash now db = (0, db).
Proof.
  intros Hno. unfold claim_update.
  assert (filter (λ t, claimable i consumer now t = true) (tickets db) = []) as ->.
  { revert Hno. induction (tickets db) as [|t l IH]; intros Hno; [done|].
    rewrite filter_cons_False; [apply IH; intros u Hu; apply Hno; by right|]. by rewrite Hno by left. }
  f_equal. unfold with_tickets. destruct db as [ts es n]. simpl in *. f_equal.
  apply map_id_on, Forall_forall. intros t Hin. by rewrite Hno.
Qed.

Lemma find_source_Some db src ref t :
  find_source db src ref = Some t → source t = src ∧ sourceRef t = ref ∧ t ∈ tickets db.
Proof.
  intros ([n y] & H & ->)%fmap_Some. apply list_find_Some in H as (Hl & [? ?] & _).
  split_and!; [done..|]. by apply list_elem_of_lookup_2 in Hl.
Qed.

(** The claim is an exclusive, expiring lease. While another consumer's lease on a ticket has not
    expired, an intake of the same message gets no claim and no token and changes no ticket; and,
    whatever the other requests do in between, an update with a claim token only goes through if the
    token's hash is the stored one and the lease had not expired when it was checked. *)
Theorem claim_is_exclusive sha256 now newId token dto db t x others i token' dto' now1 now2 row db' db'' r :
  well_formed db →
  find_source db (in_source dto) (sanitizeControlText (in_sourceRef dto) 200) = Some t →
  claimExpiresAt t = Some x → (now < x)%Z →
  claimOwner t ≠ sanitizeControlText (in_consumerId dto) 160 →
  intake sha256 alone now newId token dto db = (Ok r, db') →
  updateClaimed sha256 others i token' dto' now1 now2 db = (Ok row, db'') →
  (r_claimGranted r = false ∧ r_claimToken r = None ∧ tickets db' = tickets db ∧ events db' = events db) ∧
  (∃ u y, find_ticket (others 0 db) i = Some u ∧ claimExpiresAt u = Some y ∧ (now1 < y)%Z ∧
     from_hex (chars (sha256 token')) = from_hex (chars (claimTokenHash u)) ∧
     from_hex (chars (claimTokenHash u)) ≠ []).
Proof.
  intros Hw Hfind Hexp Hlive Howner Hin Hup. split.
  - destruct (find_source_Some _ _ _ _ Hfind) as (Hsrc & Href & Hel).
    unfold intake in Hin. destruct (_ || _) in Hin; [done|]. unfold create_ticket, alone in Hin.
    cbn [source intake_row sourceRef tickets events f_id] in Hin. rewrite Hfind in Hin. cbn [isSome orb] in Hin.
    rewrite bool_decide_eq_true_2 in Hin by done. unfold claim_existing in Hin.
    match type of Hin with context [find_source ?d _ _] =>
      change (find_source d (in_source dto)) with (find_source db (in_source dto)) in Hin end.
    rewrite Hfind in Hin. destruct (mem _ _) in Hin; [by injection Hin as <- <-|].
    rewrite claim_update_none in Hin; [by injection Hin as <- <-|].
    intros u Hu. unfold claimable. destruct (String.eqb (f_id u) (f_id t)) eqn:Hid; [|done].
    apply String.eqb_eq in Hid. assert (u = t) as ->.
    { apply (find_ticket_elem db) in Hel, Hu; [|apply Hw..]. congruence. }
    rewrite Hexp. assert ((x <=? now)%Z = false) as -> by lia.
    assert (String.eqb (claimOwner t) (sanitizeControlText (in_consumerId dto) 160) = false) as ->
      by (by apply String.eqb_neq). by destruct (mem _ _).
  - unfold updateClaimed in Hup. destruct (find_ticket (others 0 db) i) as [u|] eqn:Hu; [|done].
    destruct (negb _) eqn:Hc in Hup; [done|]. apply negb_false_iff in Hc.
    apply andb_true_iff in Hc as [[_ Hlease]%andb_true_iff Hhash].
    destruct (claimExpiresAt u) as [y|] eqn:Hy; [|done]. exists u, y.
    unfold hashMatches in Hhash. apply andb_true_iff in Hhash as [[Hpos _]%andb_true_iff Heq].
    apply bool_decide_eq_true in Heq. apply Nat.ltb_lt in Hpos. unfold tokenHash in *. rewrite Heq in Hpos.
    split_and!; [done|done|lia|done|]. intros Hnil. rewrite Hnil in Hpos. simpl in Hpos. lia.
Qed.

(** An intake that would create a ticket whose summary keeps more than 1200 characters fails with
    a database error and stores nothing, although up to 2000 are accepted: the summary is also the
    note of the creation event, whose column is narrower. *)
Theorem long_summary_refused sha256 now newId token dto db :
  find_source db (in_source dto) (sanitizeControlText (in_sourceRef dto) 200) = None →
  find_ticket db newId = None →
  sanitizeControlText (in_sourceRef dto) 200 ≠ "" → sanitizeControlText (in_consumerId dto) 160 ≠ "" →
  1200 < String.length (sanitizeControlText (nullish (in_summary dto) "") 2000) →
  ∃ db', intake sha256 alone now newId token dto db = (Throw (PrismaError "P2000"), db') ∧
    tickets db' = tickets db ∧ events db' = events db.
Proof.
  intros Hs Hi Href Hcons Hlong. unfold intake, alone.
  rewrite (proj2 (truthy_true _) Href), (proj2 (truthy_true _) Hcons). cbn [negb orb].
  unfold create_ticket. cbn [source sourceRef f_id intake_row note]. rewrite Hs, Hi. cbn [isSome orb].
  rewrite (proj2 (Nat.ltb_lt _ _) Hlong). rewrite bool_decide_eq_false_2 by done. by eexists.
Qed.

(** * Witnesses *)

Definition demo_intake (consumer : string) : IntakeFeedbackTicketDto :=
  {| in_source := FEISHU; in_sourceRef := "msg-1"; in_sourceChatRef := None; in_kind := BUG;
     in_priority := None; in_title := "it fails"; in_summary := Some "token: abcdef"; in_reporterRef := None;
     in_consumerId := consumer |}.
Definition demo_update (s : FeedbackTicketStatus) : UpdateFeedbackTicketDto :=
  {| up_status := s; up_priority := None; up_assignee := None; up_fixVersion := Some "1.2.3";
     up_verificationSteps := Some "run it"; up_note := Some "why" |}.
Definition demo_hash (s : string) : string := if String.eqb s "tok" then "ab" else "cd".
(** Before the third request reads the ticket, an administrator blocks it. *)
Definition blocking (n : nat) (db : TicketDB) : TicketDB :=
  if decide (n = 0) then (transition alone 0 "t1" (demo_update BLOCKED) "ops" 8 db).2 else db.
Definition demo_requests : list ((nat → TicketDB → TicketDB) * request) :=
  [(alone, ReqIntake 5 "t1" "tok" (demo_intake "worker-a"));
   (alone, ReqUpdateClaimed "t1" "tok" (demo_update IN_PROGRESS) 6 7);
   (blocking, ReqUpdateClaimed "t1" "tok" (demo_update WAITING_RELEASE) 9 10)].
Lemma blocking_steps n d : rtc (step demo_hash eq) d (blocking n d).
Proof.
  unfold blocking. case_decide; [|by apply rtc_refl]. apply (transition_steps demo_hash eq alone); [intros; apply rtc_refl|].
  intros e t He Ht. unfold alone in *. congruence.
Qed.

Lemma ticket_workflow_witness :
  well_formed (run_events (λ db '(others, r), handle demo_hash others r db) no_tickets demo_requests).
Proof.
  refine (proj2 (ticket_workflow demo_hash demo_requests) _). intros others r Hin.
  apply elem_of_cons in Hin as [[= -> ->]|Hin]; [split; [done|intros; apply rtc_refl]|].
  apply elem_of_cons in Hin as [[= -> ->]|Hin]; [split; [done|intros; apply rtc_refl]|].
  apply list_elem_of_singleton in Hin as [= -> ->]. split; [done|exact blocking_steps].
Defined.

(** A ticket waits for verification. One update reopens it; between its reading and its writing another one closes it.
    Both go through: the ticket is in progress with a closing time, and its timeline forks. *)
Definition closing (n : nat) (db : TicketDB) : TicketDB :=
  if decide (n = 1) then (transition alone 0 "t1" (demo_update CLOSED) "ops" 30 db).2 else db.
Definition verifying : TicketDB :=
  run_events (λ db '(others, r), handle demo_hash others r db) no_tickets
    ((alone, ReqIntake 5 "t1" "tok" (demo_intake "worker-a")) ::
     map (λ st, (alone, ReqUpdate "t1" (demo_update st) {| Guard.id := "u1"; Guard.email := "a@b"; Guard.role := Guard.SUPERADMIN;
       Guard.orgId := None; Guard.viaSharedKey := false |} 20)) [IN_PROGRESS; WAITING_RELEASE; WAITING_VERIFICATION]).
Example closed_and_reopened :
  let '(r, db) := transition closing 0 "t1" (demo_update IN_PROGRESS) "ops" 31 verifying in
  is_ok r = true ∧ (λ t, (status t, closedAt t)) <$> find_ticket db "t1" = Some (IN_PROGRESS, Some 30%Z) ∧
  map (λ e, (fromStatus e, toStatus e)) (drop 4 (events db)) =
    [(Some WAITING_VERIFICATION, Some CLOSED); (Some WAITING_VERIFICATION, Some IN_PROGRESS)].
Proof. vm_compute. by split_and!. Qed.

Definition demo_tickets : TicketDB :=
  run_events (λ db '(others, r), handle demo_hash others r db) no_tickets [(alone, ReqIntake 5 "t1" "tok" (demo_intake "worker-a"))].
Lemma and_first (A B C D : Prop) : (A ∧ B ∧ C) ∧ D → A ∧ B.
Proof. tauto. Qed.
Lemma demo_well_formed : well_formed demo_tickets.
Proof.
  apply (handle_well_formed demo_hash alone (ReqIntake 5 "t1" "tok" (demo_intake "worker-a"))); [intros; apply rtc_refl|done|].
  apply no_tickets_ok.
Qed.

Lemma claim_is_exclusive_witness : ∃ t r db' row db'',
  find_source demo_tickets FEISHU "msg-1" = Some t ∧
  intake demo_hash alone 6 "t2" "tik" (demo_intake "worker-b") demo_tickets = (Ok r, db') ∧
  updateClaimed demo_hash alone "t1" "tok" (demo_update BLOCKED) 6 7 demo_tickets = (Ok row, db'') ∧
  r_claimGranted r = false ∧ r_claimToken r = None.
Proof.
  eexists _, _, _, _, _. split; [vm_compute; reflexivity|].
  split; [vm_compute; reflexivity|]. split; [vm_compute; reflexivity|].
  eapply and_first, (claim_is_exclusive demo_hash 6 "t2" "tik" (demo_intake "worker-b") demo_tickets _
    (5 + CLAIM_LEASE_MS)%Z alone "t1" "tok" (demo_update BLOCKED) 6 7); [exact demo_well_formed|..].
  - vm_compute. reflexivity.
  - vm_compute. reflexivity.
  - vm_compute. reflexivity.
  - vm_compute. discriminate.
  - vm_compute. reflexivity.
  - vm_compute. reflexivity.
Defined.

Definition long_text : string := str (replicate 1300 "x"%char).
Definition long_intake : IntakeFeedbackTicketDto :=
  {| in_source := FEISHU; in_sourceRef := "msg-1"; in_sourceChatRef := None; in_kind := BUG;
     in_priority := None; in_title := "it fails"; in_summary := Some long_text; in_reporterRef := None;
     in_consumerId := "worker-a" |}.
Lemma long_summary_refused_witness : ∃ db',
  intake demo_hash alone 5 "t1" "tok" long_intake no_tickets = (Throw (PrismaError "P2000"), db') ∧
  tickets db' = [] ∧ events db' = [].
Proof.
  apply (long_summary_refused demo_hash 5 "t1" "tok" long_intake no_tickets).
  - vm_compute. reflexivity.
  - vm_compute. reflexivity.
  - vm_compute. discriminate.
  - vm_compute. discriminate.
  - apply Nat.ltb_lt. vm_compute. reflexivity.
Defined.
