(* ===== verification/Assets.v ===== *)
(** Shared code assets ([src/assets/]): the ingest guard, the capability names of skills, and the service that
    takes contributions, publishes them after review, promotes and deprecates them, and searches what is
    published. A request runs as in [Session]; [tick] is how the clock of the timestamps advances between two
    writes. *)
From S2P Require Import Prelude Js Table Regex AuditStore Crypto Access KeyPolicy ControlDb Session.
Local Open Scope Z_scope.

(** * The ingest guard ([src/assets/guard.ts]) *)

Definition upper_or_space (c : ascii) : bool := is_upper c || is_char " " c.
Definition SECRETS : list (rx * string) :=
  [(cats [Wordb; lit_cs "sk-"; Rep 16 (λ c, is_alnum c || is_char "_-" c); Wordb], "sk-key");
   (cats ([Wordb; lit_cs "AKIA"] ++ replicate 16 (Cls (λ c, is_digit c || is_upper c)) ++ [Wordb]), "aws-key");
   (cats [Wordb; lit_cs "ghp_"; Rep 20 is_alnum; Wordb], "github-token");
   (cats [lit_cs "-----BEGIN "; Rep 0 upper_or_space; lit_cs "PRIVATE KEY-----"; Lazy (λ _, true); lit_cs "-----END ";
          Rep 0 upper_or_space; lit_cs "PRIVATE KEY-----"], "private-key")].
Definition maybe (r : rx) : rx := Alt r Eps.
Definition INJECTION : list (rx * string) :=
  [(cats [lit "ignore "; maybe (alts [lit "all "; lit "your "]); alts [lit "previous"; lit "prior"; lit "above"]; lit " ";
          alts [lit "instructions"; Cat (lit "prompt") (Opt (ci "s"))]], "prompt-injection phrase");
   (cats [lit "disregard "; maybe (alts [lit "your "; lit "the "]);
          alts [lit "system prompt"; lit "instructions"; lit "rules"; lit "guidelines"]], "prompt-injection phrase");
   (cats [Wordb; lit "file://"; Opt (Ascii.eqb "/"); Rep 1 (λ c, negb (is_ws c))], "file:// URL")].

(** One expression after the other, on what the ones before left. *)
Definition redact_step (acc : string * list string) (p : rx * string) : string * list string :=
  let '(out, redactions) := acc in let '(r, label) := p in
  (replace_all Eps r ("<REDACTED:" +:+ label +:+ ">") out, redactions ++ replicate (count_all r out) label).
Definition redactSecrets (text : string) : string * list string := foldl redact_step (text, []) SECRETS.
Definition injection_hits (text : string) : list string := uniq (snd <$> filter (λ p, test p.1 text = true) INJECTION).
Definition scan_ok (text : string) : bool := (length (injection_hits text) =? 0)%nat.

(** * Capabilities ([src/assets/skill-capabilities.ts]) *)

Inductive AssetKind := SKILL | SNIPPET | PLAYBOOK | CONVENTION | KNOWLEDGE.
Inductive AssetScope := PERSONAL | TEAM | ORG | PUBLIC.
Inductive AssetLifecycle := DRAFT | IN_REVIEW | PUBLISHED | DEPRECATED.
Inductive AssetOrigin := AUTHORED | PROMOTED | IMPORTED.
#[export] Instance AssetKind_eq_dec : EqDecision AssetKind.
Proof. solve_decision. Defined.
#[export] Instance AssetScope_eq_dec : EqDecision AssetScope.
Proof. solve_decision. Defined.
#[export] Instance AssetLifecycle_eq_dec : EqDecision AssetLifecycle.
Proof. solve_decision. Defined.
Definition kind_str (k : AssetKind) : string :=
  match k with SKILL => "SKILL" | SNIPPET => "SNIPPET" | PLAYBOOK => "PLAYBOOK" | CONVENTION => "CONVENTION" | KNOWLEDGE => "KNOWLEDGE" end.
Definition scope_str (s : AssetScope) : string :=
  match s with PERSONAL => "PERSONAL" | TEAM => "TEAM" | ORG => "ORG" | PUBLIC => "PUBLIC" end.
Definition lifecycle_str (l : AssetLifecycle) : string :=
  match l with DRAFT => "DRAFT" | IN_REVIEW => "IN_REVIEW" | PUBLISHED => "PUBLISHED" | DEPRECATED => "DEPRECATED" end.

Definition MAX_SKILL_CAPABILITIES : nat := 64.
Definition MAX_SKILL_CAPABILITY_LENGTH : nat := 160.
(** [/^[a-z][a-z0-9]*(?:[._:-][a-z0-9]+)*$/]: [inside]: the last character belongs to a name. *)
Definition name_char (c : ascii) : bool := is_lower c || is_digit c.
Fixpoint capability_tail (inside : bool) (l : list ascii) : bool :=
  match l with
  | [] => inside
  | c :: l' => if name_char c then capability_tail true l' else inside && is_char "._:-" c && capability_tail false l'
  end.
Definition is_capability (s : string) : bool :=
  match chars s with c :: l => is_lower c && capability_tail true l | [] => false end.

Definition assertAssetLifecycleState (actual expected : AssetLifecycle) (operation : string) : res unit :=
  throw_if (negb (bool_decide (actual = expected)))
    (BadRequestException (operation +:+ " requires " +:+ lifecycle_str expected +:+ ", received " +:+ lifecycle_str actual)).
Definition normalizeCapabilityNames (values : list string) (label : string) : res (list string) :=
  _ ← throw_if (MAX_SKILL_CAPABILITIES <? length values)%nat
        (BadRequestException (label +:+ " may contain at most 64 capabilities"));
  _ ← throw_if (existsb (λ v, (MAX_SKILL_CAPABILITY_LENGTH <? String.length v)%nat || negb (is_capability v)) values)
        (BadRequestException (label +:+ " must use exact lowercase capability names without wildcards"));
  Ok (sort_str (uniq values)).
Definition normalizeRequiredCapabilities (kind : AssetKind) (values : list string) : res (list string) :=
  normalized ← normalizeCapabilityNames values "requiredCapabilities";
  _ ← throw_if (negb (bool_decide (kind = SKILL)) && (0 <? length normalized)%nat)
        (BadRequestException "Only SKILL assets may declare execution capabilities");
  Ok normalized.
Definition normalizeGrantedCapabilities (kind : AssetKind) (requiredValues grantedValues : list string) : res (list string) :=
  required ← normalizeRequiredCapabilities kind requiredValues;
  granted ← normalizeCapabilityNames grantedValues "grantedCapabilities";
  _ ← throw_if (negb (bool_decide (kind = SKILL)) && (0 <? length granted)%nat)
        (BadRequestException "Only SKILL assets may receive execution capabilities");
  _ ← throw_if (negb (forallb (λ c, mem c required) granted))
        (BadRequestException "A reviewed skill may only receive capabilities it declared");
  Ok granted.
Definition assertSkillCapabilitiesGranted (requiredValues grantedValues requestedValues : list string) : res (list string) :=
  required ← normalizeCapabilityNames requiredValues "requiredCapabilities";
  granted ← normalizeCapabilityNames grantedValues "grantedCapabilities";
  requested ← normalizeCapabilityNames requestedValues "requestedCapabilities";
  match list_find (λ c, negb (mem c required) || negb (mem c granted) = true) requested with
  | Some (_, c) => Throw (ForbiddenException ("Skill capability is not approved: " +:+ c))
  | None => Ok requested
  end.

(** * The tables *)

Record Asset := {
  as_id : string; as_org : string; as_team : option string; as_owner : option string; as_scope : AssetScope;
  as_kind : AssetKind; lifecycle : AssetLifecycle; as_origin : AssetOrigin; slug : string; as_title : string;
  as_summary : option string; as_lang : option string; as_tags : list string; promotedFrom : option string;
  supersededBy : option string; searchText : string; as_updatedAt : Z }.
Record AssetVersion := {
  ve_id : string; ve_asset : string; ve_body : string; ve_hash : string; ve_redactions : list string;
  ve_device : option string; ve_required : list string; ve_granted : list string; ve_reviewedAt : option Z;
  ve_createdAt : Z; ve_embedding : option (string * list Q) }.
(** [ctl] holds the devices, their tokens and the audit trail; [wall] is the time of the last write. *)
Record AssetDB := { ctl : ControlDB; assets : list Asset; versions : list AssetVersion; wall : Z }.
#[export] Instance asset_audit : AuditStore AssetDB := {
  trail d := trail (ctl d);
  record_event ev d := {| ctl := record_event ev (ctl d); assets := assets d; versions := versions d; wall := wall d |};
  trail_record ev d := trail_record ev (ctl d) }.

Definition find_asset (i : string) (d : AssetDB) : option Asset := find_by as_id i (assets d).
(** [versions: { orderBy: { createdAt: "desc" } }]; versions of the same instant keep their order. *)
Definition versions_of (i : string) (d : AssetDB) : list AssetVersion :=
  sort_by (λ v, - ve_createdAt v) (filter (λ v, ve_asset v = i) (versions d)).
Definition latest (i : string) (d : AssetDB) : option AssetVersion := head (versions_of i d).

Definition with_lifecycle (l : AssetLifecycle) (search : option string) (superseded : option (option string)) (t : Z) (a : Asset) : Asset :=
  {| as_id := as_id a; as_org := as_org a; as_team := as_team a; as_owner := as_owner a; as_scope := as_scope a;
     as_kind := as_kind a; lifecycle := l; as_origin := as_origin a; slug := slug a; as_title := as_title a;
     as_summary := as_summary a; as_lang := as_lang a; as_tags := as_tags a; promotedFrom := promotedFrom a;
     supersededBy := nullish superseded (supersededBy a); searchText := nullish search (searchText a); as_updatedAt := t |}.
Definition resubmitted (title : string) (summary lang : option string) (tags : list string) (t : Z) (a : Asset) : Asset :=
  {| as_id := as_id a; as_org := as_org a; as_team := as_team a; as_owner := as_owner a; as_scope := as_scope a;
     as_kind := as_kind a; lifecycle := IN_REVIEW; as_origin := as_origin a; slug := slug a; as_title := title;
     as_summary := summary; as_lang := lang; as_tags := tags; promotedFrom := promotedFrom a;
     supersededBy := supersededBy a; searchText := searchText a; as_updatedAt := t |}.
Definition reviewed (granted : list string) (t : Z) (v : AssetVersion) : AssetVersion :=
  {| ve_id := ve_id v; ve_asset := ve_asset v; ve_body := ve_body v; ve_hash := ve_hash v; ve_redactions := ve_redactions v;
     ve_device := ve_device v; ve_required := ve_required v; ve_granted := granted; ve_reviewedAt := Some t;
     ve_createdAt := ve_createdAt v; ve_embedding := ve_embedding v |}.
Definition embedded (e : option (string * list Q)) (v : AssetVersion) : AssetVersion :=
  {| ve_id := ve_id v; ve_asset := ve_asset v; ve_body := ve_body v; ve_hash := ve_hash v; ve_redactions := ve_redactions v;
     ve_device := ve_device v; ve_required := ve_required v; ve_granted := ve_granted v; ve_reviewedAt := ve_reviewedAt v;
     ve_createdAt := ve_createdAt v; ve_embedding := e |}.

Record ContributeInput := {
  ci_kind : AssetKind; ci_scope : AssetScope; ci_teamId : option string; ci_slug : string; ci_title : option string;
  ci_summary : option string; ci_lang : option string; ci_tags : option (list string);
  ci_requiredCapabilities : option (list string); ci_body : string }.
Record ContributeResult := { asset_id : string; version_id : string; state : AssetLifecycle; cr_redactions : list string }.
Record ManifestRow := {
  mr_id : string; mr_kind : AssetKind; mr_scope : AssetScope; mr_slug : string; mr_team_id : option string;
  mr_content_hash : string; mr_updated_at : Z; mr_required : list string; mr_granted : list string }.
Record AssetView := {
  av_id : string; av_kind : AssetKind; av_scope : AssetScope; av_slug : string; av_body : string; av_content_hash : string;
  av_required : list string; av_granted : list string }.
Record SearchHit := { sh_asset : Asset; sh_score : Q }.

(** * The service *)

Section service.
Context (sha256 : string → string) (tick : Z → Z).
(** The embedder when one is configured, with its model; the nearest published versions of the vector index. *)
Context (embedder : option (string * (string → res (option (list Q))))) (nearest : AssetDB → string → string → list Q → res (list string)).
Context (e : env) (licence : option License.LicenseClaims).
Context (others : nat → AssetDB → AssetDB) (fails : nat → option exn).
Local Abbreviation State := (Session AssetDB).

(** The state with the next timestamp; the writes of one call share it. *)
Definition stamp (d : AssetDB) : AssetDB := {| ctl := ctl d; assets := assets d; versions := versions d; wall := tick (wall d) |}.
Definition on_assets (f : list Asset → list Asset) (d : AssetDB) : AssetDB :=
  {| ctl := ctl d; assets := f (assets d); versions := versions d; wall := wall d |}.
Definition on_versions (f : list AssetVersion → list AssetVersion) (d : AssetDB) : AssetDB :=
  {| ctl := ctl d; assets := assets d; versions := f (versions d); wall := wall d |}.
Definition entitled (nowSec : Z) : M State unit := lift (License.assert_feature e licence nowSec "code-assets").
Definition log (org action actorType actor : string) (p : payload_arg) : M State unit :=
  call others fails (audit_log org action actorType actor p).
(** [include: { device: true }] *)
Definition deviceFromBearer (bearer : option string) (now : Z) : M State Device :=
  _ ← guard_throw (absent bearer) (UnauthorizedException "missing token");
  dt ← call others fails (gets (λ d, k ← find_by k_hash (sha256 (nullish bearer "")) (tokens (ctl d));
                                     (λ v, (k, v)) <$> find_device (ctl d) (k_device k)));
  _ ← lift (Token.assertTokenUsable ((λ kv, {| Token.revokedAt := k_revokedAt kv.1; Token.expiresAt := k_expiresAt kv.1 |}) <$> dt) now e None);
  v ← require dt (Error "unreachable");
  mret v.2.
Definition searchTextFor (title : string) (summary : option string) (tags : list string) (lang : option string) (body : string) : string :=
  toLowerCase (join (str [ascii_of_nat 10]) [title; nullish summary ""; join " " tags; nullish lang ""; body]).

(** ** Contribution *)

Definition same_slot (org : string) (i : ContributeInput) (a : Asset) : bool :=
  String.eqb (as_org a) org && bool_decide (as_scope a = ci_scope i) && bool_decide (as_team a = ci_teamId i)
  && bool_decide (as_kind a = ci_kind i) && String.eqb (slug a) (ci_slug i).
(** The unique key of the table: rows without a team are all different. *)
Definition create_asset (a : Asset) : M AssetDB Asset := λ d,
  if isSome (find_asset (as_id a) d) || existsb (λ b, isSome (as_team a) && String.eqb (as_org a) (as_org b)
      && bool_decide (as_scope a = as_scope b) && bool_decide (as_team a = as_team b) && bool_decide (as_kind a = as_kind b)
      && String.eqb (slug a) (slug b)) (assets d)
  then (Throw (PrismaError "P2002"), d) else (Ok a, on_assets (λ l, l ++ [a]) d).
Definition create_version (v : AssetVersion) : M AssetDB AssetVersion := λ d,
  if isSome (find_by ve_id (ve_id v) (versions d)) then (Throw (PrismaError "P2002"), d)
  else (Ok v, on_versions (λ l, l ++ [v]) d).
Definition new_version (vi asset body : string) (redactions required : list string) (device : option string) (t : Z) : AssetVersion :=
  {| ve_id := vi; ve_asset := asset; ve_body := body; ve_hash := sha256 body; ve_redactions := redactions; ve_device := device;
     ve_required := required; ve_granted := []; ve_reviewedAt := None; ve_createdAt := t; ve_embedding := None |}.
(** The transaction reads the slot without a lock; its writes are committed together. *)
Definition find_slot (org : string) (i : ContributeInput) (d : AssetDB) : option Asset :=
  snd <$> list_find (λ a, same_slot org i a = true) (assets d).
Definition contribute_rows (ai vi : string) (v : Device) (i : ContributeInput) (existing : option Asset) (title body : string)
    (tags redactions required : list string) : M AssetDB (Asset * AssetVersion) :=
  transaction (
    _ ← modify stamp;
    t ← gets wall;
    nextAsset ← match existing with
      | Some a =>
          row ← gets (find_asset (as_id a));
          current ← require row (PrismaError "P2025");
          _ ← modify (on_assets (update_by as_id (as_id a) (resubmitted title (ci_summary i) (ci_lang i) tags t)));
          mret (resubmitted title (ci_summary i) (ci_lang i) tags t current)
      | None =>
          create_asset {| as_id := ai; as_org := v_org v; as_team := ci_teamId i; as_owner := Some (v_id v); as_scope := ci_scope i;
            as_kind := ci_kind i; lifecycle := IN_REVIEW; as_origin := AUTHORED; slug := ci_slug i; as_title := title;
            as_summary := ci_summary i; as_lang := ci_lang i; as_tags := tags; promotedFrom := None; supersededBy := None;
            searchText := ""; as_updatedAt := t |}
      end;
    nextVersion ← create_version (new_version vi (as_id nextAsset) body redactions required (Some (v_id v)) t);
    mret (nextAsset, nextVersion)).
Definition strs (l : list string) : option json := Some (JArr (map JStr l)).
(** [ai], [vi]: the drawn identifiers. *)
Definition contribute (ai vi : string) (bearer : option string) (i : ContributeInput) (now : Z) : M State ContributeResult :=
  _ ← entitled (now / 1000);
  device ← deviceFromBearer bearer now;
  _ ← guard_throw (negb (scan_ok (ci_body i)))
        (BadRequestException ("blocked (cannot redact): " +:+ join ", " (injection_hits (ci_body i))));
  let '(body, redactions) := redactSecrets (ci_body i) in
  required ← lift (normalizeRequiredCapabilities (ci_kind i) (nullish (ci_requiredCapabilities i) []));
  existing ← call others fails (gets (find_slot (v_org device) i));
  av ← call others fails (contribute_rows ai vi device i existing (nullish (ci_title i) (ci_slug i)) body (nullish (ci_tags i) []) redactions required);
  _ ← log (v_org device) "asset.contribute" "device" (v_id device)
        [("assetId", some_str (as_id av.1)); ("scope", some_str (scope_str (ci_scope i))); ("kind", some_str (kind_str (ci_kind i)));
         ("slug", some_str (ci_slug i)); ("redactions", strs redactions); ("requiredCapabilities", strs required)];
  mret {| asset_id := as_id av.1; version_id := ve_id av.2; state := lifecycle av.1; cr_redactions := redactions |}.

(** ** Reading what is published *)

Definition published (org : string) (a : Asset) : bool := String.eqb (as_org a) org && bool_decide (lifecycle a = PUBLISHED).
Definition manifest (bearer : option string) (scope : option AssetScope) (kind : option AssetKind) (since : option Z) (now : Z)
    : M State (list ManifestRow) :=
  device ← deviceFromBearer bearer now;
  call others fails (gets (λ d, map (λ a,
      let v := latest (as_id a) d in
      {| mr_id := as_id a; mr_kind := as_kind a; mr_scope := as_scope a; mr_slug := slug a; mr_team_id := as_team a;
         mr_content_hash := nullish (ve_hash <$> v) ""; mr_updated_at := as_updatedAt a;
         mr_required := nullish (ve_required <$> v) []; mr_granted := nullish (ve_granted <$> v) [] |})
    (sort_by (λ a, - as_updatedAt a) (filter (λ a,
       published (v_org device) a && match scope with Some s => bool_decide (as_scope a = s) | None => true end
       && match kind with Some k => bool_decide (as_kind a = k) | None => true end
       && match since with Some t => t <? as_updatedAt a | None => true end = true) (assets d))))).
Definition getAsset (bearer : option string) (i : string) (now : Z) : M State AssetView :=
  device ← deviceFromBearer bearer now;
  found ← call others fails (gets (λ d,
    a ← find_asset i d; if published (v_org device) a then (λ v, (a, v)) <$> latest i d else None));
  av ← require found (NotFoundException "asset not found or not published");
  mret {| av_id := as_id av.1; av_kind := as_kind av.1; av_scope := as_scope av.1; av_slug := slug av.1; av_body := ve_body av.2;
          av_content_hash := ve_hash av.2; av_required := ve_required av.2; av_granted := ve_granted av.2 |}.

(** ** Search *)

Definition SCOPE_TIER (s : AssetScope) : Z := match s with PERSONAL => 3 | TEAM => 2 | ORG => 2 | PUBLIC => 1 end.
(** [text.toLowerCase().split(/\s+/).filter(Boolean)] *)
Definition search_words (query : string) : list string :=
  filter (λ w, truthy w = true) (split " " (str (map (λ c, if is_ws c then " "%char else c) (chars (toLowerCase query))))).
Fixpoint infix_of (p s : list ascii) : bool :=
  bool_decide (p `prefix_of` s) || match s with [] => false | _ :: s' => infix_of p s' end.
Definition word_score (words : list string) (a : Asset) : nat :=
  length (filter (λ w, infix_of (chars w) (chars (searchText a)) = true) words).
Definition lexical (words : list string) (l : list Asset) : list string :=
  as_id <$> stable_sort (λ a b, (word_score words b <? word_score words a)%nat
      || ((word_score words a =? word_score words b)%nat && (String.length (slug a) <? String.length (slug b))%nat))
    (filter (λ a, (0 <? word_score words a)%nat = true) l).
(** [fused.set(id, (fused.get(id) ?? 0) + 1 / (60 + i))] *)
Definition fuse (m : list (string * Q)) (ids : list string) : list (string * Q) :=
  foldl (λ m '(i, id), obj_set id (nullish (assoc id m) 0 + 1 / inject_Z (60 + Z.of_nat i))%Q m) m (imap pair ids).
Definition weighted (candidates : list Asset) (p : string * Q) : list SearchHit :=
  match find_by as_id p.1 candidates with
  | Some a => [{| sh_asset := a; sh_score := p.2 * inject_Z (SCOPE_TIER (as_scope a)) |}]%Q
  | None => []
  end.
Definition rank (candidates : list Asset) (ids1 ids2 : list string) (limit : nat) : list SearchHit :=
  take limit (stable_sort (λ x y, num_ltb (Num (sh_score y)) (Num (sh_score x)))
    (concat (map (weighted candidates) (fuse (fuse [] ids1) ids2)))).
Definition vector_ranked (query org : string) (candidates : list Asset) : M State (list string) :=
  match embedder with
  | None => mret []
  | Some (model, embedOne) =>
      try_catch
        (qvec ← lift (embedOne query);
         match qvec with
         | Some v =>
             found ← call others fails (gets (λ d, nearest d org model v));
             l ← lift found;
             mret (filter (λ id, isSome (find_by as_id id candidates) = true) l)
         | None => mret []
         end)
        (λ _, mret [])
  end.
Definition search (bearer : option string) (query : string) (kind : option AssetKind) (limit : option nat) (now : Z)
    : M State (list SearchHit) :=
  device ← deviceFromBearer bearer now;
  candidates ← call others fails (gets (λ d, take 500 (filter (λ a,
    published (v_org device) a && match kind with Some k => bool_decide (as_kind a = k) | None => true end = true) (assets d))));
  vec ← vector_ranked query (v_org device) candidates;
  mret (rank candidates (lexical (search_words query) candidates) vec (nullish limit 10%nat)).

(** ** Review, promotion, deprecation *)

Definition embedOnPublish (vi haystack : string) : M State unit :=
  match embedder with
  | None => mret tt
  | Some (model, embedOne) =>
      ignore_error
        (vec ← lift (embedOne haystack);
         match vec with
         | Some v => call others fails (modify (on_versions (update_by ve_id vi (embedded (Some (model, v))))))
         | None => mret tt
         end)
  end.
(** [updateMany] of an asset as it was read: its lifecycle and timestamp are compared. *)
Definition locked_update (i : string) (from : AssetLifecycle) (u : Z) (f : Z → Asset → Asset) : M AssetDB nat := λ d,
  let hit a := String.eqb (as_id a) i && bool_decide (lifecycle a = from) && (as_updatedAt a =? u) in
  let d := stamp d in
  (Ok (length (filter (λ a, hit a = true) (assets d))), on_assets (map (λ a, if hit a then f (wall d) a else a)) d).
Definition review_version (i vi : string) (granted : list string) : M AssetDB nat := λ d,
  let hit v := String.eqb (ve_id v) vi && String.eqb (ve_asset v) i && negb (isSome (ve_reviewedAt v)) in
  (Ok (length (filter (λ v, hit v = true) (versions d))), on_versions (map (λ v, if hit v then reviewed granted (wall d) v else v)) d).
Definition changed_during (what : string) : exn :=
  ConflictException ("The asset changed during " +:+ what +:+ "; reload the latest version").
Definition publish (a : Asset) (v : AssetVersion) (granted : list string) (haystack : string) : M AssetDB unit :=
  transaction (
    n ← locked_update (as_id a) IN_REVIEW (as_updatedAt a) (λ t, with_lifecycle PUBLISHED (Some haystack) None t);
    m ← review_version (as_id a) (ve_id v) granted;
    guard_throw (negb (n =? 1)%nat || negb (m =? 1)%nat) (changed_during "review")).
(** The checks on the version under review; the normalized grant. *)
Definition publishable (a : Asset) (v : AssetVersion) (grantedCapabilities : list string) : res (list string) :=
  approved ← normalizeGrantedCapabilities (as_kind a) (ve_required v) grantedCapabilities;
  _ ← throw_if (negb (scan_ok (ve_body v)))
        (BadRequestException ("blocked on publish: " +:+ join ", " (injection_hits (ve_body v))));
  _ ← throw_if (0 <? length (redactSecrets (ve_body v)).2)%nat
        (BadRequestException "blocked on publish: asset version contains secret-shaped content and must be resubmitted");
  Ok approved.
Definition review (i : string) (approve : bool) (grantedCapabilities : list string) (nowSec : Z) : M State AssetLifecycle :=
  _ ← entitled nowSec;
  found ← call others fails (gets (λ d, (λ a, (a, latest i d)) <$> find_asset i d));
  av ← require found (NotFoundException "asset not found");
  let a := av.1 in
  _ ← lift (assertAssetLifecycleState (lifecycle a) IN_REVIEW "Asset review");
  if approve then
    v ← require av.2 (NotFoundException "asset version not found");
    granted ← lift (publishable a v grantedCapabilities);
    let haystack := searchTextFor (as_title a) (as_summary a) (as_tags a) (as_lang a) (ve_body v) in
    _ ← call others fails (publish a v granted haystack);
    _ ← embedOnPublish (ve_id v) haystack;
    _ ← log (as_org a) "asset.review" "admin" i
          [("decision", some_str "approve"); ("versionId", some_str (ve_id v)); ("grantedCapabilities", strs granted)];
    mret PUBLISHED
  else
    n ← call others fails (locked_update i IN_REVIEW (as_updatedAt a) (λ t, with_lifecycle DRAFT None None t));
    _ ← guard_throw (negb (n =? 1)%nat) (changed_during "review");
    _ ← log (as_org a) "asset.review" "admin" i [("decision", some_str "reject")];
    mret DRAFT.

Definition promoted_asset (ai : string) (src : Asset) (toScope : AssetScope) (toTeamId : option string) (t : Z) : Asset :=
  {| as_id := ai; as_org := as_org src; as_team := toTeamId; as_owner := None; as_scope := toScope; as_kind := as_kind src;
     lifecycle := IN_REVIEW; as_origin := PROMOTED; slug := slug src; as_title := as_title src; as_summary := None;
     as_lang := as_lang src; as_tags := as_tags src; promotedFrom := Some (as_id src); supersededBy := None; searchText := "";
     as_updatedAt := t |}.
Definition create_promoted (ai : string) (src : Asset) (toScope : AssetScope) (toTeamId : option string) : M AssetDB Asset :=
  transaction (_ ← modify stamp; t ← gets wall; create_asset (promoted_asset ai src toScope toTeamId t)).
Definition store_version (vi asset body : string) (redactions required : list string) : M AssetDB AssetVersion :=
  transaction (_ ← modify stamp; t ← gets wall; create_version (new_version vi asset body redactions required None t)).
Definition promote (ai vi i : string) (toScope : AssetScope) (toTeamId : option string) (nowSec : Z) : M State string :=
  _ ← entitled nowSec;
  found ← call others fails (gets (λ d, a ← find_asset i d; (λ v, (a, v)) <$> latest i d));
  av ← require found (NotFoundException "asset/version not found");
  let '(src, v) := av in
  _ ← lift (assertAssetLifecycleState (lifecycle src) PUBLISHED "Asset promotion");
  _ ← guard_throw (negb (scan_ok (ve_body v))) (BadRequestException ("blocked on promote: " +:+ join ", " (injection_hits (ve_body v))));
  let '(redacted, redactions) := redactSecrets (ve_body v) in
  promoted ← call others fails (create_promoted ai src toScope toTeamId);
  _ ← call others fails (store_version vi (as_id promoted) redacted redactions (ve_required v));
  _ ← log (as_org src) "asset.promote" "admin" (as_id promoted)
        [("from", some_str i); ("fromScope", some_str (scope_str (as_scope src))); ("toScope", some_str (scope_str toScope))];
  mret (as_id promoted).
Definition deprecate (i : string) (supersededById : option string) (nowSec : Z) : M State AssetLifecycle :=
  _ ← entitled nowSec;
  found ← call others fails (gets (find_asset i));
  current ← require found (NotFoundException "asset not found");
  _ ← lift (assertAssetLifecycleState (lifecycle current) PUBLISHED "Asset deprecation");
  n ← call others fails (locked_update i PUBLISHED (as_updatedAt current) (λ t, with_lifecycle DEPRECATED None (Some supersededById) t));
  _ ← guard_throw (negb (n =? 1)%nat) (changed_during "deprecation");
  _ ← log (as_org current) "asset.deprecate" "admin" i [("supersededById", opt_str supersededById)];
  mret DEPRECATED.
End service.

(** * The invariant of the tables *)

(** What the reviewed version of a published asset satisfies. *)
Definition reviewed_ok (k : AssetKind) (v : AssetVersion) : Prop :=
  is_Some (ve_reviewedAt v) ∧ ve_granted v ⊆ ve_required v ∧ (k ≠ SKILL → ve_granted v = []) ∧
  scan_ok (ve_body v) = true ∧ (redactSecrets (ve_body v)).2 = [].
Definition published_ok (d : AssetDB) (a : Asset) : Prop :=
  lifecycle a = PUBLISHED → ∃ v, latest (as_id a) d = Some v ∧ reviewed_ok (as_kind a) v.
Record assets_ok (d : AssetDB) : Prop := {
  asset_ids : NoDup (map as_id (assets d));
  version_ids : NoDup (map ve_id (versions d));
  asset_times : Forall (λ a, as_updatedAt a ≤ wall d) (assets d);
  version_times : Forall (λ v, ve_createdAt v ≤ wall d) (versions d);
  published_reviewed : Forall (published_ok d) (assets d) }.

(** How requests may change the tables: no asset disappears or changes its kind, and one whose timestamp is the
    same has the same latest content. *)
Definition content (v : AssetVersion) : string * string * list string := (ve_id v, ve_body v, ve_required v).
Definition advances (d d' : AssetDB) : Prop :=
  wall d ≤ wall d' ∧ ∀ i a, find_asset i d = Some a → ∃ a', find_asset i d' = Some a' ∧
    as_updatedAt a ≤ as_updatedAt a' ∧ as_kind a' = as_kind a ∧
    (as_updatedAt a' = as_updatedAt a → content <$> latest i d' = content <$> latest i d).

Lemma advances_refl d : advances d d.
Proof. split; [lia|]. intros i a Ha. exists a. split; [done|]. split; [lia|]. done. Qed.
Lemma advances_trans d1 d2 d3 : advances d1 d2 → advances d2 d3 → advances d1 d3.
Proof.
  intros [Hw Ha] [Hw' Ha']. split; [lia|]. intros i a (a2 & H2 & Hu & Hk & Hc)%Ha.
  apply Ha' in H2 as (a3 & H3 & Hu' & Hk' & Hc'). exists a3. split; [done|]. split; [lia|]. split; [congruence|].
  intros E. rewrite Hc', Hc; [done|lia|lia].
Qed.
#[export] Instance advances_preorder : PreOrder advances.
Proof. split; [exact advances_refl|exact advances_trans]. Qed.

Lemma sort_by_map {A} (key : A → Z) f l : (∀ x, key (f x) = key x) → sort_by key (map f l) = map f (sort_by key l).
Proof.
  intros Hk. induction l as [|x l IH] using rev_ind; [done|].
  rewrite map_app. simpl. rewrite !sort_by_snoc, IH. clear IH. induction (sort_by key l) as [|y k IHk]; [done|]. simpl.
  rewrite !Hk. destruct (_ <? _); simpl; [done|]. by rewrite IHk.
Qed.
Lemma sort_by_first {A} (key : A → Z) x l : Forall (λ y, key x < key y) l → sort_by key (l ++ [x]) = x :: sort_by key l.
Proof.
  intros Hl. rewrite sort_by_snoc. assert (Hs : Forall (λ y, key x < key y) (sort_by key l)) by by rewrite sort_by_perm.
  destruct Hs as [|y k Hy Hk]; [done|]. simpl. by rewrite (proj2 (Z.ltb_lt _ _) Hy).
Qed.
Lemma head_map {A B} (f : A → B) l : head (map f l) = f <$> head l.
Proof. by destruct l. Qed.

(** Updates of versions that keep the asset and the time. *)
Definition keeps_place (f : AssetVersion → AssetVersion) : Prop :=
  ∀ v, ve_id (f v) = ve_id v ∧ ve_asset (f v) = ve_asset v ∧ ve_createdAt (f v) = ve_createdAt v.
Lemma latest_map f i d : keeps_place f → latest i (on_versions (map f) d) = f <$> latest i d.
Proof.
  intros Hf. unfold latest, versions_of, on_versions. simpl. rewrite <- head_map, <- sort_by_map by (intros; by destruct (Hf x) as (_ & _ & ->)).
  f_equal. f_equal. induction (versions d) as [|v l IH]; [done|]. simpl. rewrite !filter_cons, IH.
  destruct (Hf v) as (_ & -> & _). by case_decide.
Qed.
Lemma latest_new v d : Forall (λ w, ve_createdAt w < ve_createdAt v) (versions d) →
  latest (ve_asset v) (on_versions (λ l, l ++ [v]) d) = Some v.
Proof.
  intros Hl. unfold latest, versions_of, on_versions. simpl. rewrite filter_app, filter_cons, filter_nil, decide_True by done.
  rewrite sort_by_first; [done|]. apply Forall_forall. intros w [_ Hw]%list_elem_of_filter. rewrite Forall_forall in Hl.
  specialize (Hl w Hw). lia.
Qed.
Lemma latest_other v i d : ve_asset v ≠ i → latest i (on_versions (λ l, l ++ [v]) d) = latest i d.
Proof.
  intros Hv. unfold latest, versions_of, on_versions. simpl. rewrite filter_app, filter_cons, filter_nil, decide_False by done.
  by rewrite app_nil_r.
Qed.
Lemma latest_elem i d v : latest i d = Some v → v ∈ versions d ∧ ve_asset v = i.
Proof.
  unfold latest, versions_of. intros Hv%head_Some_elem_of. rewrite sort_by_perm in Hv. by apply list_elem_of_filter in Hv as [].
Qed.
Lemma latest_on_assets i f d : latest i (on_assets f d) = latest i d.
Proof. reflexivity. Qed.

Local Abbreviation sound_write := (Session.sound_write assets_ok advances).

Section writes.
Context (sha256 : string → string) (tick : Z → Z) (Htick : ∀ t, t < tick t).
Local Abbreviation stamp := (stamp tick).

Lemma stamp_ok d : assets_ok d → assets_ok (stamp d) ∧ advances d (stamp d) ∧
  Forall (λ a, as_updatedAt a < wall (stamp d)) (assets (stamp d)) ∧
  Forall (λ v, ve_createdAt v < wall (stamp d)) (versions (stamp d)).
Proof.
  intros [Ha Hv Hat Hvt Hp]. specialize (Htick (wall d)). split_and!.
  - split; simpl; [done|done| | |done].
    + eapply Forall_impl; [exact Hat|]. simpl. lia.
    + eapply Forall_impl; [exact Hvt|]. simpl. lia.
  - split; [simpl; lia|]. exact (proj2 (advances_refl d)).
  - eapply Forall_impl; [exact Hat|]. simpl. lia.
  - eapply Forall_impl; [exact Hvt|]. simpl. lia.
Qed.

(** Rows changed in place. *)
Lemma change_ok (f : Asset → Asset) (g : AssetVersion → AssetVersion) d :
  (∀ a, as_id (f a) = as_id a ∧ as_kind (f a) = as_kind a) → keeps_place g →
  (∀ a, a ∈ assets d → as_updatedAt a ≤ as_updatedAt (f a) ≤ wall d) →
  (∀ a, a ∈ assets d → lifecycle (f a) = PUBLISHED → ∃ v, latest (as_id a) d = Some v ∧ reviewed_ok (as_kind a) (g v)) →
  (∀ a, a ∈ assets d → as_updatedAt (f a) = as_updatedAt a →
     content <$> (g <$> latest (as_id a) d) = content <$> latest (as_id a) d) →
  assets_ok d → assets_ok (on_versions (map g) (on_assets (map f) d)) ∧ advances d (on_versions (map g) (on_assets (map f) d)).
Proof.
  intros Hf Hg Hu Hp Hc [Ha Hv Hat Hvt _]. split; [split|split]; simpl; [| | | | |lia|].
  - rewrite map_map. erewrite map_ext; [exact Ha|]. intros a. apply Hf.
  - rewrite map_map. erewrite map_ext; [exact Hv|]. intros v. apply Hg.
  - apply Forall_forall. intros a' (a & -> & Hin)%list_elem_of_fmap. by apply Hu.
  - apply Forall_map. eapply Forall_impl; [exact Hvt|]. intros v. simpl. by destruct (Hg v) as (_ & _ & ->).
  - apply Forall_forall. intros a' (a & -> & Hin)%list_elem_of_fmap Hl. destruct (Hf a) as [-> ->].
    rewrite latest_map by done. rewrite latest_on_assets.
    destruct (Hp a Hin Hl) as (v & -> & Hok). by exists (g v).
  - intros i a Hi. unfold find_asset in *. simpl. rewrite find_by_map by apply Hf. rewrite Hi. exists (f a).
    apply find_by_Some in Hi as [<- Hin]. split; [done|]. split; [by apply Hu|]. split; [apply Hf|]. intros E.
    rewrite latest_map by done. rewrite latest_on_assets. by apply Hc.
Qed.

(** A version appended to an asset that is not published. *)
Lemma append_version_ok v d :
  ve_id v ∉ map ve_id (versions d) → ve_createdAt v = wall d → Forall (λ w, ve_createdAt w < wall d) (versions d) →
  (∀ a, a ∈ assets d → as_id a = ve_asset v → lifecycle a ≠ PUBLISHED) →
  assets_ok d → assets_ok (on_versions (λ l, l ++ [v]) d).
Proof.
  intros Hid Ht Hlt Hnp [Ha Hv Hat Hvt Hp]. split; simpl; [done| |done| |].
  - rewrite map_app. simpl. apply NoDup_app. split; [done|]. split; [|apply NoDup_singleton]. set_solver.
  - apply Forall_snoc_intro; [done|lia].
  - apply Forall_forall. intros a Hin Hl. rewrite latest_other by (intros E; by apply (Hnp a)).
    rewrite Forall_forall in Hp. by apply Hp.
Qed.
Lemma append_version_advances d0 v d : advances d0 d →
  (∀ a a', find_asset (ve_asset v) d0 = Some a → find_asset (ve_asset v) d = Some a' → as_updatedAt a < as_updatedAt a') →
  advances d0 (on_versions (λ l, l ++ [v]) d).
Proof.
  intros [Hw Ha] Hlt. split; [done|]. intros i a Hi. destruct (Ha i a Hi) as (a' & Hi' & Hu & Hk & Hc).
  exists a'. split; [done|]. split; [done|]. split; [done|]. intros E. destruct (decide (ve_asset v = i)) as [<-|Hne].
  - specialize (Hlt a a' Hi Hi'). lia.
  - rewrite latest_other by done. by apply Hc.
Qed.

Lemma locked_update_sound i from u f :
  (∀ t a, as_id (f t a) = as_id a ∧ as_kind (f t a) = as_kind a ∧ as_updatedAt (f t a) = t ∧ lifecycle (f t a) ≠ PUBLISHED) →
  sound_write (locked_update tick i from u f).
Proof.
  intros Hf d Hd. destruct (stamp_ok d Hd) as (Hd1 & Hadv & Hlt & _). unfold locked_update. cbv zeta. cbn [snd].
  rewrite Forall_forall in Hlt. pose proof (published_reviewed _ Hd1) as Hp.
  match goal with |- context [on_assets (map ?g)] => set (h := g) end.
  assert (assets_ok (on_versions (map id) (on_assets (map h) (stamp d))) ∧ advances (stamp d) (on_versions (map id) (on_assets (map h) (stamp d)))) as [H1 H2].
  { apply change_ok; [| | | | |done].
    - intros a. subst h. simpl. destruct (_ && _); [|done]. by destruct (Hf (tick (wall d)) a) as (-> & -> & _).
    - done.
    - intros a Hin. specialize (Hlt a Hin). subst h. simpl in *. destruct (_ && _); [|lia].
      destruct (Hf (tick (wall d)) a) as (_ & _ & -> & _). lia.
    - intros a Hin. subst h. simpl. destruct (_ && _); [intros Hl; by destruct (Hf (tick (wall d)) a) as (_ & _ & _ & [])|].
      rewrite Forall_forall in Hp. by apply Hp.
    - intros a _ _. by destruct (latest _ _). }
  unfold on_versions in H1, H2. simpl in H1, H2. rewrite map_id in H1, H2. split; [exact H1|].
  by transitivity (stamp d).
Qed.
(** ** Contribution *)

Lemma create_version_run v d r d' : create_version v d = (Ok r, d') →
  r = v ∧ (ve_id v ∉ map ve_id (versions d)) ∧ d' = on_versions (λ l, l ++ [v]) d.
Proof.
  unfold create_version. destruct (isSome _) eqn:E; [done|]. intros [= <- <-]. split_and!; [done| |done].
  intros (w & Hw & Hin)%list_elem_of_fmap. apply isSome_false in E. rewrite find_by_None in E. by apply (E w Hin).
Qed.
Lemma create_asset_run a d r d' : create_asset a d = (Ok r, d') →
  r = a ∧ (∀ b, b ∈ assets d → as_id b ≠ as_id a) ∧ d' = on_assets (λ l, l ++ [a]) d.
Proof.
  unfold create_asset. destruct (_ || _) eqn:E; [done|]. intros [= <- <-]. apply orb_false_iff in E as [E _].
  apply isSome_false in E. split_and!; [done|by apply find_by_None|done].
Qed.
Lemma add_asset_ok a d : (∀ b, b ∈ assets d → as_id b ≠ as_id a) → as_updatedAt a ≤ wall d → lifecycle a ≠ PUBLISHED →
  assets_ok d → assets_ok (on_assets (λ l, l ++ [a]) d) ∧ advances d (on_assets (λ l, l ++ [a]) d).
Proof.
  intros Hfresh Hu Hl [Ha Hv Hat Hvt Hp]. split; [split|split]; simpl; [|done| |done| |lia|].
  - rewrite map_app. apply NoDup_app. split; [done|]. split; [|apply NoDup_singleton].
    intros i (b & -> & Hb)%list_elem_of_fmap. simpl. intros Hx%list_elem_of_singleton. by apply (Hfresh b).
  - by apply Forall_snoc_intro.
  - apply Forall_snoc_intro; [done|]. intros E. done.
  - intros i b Hb. exists b. unfold find_asset in *. simpl. rewrite find_by_app, Hb. split; [done|]. split; [lia|]. done.
Qed.

Lemma contribute_rows_sound ai vi v i existing title body tags redactions required :
  sound_write (contribute_rows sha256 tick ai vi v i existing title body tags redactions required).
Proof.
  intros d Hd. destruct (contribute_rows _ _ _ _ _ _ _ _ _ _ _ _ d) as [[av|er] d'] eqn:Hrun; simpl;
    [|apply transaction_throw in Hrun as ->; split; [done|reflexivity]].
  unfold contribute_rows in Hrun. rewrite transaction_ok in Hrun. apply bind_ok in Hrun as ([] & d1 & [= <-] & Hrun).
  destruct (stamp_ok d Hd) as (Hd1 & Hadv & Hlt & Hvlt).
  unfold gets in Hrun. apply bind_ok in Hrun as (? & ? & [= <- <-] & Hrun).
  apply bind_ok in Hrun as (a' & d2 & Ha' & Hrun).
  apply bind_ok in Hrun as (w & d3 & (-> & Hfresh & ->)%create_version_run & [= _ <-]).
  assert (Hmid : assets_ok d2 ∧ advances (stamp d) d2 ∧ versions d2 = versions (stamp d) ∧ wall d2 = wall (stamp d) ∧
    (∀ a, a ∈ assets d2 → as_id a = as_id a' → lifecycle a ≠ PUBLISHED) ∧
    (∀ a b, find_asset (as_id a') d = Some a → find_asset (as_id a') d2 = Some b → as_updatedAt a < as_updatedAt b)).
  { destruct existing as [a|].
    - apply bind_ok in Ha' as (row & ? & [= <- <-] & (cur & ? & [Hcur ->]%require_ok & ([] & ? & [= <-] & [= <- <-])%bind_ok)%bind_ok).
      assert (as_id cur = as_id a) as Hid by by apply find_by_Some in Hcur as [? _]. simpl. rewrite Hid.
      set (f := resubmitted _ _ _ _ _). rewrite Forall_forall in Hlt.
      assert (assets_ok (on_versions (map id) (on_assets (update_by as_id (as_id a) f) (stamp d))) ∧
        advances (stamp d) (on_versions (map id) (on_assets (update_by as_id (as_id a) f) (stamp d)))) as [H1 H2].
      { apply change_ok; [| | | | |done].
        - intros x. by case_decide.
        - done.
        - intros x Hx%Hlt. simpl in *. case_decide; simpl; lia.
        - intros x Hx. case_decide; [done|]. pose proof (published_reviewed _ Hd1) as Hp. rewrite Forall_forall in Hp. by apply Hp.
        - intros x _ _. by destruct (latest _ _). }
      unfold on_versions in H1, H2. simpl in H1, H2. rewrite map_id in H1, H2. split_and!; [exact H1|exact H2|done|done| |].
      + intros x (y & Hy & ->)%elem_of_update_by. case_decide; done.
      + intros x b Hx. unfold find_asset in *. simpl. rewrite find_by_update by done. rewrite decide_True, Hx by done.
        intros [= <-]. simpl. apply find_by_Some in Hx as [_ Hx]. by apply (Hlt x).
    - apply create_asset_run in Ha' as (-> & Hnew & ->).
      destruct (add_asset_ok _ _ Hnew (Z.le_refl _)) as [H1 H2]; [done|done|]. split_and!; [exact H1|exact H2|done|done| |].
      + intros x [Hx| ->%list_elem_of_singleton]%elem_of_app Hid; [|done]. by destruct (Hnew x Hx).
      + intros x b [Hid Hx]%find_by_Some. by destruct (Hnew x Hx). }
  destruct Hmid as (H1 & H2 & Hv & Hw & Hnp & Hup). split.
  - apply append_version_ok; [done|done| |done|done]. by rewrite Hv, Hw.
  - apply append_version_advances; [by transitivity (stamp d)|done].
Qed.

(** ** Promotion *)

Definition unpublished (i : string) (d : AssetDB) : Prop := ∀ a, a ∈ assets d → as_id a = i → lifecycle a ≠ PUBLISHED.
Lemma create_promoted_sound ai src toScope team : sound_write (create_promoted tick ai src toScope team).
Proof.
  intros d Hd. destruct (create_promoted _ _ _ _ _ d) as [[a|er] d'] eqn:Hrun; simpl;
    [|apply transaction_throw in Hrun as ->; split; [done|reflexivity]].
  unfold create_promoted in Hrun. rewrite transaction_ok in Hrun. apply bind_ok in Hrun as ([] & d1 & [= <-] & Hrun).
  apply bind_ok in Hrun as (t & d2 & [= <- <-] & (-> & Hnew & ->)%create_asset_run). destruct (stamp_ok d Hd) as (Hd1 & Hadv & _).
  destruct (add_asset_ok _ _ Hnew (Z.le_refl _)) as [H1 H2]; [done|done|]. split; [done|]. by transitivity (stamp d).
Qed.
Lemma create_promoted_run ai src toScope team d a d' : create_promoted tick ai src toScope team d = (Ok a, d') →
  as_id a = ai ∧ unpublished ai d'.
Proof.
  unfold create_promoted. rewrite transaction_ok. intros ([] & d1 & [= <-] & (t & d2 & [= <- <-] & (-> & Hnew & ->)%create_asset_run)%bind_ok)%bind_ok.
  split; [done|]. intros x [Hx| ->%list_elem_of_singleton]%elem_of_app Hid; [|done]. by destruct (Hnew x Hx).
Qed.
Lemma store_version_ok vi i body redactions required d : assets_ok d → unpublished i d →
  assets_ok (store_version sha256 tick vi i body redactions required d).2 ∧
  unpublished i (store_version sha256 tick vi i body redactions required d).2.
Proof.
  intros Hd Hun. destruct (store_version _ _ _ _ _ _ _ d) as [[v|er] d'] eqn:Hrun; simpl;
    [|apply transaction_throw in Hrun as ->; done].
  unfold store_version in Hrun. rewrite transaction_ok in Hrun. apply bind_ok in Hrun as ([] & d1 & [= <-] & Hrun).
  apply bind_ok in Hrun as (t & d2 & [= <- <-] & (-> & Hnew & ->)%create_version_run). destruct (stamp_ok d Hd) as (Hd1 & _ & _ & Hlt).
  split; [|exact Hun]. by apply append_version_ok.
Qed.

(** ** Review *)

Lemma normalizeCapabilityNames_elem values label l : normalizeCapabilityNames values label = Ok l → ∀ c, c ∈ l ↔ c ∈ values.
Proof.
  intros (? & _ & (? & _ & [= <-])%res_bind_ok)%res_bind_ok c. by rewrite elem_of_sort_str, elem_of_uniq.
Qed.
Lemma normalizeGranted_ok k required values granted : normalizeGrantedCapabilities k required values = Ok granted →
  granted ⊆ required ∧ (k ≠ SKILL → granted = []).
Proof.
  unfold normalizeGrantedCapabilities, normalizeRequiredCapabilities.
  intros (req & Hreq & (g & Hg & (? & Hk%throw_if_ok & (? & Hin%throw_if_ok & [= <-])%res_bind_ok)%res_bind_ok)%res_bind_ok)%res_bind_ok.
  apply res_bind_ok in Hreq as (req' & Hreq & (? & _ & [= <-])%res_bind_ok). split.
  - intros c Hc. rewrite negb_false_iff, forallb_forall in Hin. rewrite <- (normalizeCapabilityNames_elem _ _ _ Hreq).
    apply mem_true, Hin. by apply list_elem_of_In.
  - intros Hs. rewrite bool_decide_false in Hk by done. by destruct g.
Qed.
Lemma publishable_ok a v gc granted t : publishable a v gc = Ok granted → reviewed_ok (as_kind a) (reviewed granted t v).
Proof.
  intros (g & [Hsub Hk]%normalizeGranted_ok & (? & Hs%throw_if_ok & (? & Hr%throw_if_ok & [= <-])%res_bind_ok)%res_bind_ok)%res_bind_ok.
  apply negb_false_iff in Hs. apply Nat.ltb_ge, Nat.le_0_r, length_zero_iff_nil in Hr. by split_and!; [eexists| | | |].
Qed.
Lemma reviewed_ok_same k v w g t : content v = content w → reviewed_ok k (reviewed g t v) → reviewed_ok k (reviewed g t w).
Proof. intros [= _ Hb Hr] (H1 & H2 & H3 & H4 & H5). unfold reviewed_ok in *. simpl in *. rewrite <- Hb, <- Hr. done. Qed.
Lemma one_found {A} (hit : A → bool) l : (length (filter (λ x, hit x = true) l) = 1)%nat → ∃ x, x ∈ l ∧ hit x = true.
Proof.
  destruct (filter _ l) as [|x k] eqn:E; [done|]. intros _. exists x.
  assert (x ∈ filter (λ x, hit x = true) l) as [? ?]%list_elem_of_filter by (rewrite E; left). done.
Qed.

Lemma publish_ok a v gc granted haystack d0 d :
  find_asset (as_id a) d0 = Some a → latest (as_id a) d0 = Some v → publishable a v gc = Ok granted → advances d0 d →
  assets_ok d → assets_ok (publish tick a v granted haystack d).2 ∧ advances d (publish tick a v granted haystack d).2.
Proof.
  intros Ha Hv Hpub [_ H0] Hd. destruct (publish _ _ _ _ _ d) as [[[]|er] d'] eqn:Hrun; simpl;
    [|apply transaction_throw in Hrun as ->; split; [done|reflexivity]].
  unfold publish in Hrun. rewrite transaction_ok in Hrun. apply bind_ok in Hrun as (n & d1 & [= <- <-] & Hrun). apply bind_ok in Hrun as (m & d2 & [= <- <-] & Hrun).
  apply guard_throw_ok in Hrun as [[Hn Hm]%orb_false_iff ->]. boolify. simpl in Hn, Hm.
  destruct (stamp_ok d Hd) as (Hd1 & Hadv & Hlt & _). pose proof Hd1 as [Hids Hvids _ _ Hp]. rewrite Forall_forall in Hlt, Hp.
  apply one_found in Hn as (a' & Hin' & Hhit). boolify. destruct Hhit as [[Hid Hlc] Hup].
  assert (Ha' : find_asset (as_id a) d = Some a') by by apply find_by_unique.
  destruct (H0 _ _ Ha) as (a2 & Ha2 & _ & Hk & Hc). rewrite Ha' in Ha2. injection Ha2 as <-. specialize (Hc Hup).
  rewrite Hv in Hc. destruct (latest (as_id a) d) as [v'|] eqn:Hv'; [|done]. injection Hc as Hid' Hb' Hr'.
  destruct (latest_elem _ _ _ Hv') as [Hvin Hva].
  apply one_found in Hm as (w & Hwin & Hw). boolify. destruct Hw as [[Hwid Hwa] Hwr]. simpl in Hwin.
  assert (w = v') as ->.
  { assert (find_by ve_id (ve_id v) (versions d) = Some w) by (by apply find_by_unique).
    assert (find_by ve_id (ve_id v) (versions d) = Some v') by (by apply find_by_unique). congruence. }
  unfold on_assets, on_versions. simpl.
  match goal with |- context [map ?f (assets d)] => set (F := f) end.
  match goal with |- context [map ?g (versions d)] => set (G := g) end.
  enough (assets_ok (on_versions (map G) (on_assets (map F) (stamp d))) ∧ advances (stamp d) (on_versions (map G) (on_assets (map F) (stamp d)))) as [H1 H2].
  { split; [exact H1|]. by transitivity (stamp d). }
  apply change_ok; [| | | | |done].
  - intros x. subst F. simpl. by destruct (_ && _).
  - intros x. subst G. simpl. by destruct (_ && _).
  - intros x Hx%Hlt. subst F. simpl in *. destruct (_ && _); simpl; lia.
  - intros x Hx. subst F. simpl. destruct (_ && _) eqn:E; intros Hl; boolify.
    + destruct E as [[Hxi _] _]. rewrite Hxi. exists v'. split; [exact Hv'|].
      assert (x = a') as ->.
      { assert (find_asset (as_id a) d = Some x) by (by apply find_by_unique). congruence. }
      rewrite Hk. subst G. simpl. rewrite Hwid, Hwa, Hwr. rewrite !String.eqb_refl. simpl.
      eapply reviewed_ok_same; [|by eapply publishable_ok]. unfold content. congruence.
    + destruct (Hp x Hx Hl) as (w & Hw & Hok). exists w. split; [done|]. apply latest_elem in Hw as [_ Hw].
      subst G. simpl. destruct (_ && _) eqn:E2; [|done]. exfalso. boolify. destruct E2 as [[_ E2] _].
      assert (find_asset (as_id a) d = Some x) by (apply find_by_unique; [done|done|congruence]). congruence.
  - intros x _ _. destruct (latest (as_id x) (stamp d)) as [w|]; [|done]. subst G. simpl. by case_match.
Qed.
End writes.

(** * Requests *)

Inductive AssetRequest :=
  | Contribute (ai vi : string) (bearer : option string) (i : ContributeInput) (now : Z)
  | Manifest (bearer : option string) (scope : option AssetScope) (kind : option AssetKind) (since : option Z) (now : Z)
  | GetAsset (bearer : option string) (i : string) (now : Z)
  | SearchAssets (bearer : option string) (query : string) (kind : option AssetKind) (limit : option nat) (now : Z)
  | Review (i : string) (approve : bool) (grantedCapabilities : list string) (nowSec : Z)
  | Promote (ai vi i : string) (toScope : AssetScope) (toTeamId : option string) (nowSec : Z)
  | Deprecate (i : string) (supersededById : option string) (nowSec : Z).
(** The identifier a promotion draws for the copy. *)
Definition promotes (q : AssetRequest) : option string := match q with Promote ai _ _ _ _ _ => Some ai | _ => None end.

Section requests.
Context (sha256 : string → string) (tick : Z → Z) (Htick : ∀ t, t < tick t).
Context (embedder : option (string * (string → res (option (list Q))))) (nearest : AssetDB → string → string → list Q → res (list string)).
Context (e : env) (licence : option License.LicenseClaims).
Context (others : nat → AssetDB → AssetDB) (fails : nat → option exn).
Context (Hothers : ∀ n d, assets_ok d → assets_ok (others n d) ∧ advances d (others n d)).
Local Abbreviation State := (Session AssetDB).

Definition handle (q : AssetRequest) : M State unit :=
  match q with
  | Contribute ai vi bearer i now => _ ← contribute sha256 tick e licence others fails ai vi bearer i now; mret tt
  | Manifest bearer scope kind since now => _ ← manifest sha256 e others fails bearer scope kind since now; mret tt
  | GetAsset bearer i now => _ ← getAsset sha256 e others fails bearer i now; mret tt
  | SearchAssets bearer query kind limit now => _ ← search sha256 embedder nearest e others fails bearer query kind limit now; mret tt
  | Review i approve gc nowSec => _ ← review tick embedder e licence others fails i approve gc nowSec; mret tt
  | Promote ai vi i toScope team nowSec => _ ← promote sha256 tick e licence others fails ai vi i toScope team nowSec; mret tt
  | Deprecate i sup nowSec => _ ← deprecate tick e licence others fails i sup nowSec; mret tt
  end.

Local Abbreviation since := (Session.since assets_ok advances).
Lemma sound_log org action at' actor p : sound_write (audit_log (DB := AssetDB) org action at' actor p).
Proof. intros d [? ? ? ? Hp]. split; [by split|]. split; [simpl; lia|]. exact (proj2 (advances_refl d)). Qed.
Lemma since_log d0 org action at' actor p : keeps_all (since d0) (log others fails org action at' actor p).
Proof. apply since_call; [apply _|exact Hothers|apply sound_log]. Qed.
Lemma since_device d0 bearer now : keeps_all (since d0) (deviceFromBearer sha256 e others fails bearer now).
Proof.
  unfold deviceFromBearer. apply keeps_all_bind; [auto with session|]. intros _. apply keeps_all_bind; [auto with session|]. intros dt.
  repeat (apply keeps_all_bind; [auto with session|intros ?]). auto with session.
Qed.
Lemma since_embed d0 vi h : keeps_all (since d0) (embedOnPublish embedder others fails vi h).
Proof.
  unfold embedOnPublish. destruct embedder as [[model embedOne]|]; [|auto with session].
  apply keeps_all_try; [|auto with session]. apply keeps_all_bind; [auto with session|]. intros [v|]; [|auto with session].
  apply since_call; [apply _|exact Hothers|]. intros d Hd. unfold modify. cbn [snd].
  assert (on_versions (update_by ve_id vi (embedded (Some (model, v)))) d
    = on_versions (map (λ x, if decide (ve_id x = vi) then embedded (Some (model, v)) x else x)) (on_assets (map id) d)) as ->.
  { unfold on_versions, on_assets, update_by. simpl. by rewrite map_id. }
  pose proof (published_reviewed _ Hd) as Hp. pose proof (asset_times _ Hd) as Ht. rewrite Forall_forall in Hp, Ht.
  apply change_ok; [done| | | | |done].
  - intros x. by case_decide.
  - intros a Ha. specialize (Ht a Ha). simpl. lia.
  - intros a Ha Hl. destruct (Hp a Ha Hl) as (w & Hw & Hok). exists w. split; [done|]. by case_decide.
  - intros a _ _. destruct (latest (as_id a) d); [|done]. simpl. by case_decide.
Qed.
Hint Resolve since_log since_device since_embed : session.
Ltac steps := repeat (apply keeps_all_bind; [solve [auto with session]|intros ?]); auto with session.

Lemma since_contribute d0 ai vi bearer i now : keeps_all (since d0) (contribute sha256 tick e licence others fails ai vi bearer i now).
Proof.
  unfold contribute, entitled. do 3 (apply keeps_all_bind; [auto with session|intros ?]). destruct (redactSecrets _) as [body redactions].
  apply keeps_all_bind; [auto with session|]. intros required. apply keeps_all_bind; [auto with session|]. intros existing.
  apply keeps_all_bind; [|intros ?; steps]. apply since_call; [apply _|exact Hothers|]. by apply contribute_rows_sound.
Qed.
Lemma since_locked d0 i from u f :
  (∀ t a, as_id (f t a) = as_id a ∧ as_kind (f t a) = as_kind a ∧ as_updatedAt (f t a) = t ∧ lifecycle (f t a) ≠ PUBLISHED) →
  keeps_all (since d0) (call others fails (locked_update tick i from u f)).
Proof. intros Hf. apply since_call; [apply _|exact Hothers|]. by apply locked_update_sound. Qed.

Lemma since_review d0 i approve gc nowSec : keeps_all (since d0) (review tick embedder e licence others fails i approve gc nowSec).
Proof.
  unfold review, entitled. apply keeps_all_bind; [auto with session|]. intros _. apply since_after_read; [apply _|exact Hothers|]. intros d Hd.
  apply keeps_all_require_bind. intros [a o] (a' & Ha & [= -> ->])%fmap_Some. cbn [fst snd]. apply keeps_all_bind; [auto with session|]. intros _.
  destruct approve; [|apply keeps_all_bind; [by apply since_locked|intros ?; steps]].
  apply keeps_all_require_bind. intros v Hv. apply keeps_all_lift_bind. intros granted Hpub. cbv zeta.
  apply keeps_all_bind; [|intros _; steps]. apply keeps_call; [intros n d1; apply since_others; [apply _|exact Hothers]|]. intros d1 [Hd1 Hadv].
  pose proof (find_by_Some _ _ _ _ Ha) as [<- _].
  destruct (publish_ok tick Htick a' v gc granted
    (searchTextFor (as_title a') (as_summary a') (as_tags a') (as_lang a') (ve_body v)) d d1 Ha Hv Hpub Hadv Hd1) as [H1 H2].
  split; [exact H1|]. by transitivity d1.
Qed.
Lemma since_deprecate d0 i sup nowSec : keeps_all (since d0) (deprecate tick e licence others fails i sup nowSec).
Proof.
  unfold deprecate, entitled. steps. apply keeps_all_bind; [by apply since_locked|intros ?; steps].
Qed.
Lemma since_search d0 bearer query kind limit now :
  keeps_all (since d0) (search sha256 embedder nearest e others fails bearer query kind limit now).
Proof.
  unfold search. steps. apply keeps_all_bind; [|auto with session]. unfold vector_ranked. destruct embedder as [[model embedOne]|]; [|auto with session].
  apply keeps_all_try; [|auto with session]. apply keeps_all_bind; [auto with session|]. intros [v|]; steps.
Qed.

(** ** Promotion *)

(** Between its two writes the copy has no version of its own: nobody may publish it. *)
Lemma promote_keeps ai vi i toScope team nowSec :
  (∀ n d, unpublished ai d → unpublished ai (others n d)) →
  keeps_all assets_ok (promote sha256 tick e licence others fails ai vi i toScope team nowSec).
Proof.
  intros Hunp. assert (Hoth : ∀ n d, assets_ok d → assets_ok (others n d)) by (intros; by apply Hothers).
  assert (Hlog : ∀ org action at' actor p, keeps_all assets_ok (log others fails org action at' actor p)).
  { intros. intros s Hs. apply (since_log (db s)). split; [done|reflexivity]. }
  unfold promote, entitled. apply keeps_all_bind; [auto with session|]. intros _.
  apply keeps_all_bind; [apply keeps_call; auto with session|]. intros found. apply keeps_all_bind; [auto with session|]. intros [src v].
  do 2 (apply keeps_all_bind; [auto with session|intros _]). destruct (redactSecrets _) as [redacted redactions].
  intros s Hs. destruct (call others fails (create_promoted tick ai src toScope team) s) as [[a|er] s1] eqn:Hcall.
  2:{ rewrite (bind_throw _ _ _ _ _ Hcall). assert (keeps_all assets_ok (call others fails (create_promoted tick ai src toScope team))) as Hk.
      { apply keeps_call; [done|]. intros d Hd. by apply create_promoted_sound. }
      specialize (Hk s Hs). by rewrite Hcall in Hk. }
  rewrite (bind_step _ _ _ _ _ Hcall). apply call_ok in Hcall as (d & Hrun & Hdb & _).
  destruct (create_promoted_sound tick Htick ai src toScope team _ (Hoth (2 * calls s)%nat _ Hs)) as [Hd _]. rewrite Hrun in Hd. simpl in Hd.
  apply create_promoted_run in Hrun as [Hai Hun].
  enough (keeps_all (λ d, assets_ok d ∧ unpublished ai d) (_ ← call others fails (store_version sha256 tick vi (as_id a) redacted redactions (ve_required v));
    _ ← log others fails (as_org src) "asset.promote" "admin" (as_id a)
        [("from", some_str i); ("fromScope", some_str (scope_str (as_scope src))); ("toScope", some_str (scope_str toScope))];
    mret (as_id a))) as Hk by (apply (Hk s1); rewrite Hdb; auto).
  rewrite Hai. apply keeps_all_bind; [|intros _; apply keeps_all_bind; [|intros ?; auto with session]].
  - apply keeps_call; [intros ? ? []; auto|]. intros d0 [H1 H2]. by apply store_version_ok.
  - apply keeps_call; [intros ? ? []; auto|]. intros d0 [H1 H2]. split; [|exact H2].
    apply (sound_log (as_org src) _ _ _ _ d0 H1).
Qed.

(** C23: What is published was reviewed, as long as no promotion is under way beside. Well formed are tables in which
    the newest version of every published asset was reviewed, holds no injection phrase and no secret-shaped text, and
    is granted no capability beyond those it declared (none at all unless it is a skill). Every request leaves well
    formed tables well formed, in every interleaving with other requests that keep them so and that also leave each
    asset in place, with its kind, and with the same newest content unless they move its timestamp; and every request
    but a promotion is such a request itself. A promotion is not, since its second write appends a version without
    moving the timestamp: a review of its copy that it overtakes publishes what nobody reviewed ([review_overtaken]).
    And a promotion keeps the tables well formed only if nobody publishes its copy between its two writes
    ([promotion_overtaken]). The clock moves between any two writes. *)
Theorem published_is_reviewed q (s : State) :
  (∀ ai, promotes q = Some ai → ∀ n d, unpublished ai d → unpublished ai (others n d)) →
  assets_ok (db s) → assets_ok (db (handle q s).2) ∧ (promotes q = None → advances (db s) (db (handle q s).2)).
Proof.
  intros Hai Hs. enough (match promotes q with Some _ => keeps_all assets_ok (handle q) | None => keeps_all (since (db s)) (handle q) end) as H.
  { destruct (promotes q); [by split; [apply H|]|]. destruct (H s (conj Hs (advances_refl _))). by split. }
  destruct q as [ai vi bearer i now|bearer scope kind t now|bearer i now|bearer query kind limit now|i approve gc nowSec|ai vi i toScope team nowSec|i sup nowSec];
    cbn [promotes handle]; (apply keeps_all_bind; [|auto with session]).
  - apply since_contribute.
  - unfold manifest. steps.
  - unfold getAsset. steps.
  - apply since_search.
  - apply since_review.
  - apply promote_keeps. by apply Hai.
  - apply since_deprecate.
Qed.

Lemma deviceFromBearer_ok bearer now (s : State) dev s' : deviceFromBearer sha256 e others fails bearer now s = (Ok dev, s') →
  let d0 := others (2 * calls s)%nat (db s) in
  db s' = others (2 * calls s + 1)%nat d0 ∧ calls s' = S (calls s) ∧
  ∃ k, find_by k_hash (sha256 (nullish bearer "")) (tokens (ctl d0)) = Some k ∧ k_revokedAt k = None ∧
    (∀ x, k_expiresAt k = Some x → now < x) ∧ find_device (ctl d0) (k_device k) = Some dev.
Proof.
  unfold deviceFromBearer. rewrite bind_guard. destruct (absent bearer); [done|].
  intros (dt & s1 & (d & [= Hdt <-] & Hdb & Hc)%call_ok & Hrun)%bind_ok.
  rewrite bind_lift in Hrun. destruct (Token.assertTokenUsable _ _ _ _) as [[]|] eqn:Ht; [|done].
  apply Token.usable_ok in Ht as (t & Ht & Hr & Hx). apply bind_ok in Hrun as (v & s2 & [-> ->]%require_ok & [= <- <-]).
  injection Ht as <-. split; [done|]. split; [done|].
  destruct (find_by k_hash _ _) as [k|] eqn:Hk; [|done]. exists k. simpl in Hdt.
  destruct (find_device _ _) as [dv|] eqn:Hv; [|done]. injection Hdt as <-. done.
Qed.

(** A device is served an asset exactly as some state of the tables published it in the organization of the
    device its unrevoked, unexpired token belongs to, and the content was reviewed: no injection phrase, no
    secret-shaped text, no capability granted beyond the declared ones, none at all unless it is a skill. *)
Theorem served_assets_reviewed bearer i now (s : State) view s' :
  assets_ok (db s) → getAsset sha256 e others fails bearer i now s = (Ok view, s') →
  let d0 := others (2 * calls s)%nat (db s) in
  let d := others (2 * calls s + 2)%nat (others (2 * calls s + 1)%nat d0) in
  ∃ k dev a v,
    find_by k_hash (sha256 (nullish bearer "")) (tokens (ctl d0)) = Some k ∧ k_revokedAt k = None ∧
    (∀ x, k_expiresAt k = Some x → now < x) ∧ find_device (ctl d0) (k_device k) = Some dev ∧
    find_asset i d = Some a ∧ as_org a = v_org dev ∧ lifecycle a = PUBLISHED ∧ latest i d = Some v ∧
    is_Some (ve_reviewedAt v) ∧ av_body view = ve_body v ∧
    scan_ok (av_body view) = true ∧ (redactSecrets (av_body view)).2 = [] ∧
    av_granted view ⊆ av_required view ∧ (av_kind view ≠ SKILL → av_granted view = []).
Proof.
  intros Hs Hrun. unfold getAsset in Hrun. apply bind_ok in Hrun as (dev & s1 & Hdev & Hrun).
  apply deviceFromBearer_ok in Hdev as (Hdb1 & Hc1 & k & Hk & Hrev & Hexp & Hdevice).
  apply bind_ok in Hrun as (found & s2 & (d & [= Hfound <-] & _ & _)%call_ok & Hrun).
  apply bind_ok in Hrun as ([a v] & s3 & [-> ->]%require_ok & [= <- _]).
  rewrite Hdb1, Hc1 in Hfound. replace (S (calls s) + (S (calls s) + 0))%nat with (2 * calls s + 2)%nat in Hfound by lia. cbv zeta.
  assert (Hd : assets_ok (others (2 * calls s + 2)%nat (others (2 * calls s + 1)%nat (others (2 * calls s)%nat (db s))))) by (do 3 apply Hothers; done).
  set (d := others (2 * calls s + 2)%nat _) in *. clearbody d.
  destruct (find_asset i d) as [a'|] eqn:Ha; [|done]. simpl in Hfound. destruct (published _ _) eqn:Hpub; [|done].
  apply fmap_Some in Hfound as (v' & Hv & [= <- <-]). unfold published in Hpub. boolify. destruct Hpub as [Horg Hl].
  pose proof (find_by_Some _ _ _ _ Ha) as [Hid Hin]. pose proof (published_reviewed _ Hd) as Hp. rewrite Forall_forall in Hp.
  destruct (Hp a Hin Hl) as (w & Hw & Hok). rewrite Hid, Hv in Hw. injection Hw as <-. destruct Hok as (Hok1 & Hok2 & Hok3 & Hok4 & Hok5).
  exists k, dev, a, v. cbn [av_body av_granted av_required av_kind]. by split_and!.
Qed.
End requests.

(** * Searching *)

(** The reciprocal rank of an identifier in a list. *)
Definition reciprocal_rank (ids : list string) (id : string) : Q :=
  match list_find (λ x, x = id) ids with Some (i, _) => 1 / inject_Z (60 + Z.of_nat i) | None => 0 end.

Lemma positive_rank i : (0 < 1 / inject_Z (60 + Z.of_nat i))%Q.
Proof. apply Qlt_shift_div_l; [|rewrite Qmult_0_l; done]. replace 0%Q with (inject_Z 0) by done. rewrite <- Zlt_Qlt. lia. Qed.
Lemma fuse_snoc m ids x : fuse m (ids ++ [x]) =
  obj_set x (nullish (assoc x (fuse m ids)) 0 + 1 / inject_Z (60 + Z.of_nat (length ids)))%Q (fuse m ids).
Proof. unfold fuse. rewrite imap_app, foldl_app. simpl. by rewrite Nat.add_0_r. Qed.
(** Fusing adds the reciprocal rank of each identifier to its score. *)
Lemma fuse_score m ids id : NoDup ids →
  (nullish (assoc id (fuse m ids)) 0 == nullish (assoc id m) 0 + reciprocal_rank ids id)%Q.
Proof.
  induction ids as [|x ids IH] using rev_ind; intros Hnd; [change (fuse m []) with m; unfold reciprocal_rank; simpl; ring|].
  apply NoDup_app in Hnd as (Hnd & Hx & _). specialize (IH Hnd). rewrite fuse_snoc.
  assert (Hx' : x ∉ ids) by (intros Hin; apply (Hx x Hin); by left). unfold reciprocal_rank in *. destruct (decide (id = x)) as [->|Hne].
  - rewrite assoc_obj_set. cbn [nullish default]. rewrite IH.
    assert (list_find (λ y, y = x) ids = None) as Hno by (apply list_find_None, Forall_forall; congruence).
    rewrite Hno, list_find_app_r by done. simpl. rewrite decide_True by done. simpl. rewrite ?Nat.add_0_r. ring.
  - rewrite assoc_obj_set_ne by done. rewrite IH. destruct (list_find (λ y, y = id) ids) as [[i y]|] eqn:E.
    + by erewrite list_find_app_l.
    + rewrite list_find_app_r by done. simpl. by rewrite decide_False by done.
Qed.
Lemma fuse_entries m ids : NoDup m.*1 → Forall (λ p, (0 < p.2)%Q) m →
  NoDup (fuse m ids).*1 ∧ Forall (λ p, (0 < p.2)%Q) (fuse m ids).
Proof.
  intros Hn Hm. induction ids as [|x ids [IH1 IH2]] using rev_ind; [done|]. rewrite fuse_snoc. split; [by apply obj_set_keys|].
  apply Forall_obj_set; [done|]. simpl. assert (0 <= nullish (assoc x (fuse m ids)) 0)%Q.
  { destruct (assoc x (fuse m ids)) as [q|] eqn:E; [|done]. apply assoc_elem in E. rewrite Forall_forall in IH2.
    apply Qlt_le_weak, (IH2 _ E). }
  pose proof (positive_rank (length ids)). rewrite Qplus_comm. replace 0%Q with (0 + 0)%Q by done. by apply Qplus_lt_le_compat.
Qed.

Lemma weighted_ids candidates m : map (λ h, as_id (sh_asset h)) (concat (map (weighted candidates) m)) `sublist_of` m.*1.
Proof.
  induction m as [|[id q] m IH]; [constructor|]. cbn [map concat fmap list_fmap fst]. unfold weighted at 1. cbn [fst snd].
  destruct (find_by _ _ _) as [a|] eqn:E; cbn [app map sh_asset].
  - apply find_by_Some in E as [-> _]. by constructor.
  - by constructor.
Qed.
Lemma weighted_elem candidates m h : h ∈ concat (map (weighted candidates) m) →
  ∃ q, (as_id (sh_asset h), q) ∈ m ∧ sh_asset h ∈ candidates ∧
    sh_score h = (q * inject_Z (SCOPE_TIER (as_scope (sh_asset h))))%Q.
Proof.
  induction m as [|[id q] m IH]; cbn [map concat]; [by intros ?%elem_of_nil|]. intros [Hh|Hh]%elem_of_app.
  - unfold weighted in Hh. cbn [fst snd] in Hh. destruct (find_by _ _ _) as [a|] eqn:E; [|by apply elem_of_nil in Hh].
    apply list_elem_of_singleton in Hh as ->. apply find_by_Some in E as [<- Hin]. exists q. split; [left|]. done.
  - destruct (IH Hh) as (q' & Hq & H). exists q'. split; [by right|done].
Qed.

(** Search fuses the two rankings by reciprocal rank: at most [limit] hits come back, each a different
    published candidate of the organization, scored by the sum of its reciprocal ranks times the weight of its
    scope, highest score first. *)
Theorem search_results_ranked org candidates ids1 ids2 limit :
  Forall (λ a, published org a = true) candidates → NoDup ids1 → NoDup ids2 →
  let hits := rank candidates ids1 ids2 limit in
  (length hits ≤ limit)%nat ∧ NoDup (map (λ h, as_id (sh_asset h)) hits) ∧
  StronglySorted (λ x y, (sh_score y <= sh_score x)%Q) hits ∧
  Forall (λ h, let a := sh_asset h in a ∈ candidates ∧ published org a = true ∧
    (sh_score h == (reciprocal_rank ids1 (as_id a) + reciprocal_rank ids2 (as_id a)) * inject_Z (SCOPE_TIER (as_scope a)))%Q) hits.
Proof.
  intros Hc Hn1 Hn2 hits. unfold hits, rank. set (before := λ x y : SearchHit, num_ltb (Num (sh_score y)) (Num (sh_score x))).
  set (m := fuse (fuse [] ids1) ids2).
  destruct (fuse_entries [] ids1) as [Hk1 Hp1]; [constructor|constructor|].
  destruct (fuse_entries _ ids2 Hk1 Hp1) as [Hk _].
  assert (Hscore : ∀ id q, (id, q) ∈ m → (q == reciprocal_rank ids1 id + reciprocal_rank ids2 id)%Q).
  { intros id q Hq. apply elem_assoc in Hq; [|done]. pose proof (fuse_score (fuse [] ids1) ids2 id Hn2) as H.
    fold m in H. rewrite Hq, fuse_score in H by done. simpl in H. rewrite H. ring. }
  set (l := concat _). split; [rewrite length_take; lia|]. split; [|split].
  - unfold hits. rewrite <- firstn_map. eapply sublist_NoDup; [|apply sublist_take]. rewrite stable_sort_perm.
    eapply sublist_NoDup; [exact Hk|apply weighted_ids].
  - eapply StronglySorted_app_1_l. rewrite take_drop. apply stable_sort_sorted; unfold before.
    + intros x y z Hxy Hyz. by eapply Qle_trans.
    + intros x y Hxy%num_ltb_true. by apply Qlt_le_weak.
    + intros x y Hxy%num_ltb_false. done.
  - apply Forall_take. rewrite stable_sort_perm. apply Forall_forall. intros h (q & Hq & Hin & ->)%weighted_elem.
    cbv zeta. split; [done|]. rewrite Forall_forall in Hc. split; [by apply Hc|]. by rewrite (Hscore _ _ Hq).
Qed.

(** * Executing a skill *)

Definition capability_names (values : list string) : Prop :=
  (length values ≤ MAX_SKILL_CAPABILITIES)%nat ∧
  Forall (λ v, (String.length v ≤ MAX_SKILL_CAPABILITY_LENGTH)%nat ∧ is_capability v = true) values.
Lemma badly_named values : existsb (λ v, (MAX_SKILL_CAPABILITY_LENGTH <? String.length v)%nat || negb (is_capability v)) values = false ↔
  Forall (λ v, (String.length v ≤ MAX_SKILL_CAPABILITY_LENGTH)%nat ∧ is_capability v = true) values.
Proof.
  induction values as [|v values IH]; [done|]. cbn [existsb]. rewrite Forall_cons, orb_false_iff, IH, orb_false_iff, negb_false_iff, Nat.ltb_ge. done.
Qed.
Lemma normalizeCapabilityNames_iff values label l :
  normalizeCapabilityNames values label = Ok l ↔ capability_names values ∧ l = sort_str (uniq values).
Proof.
  unfold normalizeCapabilityNames, capability_names. rewrite <- badly_named, <- Nat.ltb_ge. split.
  - by intros (? & H1%throw_if_ok & (? & H2%throw_if_ok & [= <-])%res_bind_ok)%res_bind_ok.
  - intros [[-> ->] ->]. done.
Qed.

(** An execution host gets a set of requested capabilities back, sorted and without repetition, exactly when
    all three lists hold at most 64 well-formed names and every requested one was both declared and granted. *)
Theorem skill_capabilities_granted_iff required granted requested l :
  assertSkillCapabilitiesGranted required granted requested = Ok l ↔
  capability_names required ∧ capability_names granted ∧ capability_names requested ∧
  requested ⊆ required ∧ requested ⊆ granted ∧ l = sort_str (uniq requested).
Proof.
  unfold assertSkillCapabilitiesGranted. split.
  - intros (r & [Hr ->]%normalizeCapabilityNames_iff & (g & [Hg ->]%normalizeCapabilityNames_iff &
      (q & [Hq ->]%normalizeCapabilityNames_iff & Hrun)%res_bind_ok)%res_bind_ok)%res_bind_ok.
    destruct (list_find _ _) as [[n c]|] eqn:Hf; [done|]. injection Hrun as <-. apply list_find_None in Hf. rewrite Forall_forall in Hf.
    split_and!; [done|done|done| | |done]; intros c Hc.
    all: assert (Hc' : c ∈ sort_str (uniq requested)) by (by rewrite elem_of_sort_str, elem_of_uniq).
    all: specialize (Hf c Hc'); apply not_true_is_false, orb_false_iff in Hf as [H1 H2]; apply negb_false_iff in H1, H2.
    all: apply mem_true in H1, H2; by rewrite elem_of_sort_str, elem_of_uniq in H1, H2.
  - intros (Hr & Hg & Hq & Hsr & Hsg & ->).
    rewrite (proj2 (normalizeCapabilityNames_iff required _ _) (conj Hr eq_refl)).
    cbn. rewrite (proj2 (normalizeCapabilityNames_iff granted _ _) (conj Hg eq_refl)).
    cbn. rewrite (proj2 (normalizeCapabilityNames_iff requested _ _) (conj Hq eq_refl)). cbn.
    rewrite (proj2 (list_find_None _ _)); [done|]. apply Forall_forall. intros c Hc. rewrite elem_of_sort_str, elem_of_uniq in Hc.
    apply not_true_iff_false, orb_false_iff. split; apply negb_false_iff, mem_true; rewrite elem_of_sort_str, elem_of_uniq; auto.
Qed.

(** * Witnesses and schedules *)

Definition demo_laptop : Device :=
  {| v_id := "d1"; v_org := "o1"; v_name := "laptop"; v_os := "linux"; v_haraVersion := "1"; v_lastSeenAt := 0; v_enrollCode := None;
     v_person := None; revocationRequestedAt := None; revocationCompletedAt := None; deskProvisionedAt := None;
     deskCleanupPendingAt := None; deskOwner := None; deskOrigin := None |}.
Definition demo_bearer : DeviceToken :=
  {| k_device := "d1"; k_hash := "bearer"; k_gatewayKeyId := "g1"; k_model := "m"; k_reasoningEffort := "high"; k_expiresAt := None;
     k_revokedAt := None; k_budgetLimits := JNull; k_rpmLimit := None; k_tpmLimit := None; k_createdAt := 0 |}.
Definition demo_skill (i : string) (l : AssetLifecycle) : Asset :=
  {| as_id := i; as_org := "o1"; as_team := None; as_owner := Some "d1"; as_scope := PERSONAL; as_kind := SKILL; lifecycle := l;
     as_origin := AUTHORED; slug := "deploy"; as_title := "Deploy"; as_summary := None; as_lang := None; as_tags := ["ops"];
     promotedFrom := None; supersededBy := None; searchText := "deploy the service"; as_updatedAt := 5 |}.
Definition demo_version (l : AssetLifecycle) : AssetVersion :=
  {| ve_id := "v1"; ve_asset := "a1"; ve_body := "run deploy"; ve_hash := "run deploy"; ve_redactions := []; ve_device := Some "d1";
     ve_required := ["fs.read"; "net.fetch"]; ve_granted := if decide (l = PUBLISHED) then ["fs.read"] else [];
     ve_reviewedAt := if decide (l = PUBLISHED) then Some 5 else None; ve_createdAt := 5; ve_embedding := None |}.
Definition demo_assets (l : AssetLifecycle) : Session AssetDB :=
  {| db := {| ctl := {| orgs := []; persons := []; bindings := []; codes := []; devices := [demo_laptop]; tokens := [demo_bearer];
                        vault := {| Secrets.secrets := []; Secrets.systemAudits := [] |}; audits := [] |};
              assets := [demo_skill "a1" l]; versions := [demo_version l]; wall := 5 |};
     calls := 0 |}.
Definition no_licence_needed (k : string) : option string := if String.eqb k "HARA_LICENSE_DEV" then Some "1" else None.
Definition quiet (_ : nat) (d : AssetDB) : AssetDB := d.
Definition unfailing (_ : nat) : option exn := None.
Local Abbreviation demo_handle := (handle (λ b, b) Z.succ None (λ _ _ _ _, Ok []) no_licence_needed None quiet unfailing).

Lemma quiet_advances n d : assets_ok d → assets_ok (quiet n d) ∧ advances d (quiet n d).
Proof. intros Hd. split; [exact Hd|apply advances_refl]. Defined.
Lemma demo_assets_ok l : assets_ok (db (demo_assets l)).
Proof.
  split; [apply NoDup_singleton|apply NoDup_singleton| | |]; (apply Forall_singleton || (simpl; apply Forall_singleton)).
  - done.
  - done.
  - intros Hl. simpl in Hl. subst l. exists (demo_version PUBLISHED). split; [vm_compute; reflexivity|].
    split_and!; [by eexists| |done|vm_compute; reflexivity|vm_compute; reflexivity]. apply (bool_decide_unpack _). vm_compute. exact I.
Qed.

Lemma published_is_reviewed_witness : ∃ s,
  demo_handle (Review "a1" true ["fs.read"] 5) (demo_assets IN_REVIEW) = (Ok tt, s) ∧
  lifecycle <$> find_asset "a1" (db s) = Some PUBLISHED ∧ assets_ok (db s) ∧ advances (db (demo_assets IN_REVIEW)) (db s).
Proof.
  exists (demo_handle (Review "a1" true ["fs.read"] 5) (demo_assets IN_REVIEW)).2.
  split; [vm_compute; reflexivity|]. split; [vm_compute; reflexivity|].
  destruct (published_is_reviewed (λ b, b) Z.succ Z.lt_succ_diag_r None (λ _ _ _ _, Ok []) no_licence_needed None quiet unfailing
    quiet_advances (Review "a1" true ["fs.read"] 5) (demo_assets IN_REVIEW)) as [H1 H2].
  - discriminate.
  - apply demo_assets_ok.
  - split; [exact H1|exact (H2 eq_refl)].
Defined.
Lemma served_assets_reviewed_witness : ∃ view s',
  getAsset (λ b, b) no_licence_needed quiet unfailing (Some "bearer") "a1" 9 (demo_assets PUBLISHED) = (Ok view, s') ∧
  av_body view = "run deploy" ∧ scan_ok (av_body view) = true ∧ av_granted view ⊆ av_required view.
Proof.
  eexists _, _. split; [vm_compute; reflexivity|]. split; [reflexivity|].
  destruct (served_assets_reviewed (λ b, b) no_licence_needed quiet unfailing quiet_advances (Some "bearer") "a1" 9 (demo_assets PUBLISHED)
    {| av_id := "a1"; av_kind := SKILL; av_scope := PERSONAL; av_slug := "deploy"; av_body := "run deploy"; av_content_hash := "run deploy";
       av_required := ["fs.read"; "net.fetch"]; av_granted := ["fs.read"] |}
    {| db := db (demo_assets PUBLISHED); calls := 2 |}) as (k & dev & a & v & _ & _ & _ & _ & _ & _ & _ & _ & _ & _ & Hs & _ & Hg & _).
  - apply demo_assets_ok.
  - vm_compute. reflexivity.
  - split; [exact Hs|exact Hg].
Defined.
Lemma search_results_ranked_witness : ∃ hits,
  rank [demo_skill "a1" PUBLISHED; demo_skill "a2" PUBLISHED] ["a2"; "a1"] ["a2"] 1 = hits ∧ map (λ h, as_id (sh_asset h)) hits = ["a2"] ∧ (length hits ≤ 1)%nat.
Proof.
  eexists. split; [reflexivity|]. split; [vm_compute; reflexivity|].
  apply (search_results_ranked "o1" [demo_skill "a1" PUBLISHED; demo_skill "a2" PUBLISHED] ["a2"; "a1"] ["a2"] 1).
  - repeat constructor.
  - by apply (bool_decide_unpack _).
  - by apply (bool_decide_unpack _).
Defined.

(** While a promotion is between its two writes, a device contributes to the new copy and a reviewer publishes
    that contribution; the promotion then appends its own version, which nobody reviewed, to a published asset. *)
Definition meanwhile (n : nat) (d : AssetDB) : AssetDB :=
  if (n =? 4)%nat then
    db (demo_handle (Review "a2" true [] 6) (demo_handle (Contribute "a3" "v2" (Some "bearer")
      {| ci_kind := SKILL; ci_scope := ORG; ci_teamId := None; ci_slug := "deploy"; ci_title := None; ci_summary := None; ci_lang := None;
         ci_tags := None; ci_requiredCapabilities := None; ci_body := "hello" |} 6) {| db := d; calls := 0 |}).2).2
  else d.
Example promotion_overtaken :
  let '(r, s) := promote (λ b, b) Z.succ no_licence_needed None meanwhile unfailing "a2" "v3" "a1" ORG None 6 (demo_assets PUBLISHED) in
  r = Ok "a2" ∧ lifecycle <$> find_asset "a2" (db s) = Some PUBLISHED ∧
  (λ v, (ve_id v, ve_reviewedAt v)) <$> latest "a2" (db s) = Some ("v3", None).
Proof. vm_compute. done. Qed.
(** While the copy of a promotion, to which a device has contributed, is reviewed, the second write of the promotion
    lands between the review's reading and its publishing: what is published then is a version nobody reviewed. *)
Definition copied (n : nat) (d : AssetDB) : AssetDB :=
  if (n =? 2)%nat then (store_version (λ b, b) Z.succ "v3" "a2" "never reviewed" [] [] d).2 else d.
Definition under_review : Session AssetDB :=
  (demo_handle (Contribute "a2" "v2" (Some "bearer")
    {| ci_kind := SKILL; ci_scope := ORG; ci_teamId := None; ci_slug := "deploy"; ci_title := None; ci_summary := None; ci_lang := None;
       ci_tags := None; ci_requiredCapabilities := None; ci_body := "hello" |} 6) (demo_assets PUBLISHED)).2.
Example review_overtaken :
  let '(r, s) := review Z.succ None no_licence_needed None copied unfailing "a2" true [] 6 {| db := db under_review; calls := 0 |} in
  r = Ok PUBLISHED ∧ lifecycle <$> find_asset "a2" (db s) = Some PUBLISHED ∧
  (λ v, (ve_id v, ve_body v, ve_reviewedAt v)) <$> latest "a2" (db s) = Some ("v3", "never reviewed", None).
Proof. vm_compute. done. Qed.
(** Two contributions to a slot nobody has used yet, the second between the first one's reading and its writing: where
    there is no team, both make an asset. *)
Definition first_contribution : ContributeInput :=
  {| ci_kind := SNIPPET; ci_scope := ORG; ci_teamId := None; ci_slug := "new"; ci_title := None; ci_summary := None; ci_lang := None;
     ci_tags := None; ci_requiredCapabilities := None; ci_body := "hello" |}.
Definition also (n : nat) (d : AssetDB) : AssetDB :=
  if (n =? 4)%nat then db (demo_handle (Contribute "a3" "v3" (Some "bearer") first_contribution 6) {| db := d; calls := 0 |}).2 else d.
Example contribution_forks :
  let '(r, s) := contribute (λ b, b) Z.succ no_licence_needed None also unfailing "a2" "v2" (Some "bearer") first_contribution 6 (demo_assets PUBLISHED) in
  is_ok r = true ∧ (λ a, (as_id a, as_team a, slug a)) <$> assets (db s) = [("a1", None, "deploy"); ("a3", None, "new"); ("a2", None, "new")].
Proof. vm_compute. done. Qed.
(** Without a team two promotions make two assets for the same slot, and the scope need not rise. *)
Example promotion_forks :
  let s := (demo_handle (Promote "a3" "v3" "a1" PERSONAL None 6) (demo_handle (Promote "a2" "v2" "a1" PERSONAL None 6) (demo_assets PUBLISHED)).2).2 in
  (λ a, (as_id a, as_scope a, as_team a, slug a)) <$> assets (db s) =
    [("a1", PERSONAL, None, "deploy"); ("a2", PERSONAL, None, "deploy"); ("a3", PERSONAL, None, "deploy")].
Proof. vm_compute. done. Qed.
