(* ===== verification/Learnings.v ===== *)
(** Reviewed business learning ([src/learnings/learnings.service.ts]): devices submit candidates with evidence,
    administrators approve, reject and revoke them, and the approved bundle carries a version. A request runs as
    in [Session]; each attempt of a serializable transaction is one call. [clock k] is the time an attempt reads. *)
From S2P Require Import Prelude Js Table Regex AuditStore Crypto Access KeyPolicy ControlDb Session.
Local Open Scope Z_scope.

(** * Data *)

Inductive LearningKind := BUSINESS_RULE | USER_PREFERENCE | WORKFLOW | CORRECTION | FAILURE_PATTERN | ACTION_OWNERSHIP.
Inductive LearningStatus := PENDING | APPROVED | REJECTED | REVOKED.
#[export] Instance LearningKind_eq_dec : EqDecision LearningKind.
Proof. solve_decision. Defined.
#[export] Instance LearningStatus_eq_dec : EqDecision LearningStatus.
Proof. solve_decision. Defined.
Definition KIND_TO_WIRE (k : LearningKind) : string :=
  match k with
  | BUSINESS_RULE => "business_rule" | USER_PREFERENCE => "user_preference" | WORKFLOW => "workflow"
  | CORRECTION => "correction" | FAILURE_PATTERN => "failure_pattern" | ACTION_OWNERSHIP => "action_ownership"
  end.
Definition status_str (s : LearningStatus) : string :=
  match s with PENDING => "PENDING" | APPROVED => "APPROVED" | REJECTED => "REJECTED" | REVOKED => "REVOKED" end.
(** The order of the enums in the database. *)
Definition kind_index (k : LearningKind) : Z :=
  match k with
  | BUSINESS_RULE => 0 | USER_PREFERENCE => 1 | WORKFLOW => 2 | CORRECTION => 3 | FAILURE_PATTERN => 4 | ACTION_OWNERSHIP => 5
  end.
Definition status_index (s : LearningStatus) : Z := match s with PENDING => 0 | APPROVED => 1 | REJECTED => 2 | REVOKED => 3 end.

Record Candidate := {
  c_id : string; c_org : string; patternKey : string; c_kind : LearningKind; c_summary : string; c_rationale : option string;
  pendingSummary : option string; pendingRationale : option string; pendingAt : option Z; c_status : LearningStatus;
  occurrenceCount : Z; distinctTaskCount : Z; revision : Z; c_sourceVersion : string; reviewedAt : option Z;
  reviewedBy : option string; reviewNote : option string; c_createdAt : Z; c_updatedAt : Z }.
Record Observation := {
  o_id : string; o_candidate : string; o_org : string; o_device : string; clientId : string; taskHash : string;
  fingerprint : string; o_summary : string; o_source : string; o_sourceVersion : string; observedAt : Z }.
(** [watermarks]: the [learningVersion] of each organization. *)
Record LearnDB := { ctl : ControlDB; watermarks : list (string * Z); candidates : list Candidate; observations : list Observation }.
#[export] Instance learn_audit : AuditStore LearnDB := {
  trail d := trail (ctl d);
  record_event ev d := {| ctl := record_event ev (ctl d); watermarks := watermarks d; candidates := candidates d; observations := observations d |};
  trail_record ev d := trail_record ev (ctl d) }.
Definition on_candidates (f : list Candidate → list Candidate) (d : LearnDB) : LearnDB :=
  {| ctl := ctl d; watermarks := watermarks d; candidates := f (candidates d); observations := observations d |}.
Definition on_observations (f : list Observation → list Observation) (d : LearnDB) : LearnDB :=
  {| ctl := ctl d; watermarks := watermarks d; candidates := candidates d; observations := f (observations d) |}.
Definition find_candidate (i : string) (d : LearnDB) : option Candidate := find_by c_id i (candidates d).

(** The requests, as the DTOs leave them; an [observed_at] that is no [Date] is [None]. *)
Record Evidence := {
  e_taskHash : string; e_fingerprint : string; e_summary : string; e_source : string; e_sourceVersion : string;
  e_observedAt : option Z }.
Record SubmitInput := {
  si_client : string; si_pattern : string; si_kind : LearningKind; si_summary : string; si_rationale : option string;
  si_sourceVersion : string; si_evidence : list Evidence }.
Inductive Decision := Approve | Reject | Revoke.
Record ReviewInput := { decision : Decision; expected_revision : Z; note : option string }.
Definition decision_str (d : Decision) : string := match d with Approve => "approve" | Reject => "reject" | Revoke => "revoke" end.

Record PublicCandidate := {
  p_id : string; pattern_key : string; p_kind : string; p_summary : string; p_rationale : option string;
  pending_summary : option string; pending_rationale : option string; p_status : string; occurrence_count : Z;
  distinct_task_count : Z; promotion_ready : bool; p_revision : Z; source_version : string; reviewed_at : option string;
  reviewed_by : option string; review_note : option string; created_at : string; updated_at : string }.
Definition publicCandidate (c : Candidate) : PublicCandidate :=
  {| p_id := c_id c; pattern_key := patternKey c; p_kind := KIND_TO_WIRE (c_kind c); p_summary := c_summary c;
     p_rationale := c_rationale c; pending_summary := pendingSummary c; pending_rationale := pendingRationale c;
     p_status := toLowerCase (status_str (c_status c)); occurrence_count := occurrenceCount c;
     distinct_task_count := distinctTaskCount c; promotion_ready := (3 <=? occurrenceCount c) && (2 <=? distinctTaskCount c);
     p_revision := revision c; source_version := c_sourceVersion c; reviewed_at := toISOString <$> reviewedAt c;
     reviewed_by := reviewedBy c; review_note := reviewNote c; created_at := toISOString (c_createdAt c);
     updated_at := toISOString (c_updatedAt c) |}.
Record LearningEntry := {
  le_id : string; le_pattern : string; le_kind : string; le_summary : string; le_rationale : option string;
  le_occurrences : Z; le_tasks : Z; le_revision : Z; le_updated_at : string }.
Record Bundle := { version : Z; learnings : list LearningEntry }.
Record ObservationView := { ov_id : string; ov_summary : string; ov_source : string; ov_version : string; ov_observed_at : string }.

(** * Text that may be stored *)

Definition token_char (c : ascii) : bool := is_alnum c || is_char "._~+/=-" c.
Definition letter (c : ascii) : bool := is_upper c || is_lower c.
Definition quote_char (c : ascii) : bool := (code c =? 34)%nat || is_char "'" c.
Definition maybe_words (l : list string) : rx := Alt (alts (map lit l)) Eps.
Definition UNSAFE_TEXT : list (rx * string) :=
  [(cats [Wordb; lit_cs "sk-"; Rep 8 (λ c, is_alnum c || is_char "_-" c); Wordb], "API credential");
   (cats [Wordb; alts [lit "Bearer"; lit "Basic"]; Rep 1 is_ws; Rep 12 token_char], "authorization credential");
   (cats [lit_cs "-----BEGIN "; Rep 0 (λ c, is_upper c || is_char " " c); lit_cs "PRIVATE KEY-----"], "private key");
   (cats [alts [cats [lit "api"; Opt (is_char "_ -"); lit "key"]; lit "token"; lit "password"; lit "secret"]; Rep 0 is_ws;
          Cls (is_char ":="); Rep 0 is_ws; Opt quote_char; NotAhead (alts [lit "***"; lit "<redacted>"]); Rep 8 token_char],
    "inline credential");
   (cats [lit_cs "/Users/"; Rep 1 (λ c, negb (is_char "/" c || is_ws c))], "local user path");
   (cats [lit_cs "/home/"; Rep 1 (λ c, negb (is_char "/" c || is_ws c))], "local user path");
   (cats [Wordb; Cls letter; lit_cs ":\Users\"; Rep 1 (λ c, negb (is_char "\" c || is_ws c))], "local user path");
   (cats [Rep 1 (λ c, is_alnum c || is_char "._%+-" c); lit_cs "@"; Rep 1 (λ c, is_alnum c || is_char ".-" c); lit_cs ".";
          Rep 2 letter], "personal contact data");
   (cats [lit "ignore "; maybe_words ["all "; "your "]; alts [lit "previous"; lit "prior"; lit "above"]; lit " ";
          alts [lit "instructions"; Cat (lit "prompt") (Opt (ci "s"))]], "prompt injection");
   (cats [lit "disregard "; maybe_words ["your "; "the "];
          alts [lit "system prompt"; lit "instructions"; lit "rules"; lit "guidelines"]], "prompt injection");
   (cats [Wordb; lit "file://"; Opt (Ascii.eqb "/"); Rep 1 (λ c, negb (is_ws c))], "local file URL");
   (Cls (λ c, in_range 0 8 c || in_range 11 12 c || in_range 14 31 c || in_range 127 127 c), "control character")].
(** [replace(/\r\n?/g, "\n")] *)
Fixpoint unix_newlines (l : list ascii) : list ascii :=
  match l with
  | [] => []
  | c :: l' =>
      if (code c =? 13)%nat
      then ascii_of_nat 10 :: match l' with c' :: l'' => if (code c' =? 10)%nat then unix_newlines l'' else unix_newlines l' | [] => [] end
      else c :: unix_newlines l'
  end.
Definition unsafe_finding (s : string) : option string := (λ p, p.2.2) <$> list_find (λ p, test p.1 s = true) UNSAFE_TEXT.
Definition safeText (value : option string) (label : string) : res (option string) :=
  match value with
  | None => Ok None
  | Some v =>
      let normalized := trim (str (unix_newlines (chars v))) in
      if negb (truthy normalized) then Ok None
      else match unsafe_finding normalized with
           | Some finding => Throw (BadRequestException (label +:+ " contains " +:+ finding +:+ "; redact it before submission"))
           | None => Ok (Some normalized)
           end
  end.
Definition requiredSafeText (value label : string) : res string :=
  safe ← safeText (Some value) label;
  match safe with Some s => Ok s | None => Throw (BadRequestException (label +:+ " is required")) end.

Definition MAX_OBSERVATIONS_PER_CANDIDATE : nat := 5000.
Definition RECURRENCE_WINDOW_MS : Z := 30 * 24 * 60 * 60 * 1000.
Definition FUTURE_CLOCK_SKEW_MS : Z := 5 * 60 * 1000.

(** * The service *)

Section service.
Context (sha256 : string → string) (clock : nat → Z) (collate : string → string → bool).
Context (e : env) (licence : option License.LicenseClaims).
Context (others : nat → LearnDB → LearnDB) (fails : nat → option exn).
Local Abbreviation State := (Session LearnDB).

Definition entitled (nowSec : Z) : M State unit := lift (License.assert_feature e licence nowSec "agent-org").
Definition deviceIdentity (bearer : option string) (now : Z) : M State (string * string) :=
  _ ← guard_throw (absent bearer) (UnauthorizedException "missing token");
  found ← call others fails (gets (λ d, (λ k, (k, find_device (ctl d) (k_device k))) <$> find_by k_hash (sha256 (nullish bearer "")) (tokens (ctl d))));
  _ ← lift (Token.assertTokenUsable ((λ kv, {| Token.revokedAt := k_revokedAt kv.1; Token.expiresAt := k_expiresAt kv.1 |}) <$> found) now e None);
  v ← require (kv ← found; kv.2) (UnauthorizedException "device identity is unavailable");
  mret (v_id v, v_org v).
(** Up to three attempts; a conflict reported on the third is thrown. *)
Fixpoint serializable_from {T} (left attempt : nat) (operation : Z → M LearnDB T) : M State T :=
  match left with
  | O => raise (ConflictException "learning update conflicted; retry")
  | S left' =>
      try_catch (call others fails (transaction (operation (clock attempt))))
        (λ er, if negb (bool_decide (er = PrismaError "P2034")) || (attempt =? 2)%nat then raise er
               else serializable_from left' (S attempt) operation)
  end.
Definition serializable {T} (operation : Z → M LearnDB T) : M State T := serializable_from 3 0 operation.

(** ** Submission *)

Definition same_pattern (org key : string) (k : LearningKind) (c : Candidate) : bool :=
  String.eqb (c_org c) org && String.eqb (patternKey c) key && bool_decide (c_kind c = k).
Definition new_candidate (ci org : string) (i : SubmitInput) (summary : string) (rationale : option string) (t : Z) : Candidate :=
  {| c_id := ci; c_org := org; patternKey := si_pattern i; c_kind := si_kind i; c_summary := summary; c_rationale := rationale;
     pendingSummary := None; pendingRationale := None; pendingAt := None; c_status := PENDING; occurrenceCount := 0;
     distinctTaskCount := 0; revision := 1; c_sourceVersion := si_sourceVersion i; reviewedAt := None; reviewedBy := None;
     reviewNote := None; c_createdAt := t; c_updatedAt := t |}.
Definition create_candidate (c : Candidate) : M LearnDB Candidate := λ d,
  if isSome (find_candidate (c_id c) d) then (Throw (PrismaError "P2002"), d) else (Ok c, on_candidates (λ l, l ++ [c]) d).
Definition upsert_candidate (ci org : string) (i : SubmitInput) (summary : string) (rationale : option string) (t : Z) : M LearnDB Candidate :=
  existing ← gets (λ d, snd <$> list_find (λ c, same_pattern org (si_pattern i) (si_kind i) c = true) (candidates d));
  match existing with Some c => mret c | None => create_candidate (new_candidate ci org i summary rationale t) end.
(** [update({ where: { id }, data })] *)
Definition update_candidate (i : string) (f : Candidate → Candidate) : M LearnDB Candidate := λ d,
  match find_candidate i d with
  | Some c => (Ok (f c), on_candidates (update_by c_id i f) d)
  | None => (Throw (PrismaError "P2025"), d)
  end.
(** The proposal of a candidate nobody decided on replaces its text; otherwise it waits beside the text. *)
Definition proposed (summary : string) (rationale : option string) (source : string) (t : Z) (c : Candidate) : Candidate :=
  {| c_id := c_id c; c_org := c_org c; patternKey := patternKey c; c_kind := c_kind c; c_summary := summary; c_rationale := rationale;
     pendingSummary := pendingSummary c; pendingRationale := pendingRationale c; pendingAt := pendingAt c; c_status := c_status c;
     occurrenceCount := occurrenceCount c; distinctTaskCount := distinctTaskCount c; revision := revision c; c_sourceVersion := source;
     reviewedAt := reviewedAt c; reviewedBy := reviewedBy c; reviewNote := reviewNote c; c_createdAt := c_createdAt c; c_updatedAt := t |}.
Definition put_aside (summary : string) (rationale : option string) (source : string) (t : Z) (c : Candidate) : Candidate :=
  {| c_id := c_id c; c_org := c_org c; patternKey := patternKey c; c_kind := c_kind c; c_summary := c_summary c; c_rationale := c_rationale c;
     pendingSummary := Some summary; pendingRationale := rationale; pendingAt := Some t; c_status := c_status c;
     occurrenceCount := occurrenceCount c; distinctTaskCount := distinctTaskCount c; revision := revision c; c_sourceVersion := source;
     reviewedAt := reviewedAt c; reviewedBy := reviewedBy c; reviewNote := reviewNote c; c_createdAt := c_createdAt c; c_updatedAt := t |}.
Definition counted (occurrences tasks : Z) (source : string) (t : Z) (c : Candidate) : Candidate :=
  {| c_id := c_id c; c_org := c_org c; patternKey := patternKey c; c_kind := c_kind c; c_summary := c_summary c; c_rationale := c_rationale c;
     pendingSummary := pendingSummary c; pendingRationale := pendingRationale c; pendingAt := pendingAt c; c_status := c_status c;
     occurrenceCount := occurrences; distinctTaskCount := tasks; revision := revision c; c_sourceVersion := source;
     reviewedAt := reviewedAt c; reviewedBy := reviewedBy c; reviewNote := reviewNote c; c_createdAt := c_createdAt c; c_updatedAt := t |}.

Definition of_candidate (i : string) (d : LearnDB) : list Observation := filter (λ o, o_candidate o = i) (observations d).
(** The unique key of an observation, and [createMany({ skipDuplicates: true })]. *)
Definition same_receipt (a b : Observation) : bool :=
  String.eqb (o_device a) (o_device b) && String.eqb (clientId a) (clientId b) && String.eqb (fingerprint a) (fingerprint b).
Definition add_observation (l : list Observation) (o : Observation) : list Observation :=
  if existsb (same_receipt o) l then l else l ++ [o].
Definition observation (ids : nat → string) (candidate org device client : string) (n : nat) (ev : Evidence) (t : Z) : Observation :=
  {| o_id := ids n; o_candidate := candidate; o_org := org; o_device := device; clientId := client; taskHash := e_taskHash ev;
     fingerprint := e_fingerprint ev; o_summary := e_summary ev; o_source := e_source ev; o_sourceVersion := e_sourceVersion ev;
     observedAt := t |}.
(** A row whose date is invalid is refused by the client before the insert. *)
Definition create_observations (ids : nat → string) (candidate org device client : string) (l : list Evidence) : M LearnDB unit :=
  if forallb (λ ev, isSome (e_observedAt ev)) l
  then modify (on_observations (λ k, foldl add_observation k
    (imap (λ n ev, observation ids candidate org device client n ev (nullish (e_observedAt ev) 0)) l)))
  else raise (Error "PrismaClientValidationError").
Definition recent (since : Z) (l : list Observation) : list Observation := filter (λ o, (since <=? observedAt o) = true) l.
Definition submit_rows (ci : string) (ids : nat → string) (org device : string) (i : SubmitInput) (summary : string)
    (rationale : option string) (evidence : list Evidence) (t : Z) : M LearnDB Candidate :=
  c ← upsert_candidate ci org i summary rationale t;
  c ← (if negb (String.eqb (c_summary c) summary) || negb (bool_decide (c_rationale c = rationale)) then
         if bool_decide (c_status c = PENDING)
         then update_candidate (c_id c) (proposed summary rationale (si_sourceVersion i) t)
         else update_candidate (c_id c) (put_aside summary rationale (si_sourceVersion i) t)
       else mret c);
  existingCount ← gets (λ d, length (of_candidate (c_id c) d));
  _ ← guard_throw (MAX_OBSERVATIONS_PER_CANDIDATE <=? existingCount)%nat
        (BadRequestException "learning candidate reached its bounded evidence capacity");
  _ ← create_observations ids (c_id c) org device (si_client i) (take (MAX_OBSERVATIONS_PER_CANDIDATE - existingCount) evidence);
  l ← gets (λ d, recent (t - RECURRENCE_WINDOW_MS) (of_candidate (c_id c) d));
  update_candidate (c_id c) (counted (Z.of_nat (length l)) (Z.of_nat (length (uniq (map taskHash l)))) (si_sourceVersion i) t).
Definition safe_evidence (ev : Evidence) : res Evidence :=
  summary ← requiredSafeText (e_summary ev) "evidence summary";
  Ok {| e_taskHash := e_taskHash ev; e_fingerprint := e_fingerprint ev; e_summary := summary; e_source := e_source ev;
        e_sourceVersion := e_sourceVersion ev; e_observedAt := e_observedAt ev |}.
Definition log (org action actorType actor : string) (p : payload_arg) : M State unit :=
  call others fails (audit_log org action actorType actor p).
Definition int (z : Z) : option json := Some (JNum (inject_Z z)).
Definition submit (ci : string) (ids : nat → string) (bearer : option string) (i : SubmitInput) (now : Z) : M State PublicCandidate :=
  identity ← deviceIdentity bearer now;
  let '(device, org) := identity in
  _ ← entitled (now / 1000);
  summary ← lift (requiredSafeText (si_summary i) "summary");
  rationale ← lift (safeText (si_rationale i) "rationale");
  evidence ← lift (mapR safe_evidence (si_evidence i));
  _ ← guard_throw (existsb (λ ev, match e_observedAt ev with Some t => now + FUTURE_CLOCK_SKEW_MS <? t | None => false end) evidence)
        (BadRequestException "evidence timestamp is too far in the future");
  c ← serializable (submit_rows ci ids org device i summary rationale evidence);
  _ ← log org "learning.candidate.submit" "device" device
        [("candidateId", some_str (c_id c)); ("occurrenceCount", int (occurrenceCount c));
         ("distinctTaskCount", int (distinctTaskCount c));
         ("hasPendingUpdate", Some (JBool (truthy (nullish (pendingSummary c) ""))))];
  mret (publicCandidate c).

(** ** Reading *)

Definition watermark (org : string) (d : LearnDB) : option Z := assoc org (watermarks d).
Definition entry (c : Candidate) : LearningEntry :=
  {| le_id := c_id c; le_pattern := patternKey c; le_kind := KIND_TO_WIRE (c_kind c); le_summary := c_summary c;
     le_rationale := c_rationale c; le_occurrences := occurrenceCount c; le_tasks := distinctTaskCount c; le_revision := revision c;
     le_updated_at := toISOString (c_updatedAt c) |}.
Definition is_active (org : string) (c : Candidate) : bool := String.eqb (c_org c) org && bool_decide (c_status c = APPROVED).
Definition approved_entries (org : string) (d : LearnDB) : list LearningEntry :=
  map entry (stable_sort (λ a b, (kind_index (c_kind a) <? kind_index (c_kind b))
      || ((kind_index (c_kind a) =? kind_index (c_kind b)) && collate (patternKey a) (patternKey b)))
    (filter (λ c, is_active org c = true) (candidates d))).
(** [Promise.all]: the two queries run in either order. *)
Definition bundle (version_first : bool) (bearer : option string) (now : Z) : M State Bundle :=
  identity ← deviceIdentity bearer now;
  let org := identity.2 in
  _ ← entitled (now / 1000);
  both ← (if version_first
          then v ← call others fails (gets (watermark org)); l ← call others fails (gets (approved_entries org)); mret (v, l)
          else l ← call others fails (gets (approved_entries org)); v ← call others fails (gets (watermark org)); mret (v, l));
  v ← require both.1 (NotFoundException "organization not found");
  mret {| version := v; learnings := both.2 |}.
Definition preview (i : string) (d : LearnDB) : list ObservationView :=
  map (λ o, {| ov_id := o_id o; ov_summary := o_summary o; ov_source := o_source o; ov_version := o_sourceVersion o;
               ov_observed_at := toISOString (observedAt o) |})
    (take 8 (sort_by (λ o, - observedAt o) (of_candidate i d))).
Definition STATUS_VALUES : list string := map status_str [PENDING; APPROVED; REJECTED; REVOKED].
(** [value.toUpperCase()] *)
Definition toUpperCase (s : string) : string := str (map (λ c, if is_lower c then ascii_of_nat (code c - 32) else c) (chars s)).
Definition list_candidates (org : string) (status : option string) (nowSec : Z) : M State (list (PublicCandidate * list ObservationView)) :=
  _ ← entitled nowSec;
  let wanted := toUpperCase (nullish status "") in
  _ ← guard_throw (truthy wanted && negb (mem wanted STATUS_VALUES)) (BadRequestException "invalid learning status");
  call others fails (gets (λ d, map (λ c, (publicCandidate c, preview (c_id c) d))
    (take 1000 (stable_sort (λ a b, (status_index (c_status a) <? status_index (c_status b))
        || ((status_index (c_status a) =? status_index (c_status b)) && (c_updatedAt b <? c_updatedAt a)))
      (filter (λ c, String.eqb (c_org c) org && (negb (truthy wanted) || String.eqb (status_str (c_status c)) wanted) = true) (candidates d)))))).

(** ** Review *)

Definition settled (s : LearningStatus) (summary : string) (rationale : option string) (c : Candidate) : Candidate :=
  {| c_id := c_id c; c_org := c_org c; patternKey := patternKey c; c_kind := c_kind c; c_summary := summary; c_rationale := rationale;
     pendingSummary := None; pendingRationale := None; pendingAt := None; c_status := s; occurrenceCount := occurrenceCount c;
     distinctTaskCount := distinctTaskCount c; revision := revision c; c_sourceVersion := c_sourceVersion c; reviewedAt := reviewedAt c;
     reviewedBy := reviewedBy c; reviewNote := reviewNote c; c_createdAt := c_createdAt c; c_updatedAt := c_updatedAt c |}.
Definition signed (now : Z) (email : string) (note : option string) (t : Z) (c : Candidate) : Candidate :=
  {| c_id := c_id c; c_org := c_org c; patternKey := patternKey c; c_kind := c_kind c; c_summary := c_summary c; c_rationale := c_rationale c;
     pendingSummary := pendingSummary c; pendingRationale := pendingRationale c; pendingAt := pendingAt c; c_status := c_status c;
     occurrenceCount := occurrenceCount c; distinctTaskCount := distinctTaskCount c; revision := revision c + 1;
     c_sourceVersion := c_sourceVersion c; reviewedAt := Some now; reviewedBy := Some email; reviewNote := note;
     c_createdAt := c_createdAt c; c_updatedAt := t |}.
(** The decision on a candidate: whether the active bundle changes, and the candidate's new columns. *)
Definition decide_candidate (d : Decision) (c : Candidate) : res (bool * Candidate) :=
  match d with
  | Approve =>
      let summary := nullish (pendingSummary c) (c_summary c) in
      let rationale := if truthy (nullish (pendingSummary c) "") then pendingRationale c else c_rationale c in
      Ok (negb (bool_decide (c_status c = APPROVED)) || negb (String.eqb summary (c_summary c)) || negb (bool_decide (rationale = c_rationale c)),
          settled APPROVED summary rationale c)
  | Reject =>
      if bool_decide (c_status c = APPROVED) then
        _ ← throw_if (absent (pendingSummary c)) (BadRequestException "approved learning has no pending update to reject; revoke it instead");
        Ok (false, settled APPROVED (c_summary c) (c_rationale c) c)
      else Ok (false, settled REJECTED (c_summary c) (c_rationale c) c)
  | Revoke =>
      _ ← throw_if (negb (bool_decide (c_status c = APPROVED))) (BadRequestException "only approved learning can be revoked");
      Ok (true, settled REVOKED (c_summary c) (c_rationale c) c)
  end.
Definition set_watermark (org : string) (v : Z) (d : LearnDB) : LearnDB :=
  {| ctl := ctl d; watermarks := obj_set org v (watermarks d); candidates := candidates d; observations := observations d |}.
Definition increment_watermark (org : string) : M LearnDB Z := λ d,
  match watermark org d with
  | Some v => (Ok (v + 1), set_watermark org (v + 1) d)
  | None => (Throw (PrismaError "P2025"), d)
  end.
Record ReviewResult := { updated : Candidate; rr_org : string; learningVersion : Z; activeChanged : bool }.
Definition review_rows (i : string) (input : ReviewInput) (email : string) (now t : Z) : M LearnDB ReviewResult :=
  found ← gets (find_candidate i);
  current ← require found (NotFoundException "learning candidate not found");
  _ ← guard_throw (negb (revision current =? expected_revision input))
        (ConflictException ("learning candidate changed (current revision " +:+ pretty (revision current) +:+ ")"));
  decided ← lift (decide_candidate (decision input) current);
  let '(changed, next) := decided in
  let note := if absent (trim <$> note input) then None else trim <$> note input in
  c ← update_candidate i (λ _, signed now email note t next);
  v ← (if (changed : bool) then increment_watermark (c_org current)
       else w ← gets (watermark (c_org current)); mret (nullish w 0));
  mret {| updated := c; rr_org := c_org current; learningVersion := v; activeChanged := changed |}.
Definition review (i : string) (input : ReviewInput) (actor email : string) (now : Z) : M State (PublicCandidate * Z) :=
  _ ← entitled (now / 1000);
  r ← serializable (review_rows i input email now);
  _ ← log (rr_org r) ("learning.candidate." +:+ decision_str (decision input)) "admin" actor
        [("candidateId", some_str (c_id (updated r))); ("revision", int (revision (updated r)));
         ("activeChanged", Some (JBool (activeChanged r))); ("learningVersion", int (learningVersion r))];
  mret (publicCandidate (updated r), learningVersion r).
Definition candidateOrgId (i : string) (nowSec : Z) : M State string :=
  _ ← entitled nowSec;
  found ← call others fails (gets (find_candidate i));
  c ← require found (NotFoundException "learning candidate not found");
  mret (c_org c).
(** The admin routes: [review] after the tenant check of the controller. *)
Definition review_route (user : Guard.AuthedUser) (i : string) (input : ReviewInput) (now now' : Z) : M State (PublicCandidate * Z) :=
  org ← candidateOrgId i (now / 1000);
  _ ← lift (Guard.assertAdminOrgAccess user org);
  review i input (Guard.id user) (Guard.email user) now'.
End service.

(** * The invariant of the tables *)

(** Text that passed the guard. *)
Definition safe (s : string) : Prop := s ≠ "" ∧ unsafe_finding s = None.
Definition safe_opt (o : option string) : Prop := ∀ s, o = Some s → safe s.
Definition safe_candidate (c : Candidate) : Prop :=
  safe (c_summary c) ∧ safe_opt (c_rationale c) ∧ safe_opt (pendingSummary c) ∧ safe_opt (pendingRationale c).
Record learn_ok (d : LearnDB) : Prop := {
  candidate_ids : NoDup (map c_id (candidates d));
  candidates_safe : Forall safe_candidate (candidates d);
  observations_safe : Forall (λ o, safe (o_summary o)) (observations d);
  evidence_bounded : ∀ i, (length (of_candidate i d) ≤ MAX_OBSERVATIONS_PER_CANDIDATE)%nat }.

(** What the approved bundle of an organization tells its devices. *)
Definition text (c : Candidate) : string * string * LearningKind * string * option string :=
  (c_id c, patternKey c, c_kind c, c_summary c, c_rationale c).
Definition active_of (org : string) (c : Candidate) : list (string * string * LearningKind * string * option string) :=
  if is_active org c then [text c] else [].
Definition active (org : string) (d : LearnDB) : list (string * string * LearningKind * string * option string) :=
  concat (map (active_of org) (candidates d)).
(** The version of an organization never falls, and while it is the same so are its active learnings. *)
Definition tracks (d d' : LearnDB) : Prop := ∀ org v, watermark org d = Some v →
  ∃ v', watermark org d' = Some v' ∧ v ≤ v' ∧ (v' = v → active org d' = active org d).
(** No version and no active learning changes. *)
Definition frozen (d d' : LearnDB) : Prop := ∀ org, watermark org d' = watermark org d ∧ active org d' = active org d.

#[export] Instance tracks_preorder : PreOrder tracks.
Proof.
  split.
  - intros d org v Hv. exists v. auto with lia.
  - intros d1 d2 d3 H12 H23 org v (v2 & H2 & Hle & Ha)%H12. apply H23 in H2 as (v3 & H3 & Hle' & Ha').
    exists v3. split; [done|]. split; [lia|]. intros ->. rewrite Ha', Ha; [done|lia|lia].
Qed.
#[export] Instance frozen_preorder : PreOrder frozen.
Proof.
  split; [by intros d org|]. intros d1 d2 d3 H12 H23 org. destruct (H23 org) as [-> ->]. apply H12.
Qed.
Lemma frozen_tracks d d' : frozen d d' → tracks d d'.
Proof. intros H org v Hv. destruct (H org) as [Hw Ha]. exists v. rewrite Hw. auto with lia. Qed.

Lemma safeText_ok v label o : safeText v label = Ok o → safe_opt o.
Proof.
  unfold safeText. destruct v as [v|]; [|by intros [= <-]]. cbv zeta. destruct (negb (truthy _)) eqn:Ht; [by intros [= <-]|].
  destruct (unsafe_finding _) eqn:Hu; [done|]. intros [= <-] s [= <-]. split; [|done]. apply negb_false_iff, truthy_true in Ht. done.
Qed.
Lemma requiredSafeText_ok v label s : requiredSafeText v label = Ok s → safe s.
Proof. intros ([s'|] & Hs & [= <-])%res_bind_ok. by apply (safeText_ok _ _ _ Hs). Qed.

(** Updating one candidate. *)
Lemma update_row i d c : NoDup (map c_id (candidates d)) → find_candidate i d = Some c →
  ∀ x, x ∈ candidates d → c_id x = i → x = c.
Proof.
  intros Hn Hc x Hx Hi. assert (find_candidate i d = Some x) by by apply find_by_unique. congruence.
Qed.
Lemma active_update org i f d c : NoDup (map c_id (candidates d)) → find_candidate i d = Some c →
  active_of org (f c) = active_of org c → active org (on_candidates (update_by c_id i f) d) = active org d.
Proof.
  intros Hn Hc Hf. unfold active, on_candidates, update_by. cbn [candidates]. rewrite map_map. f_equal.
  apply map_ext_in. intros x Hx%list_elem_of_In. case_decide as Hi; [|done].
  by rewrite (update_row i d c Hn Hc x Hx Hi).
Qed.
Lemma update_ok i f d c : find_candidate i d = Some c → c_id (f c) = c_id c → safe_candidate (f c) → learn_ok d →
  learn_ok (on_candidates (update_by c_id i f) d).
Proof.
  intros Hc Hid Hs [Hn Hcs Hos Hb]. pose proof (update_row i d c Hn Hc) as Hrow. split; cbn [candidates on_candidates]; [| |done|done].
  - unfold update_by. rewrite map_map. erewrite map_ext_in; [exact Hn|]. intros x Hx%list_elem_of_In. simpl. case_decide as Hi; [|done].
    by rewrite (Hrow x Hx Hi).
  - apply Forall_forall. intros y (x & Hx & ->)%elem_of_update_by. rewrite Forall_forall in Hcs. case_decide as Hi; [|auto].
    by rewrite (Hrow x Hx Hi).
Qed.
Lemma update_frozen i f d c : find_candidate i d = Some c → c_id (f c) = c_id c → safe_candidate (f c) →
  (∀ org, active_of org (f c) = active_of org c) → learn_ok d →
  learn_ok (on_candidates (update_by c_id i f) d) ∧ frozen d (on_candidates (update_by c_id i f) d).
Proof.
  intros Hc Hid Hs Ha Hd. split; [by eapply update_ok|]. intros org. split; [done|]. eapply active_update; [apply Hd|done|done].
Qed.
Lemma find_candidate_update i f d c : find_candidate i d = Some c → (∀ x, c_id (f x) = c_id x) →
  find_candidate i (on_candidates (update_by c_id i f) d) = Some (f c).
Proof.
  intros Hc Hf. unfold find_candidate in *. cbn [candidates on_candidates]. rewrite find_by_update by done. by rewrite decide_True, Hc.
Qed.

(** ** Evidence *)

Lemma add_observation_bound (P : Observation → Prop) l k :
  Forall P l → Forall P k → Forall P (foldl add_observation l k).
Proof.
  revert l. induction k as [|o k IH]; intros l Hl Hk; [done|]. apply Forall_cons in Hk as [Ho Hk]. cbn [foldl]. apply IH; [|done].
  unfold add_observation. destruct (existsb _ _); [done|]. by apply Forall_snoc_intro.
Qed.
Lemma add_observation_other i l k : Forall (λ o, o_candidate o ≠ i) k →
  filter (λ o, o_candidate o = i) (foldl add_observation l k) = filter (λ o, o_candidate o = i) l.
Proof.
  revert l. induction k as [|o k IH]; intros l Hk; [done|]. apply Forall_cons in Hk as [Ho Hk]. cbn [foldl]. rewrite IH by done.
  unfold add_observation. destruct (existsb _ _); [done|]. rewrite filter_app, filter_cons, decide_False by done. by rewrite app_nil_r.
Qed.
Lemma add_observation_length i l k :
  (length (filter (λ o, o_candidate o = i) (foldl add_observation l k)) ≤ length (filter (λ o, o_candidate o = i) l) + length k)%nat.
Proof.
  revert l. induction k as [|o k IH]; intros l; cbn [foldl]; [simpl; lia|]. specialize (IH (add_observation l o)).
  assert (length (filter (λ o, o_candidate o = i) (add_observation l o)) ≤ S (length (filter (λ o, o_candidate o = i) l)))%nat; [|simpl; lia].
  unfold add_observation. destruct (existsb _ _); [lia|]. rewrite filter_app, length_app, filter_cons. case_decide; simpl; lia.
Qed.

(** ** Submissions *)

Section submission.
Context (ci : string) (ids : nat → string) (org device : string) (i : SubmitInput) (summary : string) (rationale : option string).
Context (Hsummary : safe summary) (Hrationale : safe_opt rationale) (t : Z).

(** The state with a candidate in hand. *)
Definition holding (d0 : LearnDB) (c : Candidate) (d : LearnDB) : Prop :=
  learn_ok d ∧ frozen d0 d ∧ find_candidate (c_id c) d = Some c.
Lemma holding_safe d0 c d : holding d0 c d → safe_candidate c.
Proof. intros (Hd & _ & [_ Hin]%find_by_Some). pose proof (candidates_safe _ Hd) as Hs. rewrite Forall_forall in Hs. by apply Hs. Qed.
Lemma holding_update d0 c f d : holding d0 c d → (∀ x, c_id (f x) = c_id x) → safe_candidate (f c) →
  (∀ o, active_of o (f c) = active_of o c) → holding d0 (f c) (on_candidates (update_by c_id (c_id c) f) d).
Proof.
  intros (Hd & Hf & Hc) Hid Hs Ha. destruct (update_frozen _ _ _ _ Hc (Hid c) Hs Ha Hd) as [H1 H2].
  split; [done|]. split; [by transitivity d|]. rewrite Hid. by apply find_candidate_update.
Qed.

Lemma upsert_holding d c d' : learn_ok d → upsert_candidate ci org i summary rationale t d = (Ok c, d') → holding d c d'.
Proof.
  intros Hd. unfold upsert_candidate, gets. intros (o & d1 & [= <- <-] & Hrun)%bind_ok. destruct (snd <$> _) as [c'|] eqn:Hfind.
  - injection Hrun as <- <-. split; [done|]. split; [reflexivity|]. apply fmap_Some in Hfind as ([n y] & Hl & ->).
    apply list_find_Some in Hl as (Hl%list_elem_of_lookup_2 & _). apply find_by_unique; [apply Hd|done|done].
  - unfold create_candidate in Hrun. destruct (isSome _) eqn:Hnew; [done|]. injection Hrun as <- <-. apply isSome_false in Hnew.
    unfold find_candidate in Hnew. cbn [new_candidate c_id] in Hnew. pose proof Hnew as Hnone. rewrite find_by_None in Hnone.
    split; [|split].
    + destruct Hd as [Hn Hs Ho Hb]. split; cbn [candidates on_candidates]; [|apply Forall_snoc_intro; [done|by split_and!]|done|done].
      rewrite map_app. apply NoDup_app. split; [done|]. split; [|apply NoDup_singleton].
      intros x (y & -> & Hy)%list_elem_of_fmap Hx%list_elem_of_singleton. by apply (Hnone y).
    + intros o. split; [done|]. unfold active. cbn [candidates on_candidates]. rewrite map_app, concat_app. simpl.
      unfold active_of at 2, is_active. simpl. by rewrite andb_false_r, !app_nil_r.
    + unfold find_candidate. cbn [candidates on_candidates]. rewrite find_by_app. cbn [c_id new_candidate]. rewrite Hnew, find_by_cons.
      by rewrite decide_True.
Qed.
Lemma update_candidate_run j f d r d' : update_candidate j f d = (Ok r, d') →
  ∃ c, find_candidate j d = Some c ∧ r = f c ∧ d' = on_candidates (update_by c_id j f) d.
Proof. unfold update_candidate. destruct (find_candidate j d) as [c|]; [|done]. intros [= <- <-]. by exists c. Qed.
Lemma holding_run d0 c f d r d' : update_candidate (c_id c) f d = (Ok r, d') → holding d0 c d → (∀ x, c_id (f x) = c_id x) →
  safe_candidate (f c) → (∀ o, active_of o (f c) = active_of o c) → holding d0 r d'.
Proof.
  intros (c' & Hc & -> & ->)%update_candidate_run Hh Hid Hs Ha. pose proof Hh as (_ & _ & Hc'). rewrite Hc in Hc'. injection Hc' as ->.
  by apply holding_update.
Qed.
Lemma create_observations_holding d0 c evidence client d d' u :
  Forall (λ ev, safe (e_summary ev)) evidence →
  (length (of_candidate (c_id c) d) + length evidence ≤ MAX_OBSERVATIONS_PER_CANDIDATE)%nat →
  holding d0 c d → create_observations ids (c_id c) org device client evidence d = (Ok u, d') → holding d0 c d'.
Proof.
  intros Hev Hlen ([Hn Hs Ho Hb] & Hf & Hc). unfold create_observations. destruct (forallb _ _); [|done]. intros [= <- <-].
  match goal with |- context [imap ?f evidence] => set (rows := imap f evidence) end.
  assert (Hrows : Forall (λ o, o_candidate o = c_id c ∧ safe (o_summary o)) rows).
  { apply Forall_lookup. intros n o Hno. unfold rows in Hno. rewrite list_lookup_imap in Hno. apply fmap_Some in Hno as (ev & Hev' & ->).
    split; [done|]. rewrite Forall_lookup in Hev. by apply (Hev n). }
  split; [|by split]. split; cbn [candidates observations on_observations]; [done|done| |].
  - apply add_observation_bound; [done|]. eapply Forall_impl; [exact Hrows|]. by intros ? [].
  - intros j. unfold of_candidate. cbn [observations on_observations]. destruct (decide (j = c_id c)) as [->|Hj].
    + etransitivity; [apply add_observation_length|]. unfold rows. rewrite length_imap. exact Hlen.
    + rewrite add_observation_other; [apply Hb|]. eapply Forall_impl; [exact Hrows|]. intros ? [-> _]. congruence.
Qed.

Lemma submit_rows_ok evidence d c d' : Forall (λ ev, safe (e_summary ev)) evidence → learn_ok d →
  submit_rows ci ids org device i summary rationale evidence t d = (Ok c, d') → holding d c d'.
Proof.
  intros Hev Hd. unfold submit_rows, gets. intros (c1 & d1 & Hup%upsert_holding & Hrun)%bind_ok; [|done].
  apply bind_ok in Hrun as (c2 & d2 & Hprop & Hrun). assert (H2 : holding d c2 d2).
  { pose proof (holding_safe _ _ _ Hup) as (Hs1 & Hs2 & Hs3 & Hs4). destruct (negb _ || _); [|by injection Hprop as <- <-].
    destruct (bool_decide _) eqn:Hst; boolify; (eapply holding_run; [exact Hprop|exact Hup|done| |]).
    - by split_and!.
    - intros o. unfold active_of, is_active. simpl. by rewrite Hst, andb_false_r.
    - by split_and!; [| |intros ? [= <-]|].
    - done. }
  apply bind_ok in Hrun as (n & d3 & [= <- <-] & Hrun). apply bind_ok in Hrun as (u & d4 & [Hcap ->]%guard_throw_ok & Hrun).
  apply bind_ok in Hrun as (u' & d5 & Hobs & Hrun). boolify.
  eapply create_observations_holding in Hobs; [| |rewrite length_take; lia|exact H2]; [|by apply Forall_take].
  apply bind_ok in Hrun as (l & d6 & [= <- <-] & Hrun).
  eapply holding_run; [exact Hrun|exact Hobs|done| |done]. by apply holding_safe in Hobs.
Qed.
End submission.

(** ** Reviews *)

Lemma safe_none : safe_opt None.
Proof. done. Qed.
Lemma decide_candidate_ok dec c b next : decide_candidate dec c = Ok (b, next) → safe_candidate c →
  c_id next = c_id c ∧ c_org next = c_org c ∧ safe_candidate next ∧ (b = false → ∀ org, active_of org next = active_of org c).
Proof.
  intros Hdec (Hs1 & Hs2 & Hs3 & Hs4). unfold decide_candidate in Hdec. destruct dec.
  - injection Hdec as <- <-. split; [done|]. split; [done|]. split.
    + split_and!; cbn [settled c_summary c_rationale pendingSummary pendingRationale]; [|by destruct (truthy _)|done|done].
      destruct (pendingSummary c) as [p|]; [by apply Hs3|done].
    + intros [[Hst Hsum]%orb_false_iff Hr]%orb_false_iff org. boolify. unfold active_of, is_active, text. simpl. by rewrite Hst, Hsum, Hr.
  - destruct (bool_decide _) eqn:Hst; boolify; [apply res_bind_ok in Hdec as (? & _ & [= <- <-])|injection Hdec as <- <-].
    all: split; [done|]; split; [done|]; split; [by split_and!|]; intros _ org; unfold active_of, is_active, text; simpl.
    + by rewrite Hst.
    + rewrite andb_false_r. by destruct (c_status c) eqn:E; rewrite ?andb_false_r.
  - apply res_bind_ok in Hdec as (? & _ & [= <- <-]). split; [done|]. split; [done|]. split; [by split_and!|done].
Qed.
Lemma other_org_inactive org c : c_org c ≠ org → active_of org c = [].
Proof. intros Hne. unfold active_of, is_active. by rewrite (proj2 (String.eqb_neq _ _) Hne). Qed.

Lemma review_rows_ok i input email now t d r d' : learn_ok d → review_rows i input email now t d = (Ok r, d') → learn_ok d' ∧ tracks d d'.
Proof.
  intros Hd. unfold review_rows, gets. intros (o & d1 & [= <- <-] & (c & d2 & [Hc ->]%require_ok & Hrun)%bind_ok)%bind_ok.
  apply bind_ok in Hrun as (u & d3 & [_ ->]%guard_throw_ok & Hrun). rewrite bind_lift in Hrun.
  destruct (decide_candidate _ _) as [[b next]|] eqn:Hdec; [|done]. cbv zeta in Hrun.
  apply bind_ok in Hrun as (c' & d4 & (c0 & Hc0 & -> & ->)%update_candidate_run & Hrun). rewrite Hc in Hc0. injection Hc0 as <-.
  pose proof Hc as [Hid Hin]%find_by_Some. pose proof (candidates_safe _ Hd) as Hs. rewrite Forall_forall in Hs.
  destruct (decide_candidate_ok _ _ _ _ Hdec (Hs _ Hin)) as (Hid' & Horg & Hsafe & Hsame).
  match type of Hrun with context [on_candidates (update_by c_id i ?g) d] => set (f := g) in * end.
  assert (Hok : learn_ok (on_candidates (update_by c_id i f) d)) by by apply (update_ok i f d c).
  assert (Hact : ∀ org, active_of org next = active_of org c → active org (on_candidates (update_by c_id i f) d) = active org d).
  { intros org Ha. eapply active_update; [apply Hd|exact Hc|exact Ha]. }
  destruct b.
  - apply bind_ok in Hrun as (v & d5 & Hinc & [= _ <-]). unfold increment_watermark in Hinc.
    destruct (watermark _ _) as [w|] eqn:Hw; [|done]. injection Hinc as _ <-. split; [by destruct Hok; split|].
    intros org v' Hv'. unfold watermark in *. cbn [set_watermark watermarks on_candidates] in *.
    destruct (decide (org = c_org c)) as [->|Hne].
    + rewrite assoc_obj_set. assert (v' = w) as -> by congruence. exists (w + 1). split; [done|]. split; [lia|]. lia.
    + rewrite assoc_obj_set_ne by done. exists v'. split; [done|]. split; [lia|]. intros _. apply Hact.
      rewrite !other_org_inactive; congruence.
  - apply bind_ok in Hrun as (v & d5 & (w & d6 & [= <- <-] & [= _ <-])%bind_ok & [= _ <-]). split; [done|]. apply frozen_tracks. intros org. split; [done|]. apply Hact. by apply Hsame.
Qed.

(** * Requests *)

Inductive LearnRequest :=
  | Submit (ci : string) (ids : nat → string) (bearer : option string) (i : SubmitInput) (now : Z)
  | GetBundle (version_first : bool) (bearer : option string) (now : Z)
  | ListCandidates (org : string) (status : option string) (nowSec : Z)
  | Review (user : Guard.AuthedUser) (i : string) (input : ReviewInput) (now now' : Z).
Definition is_review (q : LearnRequest) : bool := match q with Review _ _ _ _ _ => true | _ => false end.

Section requests.
Context (sha256 : string → string) (clock : nat → Z) (collate : string → string → bool).
Context (e : env) (licence : option License.LicenseClaims).
Context (others : nat → LearnDB → LearnDB) (fails : nat → option exn).
Local Abbreviation State := (Session LearnDB).

Definition handle (q : LearnRequest) : M State unit :=
  match q with
  | Submit ci ids bearer i now => _ ← submit sha256 clock e licence others fails ci ids bearer i now; mret tt
  | GetBundle first bearer now => _ ← bundle sha256 collate e licence others fails first bearer now; mret tt
  | ListCandidates org status nowSec => _ ← list_candidates e licence others fails org status nowSec; mret tt
  | Review user i input now now' => _ ← review_route clock e licence others fails user i input now now'; mret tt
  end.

(** What holds for the relation the others keep, [tracks] or [frozen]. *)
Section relation.
Context (R : relation LearnDB) `{!PreOrder R}.
Context (Hfrozen : ∀ d d', frozen d d' → R d d').
Context (Hothers : ∀ n d, learn_ok d → learn_ok (others n d) ∧ R d (others n d)).
Local Abbreviation since := (Session.since learn_ok R).

Lemma learning_logged d0 org action at' actor p : keeps_all (since d0) (log others fails org action at' actor p).
Proof.
  apply since_call; [done|exact Hothers|]. intros d [Hn Hs Ho Hb]. split; [by split|]. by apply Hfrozen.
Qed.
Lemma since_transaction {A} d0 (m : M LearnDB A) :
  (∀ d a d', learn_ok d → m d = (Ok a, d') → learn_ok d' ∧ R d d') → keeps_all (since d0) (call others fails (transaction m)).
Proof.
  intros Hm. apply since_call; [done|exact Hothers|]. intros d Hd. destruct (transaction m d) as [[a|er] d'] eqn:Hrun; simpl.
  - rewrite transaction_ok in Hrun. by eapply Hm.
  - apply transaction_throw in Hrun as ->. split; [done|reflexivity].
Qed.
Lemma since_serializable {A} d0 (op : Z → M LearnDB A) :
  (∀ t d a d', learn_ok d → op t d = (Ok a, d') → learn_ok d' ∧ R d d') → keeps_all (since d0) (serializable clock others fails op).
Proof.
  intros Hop. enough (∀ left attempt, keeps_all (since d0) (serializable_from clock others fails left attempt op)) as H by apply H.
  intros left. induction left as [|left IH]; intros attempt; [by apply keeps_all_id|].
  cbn [serializable_from]. apply keeps_all_try; [apply since_transaction, Hop|]. intros er. destruct (negb _ || _); [by apply keeps_all_id|apply IH].
Qed.
Lemma learner_known d0 bearer now : keeps_all (since d0) (deviceIdentity sha256 e others fails bearer now).
Proof. unfold deviceIdentity. repeat (apply keeps_all_bind; [solve [auto with session]|intros ?]). auto with session. Qed.
Hint Resolve learning_logged learner_known : session.
Ltac steps := repeat (apply keeps_all_bind; [solve [auto with session]|intros ?]); auto with session.

Lemma since_submit d0 ci ids bearer i now : keeps_all (since d0) (submit sha256 clock e licence others fails ci ids bearer i now).
Proof.
  unfold submit, entitled. apply keeps_all_bind; [auto with session|]. intros [device org].
  apply keeps_all_bind; [auto with session|]. intros _. apply keeps_all_lift_bind. intros summary Hs%requiredSafeText_ok.
  apply keeps_all_lift_bind. intros rationale Hr%safeText_ok. apply keeps_all_lift_bind. intros evidence Hev%mapR_ok.
  apply keeps_all_bind; [auto with session|]. intros _. apply keeps_all_bind; [|intros c; steps]. apply since_serializable.
  intros t d c d' Hd Hrun. apply submit_rows_ok in Hrun as (H1 & H2 & _); [by split; [|apply Hfrozen]|done|done| |done].
  clear -Hev. induction Hev as [|ev ev' l l' (s & Hs & [= <-])%res_bind_ok _ IH]; constructor; [|done]. by apply requiredSafeText_ok in Hs.
Qed.
Lemma since_bundle d0 first bearer now : keeps_all (since d0) (bundle sha256 collate e licence others fails first bearer now).
Proof.
  unfold bundle, entitled. apply keeps_all_bind; [auto with session|]. intros identity. apply keeps_all_bind; [auto with session|]. intros _.
  apply keeps_all_bind; [destruct first; steps|]. intros both. steps.
Qed.
Lemma since_list d0 org status nowSec : keeps_all (since d0) (list_candidates e licence others fails org status nowSec).
Proof. unfold list_candidates, entitled. steps. Qed.
Lemma since_decision d0 user i input now now' : (∀ d d', tracks d d' → R d d') →
  keeps_all (since d0) (review_route clock e licence others fails user i input now now').
Proof.
  intros Htracks. unfold review_route, candidateOrgId, review, entitled.
  apply keeps_all_bind; [steps|]. intros org. apply keeps_all_bind; [auto with session|]. intros _. apply keeps_all_bind; [auto with session|].
  intros _. apply keeps_all_bind; [|intros r; steps]. apply since_serializable. intros t d r d' Hd Hrun.
  destruct (review_rows_ok _ _ _ _ _ _ _ _ Hd Hrun) as [H1 H2]. split; [done|by apply Htracks].
Qed.
End relation.

(** The part of a bundle's entry that an administrator approved. *)
Definition approved_text (l : LearningEntry) : string * string * string * string * option string :=
  (le_id l, le_pattern l, le_kind l, le_summary l, le_rationale l).
Lemma approved_active org d : map approved_text (approved_entries collate org d) ≡ₚ
  map (λ '(i, p, k, s, r), (i, p, KIND_TO_WIRE k, s, r)) (active org d).
Proof.
  unfold approved_entries, active. rewrite map_map, stable_sort_perm.
  induction (candidates d) as [|c l IH]; [done|]. cbn [map concat]. rewrite filter_cons, map_app, <- IH. unfold active_of.
  destruct (is_active org c); [rewrite decide_True by done|rewrite decide_False by done]; done.
Qed.

(** In every interleaving the version of an organization's bundle never falls, and as long as it is the same,
    so are the approved learnings it stands for: a decision that changes them increments it. Every text stored,
    from a device or approved, passed the guard, and no candidate holds more than 5000 pieces of evidence. *)
Theorem learning_version_tracks q (s : State) :
  (∀ n d, learn_ok d → learn_ok (others n d) ∧ tracks d (others n d)) → learn_ok (db s) →
  learn_ok (db (handle q s).2) ∧
  ∀ org v, watermark org (db s) = Some v → ∃ v', watermark org (db (handle q s).2) = Some v' ∧ v ≤ v' ∧
    (v' = v → map approved_text (approved_entries collate org (db (handle q s).2)) ≡ₚ
              map approved_text (approved_entries collate org (db s))).
Proof.
  intros Hothers Hs. assert (∀ d0, keeps_all (since learn_ok tracks d0) (handle q)) as Hk.
  { intros d0. destruct q as [ci ids bearer i now|first bearer now|org status nowSec|user i input now now'];
      (apply keeps_all_bind; [|intros; apply keeps_all_ret]).
    - apply since_submit; [apply _|apply frozen_tracks|done].
    - apply since_bundle; [apply _|done].
    - apply since_list; [apply _|done].
    - apply since_decision; [apply _|apply frozen_tracks|done|done]. }
  destruct (since_start learn_ok tracks _ s Hk Hs) as [H1 H2]. split; [done|]. intros org v Hv.
  destruct (H2 org v Hv) as (v' & Hv' & Hle & Hsame). exists v'. split; [done|]. split; [done|]. intros E.
  by rewrite !approved_active, Hsame.
Qed.

(** Nothing but a decision of an administrator changes what devices are told: while no review runs, a
    submission leaves the version and the approved learnings of every organization as they were. *)
Theorem unreviewed_learning_frozen q (s : State) :
  is_review q = false → (∀ n d, learn_ok d → learn_ok (others n d) ∧ frozen d (others n d)) → learn_ok (db s) →
  ∀ org, watermark org (db (handle q s).2) = watermark org (db s) ∧
    map approved_text (approved_entries collate org (db (handle q s).2)) ≡ₚ map approved_text (approved_entries collate org (db s)).
Proof.
  intros Hq Hothers Hs. assert (∀ d0, keeps_all (since learn_ok frozen d0) (handle q)) as Hk.
  { intros d0. destruct q as [ci ids bearer i now|first bearer now|org status nowSec|user i input now now'];
      (apply keeps_all_bind; [|intros; apply keeps_all_ret]).
    - apply since_submit; [apply _|done|done].
    - apply since_bundle; [apply _|done].
    - apply since_list; [apply _|done].
    - done. }
  destruct (since_start learn_ok frozen _ s Hk Hs) as [_ H2]. intros org. destruct (H2 org) as [Hw Ha]. split; [done|].
  by rewrite !approved_active, Ha.
Qed.
End requests.

(** * Witnesses and schedules *)

Definition demo_phone : Device :=
  {| v_id := "d1"; v_org := "o1"; v_name := "laptop"; v_os := "linux"; v_haraVersion := "1"; v_lastSeenAt := 0; v_enrollCode := None;
     v_person := None; revocationRequestedAt := None; revocationCompletedAt := None; deskProvisionedAt := None;
     deskCleanupPendingAt := None; deskOwner := None; deskOrigin := None |}.
Definition demo_phone_token : DeviceToken :=
  {| k_device := "d1"; k_hash := "bearer"; k_gatewayKeyId := "g1"; k_model := "m"; k_reasoningEffort := "high"; k_expiresAt := None;
     k_revokedAt := None; k_budgetLimits := JNull; k_rpmLimit := None; k_tpmLimit := None; k_createdAt := 0 |}.
Definition demo_candidate (s : LearningStatus) : Candidate :=
  {| c_id := "c1"; c_org := "o1"; patternKey := "refunds"; c_kind := BUSINESS_RULE; c_summary := "ask before a refund"; c_rationale := None;
     pendingSummary := None; pendingRationale := None; pendingAt := None; c_status := s; occurrenceCount := 3; distinctTaskCount := 2;
     revision := 1; c_sourceVersion := "1"; reviewedAt := None; reviewedBy := None; reviewNote := None; c_createdAt := 0; c_updatedAt := 0 |}.
Definition demo_learning (s : LearningStatus) : Session LearnDB :=
  {| db := {| ctl := {| orgs := []; persons := []; bindings := []; codes := []; devices := [demo_phone]; tokens := [demo_phone_token];
                        vault := {| Secrets.secrets := []; Secrets.systemAudits := [] |}; audits := [] |};
              watermarks := [("o1", 4)]; candidates := [demo_candidate s]; observations := [] |};
     calls := 0 |}.
Definition unlicensed_dev (k : string) : option string := if String.eqb k "HARA_LICENSE_DEV" then Some "1" else None.
Definition still (_ : nat) (d : LearnDB) : LearnDB := d.
Definition faultless (_ : nat) : option exn := None.
Definition demo_reviewer : Guard.AuthedUser :=
  {| Guard.id := "u1"; Guard.email := "a@b"; Guard.role := Guard.ADMIN; Guard.orgId := Some "o1"; Guard.viaSharedKey := false |}.
Definition demo_submission (summary : string) : LearnRequest :=
  Submit "c2" pretty (Some "bearer")
    {| si_client := "cli"; si_pattern := "refunds"; si_kind := BUSINESS_RULE; si_summary := summary; si_rationale := None;
       si_sourceVersion := "1"; si_evidence := [{| e_taskHash := "t"; e_fingerprint := "f"; e_summary := "seen"; e_source := "verified_task";
                                                   e_sourceVersion := "1"; e_observedAt := Some 50 |}] |} 60.
Definition demo_approval : LearnRequest := Review demo_reviewer "c1" {| decision := Approve; expected_revision := 1; note := None |} 60 70.
Local Abbreviation demo_run := (handle (λ b, b) (λ _, 60) String.ltb unlicensed_dev None).

Lemma demo_learning_ok s : learn_ok (db (demo_learning s)).
Proof.
  split; [apply NoDup_singleton|apply Forall_singleton|constructor|intros i; simpl; lia].
  split_and!; [split; [done|vm_compute; reflexivity]|done|done|done].
Qed.
Lemma learning_version_tracks_witness : ∃ s,
  demo_run still faultless demo_approval (demo_learning PENDING) = (Ok tt, s) ∧ watermark "o1" (db s) = Some 5 ∧ learn_ok (db s).
Proof.
  exists (demo_run still faultless demo_approval (demo_learning PENDING)).2.
  split; [vm_compute; reflexivity|]. split; [vm_compute; reflexivity|].
  apply (learning_version_tracks (λ b, b) (λ _, 60) String.ltb unlicensed_dev None still faultless demo_approval (demo_learning PENDING)).
  - intros n d Hd. split; [exact Hd|reflexivity].
  - apply demo_learning_ok.
Defined.
Lemma unreviewed_learning_frozen_witness : ∃ s,
  demo_run still faultless (demo_submission "never refund") (demo_learning APPROVED) = (Ok tt, s) ∧
  pendingSummary <$> find_candidate "c1" (db s) = Some (Some "never refund") ∧ watermark "o1" (db s) = Some 4.
Proof.
  exists (demo_run still faultless (demo_submission "never refund") (demo_learning APPROVED)).2.
  split; [vm_compute; reflexivity|]. split; [vm_compute; reflexivity|].
  refine (proj1 (unreviewed_learning_frozen (λ b, b) (λ _, 60) String.ltb unlicensed_dev None still faultless
    (demo_submission "never refund") (demo_learning APPROVED) _ _ _ "o1")).
  - reflexivity.
  - intros n d Hd. split; [exact Hd|reflexivity].
  - apply demo_learning_ok.
Defined.

(** A submission does not move the revision that a decision names: between the page an administrator saw and the
    approval, a device replaces the text, and the approval makes the unseen text active. *)
Example approval_of_unseen_text :
  let seen := list_candidates unlicensed_dev None still faultless "o1" None 0 (demo_learning PENDING) in
  let s := (demo_run still faultless demo_approval (demo_run still faultless (demo_submission "always refund") (demo_learning PENDING)).2).2 in
  match seen.1 with Ok l => map (λ c, (p_summary c.1, p_revision c.1)) l | Throw _ => [] end = [("ask before a refund", 1)] ∧
  map le_summary (approved_entries String.ltb "o1" (db s)) = ["always refund"].
Proof. vm_compute. done. Qed.
(** A review between the two queries of the bundle: the device gets the old learnings under the new version. *)
Example bundle_torn :
  let review (n : nat) (d : LearnDB) := if (n =? 4)%nat then db (demo_run still faultless demo_approval {| db := d; calls := 0 |}).2 else d in
  let '(r, s) := bundle (λ b, b) String.ltb unlicensed_dev None review faultless false (Some "bearer") 60 (demo_learning PENDING) in
  r = Ok {| version := 5; learnings := [] |} ∧ length (approved_entries String.ltb "o1" (db s)) = 1%nat.
Proof. vm_compute. done. Qed.
