(* ===== verification/Work.v ===== *)
(** Work sessions ([src/work/work.service.ts]): batches of a device's sessions are ingested once each, redacted and
    linked into a hash chain per device. A request runs as in [Session]; SHA-256 and [Date] parsing are
    parameters; the integers of the rows fit their columns. *)
From S2P Require Import Prelude Js Table Regex AuditStore Crypto Access KeyPolicy ControlDb Session Assets.
Local Open Scope Z_scope.

Inductive WorkSessionKind := CODING | REVIEW | AGENT_RUN | CHAT.
Inductive WorkOutcome := COMMITTED | ABANDONED | BLOCKED | ERROR | UNKNOWN.
Definition work_kind_str (k : WorkSessionKind) : string :=
  match k with CODING => "CODING" | REVIEW => "REVIEW" | AGENT_RUN => "AGENT_RUN" | CHAT => "CHAT" end.
Definition outcome_str (o : WorkOutcome) : string :=
  match o with COMMITTED => "COMMITTED" | ABANDONED => "ABANDONED" | BLOCKED => "BLOCKED" | ERROR => "ERROR" | UNKNOWN => "UNKNOWN" end.

Record WorkSessionInput := {
  wi_seq : Z; wi_startedAt : string; wi_endedAt : option string; wi_kind : option WorkSessionKind; wi_roleKey : option string;
  wi_repoHash : option string; wi_taskTitle : option string; wi_toolCalls : option json; wi_tasksCount : option Z;
  wi_filesTouched : option Z; wi_filePathsHashed : option (list string); wi_approvalsRequested : option Z;
  wi_approvalsGranted : option Z; wi_outcome : option WorkOutcome; wi_commitShas : option (list string); wi_model : option string;
  wi_tokensIn : option Z; wi_tokensOut : option Z; wi_latencyMs : option Z }.
Record WorkSession := {
  w_org : string; w_device : string; w_person : option string; w_roleKey : string; w_kind : WorkSessionKind; repoHash : string;
  taskTitle : string; toolCalls : json; tasksCount : Z; filesTouched : Z; filePathsHashed : list string; approvalsRequested : Z;
  approvalsGranted : Z; outcome : WorkOutcome; commitShas : list string; w_model : string; tokensIn : Z; tokensOut : Z;
  latencyMs : Z; startedAt : Z; endedAt : option Z; w_at : Z; seq : Z; prevHash : string; rowHash : string }.
Record WorkDB := { wctl : ControlDB; sessions : list WorkSession }.
#[export] Instance work_audit : AuditStore WorkDB := {
  trail d := trail (wctl d);
  record_event ev d := {| wctl := record_event ev (wctl d); sessions := sessions d |};
  trail_record ev d := trail_record ev (wctl d) }.

Definition is_session (device : string) (n : Z) (w : WorkSession) : bool := String.eqb (w_device w) device && (seq w =? n).
Definition find_session (device : string) (n : Z) (d : WorkDB) : option WorkSession :=
  snd <$> list_find (λ w, is_session device n w = true) (sessions d).
(** The rows of a device, in the order of [seq]. *)
Definition device_rows (device : string) (d : WorkDB) : list WorkSession :=
  sort_by seq (filter (λ w, w_device w = device) (sessions d)).

Section service.
Context (sha256 : string → string) (parse_date : string → option Z).
Context (e : env) (licence : option License.LicenseClaims).
Context (others : nat → WorkDB → WorkDB) (fails : nat → option exn).
Local Abbreviation State := (Session WorkDB).

Definition chainHash (fields : json) (prev : string) : string := sha256 (JSON_stringify fields +:+ prev).
Definition entitled (nowSec : Z) : M State unit := lift (License.assert_feature e licence nowSec "work-audit").
Definition deviceFromBearer (bearer : option string) (now : Z) : M State Device :=
  _ ← guard_throw (absent bearer) (UnauthorizedException "missing token");
  dt ← call others fails (gets (λ d, k ← find_by k_hash (sha256 (nullish bearer "")) (tokens (wctl d));
                                     (λ v, (k, v)) <$> find_device (wctl d) (k_device k)));
  _ ← lift (Token.assertTokenUsable ((λ kv, {| Token.revokedAt := k_revokedAt kv.1; Token.expiresAt := k_expiresAt kv.1 |}) <$> dt) now e None);
  v ← require dt (Error "unreachable");
  mret v.2.
(** What the hash of a row covers. *)
Definition identity (device : string) (title : string) (s : WorkSessionInput) : json :=
  JObj [("deviceId", JStr device); ("seq", JNum (inject_Z (wi_seq s))); ("kind", JStr (work_kind_str (nullish (wi_kind s) CODING)));
        ("repoHash", JStr (nullish (wi_repoHash s) "")); ("outcome", JStr (outcome_str (nullish (wi_outcome s) UNKNOWN)));
        ("startedAt", JStr (wi_startedAt s)); ("tasksCount", JNum (inject_Z (nullish (wi_tasksCount s) 0))); ("taskTitle", JStr title)].
Definition session_row (v : Device) (title : string) (s : WorkSessionInput) (prev : string) (started : Z) (ended : option Z) (t : Z) : WorkSession :=
  {| w_org := v_org v; w_device := v_id v; w_person := v_person v; w_roleKey := nullish (wi_roleKey s) "";
     w_kind := nullish (wi_kind s) CODING; repoHash := nullish (wi_repoHash s) ""; taskTitle := title;
     toolCalls := nullish (wi_toolCalls s) (JObj []); tasksCount := nullish (wi_tasksCount s) 0;
     filesTouched := nullish (wi_filesTouched s) 0; filePathsHashed := nullish (wi_filePathsHashed s) [];
     approvalsRequested := nullish (wi_approvalsRequested s) 0; approvalsGranted := nullish (wi_approvalsGranted s) 0;
     outcome := nullish (wi_outcome s) UNKNOWN; commitShas := nullish (wi_commitShas s) []; w_model := nullish (wi_model s) "";
     tokensIn := nullish (wi_tokensIn s) 0; tokensOut := nullish (wi_tokensOut s) 0; latencyMs := nullish (wi_latencyMs s) 0;
     startedAt := started; endedAt := ended; w_at := t; seq := wi_seq s; prevHash := prev;
     rowHash := chainHash (identity (v_id v) title s) prev |}.
(** The client refuses an invalid [Date]; the unique key of the table refuses a second row for a [seq]. *)
Definition create_session (v : Device) (title : string) (s : WorkSessionInput) (prev : string) (t : Z) : M WorkDB unit :=
  started ← require (parse_date (wi_startedAt s)) (Error "PrismaClientValidationError");
  ended ← (match wi_endedAt s with
           | Some x => if truthy x then x' ← require (parse_date x) (Error "PrismaClientValidationError"); mret (Some x') else mret None
           | None => mret None
           end);
  taken ← gets (λ d, isSome (find_session (v_id v) (wi_seq s) d));
  _ ← guard_throw taken (PrismaError "P2002");
  modify (λ d, {| wctl := wctl d; sessions := sessions d ++ [session_row v title s prev started ended t] |}).
(** [orderBy: { seq: "desc" }] *)
Definition last_session (device : string) (d : WorkDB) : option WorkSession := last (device_rows device d).
Fixpoint ingest_from (v : Device) (l : list WorkSessionInput) (t : Z) (ingested skipped : nat) : M State (nat * nat) :=
  match l with
  | [] => mret (ingested, skipped)
  | s :: l' =>
      exists_ ← call others fails (gets (find_session (v_id v) (wi_seq s)));
      if isSome exists_ then ingest_from v l' t ingested (S skipped)
      else
        let title := (redactSecrets (nullish (wi_taskTitle s) "")).1 in
        prev ← call others fails (gets (last_session (v_id v)));
        _ ← call others fails (create_session v title s (nullish (rowHash <$> prev) "") t);
        ingest_from v l' t (S ingested) skipped
  end.
Definition nat_json (n : nat) : option json := Some (JNum (inject_Z (Z.of_nat n))).
Definition ingest (bearer : option string) (l : list WorkSessionInput) (now : Z) : M State (nat * nat) :=
  _ ← entitled (now / 1000);
  device ← deviceFromBearer bearer now;
  r ← ingest_from device (sort_by wi_seq l) now 0 0;
  _ ← call others fails (audit_log (v_org device) "work.session.ingest" "device" (v_id device)
        [("ingested", nat_json r.1); ("skipped", nat_json r.2)]);
  mret r.
Definition list_sessions (org : string) (personId : option string) (limit : option nat) : M State (list WorkSession) :=
  call others fails (gets (λ d, take (nullish limit 100%nat) (sort_by (λ w, - w_at w)
    (filter (λ w, String.eqb (w_org w) org && (absent personId || bool_decide (w_person w = personId)) = true) (sessions d))))).
End service.

(** * The chain of a device *)

(** The hash of a row is the hash of its fields, up to the text [startedAt] was sent as. *)
Definition row_identity (w : WorkSession) (started : string) : json :=
  JObj [("deviceId", JStr (w_device w)); ("seq", JNum (inject_Z (seq w))); ("kind", JStr (work_kind_str (w_kind w)));
        ("repoHash", JStr (repoHash w)); ("outcome", JStr (outcome_str (outcome w))); ("startedAt", JStr started);
        ("tasksCount", JNum (inject_Z (tasksCount w))); ("taskTitle", JStr (taskTitle w))].
Definition hashed (sha256 : string → string) (parse_date : string → option Z) (w : WorkSession) : Prop :=
  ∃ started, parse_date started = Some (startedAt w) ∧ rowHash w = chainHash sha256 (row_identity w started) (prevHash w).
Fixpoint linked (prev : string) (l : list WorkSession) : Prop :=
  match l with [] => True | w :: l' => prevHash w = prev ∧ linked (rowHash w) l' end.

Lemma linked_snoc prev l w : linked prev (l ++ [w]) ↔ linked prev l ∧ prevHash w = default prev (rowHash <$> last l).
Proof.
  revert prev. induction l as [|x l IH]; intros prev; [simpl; naive_solver|]. rewrite last_cons. cbn [app linked]. rewrite IH.
  destruct (last l); simpl; tauto.
Qed.
Lemma device_rows_snoc dev w d : w_device w = dev → Forall (λ x, seq x ≤ seq w) (device_rows dev d) →
  device_rows dev {| wctl := wctl d; sessions := sessions d ++ [w] |} = device_rows dev d ++ [w].
Proof.
  intros Hw Hle. unfold device_rows. cbn [sessions]. rewrite filter_app, filter_cons, filter_nil, decide_True by done.
  rewrite sort_by_snoc. by apply insert_by_last.
Qed.
Lemma device_rows_other dev w d : w_device w ≠ dev →
  device_rows dev {| wctl := wctl d; sessions := sessions d ++ [w] |} = device_rows dev d.
Proof.
  intros Hw. unfold device_rows. cbn [sessions]. rewrite filter_app, filter_cons, filter_nil, decide_False by done. by rewrite app_nil_r.
Qed.
Lemma find_session_rows dev n d : is_Some (find_session dev n d) ↔ ∃ w, w ∈ device_rows dev d ∧ seq w = n.
Proof.
  unfold find_session, device_rows. rewrite fmap_is_Some. setoid_rewrite sort_by_perm. setoid_rewrite list_elem_of_filter. split.
  - intros [[i w] (Hl%list_elem_of_lookup_2 & Hw & _)%list_find_Some]. unfold is_session in Hw. boolify. destruct Hw. by exists w.
  - intros (w & [Hd Hin] & Hn). eapply list_find_elem_of; [exact Hin|]. unfold is_session. by rewrite Hd, Hn, String.eqb_refl, Z.eqb_refl.
Qed.

Section chain.
Context (sha256 : string → string) (parse_date : string → option Z).
Context (e : env) (licence : option License.LicenseClaims).
Context (others : nat → WorkDB → WorkDB) (fails : nat → option exn).
Local Abbreviation State := (Session WorkDB).
Local Abbreviation rows := (device_rows).

Definition chain_ok (dev : string) (d : WorkDB) : Prop :=
  linked "" (rows dev d) ∧ Forall (hashed sha256 parse_date) (rows dev d) ∧ StronglySorted (λ x y, seq x < seq y) (rows dev d).
(** A session the table has, or one after all that it has. *)
Definition in_turn (dev : string) (d : WorkDB) (s : WorkSessionInput) : Prop :=
  (∃ w, w ∈ rows dev d ∧ seq w = wi_seq s) ∨ Forall (λ w, seq w < wi_seq s) (rows dev d).

Section one_device.
Context (dev : string) (Halone : ∀ n d, rows dev (others n d) = rows dev d).

Lemma chain_ok_rows d d' : rows dev d' = rows dev d → chain_ok dev d → chain_ok dev d'.
Proof. unfold chain_ok. by intros ->. Qed.
Lemma read_rows {A} (f : WorkDB → A) s r s' : call others fails (gets f) s = (r, s') →
  rows dev (db s') = rows dev (db s) ∧ ∀ a, r = Ok a → ∃ d, a = f d ∧ rows dev d = rows dev (db s).
Proof.
  unfold call, gets. destruct (fails (calls s)); intros [= <- <-]; cbn [db]; rewrite !Halone; (split; [done|]); [done|].
  intros a [= <-]. eexists. split; [done|]. by rewrite Halone.
Qed.
Lemma quiet_device bearer now s r s' : deviceFromBearer sha256 e others fails bearer now s = (r, s') → rows dev (db s') = rows dev (db s).
Proof.
  intros Hrun. assert (keeps_all (λ d, rows dev d = rows dev (db s)) (deviceFromBearer sha256 e others fails bearer now)) as Hk.
  { assert (Hoth : ∀ n d, rows dev d = rows dev (db s) → rows dev (others n d) = rows dev (db s)) by (intros; by rewrite Halone).
    unfold deviceFromBearer. apply keeps_all_bind; [auto with session|]. intros _. apply keeps_all_bind; [apply keeps_call; auto with session|].
    intros dt. apply keeps_all_bind; [auto with session|]. intros _. apply keeps_all_bind; [auto with session|]. auto with session. }
  specialize (Hk s eq_refl). by rewrite Hrun in Hk.
Qed.
Lemma create_session_run v title s prev t d r d' : create_session sha256 parse_date v title s prev t d = (r, d') →
  d' = d ∨ ∃ started ended, parse_date (wi_startedAt s) = Some started ∧
    d' = {| wctl := wctl d; sessions := sessions d ++ [session_row sha256 v title s prev started ended t] |}.
Proof.
  unfold create_session. rewrite bind_require. destruct (parse_date (wi_startedAt s)) as [started|]; [|intros [= _ <-]; by left].
  assert (Htail : ∀ ended, (taken ← gets (λ d, isSome (find_session (v_id v) (wi_seq s) d));
      _ ← guard_throw taken (PrismaError "P2002");
      modify (λ d, {| wctl := wctl d; sessions := sessions d ++ [session_row sha256 v title s prev started ended t] |})) d = (r, d') →
      d' = d ∨ ∃ started' ended, Some started = Some started' ∧
        d' = {| wctl := wctl d; sessions := sessions d ++ [session_row sha256 v title s prev started' ended t] |}).
  { intros ended. unfold gets, mbind at 1, M_bind at 1. rewrite bind_guard. destruct (isSome _); intros [= _ <-]; [by left|right; by eexists _, _]. }
  unfold mbind at 1, M_bind at 1. destruct (wi_endedAt s) as [x|]; [|apply Htail]. destruct (truthy x); [|apply Htail].
  rewrite bind_require. destruct (parse_date x) as [x'|]; [apply Htail|intros [= _ <-]; by left].
Qed.
Lemma created_rows v title s t d : v_id v = dev → chain_ok dev d → Forall (λ w, seq w < wi_seq s) (rows dev d) →
  ∀ r d', create_session sha256 parse_date v title s (nullish (rowHash <$> last_session dev d) "") t d = (r, d') →
  chain_ok dev d' ∧ (d' = d ∨ ∃ w, seq w = wi_seq s ∧ rows dev d' = rows dev d ++ [w]).
Proof.
  intros Hv (Hl & Hh & Hs) Hlt r d' [->|(started & ended & Hp & ->)]%create_session_run; [by split; [|left]|].
  assert (Hrows : rows dev {| wctl := wctl d; sessions := sessions d ++ [session_row sha256 v title s (nullish (rowHash <$> last_session dev d) "") started ended t] |}
    = rows dev d ++ [session_row sha256 v title s (nullish (rowHash <$> last_session dev d) "") started ended t]).
  { apply device_rows_snoc; [exact Hv|]. eapply Forall_impl; [exact Hlt|]. intros x Hx. apply Z.lt_le_incl, Hx. }
  split; [|right; eexists; split; [|exact Hrows]; done]. unfold chain_ok. rewrite Hrows. split; [|split].
  - apply linked_snoc. split; [done|]. simpl. unfold last_session. by destruct (last (rows dev d)).
  - apply Forall_app. split; [done|]. apply Forall_singleton. by exists (wi_startedAt s).
  - apply StronglySorted_app. split; [|split; [done|repeat constructor]]. intros x y Hx ->%list_elem_of_singleton.
    rewrite Forall_forall in Hlt. by apply Hlt.
Qed.
Lemma same_rows_last d d' : rows dev d' = rows dev d → last_session dev d' = last_session dev d.
Proof. unfold last_session. by intros ->. Qed.
Lemma same_rows_turn d d' : rows dev d' = rows dev d → ∀ s, in_turn dev d s → in_turn dev d' s.
Proof. unfold in_turn. by intros ->. Qed.
Lemma turn_after_append d d' a w l : seq w = wi_seq a → rows dev d' = rows dev d ++ [w] → Forall (λ x, wi_seq a ≤ wi_seq x) l →
  Forall (in_turn dev d) l → Forall (in_turn dev d') l.
Proof.
  intros Hw Hd Hle Ht. rewrite Forall_forall in Hle, Ht |- *. intros x Hx. specialize (Hle x Hx). unfold in_turn. rewrite Hd.
  destruct (Ht x Hx) as [(y & Hy & Hs)|Hlt]; [left; exists y; split; [apply elem_of_app; by left|done]|].
  destruct (decide (wi_seq x = wi_seq a)) as [E|E]; [left; exists w; split; [apply elem_of_app; right; by left|lia]|]. right. apply Forall_app. split; [done|].
  apply Forall_singleton. lia.
Qed.
(** One insertion, between other requests. *)
Lemma create_call v title a prev t s r s' : v_id v = dev → chain_ok dev (db s) → Forall (λ w, seq w < wi_seq a) (rows dev (db s)) →
  (∃ d, prev = last_session dev d ∧ rows dev d = rows dev (db s)) →
  call others fails (create_session sha256 parse_date v title a (nullish (rowHash <$> prev) "") t) s = (r, s') →
  chain_ok dev (db s') ∧ (rows dev (db s') = rows dev (db s) ∨ ∃ w, seq w = wi_seq a ∧ rows dev (db s') = rows dev (db s) ++ [w]).
Proof.
  intros Hv Hok Hlt (d & -> & Hd). unfold call. set (d2 := others (2 * calls s) (db s)).
  assert (H2 : rows dev d2 = rows dev (db s)) by apply Halone.
  rewrite (same_rows_last d2 d) by congruence. destruct (fails _).
  { intros [= _ <-]. cbn [db]. rewrite Halone. split; [|by left]. eapply chain_ok_rows; [|exact Hok]. by rewrite Halone. }
  destruct (create_session _ _ _ _ _ _ _ d2) as [r2 d3] eqn:Hrun. intros [= _ <-]. cbn [db].
  apply created_rows in Hrun as [Hok3 Hrows]; [|done|by eapply chain_ok_rows|by rewrite H2].
  split; [eapply chain_ok_rows; [apply Halone|done]|]. rewrite Halone. destruct Hrows as [->|(w & Hw & Hrows)]; [by left|].
  right. exists w. split; [done|]. by rewrite Hrows, H2.
Qed.
Lemma ingest_loop v l t i k s r s' : v_id v = dev → keyed wi_seq l → chain_ok dev (db s) → Forall (in_turn dev (db s)) l →
  ingest_from sha256 parse_date others fails v l t i k s = (r, s') →
  chain_ok dev (db s') ∧ rows dev (db s) `prefix_of` rows dev (db s').
Proof.
  intros Hv. revert i k s. induction l as [|a l IH]; intros i k s Hl Hok Ht; cbn [ingest_from]; [by intros [= _ <-]|].
  apply StronglySorted_inv in Hl as [Hl Hle]. apply Forall_cons in Ht as [Hta Ht].
  destruct (call others fails (gets (find_session (v_id v) (wi_seq a))) s) as [o s1] eqn:H1. pose proof (read_rows _ _ _ _ H1) as [Hr1 Ho].
  assert (Hok1 : chain_ok dev (db s1)) by by eapply chain_ok_rows.
  assert (Ht1 : Forall (in_turn dev (db s1)) l) by (eapply Forall_impl; [exact Ht|]; by apply same_rows_turn).
  destruct o as [o|er]; [|rewrite (bind_throw _ _ _ _ _ H1); intros [= _ <-]; split; [done|by rewrite Hr1]].
  rewrite (bind_step _ _ _ _ _ H1). destruct (Ho o eq_refl) as (d & -> & Hd). destruct (isSome _) eqn:Hknown.
  { intros Hrun. destruct (IH _ _ s1 Hl Hok1 Ht1 Hrun) as [H2 H3]. split; [done|]. by rewrite <- Hr1. }
  assert (Hlt : Forall (λ w, seq w < wi_seq a) (rows dev (db s))).
  { destruct Hta as [Hin|]; [|done]. rewrite <- Hd in Hin. apply find_session_rows in Hin. rewrite <- Hv in Hin.
    apply isSome_true in Hin. congruence. }
  destruct (call others fails (gets (last_session (v_id v))) s1) as [o s2] eqn:H2. pose proof (read_rows _ _ _ _ H2) as [Hr2 Ho2].
  assert (Hok2 : chain_ok dev (db s2)) by by eapply chain_ok_rows.
  destruct o as [o|er]; [|rewrite (bind_throw _ _ _ _ _ H2); intros [= _ <-]; split; [done|by rewrite Hr2, Hr1]].
  rewrite (bind_step _ _ _ _ _ H2). destruct (Ho2 o eq_refl) as (d' & -> & Hd').
  match goal with |- context [call others fails (create_session ?h ?p ?v ?x ?y ?z ?u)] =>
    destruct (call others fails (create_session h p v x y z u) s2) as [o s3] eqn:H3 end.
  pose proof H3 as Hcall. apply create_call in Hcall as [Hok3 Hrows]; [|done|done|by rewrite Hr2, Hr1|exists d'; rewrite Hv; by rewrite Hr2].
  assert (Hpre : rows dev (db s) `prefix_of` rows dev (db s3)).
  { destruct Hrows as [-> |(w & _ & ->)]; rewrite Hr2, Hr1; [done|by apply prefix_app_r]. }
  destruct o as [[]|er]; [|rewrite (bind_throw _ _ _ _ _ H3); by intros [= _ <-]]. rewrite (bind_step _ _ _ _ _ H3). intros Hrun.
  apply IH in Hrun as [Hok4 Hpre4]; [split; [done|by etransitivity]|done|done|].
  assert (Ht2 : Forall (in_turn dev (db s2)) l) by (eapply Forall_impl; [exact Ht1|]; by apply same_rows_turn).
  destruct Hrows as [Hrows|(w & Hw & Hrows)]; [eapply Forall_impl; [exact Ht2|]; by apply same_rows_turn|].
  by eapply turn_after_append.
Qed.
Lemma ingest_other v l t i k s r s' : v_id v ≠ dev → ingest_from sha256 parse_date others fails v l t i k s = (r, s') →
  rows dev (db s') = rows dev (db s).
Proof.
  intros Hv Hrun. assert (Hoth : ∀ n d, rows dev d = rows dev (db s) → rows dev (others n d) = rows dev (db s)) by (intros; by rewrite Halone).
  assert (Hk : ∀ i k, keeps_all (λ d, rows dev d = rows dev (db s)) (ingest_from sha256 parse_date others fails v l t i k)).
  { clear Hrun. induction l as [|a l' IH]; intros i' k'; cbn [ingest_from]; [auto with session|]. apply keeps_all_bind; [apply keeps_call; auto with session|].
    intros o. destruct (isSome o); [apply IH|]. apply keeps_all_bind; [apply keeps_call; auto with session|]. intros prev.
    apply keeps_all_bind; [|intros _; apply IH]. apply keeps_call; [done|]. intros d Hd.
    destruct (create_session _ _ _ _ _ _ _ d) as [o' d'] eqn:Hc. simpl.
    apply create_session_run in Hc as [->|(started & ended & _ & ->)]; [done|]. by rewrite device_rows_other. }
  specialize (Hk i k s eq_refl). by rewrite Hrun in Hk.
Qed.

(** A device that sends its sessions in turn, each once or again, keeps an unbroken chain: whatever the batch
    holds and wherever a write fails, the rows of the device stay ordered by sequence number, each linked to the
    hash of the one before and carrying the hash of its own fields, and no row is changed or removed. *)
Theorem work_chain_grows bearer l now s r s' :
  chain_ok dev (db s) → Forall (in_turn dev (db s)) l →
  ingest sha256 parse_date e licence others fails bearer l now s = (r, s') →
  chain_ok dev (db s') ∧ rows dev (db s) `prefix_of` rows dev (db s').
Proof.
  intros Hok Ht Hrun. unfold ingest, entitled in Hrun. rewrite bind_lift in Hrun.
  destruct (License.assert_feature _ _ _ _); [|by injection Hrun as _ <-].
  destruct (deviceFromBearer sha256 e others fails bearer now s) as [v s1] eqn:Hdev. pose proof (quiet_device _ _ _ _ _ Hdev) as H1.
  destruct v as [v|er]; [|rewrite (bind_throw _ _ _ _ _ Hdev) in Hrun; injection Hrun as _ <-; split; [by eapply chain_ok_rows|by rewrite H1]].
  rewrite (bind_step _ _ _ _ _ Hdev) in Hrun.
  destruct (ingest_from sha256 parse_date others fails v (sort_by wi_seq l) now 0 0 s1) as [c s2] eqn:Hloop.
  assert (chain_ok dev (db s2) ∧ rows dev (db s) `prefix_of` rows dev (db s2)) as [H2 H3].
  { destruct (decide (v_id v = dev)) as [Hv|Hv].
    - rewrite <- H1. eapply ingest_loop; [done|apply sort_by_keyed|by eapply chain_ok_rows| |exact Hloop].
      rewrite sort_by_perm. eapply Forall_impl; [exact Ht|]. by apply same_rows_turn.
    - apply ingest_other in Hloop; [|done]. split; [eapply chain_ok_rows; [|exact Hok]; congruence|by rewrite Hloop, H1]. }
  destruct c as [c|er]; [|rewrite (bind_throw _ _ _ _ _ Hloop) in Hrun; by injection Hrun as _ <-].
  rewrite (bind_step _ _ _ _ _ Hloop) in Hrun.
  assert (H4 : rows dev (db s') = rows dev (db s2)).
  { assert (keeps_all (λ d, rows dev d = rows dev (db s2)) (_ ← call others fails (audit_log (v_org v) "work.session.ingest" "device" (v_id v)
        [("ingested", nat_json c.1); ("skipped", nat_json c.2)]); mret c)) as Hk.
    { apply keeps_all_bind; [|auto with session]. apply keeps_call; [intros; by rewrite Halone|]. by intros d. }
    specialize (Hk s2 eq_refl). by rewrite Hrun in Hk. }
  split; [by eapply chain_ok_rows|by rewrite H4].
Qed.

(** A batch that the table has changes nothing. *)
Lemma reingest_loop v l t i k s r s' : v_id v = dev → Forall (λ a, ∃ w, w ∈ rows dev (db s) ∧ seq w = wi_seq a) l →
  ingest_from sha256 parse_date others fails v l t i k s = (Ok r, s') → r = (i, (k + length l)%nat) ∧ rows dev (db s') = rows dev (db s).
Proof.
  intros Hv. revert k s. induction l as [|a l IH]; intros k s Hl; cbn [ingest_from length]; [intros [= <- <-]; by rewrite Nat.add_0_r|].
  apply Forall_cons in Hl as [Ha Hl]. intros (o & s1 & H1 & Hrun)%bind_ok. pose proof (read_rows _ _ _ _ H1) as [Hr1 Ho].
  destruct (Ho o eq_refl) as (d & -> & Hd). rewrite <- Hd in Ha. apply find_session_rows in Ha. rewrite <- Hv in Ha. apply isSome_true in Ha.
  rewrite Ha in Hrun. apply IH in Hrun as [-> Hrows]; [|by rewrite Hr1]. split; [f_equal; lia|congruence].
Qed.
End one_device.
End chain.

(** * Witnesses and schedules *)

Definition demo_input (n : Z) (started : string) : WorkSessionInput :=
  {| wi_seq := n; wi_startedAt := started; wi_endedAt := None; wi_kind := None; wi_roleKey := None; wi_repoHash := Some "repo";
     wi_taskTitle := Some "fix"; wi_toolCalls := None; wi_tasksCount := Some 1; wi_filesTouched := None; wi_filePathsHashed := None;
     wi_approvalsRequested := None; wi_approvalsGranted := None; wi_outcome := Some COMMITTED; wi_commitShas := None; wi_model := None;
     wi_tokensIn := None; wi_tokensOut := None; wi_latencyMs := None |}.
Definition demo_work : Session WorkDB := {| db := {| wctl := ctl (db (demo_assets PUBLISHED)); sessions := [] |}; calls := 0 |}.
Definition idle (_ : nat) (d : WorkDB) : WorkDB := d.
(** Two texts of the same instant. *)
Definition demo_date (s : string) : option Z := if mem s ["2024-01-01"; "2024-01-01T00:00:00Z"] then Some 1704067200000 else None.
Local Abbreviation demo_ingest := (ingest (λ b, b) demo_date no_licence_needed None idle unfailing (Some "bearer")).

Lemma work_chain_grows_witness : ∃ s,
  demo_ingest [demo_input 2 "2024-01-01"; demo_input 1 "2024-01-01"] 9 demo_work = (Ok (2, 0)%nat, s) ∧
  map seq (device_rows "d1" (db s)) = [1; 2] ∧ chain_ok (λ b, b) demo_date "d1" (db s).
Proof.
  exists (demo_ingest [demo_input 2 "2024-01-01"; demo_input 1 "2024-01-01"] 9 demo_work).2.
  split; [vm_compute; reflexivity|]. split; [vm_compute; reflexivity|].
  refine (proj1 (work_chain_grows (λ b, b) demo_date no_licence_needed None idle unfailing "d1" _ (Some "bearer")
    [demo_input 2 "2024-01-01"; demo_input 1 "2024-01-01"] 9 demo_work (Ok (2, 0)%nat) _ _ _ _)).
  - reflexivity.
  - split; [exact I|split; [constructor|constructor]].
  - repeat constructor; right; constructor.
  - vm_compute. reflexivity.
Defined.

(** A batch that arrives after a later one: in the order of the sequence numbers the chain is broken. *)
Example late_batch_breaks_chain :
  let s := (demo_ingest [demo_input 1 "2024-01-01"] 9 (demo_ingest [demo_input 2 "2024-01-01"] 9 demo_work).2).2 in
  match device_rows "d1" (db s) with
  | [a; b] => prevHash a = rowHash b ∧ prevHash b = ""
  | _ => False
  end.
Proof. vm_compute. done. Qed.
(** The hash covers the text of the start, of which the row keeps the instant alone. *)
Example start_text_not_kept :
  match device_rows "d1" (db (demo_ingest [demo_input 1 "2024-01-01"] 9 demo_work).2),
        device_rows "d1" (db (demo_ingest [demo_input 1 "2024-01-01T00:00:00Z"] 9 demo_work).2) with
  | [a], [b] => startedAt a = startedAt b ∧ rowHash a ≠ rowHash b
  | _, _ => False
  end.
Proof. vm_compute. done. Qed.
