(* ===== verification/Crash.v ===== *)
(** Desktop crash reports and their alerts ([src/crash-reports/]): the public intake with its rate limits, the
    review, and the worker that claims reports and sends one alert for each. A request runs as in [Session]; the
    state is the table, the counters of the intake in memory, and the requests that left the process. The fixed lines
    of an alert are the UTF-8 bytes of the Chinese text, and are only copied. *)
From S2P Require Import Prelude Js Table Regex Redact Ssrf Access Session.
Local Open Scope Z_scope.

(** * Data *)

Inductive ReportStatus := NEW | REVIEWING | RESOLVED | IGNORED.
Inductive AlertState := PENDING | SENDING | SENT | FAILED.
#[export] Instance ReportStatus_eq_dec : EqDecision ReportStatus.
Proof. solve_decision. Defined.
#[export] Instance AlertState_eq_dec : EqDecision AlertState.
Proof. solve_decision. Defined.
Definition report_status_str (s : ReportStatus) : string :=
  match s with NEW => "NEW" | REVIEWING => "REVIEWING" | RESOLVED => "RESOLVED" | IGNORED => "IGNORED" end.

(** A row, in groups of columns: what identifies the crash, what was told of it, its review, its alert. *)
Record CrashKey := { fingerprint : string; appVersion : string; platform : string; arch : string; kind : string }.
#[export] Instance CrashKey_eq_dec : EqDecision CrashKey.
Proof. solve_decision. Defined.
Record CrashText := { engineVersion : string; summary : string; userDescription : string; context : list string; lastOccurredAt : Z }.
Record CrashReview := { status : ReportStatus; reviewNote : string; reviewedBy : string; reviewedAt : option Z }.
Record CrashAlert := {
  alertState : AlertState; alertGeneration : Z; alertAttempts : Z; alertNextAttemptAt : Z; alertClaimedAt : option Z;
  alertDeliveredAt : option Z; alertLastError : string }.
Record Report := {
  r_id : string; r_key : CrashKey; reportVersion : Z; consentVersion : Z; r_text : CrashText; occurrenceCount : Z;
  r_review : CrashReview; r_alert : CrashAlert }.
Record CrashAlertView := {
  cv_id : string; cv_appVersion : string; cv_engineVersion : string; cv_platform : string; cv_arch : string; cv_kind : string;
  cv_occurrenceCount : Z; cv_generation : Z }.

Record Limiter := { globalSubmissions : list Z; fingerprintSubmissions : list (string * list Z); lastRateLimitCleanup : Z }.
(** What the Feishu sender keeps: its token, until when, and the log of its requests. *)
Record Post := { path : string; body : json; authorization : option string }.
Record Feishu := { token : string; tokenExpiresAt : number; posts : list Post }.
Record CrashDB := { reports : list Report; limiter : Limiter; lastRetentionCleanup : Z; feishu : Feishu }.
Definition on_reports (f : list Report → list Report) (d : CrashDB) : CrashDB :=
  {| reports := f (reports d); limiter := limiter d; lastRetentionCleanup := lastRetentionCleanup d; feishu := feishu d |}.
Definition with_limiter (l : Limiter) (d : CrashDB) : CrashDB :=
  {| reports := reports d; limiter := l; lastRetentionCleanup := lastRetentionCleanup d; feishu := feishu d |}.
Definition with_cleanup (t : Z) (d : CrashDB) : CrashDB :=
  {| reports := reports d; limiter := limiter d; lastRetentionCleanup := t; feishu := feishu d |}.
Definition with_feishu (f : Feishu) (d : CrashDB) : CrashDB :=
  {| reports := reports d; limiter := limiter d; lastRetentionCleanup := lastRetentionCleanup d; feishu := f |}.
Definition find_report (i : string) (d : CrashDB) : option Report := find_by r_id i (reports d).

Definition with_alert (f : CrashAlert → CrashAlert) (r : Report) : Report :=
  {| r_id := r_id r; r_key := r_key r; reportVersion := reportVersion r; consentVersion := consentVersion r; r_text := r_text r;
     occurrenceCount := occurrenceCount r; r_review := r_review r; r_alert := f (r_alert r) |}.
Definition with_review (v : CrashReview) (r : Report) : Report :=
  {| r_id := r_id r; r_key := r_key r; reportVersion := reportVersion r; consentVersion := consentVersion r; r_text := r_text r;
     occurrenceCount := occurrenceCount r; r_review := v; r_alert := r_alert r |}.
Definition reported_again (t : CrashText) (r : Report) : Report :=
  {| r_id := r_id r; r_key := r_key r; reportVersion := reportVersion r; consentVersion := consentVersion r; r_text := t;
     occurrenceCount := occurrenceCount r + 1; r_review := r_review r; r_alert := r_alert r |}.

(** [occurredAt]: the time value of the [Date], [None] for NaN. *)
Record SubmitCrash := {
  sc_key : CrashKey; sc_reportVersion : Z; sc_consentVersion : Z; sc_engineVersion : option string; sc_occurredAt : option Z;
  sc_summary : string; sc_userDescription : option string; sc_context : list string }.
Record SubmitCrashResult := { reportId : string; sr_status : string; sr_occurrences : Z }.

(** * The intake ([src/crash-reports/crash-reports.service.ts]) *)

Definition RETENTION_MS : Z := 90 * 24 * 60 * 60 * 1000.
Definition MAX_CLOCK_SKEW_MS : Z := 5 * 60 * 1000.
Definition GLOBAL_WINDOW_MS : Z := 60 * 60 * 1000.
Definition FINGERPRINT_WINDOW_MS : Z := 24 * 60 * 60 * 1000.
Definition MAX_GLOBAL_PER_HOUR : nat := 1000.
Definition MAX_PER_FINGERPRINT_PER_DAY : nat := 12.
Definition sanitizeCrashText (value : string) (max : nat) : string := sanitizeControlText value max.

Definition within (window now : Z) (l : list Z) : list Z := filter (λ at_, (now - at_ <? window) = true) l.
(** The periodic sweep of the fingerprint map. *)
Definition sweep (now : Z) (m : list (string * list Z)) : list (string * list Z) :=
  filter (λ p, negb (length p.2 =? 0)%nat = true) (map (λ p, (p.1, within FINGERPRINT_WINDOW_MS now p.2)) m).
Definition enforceRateLimit (fp : string) (now : Z) : M CrashDB unit := λ d,
  let l := limiter d in
  let global := within GLOBAL_WINDOW_MS now (globalSubmissions l) in
  let d := with_limiter {| globalSubmissions := global; fingerprintSubmissions := fingerprintSubmissions l;
                           lastRateLimitCleanup := lastRateLimitCleanup l |} d in
  if (MAX_GLOBAL_PER_HOUR <=? length global)%nat then (Throw (TooManyRequests "crash report intake is temporarily busy"), d)
  else
    let recent := within FINGERPRINT_WINDOW_MS now (nullish (assoc fp (fingerprintSubmissions l)) []) in
    if (MAX_PER_FINGERPRINT_PER_DAY <=? length recent)%nat then (Throw (TooManyRequests "this crash was already reported"), d)
    else
      let m := obj_set fp (recent ++ [now]) (fingerprintSubmissions l) in
      let clean := GLOBAL_WINDOW_MS <=? now - lastRateLimitCleanup l in
      (Ok tt, with_limiter {| globalSubmissions := global ++ [now]; fingerprintSubmissions := if clean then sweep now m else m;
                              lastRateLimitCleanup := if clean then now else lastRateLimitCleanup l |} d).

Section intake.
Context (others : nat → CrashDB → CrashDB) (fails : nat → option exn).
Local Abbreviation State := (Session CrashDB).

Definition fresh_alert (now : Z) : CrashAlert :=
  {| alertState := PENDING; alertGeneration := 1; alertAttempts := 0; alertNextAttemptAt := now; alertClaimedAt := None;
     alertDeliveredAt := None; alertLastError := "" |}.
Definition unreviewed (s : ReportStatus) : CrashReview := {| status := s; reviewNote := ""; reviewedBy := ""; reviewedAt := None |}.
Definition crash_text (i : SubmitCrash) (occurred : Z) (previous : string) : CrashText :=
  let told := sanitizeCrashText (nullish (sc_userDescription i) "") 1200 in
  {| engineVersion := nullish (sc_engineVersion i) ""; summary := or_default (sanitizeCrashText (sc_summary i) 500) "Hara Desktop did not close normally";
     userDescription := or_default told previous;
     context := filter (λ c, truthy c = true) (map (λ c, sanitizeCrashText c 80) (sc_context i)); lastOccurredAt := occurred |}.
(** [upsert] on the unique key; the row as it is afterwards. *)
Definition upsert_report (ri : string) (i : SubmitCrash) (occurred now : Z) : M CrashDB Report := λ d,
  match list_find (λ r, r_key r = sc_key i) (reports d) with
  | Some (_, r) =>
      let f r := reported_again (crash_text i occurred (userDescription (r_text r))) r in
      (Ok (f r), on_reports (map (λ x, if decide (r_key x = sc_key i) then f x else x)) d)
  | None =>
      if isSome (find_report ri d) then (Throw (PrismaError "P2002"), d)
      else
        let r := {| r_id := ri; r_key := sc_key i; reportVersion := sc_reportVersion i; consentVersion := sc_consentVersion i;
                    r_text := crash_text i occurred ""; occurrenceCount := 1; r_review := unreviewed NEW; r_alert := fresh_alert now |} in
        (Ok r, on_reports (λ l, l ++ [r]) d)
  end.
(** A crash that comes back after it was resolved alerts again. *)
Definition reopened (now : Z) (r : Report) : Report :=
  with_review (unreviewed NEW) (with_alert (λ a,
    {| alertState := PENDING; alertGeneration := alertGeneration a + 1; alertAttempts := 0; alertNextAttemptAt := now;
       alertClaimedAt := None; alertDeliveredAt := None; alertLastError := "" |}) r).
Definition reopen (i : string) (now : Z) : M CrashDB unit :=
  modify (on_reports (map (λ r, if String.eqb (r_id r) i && bool_decide (status (r_review r) = RESOLVED) then reopened now r else r))).
Definition forget_old (now : Z) : M CrashDB unit :=
  modify (on_reports (filter (λ r, ¬ lastOccurredAt (r_text r) < now - RETENTION_MS))).
(** [now'] is the time of the later [new Date()]; the retention sweep is not awaited. *)
Definition submit (ri : string) (i : SubmitCrash) (now now' : Z) : M State SubmitCrashResult :=
  occurred ← require (sc_occurredAt i) (BadRequestException "crash occurrence time is outside the accepted window");
  _ ← guard_throw ((occurred <? now - RETENTION_MS) || (now + MAX_CLOCK_SKEW_MS <? occurred))
        (BadRequestException "crash occurrence time is outside the accepted window");
  _ ← sync (enforceRateLimit (fingerprint (sc_key i)) now);
  report ← call others fails (upsert_report ri i occurred now');
  _ ← when (bool_decide (status (r_review report) = RESOLVED)) (call others fails (reopen (r_id report) now'));
  due ← sync (gets (λ d, GLOBAL_WINDOW_MS <=? now - lastRetentionCleanup d));
  _ ← when due (_ ← sync (modify (with_cleanup now)); ignore_error (call others fails (forget_old now)));
  mret {| reportId := r_id report; sr_status := "received"; sr_occurrences := occurrenceCount report |}.

Definition REPORT_STATUSES : list ReportStatus := [NEW; REVIEWING; RESOLVED; IGNORED].
Definition boundedLimit (limit : number) : Z :=
  match limit with Num q => Z.max 1 (Z.min 200 (Z.quot (Qnum q) (Zpos (Qden q)))) | _ => 100 end.
Definition list_reports (wanted : option string) (limit : number) : M State (list Report) :=
  let wanted := nullish wanted "" in
  _ ← guard_throw (truthy wanted && negb (mem wanted (map report_status_str REPORT_STATUSES))) (BadRequestException "invalid crash report status");
  call others fails (gets (λ d, take (Z.to_nat (boundedLimit limit)) (sort_by (λ r, - lastOccurredAt (r_text r))
    (filter (λ r, negb (truthy wanted) || String.eqb (report_status_str (status (r_review r))) wanted = true) (reports d))))).
Definition get (i : string) : M State Report :=
  found ← call others fails (gets (find_report i));
  require found (NotFoundException "crash report not found").
Definition update_report (i : string) (f : Report → Report) : M CrashDB Report := λ d,
  match find_report i d with
  | Some r => (Ok (f r), on_reports (update_by r_id i f) d)
  | None => (Throw (PrismaError "P2025"), d)
  end.
Definition retried (now : Z) (a : CrashAlert) : CrashAlert :=
  {| alertState := PENDING; alertGeneration := alertGeneration a; alertAttempts := 0; alertNextAttemptAt := now; alertClaimedAt := None;
     alertDeliveredAt := alertDeliveredAt a; alertLastError := "" |}.
Definition retryAlert (i : string) (now : Z) : M State Report :=
  found ← call others fails (gets (find_report i));
  existing ← require found (NotFoundException "crash report not found");
  _ ← guard_throw (negb (bool_decide (alertState (r_alert existing) = FAILED)))
        (BadRequestException "only a failed crash alert can be retried manually");
  call others fails (update_report i (with_alert (retried now))).
Definition update (i : string) (s : ReportStatus) (note : option string) (actor : Guard.AuthedUser) (now : Z) : M State Report :=
  found ← call others fails (gets (find_report i));
  _ ← require found (NotFoundException "crash report not found");
  call others fails (update_report i (with_review
    {| status := s; reviewNote := sanitizeCrashText (nullish note "") 1000; reviewedBy := or_default (Guard.email actor) (Guard.id actor);
       reviewedAt := Some now |})).
End intake.

(** * Alerts ([src/crash-reports/crash-alerts.service.ts]) *)

Definition CLAIM_TIMEOUT_MS : Z := 5 * 60000.
Definition MAX_ATTEMPTS : Z := 8.
Definition MAX_BACKOFF_MS : Z := 60 * 60000.
(** [/^prefix[A-Za-z0-9]+$/u] *)
Definition prefixed_id (prefix : string) (s : string) : bool :=
  startsWith prefix s && let rest := drop (String.length prefix) (chars s) in forallb is_alnum rest && negb (length rest =? 0)%nat.
Definition APP_ID_PATTERN := prefixed_id "cli_".
Definition CHAT_ID_PATTERN := prefixed_id "oc_".
Definition OPEN_ID_PATTERN := prefixed_id "ou_".
Record FeishuCrashAlertConfig := { appId : string; appSecret : string; chatId : string; mentionOpenId : string }.
Definition configuredValue (e : env) (name : string) : string := trim (nullish (e name) "").
Definition loadCrashAlertConfig (e : env) : res (option FeishuCrashAlertConfig) :=
  let c := {| appId := configuredValue e "HARA_CRASH_FEISHU_APP_ID"; appSecret := configuredValue e "HARA_CRASH_FEISHU_APP_SECRET";
              chatId := configuredValue e "HARA_CRASH_FEISHU_CHAT_ID"; mentionOpenId := configuredValue e "HARA_CRASH_FEISHU_MENTION_OPEN_ID" |} in
  let values := [appId c; appSecret c; chatId c; mentionOpenId c] in
  if forallb (λ v, negb (truthy v)) values then Ok None
  else
    _ ← throw_if (existsb (λ v, negb (truthy v)) values) (Error "Hara crash alerts require all four HARA_CRASH_FEISHU_* settings");
    _ ← throw_if (negb (APP_ID_PATTERN (appId c))) (Error "HARA_CRASH_FEISHU_APP_ID is invalid");
    _ ← throw_if (String.length (appSecret c) <? 20)%nat (Error "HARA_CRASH_FEISHU_APP_SECRET is invalid");
    _ ← throw_if (negb (CHAT_ID_PATTERN (chatId c))) (Error "HARA_CRASH_FEISHU_CHAT_ID is invalid");
    _ ← throw_if (negb (OPEN_ID_PATTERN (mentionOpenId c))) (Error "HARA_CRASH_FEISHU_MENTION_OPEN_ID is invalid");
    Ok (Some c).

Definition field_char (c : ascii) : bool := is_alnum c || is_char "._/-" c.
Definition safeField (value fallback : string) : string :=
  or_default (slice0 64 (str (filter (λ c, field_char c = true) (chars value)))) fallback.
Definition buildCrashAlertText (v : CrashAlertView) (mention : string) : res string :=
  _ ← throw_if (negb (OPEN_ID_PATTERN mention)) (Error "invalid Feishu mention target");
  let engine := if truthy (cv_engineVersion v) then safeField (cv_engineVersion v) "unknown" else "unknown" in
  Ok (join (str [ascii_of_nat 10])
    ["<at user_id=" +:+ dquote mention +:+ ">南荒bot</at>";
     "【Hara Crash Intake · 自动告警】";
     "报告 ID：" +:+ safeField (cv_id v) "unknown";
     "版本：Desktop " +:+ safeField (cv_appVersion v) "unknown" +:+ " · Engine " +:+ engine;
     "环境：" +:+ safeField (cv_platform v) "unknown" +:+ "/" +:+ safeField (cv_arch v) "unknown";
     "类型：" +:+ safeField (cv_kind v) "unknown";
     "发生次数：" +:+ pretty (Z.max 1 (cv_occurrenceCount v));
     "完整诊断信息已脱敏保存在 Hara Control；本消息不含用户描述、会话、文件内容、路径或凭据。";
     "请按报告 ID 从受保护的管理员接口读取详情，并先回复确认后再处理。"]).
Definition hex_value (c : ascii) : Z :=
  if is_digit c then Z.of_nat (code c) - 48 else if in_range 97 102 c then Z.of_nat (code c) - 87 else 0.
Definition hex_digit (n : Z) : ascii := ascii_of_nat (Z.to_nat (if n <? 10 then 48 + n else 87 + n)).
(** [sha256hex]: the digest in 64 lower-case hexadecimal digits. *)
Definition crashAlertUuid (sha256hex : string → string) (i : string) (generation : Z) : string :=
  let hex := take 32 (chars (sha256hex (i +:+ ":" +:+ pretty (Z.max 1 generation)))) in
  let hex := <[12%nat := "5"%char]> hex in
  let hex := <[16%nat := hex_digit (Z.lor (Z.land (hex_value (nullish (hex !! 16%nat) "0"%char)) 3) 8)]> hex in
  str (take 8 hex ++ ["-"%char] ++ take 4 (drop 8 hex) ++ ["-"%char] ++ take 4 (drop 12 hex) ++ ["-"%char] ++ take 4 (drop 16 hex) ++
       ["-"%char] ++ drop 20 hex).
Definition safeDeliveryError (er : exn) : string :=
  let m := replace_all Eps (cats [lit "Bearer"; Rep 1 is_ws; Rep 1 (λ c, negb (is_ws c))]) "Bearer ***" (exn_message er) in
  let m := replace_all Eps (cats [alts [cats [lit "app"; Opt (is_char "_-"); lit "secret"]; lit "token"; lit "authorization"]; Rep 0 is_ws;
                                   Cls (is_char ":="); Rep 0 is_ws; Rep 1 (λ c, negb (is_ws c))]) "credential=***" m in
  or_default (slice0 300 (trim (replace_all Eps (Rep 1 is_ws) " " m))) "unknown delivery failure".

(** What the worker relies on of a sender: it leaves the table to the others. *)
Definition of_reports (I : CrashDB → Prop) : Prop := ∀ d d', reports d' = reports d → I d → I d'.
Class CrashAlertSender (others : nat → CrashDB → CrashDB) := {
  send : CrashAlertView → M (Session CrashDB) unit;
  send_frame : ∀ I v, of_reports I → (∀ n d, I d → I (others n d)) → keeps_all I (send v) }.

(** ** The Feishu sender *)

Module FeishuSender.
Section sender.
Context (others : nat → CrashDB → CrashDB) (fails : nat → option exn).
(** [fetch]: the status and the parsed body ([None]: not JSON), or a network error; it may depend on the requests. *)
Context (fetch : list Post → res (Z * option json)) (sha256hex : string → string) (clock : nat → Z).
Context (config : FeishuCrashAlertConfig).
Local Abbreviation State := (Session CrashDB).

Definition member (k : string) (j : json) : option json := match j with JObj m => assoc k m | _ => None end.
(** [o ?? d] of an optional member. *)
Definition member_or (d : string) (o : option json) : string := match o with Some JNull | None => d | Some j => json_toString j end.
Definition post (p : Post) : M CrashDB (Z * option json) := λ d,
  let d := with_feishu {| token := token (feishu d); tokenExpiresAt := tokenExpiresAt (feishu d); posts := posts (feishu d) ++ [p] |} d in
  (fetch (posts (feishu d)), d).
Definition requestJson (p : Post) : M State json :=
  response ← call others fails (post p);
  match response.2 with
  | None => raise (Error ("Feishu request failed (HTTP " +:+ pretty response.1 +:+ ", invalid JSON)"))
  | Some JNull => raise (Error "TypeError")
  | Some result =>
      _ ← guard_throw (negb ((200 <=? response.1) && (response.1 <=? 299))
                       || negb (match member "code" result with Some (JNum q) => Qeq_bool q 0 | _ => false end))
            (Error ("Feishu request failed (HTTP " +:+ pretty response.1 +:+ ", code " +:+ member_or "unknown" (member "code" result) +:+ ")"));
      mret result
  end.
Definition now : M State Z := λ s, (Ok (clock (calls s)), s).
(** [Date.now() + Math.max(60, Number(result.expire) || 7200) * 1000] *)
Definition expires_at (t : Z) (j : json) : number :=
  match Number_opt (member "expire" j) with
  | Num q => let q := if Qeq_bool q 0 then 7200%Q else q in
             Num (inject_Z t + (if Qle_bool 60 q then q else 60%Q) * 1000)%Q
  | NaN => Num (inject_Z (t + 7200 * 1000))
  | Infinity true => Num (inject_Z (t + 60 * 1000))
  | Infinity false => Infinity false
  end.
Definition set_token (k : string) (until : number) (d : CrashDB) : CrashDB :=
  with_feishu {| token := k; tokenExpiresAt := until; posts := posts (feishu d) |} d.
Definition accessToken : M State string :=
  t ← now;
  cached ← sync (gets feishu);
  if truthy (token cached) && num_ltb (numZ (t + 60000)) (tokenExpiresAt cached) then mret (token cached)
  else
    result ← requestJson {| path := "/open-apis/auth/v3/tenant_access_token/internal";
      body := JObj [("app_id", JStr (appId config)); ("app_secret", JStr (appSecret config))]; authorization := None |};
    let k := member_or "" (member "tenant_access_token" result) in
    _ ← guard_throw (negb (truthy k)) (Error "Feishu authentication succeeded without a tenant token");
    t ← now;
    _ ← sync (modify (set_token k (expires_at t result)));
    mret k.
Definition message (v : CrashAlertView) (content : string) (k : string) : Post :=
  {| path := "/open-apis/im/v1/messages?receive_id_type=chat_id";
     body := JObj [("receive_id", JStr (chatId config)); ("msg_type", JStr "text");
                   ("content", JStr (JSON_stringify (JObj [("text", JStr content)])));
                   ("uuid", JStr (crashAlertUuid sha256hex (cv_id v) (cv_generation v)))];
     authorization := Some ("Bearer " +:+ k) |}.
Definition feishu_send (v : CrashAlertView) : M State unit :=
  content ← lift (buildCrashAlertText v (mentionOpenId config));
  k ← accessToken;
  _ ← requestJson (message v content k);
  mret tt.

(** The sender touches its own state alone. *)
Section frame.
Context (I : CrashDB → Prop) (Hframe : of_reports I) (Hothers : ∀ n d, I d → I (others n d)).
Lemma feishu_state_keeps {A} (m : M CrashDB A) : (∀ d, reports (m d).2 = reports d) → keeps I m.
Proof. intros Hm d. by apply Hframe, Hm. Qed.
Lemma requestJson_keeps p : keeps_all I (requestJson p).
Proof.
  unfold requestJson. apply keeps_all_bind; [by apply keeps_call; [|apply feishu_state_keeps]|].
  intros [http [[]|]]; try (by apply keeps_all_id); apply keeps_all_bind; intros; auto with session.
Qed.
Lemma accessToken_keeps : keeps_all I accessToken.
Proof.
  unfold accessToken. apply keeps_all_bind; [by apply keeps_all_id|]. intros t. apply keeps_all_bind; [apply keeps_sync, keeps_gets|].
  intros cached. destruct (_ && _); [auto with session|]. apply keeps_all_bind; [apply requestJson_keeps|]. intros result. cbv zeta.
  apply keeps_all_bind; [auto with session|]. intros _. apply keeps_all_bind; [by apply keeps_all_id|]. intros t'.
  apply keeps_all_bind; [by apply keeps_sync, feishu_state_keeps|auto with session].
Qed.
End frame.
#[export] Program Instance feishu_sender : CrashAlertSender others := { send := feishu_send }.
Next Obligation.
  intros I v Hframe Hothers. unfold feishu_send. apply keeps_all_bind; [apply keeps_all_lift|]. intros content.
  apply keeps_all_bind; [by apply accessToken_keeps|]. intros k. apply keeps_all_bind; [by apply requestJson_keeps|]. auto with session.
Qed.
End sender.
End FeishuSender.

(** ** The worker *)

Section worker.
Context (others : nat → CrashDB → CrashDB) (fails : nat → option exn) `{!CrashAlertSender others}.
Local Abbreviation State := (Session CrashDB).

(** A report to alert now, or one whose claim went stale. *)
Definition ready (now : Z) (r : Report) : bool :=
  let a := r_alert r in
  (alertAttempts a <? MAX_ATTEMPTS) &&
  ((bool_decide (alertState a = PENDING) && (alertNextAttemptAt a <=? now))
   || (bool_decide (alertState a = SENDING) && match alertClaimedAt a with Some t => t <=? now - CLAIM_TIMEOUT_MS | None => false end)).
Definition claimed (now : Z) (a : CrashAlert) : CrashAlert :=
  {| alertState := SENDING; alertGeneration := alertGeneration a; alertAttempts := alertAttempts a + 1;
     alertNextAttemptAt := alertNextAttemptAt a; alertClaimedAt := Some now; alertDeliveredAt := alertDeliveredAt a;
     alertLastError := alertLastError a |}.
(** [updateMany]: the rows that match, and how many. *)
Definition update_where (p : Report → bool) (f : Report → Report) : M CrashDB nat := λ d,
  (Ok (length (filter (λ r, p r = true) (reports d))), on_reports (map (λ r, if p r then f r else r)) d).
Definition claim (i : string) (now : Z) : M CrashDB nat :=
  update_where (λ r, String.eqb (r_id r) i && ready now r) (with_alert (claimed now)).
Definition view_of (r : Report) : CrashAlertView :=
  {| cv_id := r_id r; cv_appVersion := appVersion (r_key r); cv_engineVersion := engineVersion (r_text r); cv_platform := platform (r_key r);
     cv_arch := arch (r_key r); cv_kind := kind (r_key r); cv_occurrenceCount := occurrenceCount r;
     cv_generation := alertGeneration (r_alert r) |}.
Definition still_claimed (i : string) (now : Z) (r : Report) : bool :=
  String.eqb (r_id r) i && bool_decide (alertState (r_alert r) = SENDING) && bool_decide (alertClaimedAt (r_alert r) = Some now).
Definition delivered (now : Z) (a : CrashAlert) : CrashAlert :=
  {| alertState := SENT; alertGeneration := alertGeneration a; alertAttempts := alertAttempts a; alertNextAttemptAt := alertNextAttemptAt a;
     alertClaimedAt := None; alertDeliveredAt := Some now; alertLastError := "" |}.
Definition backoff (attempts : Z) : Z := Z.min MAX_BACKOFF_MS (30000 * 2 ^ (Z.max 0 (attempts - 1))).
Definition refused (attempts now : Z) (message : string) (a : CrashAlert) : CrashAlert :=
  {| alertState := if MAX_ATTEMPTS <=? attempts then FAILED else PENDING; alertGeneration := alertGeneration a;
     alertAttempts := alertAttempts a; alertNextAttemptAt := now + backoff attempts; alertClaimedAt := None;
     alertDeliveredAt := alertDeliveredAt a; alertLastError := message |}.
(** [now'] is the time of the delivery. *)
Definition processOne (now now' : Z) : M State bool :=
  candidate ← call others fails (gets (λ d, head (sort_by (λ r, alertNextAttemptAt (r_alert r)) (filter (λ r, ready now r = true) (reports d)))));
  match candidate with
  | None => mret false
  | Some c =>
      count ← call others fails (claim (r_id c) now);
      if negb (count =? 1)%nat then mret true
      else
        report ← call others fails (gets (find_report (r_id c)));
        match report with
        | None => mret true
        | Some r =>
            _ ← try_catch
                  (_ ← send (view_of r);
                   call others fails (update_where (still_claimed (r_id r) now) (with_alert (delivered now'))))
                  (λ er, call others fails (update_where (still_claimed (r_id r) now)
                           (with_alert (refused (alertAttempts (r_alert r)) now (safeDeliveryError er)))));
            mret true
        end
  end.
(** [tick]: [while (await this.processOne(...)) {}] with [clock] the times of the iterations; an error pauses the
    worker. [None]: out of fuel. *)
Fixpoint tick (clock : nat → Z * Z) (fuel n : nat) : State → option State := λ s,
  match fuel with
  | O => None
  | S fuel' =>
      match processOne (clock n).1 (clock n).2 s with
      | (Ok true, s') => tick clock fuel' (S n) s'
      | (_, s') => Some s'
      end
  end.
End worker.

(** * The rate limit *)

(** The submissions that the limiter lets through, of a sequence of attempts. *)
Fixpoint admitted (l : list (string * Z)) (d : CrashDB) : list (string * Z) :=
  match l with
  | [] => []
  | a :: l' =>
      let '(r, d') := enforceRateLimit a.1 a.2 d in
      match r with Ok _ => a :: admitted l' d' | Throw _ => admitted l' d' end
  end.
Definition no_submission : Limiter := {| globalSubmissions := []; fingerprintSubmissions := []; lastRateLimitCleanup := 0 |}.
(** How many of [l] lie in the window that ends at [t]. *)
Definition in_window (window t : Z) (l : list Z) : nat := length (filter (λ at_, t - window < at_ <= t) l).

Lemma within_within w t t' l : t' <= t → within w t (within w t' l) = within w t l.
Proof.
  intros Ht. unfold within. rewrite list_filter_filter. apply list_filter_iff. intros x. rewrite !Z.ltb_lt. lia.
Qed.
Lemma filter_count_mono {A} (P Q : A → Prop) `{∀ x, Decision (P x), ∀ x, Decision (Q x)} (l : list A) :
  (∀ x, P x → Q x) → (length (filter P l) <= length (filter Q l))%nat.
Proof.
  intros HPQ. induction l as [|x l IH]; [done|]. rewrite !filter_cons. repeat case_decide; simpl; naive_solver lia.
Qed.
Lemma within_app w t l k : within w t (l ++ k) = within w t l ++ within w t k.
Proof. apply filter_app. Qed.
Lemma within_length_mono w t t' l : t' <= t → (length (within w t l) <= length (within w t' l))%nat.
Proof.
  intros Ht. apply filter_count_mono. intros x. rewrite !Z.ltb_lt. lia.
Qed.
Lemma in_window_within w t l : (in_window w t l <= length (within w t l))%nat.
Proof. apply filter_count_mono. intros x. rewrite Z.ltb_lt. lia. Qed.
(** A window stays bounded when what is let through had room. *)
Lemma in_window_snoc w l now (n : nat) : (length (within w now l) < n)%nat → (∀ t, in_window w t l <= n)%nat →
  ∀ t, (in_window w t (l ++ [now]) <= n)%nat.
Proof.
  intros Hroom Hl t. unfold in_window. rewrite filter_app, length_app. destruct (decide (now <= t)) as [Ht|Ht].
  - assert (H1 := in_window_within w t l). assert (H2 := within_length_mono w t now l Ht). unfold in_window in H1.
    rewrite filter_cons. case_decide; simpl; lia.
  - rewrite (filter_cons_False _ now) by lia. specialize (Hl t). unfold in_window in Hl. simpl. lia.
Qed.

Definition recent_of (fp : string) (m : list (string * list Z)) : list Z := nullish (assoc fp m) [].
Lemma recent_of_set fp k v m : recent_of fp (obj_set k v m) = if decide (fp = k) then v else recent_of fp m.
Proof. unfold recent_of. case_decide as E; [subst; by rewrite assoc_obj_set|by rewrite assoc_obj_set_ne]. Qed.
Lemma sweep_keys now m : NoDup m.*1 → NoDup (sweep now m).*1.
Proof.
  intros Hm. eapply sublist_NoDup; [exact Hm|]. clear Hm. unfold sweep. induction m as [|[k v] m IH]; [done|].
  cbn [map fst snd]. rewrite filter_cons. cbn [fmap list_fmap fst]. case_decide; by constructor.
Qed.
Lemma sweep_recent fp now m : NoDup m.*1 → recent_of fp (sweep now m) = within FINGERPRINT_WINDOW_MS now (recent_of fp m).
Proof.
  unfold recent_of. induction m as [|[k v] m IH]; [done|]. rewrite fmap_cons. intros [Hk Hm]%NoDup_cons. unfold sweep.
  cbn [map fst snd]. rewrite filter_cons. cbn [snd]. case_decide as Hv; cbn [assoc].
  - destruct (String.eqb fp k) eqn:E; [done|]. by apply IH.
  - fold (sweep now m). rewrite IH by done. destruct (String.eqb fp k) eqn:E; [|done].
    apply String.eqb_eq in E as ->. rewrite (proj2 (assoc_None k m) Hk). cbn [nullish default].
    cbn [snd id] in *. by destruct (within FINGERPRINT_WINDOW_MS now v); [|destruct Hv].
Qed.

Definition times (fp : string) (log : list (string * Z)) : list Z := map snd (filter (λ a, a.1 = fp) log).
(** The limiter remembers what matters of the log, and every window of the log is bounded. *)
Record tracked (last : Z) (log : list (string * Z)) (d : CrashDB) : Prop := {
  tr_keys : NoDup (fingerprintSubmissions (limiter d)).*1;
  tr_global t : last <= t → within GLOBAL_WINDOW_MS t (map snd log) = within GLOBAL_WINDOW_MS t (globalSubmissions (limiter d));
  tr_recent fp t : last <= t →
    within FINGERPRINT_WINDOW_MS t (times fp log) = within FINGERPRINT_WINDOW_MS t (recent_of fp (fingerprintSubmissions (limiter d)));
  tr_global_bound t : (in_window GLOBAL_WINDOW_MS t (map snd log) <= MAX_GLOBAL_PER_HOUR)%nat;
  tr_recent_bound fp t : (in_window FINGERPRINT_WINDOW_MS t (times fp log) <= MAX_PER_FINGERPRINT_PER_DAY)%nat }.

Lemma tracked_refused last log d now : tracked last log d → last <= now →
  tracked now log (with_limiter {| globalSubmissions := within GLOBAL_WINDOW_MS now (globalSubmissions (limiter d));
    fingerprintSubmissions := fingerprintSubmissions (limiter d); lastRateLimitCleanup := lastRateLimitCleanup (limiter d) |} d).
Proof.
  intros [Hk Hg Hr Hgb Hrb] Hnow. split; cbn [limiter with_limiter globalSubmissions fingerprintSubmissions]; try done.
  - intros t Ht. rewrite within_within by done. apply Hg. lia.
  - intros fp t Ht. apply Hr. lia.
Qed.
Lemma times_snoc fp fp' log now : times fp (log ++ [(fp', now)]) = times fp log ++ (if decide (fp' = fp) then [now] else []).
Proof. unfold times. rewrite filter_app, map_app, filter_cons. simpl. by case_decide. Qed.
Lemma tracked_step last log d fp now : tracked last log d → last <= now →
  let '(r, d') := enforceRateLimit fp now d in tracked now (log ++ if is_ok r then [(fp, now)] else []) d'.
Proof.
  intros Hd Hnow. pose proof (tracked_refused _ _ _ _ Hd Hnow) as Href. destruct Hd as [Hk Hg Hr Hgb Hrb].
  unfold enforceRateLimit. cbv zeta. destruct (MAX_GLOBAL_PER_HOUR <=? _)%nat eqn:Hglobal; [by rewrite app_nil_r|].
  fold (recent_of fp (fingerprintSubmissions (limiter d))).
  destruct (MAX_PER_FINGERPRINT_PER_DAY <=? _)%nat eqn:Hrecent; [by rewrite app_nil_r|]. clear Href.
  apply Nat.leb_gt in Hglobal. apply Nat.leb_gt in Hrecent. rewrite <- Hg in Hglobal by done. rewrite <- Hr in Hrecent by done.
  destruct (obj_set_keys fp (within FINGERPRINT_WINDOW_MS now (recent_of fp (fingerprintSubmissions (limiter d))) ++ [now]) _ Hk)
    as [Hk' _].
  split; cbn [limiter with_limiter globalSubmissions fingerprintSubmissions is_ok].
  - case_match; [by apply sweep_keys|done].
  - intros t Ht. rewrite map_app, !within_app, within_within by done. f_equal. apply Hg. lia.
  - intros fp' t Ht. trans (within FINGERPRINT_WINDOW_MS t (recent_of fp' (obj_set fp
      (within FINGERPRINT_WINDOW_MS now (recent_of fp (fingerprintSubmissions (limiter d))) ++ [now]) (fingerprintSubmissions (limiter d))))).
    + rewrite recent_of_set, times_snoc. destruct (decide (fp' = fp)) as [->|Hne].
      * rewrite decide_True, !within_app, within_within, Hr by done || lia. done.
      * rewrite decide_False, app_nil_r by congruence. apply Hr. lia.
    + case_match; [|done]. by rewrite sweep_recent, within_within.
  - rewrite map_app. by apply in_window_snoc.
  - intros fp' t. rewrite times_snoc. case_decide; [subst; by apply in_window_snoc|by rewrite app_nil_r].
Qed.
Lemma admitted_tracked l last log d : tracked last log d → StronglySorted Z.le (last :: map snd l) →
  ∃ last' d', tracked last' (log ++ admitted l d) d'.
Proof.
  revert last log d. induction l as [|[fp now] l IH]; intros last log d Hd Hl; [exists last, d; by rewrite app_nil_r|].
  apply StronglySorted_inv in Hl as [Hl Hlast]. apply Forall_cons in Hlast as [Hlast _]. cbn [admitted fst snd] in *.
  pose proof (tracked_step _ _ _ fp now Hd Hlast) as Hs. destruct (enforceRateLimit fp now d) as [[u|er] d'].
  - destruct (IH now _ d' Hs Hl) as (? & ? & H). eexists _, _. by rewrite <- app_assoc in H.
  - rewrite app_nil_r in Hs. by apply (IH now).
Qed.

(** C35: the public intake is bounded. Of any sequence of submissions at times that never go back, starting from a
    fresh process, those that pass the rate limit are at most 1000 in any window of an hour, and at most 12 in any
    window of a day for one crash fingerprint, wherever the windows lie and however the periodic sweep of the
    counters falls. *)
Theorem intake_rate_bounded l d : limiter d = no_submission → StronglySorted Z.le (map snd l) →
  ∀ t, (in_window GLOBAL_WINDOW_MS t (map snd (admitted l d)) <= MAX_GLOBAL_PER_HOUR)%nat ∧
       ∀ fp, (in_window FINGERPRINT_WINDOW_MS t (times fp (admitted l d)) <= MAX_PER_FINGERPRINT_PER_DAY)%nat.
Proof.
  intros Hd Hl. destruct l as [|[fp0 t0] l]; [intros t; split; [|intros fp]; apply Nat.le_0_l|].
  destruct (admitted_tracked ((fp0, t0) :: l) t0 [] d) as (last & d' & Htr).
  - split; rewrite ?Hd; try done; [constructor|..]; intros; apply Nat.le_0_l.
  - constructor; [done|]. apply StronglySorted_inv in Hl as [_ Hl]. by constructor.
  - intros t. split; [apply (tr_global_bound _ _ _ Htr)|]. intros fp. apply (tr_recent_bound _ _ _ Htr).
Qed.

(** * What the table holds *)

Definition text_ok (t : CrashText) : Prop :=
  clean_text 500 (summary t) ∧ summary t ≠ "" ∧ clean_text 1200 (userDescription t) ∧
  Forall (λ c, clean_text 80 c ∧ c ≠ "") (context t).
(** The states of an alert: claimed exactly while it is being sent, at most eight attempts a round. *)
Definition alert_ok (a : CrashAlert) : Prop :=
  0 <= alertAttempts a <= MAX_ATTEMPTS ∧ 1 <= alertGeneration a ∧ (alertState a = SENDING ↔ is_Some (alertClaimedAt a)) ∧
  (alertState a = SENT → is_Some (alertDeliveredAt a)) ∧ (length (chars (alertLastError a)) <= 300)%nat.
Definition report_ok (r : Report) : Prop :=
  text_ok (r_text r) ∧ clean_text 1000 (reviewNote (r_review r)) ∧ alert_ok (r_alert r) ∧ 1 <= occurrenceCount r.
Record crash_ok (d : CrashDB) : Prop := {
  cr_ids : NoDup (map r_id (reports d)); cr_keys : NoDup (map r_key (reports d)); cr_reports : Forall report_ok (reports d) }.

Lemma crash_ok_frame : of_reports crash_ok.
Proof. intros d d' Heq [Hi Hk Hr]. by split; rewrite Heq. Qed.
(** An update of rows in place. *)
Definition keeps_report (f : Report → Report) : Prop :=
  ∀ r, report_ok r → r_id (f r) = r_id r ∧ r_key (f r) = r_key r ∧ report_ok (f r).
Lemma crash_ok_map f d : keeps_report f → crash_ok d → crash_ok (on_reports (map f) d).
Proof.
  intros Hf [Hi Hk Hr]. rewrite Forall_forall in Hr. split; cbn [on_reports reports]; rewrite ?map_map.
  - erewrite map_ext_in; [exact Hi|]. intros r Hin%list_elem_of_In. by apply Hf, Hr.
  - erewrite map_ext_in; [exact Hk|]. intros r Hin%list_elem_of_In. by apply Hf, Hr.
  - apply Forall_map, Forall_forall. intros r Hin. by apply Hf, Hr.
Qed.
Lemma keeps_report_if (p : Report → bool) f : (∀ r, p r = true → report_ok r → r_id (f r) = r_id r ∧ r_key (f r) = r_key r ∧ report_ok (f r)) →
  keeps_report (λ r, if p r then f r else r).
Proof. intros Hf r Hr. destruct (p r) eqn:E; auto. Qed.
Lemma keeps_report_decide (P : Report → Prop) `{∀ r, Decision (P r)} f : keeps_report f → keeps_report (λ r, if decide (P r) then f r else r).
Proof. intros Hf r Hr. case_decide; auto. Qed.
Lemma with_alert_ok f r : (alert_ok (r_alert r) → alert_ok (f (r_alert r))) → report_ok r →
  r_id (with_alert f r) = r_id r ∧ r_key (with_alert f r) = r_key r ∧ report_ok (with_alert f r).
Proof. intros Hf (? & ? & ? & ?). split_and!; auto. split_and!; auto. Qed.

Lemma default_summary_clean : clean_text 500 "Hara Desktop did not close normally".
Proof.
  split_and!; [by vm_compute; lia|by repeat constructor| |by intros c [= <-]].
  repeat (apply spaced_cons; [by (left; discriminate) || by right|]). by intros [] ?.
Qed.
Lemma crash_text_ok i occurred previous : clean_text 1200 previous → text_ok (crash_text i occurred previous).
Proof.
  intros Hp. unfold crash_text, text_ok. cbn [summary userDescription context]. unfold or_default. split_and!.
  - case_match; [apply sanitize_spec|apply default_summary_clean].
  - case_match; [by apply truthy_true|done].
  - case_match; [apply sanitize_spec|done].
  - apply Forall_forall. intros c [Hc Hin]%list_elem_of_filter. split; [|by apply truthy_true].
    apply list_elem_of_fmap in Hin as (c' & -> & _). apply sanitize_spec.
Qed.
Lemma safeDeliveryError_bound er : (length (chars (safeDeliveryError er)) <= 300)%nat.
Proof.
  unfold safeDeliveryError. cbv zeta. unfold or_default, slice0. case_match; [|vm_compute; lia]. rewrite chars_str, length_take. lia.
Qed.

Lemma fresh_alert_ok now : alert_ok (fresh_alert now).
Proof. unfold alert_ok, MAX_ATTEMPTS. cbn. split_and!; try lia; try done; by intros []. Qed.
Lemma reopened_ok now r : report_ok r → r_id (reopened now r) = r_id r ∧ r_key (reopened now r) = r_key r ∧ report_ok (reopened now r).
Proof.
  intros (Ht & _ & (_ & Hg & _) & Ho). split_and!; [done..|]. split_and!; [done|apply clean_nil| |done].
  unfold alert_ok, MAX_ATTEMPTS. cbn. split_and!; try lia; try done; by intros [].
Qed.
Lemma retried_ok now a : alert_ok a → alert_ok (retried now a).
Proof. intros (_ & Hg & _). unfold alert_ok, MAX_ATTEMPTS. cbn. split_and!; try lia; try done; by intros []. Qed.
Lemma claimed_ok now a : alertAttempts a < MAX_ATTEMPTS → alert_ok a → alert_ok (claimed now a).
Proof. intros Ha (? & Hg & _ & _ & He). unfold alert_ok. cbn. split_and!; try lia; try done. Qed.
Lemma delivered_ok now a : alert_ok a → alert_ok (delivered now a).
Proof. intros (? & Hg & _). unfold alert_ok. cbn. split_and!; try lia; try done; by intros []. Qed.
Lemma refused_ok n now er a : alert_ok a → alert_ok (refused n now (safeDeliveryError er) a).
Proof.
  intros (? & Hg & _). unfold alert_ok, refused. cbn [alertAttempts alertGeneration alertState alertClaimedAt alertDeliveredAt alertLastError].
  split_and!; try lia; [|by case_match|apply safeDeliveryError_bound]. split; [by case_match|by intros []].
Qed.

Lemma update_report_keeps i f : keeps_report f → keeps crash_ok (update_report i f).
Proof.
  intros Hf d Hd. unfold update_report. destruct (find_report i d); [|done]. cbn [snd]. unfold update_by.
  by apply crash_ok_map; [apply keeps_report_decide|].
Qed.
Lemma update_where_keeps p f : (∀ r, p r = true → alert_ok (r_alert r) → alert_ok (f (r_alert r))) → keeps crash_ok (update_where p (with_alert f)).
Proof. intros Hf d Hd. apply crash_ok_map; [|done]. apply keeps_report_if. intros r Hp. apply with_alert_ok. by apply Hf. Qed.
Lemma enforceRateLimit_keeps fp now : keeps crash_ok (enforceRateLimit fp now).
Proof. intros d Hd. eapply crash_ok_frame; [|exact Hd]. unfold enforceRateLimit. cbv zeta. by repeat case_match. Qed.
Lemma upsert_keeps ri i occurred now : keeps crash_ok (upsert_report ri i occurred now).
Proof.
  intros d Hd. unfold upsert_report. destruct (list_find _ (reports d)) as [[n r]|] eqn:Hfind; cbn [snd].
  - apply crash_ok_map; [|done]. apply keeps_report_decide. intros x ((_ & _ & ? & _) & ? & ? & ?). cbn [reported_again r_id r_key].
    split_and!; [done..|]. split_and!; [by apply crash_text_ok|done..|]. cbn. lia.
  - apply list_find_None in Hfind. destruct (find_report ri d) eqn:Hid; [done|]. cbn [isSome snd]. destruct Hd as [Hi Hk Hr].
    split; cbn [on_reports reports]; rewrite ?map_app.
    + apply NoDup_app. split_and!; [done| |apply NoDup_singleton]. intros j (x & -> & Hx)%list_elem_of_fmap Hj%list_elem_of_singleton.
      cbn [r_id] in Hj. eapply find_by_None; [exact Hid|exact Hx|done].
    + apply NoDup_app. split_and!; [done| |apply NoDup_singleton]. intros j (x & -> & Hx)%list_elem_of_fmap Hj%list_elem_of_singleton.
      cbn [r_key] in Hj. rewrite Forall_forall in Hfind. by apply (Hfind x).
    + apply Forall_snoc_intro; [done|]. split_and!; [apply crash_text_ok, clean_nil|apply clean_nil|apply fresh_alert_ok|done].
Qed.
Lemma forget_keeps now : keeps crash_ok (forget_old now).
Proof.
  intros d [Hi Hk Hr]. split; cbn.
  - eapply sublist_NoDup; [exact Hi|]. apply fmap_sublist, sublist_filter.
  - eapply sublist_NoDup; [exact Hk|]. apply fmap_sublist, sublist_filter.
  - rewrite Forall_forall in Hr |- *. intros r [_ Hin]%list_elem_of_filter. by apply Hr.
Qed.

Section sound.
Context (others : nat → CrashDB → CrashDB) (fails : nat → option exn) `{!CrashAlertSender others}.
Context (Hothers : ∀ n d, crash_ok d → crash_ok (others n d)).
Lemma crash_call {A} (m : M CrashDB A) : keeps crash_ok m → keeps_all crash_ok (call others fails m).
Proof. by apply keeps_call. Qed.
Lemma crash_read {A} (f : CrashDB → A) : keeps_all crash_ok (call others fails (gets f)).
Proof. apply crash_call, keeps_gets. Qed.

Lemma submit_keeps ri i now now' : keeps_all crash_ok (submit others fails ri i now now').
Proof.
  unfold submit. apply keeps_all_bind; [apply keeps_all_require|]. intros occurred.
  apply keeps_all_bind; [apply keeps_all_guard|]. intros _.
  apply keeps_all_bind; [apply keeps_sync, enforceRateLimit_keeps|]. intros _.
  apply keeps_all_bind; [apply crash_call, upsert_keeps|]. intros report. apply keeps_all_bind.
  { unfold when. case_match; [|apply keeps_all_ret]. apply crash_call. intros d Hd. apply crash_ok_map; [|done].
    apply keeps_report_if. intros r _. apply reopened_ok. }
  intros _. apply keeps_all_bind; [apply keeps_sync, keeps_gets|]. intros due. apply keeps_all_bind; [|intros; apply keeps_all_ret].
  unfold when. case_match; [|apply keeps_all_ret]. apply keeps_all_bind.
  - apply keeps_sync. intros d Hd. by eapply crash_ok_frame; [|exact Hd].
  - intros _. apply keeps_all_try; [apply crash_call, forget_keeps|intros; apply keeps_all_ret].
Qed.
Lemma retryAlert_keeps i now : keeps_all crash_ok (retryAlert others fails i now).
Proof.
  unfold retryAlert. apply keeps_all_bind; [apply crash_read|]. intros found. apply keeps_all_bind; [apply keeps_all_require|]. intros r.
  apply keeps_all_bind; [apply keeps_all_guard|]. intros _. apply crash_call, update_report_keeps. intros x. apply with_alert_ok, retried_ok.
Qed.
Lemma update_keeps i s note actor now : keeps_all crash_ok (update others fails i s note actor now).
Proof.
  unfold update. apply keeps_all_bind; [apply crash_read|]. intros found. apply keeps_all_bind; [apply keeps_all_require|]. intros _.
  apply crash_call, update_report_keeps. intros r (? & ? & ? & ?). split_and!; [done..|]. split_and!; try done. apply sanitize_spec.
Qed.
Lemma claim_keeps i now : keeps crash_ok (claim i now).
Proof.
  apply update_where_keeps. intros r [_ [Hlt%Z.ltb_lt _]%andb_true_iff]%andb_true_iff. by apply claimed_ok.
Qed.
Lemma processOne_keeps now now' : keeps_all crash_ok (processOne others fails now now').
Proof.
  unfold processOne. apply keeps_all_bind; [apply crash_read|]. intros [c|]; [|apply keeps_all_ret].
  apply keeps_all_bind; [apply crash_call, claim_keeps|]. intros n. destruct (negb _); [apply keeps_all_ret|].
  apply keeps_all_bind; [apply crash_read|]. intros [r|]; [|apply keeps_all_ret]. apply keeps_all_bind; [|intros; apply keeps_all_ret].
  apply keeps_all_try.
  - apply keeps_all_bind; [by apply send_frame; [apply crash_ok_frame|]|]. intros _. apply crash_call, update_where_keeps. intros x _. apply delivered_ok.
  - intros er. apply crash_call, update_where_keeps. intros x _. apply refused_ok.
Qed.
Lemma tick_keeps clock fuel n s s' : crash_ok (db s) → tick others fails clock fuel n s = Some s' → crash_ok (db s').
Proof.
  revert n s. induction fuel as [|fuel IH]; intros n s Hs; [done|]. cbn [tick].
  pose proof (processOne_keeps (clock n).1 (clock n).2 s Hs) as Hp. destruct (processOne _ _ _ _ s) as [[[]|er] s1]; cbn [snd] in Hp.
  - by apply IH.
  - by intros [= <-].
  - by intros [= <-].
Qed.

(** The requests of the component and the turns of the worker. *)
Inductive CrashRequest :=
  | Submit (ri : string) (i : SubmitCrash) (now now' : Z)
  | ListReports (wanted : option string) (limit : number)
  | GetReport (i : string)
  | RetryAlert (i : string) (now : Z)
  | UpdateReport (i : string) (s : ReportStatus) (note : option string) (actor : Guard.AuthedUser) (now : Z)
  | ProcessOne (now now' : Z).
Definition handle (q : CrashRequest) : M (Session CrashDB) unit :=
  match q with
  | Submit ri i now now' => _ ← submit others fails ri i now now'; mret tt
  | ListReports w l => _ ← list_reports others fails w l; mret tt
  | GetReport i => _ ← get others fails i; mret tt
  | RetryAlert i now => _ ← retryAlert others fails i now; mret tt
  | UpdateReport i s note actor now => _ ← update others fails i s note actor now; mret tt
  | ProcessOne now now' => _ ← processOne others fails now now'; mret tt
  end.

(** crash reports stay sound under any interleaving. Whatever other requests and workers do between the calls of
    a request, as long as they keep the table sound, and whichever calls fail, the request keeps it sound: one row per
    id and per crash key; every text redacted, free of control characters and within its column; an alert has a
    claim time exactly while it is being sent, at most eight attempts, a delivery time once sent. *)
Theorem crash_reports_sound q s : crash_ok (db s) → crash_ok (db (handle q s).2).
Proof.
  intros Hs. enough (H : keeps_all crash_ok (handle q)) by by apply H. clear s Hs.
  destruct q; cbn [handle]; (apply keeps_all_bind; [|intros; apply keeps_all_ret]).
  - apply submit_keeps.
  - apply keeps_all_bind; [apply keeps_all_guard|intros; apply crash_read].
  - apply keeps_all_bind; [apply crash_read|intros; apply keeps_all_require].
  - apply retryAlert_keeps.
  - apply update_keeps.
  - apply processOne_keeps.
Qed.
End sound.

(** * The worker drains the queue *)

Section drain.
Context (fails : nat → option exn) `{!CrashAlertSender alone}.

(** The attempts that the reports have left. *)
Definition attempts_left (l : list Report) : nat := list_sum (map (λ r, Z.to_nat (MAX_ATTEMPTS - alertAttempts (r_alert r))) l).
Lemma attempts_left_map f l : Forall (λ r, alertAttempts (r_alert r) <= alertAttempts (r_alert (f r))) l →
  (attempts_left (map f l) <= attempts_left l)%nat.
Proof. unfold attempts_left. induction 1 as [|r l Hr _ IH]; [done|]. cbn [map list_sum foldr]. unfold list_sum in IH. lia. Qed.
Lemma attempts_left_claim f l c : Forall (λ r, alertAttempts (r_alert r) <= alertAttempts (r_alert (f r))) l → c ∈ l →
  alertAttempts (r_alert c) < MAX_ATTEMPTS → alertAttempts (r_alert c) < alertAttempts (r_alert (f c)) →
  (attempts_left (map f l) < attempts_left l)%nat.
Proof.
  intros Hl Hc Hlt Hf. induction Hl as [|r l Hr Hl IH]; [by apply not_elem_of_nil in Hc|].
  apply elem_of_cons in Hc as [->|Hc].
  - pose proof (attempts_left_map f l Hl) as H. unfold attempts_left, list_sum in *. cbn [map foldr]. lia.
  - specialize (IH Hc). unfold attempts_left, list_sum in *. cbn [map foldr]. lia.
Qed.
Lemma claim_attempts c now l : c ∈ l → ready now c = true →
  (attempts_left (map (λ r, if String.eqb (r_id r) (r_id c) && ready now r then with_alert (claimed now) r else r) l) < attempts_left l)%nat.
Proof.
  intros Hc Hr. pose proof Hr as [Hlt%Z.ltb_lt _]%andb_true_iff. eapply attempts_left_claim; [|exact Hc|done|].
  - apply Forall_forall. intros r _. case_match; cbn; lia.
  - rewrite String.eqb_refl, Hr. cbn. lia.
Qed.
(** The last write of a turn spends nothing. *)
Lemma settle_attempts p f s : (∀ a, alertAttempts (f a) = alertAttempts a) →
  attempts_left (reports (db (call alone fails (update_where p (with_alert f)) s).2)) = attempts_left (reports (db s)).
Proof.
  intros Hf. unfold call, alone. destruct (fails (calls s)); [done|]. cbn [update_where snd db on_reports reports].
  unfold attempts_left. rewrite map_map. f_equal. apply map_ext. intros r. case_match; [|done]. cbn [with_alert r_alert]. by rewrite Hf.
Qed.
Lemma send_reports v s : reports (db (send v s).2) = reports (db s).
Proof. by apply (send_frame (λ d, reports d = reports (db s)) v); [intros d d' ->|..]. Qed.

Definition deliver (r : Report) (now now' : Z) : M (Session CrashDB) nat :=
  try_catch
    (_ ← send (view_of r); call alone fails (update_where (still_claimed (r_id r) now) (with_alert (delivered now'))))
    (λ er, call alone fails (update_where (still_claimed (r_id r) now)
             (with_alert (refused (alertAttempts (r_alert r)) now (safeDeliveryError er))))).
Lemma deliver_attempts r now now' s : attempts_left (reports (db (deliver r now now' s).2)) = attempts_left (reports (db s)).
Proof.
  unfold deliver, try_catch. pose proof (send_reports (view_of r) s) as Hs. destruct (send (view_of r) s) as [[u|er] s1] eqn:E; cbn [snd] in Hs.
  - rewrite (bind_step _ _ _ _ _ E). pose proof (settle_attempts (still_claimed (r_id r) now) (delivered now') s1 ltac:(done)) as Ha.
    destruct (call alone fails _ s1) as [[n|er] s2]; cbn [snd] in *; [by rewrite Ha, Hs|].
    rewrite settle_attempts by done. by rewrite Ha, Hs.
  - rewrite (bind_throw _ _ _ _ _ E), settle_attempts by done. by rewrite Hs.
Qed.
Lemma call_alone_throw {A} (m : M CrashDB A) s er s' : (∀ d, ∃ a, m d = (Ok a, (m d).2)) → call alone fails m s = (Throw er, s') →
  ∃ k, fails k = Some er.
Proof.
  intros Hm. unfold call, alone. destruct (fails (calls s)) eqn:E; [intros [= <- _]; by eexists|].
  destruct (Hm (db s)) as [a Ha]. rewrite Ha. by intros [=].
Qed.
Lemma deliver_throw r now now' s er s' : deliver r now now' s = (Throw er, s') → ∃ k er', fails k = Some er'.
Proof.
  unfold deliver, try_catch. destruct ((_ ← send (view_of r); _) s) as [[n|er1] s1]; [done|]. intros H. apply call_alone_throw in H as [k Hk].
  - by exists k, er.
  - intros d. by eexists.
Qed.

(** One turn: it spends an attempt, or finds nothing to do, or a call failed. *)
Definition turn_post (now : Z) (l : list Report) (r : res bool) (l' : list Report) : Prop :=
  match r with
  | Ok true => (attempts_left l' < attempts_left l)%nat
  | Ok false => Forall (λ x, ready now x = false) l'
  | Throw _ => ∃ k er, fails k = Some er
  end.
Lemma candidate_spec now l : match head (sort_by (λ r, alertNextAttemptAt (r_alert r)) (filter (λ r, ready now r = true) l)) with
  | Some c => c ∈ l ∧ ready now c = true | None => Forall (λ r, ready now r = false) l end.
Proof.
  pose proof (sort_by_perm (λ r, alertNextAttemptAt (r_alert r)) (filter (λ r, ready now r = true) l)) as Hp.
  destruct (sort_by _ _) as [|c k]; cbn [head].
  - apply Permutation_nil in Hp. apply Forall_forall. intros r Hr. apply not_true_iff_false. intros Hrd.
    assert (r ∈ filter (λ r, ready now r = true) l) as Hin by by apply list_elem_of_filter. by rewrite Hp in Hin; apply not_elem_of_nil in Hin.
  - assert (c ∈ filter (λ r, ready now r = true) l) as Hin by (rewrite <- Hp; by left). by apply list_elem_of_filter in Hin as [? ?].
Qed.
Lemma turn now now' s : let '(r, s') := processOne alone fails now now' s in turn_post now (reports (db s)) r (reports (db s')).
Proof.
  unfold processOne. unfold mbind at 1, M_bind at 1, call at 1, gets. destruct (fails (calls s)) as [er|] eqn:Hf1; [by exists (calls s), er|].
  cbn [alone]. pose proof (candidate_spec now (reports (db s))) as Hc. destruct (head _) as [c|]; [|exact Hc]. destruct Hc as [Hc Hready].
  unfold mbind at 1, M_bind at 1, call at 1. cbn [calls db alone]. destruct (fails (S (calls s))) as [er|] eqn:Hf2; [by exists (S (calls s)), er|].
  pose proof (claim_attempts c now (reports (db s)) Hc Hready) as Hclaim. unfold claim, update_where. cbn [on_reports].
  set (l1 := map _ (reports (db s))) in *. destruct (negb _); [exact Hclaim|].
  unfold mbind at 1, M_bind at 1, call at 1. cbn [calls db alone]. destruct (fails (S (S (calls s)))) as [er|] eqn:Hf3; [by exists (S (S (calls s))), er|].
  cbn [gets]. match goal with |- context [match ?f with Some _ => _ | None => _ end _] => destruct f as [r|] end; [|exact Hclaim].
  match goal with |- context [(?m ≫= ?k) ?st] => change m with (deliver r now now'); set (s1 := st) end.
  pose proof (deliver_attempts r now now' s1) as Ha. destruct (deliver r now now' s1) as [[n|er] s2] eqn:Hd; cbn [snd] in Ha.
  - rewrite (bind_step _ _ _ _ _ Hd). cbn. by rewrite Ha.
  - rewrite (bind_throw _ _ _ _ _ Hd). by eapply deliver_throw.
Qed.

(** C18: the worker drains the queue. Left alone, a tick of the alert worker ends whatever the sender and the database
    calls do - each turn spends one of the at most eight attempts that a report has left, so there is at
    most one turn more than attempts left - and when no database call fails it ends with no report that was due at its
    last look at the clock. *)
Theorem drain_terminates clock fuel n s : (S (attempts_left (reports (db s))) <= fuel)%nat →
  ∃ s', tick alone fails clock fuel n s = Some s' ∧
    ((∀ k, fails k = None) → ∃ m, (n <= m < n + fuel)%nat ∧ Forall (λ r, ready (clock m).1 r = false) (reports (db s'))).
Proof.
  revert n s. induction fuel as [|fuel IH]; intros n s Hfuel; [lia|]. cbn [tick].
  pose proof (turn (clock n).1 (clock n).2 s) as Ht. destruct (processOne _ _ _ _ s) as [[[]|er] s1]; cbn [turn_post] in Ht.
  - destruct (IH (S n) s1) as (s' & Hs' & Hd); [lia|]. exists s'. split; [done|]. intros Hno. destruct (Hd Hno) as (m & ? & ?).
    exists m. split; [lia|done].
  - exists s1. split; [done|]. intros _. exists n. split; [lia|done].
  - exists s1. split; [done|]. intros Hno. destruct Ht as (k & er' & Hk). by rewrite Hno in Hk.
Qed.
End drain.

(** * Witnesses and schedules *)

#[local] Program Instance quiet_sender : CrashAlertSender alone := { send := λ _, mret tt }.
Next Obligation. intros I v _ _. apply keeps_all_ret. Qed.
#[local] Program Instance broken_sender : CrashAlertSender alone := { send := λ _, raise (Error "token=abc refused") }.
Next Obligation. intros I v _ _. by apply keeps_all_id. Qed.
Definition demo_key : CrashKey := {| fingerprint := "f0"; appVersion := "1.2.0"; platform := "macos"; arch := "arm64"; kind := "unclean_exit" |}.
Definition demo_submit (at_ : Z) : SubmitCrash :=
  {| sc_key := demo_key; sc_reportVersion := 1; sc_consentVersion := 1; sc_engineVersion := None; sc_occurredAt := Some at_;
     sc_summary := "closed"; sc_userDescription := Some "password: hunter2"; sc_context := ["cold start"; ""] |}.
Definition demo_crashes (l : list Report) : Session CrashDB :=
  {| db := {| reports := l; limiter := no_submission; lastRetentionCleanup := 0;
              feishu := {| token := ""; tokenExpiresAt := Num 0; posts := [] |} |}; calls := 0 |}.
(** A report whose alert was tried [n] times. *)
Definition demo_report (i : string) (n : Z) : Report :=
  {| r_id := i; r_key := {| fingerprint := i; appVersion := "1.2.0"; platform := "macos"; arch := "arm64"; kind := "unclean_exit" |};
     reportVersion := 1; consentVersion := 1; r_text := crash_text (demo_submit 0) 0 ""; occurrenceCount := 1; r_review := unreviewed NEW;
     r_alert := {| alertState := PENDING; alertGeneration := 1; alertAttempts := n; alertNextAttemptAt := 0; alertClaimedAt := None;
                   alertDeliveredAt := None; alertLastError := "" |} |}.

Example submit_redacts : match submit alone no_fault "r1" (demo_submit 1000) 2000 2000 (demo_crashes []) with
  | (Ok r, s) => (sr_occurrences r, map (λ x, userDescription (r_text x)) (reports (db s))) | _ => (0, []) end
  = (1, ["credential=***"]).
Proof. vm_compute. reflexivity. Qed.

Lemma intake_rate_bounded_witness : let l := map (λ n, ("f0", Z.of_nat n)) (seq 0 14) in
  length (admitted l (db (demo_crashes []))) = 12%nat ∧
  (in_window FINGERPRINT_WINDOW_MS 50 (times "f0" (admitted l (db (demo_crashes [])))) <= MAX_PER_FINGERPRINT_PER_DAY)%nat.
Proof.
  split; [vm_compute; reflexivity|].
  apply (intake_rate_bounded (map (λ n, ("f0", Z.of_nat n)) (seq 0 14)) (db (demo_crashes []))); [reflexivity|].
  cbn. repeat constructor; vm_compute; discriminate.
Defined.

Lemma crash_reports_sound_witness : ∃ s',
  handle alone no_fault (Submit "r2" (demo_submit 1000) 2000 2000) (demo_crashes []) = (Ok tt, s') ∧ length (reports (db s')) = 1%nat ∧ crash_ok (db s').
Proof.
  eexists. split; [vm_compute; reflexivity|]. split; [reflexivity|].
  refine (crash_reports_sound alone no_fault _ (Submit "r2" (demo_submit 1000) 2000 2000) (demo_crashes []) _); [done|].
  split; constructor.
Defined.

(** Two reports, one of them on its last attempt, with a sender that always fails: one attempt each, then they wait. *)
Lemma drain_terminates_witness : ∃ s',
  tick alone no_fault (λ _, (100, 100)) 11 0 (demo_crashes [demo_report "r1" 0; demo_report "r2" 7]) = Some s' ∧
  map (λ r, (alertState (r_alert r), alertAttempts (r_alert r), alertNextAttemptAt (r_alert r), alertLastError (r_alert r))) (reports (db s'))
    = [(PENDING, 1, 30100, "credential=*** refused"); (FAILED, 8, 3600100, "credential=*** refused")] ∧
  Forall (λ r, ready 100 r = false) (reports (db s')).
Proof.
  destruct (drain_terminates no_fault (λ _, (100, 100)) 11 0 (demo_crashes [demo_report "r1" 0; demo_report "r2" 7])) as (s' & Hs' & Hd);
    [vm_compute; lia|].
  exists s'. split; [exact Hs'|]. split; [|by destruct (Hd (λ _, eq_refl)) as (m & _ & Hm)].
  clear Hd. revert Hs'. vm_compute. by intros [= <-].
Defined.

(** A claim that is never settled - here the two last writes fail - on the eighth attempt: the report is not due at any
    time again, and the manual retry refuses it, as it has not failed. *)
Definition lost_after_claim (n : nat) : option exn := if (3 <=? n)%nat && (n <=? 4)%nat then Some (PrismaError "P1001") else None.
Example last_attempt_lost : ∃ s r,
  processOne alone lost_after_claim 100 100 (demo_crashes [demo_report "r1" 7]) = (Throw (PrismaError "P1001"), s) ∧
  reports (db s) = [r] ∧ (∀ now, ready now r = false) ∧
  (retryAlert alone no_fault "r1" 200 s).1 = Throw (BadRequestException "only a failed crash alert can be retried manually").
Proof. eexists _, _. split_and!; [vm_compute; reflexivity|reflexivity|done|vm_compute; reflexivity]. Qed.

(** A manual retry whose report is sent between its check and its write: the alert that was sent is queued again. *)
Definition failed_report : Report := with_alert (λ a,
  {| alertState := FAILED; alertGeneration := 1; alertAttempts := 8; alertNextAttemptAt := 0; alertClaimedAt := None;
     alertDeliveredAt := None; alertLastError := "x" |}) (demo_report "r1" 0).
Definition sent_meanwhile (n : nat) (d : CrashDB) : CrashDB :=
  if (n =? 2)%nat then on_reports (map (with_alert (delivered 150))) d else d.
Example retry_overtaken : map (λ r, (alertState (r_alert r), alertDeliveredAt (r_alert r), ready 200 r))
  (reports (db (retryAlert sent_meanwhile no_fault "r1" 100 (demo_crashes [failed_report])).2)) = [(PENDING, Some 150, true)].
Proof. vm_compute. reflexivity. Qed.
