(* ===== verification/Startup.v ===== *)
(** How a production process comes up: the environment file and the preflight of the launcher
    ([scripts/with-production-env.mjs]), the credential of the feedback intake ([src/config/feedback-intake.ts]) with
    the guard that uses it, the check the process makes of its own environment ([src/config/runtime-security.ts]), and
    the inspection of the process manager ([scripts/assert-pm2-env-safe.mjs]). The file system, [URL] parsing and the
    effective user are parameters; in the launcher [fail] ends the process, here it is an error. *)
From S2P Require Import Prelude Js Crypto Secrets ModelPolicy Ssrf Crash.
Local Open Scope nat_scope.

(** * The environment file *)

Module EnvFile.
Definition newline : ascii := ascii_of_nat 10.
Definition return_char : ascii := ascii_of_nat 13.
Definition quote_char : ascii := ascii_of_nat 34.
Definition backslash : ascii := "\"%char.

Definition fail {A} (line : nat) (m : string) : res A := Throw (Error ("line " +:+ pretty line +:+ " " +:+ m)).
(** [contents.split(/\r?\n/)] *)
Definition drop_return (l : list ascii) : list ascii :=
  match last l with Some c => if Ascii.eqb c return_char then take (length l - 1) l else l | None => l end.
Fixpoint lines_of (l : list string) : list string :=
  match l with
  | x :: ((_ :: _) as k) => str (drop_return (chars x)) :: lines_of k
  | _ => l
  end.
Definition file_lines (contents : string) : list string := lines_of (split newline contents).

(** The two replacements in a double-quoted value: a pair of backslashes by one, then an escaped quote by a quote. *)
Fixpoint merge_backslashes (l : list ascii) : list ascii :=
  match l with
  | a :: ((b :: l') as k) => if Ascii.eqb a backslash && Ascii.eqb b backslash then backslash :: merge_backslashes l'
                           else a :: merge_backslashes k
  | _ => l
  end.
Fixpoint unescape_quotes (l : list ascii) : list ascii :=
  match l with
  | a :: ((b :: l') as k) => if Ascii.eqb a backslash && Ascii.eqb b quote_char then quote_char :: unescape_quotes l'
                           else a :: unescape_quotes k
  | _ => l
  end.
Definition decodeQuoted (raw : string) (line : nat) : res string :=
  let value := trim_l (chars raw) in
  match value with
  | [] => Ok ""
  | quote :: rest =>
      if negb (Ascii.eqb quote "'") && negb (Ascii.eqb quote quote_char) then Ok (str value)
      else if (length value <? 2) || negb (match last value with Some c => Ascii.eqb c quote | None => false end)
      then fail line "has an unterminated quoted value"
      else
        let body := take (length rest - 1) rest in
        if Ascii.eqb quote "'" then
          if mem "'"%char body then fail line "contains an unsupported single quote" else Ok (str body)
        else Ok (str (unescape_quotes (merge_backslashes body)))
  end.

Definition name_start (c : ascii) : bool := is_upper c || is_lower c || is_char "_" c.
Definition name_char (c : ascii) : bool := is_alnum c || is_char "_" c.
Fixpoint span (p : ascii → bool) (l : list ascii) : list ascii * list ascii :=
  match l with
  | c :: l' => if p c then let '(a, b) := span p l' in (c :: a, b) else ([], l)
  | [] => ([], [])
  end.
(** The match of the line: white space, a name, an equals sign, and the rest without a line break. *)
Definition assignment (original : string) : option (string * string) :=
  let '(name, rest) := span name_char (dropWhile is_ws (chars original)) in
  match name, rest with
  | c :: _, e :: raw =>
      if name_start c && Ascii.eqb e "=" && negb (mem return_char raw) && negb (mem newline raw) then Some (str name, str raw) else None
  | _, _ => None
  end.
Definition forbidden (c : ascii) : bool := (code c =? 0) || (code c =? 10) || (code c =? 13).
(** Writing [__proto__] with a string changes nothing. *)
Definition define (name value : string) (parsed : list (string * string)) : list (string * string) :=
  if String.eqb name "__proto__" then parsed else parsed ++ [(name, value)].
Definition parse_line (lineNumber : nat) (original : string) (parsed : list (string * string)) : res (list (string * string)) :=
  let line := trim original in
  if negb (truthy line) || startsWith "#" line then Ok parsed
  else if startsWith "export " line then fail lineNumber "must use NAME=value, not shell syntax"
  else match assignment original with
       | None => fail lineNumber "is not a valid NAME=value assignment"
       | Some (name, raw) =>
           if isSome (assoc name parsed) then fail lineNumber ("repeats " +:+ name)
           else
             value ← decodeQuoted raw lineNumber;
             if existsb forbidden (chars value) then fail lineNumber "contains a forbidden control character"
             else Ok (define name value parsed)
       end.
Fixpoint parse_lines (n : nat) (l : list string) (parsed : list (string * string)) : res (list (string * string)) :=
  match l with
  | [] => Ok parsed
  | original :: l' => parsed ← parse_line n original parsed; parse_lines (S n) l' parsed
  end.
Definition parseEnvFile (contents : string) : res (list (string * string)) := parse_lines 1 (file_lines contents) [].

(** ** A file for any environment *)

(** A value in double quotes. *)
Definition escape (l : list ascii) : list ascii :=
  l ≫= λ c, if Ascii.eqb c backslash then [backslash; backslash] else if Ascii.eqb c quote_char then [backslash; quote_char] else [c].
Definition print_line (p : string * string) : string := p.1 +:+ "=" +:+ str ([quote_char] ++ escape (chars p.2) ++ [quote_char]).
Definition print_env (l : list (string * string)) : string := join (String newline "") (map print_line l).
Definition valid_name (s : string) : Prop :=
  match chars s with c :: _ => name_start c = true | [] => False end ∧ Forall (λ c, name_char c = true) (chars s) ∧ s ≠ "__proto__".
Definition valid_env (l : list (string * string)) : Prop :=
  NoDup l.*1 ∧ Forall (λ p, valid_name p.1 ∧ Forall (λ c, forbidden c = false) (chars p.2)) l.

(** ** Parsing undoes printing *)

Definition escape_quotes (l : list ascii) : list ascii := l ≫= λ c, if Ascii.eqb c quote_char then [backslash; quote_char] else [c].
Lemma merge_other a k : a ≠ backslash → merge_backslashes (a :: k) = a :: merge_backslashes k.
Proof. intros Ha%Ascii.eqb_neq. destruct k; [done|]. cbn [merge_backslashes]. by rewrite Ha. Qed.
Lemma merge_escape l : merge_backslashes (escape l) = escape_quotes l.
Proof.
  unfold escape, escape_quotes. induction l as [|c l IH]; [done|]. cbn [mbind list_bind].
  destruct (Ascii.eqb c backslash) eqn:Eb.
  - apply Ascii.eqb_eq in Eb as ->. cbn. by rewrite IH.
  - apply Ascii.eqb_neq in Eb. destruct (Ascii.eqb c quote_char) eqn:Eq.
    + cbn [app]. change (merge_backslashes (backslash :: quote_char :: ?k)) with (backslash :: merge_backslashes (quote_char :: k)).
      by rewrite merge_other, IH.
    + cbn [app]. by rewrite merge_other, IH.
Qed.
Lemma unescape_other a k : (a ≠ backslash ∨ head k ≠ Some quote_char) → unescape_quotes (a :: k) = a :: unescape_quotes k.
Proof.
  intros Ha. destruct k as [|b k]; [done|]. cbn [unescape_quotes]. destruct (Ascii.eqb a backslash && Ascii.eqb b quote_char) eqn:E; [|done].
  apply andb_true_iff in E as [->%Ascii.eqb_eq ->%Ascii.eqb_eq]. by destruct Ha.
Qed.
Lemma escape_quotes_head l : head (escape_quotes l) ≠ Some quote_char.
Proof.
  destruct l as [|c l]; [done|]. unfold escape_quotes. cbn. destruct (Ascii.eqb c quote_char) eqn:E; cbn; [done|].
  apply Ascii.eqb_neq in E. congruence.
Qed.
Lemma unquote_escaped l : unescape_quotes (escape_quotes l) = l.
Proof.
  induction l as [|c l IH]; [done|]. change (escape_quotes (c :: l)) with
    ((if Ascii.eqb c quote_char then [backslash; quote_char] else [c]) ++ escape_quotes l).
  destruct (Ascii.eqb c quote_char) eqn:E.
  - apply Ascii.eqb_eq in E as ->. cbn [app unescape_quotes]. by rewrite IH.
  - cbn [app]. rewrite unescape_other, IH; [done|]. right. apply escape_quotes_head.
Qed.

Lemma trim_l_ends a l b : is_ws a = false → is_ws b = false → trim_l (a :: l ++ [b]) = a :: l ++ [b].
Proof.
  intros Ha Hb. unfold trim_l. cbn [dropWhile]. rewrite Ha, reverse_cons, reverse_app. cbn [reverse rev_append app]. cbn [dropWhile].
  change (reverse [b]) with [b]. cbn [app dropWhile]. rewrite Hb. rewrite reverse_cons, reverse_app, reverse_involutive. done.
Qed.
Lemma decode_printed l n : decodeQuoted (str ([quote_char] ++ escape l ++ [quote_char])) n = Ok (str l).
Proof.
  unfold decodeQuoted. rewrite chars_str. cbn [app]. rewrite trim_l_ends by done. cbn [negb andb]. 
  change (Ascii.eqb quote_char "'") with false. rewrite Ascii.eqb_refl. cbn [negb andb].
  assert ((length (quote_char :: escape l ++ [quote_char]) <? 2) = false) as ->
    by (apply Nat.ltb_ge; cbn [length]; rewrite length_app; cbn [length]; lia).
  rewrite last_cons, last_snoc, Ascii.eqb_refl. cbn [orb negb].
  rewrite length_app. cbn [length]. rewrite Nat.add_sub, take_app_length. by rewrite merge_escape, unquote_escaped.
Qed.
Lemma span_name (name rest : list ascii) c : Forall (λ x, name_char x = true) name → name_char c = false →
  span name_char (name ++ c :: rest) = (name, c :: rest).
Proof. induction 1 as [|x l Hx Hl IH]; intros Hc; cbn [app span]; [by rewrite Hc|]. by rewrite Hx, IH. Qed.
Lemma escape_no c l : c ∉ l → c ≠ backslash → c ≠ quote_char → c ∉ escape l.
Proof.
  intros Hl Hb Hq [x [Hc Hx]]%list_elem_of_bind. revert Hc. repeat case_match; rewrite ?elem_of_cons, elem_of_nil; naive_solver.
Qed.
Lemma forbidden_not c l : Forall (λ x, forbidden x = false) l → forbidden c = true → c ∉ l.
Proof. rewrite Forall_forall. intros Hl Hc Hin. specialize (Hl c Hin). congruence. Qed.
Lemma name_char_ws c : name_char c = true → is_ws c = false.
Proof.
  assert (forallb (λ n, negb (name_char (ascii_of_nat n) && is_ws (ascii_of_nat n))) (seq 0 256) = true) as H by (vm_compute; reflexivity).
  rewrite forallb_forall in H. intros Hc. apply not_true_iff_false. intros Hw. specialize (H (nat_of_ascii c)).
  rewrite ascii_nat_embedding, Hc, Hw in H. discriminate H. apply in_seq. pose proof (nat_ascii_bounded c). lia.
Qed.
Lemma print_line_chars name value : chars (print_line (name, value)) =
  chars name ++ "="%char :: quote_char :: escape (chars value) ++ [quote_char].
Proof. unfold print_line. cbn [fst snd]. by rewrite !chars_app, chars_str. Qed.

Lemma starts_head a c l : a ≠ c → startsWith (String a "") (str (c :: l)) = false.
Proof. intros Ha. unfold startsWith. cbn [str String.string_of_list_ascii String.prefix]. by destruct (ascii_dec a c). Qed.

Section printed.
Context (name value : string) (Hname : valid_name name) (Hvalue : Forall (λ c, forbidden c = false) (chars value)).
Lemma printed_start : ∃ c l, chars (print_line (name, value)) = c :: l ++ [quote_char] ∧ name_start c = true ∧ is_ws c = false.
Proof.
  destruct Hname as (Hs & Hall & _). rewrite print_line_chars. destruct (chars name) as [|c k]; [done|]. apply Forall_cons in Hall as [Hc _].
  exists c, (k ++ "="%char :: quote_char :: escape (chars value)). split; [|split; [done|by apply name_char_ws]].
  cbn [app]. by rewrite <- app_assoc.
Qed.
Lemma printed_trim : trim (print_line (name, value)) = print_line (name, value).
Proof. destruct printed_start as (c & l & Hl & _ & Hc). unfold trim. rewrite Hl, trim_l_ends, <- Hl by done. apply str_chars. Qed.
Lemma printed_span : span name_char (chars (print_line (name, value))) =
  (chars name, "="%char :: quote_char :: escape (chars value) ++ [quote_char]).
Proof. rewrite print_line_chars. destruct Hname as (_ & Hall & _). by apply span_name. Qed.
Lemma printed_not_export : startsWith "export " (print_line (name, value)) = false.
Proof.
  apply not_true_iff_false. intros Hp. apply String.prefix_correct in Hp. pose proof printed_span as Hspan.
  rewrite <- (str_chars (print_line (name, value))) in Hp.
  assert (∃ r, chars (print_line (name, value)) = chars "export " ++ r) as [r Hr].
  { revert Hp. generalize (chars (print_line (name, value))). intros l. do 7 (destruct l as [|? l]; [done|]). cbn.
    intros [= -> -> -> -> -> -> ->]. by exists l. }
  rewrite Hr in Hspan. change (chars "export " ++ r) with (chars "export" ++ " "%char :: r) in Hspan.
  rewrite span_name in Hspan by (done || by repeat constructor). by injection Hspan.
Qed.
Lemma printed_no_break c : forbidden c = true → c ∉ chars (print_line (name, value)).
Proof.
  intros Hc. assert (name_char c = false ∧ c ≠ backslash ∧ c ≠ quote_char ∧ c ≠ "="%char) as (Hn & Hb & Hq & He).
  { unfold forbidden in Hc. rewrite !orb_true_iff, !Nat.eqb_eq in Hc. split_and!; [|by intros ->; destruct Hc as [[]|]..].
    rewrite <- (ascii_nat_embedding c). change (nat_of_ascii c) with (code c). by destruct Hc as [[->| ->]| ->]. }
  rewrite print_line_chars. destruct Hname as (_ & Hall & _). rewrite elem_of_app, !elem_of_cons, elem_of_app, list_elem_of_singleton.
  intros [Hin|[|[|[Hin|]]]]; try done.
  - rewrite Forall_forall in Hall. specialize (Hall c Hin). congruence.
  - revert Hin. apply escape_no; [|done..]. by eapply forbidden_not.
Qed.
Lemma printed_assignment : assignment (print_line (name, value)) =
  Some (name, str ([quote_char] ++ escape (chars value) ++ [quote_char])).
Proof.
  unfold assignment. destruct printed_start as (c & l & Hl & Hs & Hc). assert (dropWhile is_ws (chars (print_line (name, value))) =
    chars (print_line (name, value))) as -> by (rewrite Hl; cbn [dropWhile]; by rewrite Hc).
  rewrite printed_span. pose proof Hname as (Hstart & _ & _). destruct (chars name) as [|n0 k] eqn:En; [done|].
  rewrite Hstart. assert (∀ b, forbidden b = true → mem b (quote_char :: escape (chars value) ++ [quote_char]) = false) as Hno.
  { intros b Hb. apply mem_false. intros Hin. apply (printed_no_break b Hb). rewrite print_line_chars, elem_of_app, elem_of_cons. auto. }
  rewrite !Hno by done. cbn [andb negb]. change (Ascii.eqb "=" "=") with true. by rewrite <- En, str_chars.
Qed.
Lemma parse_printed n parsed : assoc name parsed = None → parse_line n (print_line (name, value)) parsed = Ok (parsed ++ [(name, value)]).
Proof.
  intros Hnew. unfold parse_line. rewrite printed_trim, printed_not_export. destruct printed_start as (c & l & Hl & Hs & Hc).
  assert (negb (truthy (print_line (name, value))) || startsWith "#" (print_line (name, value)) = false) as ->.
  { rewrite <- (str_chars (print_line (name, value))), Hl. apply (starts_head "#"%char). by intros <-. }
  rewrite printed_assignment, Hnew. cbn [isSome]. rewrite decode_printed, str_chars. cbn [mbind res_bind].
  assert (existsb forbidden (chars value) = false) as ->.
  { apply not_true_iff_false. rewrite existsb_exists. intros (x & Hx%list_elem_of_In & Hf). rewrite Forall_forall in Hvalue.
    specialize (Hvalue x Hx). congruence. }
  unfold define. destruct Hname as (_ & _ & Hproto). by rewrite (proj2 (String.eqb_neq _ _) Hproto).
Qed.
End printed.

Lemma parse_printed_lines l : ∀ n parsed, valid_env l → NoDup (parsed ++ l).*1 →
  parse_lines n (map print_line l) parsed = Ok (parsed ++ l).
Proof.
  induction l as [|[name value] l IH]; intros n parsed Hl Hnd; [by rewrite app_nil_r|].
  destruct Hl as [Hdl [[Hname Hvalue] Hl]%Forall_cons]. cbn [map parse_lines]. rewrite parse_printed; try done.
  - cbn [mbind res_bind]. rewrite IH; [by rewrite <- app_assoc|split; [|done]|by rewrite <- app_assoc].
    by apply NoDup_cons in Hdl as [_ ?].
  - apply assoc_None. rewrite fmap_app in Hnd. apply NoDup_app in Hnd as (_ & Hd & _). intros Hin. apply (Hd name Hin). by left.
Qed.
Lemma lines_of_id l : Forall (λ x, last (chars x) ≠ Some return_char) l → lines_of l = l.
Proof.
  induction 1 as [|x l Hx Hl IH]; [done|]. destruct l as [|y k]; [done|]. change (lines_of (x :: y :: k)) with (str (drop_return (chars x)) :: lines_of (y :: k)).
  rewrite IH. f_equal.
  unfold drop_return. destruct (last (chars x)) as [c|] eqn:E; [|apply str_chars].
  destruct (Ascii.eqb c return_char) eqn:Ec; [apply Ascii.eqb_eq in Ec; congruence|apply str_chars].
Qed.

(** C9: the environment file carries any environment. For every list of distinct names that the format allows, with
    values free of NUL and line breaks - whatever quotes, backslashes, white space, [#] or [=] they contain - the file
    with one double-quoted assignment a line parses back to exactly these names and values, in order. *)
Theorem env_file_roundtrip l : valid_env l → parseEnvFile (print_env l) = Ok l.
Proof.
  intros Hl. unfold parseEnvFile, file_lines, print_env. destruct l as [|p l]; [done|]. set (k := p :: l) in *.
  assert (Forall (λ p, valid_name p.1 ∧ Forall (λ c, forbidden c = false) (chars p.2)) k) as Hk by apply Hl.
  rewrite split_join, lines_of_id; [| |done|].
  - rewrite parse_printed_lines; [done..|]. by destruct Hl.
  - apply Forall_map. eapply Forall_impl; [exact Hk|]. intros [name value] [Hn Hv] Hlast. apply last_Some_elem_of in Hlast.
    by apply (printed_no_break name value Hn Hv return_char).
  - apply Forall_map. eapply Forall_impl; [exact Hk|]. intros [name value] [Hn Hv]. by apply printed_no_break.
Qed.
Lemma env_file_roundtrip_witness : ∃ l, valid_env l ∧ length l = 3 ∧ parseEnvFile (print_env l) = Ok l.
Proof.
  exists [("A", " x ='y'#\ "); ("HARA_B2", str [quote_char; backslash; backslash; quote_char]); ("_", "")].
  assert (valid_env [("A", " x ='y'#\ "); ("HARA_B2", str [quote_char; backslash; backslash; quote_char]); ("_", "")]) as H.
  { split; [by apply (bool_decide_unpack _)|]. repeat constructor; discriminate. }
  split; [exact H|]. split; [reflexivity|]. exact (env_file_roundtrip _ H).
Defined.
Example parse_sample : parseEnvFile ("# c" +:+ String newline ("  A = 1" +:+ String newline "")) =
  Throw (Error "line 2 is not a valid NAME=value assignment").
Proof. vm_compute. reflexivity. Qed.
Example parse_quotes : parseEnvFile ("A='b c'" +:+ str [return_char; newline] +:+ "  B=x y # z" +:+ str [newline]) =
  Ok [("A", "b c"); ("B", "x y # z")].
Proof. vm_compute. reflexivity. Qed.
End EnvFile.

(** * Files of the operator *)

Local Open Scope Z_scope.
Record Stat := { symbolicLink : bool; isFile : bool; mode : Z; uid : Z; dev : Z; ino : Z }.
(** [lstatSync]; [openSync] without following links with [fstatSync] of the descriptor; the text read through it. *)
Class Files := {
  lstat : string → res Stat; opened : string → res Stat; contents_of : string → res string;
  geteuid : option Z; absolute : string → string }.
Definition shared (m : Z) : bool := negb (Z.land m 63 =? 0).
Definition not_mine `{Files} (s : Stat) : bool := match geteuid with Some u => negb (uid s =? u) | None => false end.
Definition isAbsolute (path : string) : bool := startsWith "/" path.

Section files.
Context `{Files}.
(** [src/config/feedback-intake.ts] *)
Definition readPrivateKeyFile (path : string) : res string :=
  _ ← throw_if (negb (isAbsolute path)) (Error "HARA_FEEDBACK_INTAKE_KEYFILE must be absolute");
  before ← lstat path;
  _ ← throw_if (symbolicLink before || negb (isFile before)) (Error "HARA_FEEDBACK_INTAKE_KEYFILE must be a regular file");
  _ ← throw_if (shared (mode before)) (Error "HARA_FEEDBACK_INTAKE_KEYFILE must use owner-only permissions");
  _ ← throw_if (not_mine before) (Error "HARA_FEEDBACK_INTAKE_KEYFILE must be owned by the service user");
  now ← opened path;
  _ ← throw_if (negb (isFile now) || negb (dev now =? dev before) || negb (ino now =? ino before))
        (Error "HARA_FEEDBACK_INTAKE_KEYFILE changed while opening");
  text ← contents_of path;
  Ok (trim text).
(** [env[name]?.trim() || ""] *)
Definition setting (e : env) (name : string) : string := trim (nullish (e name) "").
Definition loadFeedbackIntakeKey (e : env) : res (option string) :=
  let inline := setting e "HARA_FEEDBACK_INTAKE_KEY" in
  let keyfile := setting e "HARA_FEEDBACK_INTAKE_KEYFILE" in
  _ ← throw_if (truthy inline && truthy keyfile) (Error "configure only one feedback intake key source");
  if negb (truthy inline) && negb (truthy keyfile) then Ok None
  else
    key ← (if truthy inline then Ok inline else readPrivateKeyFile keyfile);
    _ ← throw_if (String.length key <? 32)%nat (Error "feedback intake credential is too short");
    Ok (Some key).

(** The guard of the feedback intake; [timingSafeEqual] on byte strings of one length is their equality. A header
    given more than once arrives as an array. *)
Definition secureEquals (actual expected : string) : bool :=
  (length (bytes_of actual) =? length (bytes_of expected))%nat && bool_decide (bytes_of actual = bytes_of expected).
Definition canActivate (e : env) (raw : list string) : res bool :=
  expected ← loadFeedbackIntakeKey e;
  match expected with
  | Some expected =>
      _ ← throw_if (negb (truthy expected)) (UnauthorizedException "feedback intake is not configured");
      let actual := nullish (head raw) "" in
      _ ← throw_if (negb (truthy actual) || negb (secureEquals actual expected)) (UnauthorizedException "invalid feedback intake credential");
      Ok true
  | None => Throw (UnauthorizedException "feedback intake is not configured")
  end.

(** [scripts/with-production-env.mjs] *)
Definition assertPrivateFile (path label : string) : res Stat :=
  match lstat path with
  | Throw _ => Throw (Error (label +:+ " is missing"))
  | Ok stat =>
      _ ← throw_if (symbolicLink stat) (Error (label +:+ " must not be a symbolic link"));
      _ ← throw_if (negb (isFile stat)) (Error (label +:+ " must be a regular file"));
      _ ← throw_if (shared (mode stat)) (Error (label +:+ " must not grant group/other permissions (use chmod 600)"));
      _ ← throw_if (not_mine stat) (Error (label +:+ " must be owned by the deployment user"));
      Ok stat
  end.
Definition readPrivateFile (path label : string) : res string :=
  before ← assertPrivateFile path label;
  match opened path with
  | Throw _ => Throw (Error (label +:+ " could not be opened without following aliases"))
  | Ok now =>
      _ ← throw_if (negb (isFile now) || negb (dev now =? dev before) || negb (ino now =? ino before))
            (Error (label +:+ " changed while it was being opened"));
      contents_of path
  end.
Definition preflightFeedbackKey (e : env) : res string :=
  let inline := setting e "HARA_FEEDBACK_INTAKE_KEY" in
  let keyfile := setting e "HARA_FEEDBACK_INTAKE_KEYFILE" in
  _ ← throw_if (truthy inline && truthy keyfile) (Error "configure only one feedback intake key source");
  if negb (truthy inline) && negb (truthy keyfile) then Ok ""
  else
    _ ← throw_if (truthy keyfile && negb (isAbsolute keyfile)) (Error "HARA_FEEDBACK_INTAKE_KEYFILE must be absolute");
    key ← (if truthy inline then Ok inline else trim <$> readPrivateFile keyfile "HARA_FEEDBACK_INTAKE_KEYFILE");
    _ ← throw_if (String.length key <? 32)%nat (Error "feedback intake credential is too short");
    Ok key.
End files.

(** * The preflight of the launcher *)

Section preflight.
Context `{Files} (URL : string → option url) (searchParam : url → string → option string).
Definition LOOPBACK : list string := ["127.0.0.1"; "localhost"; "::1"].
Definition FEISHU_SETTINGS : list string :=
  ["HARA_CRASH_FEISHU_APP_ID"; "HARA_CRASH_FEISHU_APP_SECRET"; "HARA_CRASH_FEISHU_CHAT_ID"; "HARA_CRASH_FEISHU_MENTION_OPEN_ID"].
Definition value (e : env) (name : string) : string := nullish (e name) "".
Definition same (e : env) (a b : string) : bool := bool_decide (e a = e b).
(** [names.map((name) => env[name]).includes(v)] *)
Definition among (e : env) (names : list string) (v : string) : bool := mem (Some v) (map e names).

Definition requireValue (e : env) (name : string) (minLength : nat) : res unit :=
  throw_if (negb (truthy (value e name)) || (String.length (value e name) <? minLength)%nat) (Error (name +:+ " is missing or too short")).
Definition preflightSchema (e : env) (name expectedSchema : string) : res unit :=
  _ ← requireValue e name 1;
  match URL (value e name) with
  | None => Throw (Error (name +:+ " is not a valid database URL"))
  | Some u =>
      _ ← throw_if (negb (String.eqb (protocol u) "postgresql:") && negb (String.eqb (protocol u) "postgres:"))
            (Error (name +:+ " must use postgresql:// or postgres://"));
      throw_if (negb (bool_decide (searchParam u "schema" = Some expectedSchema))) (Error (name +:+ " must explicitly use schema=" +:+ expectedSchema))
  end.
Definition decodeMasterKey (raw : string) : option (list Z) :=
  let v := trim raw in
  if is_hex64 v then Some (hex_bytes (chars v))
  else let decoded := from_base64 v in if (length decoded =? 32)%nat then Some decoded else None.
Definition validateCrashAlertEnv (e : env) : res unit :=
  let values := map (value e) FEISHU_SETTINGS in
  if forallb (λ v, negb (truthy v)) values then Ok tt
  else
    _ ← throw_if (existsb (λ v, negb (truthy v)) values) (Error "crash alerts require all four HARA_CRASH_FEISHU_* settings");
    _ ← throw_if (negb (APP_ID_PATTERN (value e "HARA_CRASH_FEISHU_APP_ID"))) (Error "HARA_CRASH_FEISHU_APP_ID is invalid");
    _ ← throw_if (String.length (value e "HARA_CRASH_FEISHU_APP_SECRET") <? 20)%nat (Error "HARA_CRASH_FEISHU_APP_SECRET is too short");
    _ ← throw_if (negb (CHAT_ID_PATTERN (value e "HARA_CRASH_FEISHU_CHAT_ID"))) (Error "HARA_CRASH_FEISHU_CHAT_ID is invalid");
    throw_if (negb (OPEN_ID_PATTERN (value e "HARA_CRASH_FEISHU_MENTION_OPEN_ID"))) (Error "HARA_CRASH_FEISHU_MENTION_OPEN_ID is invalid").

Definition AUTH_SECRETS : list string := ["HARA_CONTROL_ADMIN_KEY"; "HARA_JWT_SECRET"].
Definition RUNTIME_SECRETS : list string :=
  AUTH_SECRETS ++ ["LITELLM_MASTER_KEY"; "UPSTREAM_API_KEY"; "HARA_CRASH_FEISHU_APP_SECRET"].
(** The values seen so far, in a [Map], each with its name. *)
Fixpoint no_reuse (e : env) (seen : list (string * string)) (names : list string) : res unit :=
  match names with
  | [] => Ok tt
  | name :: names' =>
      let v := value e name in
      if negb (truthy v) then no_reuse e seen names'
      else match assoc v seen with
           | Some duplicate => Throw (Error (name +:+ " must not reuse " +:+ duplicate))
           | None => no_reuse e (seen ++ [(v, name)]) names'
           end
  end.
Definition preflightLitellm (e : env) : res unit :=
  if bool_decide (e "GATEWAY_ADAPTER" = Some "litellm") then
    _ ← requireValue e "LITELLM_URL" 1;
    _ ← requireValue e "LITELLM_MASTER_KEY" 24;
    _ ← preflightSchema e "LITELLM_DATABASE_URL" "litellm";
    match URL (value e "LITELLM_URL") with
    | None => Throw (Error "LITELLM_URL is not a valid URL")
    | Some u =>
        _ ← throw_if (negb (mem (hostname u) LOOPBACK) && negb (bool_decide (e "HARA_ALLOW_REMOTE_LITELLM" = Some "1")))
              (Error "LITELLM_URL must be loopback unless HARA_ALLOW_REMOTE_LITELLM=1 is explicitly set");
        no_reuse e [] RUNTIME_SECRETS
    end
  else Ok tt.
Definition masterKeyText (e : env) : res string :=
  let keyfile := value e "HARA_KMS_KEYFILE" in
  let inline := value e "HARA_KMS_MASTER_KEY" in
  _ ← throw_if (negb (truthy keyfile) && negb (truthy inline)) (Error "configure HARA_KMS_KEYFILE (preferred) or HARA_KMS_MASTER_KEY");
  _ ← throw_if (truthy keyfile && truthy inline) (Error "configure only one of HARA_KMS_KEYFILE or HARA_KMS_MASTER_KEY");
  if truthy keyfile then trim <$> readPrivateFile (absolute keyfile) "HARA_KMS_KEYFILE" else Ok (trim inline).
Definition preflightMasterKey (e : env) (feedback : string) : res unit :=
  raw ← masterKeyText e;
  match decodeMasterKey raw with
  | None => Throw (Error "the KMS master key must decode to exactly 32 bytes")
  | Some master =>
      _ ← throw_if (truthy feedback && bool_decide (decodeMasterKey feedback = Some master))
            (Error "HARA_FEEDBACK_INTAKE_KEY must be independent from the KMS master key");
      match List.find (λ name, truthy (value e name) && String.eqb (value e name) raw) RUNTIME_SECRETS with
      | Some name => Throw (Error ("the KMS master key must not reuse " +:+ name))
      | None => Ok tt
      end
  end.
Definition validateProductionEnv (e : env) (envPath : string) : res unit :=
  _ ← preflightSchema e "DATABASE_URL" "public";
  _ ← requireValue e "HARA_CONTROL_ADMIN_KEY" 24;
  _ ← requireValue e "HARA_JWT_SECRET" 24;
  feedback ← preflightFeedbackKey e;
  _ ← throw_if (same e "HARA_CONTROL_ADMIN_KEY" "HARA_JWT_SECRET") (Error "HARA_CONTROL_ADMIN_KEY and HARA_JWT_SECRET must be different");
  _ ← throw_if (truthy feedback && among e RUNTIME_SECRETS feedback) (Error "HARA_FEEDBACK_INTAKE_KEY must be independent from all runtime secrets");
  _ ← validateCrashAlertEnv e;
  _ ← throw_if (truthy (value e "HARA_CRASH_FEISHU_APP_SECRET") && among e AUTH_SECRETS (value e "HARA_CRASH_FEISHU_APP_SECRET"))
        (Error "HARA_CRASH_FEISHU_APP_SECRET must be independent from Hara auth secrets");
  _ ← preflightLitellm e;
  _ ← preflightMasterKey e feedback;
  _ ← throw_if (truthy (value e "NODE_ENV") && negb (String.eqb (value e "NODE_ENV") "production")) (Error "NODE_ENV must be production for this deployment path");
  throw_if (negb (truthy envPath)) (Error "env path missing").

(** [{ ...process.env, ...parsed, NODE_ENV: "production", HARA_ENV_LOADED: "1" }] *)
Definition child_env (inherited : env) (parsed : list (string * string)) : env := λ k,
  if String.eqb k "HARA_ENV_LOADED" then Some "1" else if String.eqb k "NODE_ENV" then Some "production"
  else match assoc k parsed with Some v => Some v | None => inherited k end.
Definition env_of (parsed : list (string * string)) : env := λ k, assoc k parsed.
(** [<env-file> -- <command> [args...]]: what is started, and with which environment. *)
Definition launch (inherited : env) (argv : list string) : res (string * list string * env) :=
  let usage := Error "usage: node scripts/with-production-env.mjs <env-file> -- <command> [args...]" in
  match argv with
  | file :: separator :: command :: commandArgs =>
      if String.eqb file "--" || negb (String.eqb separator "--") then Throw usage
      else
        let envPath := absolute file in
        text ← readPrivateFile envPath ".env";
        parsed ← EnvFile.parseEnvFile text;
        _ ← validateProductionEnv (env_of parsed) envPath;
        Ok (command, commandArgs, child_env inherited parsed)
  | _ => Throw usage
  end.
End preflight.

(** * The check of the running process ([src/config/runtime-security.ts]) *)

Section runtime.
Context `{Files} (URL : string → option url) (searchParam : url → string → option string) (readFileSync : string → res string).
Definition requireLongValue (e : env) (name : string) : res string :=
  _ ← throw_if (negb (truthy (value e name)) || (String.length (value e name) <? 24)%nat)
        (Error ("production configuration missing or too short " +:+ name));
  Ok (value e name).
Definition requireDatabaseSchema (e : env) (name expectedSchema : string) : res unit :=
  _ ← throw_if (negb (truthy (value e name))) (Error ("production configuration missing " +:+ name));
  match URL (value e name) with
  | None => Throw (Error (name +:+ " is not a valid database URL"))
  | Some u =>
      _ ← throw_if (negb (mem (protocol u) ["postgres:"; "postgresql:"])) (Error (name +:+ " must use PostgreSQL"));
      throw_if (negb (bool_decide (searchParam u "schema" = Some expectedSchema))) (Error (name +:+ " must explicitly use schema=" +:+ expectedSchema))
  end.
Definition secretDecodesTo (secret : string) (expected : list Z) : bool :=
  let hex := if is_hex64 secret then [hex_bytes (chars secret)] else [] in
  let decoded := from_base64 secret in
  let candidates := hex ++ if (length decoded =? length expected)%nat then [decoded] else [] in
  existsb (λ c, (length c =? length expected)%nat && bool_decide (c = expected)) candidates.
Definition assertCrashAlertConfiguration (e : env) : res unit :=
  let values := map (value e) FEISHU_SETTINGS in
  if forallb (λ v, negb (truthy v)) values then Ok tt
  else
    _ ← throw_if (existsb (λ v, negb (truthy v)) values) (Error "production crash alerts require all four HARA_CRASH_FEISHU_* settings");
    _ ← throw_if (negb (APP_ID_PATTERN (value e "HARA_CRASH_FEISHU_APP_ID"))) (Error "production HARA_CRASH_FEISHU_APP_ID is invalid");
    _ ← throw_if (String.length (value e "HARA_CRASH_FEISHU_APP_SECRET") <? 20)%nat (Error "production HARA_CRASH_FEISHU_APP_SECRET is too short");
    _ ← throw_if (negb (CHAT_ID_PATTERN (value e "HARA_CRASH_FEISHU_CHAT_ID"))) (Error "production HARA_CRASH_FEISHU_CHAT_ID is invalid");
    throw_if (negb (OPEN_ID_PATTERN (value e "HARA_CRASH_FEISHU_MENTION_OPEN_ID"))) (Error "production HARA_CRASH_FEISHU_MENTION_OPEN_ID is invalid").
Definition kms_source (e : env) : res unit :=
  _ ← throw_if (negb (truthy (value e "HARA_KMS_KEYFILE")) && negb (truthy (value e "HARA_KMS_MASTER_KEY")))
        (Error "production configuration missing a KMS master-key source");
  _ ← throw_if (truthy (value e "HARA_KMS_KEYFILE") && truthy (value e "HARA_KMS_MASTER_KEY"))
        (Error "production must configure only one KMS master-key source");
  throw_if (negb (String.eqb (kmsProvider e) "local")) (Error "the configured production KMS provider is not implemented").
Definition runtimeLitellm (e : env) : res unit :=
  if bool_decide (e "GATEWAY_ADAPTER" = Some "litellm") then
    _ ← requireLongValue e "LITELLM_MASTER_KEY";
    _ ← requireDatabaseSchema e "LITELLM_DATABASE_URL" "litellm";
    _ ← throw_if (negb (truthy (value e "LITELLM_URL"))) (Error "production LiteLLM configuration missing LITELLM_URL");
    match URL (value e "LITELLM_URL") with
    | None => Throw (Error "LITELLM_URL is not a valid URL")
    | Some u =>
        _ ← throw_if (negb (mem (hostname u) LOOPBACK) && negb (bool_decide (e "HARA_ALLOW_REMOTE_LITELLM" = Some "1")))
              (Error "production LITELLM_URL must be loopback");
        _ ← throw_if (same e "LITELLM_MASTER_KEY" "HARA_CONTROL_ADMIN_KEY" || same e "LITELLM_MASTER_KEY" "HARA_JWT_SECRET")
              (Error "LITELLM_MASTER_KEY must be independent from control-plane auth secrets");
        _ ← allowedManagedModels e;
        _ ← defaultManagedModel e;
        Ok tt
    end
  else Ok tt.
Definition runtime_checks (e : env) : res unit :=
  _ ← requireDatabaseSchema e "DATABASE_URL" "public";
  _ ← requireLongValue e "HARA_CONTROL_ADMIN_KEY";
  _ ← requireLongValue e "HARA_JWT_SECRET";
  feedback ← loadFeedbackIntakeKey e;
  _ ← assertCrashAlertConfiguration e;
  _ ← throw_if (same e "HARA_CONTROL_ADMIN_KEY" "HARA_JWT_SECRET") (Error "HARA_CONTROL_ADMIN_KEY and HARA_JWT_SECRET must be different");
  let key := nullish feedback "" in
  _ ← throw_if (truthy key && among e RUNTIME_SECRETS key) (Error "HARA_FEEDBACK_INTAKE_KEY must be independent from all runtime secrets");
  _ ← kms_source e;
  master ← loadMasterKey readFileSync e;
  _ ← throw_if (truthy key && secretDecodesTo key master) (Error "HARA_FEEDBACK_INTAKE_KEY must be independent from the KMS master key");
  _ ← throw_if (truthy (value e "HARA_KMS_MASTER_KEY") && among e (AUTH_SECRETS ++ ["LITELLM_MASTER_KEY"]) (value e "HARA_KMS_MASTER_KEY"))
        (Error "the KMS master key must be independent from auth and gateway secrets");
  _ ← throw_if (truthy (value e "HARA_CRASH_FEISHU_APP_SECRET") &&
                among e (AUTH_SECRETS ++ ["LITELLM_MASTER_KEY"; "HARA_KMS_MASTER_KEY"]) (value e "HARA_CRASH_FEISHU_APP_SECRET"))
        (Error "the Feishu App Secret must be independent from Hara runtime secrets");
  runtimeLitellm e.
Definition assertProductionRuntime (e : env) : res unit :=
  if negb (bool_decide (e "NODE_ENV" = Some "production")) then Ok tt
  else
    _ ← throw_if (negb (bool_decide (e "HARA_ENV_LOADED" = Some "1")) && negb (bool_decide (e "HARA_ENV_LOADED" = Some "container")))
          (Error "production must start through scripts/with-production-env.mjs or the published container entrypoint");
    runtime_checks e.
End runtime.

(** * The process manager ([scripts/assert-pm2-env-safe.mjs]) *)

Definition FORBIDDEN_ENV_NAMES : list string :=
  ["DATABASE_URL"; "LITELLM_DATABASE_URL"; "HARA_CONTROL_ADMIN_KEY"; "HARA_JWT_SECRET"; "HARA_KMS_MASTER_KEY"; "HARA_KMS_KEYFILE";
   "LITELLM_MASTER_KEY"; "UPSTREAM_API_KEY"; "HARA_CRASH_FEISHU_APP_ID"; "HARA_CRASH_FEISHU_APP_SECRET"; "HARA_CRASH_FEISHU_CHAT_ID";
   "HARA_CRASH_FEISHU_MENTION_OPEN_ID"].
(** An entry of [pm2 jlist]: its name, its [pm2_env] and the [env] inside it, as the names they have. *)
Record Pm2Process := { p_name : option string; pm2_env : list string; inner_env : list string }.
Definition unsafePm2Environment (processes : list Pm2Process) (expectedNames : list string) : list (string * string) :=
  processes ≫= λ p,
    match p_name p with
    | Some name =>
        if mem name expectedNames then
          map (pair name) (filter (λ key, (mem key (pm2_env p) || mem key (inner_env p)) = true) FORBIDDEN_ENV_NAMES)
        else []
    | None => []
    end.
(** [main]; [jlist] is what the listing of a process manager printed: [None] when it failed, [Some None] when it is not
    JSON. *)
Definition assertPm2 (jlist : string → option (option (list Pm2Process))) (argv : list string) : res unit :=
  let pm2Bin := nullish (head argv) "" in
  let expectedNames := tail argv in
  _ ← throw_if (negb (truthy pm2Bin) || (length expectedNames =? 0)%nat) (Error "usage: assert-pm2-env-safe.mjs <pm2-bin> <process-name> [...]");
  match jlist pm2Bin with
  | None => Throw (Error "could not inspect the PM2 process list")
  | Some None => Throw (Error "PM2 returned an unreadable process list")
  | Some (Some processes) =>
      let missing := filter (λ n, negb (mem (Some n) (map p_name processes)) = true) expectedNames in
      _ ← throw_if (0 <? length missing)%nat (Error ("expected managed process is missing: " +:+ join ", " missing));
      let unsafe := unsafePm2Environment processes expectedNames in
      throw_if (0 <? length unsafe)%nat (Error ("forbidden variables are serialized for " +:+ join ", " (map (λ p, p.1 +:+ ":" +:+ p.2) unsafe)))
  end.

(** * What the checks have in common *)

Lemma throw_bind {B} b er (k : unit → res B) r : (throw_if b er ≫= k) = Ok r ↔ b = false ∧ k tt = Ok r.
Proof. destruct b; cbn; naive_solver. Qed.
Lemma too_short s n : negb (truthy s) || (String.length s <? S n)%nat = false ↔ (S n <= String.length s)%nat.
Proof.
  rewrite orb_false_iff, negb_false_iff, Nat.ltb_ge. split; [by intros []|]. intros Hn. split; [|done].
  apply truthy_true. intros ->. cbn in Hn. lia.
Qed.
Lemma decodeMasterKey_decodeKey raw : decodeMasterKey raw = decodeKey raw.
Proof.
  unfold decodeMasterKey, decodeKey, KEY_BYTES. destruct (truthy (trim raw)) eqn:Ht; [done|]. apply truthy_false in Ht. by rewrite Ht.
Qed.
Lemma hex_bytes_length l n : length l = (2 * n)%nat → length (hex_bytes l) = n.
Proof.
  revert l. induction n as [|n IH]; intros [|a [|b l]]; cbn [length hex_bytes]; try lia. intros Hl. f_equal. apply IH. lia.
Qed.
Lemma is_hex64_spec s : is_hex64 s = true → length (chars s) = 64%nat ∧ Forall (λ c, isSome (hex_val c) = true) (chars s).
Proof.
  unfold is_hex64. intros [Hl%Nat.eqb_eq Hf]%andb_true_iff. rewrite length_chars. split; [done|].
  apply Forall_forall. intros c Hc%list_elem_of_In. rewrite forallb_forall in Hf. by apply Hf.
Qed.
Lemma hex_val_base64 c : isSome (hex_val c) = true → is_char "=" c = false ∧ is_Some (b64_index c).
Proof.
  assert (forallb (λ n, negb (isSome (hex_val (ascii_of_nat n))) ||
    (negb (is_char "=" (ascii_of_nat n)) && isSome (b64_index (ascii_of_nat n)))) (seq 0 256) = true) as H by (vm_compute; reflexivity).
  rewrite forallb_forall in H. intros Hc. specialize (H (nat_of_ascii c)). rewrite ascii_nat_embedding, Hc in H.
  cbn [negb orb] in H. rewrite andb_true_iff, negb_true_iff, isSome_true in H. apply H, in_seq. pose proof (nat_ascii_bounded c). lia.
Qed.
Lemma hex_base64_length s : is_hex64 s = true → length (from_base64 s) = 48%nat.
Proof.
  intros [Hl Hf]%is_hex64_spec. unfold from_base64.
  assert (length (b64_valid (chars s)) = 64%nat) as Hv.
  { rewrite <- Hl. clear Hl. induction Hf as [|c l Hc _ IH]; [done|]. apply hex_val_base64 in Hc as [He [i Hi]]. cbn [b64_valid length].
    rewrite He, Hi. cbn [length]. by rewrite IH. }
  revert Hv. generalize (b64_valid (chars s)). intros l Hv. do 65 (destruct l as [|? l]; [try discriminate Hv|]); [done|discriminate Hv].
Qed.
Lemma decodeKey_length raw k : decodeKey raw = Some k → length k = 32%nat.
Proof.
  unfold decodeKey. destruct (negb _); [done|]. destruct (is_hex64 (trim raw)) eqn:Hh.
  - intros [= <-]. apply is_hex64_spec in Hh as [Hl _]. by apply hex_bytes_length.
  - destruct (length _ =? KEY_BYTES)%nat eqn:Hl; [|done]. intros [= <-]. by apply Nat.eqb_eq in Hl.
Qed.
(** The process compares what the key decodes to just as the launcher does. *)
Lemma secretDecodesTo_spec key master : trim key = key → truthy key = true → length master = 32%nat →
  secretDecodesTo key master = bool_decide (decodeKey key = Some master).
Proof.
  intros Ht Hk Hm. unfold secretDecodesTo, decodeKey. cbv zeta. rewrite Ht, Hk, Hm. cbn [negb]. destruct (is_hex64 key) eqn:Hh.
  - rewrite (hex_base64_length key Hh). cbn [Nat.eqb app existsb]. pose proof (is_hex64_spec key Hh) as [Hl _].
    rewrite (hex_bytes_length (chars key) 32 Hl). cbn [Nat.eqb andb]. rewrite orb_false_r. apply bool_decide_ext. naive_solver.
  - unfold KEY_BYTES. destruct (length (from_base64 key) =? 32)%nat eqn:Hl; cbn [app existsb]; [|by rewrite bool_decide_false].
    rewrite Hl, orb_false_r. cbn [andb]. apply bool_decide_ext. naive_solver.
Qed.

Lemma requireValue_ok e name n u : requireValue e name (S n) = Ok u ↔ (S n <= String.length (value e name))%nat.
Proof. unfold requireValue. by rewrite throw_if_ok, too_short. Qed.
Lemma requireLongValue_ok e name v : requireLongValue e name = Ok v ↔ (24 <= String.length (value e name))%nat ∧ v = value e name.
Proof. unfold requireLongValue. rewrite throw_bind, too_short. naive_solver. Qed.

Section databases.
Context (URL : string → option url) (searchParam : url → string → option string).
Lemma schema_agree e name s : preflightSchema URL searchParam e name s = Ok tt ↔ requireDatabaseSchema URL searchParam e name s = Ok tt.
Proof.
  unfold preflightSchema, requireDatabaseSchema, requireValue. rewrite !throw_bind, too_short.
  assert ((1 <= String.length (value e name))%nat ↔ negb (truthy (value e name)) = false) as ->.
  { rewrite negb_false_iff, truthy_true. destruct (value e name); cbn; [split; [lia|done]|split; [done|lia]]. }
  destruct (URL (value e name)) as [u|]; [|naive_solver]. rewrite !throw_bind.
  assert (negb (String.eqb (protocol u) "postgresql:") && negb (String.eqb (protocol u) "postgres:") = negb (mem (protocol u) ["postgres:"; "postgresql:"])) as ->.
  { rewrite <- negb_orb. f_equal. apply eq_true_iff_eq. rewrite orb_true_iff, !String.eqb_eq, mem_true, !elem_of_cons, elem_of_nil. naive_solver. }
  by rewrite !throw_if_ok.
Qed.
Lemma crash_config_agree e : validateCrashAlertEnv e = Ok tt ↔ assertCrashAlertConfiguration e = Ok tt.
Proof.
  unfold validateCrashAlertEnv, assertCrashAlertConfiguration. destruct (forallb _ _); [done|]. by rewrite !throw_bind, !throw_if_ok.
Qed.
End databases.

Section agreement.
Context `{Files}.
Lemma private_files_agree path label text : isAbsolute path = true → readPrivateFile path label = Ok text → readPrivateKeyFile path = Ok (trim text).
Proof.
  intros Ha. unfold readPrivateFile, assertPrivateFile, readPrivateKeyFile. rewrite Ha. cbn [negb throw_if mbind res_bind].
  destruct (lstat path) as [st|]; [|done]. cbn [mbind res_bind]. intros (st' & Hst & Hop)%res_bind_ok.
  rewrite !throw_bind in Hst. destruct Hst as (Hs & Hf & Hm & Hu & [= <-]). rewrite Hs, Hf, Hm, Hu. cbn [orb throw_if].
  destruct (opened path) as [now|]; [|done]. cbn [mbind res_bind]. apply throw_bind in Hop as [Hnow Hc]. rewrite Hnow. cbn [throw_if].
  by rewrite Hc.
Qed.
Lemma readPrivateKeyFile_trim path text : readPrivateKeyFile path = Ok text → trim text = text.
Proof. unfold readPrivateKeyFile. intros Hr. inv_ok. apply trim_idemp. Qed.
(** What the process takes for the key of the intake. *)
Lemma feedback_key_spec e o : loadFeedbackIntakeKey e = Ok o →
  trim (nullish o "") = nullish o "" ∧ (truthy (nullish o "") = true ↔ o ≠ None) ∧ (∀ k, o = Some k → (32 <= String.length k)%nat).
Proof.
  unfold loadFeedbackIntakeKey. cbv zeta. intros [_ Hl]%throw_bind. destruct (negb _ && negb _); [by injection Hl as <-|].
  apply res_bind_ok in Hl as (key & Hk & Hl). apply throw_bind in Hl as [Hlen [= <-]]. apply Nat.ltb_ge in Hlen. change (nullish (Some key) "") with key.
  split_and!; [|split; [done|intros _]|by intros k [= <-]].
  - destruct (truthy _); [injection Hk as <-; apply trim_idemp|by eapply readPrivateKeyFile_trim].
  - apply truthy_true. intros Hk'. rewrite Hk' in Hlen. cbn in Hlen. lia.
Qed.
Lemma feedback_agree e f : preflightFeedbackKey e = Ok f → ∃ o, loadFeedbackIntakeKey e = Ok o ∧ nullish o "" = f.
Proof.
  unfold preflightFeedbackKey, loadFeedbackIntakeKey. cbv zeta. intros [Hone Hl]%throw_bind. rewrite Hone. cbn [throw_if mbind res_bind].
  destruct (negb _ && negb _) eqn:Hnone; [injection Hl as <-; by exists None|]. apply throw_bind in Hl as [Ha Hl].
  apply res_bind_ok in Hl as (key & Hk & Hl). apply throw_bind in Hl as [Hlen [= <-]]. exists (Some key). split; [|done].
  destruct (truthy (setting e "HARA_FEEDBACK_INTAKE_KEY")) eqn:Hi.
  - injection Hk as <-. cbn [mbind res_bind]. by rewrite Hlen.
  - destruct (truthy (setting e "HARA_FEEDBACK_INTAKE_KEYFILE")) eqn:Hf; [|done]. cbn [andb] in Ha. apply negb_false_iff in Ha.
    destruct (readPrivateFile _ _) as [text|] eqn:Hr; [|done]. injection Hk as <-.
    rewrite (private_files_agree _ _ _ Ha Hr). cbn [mbind res_bind]. by rewrite Hlen.
Qed.
End agreement.

(** * Independent secrets *)

(** A name is in a list of names. *)
Ltac names_within := match goal with H : ?n ∈ _ |- ?n ∈ _ => revert n H; apply Forall_forall; apply (bool_decide_unpack _); vm_compute; exact I end.
Ltac in_names := apply (bool_decide_unpack _); vm_compute; exact I.

Section independence.
Context `{Files} (URL : string → option url) (searchParam : url → string → option string) (readFileSync : string → res string).
Definition litellm_mode (e : env) : bool := bool_decide (e "GATEWAY_ADAPTER" = Some "litellm").
(** The secrets of a process, those that are set; the one of the gateway when it uses it. *)
Definition secrets_of (e : env) (feedback : string) : list string :=
  filter (λ s, truthy s = true) (feedback :: map (value e)
    (["HARA_CRASH_FEISHU_APP_SECRET"; "HARA_KMS_MASTER_KEY"] ++ (if litellm_mode e then ["LITELLM_MASTER_KEY"] else []) ++ AUTH_SECRETS)).
Lemma among_false e names v n : truthy v = true → among e names v = false → n ∈ names → v ≠ value e n.
Proof.
  unfold among, value. intros Hv Ha%mem_false Hn ->. apply Ha. apply truthy_true in Hv. apply list_elem_of_fmap. exists n. split; [|done].
  destruct (e n); [done|]. by destruct Hv.
Qed.
Lemma same_false e a b : same e a b = false → truthy (value e a) = true → truthy (value e b) = true → value e a ≠ value e b.
Proof.
  unfold same, value. intros Hs%bool_decide_eq_false Ha%truthy_true Hb%truthy_true Heq. apply Hs.
  destruct (e a), (e b); cbn in *; congruence.
Qed.
Lemma NoDup_present x (l : list string) : (truthy x = true → x ∉ l) → NoDup (filter (λ s, truthy s = true) l) →
  NoDup (filter (λ s, truthy s = true) (x :: l)).
Proof.
  intros Hx Hl. rewrite filter_cons. case_decide as Ht; [|done]. apply NoDup_cons. split; [|done]. intros [_ Hin]%list_elem_of_filter.
  by apply Hx.
Qed.
Lemma long_truthy s n : (S n <= String.length s)%nat → truthy s = true.
Proof. intros Hn. apply truthy_true. intros ->. cbn in Hn. lia. Qed.
Lemma master_inline e master : loadMasterKey readFileSync e = Ok master → truthy (trim (value e "HARA_KMS_MASTER_KEY")) = true →
  decodeKey (value e "HARA_KMS_MASTER_KEY") = Some master.
Proof. unfold loadMasterKey, value. intros Hl Ht. rewrite Ht in Hl. destruct (decodeKey _); by inv_ok. Qed.
Lemma loadMasterKey_length e master : loadMasterKey readFileSync e = Ok master → length master = 32%nat.
Proof.
  unfold loadMasterKey. intros Hl. destruct (truthy _).
  - destruct (decodeKey _) eqn:Hd; [|done]. injection Hl as <-. by eapply decodeKey_length.
  - destruct (truthy _); [|done]. destruct (readFileSync _) as [t|[]]; try done. destruct (decodeKey t) eqn:Hd; [|done].
    injection Hl as <-. by eapply decodeKey_length.
Qed.

Lemma feedback_not_master e feedback master : loadFeedbackIntakeKey e = Ok feedback → loadMasterKey readFileSync e = Ok master →
  truthy (nullish feedback "") && secretDecodesTo (nullish feedback "") master = false → truthy (nullish feedback "") = true →
  decodeKey (nullish feedback "") ≠ Some master.
Proof.
  intros Hf Hm Hd Ht. destruct (feedback_key_spec e feedback Hf) as (Htrim & _). rewrite Ht, secretDecodesTo_spec in Hd; try done.
  - by apply bool_decide_eq_false in Hd.
  - by eapply loadMasterKey_length.
Qed.
Lemma runtimeLitellm_ok e : runtimeLitellm URL searchParam e = Ok tt → litellm_mode e = true →
  (24 <= String.length (value e "LITELLM_MASTER_KEY"))%nat ∧
  same e "LITELLM_MASTER_KEY" "HARA_CONTROL_ADMIN_KEY" || same e "LITELLM_MASTER_KEY" "HARA_JWT_SECRET" = false.
Proof.
  unfold runtimeLitellm, litellm_mode. intros Hr Hm. rewrite Hm in Hr. apply res_bind_ok in Hr as (? & [Hl _]%requireLongValue_ok & Hr).
  split; [done|]. apply res_bind_ok in Hr as (_ & _ & Hr). apply throw_bind in Hr as [_ Hr]. destruct (URL _); [|done].
  rewrite !throw_bind in Hr. by destruct Hr as (_ & Hs & _).
Qed.
(** The comparisons of the check, one by one. *)
Lemma secrets_distinct e feedback : truthy (value e "HARA_CONTROL_ADMIN_KEY") = true → truthy (value e "HARA_JWT_SECRET") = true →
  same e "HARA_CONTROL_ADMIN_KEY" "HARA_JWT_SECRET" = false →
  truthy feedback && among e RUNTIME_SECRETS feedback = false →
  (truthy feedback = true → feedback ≠ value e "HARA_KMS_MASTER_KEY") →
  truthy (value e "HARA_KMS_MASTER_KEY") && among e (AUTH_SECRETS ++ ["LITELLM_MASTER_KEY"]) (value e "HARA_KMS_MASTER_KEY") = false →
  truthy (value e "HARA_CRASH_FEISHU_APP_SECRET") &&
    among e (AUTH_SECRETS ++ ["LITELLM_MASTER_KEY"; "HARA_KMS_MASTER_KEY"]) (value e "HARA_CRASH_FEISHU_APP_SECRET") = false →
  (litellm_mode e = true → truthy (value e "LITELLM_MASTER_KEY") = true ∧
     same e "LITELLM_MASTER_KEY" "HARA_CONTROL_ADMIN_KEY" || same e "LITELLM_MASTER_KEY" "HARA_JWT_SECRET" = false) →
  NoDup (secrets_of e feedback).
Proof.
  intros Ha Hj Hsame Hf Hfk Hk Hc Hl. unfold secrets_of, AUTH_SECRETS. cbn [app map].
  assert (∀ n names v, truthy v && among e names v = false → truthy v = true → n ∈ names → v ≠ value e n) as Hne.
  { intros n names v H1 H2. rewrite H2 in H1. by eapply among_false. }
  assert (NoDup (filter (λ s, truthy s = true) [value e "HARA_CONTROL_ADMIN_KEY"; value e "HARA_JWT_SECRET"])) as Hauth.
  { apply NoDup_present; [|apply NoDup_present; [by intros _ ?%elem_of_nil|constructor]].
    intros _ ?%list_elem_of_singleton. by eapply same_false. }
  apply NoDup_present; [|apply NoDup_present; [|apply NoDup_present]].
  - intros Ht. assert (∀ n, n ∈ RUNTIME_SECRETS → feedback ≠ value e n) as H1 by eauto. destruct (litellm_mode e); cbn [app map];
      rewrite !not_elem_of_cons; split_and!; try (apply H1; in_names); auto; apply not_elem_of_nil.
  - intros Ht. assert (∀ n, n ∈ AUTH_SECRETS ++ ["LITELLM_MASTER_KEY"; "HARA_KMS_MASTER_KEY"] → value e "HARA_CRASH_FEISHU_APP_SECRET" ≠ value e n) as H1 by eauto.
    destruct (litellm_mode e); cbn [app map]; rewrite !not_elem_of_cons; split_and!; try (apply H1; in_names); apply not_elem_of_nil.
  - intros Ht. assert (∀ n, n ∈ AUTH_SECRETS ++ ["LITELLM_MASTER_KEY"] → value e "HARA_KMS_MASTER_KEY" ≠ value e n) as H1 by eauto.
    destruct (litellm_mode e); cbn [app map]; rewrite !not_elem_of_cons; split_and!; try (apply H1; in_names); apply not_elem_of_nil.
  - destruct (litellm_mode e); cbn [app map]; [|done]. destruct (Hl eq_refl) as [Hlt [Hs1 Hs2]%orb_false_iff]. apply NoDup_present; [|done].
    intros _. rewrite !not_elem_of_cons. split_and!; [by eapply same_false..|apply not_elem_of_nil].
Qed.

(** What a passed check has compared. *)
Lemma runtime_facts e : assertProductionRuntime URL searchParam readFileSync e = Ok tt → e "NODE_ENV" = Some "production" →
  ∃ feedback master, loadFeedbackIntakeKey e = Ok feedback ∧ loadMasterKey readFileSync e = Ok master ∧
    (24 <= String.length (value e "HARA_CONTROL_ADMIN_KEY"))%nat ∧ (24 <= String.length (value e "HARA_JWT_SECRET"))%nat ∧
    same e "HARA_CONTROL_ADMIN_KEY" "HARA_JWT_SECRET" = false ∧
    truthy (nullish feedback "") && among e RUNTIME_SECRETS (nullish feedback "") = false ∧
    (truthy (nullish feedback "") = true → decodeKey (nullish feedback "") ≠ Some master) ∧
    truthy (value e "HARA_KMS_MASTER_KEY") && among e (AUTH_SECRETS ++ ["LITELLM_MASTER_KEY"]) (value e "HARA_KMS_MASTER_KEY") = false ∧
    truthy (value e "HARA_CRASH_FEISHU_APP_SECRET") &&
      among e (AUTH_SECRETS ++ ["LITELLM_MASTER_KEY"; "HARA_KMS_MASTER_KEY"]) (value e "HARA_CRASH_FEISHU_APP_SECRET") = false ∧
    runtimeLitellm URL searchParam e = Ok tt.
Proof.
  intros Hrun Hprod. unfold assertProductionRuntime, runtime_checks in Hrun. rewrite bool_decide_true in Hrun by done. cbn [negb] in Hrun.
  apply throw_bind in Hrun as [_ Hrun]. apply res_bind_ok in Hrun as (_ & _ & Hrun).
  apply res_bind_ok in Hrun as (? & [Hadmin _]%requireLongValue_ok & Hrun). apply res_bind_ok in Hrun as (? & [Hjwt _]%requireLongValue_ok & Hrun).
  apply res_bind_ok in Hrun as (feedback & Hfeedback & Hrun). apply res_bind_ok in Hrun as (_ & _ & Hrun).
  apply throw_bind in Hrun as [Hsame Hrun]. cbv zeta in Hrun. apply throw_bind in Hrun as [Hfeed Hrun].
  apply res_bind_ok in Hrun as (? & Hsource & Hrun). apply res_bind_ok in Hrun as (master & Hmaster & Hrun).
  rewrite !throw_bind in Hrun. destruct Hrun as (Hdecode & Hkms & Hcrash & Hlite).
  exists feedback, master. split_and!; try done. by apply (feedback_not_master e).
Qed.
(** The feedback key is not the inline master key. *)
Lemma feedback_not_inline e feedback master : loadFeedbackIntakeKey e = Ok feedback → loadMasterKey readFileSync e = Ok master →
  (truthy (nullish feedback "") = true → decodeKey (nullish feedback "") ≠ Some master) →
  truthy (nullish feedback "") = true → nullish feedback "" ≠ value e "HARA_KMS_MASTER_KEY".
Proof.
  intros Hf Hm Hnot Ht Heq. apply (Hnot Ht). destruct (feedback_key_spec e feedback Hf) as (Htrim & _). rewrite Heq.
  eapply master_inline; [done|]. by rewrite <- Heq, Htrim.
Qed.

(** a production process runs with independent secrets. Whenever the check at startup passes, the KMS master key
    is 32 bytes from one source, the administrator key and the token secret have at least 24 characters, and so has
    the gateway key when LiteLLM is used; the secrets that are set - of the feedback intake, the crash alerts, the
    inline master key, the gateway, the administrator, the tokens - are pairwise different; and the feedback key has
    at least 32 characters and decodes to something else than the master key, also when that comes from a file. *)
Theorem production_secrets_independent e :
  assertProductionRuntime URL searchParam readFileSync e = Ok tt → e "NODE_ENV" = Some "production" →
  ∃ feedback master, loadFeedbackIntakeKey e = Ok feedback ∧ loadMasterKey readFileSync e = Ok master ∧ length master = 32%nat ∧
    Forall (λ n, (24 <= String.length (value e n))%nat) (AUTH_SECRETS ++ if litellm_mode e then ["LITELLM_MASTER_KEY"] else []) ∧
    (∀ k, feedback = Some k → (32 <= String.length k)%nat ∧ decodeKey k ≠ Some master) ∧
    NoDup (secrets_of e (nullish feedback "")).
Proof.
  intros Hrun Hprod. destruct (runtime_facts e Hrun Hprod) as (feedback & master & Hf & Hm & Ha & Hj & Hs & Hindep & Hnot & Hk & Hc & Hlite).
  pose proof (feedback_key_spec e feedback Hf) as (_ & Hset & Hlong). pose proof (runtimeLitellm_ok e Hlite) as Hl.
  exists feedback, master. split_and!; [done|done|by eapply loadMasterKey_length| | |].
  - repeat constructor; [done..|]. destruct (litellm_mode e); repeat constructor. by apply Hl.
  - intros k ->. split; [by apply Hlong|]. apply Hnot. by apply Hset.
  - apply secrets_distinct; try done; [by eapply long_truthy..|by eapply feedback_not_inline|].
    intros Hmode. destruct (Hl Hmode) as [? ?]. split; [by eapply long_truthy|done].
Qed.

Lemma secureEquals_true a b : secureEquals a b = true ↔ a = b.
Proof.
  unfold secureEquals. rewrite andb_true_iff, Nat.eqb_eq, bool_decide_eq_true. split; [|by intros ->].
  intros [_ Heq%(f_equal of_bytes)]. by rewrite !of_bytes_bytes_of in Heq.
Qed.
Lemma guard_spec e raw : canActivate e raw = Ok true ↔ ∃ key, loadFeedbackIntakeKey e = Ok (Some key) ∧ head raw = Some key.
Proof.
  unfold canActivate. rewrite res_bind_ok. split.
  - intros ([key|] & Hk & Hc); [|done]. exists key. split; [done|]. rewrite !throw_bind in Hc. destruct Hc as (_ & Hc & _).
    apply orb_false_iff in Hc as [Ha Heq]. apply negb_false_iff, secureEquals_true in Heq. apply negb_false_iff, truthy_true in Ha.
    destruct (head raw); [by f_equal|done].
  - intros (key & Hk & Hraw). exists (Some key). split; [done|]. destruct (feedback_key_spec e _ Hk) as (_ & Hset & _).
    rewrite !throw_bind, Hraw. change (nullish (Some key) "") with key in *. rewrite (proj2 Hset) by done. split_and!; [done| |done].
    cbn [negb orb]. by rewrite (proj2 (secureEquals_true key key)).
Qed.

(** the feedback intake takes its own key and no other. In a production process that passed the check at startup,
    a request is let through exactly when its header is the key of the intake, and none of the administrator key,
    the token secret, the gateway, provider and alert secrets and the inline master key, as far as they are set,
    is that key. *)
Theorem feedback_guard_takes_one_key e raw : assertProductionRuntime URL searchParam readFileSync e = Ok tt → e "NODE_ENV" = Some "production" →
  (canActivate e raw = Ok true ↔ ∃ key, loadFeedbackIntakeKey e = Ok (Some key) ∧ head raw = Some key) ∧
  ∀ n, n ∈ "HARA_KMS_MASTER_KEY" :: RUNTIME_SECRETS → truthy (value e n) = true → canActivate e [value e n] ≠ Ok true.
Proof.
  intros Hrun Hprod. split; [apply guard_spec|]. intros n Hn Ht (key & Hk & [= <-])%guard_spec.
  destruct (runtime_facts e Hrun Hprod) as (feedback & master & Hf & Hm & _ & _ & _ & Hindep & Hnot & _).
  rewrite Hf in Hk. injection Hk as ->. change (nullish (Some ?k) "") with k in *. apply elem_of_cons in Hn as [->|Hn].
  - by apply (feedback_not_inline e (Some (value e "HARA_KMS_MASTER_KEY")) master).
  - rewrite Ht in Hindep. by apply (among_false e RUNTIME_SECRETS (value e n) n).
Qed.
End independence.

(** * What the launcher lets through, the process accepts *)

Definition CONSULTED : list string :=
  ["DATABASE_URL"; "HARA_FEEDBACK_INTAKE_KEY"; "HARA_FEEDBACK_INTAKE_KEYFILE"; "HARA_KMS_KEYFILE"; "HARA_KMS_MASTER_KEY"; "HARA_KMS_PROVIDER";
   "GATEWAY_ADAPTER"; "LITELLM_DATABASE_URL"; "LITELLM_URL"; "HARA_ALLOW_REMOTE_LITELLM"; "HARA_ALLOWED_MODELS"; "HARA_DEFAULT_MODEL"] ++
  FEISHU_SETTINGS ++ RUNTIME_SECRETS.

Section launched.
Context `{Files} (URL : string → option url) (searchParam : url → string → option string) (readFileSync : string → res string).
(** The names whose values decide the checks. *)
Lemma runtime_checks_ext e1 e2 : (∀ k, k ∈ CONSULTED → e1 k = e2 k) →
  runtime_checks URL searchParam readFileSync e1 = runtime_checks URL searchParam readFileSync e2.
Proof.
  intros Heq. unfold runtime_checks, requireDatabaseSchema, requireLongValue, loadFeedbackIntakeKey, setting, assertCrashAlertConfiguration,
    kms_source, kmsProvider, runtimeLitellm, defaultManagedModel, allowedManagedModels, configuredModels, env_or_empty, loadMasterKey,
    requireDatabaseSchema, requireLongValue, among, same, RUNTIME_SECRETS, AUTH_SECRETS, FEISHU_SETTINGS, value.
  cbn [map app]. repeat match goal with |- context [e1 ?k] => rewrite (Heq k) by in_names end. done.
Qed.

(** What the launcher leaves to the process: the provider of the master key, the list of models, blanks around the
    sources of the key, and, without LiteLLM, the comparison of the alert secret with the gateway key. *)
Record left_open (e : env) : Prop := {
  lo_provider : kmsProvider e = "local";
  lo_models : litellm_mode e = true → is_ok (defaultManagedModel e) = true;
  lo_inline : trim (value e "HARA_KMS_MASTER_KEY") = value e "HARA_KMS_MASTER_KEY";
  lo_keyfile : trim (value e "HARA_KMS_KEYFILE") = value e "HARA_KMS_KEYFILE" ∧ absolute (value e "HARA_KMS_KEYFILE") = value e "HARA_KMS_KEYFILE";
  lo_crash : litellm_mode e = false → truthy (value e "HARA_CRASH_FEISHU_APP_SECRET") = true →
    value e "HARA_CRASH_FEISHU_APP_SECRET" ≠ value e "LITELLM_MASTER_KEY" }.

Lemma left_open_ext e1 e2 : (∀ k, k ∈ CONSULTED → e1 k = e2 k) → left_open e1 → left_open e2.
Proof.
  intros Heq [H1 H2 H3 H4 H5]. unfold kmsProvider, litellm_mode, defaultManagedModel, allowedManagedModels, configuredModels, env_or_empty, value in *.
  repeat match goal with H : context [e1 ?k] |- _ => rewrite (Heq k) in H by in_names end. by split.
Qed.
Lemma no_reuse_spec e names : ∀ seen, no_reuse e seen names = Ok tt →
  NoDup (filter (λ s, truthy s = true) (map (value e) names)) ∧
  ∀ n, n ∈ names → truthy (value e n) = true → (value e n ∉ seen.*1).
Proof.
  induction names as [|name names IH]; intros seen; cbn [no_reuse map]; [intros _; split; [constructor|by intros ? ?%elem_of_nil]|].
  cbv zeta. rewrite filter_cons. destruct (truthy (value e name)) eqn:Ht; cbn [negb].
  - destruct (assoc (value e name) seen) eqn:Ha; [done|]. apply assoc_None in Ha. intros [Hnd Hseen]%IH.
    assert (∀ n, n ∈ names → truthy (value e n) = true → (value e n ∉ seen.*1) ∧ value e n ≠ value e name) as Hs.
    { intros n Hn Hn'. specialize (Hseen n Hn Hn'). rewrite fmap_app, not_elem_of_app in Hseen. destruct Hseen as [? Hne]. split; [done|].
      intros Heq. apply Hne. rewrite Heq. by left. }
    split.
    + rewrite decide_True by done. apply NoDup_cons. split; [|done]. intros [Hv (n & Heq & Hn)%list_elem_of_fmap]%list_elem_of_filter.
      destruct (Hs n Hn); congruence.
    + intros n [->|Hn]%elem_of_cons Hn'; [done|]. by apply Hs.
  - intros [Hnd Hseen]%IH. rewrite decide_False by done. split; [done|]. intros n [->|Hn]%elem_of_cons Hn'; [congruence|by apply Hseen].
Qed.
(** Values that are set are told apart by the names. *)
Lemma among_absent e names v : (∀ n, n ∈ names → truthy v = true → v ≠ value e n) → truthy v && among e names v = false.
Proof.
  intros Hne. destruct (truthy v) eqn:Ht; [|done]. cbn [andb]. apply mem_false. intros (n & Hn & Hin)%list_elem_of_fmap.
  apply (Hne n Hin eq_refl). unfold value. by rewrite <- Hn.
Qed.
Lemma same_absent e a b : value e a ≠ value e b → same e a b = false.
Proof. unfold same, value. intros Hne. apply bool_decide_eq_false. congruence. Qed.
Lemma not_reused e raw n : List.find (λ name, truthy (value e name) && String.eqb (value e name) raw) RUNTIME_SECRETS = None →
  n ∈ RUNTIME_SECRETS → truthy raw = true → raw ≠ value e n.
Proof.
  intros Hf Hn Ht ->. apply list_elem_of_In in Hn. pose proof (find_none _ _ Hf n Hn) as Hnone. cbn beta in Hnone.
  by rewrite Ht, String.eqb_refl in Hnone.
Qed.
Lemma readPrivateFile_contents path label text : readPrivateFile path label = Ok text → contents_of path = Ok text.
Proof. unfold readPrivateFile. intros (st & _ & Hr)%res_bind_ok. destruct (opened path); [|done]. by apply throw_bind in Hr as [_ Hr]. Qed.
(** The process takes the master key that the launcher looked at. *)
Lemma master_agree e raw master : (∀ p, readFileSync p = contents_of p) → left_open e → masterKeyText e = Ok raw →
  decodeMasterKey raw = Some master → loadMasterKey readFileSync e = Ok master.
Proof.
  intros Hread [_ _ Hi [Hkt Hka] _] Hraw Hdec. rewrite decodeMasterKey_decodeKey in Hdec. unfold masterKeyText in Hraw. cbv zeta in Hraw.
  rewrite !throw_bind in Hraw. destruct Hraw as (Hnone & Hboth & Hraw). unfold loadMasterKey. fold (value e "HARA_KMS_MASTER_KEY").
  fold (value e "HARA_KMS_KEYFILE"). rewrite Hi, Hkt. destruct (truthy (value e "HARA_KMS_KEYFILE")) eqn:Hf.
  - cbn [andb] in Hboth. rewrite Hboth. rewrite Hka in Hraw. destruct (readPrivateFile _ _) as [text|] eqn:Hr; [|done]. injection Hraw as <-.
    rewrite Hread, (readPrivateFile_contents _ _ _ Hr). revert Hdec. unfold decodeKey. rewrite trim_idemp. by intros ->.
  - cbn [negb andb] in Hnone. apply negb_false_iff in Hnone. rewrite Hnone. injection Hraw as <-. by rewrite Hi in Hdec; rewrite Hdec.
Qed.

Lemma present_once l1 x l2 : NoDup (filter (λ s, truthy s = true) (l1 ++ x :: l2)) → truthy x = true → (x ∉ l1) ∧ (x ∉ l2).
Proof.
  rewrite filter_app, filter_cons. intros Hnd Ht. rewrite decide_True in Hnd by done. apply NoDup_app in Hnd as (_ & Hd & Hc).
  apply NoDup_cons in Hc as [Hc _]. split; intros Hin.
  - apply (Hd x); [by apply list_elem_of_filter|by left].
  - apply Hc. by apply list_elem_of_filter.
Qed.
Lemma litellm_agree e : preflightLitellm URL searchParam e = Ok tt → left_open e →
  runtimeLitellm URL searchParam e = Ok tt ∧
  (truthy (value e "HARA_CRASH_FEISHU_APP_SECRET") = true → value e "HARA_CRASH_FEISHU_APP_SECRET" ≠ value e "LITELLM_MASTER_KEY").
Proof.
  intros Hp [_ Hmodels _ _ Hcrash]. unfold preflightLitellm in Hp. unfold runtimeLitellm. fold (litellm_mode e) in *.
  destruct (litellm_mode e) eqn:Hm; [|split; [done|by apply Hcrash]].
  apply res_bind_ok in Hp as (? & Hurl%requireValue_ok & Hp). apply res_bind_ok in Hp as (? & Hkey%requireValue_ok & Hp).
  apply res_bind_ok in Hp as ([] & Hdb & Hp). destruct (URL (value e "LITELLM_URL")) as [u|]; [|done].
  apply throw_bind in Hp as [Hloop Hp]. apply no_reuse_spec in Hp as [Hnd _].
  change (map (value e) RUNTIME_SECRETS) with ([value e "HARA_CONTROL_ADMIN_KEY"; value e "HARA_JWT_SECRET"] ++
    value e "LITELLM_MASTER_KEY" :: [value e "UPSTREAM_API_KEY"; value e "HARA_CRASH_FEISHU_APP_SECRET"]) in Hnd.
  pose proof (present_once _ _ _ Hnd (long_truthy _ _ Hkey)) as [H1 H2]. rewrite !not_elem_of_cons in H1, H2. split; [|naive_solver].
  rewrite (proj2 (requireLongValue_ok e "LITELLM_MASTER_KEY" _) (conj Hkey eq_refl)). cbn [mbind res_bind].
  rewrite (proj1 (schema_agree URL searchParam e _ _) Hdb). cbn [mbind res_bind]. rewrite (long_truthy _ _ Hurl). cbn [negb throw_if]. cbn [mbind res_bind].
  rewrite Hloop. cbn [throw_if]. cbn [mbind res_bind]. rewrite !same_absent by naive_solver. cbn [orb throw_if]. cbn [mbind res_bind].
  specialize (Hmodels eq_refl). unfold defaultManagedModel in *. destruct (allowedManagedModels e); [|done]. cbn [mbind res_bind] in *.
  revert Hmodels. cbv zeta. destruct (mem _ a); [reflexivity|discriminate].
Qed.
Lemma kms_source_agree e raw : left_open e → masterKeyText e = Ok raw → kms_source e = Ok tt.
Proof.
  intros [Hp _ _ _ _]. unfold masterKeyText, kms_source. cbv zeta. rewrite !throw_bind. intros (? & ? & _). split_and!; [done..|].
  by rewrite Hp.
Qed.
Lemma preflight_runtime e envPath : (∀ p, readFileSync p = contents_of p) → left_open e →
  validateProductionEnv URL searchParam e envPath = Ok tt → runtime_checks URL searchParam readFileSync e = Ok tt.
Proof.
  intros Hread Hopen Hv. unfold validateProductionEnv in Hv. apply res_bind_ok in Hv as ([] & Hdb%schema_agree & Hv).
  apply res_bind_ok in Hv as (? & Hadmin%requireValue_ok & Hv). apply res_bind_ok in Hv as (? & Hjwt%requireValue_ok & Hv).
  apply res_bind_ok in Hv as (f & Hfeed & Hv). apply feedback_agree in Hfeed as (o & Ho & <-). rewrite throw_bind in Hv. destruct Hv as [Hsame Hv].
  apply throw_bind in Hv as [Hindep Hv]. apply res_bind_ok in Hv as ([] & Hcfg%crash_config_agree & Hv). apply throw_bind in Hv as [Hcrash Hv].
  apply res_bind_ok in Hv as ([] & Hlite & Hv). apply res_bind_ok in Hv as ([] & Hkms & _).
  destruct (litellm_agree e Hlite Hopen) as [Hlite' Hcl]. unfold preflightMasterKey in Hkms. apply res_bind_ok in Hkms as (raw & Hraw & Hkms).
  destruct (decodeMasterKey raw) as [master|] eqn:Hdec; [|done]. apply throw_bind in Hkms as [Hfm Hkms].
  destruct (List.find _ _) eqn:Hfind; [done|]. pose proof (master_agree e raw master Hread Hopen Hraw Hdec) as Hmaster.
  pose proof (feedback_key_spec e o Ho) as (Htrim & _ & _). pose proof (loadMasterKey_length readFileSync e master Hmaster) as Hlen.
  assert (truthy (value e "HARA_KMS_MASTER_KEY") = true → value e "HARA_KMS_MASTER_KEY" = raw) as Hinline.
  { intros Hi. unfold masterKeyText in Hraw. cbv zeta in Hraw. rewrite Hi, !throw_bind, andb_true_r in Hraw. destruct Hraw as (_ & Hk & Hraw).
    rewrite Hk in Hraw. injection Hraw as <-. symmetry. by destruct Hopen. }
  unfold runtime_checks. apply res_bind_ok. eexists. split; [exact Hdb|].
  apply res_bind_ok. eexists. split; [by apply requireLongValue_ok|]. apply res_bind_ok. eexists. split; [by apply requireLongValue_ok|].
  apply res_bind_ok. eexists. split; [exact Ho|]. apply res_bind_ok. eexists. split; [exact Hcfg|]. apply throw_bind. split; [exact Hsame|].
  cbv zeta. apply throw_bind. split; [exact Hindep|]. apply res_bind_ok. exists tt. split; [by eapply kms_source_agree|].
  apply res_bind_ok. eexists. split; [exact Hmaster|]. rewrite !throw_bind. split_and!; [| | |exact Hlite'].
  - destruct (truthy (nullish o "")) eqn:Ht; [|done]. cbn [andb] in *. rewrite secretDecodesTo_spec by done.
    by rewrite <- decodeMasterKey_decodeKey.
  - apply among_absent. intros n Hn Ht. pose proof (Hinline Ht) as Heq. rewrite Heq. rewrite Heq in Ht.
    eapply not_reused; [exact Hfind|names_within|done].
  - apply among_absent. intros n [Hn|[->|[->|[]%elem_of_nil]%elem_of_cons]%elem_of_cons]%elem_of_app Ht; [|by apply Hcl|].
    + rewrite Ht in Hcrash. by eapply among_false.
    + intros Heq. rewrite Heq in Ht. pose proof (Hinline Ht) as Hraw'. rewrite Hraw' in *.
      eapply (not_reused e raw "HARA_CRASH_FEISHU_APP_SECRET"); [exact Hfind|in_names|done|done].
Qed.

(** C13: what the launcher lets through, the process accepts. Let the launcher start a command from an environment
    file. If the environment it was started in sets none of the names the check of the process looks at, and what the
    launcher leaves open is in order ([left_open]), then the check passes in the environment the command gets -
    every other condition of the process, on the database schemas, the lengths and the independence of the secrets,
    the alert settings, the gateway and the key files, is one the launcher has made sure of. *)
Theorem launch_accepted inherited argv command args e' : (∀ p, readFileSync p = contents_of p) →
  launch URL searchParam inherited argv = Ok (command, args, e') → (∀ k, k ∈ CONSULTED → inherited k = None) → left_open e' →
  assertProductionRuntime URL searchParam readFileSync e' = Ok tt.
Proof.
  intros Hread Hl Hinh Hopen. unfold launch in Hl. destruct argv as [|file [|sep [|cmd rest]]]; try done.
  destruct (_ || _); [done|]. cbv zeta in Hl. apply res_bind_ok in Hl as (text & _ & Hl). apply res_bind_ok in Hl as (parsed & _ & Hl).
  apply res_bind_ok in Hl as ([] & Hv & [= <- <- <-]).
  assert (∀ k, k ∈ CONSULTED → env_of parsed k = child_env inherited parsed k) as Heq.
  { intros k Hk. unfold env_of, child_env. destruct (String.eqb k "HARA_ENV_LOADED") eqn:E1.
    { apply String.eqb_eq in E1 as ->. by apply (proj2 (bool_decide_eq_true _)) in Hk. }
    destruct (String.eqb k "NODE_ENV") eqn:E2; [by apply String.eqb_eq in E2 as ->; apply (proj2 (bool_decide_eq_true _)) in Hk|].
    destruct (assoc k parsed); [done|]. symmetry. by apply Hinh. }
  unfold assertProductionRuntime. change (child_env inherited parsed "NODE_ENV") with (Some "production").
  change (child_env inherited parsed "HARA_ENV_LOADED") with (Some "1"). rewrite !bool_decide_true by done. cbn [negb andb throw_if]. cbn [mbind res_bind].
  rewrite <- (runtime_checks_ext _ _ Heq). eapply preflight_runtime; [done| |exact Hv].
  eapply left_open_ext; [|exact Hopen]. intros k Hk. by rewrite Heq.
Qed.
End launched.

(** a listing that passes shows a clean boundary. When the inspection of the process manager succeeds, every
    process it was asked for is listed, and no entry with such a name - there may be several - holds one of the
    forbidden variables, neither in its own snapshot nor in the environment inside it. *)
Theorem pm2_boundary jlist pm2Bin names : assertPm2 jlist (pm2Bin :: names) = Ok tt →
  names ≠ [] ∧ ∃ l, jlist pm2Bin = Some (Some l) ∧ (∀ n, n ∈ names → ∃ p, p ∈ l ∧ p_name p = Some n) ∧
  ∀ p n key, p ∈ l → n ∈ names → p_name p = Some n → key ∈ FORBIDDEN_ENV_NAMES → (key ∉ pm2_env p) ∧ (key ∉ inner_env p).
Proof.
  unfold assertPm2. cbv zeta. cbn [head tail]. intros [Hu Hp]%throw_bind. apply orb_false_iff in Hu as [_ Hn].
  split; [by intros ->|]. destruct (jlist _) as [[l|]|]; [|done..]. exists l. split; [done|]. apply throw_bind in Hp as [Hmiss Hunsafe].
  apply throw_if_ok in Hunsafe. apply Nat.ltb_ge in Hmiss, Hunsafe. split.
  - intros n Hin. destruct (mem (Some n) (map p_name l)) eqn:E.
    + apply mem_true, list_elem_of_fmap in E as (p & Hp & Hpl). by exists p.
    + exfalso. assert (n ∈ filter (λ n, negb (mem (Some n) (map p_name l)) = true) names) as Hf by (apply list_elem_of_filter; by rewrite E).
      destruct (filter _ names); [by apply not_elem_of_nil in Hf|cbn in Hmiss; lia].
  - intros p n key Hpl Hin Hpn Hkey. apply Decidable.not_or. intros Hor.
    assert ((n, key) ∈ unsafePm2Environment l names) as Hf; [|destruct (unsafePm2Environment l names); [by apply not_elem_of_nil in Hf|cbn in Hunsafe; lia]].
    unfold unsafePm2Environment. apply list_elem_of_bind. exists p. split; [|done]. rewrite Hpn, (proj2 (mem_true n names) Hin).
    apply list_elem_of_fmap. exists key. split; [done|]. apply list_elem_of_filter. split; [|done]. by rewrite orb_true_iff, !mem_true.
Qed.

(** * Witnesses and cases *)

Definition demo_URL (s : string) : option url :=
  let u p h q := Some {| protocol := p; hostname := h; username := ""; password := ""; pathname := "/"; search := q; hash := ""; origin := ""; href := s |} in
  if startsWith "postgres:" s then u "postgres:" "db" (str (drop 9 (chars s)))
  else if startsWith "http://" s then u "http:" (str (drop 7 (chars s))) "" else None.
Definition demo_param (u : url) (k : string) : option string := if String.eqb k "schema" then Some (search u) else None.
Definition demo_vars (litellm_host : string) : list (string * string) :=
  [("DATABASE_URL", "postgres:public"); ("HARA_CONTROL_ADMIN_KEY", "admin-admin-admin-admin-"); ("HARA_JWT_SECRET", "jwt-jwt-jwt-jwt-jwt-jwt-");
   ("HARA_FEEDBACK_INTAKE_KEY", "feedback-feedback-feedback-feedback"); ("GATEWAY_ADAPTER", "litellm"); ("LITELLM_URL", "http://" +:+ litellm_host);
   ("LITELLM_MASTER_KEY", "litellm-litellm-litellm-"); ("LITELLM_DATABASE_URL", "postgres:litellm");
   ("HARA_KMS_MASTER_KEY", "00112233445566778899aabbccddeeff00112233445566778899aabbccddeeff")].
Definition demo_stat : Stat := {| symbolicLink := false; isFile := true; mode := 384; uid := 1000; dev := 1; ino := 7 |}.
#[local] Instance demo_files : Files :=
  {| lstat := λ _, Ok demo_stat; opened := λ _, Ok demo_stat; contents_of := λ _, Ok (EnvFile.print_env (demo_vars "127.0.0.1"));
     geteuid := Some 1000; absolute := λ p, p |}.
Definition demo_child : env := child_env (λ _, None) (demo_vars "127.0.0.1").

Lemma launch_accepted_witness : ∃ e',
  launch demo_URL demo_param (λ _, None) ["/e/.env"; "--"; "node"; "dist/main.js"] = Ok ("node", ["dist/main.js"], e') ∧
  assertProductionRuntime demo_URL demo_param contents_of e' = Ok tt.
Proof.
  exists demo_child. assert (launch demo_URL demo_param (λ _, None) ["/e/.env"; "--"; "node"; "dist/main.js"] = Ok ("node", ["dist/main.js"], demo_child)) as Hl
    by (vm_compute; reflexivity).
  split; [exact Hl|]. apply (launch_accepted demo_URL demo_param contents_of (λ _, None) _ _ _ _ (λ _, eq_refl) Hl); [reflexivity|].
  split; [reflexivity|reflexivity|reflexivity|split; reflexivity|discriminate].
Defined.
Lemma production_secrets_independent_witness :
  assertProductionRuntime demo_URL demo_param contents_of demo_child = Ok tt ∧ NoDup (secrets_of demo_child "feedback-feedback-feedback-feedback").
Proof.
  assert (assertProductionRuntime demo_URL demo_param contents_of demo_child = Ok tt) as Hrun by (vm_compute; reflexivity). split; [exact Hrun|].
  destruct (production_secrets_independent demo_URL demo_param contents_of demo_child Hrun eq_refl) as (feedback & master & Hf & _ & _ & _ & _ & Hnd).
  revert Hnd. replace feedback with (Some "feedback-feedback-feedback-feedback"); [intros Hnd; exact Hnd|].
  assert (loadFeedbackIntakeKey demo_child = Ok (Some "feedback-feedback-feedback-feedback")) as Hd by (vm_compute; reflexivity). congruence.
Defined.
Lemma feedback_guard_takes_one_key_witness :
  canActivate demo_child ["feedback-feedback-feedback-feedback"] = Ok true ∧ canActivate demo_child ["admin-admin-admin-admin-"] ≠ Ok true.
Proof.
  assert (assertProductionRuntime demo_URL demo_param contents_of demo_child = Ok tt) as Hrun by (vm_compute; reflexivity).
  split; [vm_compute; reflexivity|].
  apply (proj2 (feedback_guard_takes_one_key demo_URL demo_param contents_of demo_child [] Hrun eq_refl) "HARA_CONTROL_ADMIN_KEY"); [in_names|reflexivity].
Defined.
Lemma pm2_boundary_witness : ∃ l, assertPm2 (λ _, Some (Some l)) ["pm2"; "hara"] = Ok tt ∧
  (∀ key, key ∈ FORBIDDEN_ENV_NAMES → (key ∉ ["PATH"])).
Proof.
  exists [{| p_name := Some "hara"; pm2_env := ["PATH"]; inner_env := [] |}]. split; [vm_compute; reflexivity|]. intros key Hkey.
  destruct (pm2_boundary (λ _, Some (Some [{| p_name := Some "hara"; pm2_env := ["PATH"]; inner_env := [] |}])) "pm2" ["hara"]) as (_ & l & [= <-] & _ & H);
    [vm_compute; reflexivity|]. by apply (H {| p_name := Some "hara"; pm2_env := ["PATH"]; inner_env := [] |} "hara"); [left|left| |].
Defined.

(** The host of an URL with an IPv6 address is in brackets, so the third loopback name never matches: a gateway on the
    IPv6 loopback address is refused as remote. *)
Example ipv6_loopback_refused : mem "::1" LOOPBACK = true ∧
  validateProductionEnv demo_URL demo_param (env_of (demo_vars "[::1]")) "/e/.env" =
    Throw (Error "LITELLM_URL must be loopback unless HARA_ALLOW_REMOTE_LITELLM=1 is explicitly set").
Proof. split; vm_compute; reflexivity. Qed.
(** The process manager may hold the key of the feedback intake. *)
Example pm2_keeps_feedback_key :
  assertPm2 (λ _, Some (Some [{| p_name := Some "hara"; pm2_env := ["HARA_FEEDBACK_INTAKE_KEY"]; inner_env := [] |}])) ["pm2"; "hara"] = Ok tt.
Proof. vm_compute. reflexivity. Qed.
(** What the launcher leaves open: a provider of the master key that does not exist. *)
Example launched_and_refused :
  validateProductionEnv demo_URL demo_param (env_of (("HARA_KMS_PROVIDER", "aws") :: demo_vars "127.0.0.1")) "/e/.env" = Ok tt ∧
  assertProductionRuntime demo_URL demo_param contents_of (child_env (λ _, None) (("HARA_KMS_PROVIDER", "aws") :: demo_vars "127.0.0.1")) =
    Throw (Error "the configured production KMS provider is not implemented").
Proof. split; vm_compute; reflexivity. Qed.
