(* ===== verification/Routes.v ===== *)
(** The surface of the service: the controllers under [src/] with their decorators, the guards a request passes before
    its handler runs ([src/common/admin-key.guard.ts], [src/common/admin-auth.guard.ts],
    [src/feedback-tickets/feedback-intake.guard.ts]), the health checks ([src/health/]) and the response headers of
    [src/main.ts]. How a path selects a route is the framework's; a route is identified by its decorators. *)
From S2P Require Import Prelude Js Crypto Access Startup Gateway.
Local Open Scope Z_scope.

(** * Decorators *)

Inductive Method := GET | POST | PUT | PATCH | DELETE.
Inductive GuardKind := AdminKeyGuard | AdminAuthGuard | FeedbackIntakeGuard.
#[export] Instance GuardKind_eq_dec : EqDecision GuardKind.
Proof. solve_decision. Defined.
(** A method of a controller: its verb and path, the operation of the service it calls, [@UseGuards] and [@Roles] on the
    method. *)
Record Handler := {
  verb : Method; route : string; calls : string; use_guard : option GuardKind; roles_of : option Guard.AdminRole }.
Record Controller := { prefix : string; class_guard : option GuardKind; class_roles : option Guard.AdminRole; handlers : list Handler }.
Definition plain (m : Method) (r op : string) : Handler :=
  {| verb := m; route := r; calls := op; use_guard := None; roles_of := None |}.
Definition guarded (m : Method) (r op : string) (g : GuardKind) (role : option Guard.AdminRole) : Handler :=
  {| verb := m; route := r; calls := op; use_guard := Some g; roles_of := role |}.
Definition admin_only (p : string) (role : option Guard.AdminRole) (l : list Handler) : Controller :=
  {| prefix := p; class_guard := Some AdminAuthGuard; class_roles := role; handlers := l |}.
Definition unguarded (p : string) (l : list Handler) : Controller :=
  {| prefix := p; class_guard := None; class_roles := None; handlers := l |}.

(** ** The controllers *)

Definition AdminController : Controller := admin_only "admin" None
  [plain POST "orgs" "createOrg"; plain GET "orgs" "listOrgs"; plain GET "model-options" "modelOptions"; plain GET "orgs/:id/ancestors" "orgAncestors"; plain GET "orgs/:id/subtree" "orgSubtree";
   plain POST "enroll-codes" "createEnrollCode"; plain GET "fleet" "fleet"; plain GET "usage" "usage"; plain POST "devices/:id/revoke" "revokeDevice";
   plain PATCH "devices/:id/person" "bindDevicePerson"; plain GET "audit/verify" "verifyAudit"].
Definition AssetsDeviceController : Controller := unguarded "v1/assets"
  [plain GET "manifest" "manifest"; plain POST "search" "search"; plain POST "contribute" "contribute"; plain GET ":id" "getAsset"].
Definition AssetsAdminController : Controller :=
  {| prefix := "admin/assets"; class_guard := Some AdminKeyGuard; class_roles := None;
     handlers := [plain POST ":id/review" "review"; plain POST ":id/promote" "promote"; plain POST ":id/deprecate" "deprecate"] |}.
Definition AuthController : Controller := unguarded "auth"
  [guarded POST "bootstrap-superadmin" "bootstrapSuperadmin" AdminKeyGuard None; plain POST "login" "login";
   guarded GET "me" "me" AdminAuthGuard (Some Guard.MEMBER); guarded POST "2fa/setup" "startTotpSetup" AdminAuthGuard (Some Guard.MEMBER);
   guarded POST "2fa/enable" "enableTotp" AdminAuthGuard (Some Guard.MEMBER); guarded POST "2fa/disable" "disableTotp" AdminAuthGuard (Some Guard.MEMBER)].
Definition AdminUsersController : Controller := admin_only "admin/users" (Some Guard.SUPERADMIN)
  [plain GET "" "listUsers"; plain POST "" "createUser"; plain PATCH ":id" "updateUser"].
Definition PublicCrashReportsController : Controller := unguarded "v1/desktop/crash-reports" [plain POST "" "submit"].
Definition AdminCrashReportsController : Controller := admin_only "admin/crash-reports" (Some Guard.SUPERADMIN)
  [plain GET "" "list"; plain GET ":id" "get"; plain POST ":id/retry-alert" "retryAlert"; plain PATCH ":id" "update"].
Definition EnrollController : Controller := unguarded "v1"
  [plain POST "enroll" "enroll"; plain POST "heartbeat" "heartbeat"; plain POST "desk/agents" "provisionDeskAgent"].
Definition InternalFeedbackTicketsController : Controller :=
  {| prefix := "v1/internal/feedback-tickets"; class_guard := Some FeedbackIntakeGuard; class_roles := None;
     handlers := [plain POST "intake" "intake"; plain PATCH ":id" "updateClaimed"] |}.
Definition AdminFeedbackTicketsController : Controller := admin_only "admin/feedback-tickets" (Some Guard.SUPERADMIN)
  [plain GET "" "list"; plain GET ":id" "get"; plain PATCH ":id" "update"].
Definition HealthController : Controller := unguarded "health" [plain GET "live" "live"; plain GET "ready" "ready"].
Definition LearningsDeviceController : Controller := unguarded "v1" [plain POST "learnings/candidates" "submit"; plain GET "learnings" "bundle"].
Definition LearningsAdminController : Controller := admin_only "admin" None [plain GET "learnings" "list"; plain POST "learnings/:id/review" "review"].
Definition ProviderCredentialsController : Controller := admin_only "admin/providers/deepseek" (Some Guard.SUPERADMIN)
  [plain GET "" "deepSeekStatus"; plain PUT "credential" "putDeepSeek"; plain POST "credential/test" "testDeepSeek"].
Definition RolesController : Controller := admin_only "admin" None
  [plain POST "roles" "createRole"; plain GET "roles" "listRoles"; plain PATCH "roles/:id" "updateRole"; plain DELETE "roles/:id" "archiveRole"; plain POST "persons" "createPerson";
   plain GET "persons" "listPersons"; plain POST "teams" "createTeam"; plain POST "teams/:id/members" "addTeamMember"; plain PATCH "teams/:id/policy" "setTeamPolicy";
   plain POST "assignments" "createAssignment"; plain DELETE "assignments/:id" "deleteAssignment"; plain PATCH "assignments/:id" "updateAssignment"; plain PATCH "orgs/:id/policy" "setOrgPolicy";
   plain GET "digital-employees" "listDigitalEmployees"; plain GET "devices/:id/bundle" "resolveBundleForDevice"].
Definition RolesDeviceController : Controller := unguarded "v1" [plain GET "roles" "bundleForBearer"].
Definition TenantServiceBindingsController : Controller := admin_only "admin/orgs/:orgId/service-bindings" None
  [plain GET "" "list"; plain PUT ":service" "upsert"; plain POST ":service/verify" "verify"; plain POST ":service/disable" "disable"].
Definition WorkDeviceController : Controller := unguarded "v1" [plain POST "events" "ingest"].
Definition WorkAdminController : Controller :=
  {| prefix := "admin/work"; class_guard := Some AdminKeyGuard; class_roles := None; handlers := [plain GET "" "list"] |}.

(** [AppModule]: the modules in the order they are imported, each with its controllers. *)
Definition controllers : list Controller :=
  [EnrollController; AdminController; RolesController; RolesDeviceController; AssetsDeviceController; AssetsAdminController;
   WorkDeviceController; WorkAdminController; AuthController; AdminUsersController; HealthController;
   ProviderCredentialsController; TenantServiceBindingsController; LearningsAdminController; LearningsDeviceController;
   PublicCrashReportsController; AdminCrashReportsController; InternalFeedbackTicketsController; AdminFeedbackTicketsController].

(** * Guards *)

(** [AdminKeyGuard.canActivate] *)
Definition adminKey (e : env) (headers : string → option string) : res unit :=
  let expected := nullish (e "HARA_CONTROL_ADMIN_KEY") "" in
  _ ← throw_if (negb (truthy expected)) (UnauthorizedException "HARA_CONTROL_ADMIN_KEY not configured");
  throw_if (negb (bool_decide (headers "x-admin-key" = Some expected))) (UnauthorizedException "bad admin key").

Section guards.
Context (hmac_sha256 : string → string → list Z) (JSON_parse : string → option json)
  (findUser : string → option Guard.AdminUser) `{Files}.
(** What the request carries: its headers by name, every value of [x-hara-feedback-key], and the time in seconds. *)
Context (e : env) (now : Z) (headers : string → option string) (feedback_key : list string).

(** [reflector.getAllAndOverride(ROLES_KEY, [handler, class])] *)
Definition required (c : Controller) (h : Handler) : option Guard.AdminRole :=
  match roles_of h with Some r => Some r | None => class_roles c end.
Definition run_guard (c : Controller) (h : Handler) (g : GuardKind) : res (option Guard.AuthedUser) :=
  match g with
  | AdminKeyGuard => _ ← adminKey e headers; Ok None
  | AdminAuthGuard => u ← Guard.canActivate hmac_sha256 JSON_parse findUser e now headers (required c h); Ok (Some u)
  | FeedbackIntakeGuard => _ ← Startup.canActivate e feedback_key; Ok None
  end.
(** The guards of the class run before those of the method; the last one that authenticates a user sets it. *)
Definition run_guards (c : Controller) (h : Handler) (l : list GuardKind) : res (option Guard.AuthedUser) :=
  foldl (λ r g, u ← r; v ← run_guard c h g; Ok (match v with Some _ => v | None => u end)) (Ok None) l.
Definition guards_of (c : Controller) (h : Handler) : list GuardKind := option_list (class_guard c) ++ option_list (use_guard h).
Definition enter (c : Controller) (h : Handler) : res (option Guard.AuthedUser) := run_guards c h (guards_of c h).

(** ** Who gets in *)

(** The rank an administrator needs for the routes under a prefix. *)
Definition super_prefixes : list string := ["admin/users"; "admin/crash-reports"; "admin/feedback-tickets"; "admin/providers/deepseek"].
Definition needed (c : Controller) : Guard.AdminRole := if mem (prefix c) super_prefixes then Guard.SUPERADMIN else Guard.ADMIN.

Definition shared_key : Prop := ∃ key, e "HARA_CONTROL_ADMIN_KEY" = Some key ∧ key ≠ "" ∧ headers "x-admin-key" = Some key.
Definition ranked (role : Guard.AdminRole) (u : option Guard.AuthedUser) : Prop := ∃ a,
  Guard.authenticated_jwt hmac_sha256 JSON_parse findUser e now headers a ∧ Guard.u_disabledAt a = None ∧
  Guard.RANK role <= Guard.RANK (Guard.u_role a) ∧
  u = Some {| Guard.id := Guard.u_id a; Guard.email := Guard.u_email a; Guard.role := Guard.u_role a;
              Guard.orgId := Guard.u_orgId a; Guard.viaSharedKey := false |}.

Lemma adminKey_ok : adminKey e headers = Ok tt → shared_key.
Proof.
  unfold adminKey, shared_key. destruct (e "HARA_CONTROL_ADMIN_KEY") as [key|]; [|done]. cbv zeta.
  change (nullish (Some key) "") with key. destruct (truthy key) eqn:Ht; [|done]. cbn [negb throw_if mbind res_bind].
  case_bool_decide; [|done]. intros _. exists key. split_and!; [done|by apply truthy_true|done].
Qed.

(** The static shape of the administrative routes: one guard, of the class, strong enough for the prefix. *)
Definition administrative (c : Controller) (h : Handler) : bool :=
  match guards_of c h with
  | [AdminKeyGuard] => true
  | [AdminAuthGuard] => Guard.RANK (needed c) <=? Guard.RANK (nullish (required c h) Guard.ADMIN)
  | _ => false
  end.
Lemma administrative_enter c h u : administrative c h = true → enter c h = Ok u → shared_key ∨ ranked (needed c) u.
Proof.
  unfold administrative, enter. destruct (guards_of c h) as [|g [|]]; [done| |by destruct g].
  destruct g; [| |done]; cbn [run_guards foldl mbind res_bind run_guard].
  - intros _ Hrun. destruct (adminKey e headers) as [[]|] eqn:Hk; [|done]. left. by apply adminKey_ok.
  - intros Hrank Hrun. destruct (Guard.canActivate _ _ _ e now headers (required c h)) as [user|] eqn:Hc; [|done].
    cbn in Hrun. injection Hrun as <-. apply Guard.canActivate_spec in Hc as [(_ & _ & Hk)|(a & Ha & Hd & Hr & ->)]; [by left|].
    right. exists a. apply Z.leb_le in Hrank. split_and!; [done|done|by etrans|done].
Qed.

(** The routes no guard stands before. *)
Definition unguarded_routes : list (string * string) :=
  [("v1", "enroll"); ("v1", "heartbeat"); ("v1", "desk/agents"); ("v1", "roles"); ("v1", "events"); ("v1", "learnings"); ("v1", "learnings/candidates");
   ("v1/assets", "manifest"); ("v1/assets", "search"); ("v1/assets", "contribute"); ("v1/assets", ":id");
   ("auth", "login"); ("v1/desktop/crash-reports", ""); ("health", "live"); ("health", "ready")].

(** C5: Nobody reaches an administrative route unauthenticated. For every controller of the application whose routes
    lie under [admin], a request that passes the guards of one of its handlers carried the configured non-empty
    shared key, or a bearer token that proves an enabled account of at least the rank the prefix needs:
    SUPERADMIN for accounts, crash reports, feedback tickets and provider credentials, ADMIN for the rest. And the
    handlers of the application no guard stands before are exactly those of the listed routes: the enrollment, the
    login, the intake of crash reports, the two health probes, and ten routes a device calls, which leave the check of
    the device's token to the service they call, of which this theorem says nothing. *)
Theorem admin_surface_guarded c h u :
  c ∈ controllers → h ∈ handlers c →
  (startsWith "admin" (prefix c) = true → enter c h = Ok u → shared_key ∨ ranked (needed c) u) ∧
  (guards_of c h = [] ↔ (prefix c, route h) ∈ unguarded_routes).
Proof.
  assert (Forall (λ c, Forall (λ h,
    (startsWith "admin" (prefix c) = true → administrative c h = true) ∧
    (guards_of c h = [] ↔ (prefix c, route h) ∈ unguarded_routes)) (handlers c)) controllers) as Hall.
  { apply (bool_decide_unpack _). vm_compute. exact I. }
  intros Hc Hh. rewrite Forall_forall in Hall. specialize (Hall c Hc). rewrite Forall_forall in Hall.
  destruct (Hall h Hh) as [Hadmin Hopen]. split; [|done]. intros Hp. by apply administrative_enter, Hadmin.
Qed.
End guards.

(** * Health *)

Record Checks := { database : bool; gateway : bool; configuration : bool }.
Record ReadinessResult := { status : string; checks : Checks }.
Definition live : string := "ok".
Definition configurationReady (e : env) : bool :=
  if absent (e "DATABASE_URL") then false
  else if negb (bool_decide (e "GATEWAY_ADAPTER" = Some "litellm")) then true
  else negb (absent (e "LITELLM_URL")) && negb (absent (e "LITELLM_MASTER_KEY")) && negb (absent (e "LITELLM_DATABASE_URL")).
(** [query] is the outcome of [SELECT 1], [probe] that of the gateway's own check. *)
Definition ready (e : env) (query : res unit) (probe : res bool) : ReadinessResult :=
  let database := is_ok query in
  let gateway := match probe with Ok ok => ok | Throw _ => false end in
  let configuration := configurationReady e in
  {| status := if database && gateway && configuration then "ok" else "not_ready";
     checks := {| database := database; gateway := gateway; configuration := configuration |} |}.
(** [HealthController.ready]: the status code and the body. *)
Definition ready_response (e : env) (query : res unit) (probe : res bool) : Z * ReadinessResult :=
  let result := ready e query probe in
  (if String.eqb (status result) "ok" then 200 else 503, result).

(** Readiness answers 200 exactly when the database answered, the gateway reported itself ready and the
    configuration the chosen adapter needs is complete; no failure of a check escapes as an error, and two
    deployments whose checks agree give the same answer, whatever their settings and errors were. *)
Theorem ready_iff e query probe :
  (fst (ready_response e query probe) = 200 ↔
    query = Ok tt ∧ probe = Ok true ∧ absent (e "DATABASE_URL") = false ∧
    (e "GATEWAY_ADAPTER" = Some "litellm" →
       absent (e "LITELLM_URL") = false ∧ absent (e "LITELLM_MASTER_KEY") = false ∧ absent (e "LITELLM_DATABASE_URL") = false)) ∧
  ∀ e' query' probe', checks (ready e' query' probe') = checks (ready e query probe) →
    ready_response e' query' probe' = ready_response e query probe.
Proof.
  split.
  - unfold ready_response, ready. cbn [status checks fst].
    assert ((if String.eqb (if is_ok query && match probe with Ok ok => ok | Throw _ => false end && configurationReady e
                            then "ok" else "not_ready") "ok" then 200 else 503) = 200 ↔
            is_ok query && match probe with Ok ok => ok | Throw _ => false end && configurationReady e = true) as ->.
    { destruct (_ && _ && _); split; done. }
    rewrite !andb_true_iff. unfold configurationReady.
    destruct query as [[]|]; [|naive_solver]. destruct probe as [[]|]; [|naive_solver..].
    destruct (absent (e "DATABASE_URL")); [naive_solver|]. case_bool_decide as Hl; cbn [negb].
    + rewrite !andb_true_iff, !negb_true_iff. naive_solver.
    + naive_solver.
  - intros e' query' probe' Heq. unfold ready_response, ready in *. cbn [status checks] in *. injection Heq as -> -> ->. done.
Qed.

(** * Response headers *)

Definition Content_Security_Policy : string := join "; "
  ["default-src 'self'"; "base-uri 'none'"; "connect-src 'self'"; "font-src 'self'"; "form-action 'self'"; "frame-ancestors 'none'";
   "img-src 'self' data:"; "object-src 'none'"; "script-src 'self'"; "style-src 'self' 'unsafe-inline'"].
(** [/^\/(?:admin|auth|v1)\//.test(req.path)] *)
Definition api_path (path : string) : bool :=
  startsWith "/admin/" path || startsWith "/auth/" path || startsWith "/v1/" path.
(** What the middleware of [main.ts] sets on every response. *)
Definition response_headers (path : string) : list (string * string) :=
  [("Content-Security-Policy", Content_Security_Policy); ("Cross-Origin-Opener-Policy", "same-origin");
   ("Referrer-Policy", "no-referrer"); ("X-Content-Type-Options", "nosniff"); ("X-Frame-Options", "DENY")]
  ++ (if api_path path then [("Cache-Control", "no-store")] else []).
(** [Number(process.env.PORT) || 4100] and [process.env.HOST || "0.0.0.0"] *)
Definition listen_address (e : env) : string * number :=
  (or_default (nullish (e "HOST") "") "0.0.0.0",
   match from_option Number_str NaN (e "PORT") with
   | NaN => Num 4100
   | Num q => if Qeq_bool q 0 then Num 4100 else Num q
   | Infinity b => Infinity b
   end).

(** The paths of a route: its text with any values for the parameters. *)
Definition segments (c : Controller) (h : Handler) : list string :=
  split "/" (prefix c) ++ (if truthy (route h) then split "/" (route h) else []).
Fixpoint fill (l values : list string) : string :=
  match l with
  | [] => ""
  | x :: l' => "/" +:+ (if startsWith ":" x then nullish (head values) "" else x)
               +:+ fill l' (if startsWith ":" x then tail values else values)
  end.
Definition path_of (c : Controller) (h : Handler) (values : list string) : string := fill (segments c h) values.

Lemma api_prefix x rest : x ∈ ["admin"; "auth"; "v1"] → api_path ("/" +:+ x +:+ "/" +:+ rest) = true.
Proof.
  intros Hx. repeat (apply elem_of_cons in Hx as [->|Hx]; [unfold api_path, startsWith; cbn; by destruct rest|]). by apply not_elem_of_nil in Hx.
Qed.

(** What the API answers is never cached. Whatever values the parameters of its path take, the response of every
    route of the application but the health probes carries [Cache-Control: no-store], beside the headers every
    response has. *)
Theorem api_responses_not_stored c h values :
  c ∈ controllers → h ∈ handlers c → prefix c ≠ "health" →
  ("Cache-Control", "no-store") ∈ response_headers (path_of c h values) ∧
  ("X-Frame-Options", "DENY") ∈ response_headers (path_of c h values).
Proof.
  assert (Forall (λ c, Forall (λ h, prefix c = "health" ∨
    ∃ x y l, segments c h = x :: y :: l ∧ x ∈ ["admin"; "auth"; "v1"] ∧ startsWith ":" x = false) (handlers c)) controllers) as Hall.
  { assert (forallb (λ c, forallb (λ h, String.eqb (prefix c) "health" ||
      match segments c h with x :: y :: _ => mem x ["admin"; "auth"; "v1"] && negb (startsWith ":" x) | _ => false end) (handlers c)) controllers = true)
      as Hb by (vm_compute; reflexivity).
    rewrite forallb_forall in Hb. apply Forall_forall. intros d Hd%list_elem_of_In. specialize (Hb d Hd). rewrite forallb_forall in Hb.
    apply Forall_forall. intros k Hk%list_elem_of_In. specialize (Hb k Hk). apply orb_true_iff in Hb as [->%String.eqb_eq|Hb]; [by left|right].
    destruct (segments d k) as [|x [|y l]]; [done..|]. exists x, y, l. apply andb_true_iff in Hb as [Hx Hcolon].
    split_and!; [done|by apply mem_true|by apply negb_true_iff]. }
  intros Hc Hh Hne. rewrite Forall_forall in Hall. specialize (Hall c Hc). rewrite Forall_forall in Hall.
  destruct (Hall h Hh) as [?|Hseg]; [done|]. unfold path_of.
  destruct Hseg as (x & y & l & -> & Hx & Hcolon).
  assert (∃ rest, fill (x :: y :: l) values = "/" +:+ x +:+ "/" +:+ rest) as [rest ->].
  { cbn [fill]. rewrite Hcolon. eexists. reflexivity. }
  unfold response_headers. rewrite (api_prefix _ _ Hx). split; apply (bool_decide_unpack _); vm_compute; exact I.
Qed.

(** * Witnesses *)

Definition list_route : Handler := plain GET "orgs" "listOrgs".
Definition no_files : Files := {| lstat := λ _, Throw (Error "ENOENT"); opened := λ _, Throw (Error "ENOENT");
  contents_of := λ _, Throw (Error "ENOENT"); geteuid := None; absolute := λ s, s |}.
Lemma list_route_listed : AdminController ∈ controllers ∧ list_route ∈ handlers AdminController.
Proof. split; [apply list_elem_of_In; cbn; tauto|apply list_elem_of_In; cbn; tauto]. Qed.
Lemma admin_surface_guarded_witness : ∃ u,
  enter Guard.demo_mac Guard.demo_parse Guard.demo_find (H := no_files) Guard.demo_env 499 Guard.demo_headers [] AdminController list_route
    = Ok (Some u) ∧
  (shared_key Guard.demo_env Guard.demo_headers ∨
   ranked Guard.demo_mac Guard.demo_parse Guard.demo_find Guard.demo_env 499 Guard.demo_headers Guard.ADMIN (Some u)).
Proof.
  eexists. split; [vm_compute; reflexivity|].
  refine (proj1 (admin_surface_guarded Guard.demo_mac Guard.demo_parse Guard.demo_find (H := no_files) Guard.demo_env 499
    Guard.demo_headers [] AdminController list_route (Some _) (proj1 list_route_listed) (proj2 list_route_listed)) _ _); vm_compute; reflexivity.
Defined.
Lemma api_responses_not_stored_witness :
  path_of AdminController (plain POST "devices/:id/revoke" "revokeDevice") ["d1"] = "/admin/devices/d1/revoke" ∧
  ("Cache-Control", "no-store") ∈ response_headers "/admin/devices/d1/revoke".
Proof.
  split; [reflexivity|].
  refine (proj1 (api_responses_not_stored AdminController (plain POST "devices/:id/revoke" "revokeDevice") ["d1"] (proj1 list_route_listed) _ _)).
  - apply list_elem_of_In. cbn. tauto.
  - discriminate.
Defined.
