(* ===== verification/Providers.v ===== *)
(** The credential of the model provider ([src/ops/provider-secret.ts], [src/providers/provider-credentials.service.ts]):
    its import from the environment file, which is then scrubbed, the supervised process that gets it, and what the
    administrator sees, replaces and tests. A run is a sequence of database and system calls as in [Session]; a failing
    call does nothing, and a process that dies is one all of whose later calls fail. The encryption, the network and
    the gateway are parameters. *)
From S2P Require Import Prelude Js Table Crypto Secrets ModelPolicy Access Session Startup.
Local Open Scope Z_scope.

(** * The state *)

(** A file: its identity stands for device and inode number together. *)
Record Inode := { regular : bool; link : bool; fmode : Z; owner : Z; text : string }.
Record Disk := { dir : gmap string Z; inodes : gmap Z Inode }.
Record ProviderActivation := { pa_secretName : string; pa_secretVersion : Z; pa_runtimeId : string; pa_activatedAt : Z }.
(** A process that was started, and the signals sent to it. *)
Record Child := { c_command : string; c_args : list string; c_env : env; c_killed : bool }.
Record World := { disk : Disk; store : SecretDB; activation : option ProviderActivation; children : list Child; requests : list (string * string) }.

Definition on_disk {A} (m : M Disk A) : M World A := λ w,
  let '(r, d) := m (disk w) in (r, {| disk := d; store := store w; activation := activation w; children := children w; requests := requests w |}).
Definition on_store {A} (m : M SecretDB A) : M World A := λ w,
  let '(r, s) := m (store w) in (r, {| disk := disk w; store := s; activation := activation w; children := children w; requests := requests w |}).
Definition with_activation (a : option ProviderActivation) (w : World) : World :=
  {| disk := disk w; store := store w; activation := a; children := children w; requests := requests w |}.
Definition with_children (l : list Child) (w : World) : World :=
  {| disk := disk w; store := store w; activation := activation w; children := l; requests := requests w |}.
Definition with_request (r : string * string) (w : World) : World :=
  {| disk := disk w; store := store w; activation := activation w; children := children w; requests := requests w ++ [r] |}.

(** ** System calls *)

Definition file_at (d : Disk) (path : string) : option (Z * Inode) :=
  match dir d !! path with Some i => match inodes d !! i with Some f => Some (i, f) | None => None end | None => None end.
Definition set_inode (i : Z) (f : Inode) (d : Disk) : Disk := {| dir := dir d; inodes := <[i := f]> (inodes d) |}.
Definition lstatSync (path : string) : M Disk (Z * Inode) := λ d,
  match file_at d path with Some p => (Ok p, d) | None => (Throw (Error "ENOENT"), d) end.
(** A descriptor is the file it was opened on, whatever the name becomes. *)
Definition openRead (path : string) : M Disk Z := λ d,
  match file_at d path with
  | Some (i, f) => if link f then (Throw (Error "ELOOP"), d) else (Ok i, d)
  | None => (Throw (Error "ENOENT"), d)
  end.
Definition readDescriptor (fd : Z) : M Disk string := λ d,
  match inodes d !! fd with Some f => (Ok (text f), d) | None => (Throw (Error "EBADF"), d) end.
Definition openExclusive (path : string) (user mode : Z) : M Disk Z := λ d,
  if isSome (dir d !! path) then (Throw (Error "EEXIST"), d)
  else
    let i := base.fresh (dom (inodes d)) in
    (Ok i, {| dir := <[path := i]> (dir d); inodes := <[i := {| regular := true; link := false; fmode := mode; owner := user; text := "" |}]> (inodes d) |}).
Definition change_file (fd : Z) (f : Inode → Inode) : M Disk unit := λ d,
  match inodes d !! fd with Some x => (Ok tt, set_inode fd (f x) d) | None => (Throw (Error "EBADF"), d) end.
Definition with_mode (m : Z) (f : Inode) : Inode := {| regular := regular f; link := link f; fmode := m; owner := owner f; text := text f |}.
Definition with_text (t : string) (f : Inode) : Inode := {| regular := regular f; link := link f; fmode := fmode f; owner := owner f; text := t |}.
Definition renameSync (a b : string) : M Disk unit := λ d,
  match dir d !! a with
  | Some i => (Ok tt, {| dir := <[b := i]> (delete a (dir d)); inodes := inodes d |})
  | None => (Throw (Error "ENOENT"), d)
  end.
Definition unlinkSync (path : string) : M Disk unit := λ d,
  match dir d !! path with
  | Some _ => (Ok tt, {| dir := delete path (dir d); inodes := inodes d |})
  | None => (Throw (Error "ENOENT"), d)
  end.

(** * Scrubbing the environment file *)

(** The lines of a text with their terminators, a carriage return or a line feed. *)
Definition terminator (c : ascii) : bool := (code c =? 10)%nat || (code c =? 13)%nat.
Fixpoint segments (cur : list ascii) (l : list ascii) : list (list ascii * list ascii) :=
  match l with
  | [] => [(reverse cur, [])]
  | c :: l' => if terminator c then (reverse cur, [c]) :: segments [] l' else segments (c :: cur) l'
  end.
Definition KEY_PREFIX : string := "UPSTREAM_API_KEY=".
(** What follows the prefix on the line. *)
Definition key_line (l : list ascii) : option (list ascii) :=
  if startsWith KEY_PREFIX (str l) then Some (drop (String.length KEY_PREFIX) l) else None.
Fixpoint blank_first (l : list (list ascii * list ascii)) : list (list ascii * list ascii) :=
  match l with
  | [] => []
  | (x, t) :: l' => match key_line x with Some _ => (chars KEY_PREFIX, t) :: l' | None => (x, t) :: blank_first l' end
  end.
(** The text with the first assignment of the key emptied; [None] when there is none, or an empty one. *)
Definition scrub_text (contents : string) : option string :=
  let l := segments [] (chars contents) in
  let values := omap (λ p, key_line p.1) l in
  if (length values =? 0)%nat || existsb (forallb is_ws) values then None
  else Some (str (blank_first l ≫= λ p, p.1 ++ p.2)).

Section scrub.
Context (others : nat → World → World) (fails : nat → option exn) (user : Z).
Local Abbreviation State := (Session World).
Local Abbreviation sys m := (call others fails (on_disk m)).
Local Abbreviation harmless := (call others fails (mret tt)).

Definition privateFileStat (path : string) : M State (Z * Inode) :=
  stat ← sys (lstatSync path);
  _ ← guard_throw (link stat.2 || negb (regular stat.2)) (Error (path +:+ " must be a regular, non-symlink file"));
  _ ← guard_throw (shared (fmode stat.2)) (Error (path +:+ " must be owner-only (chmod 600)"));
  _ ← guard_throw (negb (owner stat.2 =? user)) (Error (path +:+ " must be owned by the deployment user"));
  mret stat.
(** [try { ... } finally { closeSync(fd) }] *)
Definition closing {A} (m : M State A) : M State A :=
  r ← try_catch m (λ er, _ ← harmless; raise er);
  _ ← harmless;
  mret r.
(** The write goes out in two parts, the first of [n] characters. *)
Definition writeFileSync (fd : Z) (t : string) (n : nat) : M State unit :=
  _ ← sys (change_file fd (with_text (slice0 n t)));
  sys (change_file fd (with_text t)).
(** The file that is to be scrubbed, and its text. *)
Definition readBootstrapFile (path : string) : M State ((Z * Inode) * string) :=
  before ← privateFileStat path;
  sourceFd ← sys (openRead path);
  contents ← closing (
    opened ← sys (λ d, match inodes d !! sourceFd with Some _ => (Ok sourceFd, d) | None => (Throw (Error "EBADF"), d) end);
    _ ← guard_throw (negb (opened =? before.1)) (Error ".env changed while it was being opened");
    sys (readDescriptor sourceFd));
  mret (before, contents).
Definition writeStaged (fd : Z) (next : string) (n : nat) : M State unit :=
  closing (_ ← sys (change_file fd (with_mode 384)); _ ← writeFileSync fd next n; harmless).
Definition renameStaged (path tmp : string) (before : Z * Inode) : M State unit :=
  current ← privateFileStat path;
  _ ← guard_throw (negb (current.1 =? before.1)) (Error ".env changed during credential scrubbing");
  sys (renameSync tmp path).
Definition scrubBootstrapKeyFromEnvFile (path tmp : string) (n : nat) : M State bool :=
  source ← readBootstrapFile path;
  match scrub_text source.2 with
  | None => mret false
  | Some next =>
      fd ← sys (openExclusive tmp user 384);
      _ ← try_catch (_ ← writeStaged fd next n; renameStaged path tmp source.1)
            (λ er, _ ← ignore_error (sys (unlinkSync tmp)); raise er);
      _ ← ignore_error (_ ← harmless; closing harmless);
      mret true
  end.
End scrub.

Example scrub_sample : scrub_text ("A=1" +:+ String EnvFile.newline ("UPSTREAM_API_KEY=abc" +:+ String EnvFile.newline "B=2")) =
  Some ("A=1" +:+ String EnvFile.newline ("UPSTREAM_API_KEY=" +:+ String EnvFile.newline "B=2")).
Proof. vm_compute. reflexivity. Qed.
Definition demo_disk (t : string) : World :=
  {| disk := {| dir := {[ "/e/.env" := 1 ]}; inodes := {[ 1 := {| regular := true; link := false; fmode := 384; owner := 7; text := t |} ]} |};
     store := {| secrets := []; systemAudits := [] |}; activation := None; children := []; requests := [] |}.
Example scrub_run : let '(r, s) := scrubBootstrapKeyFromEnvFile alone no_fault 7 "/e/.env" "/e/.tmp" 3
    {| db := demo_disk "UPSTREAM_API_KEY=abc"; calls := 0 |} in
  (r, map_to_list (dir (disk (db s))), snd <$> file_at (disk (db s)) "/e/.env") =
  (Ok true, [("/e/.env", 2)], Some {| regular := true; link := false; fmode := 384; owner := 7; text := "UPSTREAM_API_KEY=" |}).
Proof. vm_compute. reflexivity. Qed.

(** ** The file is replaced as a whole *)

Section atomic.
Context (others : nat → World → World) (fails : nat → option exn) (user : Z) (path tmp : string) (Hne : path ≠ tmp).
Local Abbreviation State := (Session World).
Definition view (w : World) : option (Z * Inode) * option (Z * Inode) := (file_at (disk w) path, file_at (disk w) tmp).
(** The other processes leave the two files alone. *)
Context (Hothers : ∀ n w, view (others n w) = view w).
Definition triple {A} (P : option (Z * Inode) * option (Z * Inode) → Prop) (m : M State A)
    (Q : res A → option (Z * Inode) * option (Z * Inode) → Prop) : Prop :=
  ∀ s, P (view (db s)) → Q (m s).1 (view (db (m s).2)).
Lemma triple_call {A} P (m : M World A) Q : (∀ w, P (view w) → Q (m w).1 (view (m w).2)) → (∀ er v, P v → Q (Throw er) v) →
  triple P (call others fails m) Q.
Proof.
  intros Hm Hf s Hs. unfold call. rewrite <- (Hothers (2 * calls s)) in Hs. destruct (fails (calls s)) as [er|]; cbn [fst snd db].
  - rewrite Hothers. by apply Hf.
  - specialize (Hm _ Hs). destruct (m _) as [r w]. cbn [fst snd db] in *. by rewrite Hothers.
Qed.
Lemma triple_bind {A B} P (m : M State A) (k : A → M State B) Q R : triple P m Q →
  (∀ a, triple (Q (Ok a)) (k a) R) → (∀ er v, Q (Throw er) v → R (Throw er) v) → triple P (m ≫= k) R.
Proof.
  intros Hm Hk Ht s Hs. specialize (Hm s Hs). unfold mbind, M_bind. destruct (m s) as [[a|er] s1]; cbn [fst snd] in *; [by apply Hk|by apply Ht].
Qed.
Lemma triple_try {A} P (m : M State A) h Q R : triple P m Q → (∀ a v, Q (Ok a) v → R (Ok a) v) →
  (∀ er, triple (Q (Throw er)) (h er) R) → triple P (try_catch m h) R.
Proof.
  intros Hm Ha Hh s Hs. specialize (Hm s Hs). unfold try_catch. destruct (m s) as [[a|er] s1]; cbn [fst snd] in *; [by apply Ha|by apply Hh].
Qed.
Lemma triple_ret {A} P (a : A) (Q : res A → _ → Prop) : (∀ v, P v → Q (Ok a) v) → triple P (mret a) Q.
Proof. intros H s Hs. by apply H. Qed.
Lemma triple_raise {A} P er (Q : res A → _ → Prop) : (∀ v, P v → Q (Throw er) v) → triple P (raise er) Q.
Proof. intros H s Hs. by apply H. Qed.
Lemma triple_guard P b er (Q : res unit → _ → Prop) : (b = false → ∀ v, P v → Q (Ok tt) v) → (∀ v, P v → Q (Throw er) v) → triple P (guard_throw b er) Q.
Proof. intros H1 H2 s Hs. destruct b; [by apply H2|by apply H1]. Qed.
Lemma triple_weaken {A} (P P' : _ → Prop) (m : M State A) (Q Q' : res A → _ → Prop) : triple P m Q → (∀ v, P' v → P v) → (∀ r v, Q r v → Q' r v) →
  triple P' m Q'.
Proof. intros Hm HP HQ s Hs. by apply HQ, Hm, HP. Qed.
(** A step whose value is known. *)
Lemma triple_known {A B} P P' (a0 : A) (m : M State A) (k : A → M State B) R :
  triple P m (λ r v, P' v ∧ match r with Ok a => a = a0 | Throw _ => True end) → triple P' (k a0) R → (∀ er v, P' v → R (Throw er) v) →
  triple P (m ≫= k) R.
Proof.
  intros Hm Hk Ht. eapply triple_bind; [exact Hm| |by intros er v [? _]; apply Ht]. intros a s [Hs ->]. by apply Hk.
Qed.
(** Opening and closing descriptors changes no file. *)
Lemma triple_harmless P : triple P (call others fails (mret tt)) (λ _, P).
Proof. by apply triple_call. Qed.
Lemma triple_closing {A} P (m : M State A) (Q : res A → _ → Prop) : triple P m Q → (∀ a er v, Q (Ok a) v → Q (Throw er) v) →
  (∀ er er' v, Q (Throw er) v → Q (Throw er') v) → triple P (closing others fails m) Q.
Proof.
  intros Hm H1 H2. unfold closing. apply (triple_bind _ _ _ Q).
  - eapply triple_try; [exact Hm|done|]. intros er. apply (triple_bind _ _ _ (λ _, Q (Throw er))); [apply triple_harmless| |by eauto].
    intros _. by apply triple_raise.
  - intros a. apply (triple_bind _ _ _ (λ _, Q (Ok a))); [apply triple_harmless| |by eauto]. intros _. by apply triple_ret.
  - done.
Qed.

Section run.
Context (i : Z) (f : Inode) (t0 : option (Z * Inode)).
Local Abbreviation before := (λ v, v = (Some (i, f), t0)).
Local Abbreviation kept := (λ v : option (Z * Inode) * option (Z * Inode), v.1 = Some (i, f)).
(** While the new file is written under its own name. *)
Definition staged (fd : Z) (P : Inode → Prop) (v : option (Z * Inode) * option (Z * Inode)) : Prop :=
  fd ≠ i ∧ v.1 = Some (i, f) ∧ ∃ x, v.2 = Some (fd, x) ∧ P x.
Definition new_file (t : string) : Inode := {| regular := true; link := false; fmode := 384; owner := user; text := t |}.

Lemma on_disk_view {A} (m : M Disk A) w : view (on_disk m w).2 = (file_at (m (disk w)).2 path, file_at (m (disk w)).2 tmp) ∧
  (on_disk m w).1 = (m (disk w)).1.
Proof. unfold view, on_disk. by destruct (m (disk w)). Qed.
Lemma triple_stat (P : _ → Prop) : (∀ v, P v → v.1 = Some (i, f)) →
  triple P (privateFileStat others fails user path) (λ r v, P v ∧ match r with Ok p => p = (i, f) | Throw _ => True end).
Proof.
  intros HP. unfold privateFileStat. apply (triple_bind _ _ _ (λ r v, P v ∧ match r with Ok p => p = (i, f) | Throw _ => True end)).
  - apply triple_call; [|done]. intros w Hw. destruct (on_disk_view (lstatSync path) w) as [-> ->]. unfold lstatSync.
    pose proof (HP _ Hw) as Hp. unfold view in Hp. cbn [fst] in Hp. rewrite Hp. by cbn.
  - intros p. do 3 (apply (triple_bind _ _ _ (λ _ v, P v ∧ p = (i, f))); [apply triple_guard; naive_solver|intros _|naive_solver]). apply triple_ret. naive_solver.
  - naive_solver.
Qed.
Lemma file_at_set d fd g p : file_at (set_inode fd g d) p =
  match file_at d p with Some (j, x) => Some (j, if decide (j = fd) then g else x) | None => match dir d !! p with Some j => if decide (j = fd) then Some (fd, g) else None | None => None end end.
Proof.
  unfold file_at, set_inode. cbn [dir inodes]. destruct (dir d !! p) as [j|]; [|done]. destruct (decide (j = fd)) as [->|Hj].
  - rewrite lookup_insert_eq. destruct (inodes d !! fd); [by rewrite decide_True|done].
  - rewrite lookup_insert_ne by congruence. destruct (inodes d !! j); [by rewrite decide_False|done].
Qed.
Lemma triple_change fd g P Q : (∀ x, P x → Q (g x)) →
  triple (staged fd P) (call others fails (on_disk (change_file fd g)))
    (λ r v, match r with Ok _ => staged fd Q v | Throw _ => staged fd P v end).
Proof.
  intros Hg. apply triple_call; [|done]. intros w (Hfd & Hp & x & Hx & HP). unfold view in Hp, Hx. cbn [fst snd] in Hp, Hx.
  destruct (on_disk_view (change_file fd g) w) as [-> ->]. unfold change_file.
  assert (inodes (disk w) !! fd = Some x) as Hino.
  { unfold file_at in Hx. destruct (dir (disk w) !! tmp) as [j|]; [|done]. destruct (inodes (disk w) !! j) eqn:E; [|done]. by simplify_eq. }
  rewrite Hino. cbn [fst snd]. rewrite !file_at_set, Hp, Hx. unfold staged. cbn [fst snd]. rewrite (decide_False (P := i = fd)) by congruence.
  rewrite decide_True by done. split_and!; [done..|]. exists (g x). auto.
Qed.
Lemma triple_create : triple before (call others fails (on_disk (openExclusive tmp user 384)))
  (λ r v, match r with Ok fd => staged fd (λ x, x = new_file "") v | Throw _ => before v end).
Proof.
  apply triple_call; [|done]. intros w Hw. destruct (on_disk_view (openExclusive tmp user 384) w) as [-> ->].
  injection Hw as Hp Ht. unfold openExclusive. destruct (isSome (dir (disk w) !! tmp)) eqn:Hex; cbn [fst snd]; [by rewrite Hp, Ht|].
  set (j := base.fresh (dom (inodes (disk w)))). assert (Hj : j ∉ dom (inodes (disk w))) by apply is_fresh.
  unfold staged, file_at in *. cbn [dir inodes fst snd]. rewrite lookup_insert_eq, lookup_insert_eq, lookup_insert_ne by congruence.
  destruct (dir (disk w) !! path) as [k|]; [|done]. destruct (inodes (disk w) !! k) as [y|] eqn:Hk; [|done]. injection Hp as -> ->.
  assert (j ≠ i) as Hji by (intros ->; apply Hj, elem_of_dom; by eexists). split_and!; [done| |].
  - by rewrite lookup_insert_ne, Hk.
  - by exists (new_file "").
Qed.
Lemma triple_rename fd x : triple (staged fd (λ y, y = x)) (call others fails (on_disk (renameSync tmp path)))
  (λ r v, match r with Ok _ => v = (Some (fd, x), None) | Throw _ => staged fd (λ y, y = x) v end).
Proof.
  apply triple_call; [|done]. intros w (Hfd & Hp & y & Hy & ->). unfold view, file_at in Hp, Hy. cbn [fst snd] in Hp, Hy.
  destruct (on_disk_view (renameSync tmp path) w) as [-> ->]. unfold renameSync. destruct (dir (disk w) !! tmp) as [j|]; [|done].
  destruct (inodes (disk w) !! j) as [z|] eqn:Hj; [|done]. injection Hy as -> ->. unfold file_at. cbn [fst snd dir inodes].
  rewrite lookup_insert_eq, Hj, lookup_insert_ne, lookup_delete_eq by congruence. done.
Qed.
Lemma triple_unlink : triple kept (call others fails (on_disk (unlinkSync tmp))) (λ _, kept).
Proof.
  apply triple_call; [|done]. intros w Hp. unfold view, file_at in Hp. cbn [fst] in Hp. destruct (on_disk_view (unlinkSync tmp) w) as [-> _].
  unfold unlinkSync. destruct (dir (disk w) !! tmp); cbn [fst snd]; unfold file_at; cbn [dir inodes]; [|done]. by rewrite lookup_delete_ne.
Qed.

Lemma triple_read (P : _ → Prop) : (∀ v, P v → v.1 = Some (i, f)) → triple P (call others fails (on_disk (readDescriptor i)))
  (λ r v, P v ∧ match r with Ok t => t = text f | Throw _ => True end).
Proof.
  intros HP. apply triple_call; [|done]. intros w Hw. destruct (on_disk_view (readDescriptor i) w) as [-> ->]. unfold readDescriptor.
  pose proof (HP _ Hw) as Hp. unfold view, file_at in Hp. cbn [fst] in Hp. destruct (dir (disk w) !! path) as [j|]; [|done].
  destruct (inodes (disk w) !! j) as [x|] eqn:Hx; [|done]. injection Hp as -> ->. by rewrite Hx.
Qed.
Lemma triple_open : triple before (call others fails (on_disk (openRead path))) (λ r v, before v ∧ match r with Ok j => j = i | Throw _ => True end).
Proof.
  apply triple_call; [|done]. intros w Hw. destruct (on_disk_view (openRead path) w) as [-> ->]. injection Hw as Hp Ht. unfold openRead.
  rewrite Hp. by destruct (link f); cbn; rewrite Hp, Ht.
Qed.
(** What a run leaves: the scrubbed text in a file of its own under the name, or the file as it was. *)
Definition scrubbed (r : res bool) (v : option (Z * Inode) * option (Z * Inode)) : Prop :=
  match r with
  | Ok true => ∃ next fd, scrub_text (text f) = Some next ∧ v = (Some (fd, new_file next), None)
  | Ok false => scrub_text (text f) = None ∧ v = (Some (i, f), t0)
  | Throw _ => v.1 = Some (i, f)
  end.
Lemma triple_write fd next n : triple (staged fd (λ x, x = new_file "")) (writeFileSync others fails fd next n)
  (λ r v, match r with Ok _ => staged fd (λ x, x = new_file next) v | Throw _ => staged fd (λ _, True) v end).
Proof.
  unfold writeFileSync. eapply triple_bind; [apply (triple_change fd _ _ (λ x, ∃ t, x = new_file t))|intros u|].
  - intros x ->. by eexists.
  - eapply triple_weaken; [apply (triple_change fd _ (λ x, ∃ t, x = new_file t) (λ x, x = new_file next))|done|].
    + by intros x [t ->].
    + intros [] v; [done|]. intros (? & ? & x & ? & _). split_and!; [done..|]. by exists x.
  - intros er v (? & ? & x & ? & _). split_and!; [done..|]. by exists x.
Qed.
Lemma staged_kept fd P v : staged fd P v → v.1 = Some (i, f).
Proof. by intros (_ & ? & _). Qed.
Lemma staged_weaken fd (P Q : Inode → Prop) v : (∀ x, P x → Q x) → staged fd P v → staged fd Q v.
Proof. intros HPQ (? & ? & x & ? & ?). split_and!; [done..|]. exists x. auto. Qed.
Definition written (fd : Z) (next : string) (r : res unit) (v : option (Z * Inode) * option (Z * Inode)) : Prop :=
  match r with Ok _ => staged fd (λ x, x = new_file next) v | Throw _ => staged fd (λ _, True) v end.
Lemma triple_staged fd next n : triple (staged fd (λ x, x = new_file "")) (writeStaged others fails fd next n) (written fd next).
Proof.
  apply (triple_closing _ _ (written fd next)); [|by intros a er v; apply staged_weaken|done].
  apply (triple_bind _ _ _ (λ _, staged fd (λ x, x = new_file ""))).
  - eapply triple_weaken; [apply (triple_change fd (with_mode 384) (λ x, x = new_file "") (λ x, x = new_file "")); by intros x ->|done|by intros []].
  - intros u. apply (triple_bind _ _ _ (written fd next)); [apply triple_write| |done]. intros u'.
    eapply triple_weaken; [apply triple_harmless|done|]. intros [] v H; [exact H|]. by eapply staged_weaken; [|exact H].
  - intros er v. by apply staged_weaken.
Qed.
Definition replaced (fd : Z) (next : string) (r : res unit) (v : option (Z * Inode) * option (Z * Inode)) : Prop :=
  match r with Ok _ => v = (Some (fd, new_file next), None) | Throw _ => v.1 = Some (i, f) end.
Lemma triple_replace fd next : triple (staged fd (λ x, x = new_file next)) (renameStaged others fails user path tmp (i, f)) (replaced fd next).
Proof.
  unfold renameStaged. apply (triple_bind _ _ _ (λ r v, staged fd (λ x, x = new_file next) v ∧ match r with Ok p => p = (i, f) | Throw _ => True end)).
  - apply triple_stat. by intros v (_ & ? & _).
  - intros p. apply (triple_bind _ _ _ (λ _, staged fd (λ x, x = new_file next))); [apply triple_guard; naive_solver|intros u|].
    + eapply triple_weaken; [apply (triple_rename fd (new_file next))|done|]. intros [] v; [done|by apply staged_kept].
    + intros er v. apply staged_kept.
  - intros er v [H _]. by eapply staged_kept.
Qed.
Lemma triple_source : triple before (readBootstrapFile others fails user path)
  (λ r v, before v ∧ match r with Ok p => p = ((i, f), text f) | Throw _ => True end).
Proof.
  unfold readBootstrapFile. apply (triple_known _ before (i, f)); [by apply triple_stat; intros v ->| |by intros er v ->].
  apply (triple_known _ before i); [apply triple_open| |by intros er v ->]. apply (triple_known _ before (text f)); [| |by intros er v ->].
  - eapply triple_closing; [|by intros a er v [? _]|by intros er er' v [? _]]. apply (triple_bind _ _ _ (λ _, before)); [|intros j|by intros er v ->].
    { apply triple_call; [|done]. intros w Hw. unfold on_disk. by destruct (inodes (disk w) !! i). }
    apply (triple_bind _ _ _ (λ _, before)); [by apply triple_guard|intros u|by intros er v ->].
    apply triple_read. by intros v ->.
  - by apply triple_ret.
Qed.
Lemma scrub_triple n : triple before (scrubBootstrapKeyFromEnvFile others fails user path tmp n) scrubbed.
Proof.
  unfold scrubBootstrapKeyFromEnvFile. apply (triple_known _ before ((i, f), text f)); [apply triple_source| |by intros er v ->]. cbn [fst snd].
  destruct (scrub_text (text f)) as [next|] eqn:Hscrub; [|apply triple_ret; by intros v ->].
  eapply triple_bind; [apply triple_create|intros fd|by intros er v ->].
  apply (triple_bind _ _ _ (replaced fd next)); [|intros u|by intros er v H].
  - apply (triple_try _ _ _ (replaced fd next)); [|done|].
    + eapply triple_bind; [apply triple_staged|intros u; apply triple_replace|]. intros er v Hw. exact (staged_kept _ _ _ Hw).
    + intros er. apply (triple_bind _ _ _ (λ _, kept)); [|intros u; by apply triple_raise|done].
      apply (triple_try _ _ _ (λ _, kept)); [apply triple_unlink|done|intros er'; by apply triple_ret].
  - apply (triple_bind _ _ _ (λ r v, is_ok r = true ∧ v = (Some (fd, new_file next), None))); [|intros u'|by intros er v [? _]].
    + apply (triple_try _ _ _ (λ _ v, v = (Some (fd, new_file next), None))); [|done|intros er; by apply triple_ret].
      eapply triple_bind; [by apply triple_harmless|intros u'|done]. by apply triple_closing; [apply triple_harmless|..].
    + apply triple_ret. intros v [_ ->]. by exists next, fd.
Qed.
End run.
End atomic.

(** ** What the scrubbed file says *)

Section scrubbed_text.
Import EnvFile.
(** The lines of a file without carriage returns, the first assignment of the key emptied. *)
Fixpoint blank_lines (l : list string) : list string :=
  match l with
  | [] => []
  | x :: l' => match key_line (chars x) with Some _ => KEY_PREFIX :: l' | None => x :: blank_lines l' end
  end.
Lemma terminator_newline c : c ≠ return_char → terminator c = Ascii.eqb c newline.
Proof.
  intros Hc. assert (forallb (λ n, Ascii.eqb (ascii_of_nat n) return_char || eqb (terminator (ascii_of_nat n)) (Ascii.eqb (ascii_of_nat n) newline))
    (seq 0 256) = true) as H by (vm_compute; reflexivity).
  rewrite forallb_forall in H. specialize (H (nat_of_ascii c)). rewrite ascii_nat_embedding, (proj2 (Ascii.eqb_neq _ _) Hc) in H.
  apply eqb_true_iff, H, in_seq. pose proof (nat_ascii_bounded c). lia.
Qed.
Fixpoint terminated (l : list string) : list (list ascii * list ascii) :=
  match l with [] => [] | [x] => [(chars x, [])] | x :: l' => (chars x, [newline]) :: terminated l' end.
Lemma split_go_nonempty cur l : split_go newline cur l ≠ [].
Proof. revert cur. induction l as [|c l IH]; intros cur; cbn [split_go]; [done|]. by case_match. Qed.
Lemma terminated_cons x l : l ≠ [] → terminated (x :: l) = (chars x, [newline]) :: terminated l.
Proof. by destruct l. Qed.
Lemma segments_split l : ∀ cur, (return_char ∉ l) → segments cur l = terminated (split_go newline cur l).
Proof.
  induction l as [|c l IH]; intros cur Hl; cbn [segments split_go]; [cbn [terminated]; by rewrite chars_str|].
  apply not_elem_of_cons in Hl as [Hc Hl]. rewrite terminator_newline by done. destruct (Ascii.eqb c newline) eqn:E; [|by apply IH].
  apply Ascii.eqb_eq in E as ->. rewrite terminated_cons by apply split_go_nonempty. by rewrite chars_str, IH.
Qed.
Lemma blank_lines_nil l : blank_lines l = [] ↔ l = [].
Proof. destruct l; cbn [blank_lines]; [done|]. by case_match. Qed.
Lemma blank_terminated l : blank_first (terminated l) = terminated (blank_lines l).
Proof.
  induction l as [|x l IH]; [done|]. destruct l as [|y k].
  - cbn [terminated blank_first blank_lines]. by case_match.
  - rewrite terminated_cons by done. cbn [blank_first]. change (blank_lines (x :: y :: k)) with
      (match key_line (chars x) with Some _ => KEY_PREFIX :: y :: k | None => x :: blank_lines (y :: k) end).
    destruct (key_line (chars x)); [reflexivity|]. rewrite (terminated_cons x (blank_lines (y :: k))) by by rewrite blank_lines_nil.
    f_equal. exact IH.
Qed.
Lemma join_terminated l : str (terminated l ≫= λ p, p.1 ++ p.2) = join (String newline "") l.
Proof.
  induction l as [|x l IH]; [done|]. destruct l as [|y k].
  - cbn. by rewrite !app_nil_r, str_chars.
  - rewrite terminated_cons, bind_cons by done. cbn [fst snd]. rewrite !str_app, str_chars, append_assoc.
    change (join (String newline "") (x :: y :: k)) with (x +:+ String newline "" +:+ join (String newline "") (y :: k)). by rewrite <- IH.
Qed.
Lemma omap_terminated l : omap (λ p, key_line p.1) (terminated l) = omap (λ x, key_line (chars x)) l.
Proof. induction l as [|x l IH]; [done|]. destruct l as [|y k]; [done|]. rewrite terminated_cons by done. cbn [omap list_omap fst]. by rewrite IH. Qed.
Lemma scrub_text_lines contents next : (return_char ∉ chars contents) → scrub_text contents = Some next →
  next = join (String newline "") (blank_lines (split newline contents)) ∧ omap (λ x, key_line (chars x)) (split newline contents) ≠ [].
Proof.
  intros Hc. unfold scrub_text. cbv zeta. rewrite segments_split by done. fold (split newline contents).
  rewrite blank_terminated, join_terminated, omap_terminated. destruct (_ || _) eqn:E; [done|]. intros [= <-]. split; [done|].
  intros Hnil. by rewrite Hnil in E.
Qed.

(** A line adds to what was parsed before it, by the names alone. *)
Lemma parse_line_adds n x acc r : parse_line n x acc = Ok r →
  ∃ k, r = acc ++ k ∧ (∀ name, name ∈ k.*1 → name ∉ acc.*1) ∧ NoDup k.*1 ∧ ∀ acc', acc'.*1 = acc.*1 → parse_line n x acc' = Ok (acc' ++ k).
Proof.
  unfold parse_line. destruct (_ || _).
  { intros [= <-]. exists []. rewrite app_nil_r. split_and!; [done|by intros ? ?%elem_of_nil|constructor|]. intros. by rewrite app_nil_r. }
  destruct (startsWith "export " _); [done|]. destruct (assignment x) as [[name raw]|]; [|done].
  assert (∀ acc' : list (string * string), acc'.*1 = acc.*1 → isSome (assoc name acc') = isSome (assoc name acc)) as Hsome.
  { intros acc' Heq. apply eq_true_iff_eq. rewrite !isSome_true, <- !not_eq_None_Some, !assoc_None. by rewrite Heq. }
  destruct (isSome (assoc name acc)) eqn:Ha; [done|]. apply isSome_false, assoc_None in Ha. intros (v & Hv & Hr)%res_bind_ok.
  destruct (existsb _ _) eqn:Hf; [done|]. unfold define in *. exists (if String.eqb name "__proto__" then [] else [(name, v)]).
  split_and!.
  - injection Hr as <-. case_match; [by rewrite app_nil_r|done].
  - intros m. case_match; [by intros ?%elem_of_nil|]. by intros ->%list_elem_of_singleton.
  - case_match; [constructor|apply NoDup_singleton].
  - intros acc' Heq. rewrite (Hsome _ Heq), Hv. cbn [mbind res_bind]. rewrite Hf. case_match; [by rewrite app_nil_r|done].
Qed.
Lemma parse_lines_adds l : ∀ n acc r, parse_lines n l acc = Ok r →
  ∃ k, r = acc ++ k ∧ (∀ name, name ∈ k.*1 → name ∉ acc.*1) ∧ ∀ acc', acc'.*1 = acc.*1 → parse_lines n l acc' = Ok (acc' ++ k).
Proof.
  induction l as [|x l IH]; intros n acc r; cbn [parse_lines].
  { intros [= <-]. exists []. rewrite app_nil_r. split_and!; [done|by intros ? ?%elem_of_nil|]. intros. by rewrite app_nil_r. }
  intros (acc1 & H1 & H2)%res_bind_ok. destruct (parse_line_adds _ _ _ _ H1) as (k1 & -> & Hn1 & _ & Hs1).
  destruct (IH _ _ _ H2) as (k2 & -> & Hn2 & Hs2). exists (k1 ++ k2). rewrite app_assoc. split_and!; [done| |].
  - intros name. rewrite fmap_app, elem_of_app. intros [?|Hin]; [auto|]. specialize (Hn2 name Hin). rewrite fmap_app in Hn2. set_solver.
  - intros acc' Heq. rewrite (Hs1 _ Heq). cbn [mbind res_bind]. rewrite Hs2; [by rewrite app_assoc|]. by rewrite !fmap_app, Heq.
Qed.
(** A line that starts with the key, as the parser takes it. *)
Lemma trim_first c l : is_ws c = false → ∃ k, trim_l (c :: l) = c :: k.
Proof.
  intros Hc. unfold trim_l. cbn [dropWhile]. rewrite Hc, reverse_cons. exists (reverse (dropWhile is_ws (reverse l))).
  assert (∀ k, dropWhile is_ws (k ++ [c]) = dropWhile is_ws k ++ [c]) as ->; [|by rewrite reverse_app].
  induction k as [|x k IH]; cbn [app dropWhile]; [by rewrite Hc|]. by case_match.
Qed.
Lemma parse_key_line n rest acc : parse_line n (KEY_PREFIX +:+ rest) acc =
  if mem return_char (chars rest) || mem newline (chars rest) then fail n "is not a valid NAME=value assignment"
  else if isSome (assoc "UPSTREAM_API_KEY" acc) then fail n "repeats UPSTREAM_API_KEY"
  else v ← decodeQuoted rest n;
    if existsb forbidden (chars v) then fail n "contains a forbidden control character" else Ok (acc ++ [("UPSTREAM_API_KEY", v)]).
Proof.
  assert (chars (KEY_PREFIX +:+ rest) = "U"%char :: drop 1 (chars KEY_PREFIX) ++ chars rest) as Hx by by rewrite chars_app.
  unfold parse_line, trim. rewrite Hx. destruct (trim_first "U"%char (drop 1 (chars KEY_PREFIX) ++ chars rest) eq_refl) as [k ->].
  rewrite (starts_head "#"%char) by done. assert (startsWith "export " (str ("U"%char :: k)) = false) as -> by done.
  change (negb (truthy (str ("U"%char :: k)))) with false. cbn [orb].
  assert (assignment (KEY_PREFIX +:+ rest) = if mem return_char (chars rest) || mem newline (chars rest) then None else Some ("UPSTREAM_API_KEY", rest)) as ->.
  { unfold assignment. rewrite Hx. cbn [dropWhile]. change (is_ws "U") with false. cbn iota. rewrite <- Hx, chars_app.
    change (chars KEY_PREFIX ++ chars rest) with (chars "UPSTREAM_API_KEY" ++ "="%char :: chars rest).
    rewrite span_name; [|by repeat constructor|done]. rewrite (str_chars rest). change (str (chars "UPSTREAM_API_KEY")) with "UPSTREAM_API_KEY".
    destruct (mem return_char _), (mem newline _); done. }
  by destruct (_ || _).
Qed.
(** The line of the key, as it is and emptied. *)
Lemma key_line_parsed n x v acc r : key_line (chars x) = Some v → parse_line n x acc = Ok r →
  ∃ u, r = acc ++ [("UPSTREAM_API_KEY", u)] ∧ parse_line n KEY_PREFIX acc = Ok (acc ++ [("UPSTREAM_API_KEY", "")]).
Proof.
  unfold key_line. rewrite str_chars. destruct (startsWith KEY_PREFIX x) eqn:Hp; [|done]. intros _.
  apply startsWith_app in Hp as [rest ->]. change (parse_line n KEY_PREFIX acc) with (parse_line n (KEY_PREFIX +:+ "") acc).
  rewrite !parse_key_line. destruct (_ || _); [done|]. destruct (isSome _); [done|]. intros (u & _ & Hr)%res_bind_ok.
  destruct (existsb _ _); [done|]. injection Hr as <-. by exists u.
Qed.
Definition blank_key (p : string * string) : string * string := if String.eqb p.1 "UPSTREAM_API_KEY" then (p.1, "") else p.
Lemma blank_key_other l : "UPSTREAM_API_KEY" ∉ l.*1 → map blank_key l = l.
Proof.
  intros Hl. apply map_id_on, Forall_forall. intros [k v] Hin. unfold blank_key. cbn [fst]. destruct (String.eqb k _) eqn:E; [|done].
  apply String.eqb_eq in E as ->. destruct Hl. by apply (list_elem_of_fmap_2 fst) in Hin.
Qed.
Lemma key_line_repeats l : ∀ n acc r, omap (λ x, key_line (chars x)) l ≠ [] → parse_lines n l acc = Ok r → "UPSTREAM_API_KEY" ∉ acc.*1.
Proof.
  induction l as [|x l IH]; intros n acc r Hne; [done|]. cbn [parse_lines]. intros (acc1 & H1 & H2)%res_bind_ok Hin.
  cbn [omap list_omap] in Hne. destruct (key_line (chars x)) as [v|] eqn:Hk.
  - unfold key_line in Hk. rewrite str_chars in Hk. destruct (startsWith KEY_PREFIX x) eqn:Hp; [|done].
    apply startsWith_app in Hp as [rest ->]. rewrite parse_key_line in H1. destruct (_ || _); [done|].
    destruct (isSome _) eqn:Hs; [done|]. by apply isSome_false, assoc_None in Hs.
  - destruct (parse_line_adds _ _ _ _ H1) as (k & -> & _). eapply IH; [done|exact H2|]. rewrite fmap_app. set_solver.
Qed.
(** Emptying the line of the key empties its value, and nothing else. *)
Lemma parse_blank_lines l : ∀ n acc r, omap (λ x, key_line (chars x)) l ≠ [] → parse_lines n l acc = Ok r → ("UPSTREAM_API_KEY" ∉ acc.*1) →
  "UPSTREAM_API_KEY" ∈ r.*1 ∧ parse_lines n (blank_lines l) acc = Ok (map blank_key r).
Proof.
  induction l as [|x l IH]; intros n acc r Hne; [done|]. cbn [parse_lines blank_lines]. intros (acc1 & H1 & H2)%res_bind_ok Hacc.
  cbn [omap list_omap] in Hne. destruct (key_line (chars x)) as [v|] eqn:Hk.
  - destruct (key_line_parsed _ _ _ _ _ Hk H1) as (u & -> & Hblank). destruct (parse_lines_adds _ _ _ _ H2) as (k & -> & Hnew & Hsame).
    split; [rewrite !fmap_app; set_solver|]. cbn [parse_lines]. rewrite Hblank. cbn [mbind res_bind].
    rewrite Hsame by by rewrite !fmap_app. rewrite !map_app, (blank_key_other acc Hacc), (blank_key_other k); [done|].
    intros Hin. apply (Hnew _ Hin). rewrite fmap_app. set_solver.
  - pose proof (key_line_repeats _ _ _ _ Hne H2) as Hnot. destruct (IH _ _ _ Hne H2 Hnot) as [Hin Hb]. split; [done|].
    cbn [parse_lines]. rewrite H1. cbn [mbind res_bind]. exact Hb.
Qed.
Lemma split_pieces sep l : ∀ cur, (sep ∉ cur) → Forall (λ s, sep ∉ chars s) (split_go sep cur l).
Proof.
  induction l as [|c l IH]; intros cur Hcur; cbn [split_go].
  - constructor; [|done]. by rewrite chars_str, elem_of_reverse.
  - destruct (Ascii.eqb c sep) eqn:E; [|apply IH; apply Ascii.eqb_neq in E; set_solver].
    constructor; [by rewrite chars_str, elem_of_reverse|]. apply IH. apply not_elem_of_nil.
Qed.
Lemma join_elem sep c l : c ∈ chars (join (String sep "") l) → c = sep ∨ ∃ x, x ∈ l ∧ c ∈ chars x.
Proof.
  induction l as [|x [|y l] IH]; [by intros ?%elem_of_nil|intros Hc; right; exists x; by split; [left|]|].
  change (join (String sep "") (x :: y :: l)) with (x +:+ String sep "" +:+ join (String sep "") (y :: l)).
  rewrite !chars_app, !elem_of_app. intros [Hx|[Hs|Hj]].
  - right. exists x. by split; [left|].
  - left. by apply list_elem_of_singleton in Hs.
  - destruct (IH Hj) as [|(z & Hz & Hcz)]; [by left|]. right. exists z. by split; [right|].
Qed.
Lemma elem_join sep c x l : x ∈ l → c ∈ chars x → c ∈ chars (join (String sep "") l).
Proof.
  induction l as [|y [|z l] IH]; [by intros ?%elem_of_nil|by intros ->%list_elem_of_singleton|].
  change (join (String sep "") (y :: z :: l)) with (y +:+ String sep "" +:+ join (String sep "") (z :: l)).
  rewrite !chars_app, !elem_of_app. intros [->|Hx]%elem_of_cons Hc; [by left|]. auto.
Qed.
Lemma file_lines_plain contents : (return_char ∉ chars contents) → file_lines contents = split newline contents.
Proof.
  intros Hc. unfold file_lines. apply lines_of_id, Forall_forall. intros x Hx Hlast. apply Hc.
  rewrite <- (join_split newline contents). eapply elem_join; [exact Hx|]. by apply last_Some_elem_of.
Qed.
Lemma blank_lines_Forall (P : string → Prop) l : P KEY_PREFIX → Forall P l → Forall P (blank_lines l).
Proof. intros HP. induction 1; cbn [blank_lines]; [constructor|]. case_match; by constructor. Qed.
Lemma scrubbed_parse contents p next : (return_char ∉ chars contents) → parseEnvFile contents = Ok p → scrub_text contents = Some next →
  "UPSTREAM_API_KEY" ∈ p.*1 ∧ parseEnvFile next = Ok (map blank_key p).
Proof.
  intros Hc Hp [-> Hkeys]%scrub_text_lines; [|done]. unfold parseEnvFile in *. rewrite file_lines_plain in Hp by done.
  destruct (parse_blank_lines _ _ _ _ Hkeys Hp) as [Hin Hblank]; [by intros ?%elem_of_nil|]. split; [done|].
  assert (split newline contents ≠ []) as Hne by apply split_go_nonempty.
  rewrite file_lines_plain; [rewrite split_join; [exact Hblank| |]|].
  - by rewrite blank_lines_nil.
  - apply blank_lines_Forall; [by apply (bool_decide_unpack _)|]. apply split_pieces, not_elem_of_nil.
  - intros [Heq|(x & Hx & Hcx)]%join_elem; [done|].
    assert (Forall (λ x, return_char ∉ chars x) (blank_lines (split newline contents))) as Hf.
    { apply blank_lines_Forall; [by apply (bool_decide_unpack _)|]. apply Forall_forall. intros y Hy Hcy. apply Hc.
      rewrite <- (join_split newline contents). by eapply elem_join. }
    rewrite Forall_forall in Hf. by apply (Hf x).
Qed.
End scrubbed_text.

(** C10: scrubbing the key from the environment file is all or nothing. Whatever call fails, and whatever other
    processes do elsewhere, the name of the file always leads to the complete old file or to a new one: when the run
    says so, to an owner-only regular file with the text the scrubber makes of the old one, with no staging file left;
    otherwise to the file that was there. If the old text has no carriage return, the new one is its lines with the
    first that starts with the key's name and an equals sign cut after the sign, and all others as they were; and if
    it was an environment file, the new one parses to the same variables with an empty key. What the other processes
    do is not to the two names. *)
Theorem scrub_all_or_nothing others fails user path tmp n s r s' i f :
  path ≠ tmp → (∀ k w, view path tmp (others k w) = view path tmp w) → file_at (disk (db s)) path = Some (i, f) →
  scrubBootstrapKeyFromEnvFile others fails user path tmp n s = (r, s') →
  match r with
  | Ok true => ∃ next fd, scrub_text (text f) = Some next ∧
      file_at (disk (db s')) path = Some (fd, new_file user next) ∧ file_at (disk (db s')) tmp = None ∧
      ((EnvFile.return_char ∉ chars (text f)) → next = join (String EnvFile.newline "") (blank_lines (split EnvFile.newline (text f)))) ∧
      ∀ p, (EnvFile.return_char ∉ chars (text f)) → EnvFile.parseEnvFile (text f) = Ok p →
        "UPSTREAM_API_KEY" ∈ p.*1 ∧ EnvFile.parseEnvFile next = Ok (map blank_key p)
  | Ok false => scrub_text (text f) = None ∧ view path tmp (db s') = view path tmp (db s)
  | Throw _ => file_at (disk (db s')) path = Some (i, f)
  end.
Proof.
  intros Hne Hothers Hf Hrun. pose proof (scrub_triple others fails user path tmp Hne Hothers i f (file_at (disk (db s)) tmp) n s) as Ht.
  rewrite Hrun in Ht. cbn [fst snd] in Ht. assert (view path tmp (db s) = (Some (i, f), file_at (disk (db s)) tmp)) as Hv by (unfold view; by rewrite Hf).
  specialize (Ht Hv). unfold scrubbed, view in Ht. destruct r as [[]|er].
  - destruct Ht as (next & fd & Hnext & [= Hp Htmp]). exists next, fd. split_and!; [done..| |].
    + intros Hc. by destruct (scrub_text_lines _ _ Hc Hnext).
    + intros p Hc Hparse. by eapply scrubbed_parse.
  - destruct Ht as [Hnone Heq]. split; [done|]. rewrite Hv. exact Heq.
  - exact Ht.
Qed.
Lemma scrub_all_or_nothing_witness : ∃ s' next fd,
  scrubBootstrapKeyFromEnvFile alone no_fault 7 "/e/.env" "/e/.tmp" 3 {| db := demo_disk "UPSTREAM_API_KEY=abc"; calls := 0 |} = (Ok true, s') ∧
  file_at (disk (db s')) "/e/.env" = Some (fd, new_file 7 next) ∧ EnvFile.parseEnvFile next = Ok [("UPSTREAM_API_KEY", "")].
Proof.
  destruct (scrubBootstrapKeyFromEnvFile alone no_fault 7 "/e/.env" "/e/.tmp" 3 {| db := demo_disk "UPSTREAM_API_KEY=abc"; calls := 0 |}) as [r s'] eqn:E.
  pose proof (scrub_all_or_nothing alone no_fault 7 "/e/.env" "/e/.tmp" 3 {| db := demo_disk "UPSTREAM_API_KEY=abc"; calls := 0 |} r s' 1 {| regular := true; link := false; fmode := 384; owner := 7; text := "UPSTREAM_API_KEY=abc" |}
    ltac:(discriminate) (λ _ _, eq_refl) eq_refl E) as H.
  assert (r = Ok true) as -> by (revert E; vm_compute; by intros [= <- _]). destruct H as (next & fd & _ & Hp & _ & _ & Hparse).
  exists s', next, fd. split; [reflexivity|]. split; [exact Hp|].
  refine (proj2 (Hparse [("UPSTREAM_API_KEY", "abc")] _ _)); [by apply (bool_decide_unpack _)|vm_compute; reflexivity].
Defined.

(** The parser takes an assignment with blanks before it; the scrubber looks for the key at the start of a line. The
    key is imported and stays in the file. *)
Example indented_key_stays : let text := "  UPSTREAM_API_KEY=sk-live" in
  EnvFile.parseEnvFile text = Ok [("UPSTREAM_API_KEY", "sk-live")] ∧ scrub_text text = None.
Proof. split; vm_compute; reflexivity. Qed.

(** * The supervised provider ([src/ops/provider-secret.ts]) *)

Definition DEEPSEEK_SECRET_NAME : string := "provider.deepseek.api_key".
Definition without (name : string) (e : env) : env := λ k, if String.eqb k name then None else e k.
Definition value_of (e : env) (name : string) : string := nullish (e name) "".
Inductive Bootstrap := Imported | AlreadyStored.
(** What the process that runs LiteLLM must not see. *)
Definition WITHHELD : list string :=
  ["HARA_CONTROL_ADMIN_KEY"; "HARA_JWT_SECRET"; "HARA_KMS_MASTER_KEY"; "HARA_KMS_KEYFILE"; "LITELLM_DATABASE_URL"].
Definition childEnv (e : env) (litellmDatabaseUrl credential : string) : env := λ k,
  if mem k WITHHELD then None
  else if String.eqb k "DATABASE_URL" then Some litellmDatabaseUrl
  else if String.eqb k "UPSTREAM_API_KEY" then Some credential else e k.
Definition activated (version : Z) (runtimeId : string) (now : Z) (w : World) : World :=
  let w := with_activation (Some {| pa_secretName := DEEPSEEK_SECRET_NAME; pa_secretVersion := version; pa_runtimeId := runtimeId; pa_activatedAt := now |}) w in
  (on_store (modify (λ db, {| secrets := secrets db; systemAudits := systemAudits db ++
     [{| y_action := "provider.credential.activate"; y_actorType := "deployment"; y_actorId := "provider-runtime";
         y_payload := JObj [("provider", JStr "deepseek"); ("secretVersion", JNum (inject_Z version)); ("runtime", JStr "supervised-process")] |}] |})) w).2.
(** [deleteMany({ where: { provider, runtimeId } })] *)
Definition deactivated (runtimeId : string) (w : World) : World :=
  match activation w with
  | Some a => if String.eqb (pa_runtimeId a) runtimeId then with_activation None w else w
  | None => w
  end.
Definition kill_child (n : nat) (w : World) : World :=
  with_children (alter (λ c, {| c_command := c_command c; c_args := c_args c; c_env := c_env c; c_killed := true |}) n (children w)) w.

Section ops.
Context `{Aead} (sha256 : list Z → string) (readFileSync : string → res string).
Context (others : nat → World → World) (fails : nat → option exn) (user : Z).
Local Abbreviation State := (Session World).
Local Abbreviation stored kms := (call others fails (on_store (λ db, (getVersioned kms db None DEEPSEEK_SECRET_NAME, db)))).

(** [envFile]: the file to scrub, with the name of the staging file and the first part written. [rid] and [rnd]: the
    new row and the randomness of its encryption. *)
Definition bootstrapDeepSeekEnv (e : env) (envFile : option (string * string * nat)) (now : Z) (rid : string) (rnd : Randomness)
    : M State (Bootstrap * env) :=
  kms ← lift (createKms sha256 readFileSync e);
  existing ← stored kms;
  let raw := value_of e "UPSTREAM_API_KEY" in
  let scrub := match envFile with
    | Some (path, tmp, n) => _ ← scrubBootstrapKeyFromEnvFile others fails user path tmp n; mret tt
    | None => mret tt end in
  match existing with
  | Some (stored_value, _, _) =>
      _ ← guard_throw (truthy raw && negb (bool_decide (bytes_of raw = stored_value)))
            (Error "UPSTREAM_API_KEY differs from the encrypted source; refusing to overwrite it");
      _ ← when (truthy raw) scrub;
      mret (AlreadyStored, without "UPSTREAM_API_KEY" e)
  | None =>
      _ ← guard_throw (negb (truthy raw)) (Error "no encrypted DeepSeek credential exists; set UPSTREAM_API_KEY once for bootstrap");
      _ ← call others fails (on_store (putWithSystemAudit kms now rid rnd None DEEPSEEK_SECRET_NAME (bytes_of raw)
            {| y_action := "provider.credential.import"; y_actorType := "deployment"; y_actorId := "provider-secret-cli";
               y_payload := JObj [("provider", JStr "deepseek"); ("source", JStr "bootstrap-environment")] |}));
      _ ← scrub;
      mret (Imported, without "UPSTREAM_API_KEY" e)
  end.

(** [spawned]: whether the command could be started; [exitCode]: how it ended, [None] by a signal. *)
Definition runDeepSeek (e : env) (command : string) (commandArgs : list string) (runtimeId : string) (now : Z)
    (spawned : bool) (exitCode : option Z) : M State Z :=
  _ ← guard_throw (negb (truthy command)) (Error "run-deepseek requires a command after --");
  let url := value_of e "LITELLM_DATABASE_URL" in
  _ ← guard_throw (negb (truthy url)) (Error "LITELLM_DATABASE_URL is required for the isolated LiteLLM schema");
  kms ← lift (createKms sha256 readFileSync e);
  loaded ← stored kms;
  loaded ← require loaded (Error "no encrypted DeepSeek credential is stored");
  let '(plaintext, version, _) := loaded in
  n ← sync (gets (λ w, length (children w)));
  _ ← sync (modify (λ w, with_children (children w ++ (if spawned then
        [{| c_command := command; c_args := commandArgs; c_env := childEnv e url (of_bytes plaintext); c_killed := false |}] else [])) w));
  _ ← try_catch
        (_ ← guard_throw (negb spawned) (Error ("spawn " +:+ command));
         call others fails (modify (activated version runtimeId now)))
        (λ er, _ ← sync (modify (kill_child n)); raise er);
  _ ← call others fails (modify (deactivated runtimeId));
  mret (nullish exitCode 1).

(** [main]; [--scrub-env-file] and the command after [--] in the arguments. *)
Definition argument_after (flag : string) (argv : list string) : option (list string) :=
  match list_find (λ a, a = flag) argv with Some (i, _) => Some (drop (S i) argv) | None => None end.
Definition USAGE : exn := Error "usage: provider-secret bootstrap-deepseek-env [--scrub-env-file .env] | run-deepseek -- <command> [args...]".
Definition main (URL : string → option Ssrf.url) (searchParam : Ssrf.url → string → option string) `{Files} (e : env) (argv : list string)
    (tmp : string) (n : nat) (now : Z) (rid runtimeId : string) (rnd : Randomness) (spawned : bool) (exitCode : option Z) : M State Z :=
  _ ← lift (assertProductionRuntime URL searchParam readFileSync e);
  _ ← call others fails (mret tt);
  match argv with
  | command :: _ =>
      if String.eqb command "bootstrap-deepseek-env" then
        let scrubFile := match argument_after "--scrub-env-file" argv with Some (f :: _) => if truthy f then Some (f, tmp, n) else None | _ => None end in
        _ ← bootstrapDeepSeekEnv e scrubFile now rid rnd;
        mret 0
      else if String.eqb command "run-deepseek" then
        match argument_after "--" argv with
        | Some (cmd :: args) =>
            _ ← guard_throw (negb (truthy cmd)) (Error "usage: provider-secret run-deepseek -- <command> [args...]");
            runDeepSeek e cmd args runtimeId now spawned exitCode
        | _ => raise (Error "usage: provider-secret run-deepseek -- <command> [args...]")
        end
      else raise USAGE
  | [] => raise USAGE
  end.
End ops.

(** * What the administrator sees and does ([src/providers/provider-credentials.service.ts]) *)

Definition DEEPSEEK_PROBE_URL : string := "https://api.deepseek.com/chat/completions".
Definition DEEPSEEK_DIRECT_PROBE_MODEL : string := "deepseek-v4-flash".
Inductive TestTarget := STORED | RUNTIME.
Definition target_str (t : TestTarget) : string := match t with STORED => "stored" | RUNTIME => "runtime" end.
Record DeepSeekStatus := {
  models : list string; is_stored : bool; stored_at : option Z; storage_readable : bool; runtime_configured : bool; runtime_reachable : bool;
  active : bool; source : string; requires_activation : bool; activation_step : string; activated_at : option Z }.
Definition strip_slashes (s : string) : string := str (reverse (dropWhile (λ c, Ascii.eqb c "/") (reverse (chars s)))).

Section service.
Context (kms : KmsAdapter) (e : env) (readiness : res bool).
(** [probe]: whether the answer of a direct request is a success, or the network error; [safe_probe]: the same through
    [safeFetch]. *)
Context (probe safe_probe : string → string → res bool).
Context (others : nat → World → World) (fails : nat → option exn).
Local Abbreviation State := (Session World).
Local Abbreviation ask m := (call others fails (on_store m)).

Definition actor_type (a : Guard.AuthedUser) : string := if Guard.viaSharedKey a then "shared-admin-key" else "admin-user".
Definition deepSeekStatus : M State DeepSeekStatus :=
  metadata ← ask (λ db, (Ok (describe db None DEEPSEEK_SECRET_NAME), db));
  activation ← call others fails (gets activation);
  let '(exists_, version, _, updatedAt) := metadata in
  storageReadable ← try_catch
    (if exists_ then stored ← ask (λ db, (Secrets.get kms db None DEEPSEEK_SECRET_NAME, db)); mret (isSome stored) else mret true)
    (λ _, mret false);
  let runtimeConfigured := isSome activation in
  let runtimeReachable := runtimeConfigured && match readiness with Ok ok => ok | Throw _ => false end in
  let active := exists_ && storageReadable && runtimeReachable &&
    match activation with
    | Some a => String.eqb (pa_secretName a) DEEPSEEK_SECRET_NAME && bool_decide (Some (pa_secretVersion a) = version)
    | None => false
    end in
  allowed ← lift (allowedManagedModels e);
  mret {| models := allowed; is_stored := exists_; stored_at := updatedAt; storage_readable := storageReadable;
          runtime_configured := runtimeConfigured; runtime_reachable := runtimeReachable; active := active;
          source := if exists_ then if runtimeConfigured then "encrypted-store+runtime" else "encrypted-store"
                    else if runtimeConfigured then "runtime" else "none";
          requires_activation := exists_ && negb active;
          activation_step := if exists_ && negb active then "deploy-restart-required" else "none";
          activated_at := pa_activatedAt <$> activation |}.
Definition putDeepSeek (apiKey : string) (actor : Guard.AuthedUser) (now : Z) (rid : string) (rnd : Randomness) : M State DeepSeekStatus :=
  _ ← ask (putWithSystemAudit kms now rid rnd None DEEPSEEK_SECRET_NAME (bytes_of (trim apiKey))
        {| y_action := "provider.credential.store"; y_actorType := actor_type actor; y_actorId := Guard.id actor;
           y_payload := JObj [("provider", JStr "deepseek"); ("operation", JStr "replace")] |});
  deepSeekStatus.
Definition tested (target : TestTarget) (actor : Guard.AuthedUser) (ok : bool) : SystemAudit :=
  {| y_action := "provider.credential.test"; y_actorType := actor_type actor; y_actorId := Guard.id actor;
     y_payload := JObj [("provider", JStr "deepseek"); ("target", JStr (target_str target)); ("ok", JBool ok)] |}.
Definition probeDeepSeek (credential : list Z) : M State bool :=
  _ ← sync (modify (with_request (DEEPSEEK_PROBE_URL, "Bearer " +:+ of_bytes credential)));
  mret (match probe DEEPSEEK_PROBE_URL (of_bytes credential) with Ok ok => ok | Throw _ => false end).
Definition probeActiveGateway : M State bool :=
  let base := strip_slashes (value_of e "LITELLM_URL") in
  let masterKey := value_of e "LITELLM_MASTER_KEY" in
  _ ← guard_throw (negb (truthy base) || negb (truthy masterKey)) (BadRequestException "no active DeepSeek runtime is configured");
  let url := base +:+ "/chat/completions" in
  _ ← sync (modify (with_request (url, "Bearer " +:+ masterKey)));
  mret (match safe_probe url masterKey with Ok ok => ok | Throw _ => false end).
Definition testDeepSeek (target : TestTarget) (actor : Guard.AuthedUser) : M State TestTarget :=
  credential ← match target with
    | STORED => ask (λ db, (Secrets.get kms db None DEEPSEEK_SECRET_NAME, db))
    | RUNTIME => mret None end;
  _ ← guard_throw (match target with STORED => negb (isSome credential) | RUNTIME => false end)
        (BadRequestException "no encrypted DeepSeek credential is stored");
  ok ← match target, credential with STORED, Some c => probeDeepSeek c | _, _ => probeActiveGateway end;
  _ ← ask (modify (λ db, {| secrets := secrets db; systemAudits := systemAudits db ++ [tested target actor ok] |}));
  _ ← guard_throw (negb ok) (BadGatewayException "DeepSeek credential check failed");
  mret target.
End service.

(** ** The life of a credential *)

Lemma bool_decide_some (a b : Z) : bool_decide (Some a = Some b) = bool_decide (a = b).
Proof. apply bool_decide_ext. split; [by intros [= ->]|by intros ->]. Qed.
Lemma getVersioned_row `{Aead} kms d p v t : getVersioned kms d None DEEPSEEK_SECRET_NAME = Ok (Some (p, v, t)) →
  ∃ row, find_secret d None DEEPSEEK_SECRET_NAME = Some row ∧ s_version row = v.
Proof. unfold getVersioned. destruct (find_secret _ _ _) as [row|]; [|done]. intros (x & _ & [= _ <- _])%res_bind_ok. by exists row. Qed.
Section life.
Context `{AeadLaws} (sha256 : list Z → string) (readFileSync : string → res string) (e : env) (kms : KmsAdapter)
  (Hkms : createKms sha256 readFileSync e = Ok kms) (readiness : res bool).
Definition key_version (w : World) : Z := from_option s_version 0 (find_secret (store w) None DEEPSEEK_SECRET_NAME).
Definition reachable : bool := match readiness with Ok ok => ok | Throw _ => false end.
Definition readable (w : World) : bool := is_ok (getVersioned kms (store w) None DEEPSEEK_SECRET_NAME).
Definition current (w : World) : bool := match activation w with
  | Some a => String.eqb (pa_secretName a) DEEPSEEK_SECRET_NAME && bool_decide (pa_secretVersion a = key_version w) | None => false end.

Lemma alone_call {A} (m : M World A) w n :
  call alone no_fault m {| db := w; calls := n |} = ((m w).1, {| db := (m w).2; calls := S n |}).
Proof. unfold call, alone, no_fault. cbn. by destruct (m w). Qed.
Lemma on_store_read {A} (f : SecretDB → res A) w : on_store (λ d, (f d, d)) w = (f (store w), w).
Proof. by destruct w. Qed.
Lemma status_run w n st s' : deepSeekStatus kms e readiness alone no_fault {| db := w; calls := n |} = (Ok st, s') →
  db s' = w ∧ is_stored st = isSome (find_secret (store w) None DEEPSEEK_SECRET_NAME) ∧
  storage_readable st = readable w ∧ active st = is_stored st && readable w && reachable && current w ∧
  requires_activation st = is_stored st && negb (active st).
Proof.
  unfold deepSeekStatus, reachable, readable, current, key_version. intros Hrun.
  unfold mbind at 1, M_bind at 1 in Hrun. rewrite alone_call, on_store_read in Hrun. cbn [fst snd] in Hrun.
  unfold mbind at 1, M_bind at 1 in Hrun. rewrite alone_call in Hrun. unfold gets at 1 in Hrun. cbn [fst snd] in Hrun.
  destruct (allowedManagedModels e) as [l|er] eqn:Hallowed.
  - unfold describe, Secrets.get, getVersioned in *. destruct (find_secret (store w) None DEEPSEEK_SECRET_NAME) as [row|] eqn:Hrow.
    + unfold try_catch, mbind at 1, M_bind at 1, mbind at 1, M_bind at 1 in Hrun. rewrite alone_call, on_store_read in Hrun. unfold gets in Hrun. cbn [fst snd] in Hrun. rewrite Hrow in Hrun.
      destruct (decrypt _ _ _ _ _) as [p|er]; cbn in Hrun; injection Hrun as <- <-; (split_and!; try done); cbn;
        (destruct (activation w) as [a|], readiness as [[]|]; cbn; rewrite ?andb_false_r; try done);
        by rewrite bool_decide_some.
    + cbn in Hrun. injection Hrun as <- <-. by split_and!.
  - destruct (describe _ _ _) as [[[]]]. unfold mbind at 1, M_bind at 1 in Hrun. match type of Hrun with context [try_catch ?m ?h ?s] => by destruct (try_catch m h s) as [[]] end.
Qed.
(** What [putDeepSeek] stores and records. *)
Definition stored_event (actor : Guard.AuthedUser) : SystemAudit :=
  {| y_action := "provider.credential.store"; y_actorType := actor_type actor; y_actorId := Guard.id actor;
     y_payload := JObj [("provider", JStr "deepseek"); ("operation", JStr "replace")] |}.
Lemma put_run key actor now rid rnd w n st s' :
  fresh rnd → keyed (store w) → rid ∉ map s_id (secrets (store w)) →
  putDeepSeek kms e readiness alone no_fault key actor now rid rnd {| db := w; calls := n |} = (Ok st, s') →
  ∃ w', activation w' = activation w ∧ keyed (store w') ∧ systemAudits (store w') = systemAudits (store w) ++ [stored_event actor] ∧
    getVersioned kms (store w') None DEEPSEEK_SECRET_NAME =
      Ok (Some (bytes_of (trim key), from_option (λ r, s_version r + 1) 1 (find_secret (store w) None DEEPSEEK_SECRET_NAME), now)) ∧
    deepSeekStatus kms e readiness alone no_fault {| db := w'; calls := S n |} = (Ok st, s').
Proof.
  intros Hrnd Hk Hrid Hrun. unfold putDeepSeek in Hrun. unfold mbind at 1, M_bind at 1 in Hrun. rewrite alone_call in Hrun.
  pose proof (store_secret_spec sha256 readFileSync e kms now rid rnd None DEEPSEEK_SECRET_NAME (bytes_of (trim key)) (Some (stored_event actor))
    (store w) _ _ Hkms Hrnd Hk Hrid (surjective_pairing _)) as Hspec.
  unfold store_secret in Hspec. fold (stored_event actor) in Hrun. unfold on_store in Hrun.
  destruct (putWithSystemAudit kms now rid rnd None DEEPSEEK_SECRET_NAME (bytes_of (trim key)) (stored_event actor) (store w)) as [[[]|er] db1]; [|done].
  cbn [fst snd] in Hrun, Hspec. destruct Hspec as (Hget & _ & Hk1 & Ha). eexists. split_and!; [..|exact Hrun]; try done.
Qed.
(** replacing the provider's key takes effect only with the next start of the supervised process. The new key is
    what the store returns, under the next version, with the administrator in the audit log. The answer says that a key
    is stored, that it can be read, and that it is not active but waits for a restart, whatever process is running and
    whether it answers. Once a process has recorded that version the status is active exactly if the gateway answers. *)
Theorem rotation_needs_restart key actor now rid rnd w n st s' :
  fresh rnd → keyed (store w) → rid ∉ map s_id (secrets (store w)) →
  (∀ a, activation w = Some a → pa_secretVersion a ≤ key_version w) →
  putDeepSeek kms e readiness alone no_fault key actor now rid rnd {| db := w; calls := n |} = (Ok st, s') →
  let v := from_option (λ r, s_version r + 1) 1 (find_secret (store w) None DEEPSEEK_SECRET_NAME) in
  getVersioned kms (store (db s')) None DEEPSEEK_SECRET_NAME = Ok (Some (bytes_of (trim key), v, now)) ∧
  systemAudits (store (db s')) = systemAudits (store w) ++ [stored_event actor] ∧
  is_stored st = true ∧ storage_readable st = true ∧ active st = false ∧ requires_activation st = true ∧
  ∀ runtimeId t k st2 s2, deepSeekStatus kms e readiness alone no_fault {| db := activated v runtimeId t (db s'); calls := k |} = (Ok st2, s2) →
    active st2 = reachable ∧ requires_activation st2 = negb reachable.
Proof.
  intros Hrnd Hk Hrid Hact Hrun v. destruct (put_run _ _ _ _ _ _ _ _ _ Hrnd Hk Hrid Hrun) as (w' & Ha & Hk' & Haud & Hget & Hst).
  destruct (status_run _ _ _ _ Hst) as (-> & Hs & Hr & Hactive & Hreq). destruct (getVersioned_row _ _ _ _ _ Hget) as (row & Hrow & Hv).
  assert (key_version w' = v) as Hkv by (unfold key_version; by rewrite Hrow). assert (readable w' = true) as Hread by (unfold readable; by rewrite Hget).
  assert (current w' = false) as Hcur.
  { unfold current. rewrite Ha, Hkv. destruct (activation w) as [a|]; [|done]. apply andb_false_intro2, bool_decide_eq_false.
    specialize (Hact a eq_refl). unfold key_version in Hact. subst v. destruct (find_secret (store w) _ _); cbn in *; lia. }
  rewrite Hrow in Hs. rewrite Hcur, andb_false_r in Hactive. rewrite Hactive, Hs in Hreq. split_and!; [done..|by rewrite Hr|done|done|].
  intros runtimeId t k st2 s2 Hst2. destruct (status_run _ _ _ _ Hst2) as (_ & Hs2 & _ & Hactive2 & Hreq2).
  change (find_secret (store (activated v runtimeId t w')) None DEEPSEEK_SECRET_NAME) with (find_secret (store w') None DEEPSEEK_SECRET_NAME) in Hs2.
  assert (current (activated v runtimeId t w') = true) as Hcur2 by (unfold current; cbn; rewrite <- Hkv; by rewrite bool_decide_true).
  assert (readable (activated v runtimeId t w') = true) as Hread2 by exact Hread.
  rewrite Hrow in Hs2. rewrite Hs2, Hread2, Hcur2, andb_true_r in Hactive2. rewrite Hs2, Hactive2 in Hreq2. done.
Qed.
End life.

(** ** The supervised process *)

Section supervised.
Context `{Aead} (sha256 : list Z → string) (readFileSync : string → res string) (fails : nat → option exn).
Lemma alone_faulty {A} (m : M World A) w n : call alone fails m {| db := w; calls := n |} =
  (match fails n with Some er => Throw er | None => (m w).1 end,
   {| db := match fails n with Some _ => w | None => (m w).2 end; calls := S n |}).
Proof. unfold call, alone. cbn. destruct (fails n); [done|]. by destruct (m w). Qed.
Definition activation_event (version : Z) : SystemAudit :=
  {| y_action := "provider.credential.activate"; y_actorType := "deployment"; y_actorId := "provider-runtime";
     y_payload := JObj [("provider", JStr "deepseek"); ("secretVersion", JNum (inject_Z version)); ("runtime", JStr "supervised-process")] |}.
Definition recorded (version : Z) (runtimeId : string) (now : Z) : ProviderActivation :=
  {| pa_secretName := DEEPSEEK_SECRET_NAME; pa_secretVersion := version; pa_runtimeId := runtimeId; pa_activatedAt := now |}.

Lemma withheld_absent e url p k : k ∈ WITHHELD → childEnv e url p k = None.
Proof. intros Hk. unfold childEnv. by apply mem_true in Hk as ->. Qed.
Lemma alter_beyond {A} (f : A → A) (l : list A) : alter f (length l) l = l.
Proof. by induction l as [|x l IH]; [|cbn; f_equal]. Qed.
Lemma alter_last {A} (f : A → A) (l : list A) x : alter f (length l) (l ++ [x]) = l ++ [f x].
Proof. by induction l as [|y l IH]; [|cbn; f_equal]. Qed.

Lemma run_started e command args runtimeId now exitCode w n kms p v t :
  truthy command = true → truthy (value_of e "LITELLM_DATABASE_URL") = true → createKms sha256 readFileSync e = Ok kms →
  fails n = None → getVersioned kms (store w) None DEEPSEEK_SECRET_NAME = Ok (Some (p, v, t)) →
  let c killed := {| c_command := command; c_args := args; c_env := childEnv e (value_of e "LITELLM_DATABASE_URL") (of_bytes p); c_killed := killed |} in
  let w1 := activated v runtimeId now (with_children (children w ++ [c false]) w) in
  runDeepSeek sha256 readFileSync alone fails e command args runtimeId now true exitCode {| db := w; calls := n |} =
  match fails (S n) with
  | Some er => (Throw er, {| db := with_children (children w ++ [c true]) w; calls := S (S n) |})
  | None => match fails (S (S n)) with
            | Some er => (Throw er, {| db := w1; calls := S (S (S n)) |})
            | None => (Ok (nullish exitCode 1), {| db := with_activation None w1; calls := S (S (S n)) |})
            end
  end.
Proof.
  intros Hc Hu Hkms Hn Hget. cbv zeta. unfold runDeepSeek. rewrite bind_guard, Hc. cbn [negb]. cbv zeta. rewrite bind_guard, Hu. cbn [negb].
  rewrite bind_lift, Hkms. erewrite bind_step by (rewrite alone_faulty, Hn, on_store_read, Hget; reflexivity). cbn [fst snd].
  rewrite bind_require. cbv beta iota. do 2 (erewrite bind_step by reflexivity). cbn [db calls fst snd modify gets].
  destruct (fails (S n)) as [er|] eqn:H1.
  - apply bind_throw. unfold try_catch. rewrite bind_guard, alone_faulty, H1. cbv beta iota. erewrite bind_step by reflexivity.
    unfold kill_child, raise. cbn. by rewrite alter_last.
  - erewrite bind_step. 2:{ unfold try_catch. rewrite bind_guard, alone_faulty, H1. reflexivity. }
    cbv beta. destruct (fails (S (S n))) as [er|] eqn:H2.
    + apply bind_throw. by rewrite alone_faulty, H2.
    + erewrite bind_step by (rewrite alone_faulty, H2; reflexivity). unfold modify, deactivated, activated. cbn. by rewrite String.eqb_refl.
Qed.
Lemma with_children_same w : with_children (children w) w = w.
Proof. by destruct w. Qed.
(** Otherwise nothing is started and nothing is written. *)
Lemma run_refused e command args runtimeId now spawned exitCode w n r s' :
  runDeepSeek sha256 readFileSync alone fails e command args runtimeId now spawned exitCode {| db := w; calls := n |} = (r, s') →
  (∃ er, r = Throw er ∧ db s' = w) ∨
  (spawned = true ∧ truthy command = true ∧ truthy (value_of e "LITELLM_DATABASE_URL") = true ∧ fails n = None ∧
   ∃ kms p v t, createKms sha256 readFileSync e = Ok kms ∧ getVersioned kms (store w) None DEEPSEEK_SECRET_NAME = Ok (Some (p, v, t))).
Proof.
  unfold runDeepSeek. rewrite bind_guard. destruct (truthy command) eqn:Hc; cbn [negb]; [|intros [= <- <-]; left; by eexists].
  cbv zeta. rewrite bind_guard. destruct (truthy (value_of e _)) eqn:Hu; cbn [negb]; [|intros [= <- <-]; left; by eexists].
  rewrite bind_lift. destruct (createKms _ _ _) as [kms|er] eqn:Hkms; [|intros [= <- <-]; left; by eexists].
  destruct (fails n) as [er|] eqn:Hn.
  { erewrite bind_throw by (rewrite alone_faulty, Hn; reflexivity). intros [= <- <-]. left. by eexists. }
  destruct (getVersioned kms (store w) None DEEPSEEK_SECRET_NAME) as [[[[p v] t]|]|er] eqn:Hget.
  - erewrite bind_step by (rewrite alone_faulty, Hn, on_store_read, Hget; reflexivity). rewrite bind_require. cbv beta iota.
    destruct spawned; [intros _; right; split_and!; [done..|]; by exists kms, p, v, t|].
    do 2 (erewrite bind_step by reflexivity). erewrite bind_throw.
    2:{ unfold try_catch. rewrite bind_guard. cbn [negb]. erewrite bind_step by reflexivity. reflexivity. }
    intros [= <- <-]. left. eexists. split; [done|]. cbn. unfold kill_child. cbn. rewrite app_nil_r, alter_beyond. by destruct w.
  - erewrite bind_step by (rewrite alone_faulty, Hn, on_store_read, Hget; reflexivity). rewrite bind_require. intros [= <- <-]. left. by eexists.
  - erewrite bind_throw by (rewrite alone_faulty, Hn, on_store_read, Hget; reflexivity). intros [= <- <-]. left. by eexists.
Qed.

(** what the supervised process gets is what is recorded. Whichever calls fail, either nothing is started and
    nothing changes, or exactly one process is started, with the stored key and the address of its own database in its
    environment and without the administrator's key, the signing secret and the encryption keys. If it could not be
    recorded it is killed and the record is as before; otherwise the audit log and the activation name the version
    of the very key it got, and once it has ended the activation is gone, unless the removal itself failed. *)
Theorem child_gets_what_is_recorded e command args runtimeId now spawned exitCode w n r s' :
  runDeepSeek sha256 readFileSync alone fails e command args runtimeId now spawned exitCode {| db := w; calls := n |} = (r, s') →
  (∃ er, r = Throw er ∧ db s' = w) ∨
  ∃ kms p v t c, createKms sha256 readFileSync e = Ok kms ∧ getVersioned kms (store w) None DEEPSEEK_SECRET_NAME = Ok (Some (p, v, t)) ∧
    children (db s') = children w ++ [c] ∧ c_env c "UPSTREAM_API_KEY" = Some (of_bytes p) ∧
    c_env c "DATABASE_URL" = e "LITELLM_DATABASE_URL" ∧ (∀ k, k ∈ WITHHELD → c_env c k = None) ∧
    secrets (store (db s')) = secrets (store w) ∧
    if c_killed c then is_ok r = false ∧ systemAudits (store (db s')) = systemAudits (store w) ∧ activation (db s') = activation w
    else systemAudits (store (db s')) = systemAudits (store w) ++ [activation_event v] ∧
      match r with
      | Ok code => code = nullish exitCode 1 ∧ activation (db s') = None
      | Throw _ => activation (db s') = Some (recorded v runtimeId now)
      end.
Proof.
  intros Hrun. destruct (run_refused _ _ _ _ _ _ _ _ _ _ _ Hrun) as [|(-> & Hc & Hu & Hn & kms & p & v & t & Hkms & Hget)]; [by left|right].
  rewrite (run_started _ _ _ _ _ _ _ _ _ _ _ _ Hc Hu Hkms Hn Hget) in Hrun.
  exists kms, p, v, t. assert (e "LITELLM_DATABASE_URL" = Some (value_of e "LITELLM_DATABASE_URL")) as Hurl.
  { unfold value_of, nullish in *. by destruct (e "LITELLM_DATABASE_URL"). }
  destruct (fails (S n)) as [er|].
  - injection Hrun as <- <-. eexists. split_and!; [done..|by rewrite Hurl| |done|done]. intros k. apply withheld_absent.
  - destruct (fails (S (S n))) as [er|]; injection Hrun as <- <-; eexists; (split_and!; [done..|by rewrite Hurl| |done|done]); intros k; apply withheld_absent.
Qed.
End supervised.

(** ** The import of the key *)

Section import.
Context `{AeadLaws} (sha256 : list Z → string) (readFileSync : string → res string) (fails : nat → option exn) (user : Z).
(** Scrubbing works on files alone. *)
Section files.
Context (d : SecretDB).
Local Abbreviation same := (λ w, store w = d).
Local Abbreviation keeps_store := (keeps_all same).
Lemma same_alone : ∀ (n : nat) w, same w → same (alone n w).
Proof. done. Qed.
Lemma keeps_sys {A} (m : M Disk A) : keeps_store (call alone fails (on_disk m)).
Proof. apply keeps_call; [apply same_alone|]. intros w Hw. unfold on_disk. by destruct (m (disk w)). Qed.
Lemma keeps_harmless : keeps_store (call alone fails (mret tt)).
Proof. apply keeps_call; [apply same_alone|by intros w]. Qed.
Lemma keeps_raise {A} er : keeps_store (raise er : M (Session World) A).
Proof. by apply keeps_all_id. Qed.
Lemma keeps_stat path : keeps_store (privateFileStat alone fails user path).
Proof. unfold privateFileStat. repeat (apply keeps_all_bind; [first [apply keeps_sys|apply keeps_all_guard]|intros ?]). apply keeps_all_ret. Qed.
Lemma keeps_closing {A} (m : M (Session World) A) : keeps_store m → keeps_store (closing alone fails m).
Proof.
  intros Hm. unfold closing. apply keeps_all_bind; [apply keeps_all_try; [done|]|]; intros ?; (apply keeps_all_bind; [apply keeps_harmless|intros _]);
    [apply keeps_raise|apply keeps_all_ret].
Qed.
Lemma keeps_scrub path tmp n : keeps_store (scrubBootstrapKeyFromEnvFile alone fails user path tmp n).
Proof.
  unfold scrubBootstrapKeyFromEnvFile, readBootstrapFile, writeStaged, renameStaged, writeFileSync, ignore_error.
  repeat first [apply keeps_all_bind; [|intros ?]|apply keeps_all_try; [|intros ?]|apply keeps_closing|apply keeps_sys|apply keeps_harmless
    |apply keeps_stat|apply keeps_all_guard|apply keeps_raise|apply keeps_all_ret|case_match].
Qed.
End files.
Definition import_event : SystemAudit :=
  {| y_action := "provider.credential.import"; y_actorType := "deployment"; y_actorId := "provider-secret-cli";
     y_payload := JObj [("provider", JStr "deepseek"); ("source", JStr "bootstrap-environment")] |}.

Definition scrub_step (envFile : option (string * string * nat)) : M (Session World) unit :=
  match envFile with
  | Some (path, tmp, n) => _ ← scrubBootstrapKeyFromEnvFile alone fails user path tmp n; mret tt
  | None => mret tt end.
Lemma keeps_step d envFile : keeps_all (λ w, store w = d) (scrub_step envFile).
Proof.
  unfold scrub_step. destruct envFile as [[[path tmp] n]|]; [|apply keeps_all_ret]. apply keeps_all_bind; [apply keeps_scrub|intros _; apply keeps_all_ret].
Qed.
Lemma without_absent name e : without name e name = None ∧ ∀ k, k ≠ name → without name e k = e k.
Proof. unfold without. split; [by rewrite String.eqb_refl|]. intros k Hk. by rewrite (proj2 (String.eqb_neq k name) Hk). Qed.
Lemma handed_on (m : M (Session World) unit) (b : Bootstrap) e s r s' : (∀ d, keeps_all (λ w, store w = d) m) →
  (_ ← m; mret (b, without "UPSTREAM_API_KEY" e)) s = (r, s') →
  store (db s') = store (db s) ∧ ∀ b' e', r = Ok (b', e') → b' = b ∧ e' "UPSTREAM_API_KEY" = None ∧ ∀ k, k ≠ "UPSTREAM_API_KEY" → e' k = e k.
Proof.
  intros Hm. specialize (Hm _ s eq_refl). unfold mbind, M_bind. destruct (m s) as [[[]|er] s1]; intros [= <- <-]; (split; [done|]); [|done].
  intros b' e' [= <- <-]. split; [done|apply without_absent].
Qed.
(** the import never overwrites a key. Whichever calls fail: if a key is stored, the table and the audit log stay
    as they are, and the run succeeds only if the environment has no key or has that very one; if none is stored, the
    key of the environment is stored as version 1 together with its audit event, or nothing is stored and the run
    fails. A run that succeeds hands on an environment without the key. *)
Theorem bootstrap_never_overwrites e kms envFile now rid rnd w n r s' :
  createKms sha256 readFileSync e = Ok kms → fresh rnd → keyed (store w) → rid ∉ map s_id (secrets (store w)) →
  bootstrapDeepSeekEnv sha256 readFileSync alone fails user e envFile now rid rnd {| db := w; calls := n |} = (r, s') →
  let raw := value_of e "UPSTREAM_API_KEY" in
  (∀ b e', r = Ok (b, e') → e' "UPSTREAM_API_KEY" = None ∧ ∀ k, k ≠ "UPSTREAM_API_KEY" → e' k = e k) ∧
  match getVersioned kms (store w) None DEEPSEEK_SECRET_NAME with
  | Ok (Some (p, _, _)) => store (db s') = store w ∧ ∀ b e', r = Ok (b, e') → b = AlreadyStored ∧ (raw = "" ∨ bytes_of raw = p)
  | Ok None => (store (db s') = store w ∧ is_ok r = false) ∨
      (truthy raw = true ∧ getVersioned kms (store (db s')) None DEEPSEEK_SECRET_NAME = Ok (Some (bytes_of raw, 1, now)) ∧
       systemAudits (store (db s')) = systemAudits (store w) ++ [import_event])
  | Throw _ => store (db s') = store w ∧ is_ok r = false
  end.
Proof.
  intros Hkms Hrnd Hk Hrid Hrun raw. unfold bootstrapDeepSeekEnv in Hrun. rewrite bind_lift, Hkms in Hrun.
  fold raw in Hrun. cbv zeta in Hrun. fold (scrub_step envFile) in Hrun.
  destruct (fails n) as [er|] eqn:Hn.
  { erewrite bind_throw in Hrun by (rewrite alone_faulty, Hn; reflexivity). injection Hrun as <- <-. split; [done|].
    destruct (getVersioned _ _ _ _) as [[[[p v] t]|]|]; naive_solver. }
  destruct (getVersioned kms (store w) None DEEPSEEK_SECRET_NAME) as [[[[p v] t]|]|er] eqn:Hget.
  - erewrite bind_step in Hrun by (rewrite alone_faulty, Hn, on_store_read, Hget; reflexivity).
    cbv beta iota in Hrun. rewrite bind_guard in Hrun. destruct (_ && _) eqn:Hsame; [by injection Hrun as <- <-|].
    apply handed_on in Hrun as [Hd Hr]; [|intros d; destruct (truthy raw); [apply keeps_step|apply keeps_all_ret]].
    split; [intros b e' Hb; by apply Hr in Hb as [_ Hb]|]. split; [done|]. intros b e' Hb. apply Hr in Hb as [-> _]. split; [done|].
    destruct raw as [|c l]; [by left|right]. cbn [truthy andb negb] in Hsame. by apply negb_false_iff, bool_decide_eq_true in Hsame.
  - erewrite bind_step in Hrun by (rewrite alone_faulty, Hn, on_store_read, Hget; reflexivity). cbv beta iota in Hrun. cbn [fst snd] in Hrun.
    rewrite bind_guard in Hrun. destruct (truthy raw) eqn:Hraw; cbn [negb] in Hrun; [|injection Hrun as <- <-; split; [done|by left]].
    fold import_event in Hrun. pose proof (store_secret_spec sha256 readFileSync e kms now rid rnd None DEEPSEEK_SECRET_NAME (bytes_of raw) (Some import_event)
      (store w) _ _ Hkms Hrnd Hk Hrid (surjective_pairing _)) as Hspec. unfold store_secret in Hspec.
    destruct (fails (S n)) as [er|] eqn:Hn1.
    { erewrite bind_throw in Hrun by (rewrite alone_faulty, Hn1; reflexivity). injection Hrun as <- <-. split; [done|by left]. }
    destruct (putWithSystemAudit kms now rid rnd None DEEPSEEK_SECRET_NAME (bytes_of raw) import_event (store w)) as [[[]|er] db1] eqn:Hput; cbn [fst snd] in Hspec.
    + erewrite bind_step in Hrun by (rewrite alone_faulty, Hn1; unfold on_store; rewrite Hput; reflexivity).
      apply handed_on in Hrun as [Hd Hr]; [|intros; apply keeps_step]. cbn in Hd. rewrite Hd. destruct Hspec as (Hget1 & _ & _ & Ha).
      split; [intros b e' Hb; by apply Hr in Hb as [_ Hb]|]. right. split; [done|]. split; [|done].
      unfold getVersioned in Hget. destruct (find_secret (store w) _ _); [|exact Hget1]. by apply res_bind_ok in Hget as (? & _ & ?).
    + erewrite bind_throw in Hrun by (rewrite alone_faulty, Hn1; unfold on_store; rewrite Hput; reflexivity).
      injection Hrun as <- <-. split; [done|left]. by cbn.
  - erewrite bind_throw in Hrun by (rewrite alone_faulty, Hn, on_store_read, Hget; reflexivity). injection Hrun as <- <-. done.
Qed.
End import.

(** ** The test of a key *)

Section testing.
Context `{Aead} (kms : KmsAdapter) (e : env) (probe safe_probe : string → string → res bool) (fails : nat → option exn).
Definition answered (r : res bool) : bool := match r with Ok ok => ok | Throw _ => false end.
(** Where a test goes and with what. *)
Definition tested_against (target : TestTarget) (d : SecretDB) (url bearer : string) (ok : bool) : Prop :=
  match target with
  | STORED => url = DEEPSEEK_PROBE_URL ∧ ok = answered (probe url bearer) ∧
      ∃ p, Secrets.get kms d None DEEPSEEK_SECRET_NAME = Ok (Some p) ∧ bearer = of_bytes p
  | RUNTIME => url = strip_slashes (value_of e "LITELLM_URL") +:+ "/chat/completions" ∧ bearer = value_of e "LITELLM_MASTER_KEY" ∧
      ok = answered (safe_probe url bearer)
  end.
(** The end of a test: the audit event, then the answer. *)
Lemma recorded_test target actor ok s r s' :
  (_ ← call alone fails (on_store (modify (λ db, {| secrets := secrets db; systemAudits := systemAudits db ++ [tested target actor ok] |})));
   _ ← guard_throw (negb ok) (BadGatewayException "DeepSeek credential check failed");
   mret target) s = (r, s') →
  requests (db s') = requests (db s) ∧ secrets (store (db s')) = secrets (store (db s)) ∧
  ((systemAudits (store (db s')) = systemAudits (store (db s)) ∧ is_ok r = false) ∨
   (systemAudits (store (db s')) = systemAudits (store (db s)) ++ [tested target actor ok] ∧
    r = if ok then Ok target else Throw (BadGatewayException "DeepSeek credential check failed"))).
Proof.
  destruct s as [w n]. destruct (fails n) as [er|] eqn:Hn.
  - erewrite bind_throw by (rewrite alone_faulty, Hn; reflexivity). intros [= <- <-]. split_and!; [done..|by left].
  - erewrite bind_step by (rewrite alone_faulty, Hn; reflexivity). cbv beta. rewrite bind_guard.
    destruct ok; cbn [negb]; intros [= <- <-]; (split_and!; [done..|by right]).
Qed.

(** a test of a key sends one request, and is recorded. The stored key goes to the fixed address of its provider and
    nowhere else; a test of what is running sends the master key of the gateway, not the provider's. The audit event
    says who tested what and whether the answer was a success, and the caller gets that very verdict; without an
    event there is no verdict. *)
Theorem test_is_recorded target actor w n r s' :
  testDeepSeek kms e probe safe_probe alone fails target actor {| db := w; calls := n |} = (r, s') →
  (db s' = w ∧ is_ok r = false) ∨
  ∃ url bearer ok, requests (db s') = requests w ++ [(url, "Bearer " +:+ bearer)] ∧ tested_against target (store w) url bearer ok ∧
    secrets (store (db s')) = secrets (store w) ∧
    ((systemAudits (store (db s')) = systemAudits (store w) ∧ is_ok r = false) ∨
     (systemAudits (store (db s')) = systemAudits (store w) ++ [tested target actor ok] ∧
      r = if ok then Ok target else Throw (BadGatewayException "DeepSeek credential check failed"))).
Proof.
  unfold testDeepSeek. destruct target.
  - destruct (fails n) as [er|] eqn:Hn.
    { erewrite bind_throw by (rewrite alone_faulty, Hn; reflexivity). intros [= <- <-]. by left. }
    destruct (Secrets.get kms (store w) None DEEPSEEK_SECRET_NAME) as [[p|]|er] eqn:Hget.
    + erewrite bind_step by (rewrite alone_faulty, Hn, on_store_read, Hget; reflexivity). cbn [isSome negb fst snd]. rewrite bind_guard.
      unfold probeDeepSeek at 1. erewrite bind_step by reflexivity. cbv beta. intros (Hq & Hs & Hr)%recorded_test. right.
      exists DEEPSEEK_PROBE_URL, (of_bytes p). eexists. split_and!; [exact Hq| |exact Hs|exact Hr]. split_and!; [done..|]. by exists p.
    + erewrite bind_step by (rewrite alone_faulty, Hn, on_store_read, Hget; reflexivity). cbn [isSome negb fst snd]. rewrite bind_guard.
      intros [= <- <-]. by left.
    + erewrite bind_throw by (rewrite alone_faulty, Hn, on_store_read, Hget; reflexivity). intros [= <- <-]. by left.
  - erewrite bind_step by reflexivity. rewrite bind_guard. cbv beta iota. unfold probeActiveGateway at 1. cbv zeta.
    destruct (negb (truthy (strip_slashes (value_of e "LITELLM_URL"))) || negb (truthy (value_of e "LITELLM_MASTER_KEY"))) eqn:Hb.
    { erewrite bind_throw by (rewrite bind_guard; reflexivity). intros [= <- <-]. by left. }
    erewrite bind_step by (rewrite bind_guard; reflexivity). cbv beta. intros (Hq & Hs & Hr)%recorded_test. right.
    exists (strip_slashes (value_of e "LITELLM_URL") +:+ "/chat/completions"), (value_of e "LITELLM_MASTER_KEY"). eexists.
    split_and!; [exact Hq| |exact Hs|exact Hr]. by split_and!.
Qed.
End testing.

(** * Witnesses *)

Definition demo_env : env := λ k,
  if String.eqb k "LITELLM_DATABASE_URL" then Some "postgres://u:p@db/litellm"
  else if String.eqb k "UPSTREAM_API_KEY" then Some "sk-new"
  else if String.eqb k "HARA_FEEDBACK_INTAKE_KEY" then Some "intake" else demo_keys k.
Definition demo_actor : Guard.AuthedUser := {| Guard.id := "u1"; Guard.email := "a@x"; Guard.role := Guard.SUPERADMIN; Guard.orgId := None; Guard.viaSharedKey := false |}.
Definition demo_world : World := demo_disk "UPSTREAM_API_KEY=sk-new".
Definition demo_stored : World :=
  {| disk := disk demo_world; activation := None; children := []; requests := [];
     store := (store_secret demo_kms 9 "s1" demo_rnd None DEEPSEEK_SECRET_NAME (bytes_of "sk-old") None {| secrets := []; systemAudits := [] |}).2 |}.
Lemma demo_env_kms : createKms demo_sha demo_read demo_env = Ok demo_kms.
Proof.
  unfold createKms, LocalKeyfileKms. assert (kmsProvider demo_env = "local") as -> by (vm_compute; reflexivity).
  assert (loadMasterKey demo_read demo_env = Ok demo_cek) as -> by (vm_compute; reflexivity). reflexivity.
Qed.
Lemma rotation_needs_restart_witness : ∃ st s',
  putDeepSeek demo_kms demo_env (Ok true) alone no_fault " sk-new " demo_actor 12 "s2" demo_rnd {| db := demo_world; calls := 0 |} = (Ok st, s') ∧
  active st = false ∧ requires_activation st = true.
Proof.
  destruct (putDeepSeek demo_kms demo_env (Ok true) alone no_fault " sk-new " demo_actor 12 "s2" demo_rnd {| db := demo_world; calls := 0 |}) as [[st|er] s'] eqn:E;
    [|exfalso; revert E; vm_compute; discriminate].
  exists st, s'. split; [reflexivity|].
  pose proof (rotation_needs_restart demo_sha demo_read demo_env demo_kms demo_env_kms (Ok true) " sk-new " demo_actor 12 "s2" demo_rnd demo_world 0 st s'
    demo_fresh empty_keyed (not_elem_of_nil _) (λ a Ha, match Ha with eq_refl => I end) E) as (_ & _ & _ & _ & Ha & Hr & _). by split.
Defined.
Lemma child_gets_what_is_recorded_witness : ∃ s' c,
  runDeepSeek demo_sha demo_read alone no_fault demo_env "litellm" ["--port"; "4000"] "run1" 20 true (Some 0) {| db := demo_stored; calls := 0 |} = (Ok 0, s') ∧
  children (db s') = [c] ∧ c_env c "UPSTREAM_API_KEY" = Some "sk-old" ∧ c_env c "HARA_KMS_MASTER_KEY" = None ∧ activation (db s') = None.
Proof.
  destruct (runDeepSeek demo_sha demo_read alone no_fault demo_env "litellm" ["--port"; "4000"] "run1" 20 true (Some 0) {| db := demo_stored; calls := 0 |}) as [r s'] eqn:E.
  assert (r = Ok 0) as -> by (revert E; vm_compute; by intros [= <- _]).
  destruct (child_gets_what_is_recorded demo_sha demo_read no_fault demo_env "litellm" ["--port"; "4000"] "run1" 20 true (Some 0) demo_stored 0 (Ok 0) s' E)
    as [(er & [=] & _)|(kms & p & v & t & c & Hkms & Hget & Hch & Hup & _ & Hw & _ & Hrest)].
  exists s', c. split; [reflexivity|]. split; [exact Hch|]. rewrite demo_env_kms in Hkms. injection Hkms as <-.
  split; [rewrite Hup; revert Hget; vm_compute; by intros [= <- _ _]|]. split; [apply Hw; by apply (bool_decide_unpack _)|].
  destruct (c_killed c); [by destruct Hrest|]. by destruct Hrest as (_ & _ & ?).
Defined.
Lemma bootstrap_never_overwrites_witness : ∃ s',
  bootstrapDeepSeekEnv demo_sha demo_read alone no_fault 7 demo_env None 12 "s2" demo_rnd {| db := demo_stored; calls := 0 |} =
    (Throw (Error "UPSTREAM_API_KEY differs from the encrypted source; refusing to overwrite it"), s') ∧ store (db s') = store demo_stored.
Proof.
  destruct (bootstrapDeepSeekEnv demo_sha demo_read alone no_fault 7 demo_env None 12 "s2" demo_rnd {| db := demo_stored; calls := 0 |}) as [r s'] eqn:E.
  exists s'. split; [f_equal; revert E; vm_compute; by intros [= <- _]|].
  assert (keyed (store demo_stored)) as Hk.
  { split; [apply (bool_decide_unpack _); vm_compute; exact I|]. apply (bool_decide_unpack _). vm_compute. exact I. }
  assert ("s2" ∉ map s_id (secrets (store demo_stored))) as Hid by (apply (bool_decide_unpack _); vm_compute; exact I).
  exact (proj1 (proj2 (bootstrap_never_overwrites demo_sha demo_read no_fault 7 demo_env demo_kms None 12 "s2" demo_rnd demo_stored 0 r s'
    demo_env_kms demo_fresh Hk Hid E))).
Defined.
Lemma test_is_recorded_witness : ∃ s',
  testDeepSeek demo_kms demo_env (λ _ _, Ok true) (λ _ _, Throw (Error "refused")) alone no_fault STORED demo_actor {| db := demo_stored; calls := 0 |} = (Ok STORED, s') ∧
  requests (db s') = [(DEEPSEEK_PROBE_URL, "Bearer sk-old")].
Proof.
  destruct (testDeepSeek demo_kms demo_env (λ _ _, Ok true) (λ _ _, Throw (Error "refused")) alone no_fault STORED demo_actor {| db := demo_stored; calls := 0 |}) as [r s'] eqn:E.
  assert (r = Ok STORED) as -> by (revert E; vm_compute; by intros [= <- _]). exists s'. split; [reflexivity|].
  destruct (test_is_recorded demo_kms demo_env (λ _ _, Ok true) (λ _ _, Throw (Error "refused")) no_fault STORED demo_actor demo_stored 0 (Ok STORED) s' E)
    as [[_ [=]]|(url & bearer & ok & Hq & (-> & _ & p & Hget & ->) & _)].
  rewrite Hq. revert Hget. vm_compute. by intros [= <-].
Defined.

(** The list of what is withheld has no entry for the key of the feedback intake, which the process does not need either. *)
Example intake_key_reaches_child : childEnv demo_env "db" "sk-old" "HARA_FEEDBACK_INTAKE_KEY" = Some "intake".
Proof. reflexivity. Qed.
(** Two imports at once: each sees that no key is stored; the second replaces what the first stored. *)
Definition import_other (k : nat) (w : World) : World :=
  if (k =? 2)%nat then (on_store (store_secret demo_kms 9 "s1" demo_rnd None DEEPSEEK_SECRET_NAME (bytes_of "sk-other") None) w).2 else w.
Example racing_import_overwrites :
  let '(r, s) := bootstrapDeepSeekEnv demo_sha demo_read import_other no_fault 7 demo_env None 12 "s2" demo_rnd {| db := demo_world; calls := 0 |} in
  (fst <$> r, getVersioned demo_kms (store (db s)) None DEEPSEEK_SECRET_NAME) = (Ok Imported, Ok (Some (bytes_of "sk-new", 2, 12))).
Proof. vm_compute. reflexivity. Qed.
