(* ===== verification/Probes.v ===== *)
(** The gates a deployment runs against the engine ([scripts/probe-litellm-key-policy.mjs],
    [scripts/probe-litellm-priced-request.mjs]): a temporary key with limits, for the second also one paid request, and
    the deletion of the key whatever happened. The state is what was sent; an answer may depend on everything sent
    before it. URL parsing, JSON parsing and the rows of the spend query are parameters. *)
From S2P Require Import Prelude Js KeyPolicy ModelPolicy Ssrf Gateway Litellm.
Local Open Scope Z_scope.

(** * What is asked for and what is confirmed *)

Record ProbePolicy := { budgetLimits : list (string * Q); rpmLimit : Z; tpmLimit : Z }.
Definition PROBE_LIMITS : ProbePolicy :=
  {| budgetLimits := [("5h", 11 # 100); ("7d", 22 # 100); ("30d", 33 # 100)]; rpmLimit := 17; tpmLimit := 17000 |}.
Definition PRICED_PROBE_POLICY : ProbePolicy :=
  {| budgetLimits := [("5h", 1 # 100); ("7d", 2 # 100); ("30d", 3 # 100)]; rpmLimit := 10; tpmLimit := 10000 |}.
Definition responseConfirmsProbePolicy (p : ProbePolicy) (response : json) : bool :=
  match response with
  | JObj _ | JArr _ =>
      number_is (prop response "rpm_limit") (rpmLimit p) && number_is (prop response "tpm_limit") (tpmLimit p) &&
      match prop response "budget_limits" with
      | Some (JArr rows) => bool_decide (sort_str (mjoin (actual_budget <$> rows)) = sort_str ((λ b, budget_text b.1 b.2) <$> budgetLimits p))
      | _ => false
      end
  | _ => false
  end.
Definition responseConfirmsPricedProbePolicy : json → bool := responseConfirmsProbePolicy PRICED_PROBE_POLICY.
Definition requested_budgets (p : ProbePolicy) : json :=
  JArr ((λ b, JObj [("budget_duration", JStr b.1); ("max_budget", JNum b.2)]) <$> budgetLimits p).
Definition requested (models : list string) (alias : string) (metadata : list (string * json)) (p : ProbePolicy) : json :=
  JObj [("models", JArr (JStr <$> models)); ("key_alias", JStr alias); ("duration", JStr "15m"); ("metadata", JObj metadata);
        ("budget_limits", requested_budgets p); ("rpm_limit", JNum (inject_Z (rpmLimit p))); ("tpm_limit", JNum (inject_Z (tpmLimit p)))].

Definition PRICED_PROBE_MODELS : list string := ["deepseek-v4-flash"; "deepseek-v4-pro"; "deepseek-v4-flash-vision-exp"].
Definition VISION_PROBE_MODEL : string := "deepseek-v4-flash-vision-exp".
Definition THREE_SQUARES_DATA_URL : string := "data:image/png;base64,iVBORw0KGgoAAAANSUhEUgAAAgAAAAIAAQAAAADcA+lXAAAAmElEQVR42u3MIRIAIAwEsfs5Ty8WxQytJCtXJDUsAAAAAAAAAAAAAAAAAAAAAAAAAAAAAAAAAAAAAAAAAAAAAAAAAABwBXK06uUBAAAAAAAAAAAAAAAAAAAAAAAAAAA0gX4AAAAAAAAAAAAAAAAAAAAAAAAAAAAAAAAAAAAAAAAAAAAAAAAAAAAAAAAAAAAAAAAAAADgV2ADsThexDv0+FgAAAAASUVORK5CYII=".
Definition pricedProbeModel (e : env) : res string :=
  let model := or_default (nullish (e "HARA_PRICED_PROBE_MODEL") "") "deepseek-v4-flash" in
  if mem model PRICED_PROBE_MODELS then Ok model
  else Throw (Error ("HARA_PRICED_PROBE_MODEL must be one of " +:+ join ", " PRICED_PROBE_MODELS)).
Definition pricedProbeCompletionBody (model : string) : json :=
  if String.eqb model VISION_PROBE_MODEL then
    JObj [("model", JStr model);
      ("messages", JArr [JObj [("role", JStr "user");
         ("content", JArr [
            JObj [("type", JStr "text"); ("text", JStr "Look at the attached image. Call report_square_count exactly once with the number of separate black squares. Do not answer in prose.")];
            JObj [("type", JStr "image_url"); ("image_url", JObj [("url", JStr THREE_SQUARES_DATA_URL); ("detail", JStr "original")])]])]]);
      ("thinking", JObj [("type", JStr "disabled")]);
      ("tools", JArr [JObj [("type", JStr "function");
         ("function", JObj [("name", JStr "report_square_count");
            ("description", JStr "Report the number of separate black squares observed in the attached image.");
            ("parameters", JObj [("type", JStr "object"); ("properties", JObj [("count", JObj [("type", JStr "integer")])]);
                                 ("required", JArr [JStr "count"]); ("additionalProperties", JBool false)])])]]);
      ("tool_choice", JObj [("type", JStr "function"); ("function", JObj [("name", JStr "report_square_count")])]);
      ("max_tokens", JNum 128); ("temperature", JNum 0)]
  else
    JObj [("model", JStr model); ("messages", JArr [JObj [("role", JStr "user"); ("content", JStr "Reply OK")]]);
          ("max_tokens", JNum 4); ("temperature", JNum 0)].

(** [v?.[k]] and [v?.[0]], where [v] may be [undefined]. *)
Definition at_key (v : option json) (k : string) : option json := v ≫= λ v, prop v k.
Definition at_zero (v : option json) : option json :=
  match v with
  | Some (JArr (x :: _)) => Some x
  | Some (JStr (String c _)) => Some (JStr (String c ""))
  | Some (JObj m) => assoc "0" m
  | _ => None
  end.
Section vision.
Context (JSON_parse : string → option json).
Definition visionProbeResponseMatches (model : string) (response : json) : bool :=
  if negb (String.eqb model VISION_PROBE_MODEL) then true
  else match at_key (at_key (at_zero (at_key (Some response) "choices")) "message") "tool_calls" with
  | Some (JArr [tool]) =>
      let call := prop tool "function" in
      match at_key call "name", at_key call "arguments" with
      | Some (JStr name), Some (JStr arguments) =>
          String.eqb name "report_square_count" &&
          match JSON_parse arguments with
          | Some (JObj [(k, JNum n)]) => String.eqb k "count" && Qeq_bool n 3
          | _ => false
          end
      | _, _ => false
      end
  | _ => false
  end.
End vision.

(** A row of the spend query. *)
Record SpendRow := { verificationSpend : json; logCount : json; logSpend : json; totalTokens : json }.
Definition positive (v : json) : bool := num_ltb (numZ 0) (Number_json v).
Definition positiveSpendRecorded (row : option SpendRow) : bool :=
  match row with
  | Some r => positive (verificationSpend r) && positive (logSpend r) && positive (logCount r) && positive (totalTokens r)
  | None => false
  end.

(** * The runs *)

Record Request := { q_url : string; q_body : json; q_bearer : string }.
(** An answer, with the parse of its body, or a network error. *)
Inductive Reply := Replied (ok : bool) (status : Z) (body : res json) | Failed (er : exn).
(** What was sent, what the spend query was asked, and the milliseconds slept. *)
Record Trace := { sent : list Request; queried : nat; slept : Z }.
Definition attempt {S A} (m : M S A) : M S (res A) := λ s, let '(r, s') := m s in (Ok r, s').
Record ProbeResult := { pr_model : string; pr_logCount : number; pr_totalTokens : number; pr_spendPositive : bool }.

Section probes.
Context (URL : string → option url) (JSON_parse : string → option json).
(** The answer to a request after the earlier ones, and the rows of the spend query. *)
Context (engine : list Request → Request → Reply) (readSpend : Trace → string → res (option SpendRow)).

Definition LOCAL_HOSTS : list string := ["127.0.0.1"; "localhost"; "[::1]"].
(** [s.replace(/\/$/, "")] *)
Definition strip_slash (s : string) : string :=
  match reverse (chars s) with "/"%char :: l => str (reverse l) | _ => s end.
Definition localLiteLLMUrl (e : env) (refusal : string) : res string :=
  match URL (or_default (nullish (e "LITELLM_URL") "") "http://127.0.0.1:4000") with
  | None => Throw (Error "Invalid URL")
  | Some u => if mem (hostname u) LOCAL_HOSTS then Ok (strip_slash (href u)) else Throw (Error refusal)
  end.
Definition fetch (r : Request) : M Trace Reply := λ s,
  (Ok (engine (sent s) r), {| sent := sent s ++ [r]; queried := queried s; slept := slept s |}).
(** [what]: how an answer that is not a success is named. *)
Definition accepted (what : string) (reply : Reply) : M Trace json :=
  match reply with
  | Failed er => raise er
  | Replied ok status body =>
      if ok then lift body else raise (Error ("LiteLLM " +:+ what +:+ " returned HTTP " +:+ pretty status))
  end.
Definition jsonPost (base path : string) (body : json) (bearer : string) : M Trace json :=
  reply ← fetch {| q_url := base +:+ path; q_body := body; q_bearer := bearer |};
  accepted path reply.
Definition masterKey_of (e : env) : M Trace string :=
  let masterKey := nullish (e "LITELLM_MASTER_KEY") "" in
  _ ← guard_throw (String.length masterKey <? 24)%nat (Error "LITELLM_MASTER_KEY is missing or invalid");
  mret masterKey.
Definition delete_key (base alias masterKey : string) : M Trace (res json) :=
  attempt (jsonPost base "/key/delete" (JObj [("key_aliases", JArr [JStr alias])]) masterKey).

(** [stamp]: the time and the random part of the alias. *)
Definition probeLiteLLMKeyPolicy (e : env) (stamp : string) : M Trace unit :=
  base ← lift (localLiteLLMUrl e "policy probe refuses to send the LiteLLM master credential to a non-local host");
  masterKey ← masterKey_of e;
  let alias := "hara-policy-probe-" +:+ stamp in
  issued ← attempt (
    response ← jsonPost base "/key/generate"
      (requested ["deepseek-v4-flash"] alias [("purpose", JStr "hara-control-policy-probe")] PROBE_LIMITS) masterKey;
    guard_throw (negb (responseConfirmsProbePolicy PROBE_LIMITS response)) (Error "LiteLLM did not confirm every requested budget/rate limit"));
  deleted ← delete_key base alias masterKey;
  match deleted with
  | Throw er => raise (Error ("temporary policy probe cleanup failed: " +:+ exn_message er))
  | Ok _ => lift issued
  end.

Definition query (alias : string) : M Trace (option SpendRow) := λ s,
  (readSpend s alias, {| sent := sent s; queried := S (queried s); slept := slept s |}).
Definition sleep (ms : Z) : M Trace unit := modify (λ s, {| sent := sent s; queried := queried s; slept := slept s + ms |}).
Fixpoint poll (n : nat) (model alias : string) : M Trace (option ProbeResult) :=
  match n with
  | O => mret None
  | S n' =>
      row ← query alias;
      match row with
      | Some r =>
          if positiveSpendRecorded row then
            mret (Some {| pr_model := model; pr_logCount := Number_json (logCount r); pr_totalTokens := Number_json (totalTokens r); pr_spendPositive := true |})
          else _ ← sleep 1000; poll n' model alias
      | None => _ ← sleep 1000; poll n' model alias
      end
  end.
Definition priced_attempt (base model alias masterKey : string) : M Trace ProbeResult :=
  issued ← jsonPost base "/key/generate"
    (requested [model] alias [("purpose", JStr "hara-control-priced-request-probe"); ("model", JStr model)] PRICED_PROBE_POLICY) masterKey;
  _ ← guard_throw (negb (responseConfirmsPricedProbePolicy issued)) (Error "LiteLLM did not confirm every temporary budget/rate limit");
  let virtualKey := str_or_empty (prop issued "key") in
  _ ← guard_throw (negb (truthy virtualKey)) (Error "LiteLLM key generation returned no temporary key");
  completion ← fetch {| q_url := base +:+ "/v1/chat/completions"; q_body := pricedProbeCompletionBody model; q_bearer := virtualKey |};
  completionBody ← accepted "paid completion" completion;
  _ ← guard_throw (negb (visionProbeResponseMatches JSON_parse model completionBody))
        (Error "LiteLLM vision probe did not return one valid report_square_count tool call for the three attached squares");
  safeResult ← poll 30 model alias;
  require safeResult (Error "successful completion did not record positive LiteLLM USD spend within 30 seconds").
(** [disconnected]: the result of closing the connection, when the probe opened it. *)
Definition probeLiteLLMPricedRequest (e : env) (stamp : string) (disconnected : res unit) : M Trace ProbeResult :=
  base ← lift (localLiteLLMUrl e "priced-request probe refuses to send credentials to a non-local LiteLLM host");
  model ← lift (pricedProbeModel e);
  masterKey ← masterKey_of e;
  _ ← guard_throw (absent (e "DATABASE_URL")) (Error "DATABASE_URL is required for the spend assertion");
  let alias := "hara-priced-probe-" +:+ str (drop 12 (chars model)) +:+ "-" +:+ stamp in
  outcome ← attempt (priced_attempt base model alias masterKey);
  deleted ← delete_key base alias masterKey;
  let cleanupError := match deleted, disconnected with Throw er, _ => Some er | Ok _, Throw er => Some er | Ok _, Ok _ => None end in
  match cleanupError with
  | Some er => raise (Error ("temporary priced-request cleanup failed: " +:+ exn_message er))
  | None => lift outcome
  end.

(** ** What a run sends *)

Definition generation (base model alias masterKey : string) : Request :=
  {| q_url := base +:+ "/key/generate"; q_bearer := masterKey;
     q_body := requested [model] alias [("purpose", JStr "hara-control-priced-request-probe"); ("model", JStr model)] PRICED_PROBE_POLICY |}.
Definition completion_of (base model key : string) : Request :=
  {| q_url := base +:+ "/v1/chat/completions"; q_body := pricedProbeCompletionBody model; q_bearer := key |}.
Definition deletion (base alias masterKey : string) : Request :=
  {| q_url := base +:+ "/key/delete"; q_body := JObj [("key_aliases", JArr [JStr alias])]; q_bearer := masterKey |}.
Definition answered (log : list Request) (r : Request) (body : json) : Prop := ∃ status, engine log r = Replied true status (Ok body).
Definition sends (s s' : Trace) (l : list Request) : Prop := sent s' = sent s ++ l ∧ queried s' = queried s ∧ slept s' = slept s.

Lemma accepted_run what reply s r s' : accepted what reply s = (r, s') →
  s' = s ∧ ∀ body, r = Ok body → ∃ status, reply = Replied true status (Ok body).
Proof. destruct reply as [[] status body|er]; cbn; intros [= <- <-]; (split; [done|]); intros b Hb; [subst; eauto|done..]. Qed.
Lemma jsonPost_run base path body bearer s r s' : jsonPost base path body bearer s = (r, s') →
  let q := {| q_url := base +:+ path; q_body := body; q_bearer := bearer |} in
  sends s s' [q] ∧ ∀ b, r = Ok b → answered (sent s) q b.
Proof.
  unfold jsonPost. erewrite bind_step by reflexivity. intros [-> Hok]%accepted_run. cbv zeta. split; [done|]. intros b Hb. by apply Hok.
Qed.
Lemma jsonPost_iff base path body bearer s r s' b : jsonPost base path body bearer s = (r, s') →
  r = Ok b ↔ answered (sent s) {| q_url := base +:+ path; q_body := body; q_bearer := bearer |} b.
Proof.
  intros Hp. split; [intros Hb; by eapply jsonPost_run|]. intros [status Ha]. unfold jsonPost in Hp. erewrite bind_step in Hp by reflexivity.
  rewrite Ha in Hp. by injection Hp as <- _.
Qed.
Lemma poll_run n model alias s r s' : poll n model alias s = (r, s') →
  sent s' = sent s ∧ (queried s' <= queried s + n)%nat ∧ slept s <= slept s' <= slept s + 1000 * Z.of_nat n ∧
  ∀ pr, r = Ok (Some pr) → ∃ t row, readSpend t alias = Ok (Some row) ∧ sent t = sent s ∧ positiveSpendRecorded (Some row) = true ∧
    pr = {| pr_model := model; pr_logCount := Number_json (logCount row); pr_totalTokens := Number_json (totalTokens row); pr_spendPositive := true |}.
Proof.
  revert s. induction n as [|n IH]; intros s; cbn [poll].
  { intros [= <- <-]. split_and!; [done|lia..|done]. }
  unfold query at 1. unfold mbind at 1, M_bind at 1. destruct (readSpend s alias) as [[row|]|er] eqn:Hq.
  - destruct (positiveSpendRecorded (Some row)) eqn:Hp.
    + intros [= <- <-]. cbn. split_and!; [done|lia..|]. intros pr [= <-]. by exists s, row.
    + erewrite bind_step by reflexivity. intros (Hs & Hn & Hz & Hok)%IH. cbn in *. split_and!; [done|lia..|done].
  - erewrite bind_step by reflexivity. intros (Hs & Hn & Hz & Hok)%IH. cbn in *. split_and!; [done|lia..|done].
  - intros [= <- <-]. cbn. split_and!; [done|lia..|done].
Qed.

(** The evidence a pass rests on: the requests, and what each was answered. *)
Record passed (base model alias masterKey : string) (log : list Request) (pr : ProbeResult) := {
  p_issued : json; p_key : string; p_done : json; p_at : Trace; p_row : SpendRow;
  p_generated : answered log (generation base model alias masterKey) p_issued;
  p_confirmed : responseConfirmsPricedProbePolicy p_issued = true;
  p_named : prop p_issued "key" = Some (JStr p_key);
  p_paid : answered (log ++ [generation base model alias masterKey]) (completion_of base model p_key) p_done;
  p_seen : visionProbeResponseMatches JSON_parse model p_done = true;
  p_spent : readSpend p_at alias = Ok (Some p_row) ∧ positiveSpendRecorded (Some p_row) = true;
  p_result : pr = {| pr_model := model; pr_logCount := Number_json (logCount p_row); pr_totalTokens := Number_json (totalTokens p_row); pr_spendPositive := true |} }.
(** What an attempt sends after the request for a key: nothing, or the one paid request, with the key it got. *)
Definition one_paid (base model alias masterKey : string) (log paid : list Request) : Prop :=
  paid = [] ∨ ∃ body key, answered log (generation base model alias masterKey) body ∧ prop body "key" = Some (JStr key) ∧ key ≠ "" ∧
    responseConfirmsPricedProbePolicy body = true ∧ paid = [completion_of base model key].
#[local] Strategy 1000 [poll pricedProbeCompletionBody THREE_SQUARES_DATA_URL requested responseConfirmsProbePolicy visionProbeResponseMatches].
Lemma attempt_run base model alias masterKey s r s' : priced_attempt base model alias masterKey s = (r, s') →
  ∃ paid, sent s' = sent s ++ generation base model alias masterKey :: paid ∧ one_paid base model alias masterKey (sent s) paid ∧
    (queried s' <= queried s + 30)%nat ∧ slept s <= slept s' <= slept s + 30000 ∧
    ∀ pr, r = Ok pr → inhabited (passed base model alias masterKey (sent s) pr) ∧ length paid = 1%nat.
Proof.
  unfold priced_attempt. intros [(er & H1 & ->)|(issued & s1 & H1 & Hrun)]%bind_cases;
    destruct (jsonPost_run _ _ _ _ _ _ _ H1) as [(Hs1 & Hq1 & Hz1) Hok1]; fold (generation base model alias masterKey) in *.
  { exists []. split_and!; [done|by left|lia..|done]. }
  specialize (Hok1 _ eq_refl). rewrite bind_guard in Hrun. destruct (responseConfirmsPricedProbePolicy issued) eqn:Hc; cbn [negb] in Hrun.
  2: { injection Hrun as <- <-. exists []. split_and!; [done|by left|lia..|done]. }
  cbv zeta in Hrun. rewrite bind_guard in Hrun. destruct (truthy (str_or_empty (prop issued "key"))) eqn:Ht; cbn [negb] in Hrun.
  2: { injection Hrun as <- <-. exists []. split_and!; [done|by left|lia..|done]. }
  remember (str_or_empty (prop issued "key")) as key eqn:Hk.
  assert (prop issued "key" = Some (JStr key)) as Hkey by (subst key; destruct (prop issued "key") as [[]|]; done).
  fold (completion_of base model key) in Hrun. erewrite bind_step in Hrun by reflexivity. set (s2 := Build_Trace _ _ _) in Hrun.
  assert (one_paid base model alias masterKey (sent s) [completion_of base model key]) as Hone.
  { right. exists issued, key. split_and!; [done..|by apply truthy_true|done|done]. }
  assert (sent s2 = sent s ++ [generation base model alias masterKey; completion_of base model key] ∧ queried s2 = queried s ∧ slept s2 = slept s)
    as (Hs2 & Hq2 & Hz2) by (cbn; rewrite Hs1, <- app_assoc; by split_and!).
  apply bind_cases in Hrun as [(er & H2 & ->)|(body & s3 & H2 & Hrun)]; destruct (accepted_run _ _ _ _ _ H2) as [-> Hok2].
  { eexists. split_and!; [exact Hs2|exact Hone|lia..|done]. }
  destruct (Hok2 _ eq_refl) as [st Hpaid]. rewrite Hs1 in Hpaid. rewrite bind_guard in Hrun.
  destruct (visionProbeResponseMatches _ _ _) eqn:Hv; cbn [negb] in Hrun.
  2: { injection Hrun as <- <-. eexists. split_and!; [exact Hs2|exact Hone|lia..|done]. }
  apply bind_cases in Hrun as [(er & H3 & ->)|(o & s4 & H3 & Hrun)]; destruct (poll_run _ _ _ _ _ _ H3) as (Hs4 & Hq4 & Hz4 & Hok4).
  { rewrite <- Hs4 in Hs2. eexists. split_and!; [exact Hs2|exact Hone|lia..|done]. }
  rewrite <- Hs4 in Hs2. destruct o as [pr0|]; injection Hrun as <- <-; eexists; (split_and!; [exact Hs2|exact Hone|lia..|]); [|done].
  intros pr [= <-]. destruct (Hok4 _ eq_refl) as (t & row & Hrow & _ & Hpos & Hpr). split; [|done]. constructor.
  apply (Build_passed base model alias masterKey (sent s) pr0 issued key body t row); [done..|by exists st|done|done|done].
Qed.
Lemma attempt_step {S A} (m : M S A) s r s' : m s = (r, s') → attempt m s = (Ok r, s').
Proof. unfold attempt. by intros ->. Qed.
Lemma delete_run base alias masterKey s r s' : delete_key base alias masterKey s = (Ok r, s') →
  sends s s' [deletion base alias masterKey] ∧ ∀ b, r = Ok b → answered (sent s) (deletion base alias masterKey) b.
Proof. unfold delete_key, attempt. destruct (jsonPost _ _ _ _ _) as [r1 s1] eqn:Hp. intros [= <- <-]. by apply jsonPost_run in Hp. Qed.
Lemma localLiteLLMUrl_ok e refusal base : localLiteLLMUrl e refusal = Ok base →
  ∃ u, URL (or_default (nullish (e "LITELLM_URL") "") "http://127.0.0.1:4000") = Some u ∧ hostname u ∈ LOCAL_HOSTS ∧ base = strip_slash (href u).
Proof.
  unfold localLiteLLMUrl. destruct (URL _) as [u|]; [|done]. destruct (mem _ _) eqn:Hm; [|done]. intros [= <-]. exists u. by apply mem_true in Hm.
Qed.
Lemma masterKey_run e s : masterKey_of e s =
  (if (String.length (nullish (e "LITELLM_MASTER_KEY") "") <? 24)%nat then Throw (Error "LITELLM_MASTER_KEY is missing or invalid")
   else Ok (nullish (e "LITELLM_MASTER_KEY") ""), s).
Proof. unfold masterKey_of. rewrite bind_guard. by destruct (_ <? _)%nat. Qed.
(** The engine is on this machine. *)
Definition at_home (e : env) (base : string) : Prop :=
  ∃ u, URL (or_default (nullish (e "LITELLM_URL") "") "http://127.0.0.1:4000") = Some u ∧ hostname u ∈ LOCAL_HOSTS ∧ base = strip_slash (href u).
Definition master (e : env) : string := nullish (e "LITELLM_MASTER_KEY") "".

(** A run that got past the checks of the environment: the attempt, then the deletion, then the verdict. *)
Definition verdict {A} (what : string) (outcome : res A) (cleanup : res unit) : res A :=
  match cleanup with Throw er => Throw (Error (what +:+ exn_message er)) | Ok _ => outcome end.
Definition cleaned_up (deleted : res json) (disconnected : res unit) : res unit := _ ← deleted; disconnected.
Lemma priced_run e stamp disconnected s r s' : probeLiteLLMPricedRequest e stamp disconnected s = (r, s') →
  (s' = s ∧ is_ok r = false) ∨
  ∃ base model alias outcome s2 deleted, at_home e base ∧ pricedProbeModel e = Ok model ∧
    priced_attempt base model alias (master e) s = (outcome, s2) ∧ delete_key base alias (master e) s2 = (Ok deleted, s') ∧
    r = verdict "temporary priced-request cleanup failed: " outcome (cleaned_up deleted disconnected).
Proof.
  unfold probeLiteLLMPricedRequest. rewrite bind_lift. destruct (localLiteLLMUrl e _) as [base|er] eqn:Hbase; [|intros [= <- <-]; by left].
  rewrite bind_lift. destruct (pricedProbeModel e) as [model|er] eqn:Hmodel; [|intros [= <- <-]; by left].
  intros [(er & Hm & ->)|(mk & s1 & Hm & Hrun)]%bind_cases; rewrite masterKey_run in Hm; destruct (_ <? 24)%nat;
    injection Hm as Hmk <-; try done; [by left|]. subst mk. fold (master e) in Hrun.
  rewrite bind_guard in Hrun. destruct (absent _); [injection Hrun as <- <-; by left|]. cbv zeta in Hrun.
  set (alias := "hara-priced-probe-" +:+ _) in Hrun. clearbody alias.
  destruct (priced_attempt base model alias (master e) s) as [outcome s2] eqn:Ha. rewrite (bind_step _ _ _ _ _ (attempt_step _ _ _ _ Ha)) in Hrun.
  destruct (delete_key base alias (master e) s2) as [[deleted|er] s3] eqn:Hd; [|unfold delete_key, attempt in Hd; by destruct (jsonPost _ _ _ _ _)].
  rewrite (bind_step _ _ _ _ _ Hd) in Hrun. right. exists base, model, alias, outcome, s2, deleted. apply localLiteLLMUrl_ok in Hbase.
  destruct deleted, disconnected; injection Hrun as <- <-; by split_and!.
Qed.

(** C37: the paid probe always removes its key. Whatever the engine answers and the spend query returns, a run ends after
    at most thirty looks at the ledger and thirty seconds of waiting, and either sends nothing and fails, or asks an
    engine on this machine for one key, makes at most one paid request, with the very key it got and only if its limits
    were confirmed, and last of all deletes the key by the name it asked for. The master key is never sent elsewhere. *)
Theorem paid_probe_removes_its_key e stamp disconnected s r s' : probeLiteLLMPricedRequest e stamp disconnected s = (r, s') →
  (queried s' <= queried s + 30)%nat ∧ slept s <= slept s' <= slept s + 30000 ∧
  ((sent s' = sent s ∧ is_ok r = false) ∨
   ∃ base model alias paid, at_home e base ∧ model ∈ PRICED_PROBE_MODELS ∧
     one_paid base model alias (master e) (sent s) paid ∧
     sent s' = sent s ++ generation base model alias (master e) :: paid ++ [deletion base alias (master e)]).
Proof.
  intros [[-> Hr]|(base & model & alias & outcome & s2 & deleted & Hhome & Hmodel & Ha & Hd & _)]%priced_run; [split_and!; [lia..|by left]|].
  assert (model ∈ PRICED_PROBE_MODELS) as Hin.
  { unfold pricedProbeModel in Hmodel. cbv zeta in Hmodel. destruct (mem _ _) eqn:Hm; [|done]. injection Hmodel as <-. by apply mem_true in Hm. }
  destruct (attempt_run _ _ _ _ _ _ _ Ha) as (paid & Hsent & Hone & Hq & Hz & _), (delete_run _ _ _ _ _ _ Hd) as [(Hs3 & Hq3 & Hz3) _].
  split_and!; [lia..|]. right. exists base, model, alias, paid. split_and!; [done..|]. by rewrite Hs3, Hsent, <- app_assoc.
Qed.

(** a pass of the paid probe is earned. The engine confirmed every limit of the temporary key and gave one out, the
    paid request with that key succeeded (for the vision model with the one tool call that counts three squares), the
    ledger showed a positive spend, a positive number of requests and of tokens under the name of the key, the engine
    confirmed that it deleted the key, and the result reports what the ledger said. *)
Theorem paid_probe_pass_is_earned e stamp disconnected s pr s' : probeLiteLLMPricedRequest e stamp disconnected s = (Ok pr, s') →
  disconnected = Ok tt ∧ ∃ base model alias body log, at_home e base ∧ pricedProbeModel e = Ok model ∧
    inhabited (passed base model alias (master e) (sent s) pr) ∧ sent s' = log ++ [deletion base alias (master e)] ∧
    answered log (deletion base alias (master e)) body.
Proof.
  intros [[_ [=]]|(base & model & alias & outcome & s2 & deleted & Hhome & Hmodel & Ha & Hd & Hr)]%priced_run.
  destruct (attempt_run _ _ _ _ _ _ _ Ha) as (paid & _ & _ & _ & _ & Hok), (delete_run _ _ _ _ _ _ Hd) as [(Hs3 & _ & _) Hans].
  destruct deleted as [body|er], disconnected as [[]|er']; try done. cbn in Hr. subst outcome. split; [done|].
  exists base, model, alias, body, (sent s2). split_and!; [done|done|by apply Hok|done|by apply Hans].
Qed.

(** the key-policy probe passes exactly if the engine confirmed every limit of the temporary key and then
    confirmed the deletion. Past the checks of the environment it sends these two requests and nothing else, whatever
    the first was answered. *)
Theorem policy_probe_verdict e stamp s r s' : probeLiteLLMKeyPolicy e stamp s = (r, s') →
  (s' = s ∧ is_ok r = false) ∨
  ∃ base alias, at_home e base ∧
    let generate := {| q_url := base +:+ "/key/generate"; q_bearer := master e;
      q_body := requested ["deepseek-v4-flash"] alias [("purpose", JStr "hara-control-policy-probe")] PROBE_LIMITS |} in
    sent s' = sent s ++ [generate; deletion base alias (master e)] ∧
    (r = Ok tt ↔ (∃ body, answered (sent s) generate body ∧ responseConfirmsProbePolicy PROBE_LIMITS body = true) ∧
                 ∃ body, answered (sent s ++ [generate]) (deletion base alias (master e)) body).
Proof.
  unfold probeLiteLLMKeyPolicy. rewrite bind_lift. destruct (localLiteLLMUrl e _) as [base|er] eqn:Hbase; [|intros [= <- <-]; by left].
  intros [(er & Hm & ->)|(mk & s1 & Hm & Hrun)]%bind_cases; rewrite masterKey_run in Hm; destruct (_ <? 24)%nat;
    injection Hm as Hmk <-; try done; [by left|]. subst mk. fold (master e) in Hrun. cbv zeta in Hrun.
  set (alias := "hara-policy-probe-" +:+ _) in Hrun. clearbody alias. right. exists base, alias. split; [by apply localLiteLLMUrl_ok in Hbase|].
  cbv zeta. set (generate := Build_Request _ _ _). match type of Hrun with (attempt ?m ≫= _) _ = _ => destruct (m s) as [issued s2] eqn:Ha end.
  rewrite (bind_step _ _ _ _ _ (attempt_step _ _ _ _ Ha)) in Hrun.
  assert (sent s2 = sent s ++ [generate] ∧ (issued = Ok tt ↔ ∃ body, answered (sent s) generate body ∧ responseConfirmsProbePolicy PROBE_LIMITS body = true))
    as [Hs2 Hissued].
  { apply bind_cases in Ha as [(er & Hp & ->)|(body & s3 & Hp & Hg)]; pose proof (jsonPost_run _ _ _ _ _ _ _ Hp) as [(Hs & _) _].
    - split; [done|]. split; [done|]. intros (body & Hb & _). by apply (jsonPost_iff _ _ _ _ _ _ _ body Hp) in Hb.
    - pose proof (λ b, jsonPost_iff _ _ _ _ _ _ _ b Hp) as Hiff. unfold guard_throw in Hg.
      destruct (responseConfirmsProbePolicy PROBE_LIMITS body) eqn:Hc; injection Hg as <- <-; (split; [done|]).
      + split; [|done]. intros _. exists body. split; [by apply Hiff|done].
      + split; [done|]. intros (b & Hb & Hcb). apply Hiff in Hb as [= <-]. by rewrite Hc in Hcb. }
  destruct (delete_key base alias (master e) s2) as [[deleted|er] s3] eqn:Hd; [|unfold delete_key, attempt in Hd; by destruct (jsonPost _ _ _ _ _)].
  rewrite (bind_step _ _ _ _ _ Hd) in Hrun. destruct (delete_run _ _ _ _ _ _ Hd) as [(Hs3 & _ & _) _].
  unfold delete_key, attempt in Hd. destruct (jsonPost _ _ _ _ s2) as [r' s3'] eqn:Hp. injection Hd as -> <-.
  pose proof (λ b, jsonPost_iff _ _ _ _ _ _ _ b Hp) as Hiff. rewrite Hs2 in Hiff, Hs3. rewrite <- app_assoc in Hs3. unfold deletion in *.
  destruct deleted as [body|er]; injection Hrun as <- <-; (split; [done|]); rewrite <- Hissued; [|split; [done|]].
  - split; [|by intros [? _]]. intros ->. split; [done|]. exists body. by apply Hiff.
  - intros [_ [b Hb]]. by apply Hiff in Hb.
Qed.
End probes.

(** * Witnesses *)

Definition demo_home (s : string) : option url :=
  Some {| protocol := "http:"; hostname := "127.0.0.1"; username := ""; password := ""; pathname := "/"; search := ""; hash := "";
          origin := "http://127.0.0.1:4000"; href := "http://127.0.0.1:4000/" |}.
Definition demo_parse (s : string) : option json := None.
(** An engine that confirms what it is asked and gives out a key. *)
Definition echo (log : list Request) (r : Request) : Reply :=
  match q_body r with
  | JObj m => Replied true 200 (Ok (JObj (m ++ [("key", JStr "sk-temp")])))
  | _ => Failed (Error "refused")
  end.
Definition demo_row : SpendRow := {| verificationSpend := JNum (1 # 1000); logCount := JNum 1; logSpend := JStr "0.001"; totalTokens := JNum 12 |}.
(** The ledger shows the spend at the third look. *)
Definition demo_ledger (t : Trace) (alias : string) : res (option SpendRow) := Ok (if (queried t <? 2)%nat then None else Some demo_row).
Definition probe_env : env := λ k,
  if String.eqb k "LITELLM_MASTER_KEY" then Some "sk-0123456789abcdef0123456789"
  else if String.eqb k "DATABASE_URL" then Some "postgresql://u@db/hara" else None.
Definition nothing_sent : Trace := {| sent := []; queried := 0; slept := 0 |}.
Definition demo_pass : ProbeResult := {| pr_model := "deepseek-v4-flash"; pr_logCount := Num 1; pr_totalTokens := Num 12; pr_spendPositive := true |}.

Lemma paid_probe_pass_is_earned_witness : ∃ s',
  probeLiteLLMPricedRequest demo_home demo_parse echo demo_ledger probe_env "1-ab" (Ok tt) nothing_sent = (Ok demo_pass, s') ∧
  ∃ log, sent s' = log ++ [deletion "http://127.0.0.1:4000" "hara-priced-probe-flash-1-ab" (master probe_env)].
Proof.
  destruct (probeLiteLLMPricedRequest demo_home demo_parse echo demo_ledger probe_env "1-ab" (Ok tt) nothing_sent) as [r s'] eqn:E.
  assert (r = Ok demo_pass) as -> by (revert E; vm_compute; by intros [= <- _]). exists s'. split; [reflexivity|].
  destruct (paid_probe_pass_is_earned demo_home demo_parse echo demo_ledger probe_env "1-ab" (Ok tt) nothing_sent demo_pass s' E)
    as (_ & base & model & alias & body & log & (u & Hu & _ & ->) & _ & _ & Hs & _).
  exists log. injection Hu as <-. rewrite Hs. do 2 f_equal.
  assert (last (sent s') = Some (deletion "http://127.0.0.1:4000" "hara-priced-probe-flash-1-ab" (master probe_env))) as Hl
    by (revert E; vm_compute; by intros [= <-]).
  rewrite Hs, last_snoc in Hl. by injection Hl as ->.
Defined.
Lemma paid_probe_removes_its_key_witness : ∃ r s',
  probeLiteLLMPricedRequest demo_home demo_parse echo (λ _ _, Ok None) probe_env "1-ab" (Ok tt) nothing_sent = (r, s') ∧
  is_ok r = false ∧ length (sent s') = 3%nat ∧ slept s' <= 30000.
Proof.
  destruct (probeLiteLLMPricedRequest demo_home demo_parse echo (λ _ _, Ok None) probe_env "1-ab" (Ok tt) nothing_sent) as [r s'] eqn:E.
  exists r, s'. split; [reflexivity|].
  pose proof (paid_probe_removes_its_key demo_home demo_parse echo (λ _ _, Ok None) probe_env "1-ab" (Ok tt) nothing_sent r s' E) as (_ & Hz & _).
  assert (is_ok r = false ∧ length (sent s') = 3%nat) as [Hr Hl] by (revert E; vm_compute; by intros [= <- <-]). cbn in Hz. split_and!; [done..|lia].
Defined.
(** The engine refuses; the key is deleted all the same. *)
Lemma policy_probe_verdict_witness : ∃ r s',
  probeLiteLLMKeyPolicy demo_home (λ log _, match log with [] => Replied true 200 (Ok (JObj [])) | _ => Replied true 200 (Ok JNull) end) probe_env "1-ab" nothing_sent = (r, s') ∧
  r ≠ Ok tt ∧ length (sent s') = 2%nat.
Proof.
  set (engine := λ log _, match log with [] => Replied true 200 (Ok (JObj [])) | _ => Replied true 200 (Ok JNull) end).
  destruct (probeLiteLLMKeyPolicy demo_home engine probe_env "1-ab" nothing_sent) as [r s'] eqn:E. exists r, s'. split; [reflexivity|].
  destruct (policy_probe_verdict demo_home engine probe_env "1-ab" nothing_sent r s' E) as [[-> _]|(base & alias & _ & Hs & Hiff)].
  - exfalso. revert E. vm_compute. discriminate.
  - split; [|by rewrite Hs]. intros Hr. apply Hiff in Hr as [(body & [st [= _ <-]] & Hc) _]. revert Hc. vm_compute. discriminate.
Defined.
Example probe_confirms_echo : responseConfirmsProbePolicy PROBE_LIMITS (requested [] "a" [] PROBE_LIMITS) = true.
Proof. vm_compute. reflexivity. Qed.
(** A row that is not a budget is skipped, not counted. *)
Example extra_rows_are_confirmed : responseConfirmsProbePolicy PROBE_LIMITS
  (JObj [("rpm_limit", JNum 17); ("tpm_limit", JNum 17000); ("budget_limits", match requested_budgets PROBE_LIMITS with JArr l => JArr (JNull :: l) | v => v end)]) = true.
Proof. vm_compute. reflexivity. Qed.
