(* ===== verification/Bootstrap.v ===== *)
(** The security bootstrap of a deployment ([scripts/bootstrap-production-security.mjs]): which settings it adds to the
    environment file, which it replaces and which it leaves alone. The random material, URL parsing and the rewriting of
    the schema parameter are parameters; the file itself is the text read before and written after. *)
From S2P Require Import Prelude Js Crypto Ssrf Secrets ModelPolicy Access Session Startup Providers.
Local Open Scope nat_scope.

(** * The text of the file *)

Definition newline : ascii := EnvFile.newline.
(** A line and its terminator. *)
Definition line : Type := list ascii * list ascii.
Definition lines (contents : string) : list line := segments [] (chars contents).
Definition text_of (l : list line) : string := str (l ≫= λ p, p.1 ++ p.2).
(** What follows the name on a line that starts with it and an equals sign. *)
Definition value_line (name : string) (l : list ascii) : option (list ascii) :=
  if startsWith (name +:+ "=") (str l) then Some (drop (String.length name + 1) l) else None.
Definition values (name : string) (l : list line) : list (list ascii) := omap (λ p, value_line name p.1) l.
Definition currentValue (name contents : string) : option string := (λ v, trim (str v)) <$> head (values name (lines contents)).

(** The first line with a value of [name]: the text before it, the line, and the text after it. *)
Fixpoint find_line (name : string) (before : list ascii) (l : list line) : option (list ascii * list ascii * list ascii) :=
  match l with
  | [] => None
  | (x, t) :: l' =>
      match value_line name x with
      | Some _ => Some (before, x, t ++ (l' ≫= λ p, p.1 ++ p.2))
      | None => find_line name (before ++ x ++ t) l'
      end
  end.
(** The first line of [name] replaced. *)
Definition replace_line (name text contents : string) : string :=
  match find_line name [] (lines contents) with
  | Some (before, matched, after) => str (before ++ substitution before matched after (chars text) ++ after)
  | None => contents
  end.
(** [contents.endsWith("\n")] *)
Definition ends_with_newline (contents : string) : bool :=
  match last (chars contents) with Some c => Ascii.eqb c newline | None => false end.
Definition append_line (text contents : string) : string :=
  contents +:+ (if ends_with_newline contents then "" else String newline "") +:+ text +:+ String newline "".
Definition placeholder (existing : string) : bool := startsWith "__SET" existing || Regex.test (Regex.lit "change-me") existing.
Definition has_line (name contents : string) : bool := isSome (currentValue name contents).
Definition setValue (name value contents : string) : string :=
  let existing := nullish (currentValue name contents) "" in
  let shouldReplace := negb (truthy existing) || placeholder existing in
  if has_line name contents then if shouldReplace then replace_line name (name +:+ "=" +:+ value) contents else contents
  else append_line (name +:+ "=" +:+ value) contents.
Definition setNodeEnv (contents : string) : string :=
  if has_line "NODE_ENV" contents then replace_line "NODE_ENV" "NODE_ENV=production" contents
  else append_line "NODE_ENV=production" contents.
Definition unquote (v : string) : string :=
  match chars v with
  | q :: l =>
      if (Ascii.eqb q "'" || Ascii.eqb q EnvFile.quote_char) && bool_decide (last (q :: l) = Some q) then str (take (length l - 1) l) else v
  | [] => v
  end.
Definition decodedCurrentValue (name contents : string) : option string := unquote <$> currentValue name contents.

(** The random values: the administrator's key, the signing secret and the gateway's key. *)
Record Material := { m_admin : string; m_jwt : string; m_master : string }.
Definition MODELS : string := "deepseek-v4-flash,deepseek-v4-pro,deepseek-v4-flash-vision-exp".
Definition SETTINGS : list string :=
  ["HARA_CONTROL_ADMIN_KEY"; "HARA_JWT_SECRET"; "LITELLM_MASTER_KEY"; "HARA_KMS_PROVIDER"; "HARA_KMS_KEYFILE"].
Definition GATEWAY_SETTINGS : list string := ["LITELLM_DATABASE_URL"; "HARA_ALLOWED_MODELS"; "HARA_DEFAULT_MODEL"].
Definition fail {A} (message : string) : res A := Throw (Error ("security bootstrap failed: " +:+ message)).
Definition fail_if (b : bool) (message : string) : res unit := if b then fail message else Ok tt.

Section bootstrap.
Context (URL : string → option url) (searchParam : url → string → option string).
(** [url.searchParams.set("schema", "litellm"); url.toString()] *)
Context (on_litellm_schema : url → string).
Definition isolatedLiteLLMDatabaseUrl (contents : string) : res string :=
  let raw := nullish (decodedCurrentValue "DATABASE_URL" contents) "" in
  _ ← fail_if (negb (truthy raw)) "DATABASE_URL is required before production security bootstrap";
  match URL raw with
  | None => fail "DATABASE_URL is not a valid URL"
  | Some u =>
      _ ← fail_if (negb (String.eqb (protocol u) "postgresql:") && negb (String.eqb (protocol u) "postgres:"))
            "DATABASE_URL must use postgresql:// or postgres://";
      _ ← fail_if (negb (bool_decide (searchParam u "schema" = Some "public"))) "DATABASE_URL must explicitly use schema=public";
      Ok (on_litellm_schema u)
  end.
Definition settings (m : Material) (keyfile : string) : list (string * string) :=
  [("HARA_CONTROL_ADMIN_KEY", m_admin m); ("HARA_JWT_SECRET", m_jwt m); ("LITELLM_MASTER_KEY", "sk-hara-" +:+ m_master m);
   ("HARA_KMS_PROVIDER", "local"); ("HARA_KMS_KEYFILE", keyfile)].
Definition set_all (l : list (string * string)) (contents : string) : string := foldl (λ c p, setValue p.1 p.2 c) contents l.
Definition gatewaySettings (contents : string) : res string :=
  if bool_decide (decodedCurrentValue "GATEWAY_ADAPTER" contents = Some "litellm") then
    address ← isolatedLiteLLMDatabaseUrl contents;
    Ok (set_all [("LITELLM_DATABASE_URL", address); ("HARA_ALLOWED_MODELS", MODELS); ("HARA_DEFAULT_MODEL", "deepseek-v4-flash")] contents)
  else Ok contents.
Definition checkSecrets (contents : string) : res unit :=
  let current name := nullish (currentValue name contents) "" in
  let admin := current "HARA_CONTROL_ADMIN_KEY" in
  let jwt := current "HARA_JWT_SECRET" in
  let master := current "LITELLM_MASTER_KEY" in
  _ ← fail_if (negb (truthy admin) || negb (truthy jwt) || negb (truthy master)) "required security values could not be established";
  fail_if (negb (length (uniq [admin; jwt; master]) =? 3)) "admin, JWT and LiteLLM secrets must be distinct".
(** The text written back. *)
Definition configure (m : Material) (keyfile contents : string) : res string :=
  let contents := set_all (settings m keyfile) (setNodeEnv contents) in
  contents ← gatewaySettings contents;
  _ ← checkSecrets contents;
  Ok contents.
(** The path of the encryption key: an argument, what the file says, or the default. *)
Definition keyfile_path (argument : option string) (contents : string) : string :=
  or_default (nullish argument "") (or_default (nullish (currentValue "HARA_KMS_KEYFILE" contents) "") "/etc/hara-control/kms-master.key").
End bootstrap.

Definition nl : string := String newline "".
Definition demo_file : string := "# hara" +:+ nl +:+ "NODE_ENV=development" +:+ nl +:+ "HARA_JWT_SECRET=__SET_ME__" +:+ nl +:+ "OTHER=x" +:+ nl.
Definition demo_material : Material := {| m_admin := "aa"; m_jwt := "bb"; m_master := "cc" |}.
Example configure_sample : configure (λ _, None) (λ _ _, None) (λ _, "") demo_material "/k" demo_file =
  Ok ("# hara" +:+ nl +:+ "NODE_ENV=production" +:+ nl +:+ "HARA_JWT_SECRET=bb" +:+ nl +:+ "OTHER=x" +:+ nl +:+ "HARA_CONTROL_ADMIN_KEY=aa" +:+ nl
      +:+ "LITELLM_MASTER_KEY=sk-hara-cc" +:+ nl +:+ "HARA_KMS_PROVIDER=local" +:+ nl +:+ "HARA_KMS_KEYFILE=/k" +:+ nl).
Proof. vm_compute. reflexivity. Qed.
(** The path is taken with its quotes: the key goes to another file than the one the launcher reads. *)
Definition quoted_file : string := "HARA_KMS_KEYFILE=" +:+ dquote "/etc/k" +:+ nl.
Example quoted_keyfile_path : keyfile_path None quoted_file = dquote "/etc/k" ∧ EnvFile.parseEnvFile quoted_file = Ok [("HARA_KMS_KEYFILE", "/etc/k")].
Proof. split; vm_compute; reflexivity. Qed.
(** A path given as an argument is where the key goes, but the file keeps the path it had. *)
Example keyfile_argument_ignored : let file := "HARA_KMS_KEYFILE=/old" +:+ nl in
  keyfile_path (Some "/new") file = "/new" ∧ setValue "HARA_KMS_KEYFILE" "/new" file = file.
Proof. split; vm_compute; reflexivity. Qed.
(** Two dollar signs in a replacement are one: the password in the engine's address is not the one in the file. *)
Example dollars_are_lost :
  setValue "LITELLM_DATABASE_URL" "postgres://u:a$$b@db/x" ("LITELLM_DATABASE_URL=__SET__" +:+ nl) = "LITELLM_DATABASE_URL=postgres://u:a$b@db/x" +:+ nl.
Proof. vm_compute. reflexivity. Qed.

(** * Lines *)

Definition flat (l : list line) : list ascii := l ≫= λ p, p.1 ++ p.2.
Definition plain (l : list ascii) : Prop := Forall (λ c, terminator c = false) l.
Inductive wf : list line → Prop :=
  | wf_last x : plain x → wf [(x, [])]
  | wf_cons x c l : plain x → terminator c = true → wf l → wf ((x, [c]) :: l).

Lemma segments_wf l : ∀ cur, plain (reverse cur) → wf (segments cur l).
Proof.
  induction l as [|c l IH]; intros cur Hcur; cbn [segments]; [by constructor|]. destruct (terminator c) eqn:Hc.
  - constructor; [done..|]. apply IH. constructor.
  - apply IH. rewrite reverse_cons. apply Forall_app. split; [done|by repeat constructor].
Qed.
Lemma segments_flat l : ∀ cur, flat (segments cur l) = reverse cur ++ l.
Proof.
  induction l as [|c l IH]; intros cur; cbn [segments]; [cbn; by rewrite !app_nil_r|]. destruct (terminator c).
  - unfold flat in *. cbn [mbind list_bind]. cbn [fst snd]. by rewrite IH, <- app_assoc.
  - by rewrite IH, reverse_cons, <- app_assoc.
Qed.
Lemma segments_plain x k cur : plain x → segments cur (x ++ k) = segments (reverse x ++ cur) k.
Proof.
  intros Hx. revert cur. induction Hx as [|c x Hc _ IH]; intros cur; [done|]. cbn [app segments]. rewrite Hc, IH, reverse_cons, <- app_assoc. done.
Qed.
Lemma segments_of_flat l : wf l → segments [] (flat l) = l.
Proof.
  induction 1 as [x Hx|x c l Hx Hc Hl IH].
  - unfold flat. cbn. rewrite !app_nil_r. rewrite <- (app_nil_r x) at 1. rewrite segments_plain by done. cbn. by rewrite app_nil_r, reverse_involutive.
  - unfold flat in *. cbn [mbind list_bind fst snd]. rewrite <- app_assoc, segments_plain by done. cbn [app segments]. rewrite Hc, app_nil_r, reverse_involutive.
    by rewrite IH.
Qed.
Lemma segments_cut l c k : terminator c = true → ∀ cur, omap (λ p, Some p.1) (segments cur (l ++ c :: k)) =
  omap (λ p, Some p.1) (segments cur l) ++ omap (λ p, Some p.1) (segments [] k).
Proof.
  intros Hc. induction l as [|d l IH]; intros cur; cbn [app segments].
  - by rewrite Hc.
  - destruct (terminator d); [|apply IH]. cbn [omap list_omap]. by rewrite IH.
Qed.
Definition raw (name contents : string) : option (list ascii) := head (values name (lines contents)).
Lemma values_fst name l : values name l = omap (value_line name) (omap (λ p : line, Some p.1) l).
Proof. induction l as [|p l IH]; [done|]. unfold values in *. cbn [omap list_omap]. by rewrite IH. Qed.
Lemma values_cut name l c k : terminator c = true →
  values name (segments [] (l ++ c :: k)) = values name (segments [] l) ++ values name (segments [] k).
Proof. intros Hc. by rewrite !values_fst, segments_cut, omap_app. Qed.
Lemma values_plain name x : plain x → values name (segments [] x) = option_list (value_line name x).
Proof.
  intros Hx. rewrite <- (app_nil_r x) at 1. rewrite segments_plain by done. cbn. rewrite app_nil_r, reverse_involutive. by destruct (value_line name x).
Qed.
Lemma value_line_nil name : value_line name [] = None.
Proof. unfold value_line. by destruct name. Qed.

(** Names without an equals sign: a line gives a value to one name at most. *)
Definition name_ok (name : string) : Prop := "="%char ∉ chars name.
Lemma value_line_self name v : value_line name (chars (name +:+ "=" +:+ v)) = Some (chars v).
Proof.
  unfold value_line. rewrite str_chars, <- append_assoc.
  assert (startsWith (name +:+ "=") ((name +:+ "=") +:+ v) = true) as ->.
  { unfold startsWith. generalize (name +:+ "="). intros s. induction s as [|c s IH]; [by destruct v|]. rewrite append_cons. cbn [String.prefix]. destruct (ascii_dec c c); [exact IH|done]. }
  rewrite chars_app, drop_app_length'; [done|]. by rewrite chars_app, length_app, length_chars.
Qed.
Lemma value_line_some name x v : value_line name x = Some v → x = chars (name +:+ "=") ++ v.
Proof.
  unfold value_line. destruct (startsWith _ _) eqn:Hs; [|done]. intros [= <-]. apply startsWith_app in Hs as [r Hr].
  apply (f_equal chars) in Hr. rewrite chars_str in Hr. rewrite Hr, chars_app. f_equal. rewrite drop_app_length'; [done|]. by rewrite chars_app, length_app, length_chars.
Qed.
Lemma equals_split (a b u v : list ascii) : ("="%char ∉ a) → ("="%char ∉ b) → a ++ "="%char :: u = b ++ "="%char :: v → a = b.
Proof.
  revert b. induction a as [|c a IH]; intros [|d b] Ha Hb Heq; [done| | |].
  - injection Heq as <- _. destruct Hb. by left.
  - injection Heq as -> _. destruct Ha. by left.
  - injection Heq as -> Heq. f_equal. apply (IH b); [set_solver..|done].
Qed.
Lemma value_line_other name other x v : name_ok name → name_ok other → name ≠ other → value_line name x = Some v → value_line other x = None.
Proof.
  intros Hn Ho Hne Hx%value_line_some. destruct (value_line other x) as [w|] eqn:Hw; [|done]. apply value_line_some in Hw. exfalso. apply Hne, chars_inj.
  rewrite Hx, !chars_app in Hw. apply (equals_split _ _ v w Hn Ho). by rewrite <- !app_assoc in Hw.
Qed.

(** * What a replacement and an addition change *)

Lemma find_line_spec name l : ∀ before, match find_line name before l with
  | Some (b, x, a) => ∃ pre t post v, l = pre ++ (x, t) :: post ∧ values name pre = [] ∧ value_line name x = Some v ∧ b = before ++ flat pre ∧ a = t ++ flat post
  | None => values name l = []
  end.
Proof.
  induction l as [|[x t] l IH]; intros before; cbn [find_line]; [done|]. destruct (value_line name x) as [v|] eqn:Hv.
  - exists [], t, l, v. split_and!; [done..|by rewrite app_nil_r|done].
  - specialize (IH (before ++ x ++ t)). destruct (find_line name _ l) as [[[b y] a]|].
    + destruct IH as (pre & t' & post & v & -> & Hp & Hy & -> & ->). exists ((x, t) :: pre), t', post, v.
      split_and!; [done| |done| |done]; unfold values, flat in *; cbn [omap list_omap fst snd mbind list_bind]; [by rewrite Hv|by rewrite <- !app_assoc].
    + unfold values in *. cbn [omap list_omap fst]. by rewrite Hv.
Qed.
Lemma lines_wf contents : wf (lines contents).
Proof. apply segments_wf. constructor. Qed.
Lemma lines_text contents : text_of (lines contents) = contents.
Proof. unfold text_of, lines. fold (flat (segments [] (chars contents))). rewrite segments_flat. cbn [reverse rev_append app]. apply str_chars. Qed.
Lemma lines_of_text l : wf l → lines (text_of l) = l.
Proof. intros Hl. unfold lines, text_of. rewrite chars_str. by apply segments_of_flat. Qed.
Lemma wf_middle pre x y t post : wf (pre ++ (x, t) :: post) → plain y → wf (pre ++ (y, t) :: post).
Proof.
  intros Hw Hy. induction pre as [|[z u] pre IH]; cbn [app] in *.
  - inversion Hw; subst; by constructor.
  - inversion Hw as [? Hz Heq|]; subst; [by destruct pre|]. constructor; auto.
Qed.
Lemma replace_line_lines name text contents v : raw name contents = Some v → plain (chars text) → unescaped (chars text) →
  ∃ pre x t post, lines contents = pre ++ (x, t) :: post ∧ values name pre = [] ∧ value_line name x = Some v ∧
    lines (replace_line name text contents) = pre ++ (chars text, t) :: post.
Proof.
  intros Hraw Hp Hu. unfold replace_line. pose proof (find_line_spec name (lines contents) []) as Hf.
  destruct (find_line name [] (lines contents)) as [[[b x] a]|].
  2: { unfold raw in Hraw. by rewrite Hf in Hraw. }
  destruct Hf as (pre & t & post & w & Hl & Hpre & Hw & -> & ->). exists pre, x, t, post. split_and!; [done..| |].
  - unfold raw, values in Hraw. rewrite Hl, omap_app in Hraw. fold (values name pre) in Hraw. rewrite Hpre in Hraw. cbn in Hraw. by rewrite Hw in Hraw |- *.
  - rewrite substitution_id by done. cbn [app].
    assert (flat pre ++ chars text ++ t ++ flat post = flat (pre ++ (chars text, t) :: post)) as ->.
    { unfold flat. rewrite bind_app. cbn [mbind list_bind fst snd]. by rewrite <- app_assoc. }
    apply lines_of_text. apply (wf_middle _ x); [|done]. rewrite <- Hl. apply lines_wf.
Qed.
Lemma raw_replace name m text contents v w : name_ok name → name_ok m → raw name contents = Some v →
  text = name +:+ "=" +:+ w → plain (chars text) → unescaped (chars text) →
  raw m (replace_line name text contents) = if String.eqb m name then Some (chars w) else raw m contents.
Proof.
  intros Hn Hm Hraw -> Hp Hu. destruct (replace_line_lines _ _ _ _ Hraw Hp Hu) as (pre & x & t & post & Hl & Hpre & Hx & Hl').
  unfold raw. rewrite Hl, Hl'. unfold values. rewrite !omap_app. fold (values m pre). cbn [omap list_omap fst].
  destruct (String.eqb m name) eqn:E.
  - apply String.eqb_eq in E as ->. by rewrite Hpre, value_line_self.
  - apply String.eqb_neq in E. rewrite (value_line_other name m x v), (value_line_other name m _ _ Hn Hm ltac:(done) (value_line_self name w)) by done. done.
Qed.
(** A line replaced by itself. *)
Lemma replace_same name contents v : raw name contents = Some (chars v) → plain (chars (name +:+ "=" +:+ v)) → unescaped (chars (name +:+ "=" +:+ v)) →
  replace_line name (name +:+ "=" +:+ v) contents = contents.
Proof.
  intros Hraw Hp Hu. destruct (replace_line_lines _ _ _ _ Hraw Hp Hu) as (pre & x & t & post & Hl & _ & Hx%value_line_some & Hl').
  rewrite <- chars_app, append_assoc in Hx. rewrite <- (lines_text (replace_line _ _ _)), Hl', <- Hx, <- Hl. apply lines_text.
Qed.
Lemma last_snoc_inv {A} (l : list A) x : last l = Some x → ∃ k, l = k ++ [x].
Proof. induction l as [|y k _] using rev_ind; [done|]. rewrite last_snoc. intros [= ->]. by exists k. Qed.
Lemma raw_append name m w contents : name_ok name → name_ok m → raw name contents = None → plain (chars (name +:+ "=" +:+ w)) →
  raw m (append_line (name +:+ "=" +:+ w) contents) = if String.eqb m name then Some (chars w) else raw m contents.
Proof.
  intros Hn Hm Hraw Hp.
  assert (∀ text, plain (chars text) →
    values m (lines (append_line text contents)) = values m (lines contents) ++ option_list (value_line m (chars text))) as Hv.
  { intros text Ht. unfold append_line, ends_with_newline, lines. rewrite !chars_app. change (chars (String newline "")) with [newline].
    assert (values m (segments [] []) = []) as Hnil by (rewrite values_plain by constructor; by rewrite value_line_nil).
    assert (∀ l, values m (segments [] (l ++ newline :: chars text ++ [newline])) = values m (segments [] l) ++ option_list (value_line m (chars text))) as Hadd.
    { intros l. rewrite (values_cut m l), (values_cut m (chars text)) by done. rewrite Hnil, app_nil_r. by rewrite (values_plain m (chars text)). }
    destruct (last (chars contents)) as [c|] eqn:Hc; [destruct (Ascii.eqb c newline) eqn:E|].
    - apply Ascii.eqb_eq in E as ->. apply last_snoc_inv in Hc as [l Hl]. rewrite Hl, <- app_assoc. cbn [chars app String.list_ascii_of_string].
      rewrite Hadd, (values_cut m l newline []) by done. by rewrite Hnil, app_nil_r.
    - apply Hadd.
    - apply Hadd. }
  specialize (Hv _ Hp).
  unfold raw. rewrite Hv. destruct (String.eqb m name) eqn:E.
  - apply String.eqb_eq in E as ->. unfold raw in Hraw. destruct (values name (lines contents)); [|done]. by rewrite value_line_self.
  - apply String.eqb_neq in E. rewrite (value_line_other name m _ _ Hn Hm ltac:(done) (value_line_self name w)). by rewrite app_nil_r.
Qed.

(** * What a setting becomes *)

Definition settled (v : string) : bool := truthy v && negb (placeholder v).
(** What stands after the name: as it was if that is a real value, otherwise the new one. *)
Definition desired (existing : option (list ascii)) (v : string) : list ascii :=
  match existing with Some x => if settled (trim (str x)) then x else chars v | None => chars v end.
(** A value that can be written as it is. *)
Definition writable (v : string) : Prop := plain (chars v) ∧ unescaped (chars v).
Definition plain_name (name : string) : Prop := name_ok name ∧ writable name.

Lemma writable_setting name v : writable name → writable v → writable (name +:+ "=" +:+ v).
Proof.
  intros [Hn Hn'] [Hv Hv']. unfold writable, plain, unescaped in *. rewrite !chars_app. split.
  - apply Forall_app. split; [done|]. apply Forall_app. split; [by repeat constructor|done].
  - rewrite !not_elem_of_app. split_and!; [done|by apply (bool_decide_unpack _)|done].
Qed.
Lemma currentValue_raw name contents : currentValue name contents = (λ v, trim (str v)) <$> raw name contents.
Proof. done. Qed.
Lemma has_line_raw name contents : has_line name contents = isSome (raw name contents).
Proof. unfold has_line. rewrite currentValue_raw. by destruct (raw name contents). Qed.
Lemma setValue_kept name v contents x : raw name contents = Some x → settled (trim (str x)) = true → setValue name v contents = contents.
Proof.
  intros Hraw Hs. unfold setValue. rewrite has_line_raw, currentValue_raw, Hraw. cbn [isSome fmap option_fmap option_map].
  unfold settled in Hs. apply andb_true_iff in Hs as [Ht Hp]. apply negb_true_iff in Hp. change (nullish (Some (trim (str x))) "") with (trim (str x)). by rewrite Ht, Hp.
Qed.
Lemma raw_setValue name v m contents : plain_name name → name_ok m → writable v →
  raw m (setValue name v contents) = if String.eqb m name then Some (desired (raw name contents) v) else raw m contents.
Proof.
  intros [Hn Hwn] Hm Hv. destruct (writable_setting name v Hwn Hv) as [Hp Hu].
  destruct (raw name contents) as [x|] eqn:Hraw; cbn [desired].
  - destruct (settled (trim (str x))) eqn:Hs.
    + rewrite (setValue_kept _ _ _ _ Hraw Hs). destruct (String.eqb m name) eqn:E; [|done]. by apply String.eqb_eq in E as ->.
    + assert (setValue name v contents = replace_line name (name +:+ "=" +:+ v) contents) as ->.
      { unfold setValue. rewrite has_line_raw, currentValue_raw, Hraw. cbn [isSome fmap option_fmap option_map].
        change (nullish (Some (trim (str x))) "") with (trim (str x)). unfold settled in Hs. apply andb_false_iff in Hs.
        assert (negb (truthy (trim (str x))) || placeholder (trim (str x)) = true) as ->; [|done].
        apply orb_true_iff. destruct Hs as [->|Hs%negb_false_iff]; [by left|by right]. }
      by rewrite (raw_replace name m _ contents x v).
  - unfold setValue. cbv zeta. rewrite has_line_raw, Hraw. cbn [isSome]. by rewrite raw_append.
Qed.
Lemma raw_setNodeEnv m contents : name_ok m →
  raw m (setNodeEnv contents) = if String.eqb m "NODE_ENV" then Some (chars "production") else raw m contents.
Proof.
  intros Hm. assert (name_ok "NODE_ENV") as Hn by (apply (bool_decide_unpack _); vm_compute; exact I).
  assert (plain (chars "NODE_ENV=production") ∧ unescaped (chars "NODE_ENV=production")) as [Hp Hu].
  { split; [repeat (constructor; [vm_compute; reflexivity|]); constructor|apply (bool_decide_unpack _); vm_compute; exact I]. }
  unfold setNodeEnv. rewrite has_line_raw. destruct (raw "NODE_ENV" contents) as [x|] eqn:Hraw; cbn [isSome].
  - by rewrite (raw_replace "NODE_ENV" m _ contents x "production").
  - change "NODE_ENV=production" with ("NODE_ENV" +:+ "=" +:+ "production"). by rewrite raw_append.
Qed.
Lemma raw_set_all l : ∀ m contents, NoDup l.*1 → Forall (λ p, plain_name p.1 ∧ writable p.2) l → name_ok m →
  raw m (set_all l contents) = match assoc m l with Some v => Some (desired (raw m contents) v) | None => raw m contents end.
Proof.
  induction l as [|[n v] l IH]; intros m contents Hd Hl Hm; [done|]. apply NoDup_cons in Hd as [Hn Hd]. apply Forall_cons in Hl as [[Hpn Hv] Hl].
  change (set_all ((n, v) :: l) contents) with (set_all l (setValue n v contents)). rewrite IH, raw_setValue by done. cbn [assoc].
  destruct (String.eqb m n) eqn:E; [|done]. apply String.eqb_eq in E as ->.
  by rewrite (proj2 (assoc_None n l) Hn).
Qed.

(** * The whole run *)

Section whole.
Context (URL : string → option url) (searchParam : url → string → option string) (on_litellm_schema : url → string).
Local Abbreviation run := (configure URL searchParam on_litellm_schema).
(** The address of the gateway's schema that a run on this file writes, if it writes one. *)
Definition address_of (contents : string) : res (option string) :=
  if bool_decide (decodedCurrentValue "GATEWAY_ADAPTER" contents = Some "litellm")
  then Some <$> isolatedLiteLLMDatabaseUrl URL searchParam on_litellm_schema contents else Ok None.
(** Everything the run may write into this file stands on one line and has no dollar sign. *)
Record all_writable (m : Material) (keyfile contents : string) : Prop := {
  aw_material : writable (m_admin m) ∧ writable (m_jwt m) ∧ writable (m_master m); aw_keyfile : writable keyfile;
  aw_address a : address_of contents = Ok (Some a) → writable a }.
Definition gateway_settings (address : string) : list (string * string) :=
  [("LITELLM_DATABASE_URL", address); ("HARA_ALLOWED_MODELS", MODELS); ("HARA_DEFAULT_MODEL", "deepseek-v4-flash")].
(** The settings of a run on a file that says this about the gateway. *)
Definition applied (m : Material) (keyfile : string) (address : option string) : list (string * string) :=
  settings m keyfile ++ match address with Some a => gateway_settings a | None => [] end.
Lemma plain_names : Forall plain_name ("NODE_ENV" :: SETTINGS ++ GATEWAY_SETTINGS).
Proof.
  assert (Forall (λ n, ("="%char ∉ chars n) ∧ Forall (λ c, terminator c = false) (chars n) ∧ ("$"%char ∉ chars n)) ("NODE_ENV" :: SETTINGS ++ GATEWAY_SETTINGS)) as H
    by (apply (bool_decide_unpack _); vm_compute; exact I).
  eapply Forall_impl; [exact H|]. by intros n (H1 & H2 & H3).
Qed.
Lemma writable_text v : bool_decide (Forall (λ c, terminator c = false) (chars v) ∧ ("$"%char ∉ chars v)) = true → writable v.
Proof. by intros ?%bool_decide_eq_true. Qed.
Lemma applied_writable m keyfile contents address : all_writable m keyfile contents → (∀ a, address = Some a → writable a) →
  NoDup (applied m keyfile address).*1 ∧ Forall (λ p, plain_name p.1 ∧ writable p.2) (applied m keyfile address).
Proof.
  intros [(Ha & Hj & Hm) Hk _] Haddr. pose proof plain_names as Hn. unfold SETTINGS, GATEWAY_SETTINGS in Hn. cbn [app] in Hn. decompose_Forall.
  assert (writable ("sk-hara-" +:+ m_master m)) as Hm2.
  { destruct Hm as [Hm1 Hm2]. unfold writable, plain, unescaped in *. rewrite !chars_app. split; [apply Forall_app; split; [by repeat constructor|done]|].
    apply not_elem_of_app. split; [by apply (bool_decide_unpack _)|done]. }
  assert (writable "local" ∧ writable MODELS ∧ writable "deepseek-v4-flash") as (? & ? & ?)
    by (split_and!; apply writable_text; vm_compute; reflexivity).
  unfold applied, settings. destruct address as [a|]; cbn [app gateway_settings fmap list_fmap fst].
  - specialize (Haddr a eq_refl). split; [apply (bool_decide_unpack _); vm_compute; exact I|]. repeat (apply Forall_cons_2; [cbn [fst snd]; auto|]). apply Forall_nil_2.
  - split; [apply (bool_decide_unpack _); vm_compute; exact I|]. repeat (apply Forall_cons_2; [cbn [fst snd]; auto|]). apply Forall_nil_2.
Qed.

Lemma decoded_same contents contents' name : raw name contents = raw name contents' → decodedCurrentValue name contents = decodedCurrentValue name contents'.
Proof. intros Hr. unfold decodedCurrentValue. by rewrite !currentValue_raw, Hr. Qed.
Lemma address_same contents contents' :
  raw "GATEWAY_ADAPTER" contents = raw "GATEWAY_ADAPTER" contents' → raw "DATABASE_URL" contents = raw "DATABASE_URL" contents' →
  address_of contents = address_of contents'.
Proof. intros Hg Hd. unfold address_of, isolatedLiteLLMDatabaseUrl. by rewrite (decoded_same _ _ _ Hg), (decoded_same _ _ _ Hd). Qed.
Lemma raw_base m keyfile contents name : all_writable m keyfile contents → name_ok name → name ∉ "NODE_ENV" :: SETTINGS →
  raw name (set_all (settings m keyfile) (setNodeEnv contents)) = raw name contents.
Proof.
  intros Hw Hname Hout. destruct (applied_writable m keyfile contents None Hw ltac:(done)) as [Hd Hl]. unfold applied in Hd, Hl. rewrite app_nil_r in Hd, Hl.
  rewrite raw_set_all by done. assert (assoc name (settings m keyfile) = None) as ->.
  { apply assoc_None. change (settings m keyfile).*1 with SETTINGS. set_solver. }
  rewrite raw_setNodeEnv by done. apply not_elem_of_cons in Hout as [Hne _]. by apply String.eqb_neq in Hne as ->.
Qed.
Lemma consulted_names name : name ∈ ["GATEWAY_ADAPTER"; "DATABASE_URL"] → name_ok name ∧ name ∉ "NODE_ENV" :: SETTINGS.
Proof.
  assert (Forall (λ name, ("="%char ∉ chars name) ∧ (name ∉ "NODE_ENV" :: SETTINGS)) ["GATEWAY_ADAPTER"; "DATABASE_URL"]) as H
    by (apply (bool_decide_unpack _); vm_compute; exact I). rewrite Forall_forall in H. apply H.
Qed.
Lemma address_base m keyfile contents : all_writable m keyfile contents →
  address_of (set_all (settings m keyfile) (setNodeEnv contents)) = address_of contents.
Proof.
  intros Hw. apply address_same; (apply raw_base; [exact Hw|apply consulted_names..]); [by left|by left|right; by left|right; by left].
Qed.
Lemma tail_shape (b : bool) (iso : res string) (check : string → res unit) (g : string → string) (h : option string → string) c1 :
  (∀ a, g a = h (Some a)) → c1 = h None →
  ((if b then address ← iso; Ok (g address) else Ok c1) ≫= λ c, _ ← check c; Ok c) =
  ((if b then Some <$> iso else Ok None) ≫= λ address, let c := h address in _ ← check c; Ok c).
Proof. intros Hg ->. destruct b, iso; cbn; by rewrite ?Hg. Qed.
Lemma set_all_app l k contents : set_all (l ++ k) contents = set_all k (set_all l contents).
Proof. apply foldl_app. Qed.
(** A run is the settings it applies, and the check of the secrets. *)
Lemma configure_applied m keyfile contents : all_writable m keyfile contents →
  run m keyfile contents =
  (address ← address_of contents; let c := set_all (applied m keyfile address) (setNodeEnv contents) in _ ← checkSecrets c; Ok c).
Proof.
  intros Hw. rewrite <- (address_base m keyfile contents Hw). unfold configure, gatewaySettings, address_of, applied.
  apply (tail_shape _ _ checkSecrets (λ a, set_all (gateway_settings a) _)
    (λ address, set_all (settings m keyfile ++ match address with Some a => gateway_settings a | None => [] end) _)).
  - intros a. symmetry. apply set_all_app.
  - by rewrite app_nil_r.
Qed.

Lemma applied_names m keyfile address contents : all_writable m keyfile contents → address_of contents = Ok address →
  NoDup (applied m keyfile address).*1 ∧ Forall (λ p, plain_name p.1 ∧ writable p.2) (applied m keyfile address).
Proof.
  intros Hw Ha. apply (applied_writable _ _ contents); [done|]. intros a ->. by apply (aw_address _ _ _ Hw).
Qed.
Lemma applied_not_mode m keyfile address : "NODE_ENV" ∉ (applied m keyfile address).*1.
Proof. unfold applied, settings. destruct address; (apply (bool_decide_unpack _); vm_compute; exact I). Qed.
Lemma configure_ok m keyfile contents contents' : all_writable m keyfile contents → run m keyfile contents = Ok contents' →
  ∃ address, address_of contents = Ok address ∧
    (∀ name, name_ok name → raw name contents' = match assoc name (applied m keyfile address) with
       | Some v => Some (desired (if String.eqb name "NODE_ENV" then Some (chars "production") else raw name contents) v)
       | None => if String.eqb name "NODE_ENV" then Some (chars "production") else raw name contents end) ∧
    checkSecrets contents' = Ok tt.
Proof.
  intros Hw Hrun. rewrite configure_applied in Hrun by done. apply res_bind_ok in Hrun as (address & Haddr & Hrun).
  cbv zeta in Hrun. apply res_bind_ok in Hrun as ([] & Hcheck & Hret). assert (∀ a b : string, Ok a = Ok b → a = b) as Hinj by congruence.
  apply Hinj in Hret. subst contents'. exists address. split; [done|]. split; [|done]. destruct (applied_names m keyfile address contents Hw Haddr) as [Hd Hl]. intros name Hn.
  rewrite (raw_set_all (applied m keyfile address) name) by done. by rewrite raw_setNodeEnv.
Qed.
Definition secret_values (contents : string) : list string :=
  (λ name, nullish (currentValue name contents) "") <$> ["HARA_CONTROL_ADMIN_KEY"; "HARA_JWT_SECRET"; "LITELLM_MASTER_KEY"].
Lemma checkSecrets_iff contents : checkSecrets contents = Ok tt ↔ NoDup (secret_values contents) ∧ "" ∉ secret_values contents.
Proof.
  unfold checkSecrets, secret_values. cbv zeta. cbn [fmap list_fmap]. generalize (nullish (currentValue "HARA_CONTROL_ADMIN_KEY" contents) "") as a,
    (nullish (currentValue "HARA_JWT_SECRET" contents) "") as b, (nullish (currentValue "LITELLM_MASTER_KEY" contents) "") as c. intros a b c.
  unfold fail_if, fail. rewrite !not_elem_of_cons.
  destruct (negb (truthy a) || negb (truthy b) || negb (truthy c)) eqn:Ht; cbn [mbind res_bind].
  - split; [done|]. intros (_ & Ha & Hb & Hc & _). exfalso. apply orb_true_iff in Ht as [[Ht|Ht]%orb_true_iff|Ht];
      apply negb_true_iff, truthy_false in Ht; subst; done.
  - apply orb_false_iff in Ht as [[Ha Hb]%orb_false_iff Hc]. apply negb_false_iff, truthy_true in Ha, Hb, Hc.
    destruct (length (uniq [a; b; c]) =? 3) eqn:Hl; cbn [negb].
    + apply Nat.eqb_eq in Hl. split; [intros _|done]. split; [|split_and!; [by apply not_eq_sym..|apply not_elem_of_nil]].
      rewrite <- (submseteq_length_Permutation (uniq [a; b; c]) [a; b; c]); [apply NoDup_uniq| |cbn [length]; lia].
      apply NoDup_submseteq; [apply NoDup_uniq|]. intros x. by apply elem_of_uniq.
    + split; [done|]. intros [Hd _]. rewrite uniq_id in Hl by done. done.
Qed.

(** what the bootstrap makes of the environment file. A run that succeeds leaves the production mode and, for each
    of its settings, the value that stood there if it was a real one, and otherwise its own (each of which stands on one
    line and has no dollar sign, see [dollars_are_lost]); no other variable of
    the file changes its value. The administrator's key, the signing secret and the gateway's key are there and differ
    from one another. *)
Theorem bootstrap_settles m keyfile contents contents' : all_writable m keyfile contents → run m keyfile contents = Ok contents' →
  ∃ address, address_of contents = Ok address ∧ raw "NODE_ENV" contents' = Some (chars "production") ∧
    (∀ name v, (name, v) ∈ applied m keyfile address → raw name contents' = Some (desired (raw name contents) v)) ∧
    (∀ name, name_ok name → name ≠ "NODE_ENV" → name ∉ (applied m keyfile address).*1 → currentValue name contents' = currentValue name contents) ∧
    NoDup (secret_values contents') ∧ "" ∉ secret_values contents'.
Proof.
  intros Hw Hrun. destruct (configure_ok _ _ _ _ Hw Hrun) as (address & Haddr & Hraw & Hcheck). exists address. split; [done|].
  split; [|split; [|split; [|by apply checkSecrets_iff]]].
  - rewrite Hraw by (apply (bool_decide_unpack _); vm_compute; exact I). by rewrite (proj2 (assoc_None "NODE_ENV" _) (applied_not_mode m keyfile address)).
  - intros name v Hin. destruct (applied_names m keyfile address contents Hw Haddr) as [Hd Hl]. rewrite Forall_forall in Hl.
    rewrite Hraw by by apply (Hl (name, v)). rewrite (elem_assoc _ _ _ Hd Hin).
    destruct (String.eqb name "NODE_ENV") eqn:E; [|done]. apply String.eqb_eq in E as ->. destruct (applied_not_mode m keyfile address).
    apply list_elem_of_fmap. by exists ("NODE_ENV", v).
  - intros name Hn Hne Hout. rewrite !currentValue_raw, Hraw by done. rewrite (proj2 (assoc_None _ _) Hout). by apply String.eqb_neq in Hne as ->.
Qed.

Lemma set_all_kept l contents : Forall (λ n, ∃ x, raw n contents = Some x ∧ settled (trim (str x)) = true) l.*1 → set_all l contents = contents.
Proof.
  induction l as [|[n v] l IH]; [done|]. cbn [fmap list_fmap fst]. intros [(x & Hx & Hs) Hl]%Forall_cons.
  change (set_all ((n, v) :: l) contents) with (set_all l (setValue n v contents)). rewrite (setValue_kept _ _ _ _ Hx Hs). by apply IH.
Qed.
Lemma desired_settled existing v : settled (trim v) = true → settled (trim (str (desired existing v))) = true.
Proof. intros Hv. unfold desired. destruct existing as [x|]; [destruct (settled (trim (str x))) eqn:E; [done|]|]; by rewrite str_chars. Qed.
(** A value that is written as it is and is no placeholder. *)
Definition lasting (v : string) : Prop := writable v ∧ settled (trim v) = true.
(** What the run writes into this file are such values. *)
Record all_real (m : Material) (keyfile contents : string) : Prop := {
  ar_material : settled (trim (m_admin m)) = true ∧ settled (trim (m_jwt m)) = true ∧ settled (trim ("sk-hara-" +:+ m_master m)) = true;
  ar_keyfile : settled (trim keyfile) = true; ar_address a : address_of contents = Ok (Some a) → settled (trim a) = true }.
Lemma applied_real m keyfile address contents : all_real m keyfile contents → address_of contents = Ok address →
  Forall (λ p, settled (trim p.2) = true) (applied m keyfile address).
Proof.
  intros [(Ha & Hj & Hm) Hk Hu] Haddr. assert (settled (trim "local") = true ∧ settled (trim MODELS) = true ∧ settled (trim "deepseek-v4-flash") = true)
    as (? & ? & ?) by (split_and!; vm_compute; reflexivity).
  unfold applied, settings. apply Forall_app. split; [repeat (apply Forall_cons_2; [done|]); apply Forall_nil_2|].
  destruct address as [a|]; [|apply Forall_nil_2]. repeat (apply Forall_cons_2; [cbn [snd]; try done|]); [|apply Forall_nil_2].
  by apply Hu.
Qed.

(** The random material is hexadecimal. *)
Definition hexadecimal (v : string) : Prop := v ≠ "" ∧ Forall (λ c, is_char "0123456789abcdef" c = true) (chars v).
Definition drawn (m : Material) : Prop := hexadecimal (m_admin m) ∧ hexadecimal (m_jwt m) ∧ hexadecimal (m_master m).
Definition secret_char (c : ascii) : bool := is_char "0123456789abcdefskhr-" c.
Lemma secret_char_spec c : secret_char c = true →
  terminator c = false ∧ is_ws c = false ∧ c ≠ "$"%char ∧ c ≠ "_"%char ∧ Regex.ci "n" c = false.
Proof.
  intros Hc. assert (forallb (λ n, let d := ascii_of_nat n in negb (secret_char d) ||
    negb (terminator d) && negb (is_ws d) && negb (Ascii.eqb d "$") && negb (Ascii.eqb d "_") && negb (Regex.ci "n" d)) (seq 0 256) = true) as H
    by (vm_compute; reflexivity).
  rewrite forallb_forall in H. specialize (H (nat_of_ascii c)). cbv zeta in H. rewrite ascii_nat_embedding, Hc in H. cbn [negb orb] in H.
  assert (negb (terminator c) && negb (is_ws c) && negb (Ascii.eqb c "$") && negb (Ascii.eqb c "_") && negb (Regex.ci "n" c) = true) as Hr.
  { apply H, in_seq. pose proof (nat_ascii_bounded c). lia. }
  rewrite !andb_true_iff, !negb_true_iff, !Ascii.eqb_neq in Hr. tauto.
Qed.
Lemma no_change_me k prev l : Forall (λ c, Regex.ci "n" c = false) l → Regex.match_rx (Regex.lit "change-me") k prev l = None.
Proof.
  intros Hl. destruct l as [|a [|b [|c [|d l]]]]; cbn; repeat (case_match; [|done]); try done.
  apply Forall_cons in Hl as [_ [_ [_ [Hn _]%Forall_cons]%Forall_cons]%Forall_cons]. unfold Regex.ci in *. congruence.
Qed.
Lemma no_change_me_test v : Forall (λ c, Regex.ci "n" c = false) (chars v) → Regex.test (Regex.lit "change-me") v = false.
Proof.
  unfold Regex.test. generalize (@None ascii). induction (chars v) as [|c l IH]; intros prev Hl; cbn [Regex.test_from]; rewrite no_change_me by done; [done|].
  inversion Hl; subst. by apply IH.
Qed.
Lemma lasting_secret v : v ≠ "" → Forall (λ c, secret_char c = true) (chars v) → lasting v.
Proof.
  intros Hne Hv. assert (Forall (λ c, terminator c = false ∧ is_ws c = false ∧ c ≠ "$"%char ∧ c ≠ "_"%char ∧ Regex.ci "n" c = false) (chars v)) as Hs
    by (eapply Forall_impl; [exact Hv|]; apply secret_char_spec). rewrite Forall_forall in Hs.
  split; [split|].
  - apply Forall_forall. intros c Hc. by apply Hs.
  - intros Hc. by apply Hs in Hc as (_ & _ & ? & _).
  - unfold trim. rewrite trim_solid by (apply Forall_forall; intros c Hc; by apply Hs). rewrite str_chars.
    unfold settled, placeholder. apply andb_true_iff. split; [by apply truthy_true|].
    apply negb_true_iff, orb_false_iff. split; [|apply no_change_me_test, Forall_forall; intros c Hc; by apply Hs].
    destruct v as [|c v]; [done|]. apply not_true_iff_false. intros [w Hw]%startsWith_app. rewrite append_cons in Hw. injection Hw as -> _.
    destruct (Hs "_"%char) as (_ & _ & _ & ? & _); [left|done].
Qed.
Lemma drawn_lasting m : drawn m → lasting (m_admin m) ∧ lasting (m_jwt m) ∧ lasting (m_master m) ∧ lasting ("sk-hara-" +:+ m_master m).
Proof.
  assert (∀ v, hexadecimal v → Forall (λ c, secret_char c = true) (chars v)) as Hhex.
  { intros v [_ Hv]. eapply Forall_impl; [exact Hv|]. intros c Hc. unfold secret_char, is_char in *.
    change (String.list_ascii_of_string "0123456789abcdefskhr-") with
      (String.list_ascii_of_string "0123456789abcdef" ++ String.list_ascii_of_string "skhr-"). by rewrite existsb_app, Hc. }
  intros (Ha & Hj & Hm). split_and!.
  1-3: apply lasting_secret; [by destruct Ha, Hj, Hm|by apply Hhex].
  apply lasting_secret; [by destruct (m_master m)|]. rewrite chars_app. apply Forall_app. split; [by repeat constructor|by apply Hhex].
Qed.
Lemma drawn_ok m keyfile contents : drawn m → lasting keyfile → (∀ a, address_of contents = Ok (Some a) → lasting a) →
  all_writable m keyfile contents ∧ all_real m keyfile contents.
Proof.
  intros ([Ha Ha'] & [Hj Hj'] & [Hm _] & [_ Hm'])%drawn_lasting [Hk Hk'] Haddr. split; split; [done|done|apply Haddr|done|done|apply Haddr].
Qed.
Lemma untouched_names name : name ∈ ["GATEWAY_ADAPTER"; "DATABASE_URL"] →
  name_ok name ∧ name ≠ "NODE_ENV" ∧ ∀ m keyfile address, assoc name (applied m keyfile address) = None.
Proof.
  intros Hin. destruct (consulted_names _ Hin) as [Hn Hout]. split_and!; [done|set_solver|]. intros m keyfile address. apply assoc_None.
  apply elem_of_cons in Hin as [->|Hin]; [|apply list_elem_of_singleton in Hin as ->]; destruct address; (apply (bool_decide_unpack _); vm_compute; exact I).
Qed.

(** C31: the bootstrap settles. Let the first run draw hexadecimal random material, as it does, and let the path of the
    encryption key and the address of the gateway's schema that it would write into this file stand on one line, have
    no dollar sign, and be neither blank nor placeholders (nothing that starts with [__SET] or contains [change-me]; a
    path like that is replaced again, see [placeholder_path_replaced]). If it succeeds, then a second run, whatever
    random material it draws and whatever path it is given, succeeds and leaves the text of the file as the first run
    wrote it: no secret is rotated by accident. *)
Theorem bootstrap_idempotent m keyfile m2 keyfile2 contents contents' :
  drawn m → lasting keyfile → (∀ a, address_of contents = Ok (Some a) → lasting a) → run m keyfile contents = Ok contents' →
  run m2 keyfile2 contents' = Ok contents'.
Proof.
  intros Hdrawn Hkey Hlasting Hrun. destruct (drawn_ok m keyfile contents Hdrawn Hkey Hlasting) as [Hw Hreal].
  destruct (configure_ok _ _ _ _ Hw Hrun) as (address & Haddr & Hraw & Hcheck).
  assert (address_of contents' = Ok address) as Haddr'.
  { rewrite <- Haddr. apply address_same; rewrite Hraw by (apply untouched_names; set_solver).
    - destruct (untouched_names "GATEWAY_ADAPTER") as (_ & Hne & Hno); [by left|]. rewrite Hno. by apply String.eqb_neq in Hne as ->.
    - destruct (untouched_names "DATABASE_URL") as (_ & Hne & Hno); [by right; left|]. rewrite Hno. by apply String.eqb_neq in Hne as ->. }
  assert (setNodeEnv contents' = contents') as Hmode.
  { assert (raw "NODE_ENV" contents' = Some (chars "production")) as Hr.
    { rewrite Hraw by (apply (bool_decide_unpack _); vm_compute; exact I). by rewrite (proj2 (assoc_None "NODE_ENV" _) (applied_not_mode m keyfile address)). }
    unfold setNodeEnv. rewrite has_line_raw, Hr. cbn [isSome]. apply (replace_same "NODE_ENV" contents' "production" Hr);
      [repeat (constructor; [vm_compute; reflexivity|]); constructor|apply (bool_decide_unpack _); vm_compute; exact I]. }
  assert (∀ l, l.*1 ⊆ (applied m keyfile address).*1 → set_all l contents' = contents') as Hkept.
  { intros l Hl. apply set_all_kept. destruct (applied_names m keyfile address contents Hw Haddr) as [Hd Hplain].
    pose proof (applied_real m keyfile address contents Hreal Haddr) as Hs. rewrite Forall_forall in Hplain, Hs.
    apply Forall_forall. intros n ([n' v] & -> & Hin)%Hl%list_elem_of_fmap. cbn [fst].
    rewrite Hraw by by apply (Hplain (n', v)). rewrite (elem_assoc _ _ _ Hd Hin). eexists. split; [reflexivity|]. apply desired_settled, (Hs (n', v) Hin). }
  unfold configure. cbv zeta. rewrite Hmode, Hkept by (unfold applied; rewrite fmap_app; apply list_subseteq_app_l; reflexivity).
  assert (gatewaySettings URL searchParam on_litellm_schema contents' = Ok contents') as ->; [|cbn [mbind res_bind]; by rewrite Hcheck].
  unfold gatewaySettings. unfold address_of in Haddr'. destruct (bool_decide _); [|done].
  destruct (isolatedLiteLLMDatabaseUrl _ _ _ _) as [a|]; [|done]. injection Haddr' as <-. cbn [mbind res_bind]. f_equal.
  apply Hkept. unfold applied. rewrite fmap_app. apply list_subseteq_app_r. reflexivity.
Qed.
End whole.

(** * Witnesses *)

Lemma demo_addresses : ∀ a, address_of (λ _, None) (λ _ _, None) (λ _, "postgres://u@db/x?schema=litellm") demo_file = Ok (Some a) → lasting a.
Proof. intros a. vm_compute. by intros [=]. Qed.
Lemma demo_drawn : drawn demo_material.
Proof. split_and!; (split; [discriminate|by repeat constructor]). Qed.
Lemma demo_keyfile : lasting "/k".
Proof. split; [apply writable_text; vm_compute; reflexivity|vm_compute; reflexivity]. Qed.
Lemma demo_writable : all_writable (λ _, None) (λ _ _, None) (λ _, "postgres://u@db/x?schema=litellm") demo_material "/k" demo_file.
Proof. exact (proj1 (drawn_ok _ _ _ _ _ _ demo_drawn demo_keyfile demo_addresses)). Qed.
Definition demo_run : res string := configure (λ _, None) (λ _ _, None) (λ _, "postgres://u@db/x?schema=litellm") demo_material "/k" demo_file.
Definition demo_after : string := match demo_run with Ok c => c | Throw _ => "" end.
Lemma demo_run_ok : demo_run = Ok demo_after.
Proof. vm_compute. reflexivity. Qed.
Lemma bootstrap_settles_witness : currentValue "OTHER" demo_after = Some "x" ∧ NoDup (secret_values demo_after).
Proof.
  destruct (bootstrap_settles (λ _, None) (λ _ _, None) (λ _, "postgres://u@db/x?schema=litellm") demo_material "/k" demo_file demo_after
    demo_writable demo_run_ok) as (address & Haddr & _ & _ & Hother & Hd & _).
  split; [|exact Hd]. rewrite Hother; [vm_compute; reflexivity|..].
  - apply (bool_decide_unpack _). vm_compute. exact I.
  - discriminate.
  - assert (address = None) as -> by (revert Haddr; vm_compute; by intros [= <-]). apply (bool_decide_unpack _). vm_compute. exact I.
Defined.
Lemma bootstrap_idempotent_witness :
  configure (λ _, None) (λ _ _, None) (λ _, "postgres://u@db/x?schema=litellm") {| m_admin := "11"; m_jwt := "22"; m_master := "33" |} "/other" demo_after = Ok demo_after.
Proof.
  exact (bootstrap_idempotent (λ _, None) (λ _ _, None) (λ _, "postgres://u@db/x?schema=litellm") demo_material "/k"
    {| m_admin := "11"; m_jwt := "22"; m_master := "33" |} "/other" demo_file demo_after demo_drawn demo_keyfile demo_addresses demo_run_ok).
Defined.
(** A path that looks like a placeholder is replaced by the path of the next run. *)
Example placeholder_path_replaced :
  let file := "A=1" +:+ nl +:+ "HARA_KMS_KEYFILE=/srv/change-me-not/key" +:+ nl in
  setValue "HARA_KMS_KEYFILE" "/srv/change-me-not/key" ("A=1" +:+ nl) = file ∧
  setValue "HARA_KMS_KEYFILE" "/other" file = "A=1" +:+ nl +:+ "HARA_KMS_KEYFILE=/other" +:+ nl.
Proof. split; vm_compute; reflexivity. Qed.
