(* ===== verification/BootstrapRun.v ===== *)
(** The run of the security bootstrap on disk ([scripts/bootstrap-production-security.mjs]): the checks of the environment
    file, the creation of the encryption key, and the replacement of the file by the text that [Bootstrap] computes. Files,
    system calls, the actions of other processes and failing calls are those of [Providers]; leaving the process with an
    error is an error value. Directories have no state here; a name is asked for and changed
    itself, never the target of a link. *)
From S2P Require Import Prelude Js Crypto Ssrf Secrets ModelPolicy Access Session Startup Providers Bootstrap.
Local Open Scope Z_scope.

Definition existsSync (path : string) : M Disk bool := λ d, (Ok (isSome (file_at d path)), d).
Definition chmodSync (path : string) (mode : Z) : M Disk unit := λ d,
  match dir d !! path with Some i => change_file i (with_mode mode) d | None => (Throw (Error "ENOENT"), d) end.
Definition fstatSync (fd : Z) : M Disk (Z * Inode) := λ d,
  match inodes d !! fd with Some f => (Ok (fd, f), d) | None => (Throw (Error "EBADF"), d) end.
Definition failure (message : string) : exn := Error ("security bootstrap failed: " +:+ message).

Section run.
Context (others : nat → World → World) (fails : nat → option exn) (user : Z).
(** What [resolve] makes of a path. *)
Context (resolve : string → string).
Context (URL : string → option url) (searchParam : url → string → option string) (on_litellm_schema : url → string).
Local Abbreviation State := (Session World).
Local Abbreviation sys m := (call others fails (on_disk m)).
Local Abbreviation harmless := (call others fails (mret tt)).

(** [writeFileSync(path, text, { mode: 0o600, flag: "wx" })], the text in two parts. *)
Definition writeNew (path text : string) (n : nat) : M State unit :=
  fd ← sys (openExclusive path user 384);
  closing others fails (writeFileSync others fails fd text n).
Definition readEnvironment (path : string) : M State ((Z * Inode) * string) :=
  there ← sys (existsSync path);
  _ ← guard_throw (negb there) (failure (path +:+ " is missing"));
  stat ← sys (lstatSync path);
  _ ← guard_throw (link stat.2 || negb (regular stat.2)) (failure ".env must be a regular, non-symlink file");
  _ ← guard_throw (negb (owner stat.2 =? user)) (failure ".env must be owned by the deployment user");
  _ ← sys (chmodSync path 384);
  fd ← sys (openRead path);
  contents ← closing others fails (
    opened ← sys (fstatSync fd);
    _ ← guard_throw (negb (opened.1 =? stat.1) || negb (regular opened.2)) (failure ".env changed while it was being opened");
    sys (readDescriptor fd));
  mret (stat, contents).
(** An existing encryption key. *)
Definition checkKey (keyfile : string) : M State unit :=
  stat ← sys (lstatSync keyfile);
  _ ← guard_throw (link stat.2 || negb (regular stat.2)) (failure "KMS keyfile must be a regular, non-symlink file");
  _ ← guard_throw (negb (owner stat.2 =? user)) (failure "existing KMS keyfile must be owned by the deployment user");
  guard_throw (shared (fmode stat.2)) (failure "existing KMS keyfile must be owner-only (chmod 600)").
(** The encryption key: an existing one is checked and kept, a missing one is written. *)
Definition prepareKey (keyfile material : string) (n : nat) : M State unit :=
  _ ← harmless;
  there ← sys (existsSync keyfile);
  _ ← (if there : bool then checkKey keyfile else writeNew keyfile (material +:+ String newline "") n);
  sys (chmodSync keyfile 384).
Definition replaceEnvironment (path tmp : string) (before : Z * Inode) (next : string) (n : nat) : M State unit :=
  _ ← writeNew tmp next n;
  _ ← sys (chmodSync tmp 384);
  current ← sys (lstatSync path);
  if link current.2 || negb (regular current.2) || negb (current.1 =? before.1) then
    _ ← ignore_error (sys (unlinkSync tmp));
    raise (failure ".env changed during security bootstrap")
  else try_catch (sys (renameSync tmp path)) (λ _,
    _ ← ignore_error (sys (unlinkSync tmp));
    raise (failure ".env atomic replacement failed")).
(** The script, with its two arguments, the random material and the lengths of the first parts written. *)
Definition bootstrap (envArg keyArg : option string) (tmp_of : string → string) (m : Material) (key : string) (n k : nat) : M State unit :=
  let envPath := resolve (or_default (nullish envArg "") ".env") in
  source ← readEnvironment envPath;
  let keyfile := resolve (keyfile_path keyArg source.2) in
  _ ← prepareKey keyfile key k;
  next ← lift (configure URL searchParam on_litellm_schema m keyfile source.2);
  replaceEnvironment envPath (tmp_of envPath) source.1 next n.
End run.

(** * The file is replaced as a whole *)

Section whole.
Context (others : nat → World → World) (fails : nat → option exn) (user : Z) (path tmp : string) (Hne : path ≠ tmp).
Context (Hothers : ∀ n w, view path tmp (others n w) = view path tmp w).
Local Abbreviation State := (Session World).
Local Abbreviation triple := (triple path tmp).
Local Abbreviation sys m := (call others fails (on_disk m)).
Context (i : Z) (f : Inode).
(** The file as it was, or with tightened permissions; from the check of the permissions on, the latter. *)
Definition tight : Inode := with_mode 384 f.
Definition untouched (v : option (Z * Inode) * option (Z * Inode)) : Prop := v.1 = Some (i, f) ∨ v.1 = Some (i, tight).
Definition tightened (v : option (Z * Inode) * option (Z * Inode)) : Prop := v.1 = Some (i, tight).

Lemma with_mode_twice : with_mode 384 tight = tight.
Proof. done. Qed.
Lemma triple_disk {A} (P : _ → Prop) (m : M Disk A) (Q : res A → _ → Prop) :
  (∀ d, P (file_at d path, file_at d tmp) → Q (m d).1 (file_at (m d).2 path, file_at (m d).2 tmp)) → (∀ er v, P v → Q (Throw er) v) →
  triple P (sys m) Q.
Proof.
  intros Hm Hf. apply triple_call; [done| |done]. intros w Hw. specialize (Hm (disk w) Hw). unfold view, on_disk in *.
  destruct (m (disk w)) as [r d]. exact Hm.
Qed.
Lemma file_at_inode d p j x : file_at d p = Some (j, x) → dir d !! p = Some j ∧ inodes d !! j = Some x.
Proof. unfold file_at. destruct (dir d !! p) as [k|]; [|done]. destruct (inodes d !! k) eqn:E; [|done]. by intros [= -> ->]. Qed.
(** Changing the mode of the environment file to the one it is to have. *)
Lemma triple_tighten (P : _ → Prop) : (∀ v, P v → untouched v) → triple P (sys (chmodSync path 384))
  (λ r v, match r with Ok _ => tightened v | Throw _ => untouched v end).
Proof.
  intros HP. apply triple_disk; [|intros er v; apply HP]. intros d Hd. specialize (HP _ Hd). unfold chmodSync, change_file.
  destruct HP as [H|H]; cbn [fst] in H; destruct (file_at_inode _ _ _ _ H) as [H1 H2]; rewrite H1, H2; cbn [fst snd];
    unfold tightened; cbn [fst]; rewrite file_at_set, H; by rewrite decide_True.
Qed.
(** A change of a file that is the environment file only by tightening it. *)
Lemma triple_other_file fd g : (fd = i → ∀ x, g x = with_mode 384 x) → triple tightened (sys (change_file fd g)) (λ _, tightened).
Proof.
  intros Hg. apply triple_disk; [|done]. intros d Hd. unfold change_file, tightened in *. cbn [fst] in *.
  destruct (inodes d !! fd) as [x|] eqn:Hx; [|done]. cbn [fst snd]. rewrite file_at_set, Hd. destruct (decide (i = fd)) as [->|]; [|done].
  rewrite Hg by done. apply file_at_inode in Hd as [_ Hd]. rewrite Hd in Hx. by injection Hx as <-.
Qed.
Lemma triple_chmod_other p : triple tightened (sys (chmodSync p 384)) (λ _, tightened).
Proof.
  apply triple_disk; [|done]. intros d Hd. unfold chmodSync. destruct (dir d !! p) as [j|]; [|done]. unfold change_file, tightened in *. cbn [fst] in *.
  destruct (inodes d !! j) as [x|] eqn:Hx; [|done]. cbn [fst snd]. rewrite file_at_set, Hd. destruct (decide (i = j)) as [->|]; [|done].
  apply file_at_inode in Hd as [_ Hd]. rewrite Hd in Hx. by injection Hx as <-.
Qed.
Lemma triple_create_other p : p ≠ path → triple tightened (sys (openExclusive p user 384))
  (λ r v, tightened v ∧ match r with Ok fd => fd ≠ i | Throw _ => True end).
Proof.
  intros Hp. apply triple_disk; [|done]. intros d Hd. unfold openExclusive. destruct (isSome (dir d !! p)); [done|]. cbn [fst snd].
  set (j := base.fresh (dom (inodes d))). assert (Hj : j ∉ dom (inodes d)) by apply is_fresh. unfold tightened in *. cbn [fst] in *.
  apply file_at_inode in Hd as [H1 H2]. assert (j ≠ i) by (intros ->; apply Hj, elem_of_dom; by eexists).
  unfold file_at. cbn [dir inodes]. rewrite lookup_insert_ne, H1, lookup_insert_ne, H2 by congruence. done.
Qed.
Lemma triple_look {A} (P : _ → Prop) (m : M Disk A) : (∀ d, (m d).2 = d) → triple P (sys m) (λ _, P).
Proof. intros Hm. apply triple_disk; [|done]. intros d. by rewrite Hm. Qed.
Lemma looks_exists p d : (existsSync p d).2 = d. Proof. done. Qed.
Lemma looks_stat p d : (lstatSync p d).2 = d. Proof. unfold lstatSync. by destruct (file_at d p). Qed.
Lemma triple_pure {A} (φ : Prop) P (m : M State A) Q : (φ → triple P m Q) → triple (λ v, P v ∧ φ) m Q.
Proof. intros H s [Hs Hφ]. by apply H. Qed.
(** Steps that keep what they start from. *)
Lemma triple_keep {A B} (P : _ → Prop) (m : M State A) (k : A → M State B) :
  triple P m (λ _, P) → (∀ a, triple P (k a) (λ _, P)) → triple P (m ≫= k) (λ _, P).
Proof. intros Hm Hk. by eapply triple_bind; [exact Hm|intros a; apply Hk|]. Qed.
Lemma triple_write_other fd t n : fd ≠ i → triple tightened (writeFileSync others fails fd t n) (λ _, tightened).
Proof. intros Hfd. apply triple_keep; [by apply triple_other_file|intros ?; by apply triple_other_file]. Qed.
Lemma triple_writeNew_other p t n : p ≠ path → triple tightened (writeNew others fails user p t n) (λ _, tightened).
Proof.
  intros Hp. eapply triple_bind; [by apply triple_create_other|intros fd|by intros er v [? _]].
  apply triple_pure. intros Hfd. apply triple_closing; [done|by apply triple_write_other|done..].
Qed.
Lemma triple_key keyfile material n : keyfile ≠ path →
  triple tightened (prepareKey others fails user keyfile material n) (λ _, tightened).
Proof.
  intros Hk. apply triple_keep; [by apply triple_harmless|intros ?].
  apply triple_keep; [apply triple_look, looks_exists|intros there].
  apply triple_keep; [|intros ?; apply triple_chmod_other]. destruct there; [|by apply triple_writeNew_other].
  apply triple_keep; [apply triple_look, looks_stat|intros stat]. do 2 (apply triple_keep; [by apply triple_guard|intros ?]). by apply triple_guard.
Qed.
(** The checks of the environment file, and its text. *)
Lemma triple_environment : triple (λ v, v.1 = Some (i, f)) (readEnvironment others fails user path)
  (λ r v, match r with Ok p => tightened v ∧ p = ((i, f), text f) | Throw _ => untouched v end).
Proof.
  unfold readEnvironment. assert (Hu : ∀ v, v.1 = Some (i, f) → untouched v) by by left. assert (Ht : ∀ v, tightened v → untouched v) by by right.
  eapply triple_bind; [apply triple_look, looks_exists|intros there|by auto].
  eapply (triple_bind _ _ _ _ _ (λ _ v, v.1 = Some (i, f))); [by apply triple_guard|intros ?|by auto].
  apply (triple_known _ _ _ (λ v, v.1 = Some (i, f)) (i, f)); [| |by auto].
  { apply triple_disk; [|done]. intros d Hd. cbn [fst] in Hd. unfold lstatSync. rewrite Hd. done. }
  do 2 (eapply (triple_bind _ _ _ _ _ (λ _ v, v.1 = Some (i, f))); [by apply triple_guard|intros ?|by auto]).
  eapply triple_bind; [by apply triple_tighten|intros ?|done].
  apply (triple_known _ _ _ tightened i); [| |by auto].
  { apply triple_disk; [|done]. intros d Hd. unfold tightened in *. cbn [fst] in Hd. unfold openRead. rewrite Hd. by destruct (link tight); cbn. }
  apply (triple_known _ _ _ tightened (text f)); [| |by auto]; [|by apply triple_ret].
  eapply triple_closing; [done| |by intros t er v [? _]|by intros er er' v [? _]].
  eapply triple_bind; [apply triple_look; intros d; unfold fstatSync; by destruct (inodes d !! i)|intros opened|done].
  eapply (triple_bind _ _ _ _ _ (λ _, tightened)); [by apply triple_guard|intros ?|done].
  apply triple_disk; [|done]. intros d Hd. unfold readDescriptor, tightened in *. cbn [fst] in *.
  destruct (file_at_inode _ _ _ _ Hd) as [_ H]. by rewrite H.
Qed.
(** The new text under its own name, then under the name of the environment file. *)
Definition replaced_by (next : string) (r : res unit) (v : option (Z * Inode) * option (Z * Inode)) : Prop :=
  match r with Ok _ => ∃ fd, v = (Some (fd, new_file user next), None) | Throw _ => tightened v end.
Local Abbreviation stage fd := (staged i tight fd).
Lemma triple_cleanup next er : triple tightened (_ ← ignore_error (sys (unlinkSync tmp)); raise er) (replaced_by next).
Proof.
  apply (triple_bind _ _ _ _ _ (λ _, tightened)); [|intros u; by apply triple_raise|done].
  apply (triple_try _ _ _ _ _ (λ _, tightened)); [by apply triple_unlink|done|intros er'; by apply triple_ret].
Qed.
Lemma triple_writeNew next n : triple tightened (writeNew others fails user tmp next n)
  (λ r v, match r with Ok _ => ∃ fd, stage fd (λ x, x = new_file user next) v | Throw _ => tightened v end).
Proof.
  assert (∀ t0, triple (λ v, v = (Some (i, tight), t0)) (writeNew others fails user tmp next n)
    (λ r v, match r with Ok _ => ∃ fd, stage fd (λ x, x = new_file user next) v | Throw _ => tightened v end)) as Hw.
  - intros t0. eapply triple_bind; [by apply triple_create|intros fd|by intros er v ->].
    eapply triple_weaken; [|done|].
    + apply triple_closing; [done|by apply triple_write| |done]. intros a er v. by apply staged_weaken.
    + intros [a|er] v Hst; [by exists fd|exact (staged_kept _ _ _ _ _ Hst)].
  - intros s Hs. apply (Hw (view path tmp (db s)).2). unfold tightened in Hs. rewrite <- Hs. by destruct (view path tmp (db s)).
Qed.
Lemma triple_staged_mode fd next : triple (stage fd (λ x, x = new_file user next)) (sys (chmodSync tmp 384)) (λ _, stage fd (λ x, x = new_file user next)).
Proof.
  intros s Hs. pose proof (triple_change others fails path tmp Hothers i tight fd (with_mode 384) (λ x, x = new_file user next) (λ x, x = new_file user next)) as H.
  assert (∀ d, file_at d tmp = Some (fd, new_file user next) → chmodSync tmp 384 d = change_file fd (with_mode 384) d) as Heq.
  { intros d Hd. unfold chmodSync. by destruct (file_at_inode _ _ _ _ Hd) as [-> _]. }
  specialize (H ltac:(by intros x ->) s Hs). unfold call, on_disk in *. rewrite <- (Hothers (2 * calls s)) in Hs.
  destruct Hs as (_ & _ & x & Hx & ->). rewrite (Heq _ Hx). by destruct (_ : res unit).
Qed.
Lemma triple_replaceEnvironment next n : triple tightened (replaceEnvironment others fails user path tmp (i, f) next n) (replaced_by next).
Proof.
  eapply triple_bind; [apply triple_writeNew|intros u|done].
  intros s [fd Hs]. revert s Hs. eapply triple_bind; [apply triple_staged_mode|intros u'|intros er v; apply staged_kept].
  apply (triple_known _ _ _ (stage fd (λ x, x = new_file user next)) (i, tight)); [| |intros er v; apply staged_kept].
  { apply triple_disk; [|done]. intros d Hd. pose proof (proj1 (proj2 Hd)) as H. cbn [fst] in H. unfold lstatSync. by rewrite H. }
  cbn [fst snd]. case (_ || _).
  - eapply triple_weaken; [apply triple_cleanup|intros v; apply staged_kept|done].
  - apply (triple_try _ _ _ _ _ (λ r v, match r with Ok _ => v = (Some (fd, new_file user next), None) | Throw _ => tightened v end)).
    + eapply triple_weaken; [by apply (triple_rename others fails path tmp Hne Hothers i tight fd)|done|]. intros [a|er] v; [done|apply staged_kept].
    + intros a v ->. by exists fd.
    + intros er. apply triple_cleanup.
Qed.
End whole.

Section composed.
Context (others : nat → World → World) (fails : nat → option exn) (user : Z) (resolve : string → string).
Context (URL : string → option url) (searchParam : url → string → option string) (on_litellm_schema : url → string).
Context (path tmp : string) (Hne : path ≠ tmp) (Hothers : ∀ n w, view path tmp (others n w) = view path tmp w).

(** What a run leaves: the text of [configure] in an owner-only file of its own, or the file as it was. *)
Definition configured (i : Z) (f : Inode) (m : Material) (keyfile : string) (r : res unit) (v : option (Z * Inode) * option (Z * Inode)) : Prop :=
  match r with
  | Ok _ => ∃ next fd, configure URL searchParam on_litellm_schema m keyfile (text f) = Ok next ∧ v = (Some (fd, new_file user next), None)
  | Throw _ => untouched i f v
  end.
Lemma triple_bootstrap envArg keyArg tmp_of m key n k i f :
  resolve (or_default (nullish envArg "") ".env") = path → tmp_of path = tmp → resolve (keyfile_path keyArg (text f)) ≠ path →
  triple path tmp (λ v, v.1 = Some (i, f)) (bootstrap others fails user resolve URL searchParam on_litellm_schema envArg keyArg tmp_of m key n k)
    (configured i f m (resolve (keyfile_path keyArg (text f)))).
Proof.
  intros Hpath Htmp Hkey. unfold bootstrap. cbv zeta. rewrite Hpath, Htmp.
  assert (∀ v, tightened i f v → untouched i f v) as Ht by by right.
  eapply triple_bind; [by apply triple_environment|intros p|done]. apply triple_pure. intros ->. cbn [fst snd].
  apply (triple_bind _ _ _ _ _ (λ _, tightened i f)); [by apply triple_key|intros u|by intros er v; apply Ht].
  destruct (configure URL _ _ m _ (text f)) as [next|er] eqn:Hnext; [|intros s H1; exact (Ht _ H1)].
  apply (triple_known _ _ _ (tightened i f) next); [by intros s H1| |by intros er v; apply Ht].
  eapply triple_weaken; [by apply triple_replaceEnvironment|done|]. intros [a|er] v; [|apply Ht]. intros [fd Hv]. by exists next, fd.
Qed.
End composed.

(** the security bootstrap replaces the environment file as a whole or not at all. Whatever call fails, and whatever
    other processes do elsewhere: if the script succeeds, the name leads to a new owner-only regular file of the user
    with exactly the text that [configure] makes of the old one, and no staging file is left; if it refuses or fails,
    the name leads to the file that was there, with the old text, at most with tightened permissions. *)
Theorem bootstrap_all_or_nothing others fails user resolve URL searchParam on_litellm_schema envArg keyArg tmp_of m key n k s r s' path i f :
  let keyfile := resolve (keyfile_path keyArg (text f)) in
  resolve (or_default (nullish envArg "") ".env") = path → keyfile ≠ path → tmp_of path ≠ path →
  (∀ j w, view path (tmp_of path) (others j w) = view path (tmp_of path) w) → file_at (disk (db s)) path = Some (i, f) →
  bootstrap others fails user resolve URL searchParam on_litellm_schema envArg keyArg tmp_of m key n k s = (r, s') →
  match r with
  | Ok _ => ∃ next fd, configure URL searchParam on_litellm_schema m keyfile (text f) = Ok next ∧
      file_at (disk (db s')) path = Some (fd, new_file user next) ∧ file_at (disk (db s')) (tmp_of path) = None
  | Throw _ => ∃ f', file_at (disk (db s')) path = Some (i, f') ∧ text f' = text f ∧ (f' = f ∨ fmode f' = 384)
  end.
Proof.
  intros keyfile Hpath Hkey Htmp Hothers Hf Hrun.
  pose proof (triple_bootstrap others fails user resolve URL searchParam on_litellm_schema path (tmp_of path) ltac:(done) Hothers
    envArg keyArg tmp_of m key n k i f Hpath eq_refl Hkey s Hf) as Ht.
  rewrite Hrun in Ht. cbn [fst snd] in Ht. destruct r as [u|er]; cbn [configured] in Ht.
  - destruct Ht as (next & fd & Hnext & [= H1 H2]). by exists next, fd.
  - destruct Ht as [H|H]; eexists; (split; [exact H|]); [by auto|]. split; [done|by right].
Qed.
Definition demo_bootstrap : M (Session World) unit :=
  bootstrap alone no_fault 7 (λ p, p) (λ _, None) (λ _ _, None) (λ _, "") (Some "/e/.env") (Some "/e/key") (λ p, p +:+ ".tmp") demo_material "a2V5" 3 1.
Lemma bootstrap_all_or_nothing_witness : ∃ s' next fd,
  demo_bootstrap {| db := demo_disk demo_file; calls := 0 |} = (Ok tt, s') ∧
  file_at (disk (db s')) "/e/.env" = Some (fd, new_file 7 next) ∧ currentValue "OTHER" next = Some "x" ∧
  file_at (disk (db s')) "/e/key" = Some (2, new_file 7 ("a2V5" +:+ nl)).
Proof.
  destruct (demo_bootstrap {| db := demo_disk demo_file; calls := 0 |}) as [r s'] eqn:E.
  pose proof (bootstrap_all_or_nothing alone no_fault 7 (λ p, p) (λ _, None) (λ _ _, None) (λ _, "") (Some "/e/.env") (Some "/e/key") (λ p, p +:+ ".tmp")
    demo_material "a2V5" 3 1 {| db := demo_disk demo_file; calls := 0 |} r s' "/e/.env" 1
    {| regular := true; link := false; fmode := 384; owner := 7; text := demo_file |}
    eq_refl ltac:(discriminate) ltac:(discriminate) (λ _ _, eq_refl) eq_refl E) as H.
  assert (r = Ok tt ∧ file_at (disk (db s')) "/e/key" = Some (2, new_file 7 ("a2V5" +:+ nl))) as [-> Hk] by (revert E; vm_compute; by intros [= <- <-]).
  destruct H as (next & fd & Hnext & Hp & _). exists s', next, fd. split_and!; [reflexivity|exact Hp| |exact Hk].
  revert Hnext. vm_compute. by intros [= <-].
Defined.
