(* ===== verification/Patch.v ===== *)
(** The patch of the installed gateway for the vision model ([scripts/patch-litellm-deepseek-vision.mjs]): where the
    transform is found, what is made of its text, and the replacement of the file. A path is text with slashes, as on
    POSIX systems; the hash and the resolution of links are parameters. *)
From S2P Require Import Prelude Js Crypto Ssrf Secrets ModelPolicy Access Session Startup Providers Bootstrap BootstrapRun.
Local Open Scope nat_scope.

(** * Searching for a text *)

(** The text before and after the first occurrence. *)
Fixpoint cut_first (w l : list ascii) : option (list ascii * list ascii) :=
  if startsWith (str w) (str l) then Some ([], drop (length w) l)
  else match l with [] => None | c :: l' => (λ p, (c :: p.1, p.2)) <$> cut_first w l' end.
(** [s.split(w)], for a text that is not empty; a piece less than the length of the text is enough steps. *)
Fixpoint split_text (steps : nat) (w l : list ascii) : list (list ascii) :=
  match steps, cut_first w l with S n, Some (a, b) => a :: split_text n w b | _, _ => [l] end.
(** [s.split(w).length - 1] *)
Definition occurrences (w l : list ascii) : nat := length (split_text (length l) w l) - 1.
(** [s.replace(w, v)], for a text [w]. *)
Definition replace_first (w v l : list ascii) : list ascii :=
  match cut_first w l with Some (a, b) => a ++ substitution a w b v ++ b | None => l end.

(** * The text of the transform *)

Definition PINNED_LITELLM_VERSION : string := "1.92.0".
Definition PINNED_TRANSFORM_SHA256 : string := "ec443f9040d2aa6f97dedf89be391317ee011f0bac33275a93a2a6171a74b1d1".
Definition VISION_MODEL : string := "deepseek-v4-flash-vision-exp".
Definition ORIGINAL_LINE : list ascii := chars "        messages = handle_messages_with_content_list_to_str_conversion(messages)".
Definition GUARD_LINE : list ascii := chars ("        if model != " +:+ String EnvFile.quote_char (VISION_MODEL +:+ String EnvFile.quote_char ":")).
Definition PATCHED_BLOCK : list ascii :=
  GUARD_LINE ++ newline :: chars "            messages = handle_messages_with_content_list_to_str_conversion(messages)".

Section text.
Context (sha256 : string → string).
Definition patchDeepSeekVisionTransform (source expectedOriginalSha256 : string) : res string :=
  let patchedCount := occurrences PATCHED_BLOCK (chars source) in
  let originalCount := occurrences ORIGINAL_LINE (chars source) in
  if (1 <? patchedCount) || (1 <? originalCount) || ((patchedCount =? 0) && negb (originalCount =? 1)) then
    Throw (Error "pinned LiteLLM DeepSeek transform has an unexpected message-conversion shape")
  else
    let canonical := if patchedCount =? 1 then replace_first PATCHED_BLOCK ORIGINAL_LINE (chars source) else chars source in
    if negb (sha256 (str canonical) =? expectedOriginalSha256)%string then
      Throw (Error "pinned LiteLLM DeepSeek transform checksum changed; review before patching")
    else Ok (str (replace_first ORIGINAL_LINE PATCHED_BLOCK canonical)).
End text.

Definition demo_source : string := "def f(self, messages, model):" +:+ nl +:+ str ORIGINAL_LINE +:+ nl +:+ "        return messages" +:+ nl.
Example patch_sample : patchDeepSeekVisionTransform (λ s, s) demo_source demo_source =
    Ok ("def f(self, messages, model):" +:+ nl +:+ str PATCHED_BLOCK +:+ nl +:+ "        return messages" +:+ nl)
  ∧ patchDeepSeekVisionTransform (λ s, s) (demo_source +:+ "#") demo_source = Throw (Error "pinned LiteLLM DeepSeek transform checksum changed; review before patching").
Proof. split; vm_compute; reflexivity. Qed.

(** * Where the transform is *)

(** The names on a path. *)
Definition names_on (path : string) : list string := filter (λ s, s ≠ "") (split "/" path).
Fixpoint without_common (a b : list string) : list string * list string :=
  match a, b with
  | x :: a', y :: b' => if (x =? y)%string then without_common a' b' else (a, b)
  | _, _ => (a, b)
  end.
(** [relative(from, to)], for absolute paths without dots. *)
Definition relative (from to : string) : string :=
  let '(up, down) := without_common (names_on from) (names_on to) in
  join "/" (map (λ _, "..") up ++ down).
Definition isAbsolute (path : string) : bool := startsWith "/" path.
Definition python_dir (name : string) : bool :=
  startsWith "python3." name && negb (String.length name =? 8) && forallb is_digit (drop 8 (chars name)).

Section target.
(** The text of the requirements, the two resolved paths and the names in the library directory of the second. *)
Context (requirements : res string) (versionsRoot activeVenv : res string) (libraries : res (list string)).
Definition requires_pinned (text : string) : bool :=
  existsb (λ l, (str l.1 =? "litellm[proxy]==" +:+ PINNED_LITELLM_VERSION)%string) (lines text).
Definition outside (fromRoot : string) : bool :=
  negb (truthy fromRoot) || (fromRoot =? "..")%string || startsWith "../" fromRoot || isAbsolute fromRoot.
Definition targetTransform : res string :=
  text ← requirements;
  _ ← throw_if (negb (requires_pinned text)) (Error ("vision patch requires pinned LiteLLM " +:+ PINNED_LITELLM_VERSION));
  root ← versionsRoot;
  active ← activeVenv;
  _ ← throw_if (outside (relative root active)) (Error "active LiteLLM runtime must resolve inside the managed version directory");
  all ← libraries;
  match filter (λ s, python_dir s = true) all with
  | [dir] => Ok (active +:+ "/lib/" +:+ dir +:+ "/site-packages/litellm/llms/deepseek/chat/transformation.py")
  | _ => Throw (Error "managed LiteLLM runtime must contain one Python library directory")
  end.
End target.

(** * The search finds the first occurrence, and counts them *)

Lemma starts_iff w l : startsWith (str w) (str l) = true ↔ ∃ r, l = w ++ r.
Proof.
  split.
  - intros [r Hr]%startsWith_app. exists (chars r). by rewrite <- (chars_str l), Hr, chars_app, chars_str.
  - intros [r ->]. unfold startsWith. induction w as [|c w IH]; [by destruct r|]. cbn. by destruct (Ascii.ascii_dec c c).
Qed.
Lemma cut_first_some w l a b : cut_first w l = Some (a, b) → l = a ++ w ++ b ∧ ∀ a' b', l = a' ++ w ++ b' → length a ≤ length a'.
Proof.
  revert a b. induction l as [|c l IH]; intros a b; cbn [cut_first]; destruct (startsWith (str w) _) eqn:Hw.
  1,3: intros [= <- <-]; apply starts_iff in Hw as [r Hr]; (split; [cbn [app]; by rewrite Hr, drop_app_length|intros ? ? _; cbn; lia]).
  - done.
  - destruct (cut_first w l) as [[a1 b1]|] eqn:Hl; [|done]. intros [= <- <-]. destruct (IH _ _ eq_refl) as [-> Hmin]. split; [done|].
    intros [|x a'] b' Heq; cbn [app length] in *.
    + assert (startsWith (str w) (str (c :: a1 ++ w ++ b1)) = true) as H by (apply starts_iff; by eexists). congruence.
    + injection Heq as -> Heq. apply Hmin in Heq. lia.
Qed.
Lemma cut_first_none w l a b : cut_first w l = None → l ≠ a ++ w ++ b.
Proof.
  revert a. induction l as [|c l IH]; intros a; cbn [cut_first]; destruct (startsWith (str w) _) eqn:Hw; try done.
  1,2: intros Hl Heq; destruct a as [|x a]; cbn in Heq; [assert (startsWith (str w) (str (w ++ b)) = true) as H by (apply starts_iff; by eexists); congruence|].
  - done.
  - injection Heq as -> Heq. destruct (cut_first w l) eqn:Hc; [done|]. by eapply IH.
Qed.
(** The text occurs after [a] and nowhere else. *)
Definition once (w a b : list ascii) : Prop := ∀ a' b', a' ++ w ++ b' = a ++ w ++ b → a' = a.
Lemma cut_first_once w a b : once w a b → cut_first w (a ++ w ++ b) = Some (a, b).
Proof.
  intros Ho. destruct (cut_first w _) as [[a1 b1]|] eqn:Hc; [|by apply (cut_first_none _ _ a b) in Hc].
  apply cut_first_some in Hc as [Heq _]. assert (a1 = a) as -> by by eapply Ho. by simplify_list_eq.
Qed.

Lemma app_self (a y : list ascii) : a ++ y = a → y = [].
Proof. intros H. apply (app_inv_head a). by rewrite app_nil_r. Qed.

Lemma once_longer w a g b : once w (a ++ g) b → once (g ++ w) a b.
Proof. intros Ho a' b' Heq. assert (a' ++ g = a ++ g) as Ha by (apply (Ho _ b'); by simplify_list_eq). by simplify_list_eq. Qed.

(** A text that ends with a character it has nowhere else. *)
Section marked.
Context (w0 : list ascii) (c : ascii) (Hw : c ∉ w0).
Local Abbreviation w := (w0 ++ [c]).
(** An occurrence in a text with an inserted piece that lacks the character lies before or after the insertion. *)
Lemma occurrence_cases a' b' a g b : c ∉ g → a' ++ w ++ b' = a ++ g ++ w ++ b →
  (∃ x, a = a' ++ w ++ x ∧ b' = x ++ g ++ w ++ b) ∨ (∃ y, a' = a ++ g ++ y ∧ y ++ w ++ b' = w ++ b).
Proof.
  intros Hg Heq. destruct (decide (length (a' ++ w) ≤ length a)) as [Hle|Hgt].
  - left. rewrite (assoc_L (++)) in Heq. apply app_eq_inv in Heq as [(k & Hk & Hb)|(k & Hk & Hb)].
    + exists []. assert (k = []) as -> by (apply length_zero_iff_nil; rewrite Hk, length_app in Hle; lia).
      cbn in Hb. rewrite app_nil_r in Hk. by rewrite <- Hb, <- Hk, app_nil_r.
    + exists k. rewrite Hk, Hb. by simplify_list_eq.
  - right. destruct (decide (length (a ++ g) ≤ length a')) as [Hle|Hlt].
    + rewrite (assoc_L (++) a) in Heq. apply app_eq_inv in Heq as [(k & Hk & Hb)|(k & Hk & Hb)].
      * exists k. by rewrite Hk, <- (assoc_L (++)).
      * exists []. assert (k = []) as -> by (apply length_zero_iff_nil; rewrite Hk, length_app in Hle; lia).
        cbn in Hb. rewrite app_nil_r in Hk. by rewrite <- Hk, app_nil_r.
    + exfalso. pose proof (f_equal (.!! (length a' + length w0)) Heq) as Hat. cbn in Hat.
      rewrite lookup_app_r, (lookup_app_l w) in Hat by (rewrite ?length_app; cbn; lia).
      replace (length a' + length w0 - length a') with (length w0) in Hat by lia.
      rewrite lookup_app_r, Nat.sub_diag in Hat by lia. rewrite lookup_app_r in Hat by (rewrite length_app in Hgt; cbn in Hgt; rewrite length_app in Hgt; cbn in Hgt; lia).
      rewrite !length_app in *. cbn in *. rewrite (assoc_L (++) g), (assoc_L (++) g), <- (assoc_L (++) (g ++ w0)), lookup_app_l in Hat by (rewrite length_app; lia).
      symmetry in Hat. apply list_elem_of_lookup_2, elem_of_app in Hat as [|]; done.
Qed.
Lemma marked_length : 0 < length w.
Proof. rewrite length_app. cbn. lia. Qed.
Lemma once_insert a g b : c ∉ g → once w a b → once w (a ++ g) b.
Proof.
  intros Hg Ho a' b' Heq. rewrite <- (assoc_L (++) a) in Heq. apply occurrence_cases in Heq as [(x & -> & ->)|(y & -> & Hy)]; [|..|done].
  - exfalso. assert (a' = a' ++ w ++ x) as Ha by (apply (Ho _ (x ++ w ++ b)); by simplify_list_eq).
    apply (f_equal length) in Ha. rewrite !length_app in Ha. cbn in Ha. lia.
  - assert (a ++ y = a) as Ha by (apply (Ho _ b'); by rewrite <- (assoc_L (++) a), Hy). apply app_self in Ha as ->. by rewrite app_nil_r.
Qed.
Lemma once_remove a g b : c ∉ g → once w (a ++ g) b → once w a b.
Proof.
  intros Hg Ho a' b' Heq. apply (occurrence_cases _ _ _ [] _ (not_elem_of_nil c)) in Heq as [(x & -> & ->)|(y & -> & Hy)].
  - exfalso. assert (a' = (a' ++ w ++ x) ++ g) as Ha by (apply (Ho _ (x ++ g ++ w ++ b)); by simplify_list_eq).
    apply (f_equal length) in Ha. rewrite !length_app in Ha. cbn in Ha. lia.
  - assert ((a ++ g) ++ y = a ++ g) as Ha by (apply (Ho _ b'); by rewrite <- (assoc_L (++) (a ++ g)), Hy). apply app_self in Ha as ->. by rewrite app_nil_r.
Qed.
Lemma occurrences_one l : occurrences w l = 1 ↔ ∃ a b, l = a ++ w ++ b ∧ once w a b.
Proof.
  unfold occurrences. pose proof marked_length as Hlen. split.
  - destruct l as [|d l]; [done|]. cbn [length split_text]. destruct (cut_first w (d :: l)) as [[a b]|] eqn:Hc; [|done].
    pose proof Hc as [Heq Hmin]%cut_first_some. intros H. cbn [length] in H.
    assert (cut_first w b = None) as Hb.
    { destruct l as [|d' l]; cbn [length split_text] in H.
      - apply (f_equal length) in Heq. rewrite !length_app in Heq. cbn in Heq. destruct b; [|cbn in Heq; lia]. cbn [cut_first].
        destruct (startsWith _ _) eqn:Hs; [|done]. apply starts_iff in Hs as [r Hr]. by destruct w0.
      - destruct (cut_first w b) as [[a1 b1]|]; [|done]. cbn [length] in H. by destruct (split_text (length l) w b1) eqn:?; [destruct (length l); cbn in *; destruct (cut_first w b1) as [[]|]|]. }
    exists a, b. split; [done|]. intros a' b' Ha.
    assert (length a ≤ length a') as Hle by (apply (Hmin _ b'); by rewrite Heq).
    symmetry in Ha. apply (occurrence_cases _ _ _ [] _ (not_elem_of_nil c)) in Ha as [(x & -> & Hx)|(y & -> & Hy)].
    + exfalso. by eapply (cut_first_none w b x b').
    + rewrite !length_app in Hle. destruct y; [by simplify_list_eq|cbn in Hle; lia].
  - intros (a & b & -> & Ho). rewrite length_app, length_app. destruct (_ + _) as [|n] eqn:Hn; [lia|]. cbn [split_text]. rewrite cut_first_once by done.
    assert (cut_first w b = None) as Hb.
    { destruct (cut_first w b) as [[a1 b1]|] eqn:Hb; [|done]. apply cut_first_some in Hb as [-> _].
      assert (a ++ w ++ a1 = a) as H by (apply (Ho _ b1); by simplify_list_eq). apply (f_equal length) in H. rewrite !length_app in H. cbn in H. lia. }
    by destruct n; cbn [split_text]; rewrite ?Hb.
Qed.
End marked.

(** * What the patch does *)

Definition call_text : list ascii := chars "        messages = handle_messages_with_content_list_to_str_conversion(messages".
Definition guard_text : list ascii := GUARD_LINE ++ newline :: chars "    ".
Lemma original_marked : ORIGINAL_LINE = call_text ++ [")"%char].
Proof. reflexivity. Qed.
Lemma patched_guard : PATCHED_BLOCK = guard_text ++ ORIGINAL_LINE.
Proof. reflexivity. Qed.
Lemma patched_marked : PATCHED_BLOCK = (guard_text ++ call_text) ++ [")"%char].
Proof. reflexivity. Qed.
Lemma call_unmarked : ")"%char ∉ call_text.
Proof. by apply (bool_decide_unpack _). Qed.
Lemma guard_unmarked : ")"%char ∉ guard_text.
Proof. by apply (bool_decide_unpack _). Qed.
Lemma block_unmarked : ")"%char ∉ guard_text ++ call_text.
Proof. by apply (bool_decide_unpack _). Qed.
Lemma original_unescaped : unescaped ORIGINAL_LINE.
Proof. by apply (bool_decide_unpack _). Qed.
Lemma patched_unescaped : unescaped PATCHED_BLOCK.
Proof. by apply (bool_decide_unpack _). Qed.
#[local] Opaque ORIGINAL_LINE PATCHED_BLOCK guard_text call_text.

Lemma original_one l : occurrences ORIGINAL_LINE l = 1 ↔ ∃ a b, l = a ++ ORIGINAL_LINE ++ b ∧ once ORIGINAL_LINE a b.
Proof. rewrite original_marked. apply occurrences_one, call_unmarked. Qed.
Lemma patched_one l : occurrences PATCHED_BLOCK l = 1 ↔ ∃ a b, l = a ++ PATCHED_BLOCK ++ b ∧ once PATCHED_BLOCK a b.
Proof. rewrite patched_marked. apply occurrences_one, block_unmarked. Qed.
Lemma split_nonempty n w l : split_text n w l ≠ [].
Proof. destruct n; cbn [split_text]; [done|]. by destruct (cut_first w l) as [[]|]. Qed.
Lemma occurrences_none w l a b : occurrences w l = 0 → w ≠ [] → l ≠ a ++ w ++ b.
Proof.
  intros H Hw ->. unfold occurrences in H. destruct w as [|d w]; [done|]. rewrite !length_app in H. cbn [length] in H.
  rewrite Nat.add_succ_l, Nat.add_succ_r in H. cbn [split_text] in H. destruct (cut_first _ _) as [[a1 b1]|] eqn:Hc; [|by eapply cut_first_none].
  cbn [length] in H. destruct (split_text _ _ b1) eqn:E; [by apply split_nonempty in E|cbn in H; lia].
Qed.
Lemma occurrences_absent w l : (∀ a b, l ≠ a ++ w ++ b) → occurrences w l = 0.
Proof.
  intros H. unfold occurrences. destruct (cut_first w l) as [[a b]|] eqn:Hc; [by apply cut_first_some in Hc as [Heq _]; destruct (H _ _ Heq)|].
  by destruct (length l); cbn [split_text]; rewrite ?Hc.
Qed.
Lemma replace_once w v a b : once w a b → unescaped v → replace_first w v (a ++ w ++ b) = a ++ v ++ b.
Proof. intros Ho Hv. unfold replace_first. by rewrite cut_first_once, substitution_id. Qed.

(** A text with the line to be patched, once. *)
Definition transform (a b : list ascii) : Prop := once ORIGINAL_LINE a b.
Lemma transform_patched a b : transform a b ↔ once ORIGINAL_LINE (a ++ guard_text) b.
Proof.
  unfold transform. rewrite original_marked.
  split; intros H; [apply once_insert|eapply once_remove, H]; auto using call_unmarked, guard_unmarked.
Qed.
Lemma patched_once a b : transform a b → once PATCHED_BLOCK a b.
Proof. intros H%transform_patched. rewrite patched_guard. by apply once_longer. Qed.
Lemma patched_text a b : a ++ PATCHED_BLOCK ++ b = (a ++ guard_text) ++ ORIGINAL_LINE ++ b.
Proof. rewrite patched_guard. by simplify_list_eq. Qed.

Section patch.
Context (sha256 : string → string) (expected : string).
Local Abbreviation patch := (λ s, patchDeepSeekVisionTransform sha256 s expected).
Lemma patch_of_original a b : transform a b → occurrences PATCHED_BLOCK (a ++ ORIGINAL_LINE ++ b) = 0 → sha256 (str (a ++ ORIGINAL_LINE ++ b)) = expected →
  patch (str (a ++ ORIGINAL_LINE ++ b)) = Ok (str (a ++ PATCHED_BLOCK ++ b)).
Proof.
  intros Ho H0 Hsha. unfold patchDeepSeekVisionTransform. rewrite chars_str, H0. rewrite (proj2 (original_one _)) by by exists a, b.
  cbn -[str replace_first]. rewrite Hsha, String.eqb_refl. cbn -[str replace_first]. by rewrite replace_once by auto using patched_unescaped.
Qed.
Lemma patch_of_patched a b : transform a b → sha256 (str (a ++ ORIGINAL_LINE ++ b)) = expected →
  patch (str (a ++ PATCHED_BLOCK ++ b)) = Ok (str (a ++ PATCHED_BLOCK ++ b)).
Proof.
  intros Ho Hsha. unfold patchDeepSeekVisionTransform. rewrite chars_str, (proj2 (patched_one _)) by (exists a, b; auto using patched_once).
  rewrite (proj2 (original_one _)) by (exists (a ++ guard_text), b; split; [apply patched_text|by apply (proj1 (transform_patched a b))]). cbn -[str replace_first].
  rewrite (replace_once PATCHED_BLOCK) by auto using patched_once, original_unescaped. rewrite Hsha, String.eqb_refl. cbn -[str replace_first].
  by rewrite replace_once by auto using patched_unescaped.
Qed.
Lemma unpatched_none a b : transform a b → (∀ a', a ≠ a' ++ guard_text) → occurrences PATCHED_BLOCK (a ++ ORIGINAL_LINE ++ b) = 0.
Proof.
  intros Ho Hfree. apply occurrences_absent. intros a' b' Heq. rewrite patched_text in Heq. symmetry in Heq. apply Ho in Heq. by destruct (Hfree a').
Qed.
(** The accepted texts: the pinned one, and the pinned one with the patch. *)
Lemma patch_cases source out : patch source = Ok out →
  ∃ a b, transform a b ∧ sha256 (str (a ++ ORIGINAL_LINE ++ b)) = expected ∧ out = str (a ++ PATCHED_BLOCK ++ b) ∧
    (source = out ∨ source = str (a ++ ORIGINAL_LINE ++ b) ∧ ∀ a', a ≠ a' ++ guard_text).
Proof.
  unfold patchDeepSeekVisionTransform. destruct (_ || _) eqn:Hshape; [done|]. destruct (occurrences PATCHED_BLOCK (chars source) =? 1) eqn:Hp; boolify.
  - destruct (proj1 (patched_one _) Hp) as (a & b & Hsrc & Hpo). assert (occurrences ORIGINAL_LINE (chars source) = 1) as H1.
    { destruct (occurrences ORIGINAL_LINE (chars source)) as [|[|]] eqn:E; [|done|lia].
      exfalso. rewrite Hsrc, patched_text in E. by eapply occurrences_none. }
    destruct (proj1 (original_one _) H1) as (a1 & b1 & Hsrc1 & Ho). rewrite Hsrc, patched_text in Hsrc1. assert (a1 = a ++ guard_text) as -> by (symmetry; by apply (Ho _ b)).
    apply app_inv_head, app_inv_head in Hsrc1 as <-. apply transform_patched in Ho. rewrite Hsrc.
    rewrite (replace_once PATCHED_BLOCK) by auto using original_unescaped. destruct (negb _) eqn:Hsha; [done|]. boolify.
    rewrite replace_once by auto using patched_unescaped. intros [= <-]. exists a, b. split_and!; [done..|]. left. by rewrite <- Hsrc, str_chars.
  - assert (occurrences PATCHED_BLOCK (chars source) = 0 ∧ occurrences ORIGINAL_LINE (chars source) = 1) as [H0 H1] by lia.
    destruct (proj1 (original_one _) H1) as (a & b & Hsrc & Ho). rewrite Hsrc. destruct (negb _) eqn:Hsha; [done|]. boolify.
    rewrite replace_once by auto using patched_unescaped. intros [= <-]. exists a, b. split_and!; [done..|]. right.
    split; [by rewrite <- Hsrc, str_chars|]. intros a' ->. rewrite Hsrc, <- patched_text in H0. by eapply occurrences_none.
Qed.
End patch.

(** C39: the vision patch of the gateway's transform accepts the pinned text and the pinned text with the patch, and
    nothing else, and gives the latter for both: the text up to the one call, the condition on the model in front of the
    indented call, and the text after it. The pinned text is the one with the expected hash and exactly one call, which
    does not stand under that condition already. So patching what was patched changes nothing. *)
Theorem patch_exact sha256 expected source out :
  (patchDeepSeekVisionTransform sha256 source expected = Ok out ↔
   ∃ a b, sha256 (str (a ++ ORIGINAL_LINE ++ b)) = expected ∧ once ORIGINAL_LINE a b ∧ out = str (a ++ PATCHED_BLOCK ++ b) ∧
     (source = out ∨ source = str (a ++ ORIGINAL_LINE ++ b) ∧ ∀ a', a ≠ a' ++ guard_text)) ∧
  (patchDeepSeekVisionTransform sha256 source expected = Ok out → patchDeepSeekVisionTransform sha256 out expected = Ok out).
Proof.
  split; [split|].
  - intros (a & b & Ho & Hsha & Hout & Hsrc)%patch_cases. by exists a, b.
  - intros (a & b & Hsha & Ho & -> & [->|[-> Hfree]]); [by apply patch_of_patched|]. apply patch_of_original; [done| |done].
    by apply unpatched_none.
  - intros (a & b & Ho & Hsha & -> & _)%patch_cases. by apply patch_of_patched.
Qed.
Lemma patch_exact_witness : let out := "def f(self, messages, model):" +:+ nl +:+ str PATCHED_BLOCK +:+ nl +:+ "        return messages" +:+ nl in
  patchDeepSeekVisionTransform (λ s, s) out demo_source = Ok out.
Proof. intros out. refine (proj2 (patch_exact (λ s, s) demo_source demo_source out) _). vm_compute. reflexivity. Defined.

(** ** The runtime that is patched *)

Lemma without_common_spec a b up down : without_common a b = (up, down) → ∃ c, a = c ++ up ∧ b = c ++ down.
Proof.
  revert b. induction a as [|x a IH]; intros [|y b]; cbn [without_common]; try (intros [= <- <-]; by exists []).
  destruct (x =? y)%string eqn:E; boolify; [subst y|intros [= <- <-]; by exists []]. intros (c & -> & ->)%IH. by exists (x :: c).
Qed.
Lemma inside_managed root active : outside (relative root active) = false → ∃ x l, names_on active = names_on root ++ x :: l.
Proof.
  unfold relative. destruct (without_common _ _) as [up down] eqn:E. apply without_common_spec in E as (c & -> & ->).
  destruct up as [|x up]; cbn [map app].
  - rewrite app_nil_r. destruct down as [|x l]; [done|]. intros _. by exists x, l.
  - intros H. exfalso. revert H. unfold outside. destruct (map _ up ++ down) as [|y l]; [done|].
    assert (startsWith "../" (join "/" (".." :: y :: l)) = true) as -> by (cbn [join]; by destruct (match l with [] => y | _ :: _ => _ end)). by rewrite !orb_true_r.
Qed.
(** the file that is patched belongs to the managed runtime: the resolved runtime lies strictly below the resolved
    directory of versions, whatever the names on the way begin with; it has one library directory of Python; and the
    requirements pin the version the patch was written for. *)
Theorem target_managed requirements versionsRoot activeVenv libraries target :
  targetTransform requirements versionsRoot activeVenv libraries = Ok target →
  ∃ text root active all dir, requirements = Ok text ∧ versionsRoot = Ok root ∧ activeVenv = Ok active ∧ libraries = Ok all ∧
    requires_pinned text = true ∧ (∃ x l, names_on active = names_on root ++ x :: l) ∧ filter (λ s, python_dir s = true) all = [dir] ∧
    target = active +:+ "/lib/" +:+ dir +:+ "/site-packages/litellm/llms/deepseek/chat/transformation.py".
Proof.
  unfold targetTransform. intros H. destruct requirements as [text|]; [|done].
  destruct (requires_pinned text) eqn:Hpin; [|by cbn in H; rewrite Hpin in H]. destruct versionsRoot as [root|]; [|by cbn in H; rewrite Hpin in H].
  cbn in H. rewrite Hpin in H. destruct activeVenv as [active|]; [|done]. cbn in H.
  destruct (outside (relative root active)) eqn:Hout; [done|]. destruct libraries as [all|]; [|done]. cbn in H.
  destruct (filter _ all) as [|dir [|]] eqn:Hf; [done| |done]. injection H as <-.
  exists text, root, active, all, dir. split_and!; [done..| |done|done]. by apply inside_managed.
Qed.
Lemma target_managed_witness : ∃ x l, names_on "/srv/.litellm-venvs/1.92.0" = names_on "/srv/.litellm-venvs" ++ x :: l.
Proof.
  destruct (target_managed (Ok ("litellm[proxy]==1.92.0" +:+ nl)) (Ok "/srv/.litellm-venvs") (Ok "/srv/.litellm-venvs/1.92.0") (Ok ["python3.12"])
    "/srv/.litellm-venvs/1.92.0/lib/python3.12/site-packages/litellm/llms/deepseek/chat/transformation.py" eq_refl)
    as (text & root & active & all & dir & _ & [= <-] & [= <-] & _ & _ & H & _). exact H.
Defined.

(** * The replacement of the file *)

(** The group of a file has no state here. *)
Definition with_owner (u : Z) (f : Inode) : Inode := {| regular := regular f; link := link f; fmode := fmode f; owner := u; text := text f |}.
Definition at_path (path : string) (g : Inode → Inode) : M Disk unit := λ d,
  match dir d !! path with Some i => change_file i g d | None => (Throw (Error "ENOENT"), d) end.
(** An existing file is emptied, and keeps its mode. *)
Definition openWrite (path : string) (user mode : Z) : M Disk Z := λ d,
  match file_at d path with
  | Some (i, f) => (Ok i, set_inode i (with_text "" f) d)
  | None => openExclusive path user mode d
  end.

Section run.
Context (others : nat → World → World) (fails : nat → option exn) (user : Z) (sha256 : string → string).
Local Abbreviation State := (Session World).
Local Abbreviation sys m := (call others fails (on_disk m)).
(** The permissions of a file, without the kind. *)
Definition permissions (mode : Z) : Z := Z.land mode 511.
Definition writeTemporary (target temporary : string) (stat : Inode) (patched : string) (n : nat) : M State unit :=
  fd ← sys (openWrite temporary user (permissions (fmode stat)));
  _ ← closing others fails (writeFileSync others fails fd patched n);
  _ ← sys (at_path temporary (with_owner (owner stat)));
  _ ← sys (chmodSync temporary (permissions (fmode stat)));
  sys (renameSync temporary target).
(** What was found, whether it was changed, and the hash. *)
Definition patchInstalledLiteLLM (target temporary expected : string) (n : nat) : M State (bool * string) :=
  stat ← sys (lstatSync target);
  _ ← guard_throw (negb (regular stat.2) || link stat.2) (Error "LiteLLM transform must be a regular file");
  fd ← sys (openRead target);
  source ← closing others fails (sys (readDescriptor fd));
  patched ← lift (patchDeepSeekVisionTransform sha256 source expected);
  if (patched =? source)%string then mret (false, sha256 patched)
  else
    _ ← try_catch (writeTemporary target temporary stat.2 patched n)
          (λ er, _ ← ignore_error (sys (unlinkSync temporary)); raise er);
    mret (true, sha256 patched).
End run.

(** The other processes leave the two files alone. *)
Section whole.
Context (others : nat → World → World) (fails : nat → option exn) (user : Z) (path tmp : string) (Hne : path ≠ tmp).
Context (Hothers : ∀ n w, view path tmp (others n w) = view path tmp w).
Local Abbreviation State := (Session World).
Local Abbreviation triple := (triple path tmp).
Local Abbreviation sys m := (call others fails (on_disk m)).
Context (i : Z) (f : Inode).
Local Abbreviation before := (λ v, v = (Some (i, f), None)).
Local Abbreviation kept := (λ v : option (Z * Inode) * option (Z * Inode), v.1 = Some (i, f)).
(** The file that replaces the transform. *)
Definition patched_file (t : string) : Inode := {| regular := true; link := false; fmode := permissions (fmode f); owner := owner f; text := t |}.
Definition regular_file (x : Inode) : Prop := regular x = true ∧ link x = false.

Lemma triple_openWrite mode : triple before (sys (openWrite tmp user mode))
  (λ r v, match r with Ok fd => staged i f fd regular_file v | Throw _ => kept v end).
Proof.
  apply triple_disk; [done| |by intros er v ->]. intros d [= Hp Ht]. unfold openWrite. rewrite Ht. unfold openExclusive.
  destruct (isSome (dir d !! tmp)); [done|]. cbn [fst snd]. set (j := base.fresh (dom (inodes d))).
  assert (Hj : j ∉ dom (inodes d)) by apply is_fresh. apply file_at_inode in Hp as [H1 H2].
  assert (j ≠ i) as Hji by (intros ->; apply Hj, elem_of_dom; by eexists).
  unfold staged, file_at. cbn [dir inodes fst snd]. rewrite !lookup_insert_eq, lookup_insert_ne, H1, lookup_insert_ne, H2 by congruence.
  split_and!; [done..|]. by eexists.
Qed.
Lemma triple_at_path fd g (P Q : Inode → Prop) : (∀ x, P x → Q (g x)) → triple (staged i f fd P) (sys (at_path tmp g))
  (λ r v, match r with Ok _ => staged i f fd Q v | Throw _ => kept v end).
Proof.
  intros Hg. apply triple_disk; [done| |by intros er v (_ & ? & _)]. intros d Hd. pose proof Hd as (Hfd & Hp & x & Hx & HP). cbn [fst snd] in Hp, Hx.
  unfold at_path, change_file. destruct (file_at_inode _ _ _ _ Hx) as [H1 H2]. rewrite H1, H2. cbn [fst snd]. rewrite !file_at_set, Hp, Hx.
  unfold staged. cbn [fst snd]. rewrite (decide_False (P := i = fd)) by congruence. rewrite decide_True by done. split_and!; [done..|]. exists (g x). auto.
Qed.
Lemma chmod_at_path path' mode : chmodSync path' mode = at_path path' (with_mode mode).
Proof. reflexivity. Qed.
(** A change through the descriptor. *)
Lemma triple_fd fd g (P Q : Inode → Prop) : (∀ x, P x → Q (g x)) → triple (staged i f fd P) (sys (change_file fd g))
  (λ r v, match r with Ok _ => staged i f fd Q v | Throw _ => kept v end).
Proof. intros Hg. eapply triple_weaken; [by apply triple_change|done|]. intros [] v; [done|by apply staged_kept]. Qed.
Definition replaced_with (t : string) (r : res unit) (v : option (Z * Inode) * option (Z * Inode)) : Prop :=
  match r with Ok _ => ∃ fd, v = (Some (fd, patched_file t), None) | Throw _ => kept v end.
Lemma triple_temporary t n : triple before (writeTemporary others fails user path tmp f t n) (replaced_with t).
Proof.
  eapply triple_bind; [apply triple_openWrite|intros fd|done].
  apply (triple_bind _ _ _ _ _ (λ r v, match r with Ok _ => staged i f fd (λ x, regular_file x ∧ text x = t) v | Throw _ => kept v end)); [|intros u|done].
  { apply triple_closing; [done| |by intros a er v; apply staged_kept|done].
    eapply triple_bind; [by apply (triple_fd _ _ _ regular_file)|intros u|done]. by apply triple_fd. }
  eapply triple_bind; [by apply (triple_at_path _ _ _ (λ x, regular_file x ∧ text x = t ∧ owner x = owner f)); intros x [? ?]|intros u'|done].
  rewrite chmod_at_path. eapply triple_bind; [apply (triple_at_path _ _ _ (λ x, x = patched_file t))|intros u''|done].
  - intros [] ([] & ? & ?). cbn in *. by subst.
  - eapply triple_weaken; [by apply (triple_rename _ _ _ _ Hne Hothers i f fd (patched_file t))|done|]. intros [a|er] v; [by exists fd|by apply staged_kept].
Qed.
Definition patch_left (sha256 : string → string) (expected : string) (r : res (bool * string)) (v : option (Z * Inode) * option (Z * Inode)) : Prop :=
  match r with
  | Ok (true, h) => ∃ t fd, patchDeepSeekVisionTransform sha256 (text f) expected = Ok t ∧ h = sha256 t ∧ v = (Some (fd, patched_file t), None)
  | Ok (false, _) => patchDeepSeekVisionTransform sha256 (text f) expected = Ok (text f) ∧ kept v
  | Throw _ => kept v
  end.
Lemma triple_patch sha256 expected n : triple before (patchInstalledLiteLLM others fails user sha256 path tmp expected n) (patch_left sha256 expected).
Proof.
  unfold patchInstalledLiteLLM. apply (triple_known _ _ _ before (i, f)); [| |by intros er v ->].
  { apply triple_disk; [done| |done]. intros d Hd. pose proof Hd as [= Hp _]. unfold lstatSync. by rewrite Hp. }
  cbn [fst snd]. apply (triple_bind _ _ _ _ _ (λ _, before)); [by apply triple_guard|intros u|by intros er v ->].
  apply (triple_known _ _ _ before i); [by apply triple_open| |by intros er v ->].
  apply (triple_known _ _ _ before (text f)); [|clear u|by intros er v ->].
  { apply triple_closing; [done|by apply triple_read; [..|intros v ->]|by intros a er v [? _]|by intros er er' v [? _]]. }
  destruct (patchDeepSeekVisionTransform sha256 (text f) expected) as [t|er] eqn:Ht; [|intros s Hs; exact (f_equal fst Hs)].
  apply (triple_known _ _ _ before t); [by intros s| |by intros er v ->]. destruct (t =? text f)%string eqn:E; boolify.
  - apply triple_ret. intros v ->. subst t. done.
  - apply (triple_bind _ _ _ _ _ (replaced_with t)); [|intros u|by intros er v].
    + apply (triple_try _ _ _ _ _ (replaced_with t)); [apply triple_temporary|done|]. intros er.
      apply (triple_bind _ _ _ _ _ (λ _, kept)); [|intros u; by apply triple_raise|done].
      apply (triple_try _ _ _ _ _ (λ _, kept)); [by apply triple_unlink|done|intros er'; by apply triple_ret].
    + apply triple_ret. intros v [fd ->]. by exists t, fd.
Qed.
End whole.

(** the transform is replaced as a whole or not at all. Whatever call fails, and whatever other processes do elsewhere:
    when the run reports a change, the name leads to a new file with exactly the patched text, the permissions and the
    owner of the old one, and no temporary file is left; otherwise it leads to the file that was there, which is already
    patched when the run reports that. *)
Theorem transform_all_or_nothing others fails user sha256 path tmp expected n s r s' i f :
  path ≠ tmp → (∀ j w, view path tmp (others j w) = view path tmp w) →
  file_at (disk (db s)) path = Some (i, f) → file_at (disk (db s)) tmp = None →
  patchInstalledLiteLLM others fails user sha256 path tmp expected n s = (r, s') →
  match r with
  | Ok (true, _) => ∃ t fd, patchDeepSeekVisionTransform sha256 (text f) expected = Ok t ∧
      file_at (disk (db s')) path = Some (fd, patched_file f t) ∧ file_at (disk (db s')) tmp = None
  | Ok (false, _) => patchDeepSeekVisionTransform sha256 (text f) expected = Ok (text f) ∧ file_at (disk (db s')) path = Some (i, f)
  | Throw _ => file_at (disk (db s')) path = Some (i, f)
  end.
Proof.
  intros Hne Hothers Hf Htmp Hrun. pose proof (triple_patch others fails user path tmp Hne Hothers i f sha256 expected n s) as Ht.
  rewrite Hrun in Ht. specialize (Ht ltac:(unfold view; by rewrite Hf, Htmp)). cbn [fst snd] in Ht. destruct r as [[[] h]|er]; [|exact Ht|exact Ht].
  destruct Ht as (t & fd & Ht & _ & [= H1 H2]). by exists t, fd.
Qed.
Definition demo_target : World :=
  {| disk := {| dir := {[ "/t.py" := 1%Z ]}; inodes := {[ 1%Z := {| regular := true; link := false; fmode := 33188; owner := 7; text := demo_source |} ]} |};
     store := {| secrets := []; systemAudits := [] |}; activation := None; children := []; requests := [] |}.
Lemma transform_all_or_nothing_witness : ∃ s' t fd,
  patchInstalledLiteLLM alone no_fault 7 (λ s, s) "/t.py" "/t.tmp" demo_source 3 {| db := demo_target; calls := 0 |} = (Ok (true, t), s') ∧
  file_at (disk (db s')) "/t.py" = Some (fd, {| regular := true; link := false; fmode := 420; owner := 7; text := t |}).
Proof.
  destruct (patchInstalledLiteLLM alone no_fault 7 (λ s, s) "/t.py" "/t.tmp" demo_source 3 {| db := demo_target; calls := 0 |}) as [r s'] eqn:E.
  pose proof (transform_all_or_nothing alone no_fault 7 (λ s, s) "/t.py" "/t.tmp" demo_source 3 {| db := demo_target; calls := 0 |} r s' 1
    {| regular := true; link := false; fmode := 33188; owner := 7; text := demo_source |} ltac:(discriminate) (λ _ _, eq_refl) eq_refl eq_refl E) as H.
  destruct (patchDeepSeekVisionTransform (λ s, s) demo_source demo_source) as [t|] eqn:Et; [|exfalso; revert Et; vm_compute; discriminate].
  assert (r = Ok (true, t)) as -> by (revert E Et; vm_compute; by intros [= <- _] [= <-]). destruct H as (t' & fd & Ht & Hp & _).
  cbn [text] in Ht. rewrite Et in Ht. injection Ht as <-. exists s', t, fd. split; [reflexivity|exact Hp].
Defined.
