(* ===== verification/Watchdog.v ===== *)
(** The bounded run of a command ([scripts/run-with-timeout.mjs]): the arguments it accepts, and what it does on the
    events of its two timers and of the child, in any order the runtime delivers them. *)
From S2P Require Import Prelude Js.
Local Open Scope Z_scope.

(** * The arguments *)

(** The command with its arguments and the delay of the timer in milliseconds; [None]: the usage is printed and the
    process exits with 2. *)
Definition MAX_DELAY : Z := 2147483647.
(** What [setTimeout] makes of a delay: one that does not fit in 31 bits, or is below one, is one millisecond. *)
Definition timer_delay (ms : Q) : Z := if Qle_bool (inject_Z (MAX_DELAY + 1)) ms || negb (Qle_bool 1 ms) then 1 else Qfloor ms.
Definition accept (argv : list string) : option (string * list string * Z) :=
  match argv with
  | s :: command :: args =>
      match Number_str s with
      | Num seconds => if Qle_bool seconds 0 || negb (truthy command) then None else Some (command, args, timer_delay (seconds * 1000))
      | _ => None
      end
  | _ => None
  end.
Example accept_sample : accept ["1.5"; "sleep"; "9"] = Some ("sleep", ["9"], 1500) ∧ accept ["0"; "x"] = None ∧ accept ["abc"; "x"] = None ∧ accept ["5"] = None.
Proof. split_and!; vm_compute; reflexivity. Qed.
(** A limit of thirty days is one millisecond: the command is stopped at once. *)
Example thirty_days : accept ["2592000"; "backup"] = Some ("backup", [], 1) ∧ accept ["2147483"; "backup"] = Some ("backup", [], 2147483000).
Proof. split; vm_compute; reflexivity. Qed.

(** * The run *)

Inductive signal := SIGTERM | SIGKILL.
(** An event of the runtime. [delivered]: the signal of a timer is sent, or there is no such process; otherwise sending
    fails in another way, which nothing catches. *)
Inductive event :=
  | TimerFires (delivered : bool)
  | ForceFires (delivered : bool)
  | ChildError
  | ChildExit (code : option Z) (by_signal : bool).
(** Which timers are set, the signals that were sent to the child's group, and the exit code when it is settled; [crashed]: an error was not caught. *)
Record Watch := { timer : bool; force : bool; timedOut : bool; signals : list signal; exitCode : option Z; crashed : bool }.
Definition started : Watch := {| timer := true; force := false; timedOut := false; signals := []; exitCode := None; crashed := false |}.
Definition terminate (s : signal) (delivered : bool) (w : Watch) : Watch :=
  {| timer := timer w; force := force w; timedOut := timedOut w; signals := signals w ++ (if delivered then [s] else []); exitCode := exitCode w;
     crashed := negb delivered |}.
(** Both timers are cleared. *)
Definition settle (code : Z) (w : Watch) : Watch :=
  {| timer := false; force := false; timedOut := timedOut w; signals := signals w; exitCode := Some code; crashed := crashed w |}.
Definition exit_code (w : Watch) (code : option Z) (by_signal : bool) : Z :=
  if timedOut w then 124 else match code with Some c => c | None => if by_signal then 128 else 1 end.
Definition on_event (w : Watch) (ev : event) : Watch :=
  if crashed w then w
  else match ev with
  | TimerFires delivered =>
      if timer w then
        let w1 := terminate SIGTERM delivered {| timer := false; force := force w; timedOut := true; signals := signals w; exitCode := exitCode w; crashed := false |} in
        if delivered then {| timer := timer w1; force := true; timedOut := timedOut w1; signals := signals w1; exitCode := exitCode w1; crashed := crashed w1 |} else w1
      else w
  | ForceFires delivered =>
      if force w then
        terminate SIGKILL delivered {| timer := timer w; force := false; timedOut := timedOut w; signals := signals w; exitCode := exitCode w; crashed := false |}
      else w
  | ChildError => settle 127 w
  | ChildExit code by_signal => settle (exit_code w code by_signal) w
  end.
Definition watch (l : list event) : Watch := fold_left on_event l started.
Definition ends_run (ev : event) : bool := match ev with ChildError | ChildExit _ _ => true | _ => false end.

(** The signals follow the timers, and the timers follow the signals. *)
Definition coherent (w : Watch) : Prop :=
  (timer w = true → timedOut w = false ∧ force w = false ∧ exitCode w = None) ∧
  (force w = true → signals w = [SIGTERM] ∧ exitCode w = None) ∧
  (timedOut w = false → signals w = [] ∧ crashed w = false) ∧
  (timedOut w = true → crashed w = true ∨ signals w = [SIGTERM] ∨ signals w = [SIGTERM; SIGKILL]) ∧
  (signals w = [] ∨ signals w = [SIGTERM] ∨ signals w = [SIGTERM; SIGKILL]).
Lemma coherent_event w ev : coherent w → coherent (on_event w ev).
Proof.
  intros H. unfold on_event. destruct w as [t f o l c cr]; cbn [timer force timedOut signals exitCode crashed] in *.
  destruct cr; [done|]. destruct H as (H1 & H2 & H3 & H4 & H5); cbn [timer force timedOut signals exitCode crashed] in *.
  destruct ev as [[]|[]| |code by_signal]; cbn; try destruct t; try destruct f; unfold coherent; cbn; try (split_and!; naive_solver).
Qed.
Lemma coherent_watch l : coherent (watch l).
Proof.
  unfold watch. assert (coherent started) as H by (unfold coherent; cbn; naive_solver). revert H. generalize started.
  induction l as [|ev l IH]; intros w Hw; [done|]. by apply IH, coherent_event.
Qed.
(** Once the child is gone, timers and signals are. *)
Lemma quiet_event w ev : timer w = false → force w = false → signals (on_event w ev) = signals w ∧ timer (on_event w ev) = false ∧ force (on_event w ev) = false.
Proof. intros Ht Hf. unfold on_event. destruct (crashed w); [done|]. destruct ev; rewrite ?Ht, ?Hf; done. Qed.
Lemma quiet_events l w : timer w = false → force w = false → signals (fold_left on_event l w) = signals w.
Proof.
  revert w. induction l as [|ev l IH]; intros w Ht Hf; [done|]. destruct (quiet_event w ev Ht Hf) as (Hs & Ht' & Hf'). cbn. by rewrite IH.
Qed.

(** in whatever order the timers and the child make themselves known: the child's group is first asked to stop and
    only then killed, each at most once; once the child ended or could not be started, no signal is sent to a group that
    may be another's; and when it ends, the exit code is 124 if it had been asked to stop, and otherwise its own, 128 for
    a signal. *)
Theorem watchdog_contract l :
  (∃ m, signals (watch l) ++ m = [SIGTERM; SIGKILL]) ∧
  (∀ l1 ev l2, l = l1 ++ ev :: l2 → ends_run ev = true → crashed (watch l1) = false → signals (watch l) = signals (watch l1)) ∧
  (∀ l1 code by_signal, l = l1 ++ [ChildExit code by_signal] → crashed (watch l1) = false →
    exitCode (watch l) = Some (if decide (signals (watch l1) = []) then match code with Some c => c | None => if by_signal then 128 else 1 end else 124)).
Proof.
  split_and!.
  - destruct (coherent_watch l) as (_ & _ & _ & _ & [->| [->| ->]]); by eexists.
  - intros l1 ev l2 -> Hev Hc. unfold watch. rewrite fold_left_app. cbn [fold_left]. fold (watch l1). unfold on_event at 2. rewrite Hc.
    by destruct ev; [done|done|rewrite quiet_events..].
  - intros l1 code by_signal -> Hc. unfold watch. rewrite fold_left_app. cbn [fold_left]. fold (watch l1). unfold on_event. rewrite Hc. cbn. f_equal.
    destruct (coherent_watch l1) as (_ & _ & H3 & H4 & _). unfold exit_code. destruct (timedOut (watch l1)).
    + destruct (H4 eq_refl) as [?|[->| ->]]; [congruence|done..].
    + destruct (H3 eq_refl) as [-> _]. done.
Qed.
Example watch_sample : exitCode (watch [TimerFires true; ForceFires true; ChildExit None true]) = Some 124 ∧
  signals (watch [TimerFires true; ForceFires true; ChildExit None true]) = [SIGTERM; SIGKILL] ∧
  signals (watch [TimerFires true; ChildExit (Some 0) false; ForceFires true]) = [SIGTERM] ∧ exitCode (watch [ChildExit (Some 3) false; TimerFires true]) = Some 3.
Proof. split_and!; reflexivity. Qed.
Lemma watchdog_contract_witness :
  signals (watch [TimerFires true; ChildExit (Some 0) false; ForceFires true]) = [SIGTERM] ∧
  exitCode (watch [TimerFires true; ChildExit (Some 0) false]) = Some 124.
Proof.
  split.
  - refine (proj1 (proj2 (watchdog_contract [TimerFires true; ChildExit (Some 0) false; ForceFires true]))
      [TimerFires true] (ChildExit (Some 0) false) [ForceFires true] eq_refl eq_refl eq_refl).
  - refine (proj2 (proj2 (watchdog_contract [TimerFires true; ChildExit (Some 0) false])) [TimerFires true] (Some 0) false eq_refl eq_refl).
Defined.
