(* ===== verification/Embed.v ===== *)
(** The embedding client ([src/embed/embedding.service.ts]): when it is enabled, the request it sends, and what it makes of
    the answer. The network behind the outbound guard and the parsing of JSON are parameters. *)
From S2P Require Import Prelude Js Ssrf Litellm.
Local Open Scope Z_scope.

Section embed.
Context (e : env) (JSON_parse : string → option json).
Context (isIPv6 : string → bool) (URL : string → option url) (resolve : string → string → option string).
(** What the hops of the request with these headers and this body meet. *)
Context (lookup_at : nat → string → res (list string)) (fetch_at : list (string * string) → string → nat → string → res Response).

(** [s.replace(/\/$/, "")] *)
Definition base : string :=
  let s := nullish (e "HARA_EMBED_BASE_URL") "" in match reverse (chars s) with "/"%char :: l => str (reverse l) | _ => s end.
Definition modelId : string := nullish (e "HARA_EMBED_MODEL") "".
Definition key : string := nullish (e "HARA_EMBED_API_KEY") "".
Definition enabled : bool := truthy base && truthy modelId.
Definition headers : list (string * string) :=
  ("content-type", "application/json") :: (if truthy key then [("authorization", "Bearer " +:+ key)] else []).
Definition body (texts : list string) : string :=
  JSON_stringify (JObj [("model", JStr modelId); ("input", JArr (map JStr texts))]).
(** The answer's vectors, of any type, as the client does not check it. *)
Definition vectors (answer : Response) : res (list (option json)) :=
  if negb ((200 <=? status_ answer) && (status_ answer <=? 299)) then
    t ← text answer; Throw (Error ("embeddings HTTP " +:+ pretty (status_ answer) +:+ ": " +:+ slice0 200 t))
  else
    t ← text answer;
    match JSON_parse t with
    | None => Throw (Error "Unexpected token")
    | Some j =>
        data ← member j "data";
        match data with
        | Some (JArr l) => mapM (λ d, member d "embedding") l
        | _ => Throw (Error "j.data.map is not a function")
        end
    end.
(** The vectors, [None] for no request, and the URLs fetched; without a limit on redirects a request may not end. *)
Definition embed (texts : list string) : option (res (option (list (option json))) * list (nat * string)) :=
  if negb enabled || (length texts =? 0)%nat then Some (Ok None, [])
  else
    match safeFetch isIPv6 URL resolve lookup_at (fetch_at headers (body texts)) (base +:+ "/embeddings") (loadSsrfPolicy e) with
    | Some (r, trace) => Some (answer ← r; Some <$> vectors answer, trace)
    | None => None
    end.
(** The first vector; undefined when the answer has none. *)
Definition first (v : option (list (option json))) : option (option json) := (λ l, nullish (l !! 0%nat) None) <$> v.
Definition embedOne (t : string) : option (res (option (option json)) * list (nat * string)) :=
  match embed [t] with Some (r, trace) => Some (first <$> r, trace) | None => None end.
Definition toVectorLiteral (vec : list Q) : string := "[" +:+ join "," (map num_toString vec) +:+ "]".
End embed.

(** What a request is and where it may go. *)
Section laws.
Context (e : env) (JSON_parse : string → option json).
Context (isIPv6 : string → bool) (URL : string → option url) (resolve : string → string → option string).
Context (lookup_at : nat → string → res (list string)) (fetch_at : list (string * string) → string → nat → string → res Response).
Local Abbreviation embed := (embed e JSON_parse isIPv6 URL resolve lookup_at fetch_at).
Lemma embed_disabled texts : enabled e = false ∨ texts = [] → embed texts = Some (Ok None, []).
Proof. unfold Embed.embed. intros [->| ->]; [done|]. by rewrite orb_true_r. Qed.
Lemma embed_checked texts r trace : embed texts = Some (r, trace) →
  Forall (λ p, assertUrlAllowed isIPv6 URL (lookup_at p.1) p.2 (loadSsrfPolicy e) = Ok tt) trace ∧
  ((enabled e = true ∧ texts ≠ []) ∨ r = Ok None ∧ trace = []).
Proof.
  unfold Embed.embed. destruct (negb (enabled e) || _) eqn:Hoff; [intros [= <- <-]; split; [constructor|by right]|].
  apply orb_false_iff in Hoff as [Hen%negb_false_iff Ht%Nat.eqb_neq].
  destruct (safeFetch _ _ _ _ _ _ _) as [[r' trace']|] eqn:Hf; [|done]. intros [= <- <-]. apply fetch_from_spec in Hf as (Hall & _).
  split; [|left; split; [done|by intros ->]]. eapply Forall_impl; [exact Hall|]. by intros [n u] (_ & _ & ?).
Qed.
End laws.

(** an embedding request leaves the box only when the client is configured and there is a text, and then only to URLs
    that the outbound guard accepts, redirects included; without a configuration or a text the answer is none and nothing
    is sent. One text yields at most the first vector of the same answer. *)
Theorem embed_outgoing e JSON_parse isIPv6 URL resolve lookup_at fetch_at texts r trace :
  embed e JSON_parse isIPv6 URL resolve lookup_at fetch_at texts = Some (r, trace) →
  Forall (λ p, assertUrlAllowed isIPv6 URL (lookup_at p.1) p.2 (loadSsrfPolicy e) = Ok tt) trace ∧
  (enabled e = false ∨ texts = [] → r = Ok None ∧ trace = []) ∧
  (∀ t, texts = [t] → embedOne e JSON_parse isIPv6 URL resolve lookup_at fetch_at t = Some (first <$> r, trace)).
Proof.
  intros H. split_and!.
  - by eapply embed_checked.
  - intros Hoff. rewrite (embed_disabled _ _ _ _ _ _ _ _ Hoff) in H. by injection H as <- <-.
  - intros t ->. unfold embedOne. by rewrite H.
Qed.
Definition embed_env : env := λ k,
  if (k =? "HARA_EMBED_BASE_URL")%string then Some "https://e/v1/" else if (k =? "HARA_EMBED_MODEL")%string then Some "m" else None.
Definition embed_url (s : string) : option url :=
  Some {| protocol := "https:"; hostname := "1.2.3.4"; username := ""; password := ""; pathname := "/v1/embeddings"; search := ""; hash := ""; origin := "https://e"; href := s |}.
Definition embed_answer : Response := {| status_ := 200; location := None; content_length := None; text := Ok "vectors" |}.
Definition embed_parse (_ : string) : option json := Some (JObj [("data", JArr [JObj [("embedding", JArr [JNum 1; JNum (1 # 2)])]])]).
Definition demo_embed (texts : list string) : option (res (option (list (option json))) * list (nat * string)) :=
  embed embed_env embed_parse (λ _, false) embed_url (λ _ _, None) (λ _ _, Ok []) (λ _ _ _ _, Ok embed_answer) texts.
Lemma embed_outgoing_witness :
  demo_embed ["hello"] = Some (Ok (Some [Some (JArr [JNum 1; JNum (1 # 2)])]), [(0%nat, "https://e/v1/embeddings")]) ∧
  Forall (λ p, assertUrlAllowed (λ _, false) embed_url (λ _, Ok []) p.2 (loadSsrfPolicy embed_env) = Ok tt) [(0%nat, "https://e/v1/embeddings")].
Proof.
  split; [vm_compute; reflexivity|].
  refine (proj1 (embed_outgoing embed_env embed_parse (λ _, false) embed_url (λ _ _, None) (λ _ _, Ok []) (λ _ _ _ _, Ok embed_answer) ["hello"]
    (Ok (Some [Some (JArr [JNum 1; JNum (1 # 2)])])) [(0%nat, "https://e/v1/embeddings")] _)).
  vm_compute. reflexivity.
Defined.
Example literal_sample : toVectorLiteral [1; 1 # 2; (-3)]%Q = "[1,0.5,-3]".
Proof. vm_compute. reflexivity. Qed.
