(* ===== verification/I18n.v ===== *)
(** The languages of the console: the three dictionaries ([src/public/console/i18n]) and the lookup, the choice of the
    language and the substitution of parameters of [I18N] in [src/public/console/app.js]. Texts are UTF-8. *)
From S2P Require Import Prelude Js.
Local Open Scope nat_scope.

(** * The dictionaries *)

Definition dictionary : Type := list (string * string).
Definition en_chrome : dictionary := [
  ("app.title", "hara-control");
  ("app.subtitle", "console");
  ("app.tagline", "self-hosted control plane");
  ("nav.overview", "Overview");
  ("nav.orgs", "Orgs");
  ("nav.fleet", "Fleet");
  ("nav.usage", "Usage");
  ("nav.learnings", "Learning");
  ("nav.tickets", "Tickets");
  ("nav.crashes", "Crash reports");
  ("nav.enroll", "Enroll codes");
  ("nav.users", "Users");
  ("nav.security", "Security");
  ("nav.gateway_status", "Gateway");
  ("top.logout", "Sign out");
  ("top.language", "Language");
  ("crumb.overview", "Overview");
  ("crumb.orgs", "Orgs");
  ("crumb.fleet", "Fleet");
  ("crumb.usage", "Usage");
  ("crumb.learnings", "Learning");
  ("crumb.tickets", "Tickets");
  ("crumb.crashes", "Crash reports");
  ("crumb.enroll", "Enroll codes");
  ("crumb.users", "Users");
  ("crumb.security", "Security");
  ("login.title", "Sign in");
  ("login.email", "Email");
  ("login.email.placeholder", "you@nanhara.tech");
  ("login.password", "Password");
  ("login.password.placeholder", "your password");
  ("login.code", "6-digit code");
  ("login.code.placeholder", "123456");
  ("login.code.hint", "Open your authenticator app.");
  ("login.submit", "Sign in");
  ("login.verify", "Verify");
  ("login.footer", "self-hosted control plane · /auth/login");
  ("overview.kpi.orgs", "Orgs");
  ("overview.kpi.devices_online", "Devices online");
  ("overview.kpi.activity_today", "Activity today");
  ("overview.kpi.users", "Users");
  ("overview.placeholder", "Live counter coming soon");
  ("overview.placeholder.note", "(no stats endpoint yet — showing what we can derive from the lists)");
  ("overview.section.recent_enroll", "Recent enrollments");
  ("overview.section.heartbeat", "Gateway heartbeat");
  ("overview.empty.recent_enroll", "Nothing yet — mint a code under Enroll codes.");
  ("overview.heartbeat.placeholder", "Live ping not wired yet — gateway health surfaces in the sidebar.")].
Definition en_orgs : dictionary := [
  ("orgs.hint", "Create org units (groups, companies, departments, teams) and inspect the tree.");
  ("orgs.new.section", "Create org");
  ("orgs.new.name", "Name");
  ("orgs.new.name.placeholder", "Acme Inc.");
  ("orgs.new.type", "Type");
  ("orgs.new.parent", "Parent org id");
  ("orgs.new.parent.placeholder", "optional — leave blank for a root org");
  ("orgs.new.create", "Create");
  ("orgs.new.created", "Created");
  ("orgs.inspect.section", "Inspect org");
  ("orgs.inspect.id", "Org ID");
  ("orgs.inspect.id.placeholder", "paste an org id…");
  ("orgs.inspect.go", "Inspect");
  ("orgs.inspect.ancestors", "Ancestors (root → self)");
  ("orgs.inspect.subtree", "Subtree IDs");
  ("orgs.inspect.subtree.count", "{n} descendants (including self)");
  ("orgs.inspect.subtree.more", "+ {n} more");
  ("orgs.inspect.subtree.show_all", "Show all");
  ("orgs.inspect.subtree.show_less", "Show less");
  ("orgs.inspect.empty", "No ancestors — this is a root org.");
  ("orgs.type.GROUP", "Group");
  ("orgs.type.COMPANY", "Company");
  ("orgs.type.DEPARTMENT", "Department");
  ("orgs.type.TEAM", "Team");
  ("orgs.services.section", "Organization services");
  ("orgs.services.hint", "One organization connection can install its model route, Desk, Groups, and reviewed extension catalog without duplicate Desktop settings.");
  ("orgs.services.refresh", "Refresh");
  ("orgs.services.org", "Organization");
  ("orgs.services.org.choose", "Choose an organization…");
  ("orgs.services.kind", "Service");
  ("orgs.services.kind.DESK_TASKS", "Desk tasks");
  ("orgs.services.kind.COLLAB", "Groups collaboration");
  ("orgs.services.kind.MODEL_CONTROL", "Model control");
  ("orgs.services.kind.EXTENSION_CATALOG", "Extension catalog");
  ("orgs.services.mode", "Hosting");
  ("orgs.services.mode.HARA_HOSTED", "Hara hosted");
  ("orgs.services.mode.CUSTOMER_HOSTED", "Customer hosted");
  ("orgs.services.region", "Account region");
  ("orgs.services.region.CN", "China");
  ("orgs.services.region.GLOBAL", "Global");
  ("orgs.services.origin", "API origin");
  ("orgs.services.credential", "Desk enrollment credential");
  ("orgs.services.credential.placeholder", "leave blank to keep the current value");
  ("orgs.services.credential.hint", "Encrypted at rest. It is never returned by the API or copied into audit logs.");
  ("orgs.services.capabilities", "Capabilities version");
  ("orgs.services.issuer", "Account issuer");
  ("orgs.services.jwks", "JWKS URL");
  ("orgs.services.audience", "Audience");
  ("orgs.services.save", "Save as pending");
  ("orgs.services.verify", "Verify and activate");
  ("orgs.services.disable", "Disable");
  ("orgs.services.empty.no_org", "Choose an organization to manage its services.");
  ("orgs.services.loading", "Loading organization services…");
  ("orgs.services.empty", "No organization services configured yet.");
  ("orgs.services.col.service", "Service");
  ("orgs.services.col.route", "Route");
  ("orgs.services.col.status", "Status");
  ("orgs.services.col.config", "Configuration");
  ("orgs.services.col.actions", "Actions");
  ("orgs.services.status.PENDING_VERIFICATION", "Pending verification");
  ("orgs.services.status.ACTIVE", "Active");
  ("orgs.services.status.DEGRADED", "Degraded");
  ("orgs.services.status.DISABLED", "Disabled");
  ("orgs.services.credential.set", "Encrypted credential configured");
  ("orgs.services.credential.none", "No credential");
  ("orgs.services.edit", "Edit");
  ("orgs.services.err.org", "Choose an organization first.");
  ("orgs.services.err.origin", "Enter the service API origin.");
  ("orgs.services.saved", "Saved as pending verification.");
  ("orgs.services.verified", "Service verified and activated.");
  ("orgs.services.disabled", "Service disabled for new enrollments.");
  ("orgs.services.disable.confirm", "Disable this service for future organization enrollments? Existing remote credentials are not silently revoked.")].
Definition en_fleet : dictionary := [
  ("fleet.hint", "Live device view for an org. Online = heartbeat within five minutes.");
  ("fleet.orgid", "Org ID");
  ("fleet.orgid.placeholder", "paste an org id…");
  ("fleet.load", "Load");
  ("fleet.filter.search", "Search by name…");
  ("fleet.filter.online_only", "Online only");
  ("fleet.filter.model", "Filter by model…");
  ("fleet.col.status", "Status");
  ("fleet.col.name", "Device");
  ("fleet.col.person", "Accountable person");
  ("fleet.col.os", "OS");
  ("fleet.col.model", "Model");
  ("fleet.model.retired", "Retired by current policy");
  ("fleet.col.spend", "Spend");
  ("fleet.col.keys", "Key records");
  ("fleet.spend.unavailable", "Unavailable");
  ("fleet.col.policy", "Internal key policy");
  ("fleet.col.id", "Device ID");
  ("fleet.col.actions", "Actions");
  ("fleet.online", "Online");
  ("fleet.offline", "Offline");
  ("fleet.revoke", "Revoke");
  ("fleet.revoke.retry", "Retry remote revoke");
  ("fleet.revoke.confirm", "Revoke all live tokens for {id}?");
  ("fleet.revoke.toast", "Revoked {n} token(s).");
  ("fleet.revoked", "Revoked");
  ("fleet.revocation_pending", "Revocation pending");
  ("fleet.empty.no_org", "Enter an org id to load its fleet.");
  ("fleet.empty.no_devices", "No devices in this org yet.");
  ("fleet.empty.no_match", "No devices match the current filters.");
  ("fleet.copy.id", "Copy device id");
  ("fleet.policy.expires", "Expires {date}");
  ("fleet.policy.no_expiry", "No active expiry");
  ("fleet.policy.rates", "Rate: {rates}");
  ("fleet.policy.rates_unlimited", "Rate: unlimited");
  ("fleet.keys.none", "No key records");
  ("fleet.keys.count", "{n} key record(s)");
  ("fleet.key.status.active", "Active");
  ("fleet.key.status.revoked", "Revoked");
  ("fleet.key.status.expired", "Expired");
  ("fleet.key.status.revocation_pending", "Revocation pending");
  ("fleet.key.created", "Created {date}");
  ("fleet.key.revoked_at", "Revoked {date}");
  ("fleet.key.revocation_pending_since", "Disabled locally {date}; retrying remote revocation");
  ("fleet.key.expires", "Expires {date}");
  ("fleet.key.no_expiry", "No expiry (still revocable)");
  ("fleet.key.spend", "Lifetime spend {spend}");
  ("fleet.key.copy_id", "Copy non-secret key record id");
  ("fleet.person.unbound", "Unassigned");
  ("fleet.person.bind", "Assign");
  ("fleet.person.none", "Create an organization member on the Enroll codes page first.");
  ("fleet.person.bind.title", "Assign a legacy device");
  ("fleet.person.bind.body", "This identity can be assigned only once. Revoke and re-enroll if the wrong person is selected.");
  ("fleet.person.bound", "The device is now assigned; historical keys and usage belong to this person.")].
Definition en_usage : dictionary := [
  ("usage.hint", "Authoritative provider usage and separate organization policy, without estimated billing.");
  ("usage.org", "Organization");
  ("usage.org.choose", "Choose an organization…");
  ("usage.range", "Time range");
  ("usage.range.24h", "24 hours");
  ("usage.range.7d", "7 days");
  ("usage.range.30d", "30 days");
  ("usage.refresh", "Refresh");
  ("usage.updated", "Updated {time}");
  ("usage.accounting.provider", "Accounting source: {source} · provider-native units");
  ("usage.accounting.gateway", "Accounting source: {source} · {unit} ledger");
  ("usage.unavailable", "The authoritative usage ledger is unavailable. Configured limits remain visible; zeroes are not fabricated.");
  ("usage.kpi.spend", "Spend");
  ("usage.kpi.spend.hint", "Authoritative USD ledger");
  ("usage.kpi.tokens", "Tokens");
  ("usage.kpi.tokens.hint", "Prompt + completion");
  ("usage.kpi.requests", "Requests");
  ("usage.kpi.requests.hint", "Completed gateway calls");
  ("usage.kpi.latest", "Last activity");
  ("usage.kpi.latest.hint", "Most recent billed request");
  ("usage.chart.title", "Metered activity");
  ("usage.chart.hint", "Spend is the coral trace; token volume is shown as bars.");
  ("usage.chart.spend", "Spend");
  ("usage.chart.tokens", "Tokens");
  ("usage.native.title", "Provider allowance");
  ("usage.native.hint", "Values, units, coefficients, and reset windows remain provider-defined.");
  ("usage.native.authoritative", "Provider authoritative");
  ("usage.native.unavailable", "The provider's authoritative allowance is unavailable. Hara will not estimate it from response tokens.");
  ("usage.native.no_meters", "The provider returned no allowance meters for this organization.");
  ("usage.native.value", "{used} / {limit} {unit}");
  ("usage.native.remaining", "{remaining} {unit} remaining");
  ("usage.native.window", "Window: {window}");
  ("usage.native.reset", "Resets {time}");
  ("usage.native.status.available", "Available");
  ("usage.native.status.exhausted", "Exhausted");
  ("usage.native.status.unknown", "Unknown");
  ("usage.quota.title", "Organization policy");
  ("usage.quota.hint", "Control-managed limits remain separate from the upstream provider allowance.");
  ("usage.quota.enforced", "Control enforced");
  ("usage.quota.value", "{used} / {max} · {percent}%");
  ("usage.quota.unavailable", "Ledger unavailable");
  ("usage.quota.expires", "Expires {date}");
  ("usage.quota.rate_only", "Rate-limited key with no USD ceiling.");
  ("usage.breakdown.title", "Who used what");
  ("usage.breakdown.hint", "Device and model totals for the selected time range.");
  ("usage.col.person", "Colleague");
  ("usage.col.device", "Device");
  ("usage.col.model", "Model");
  ("usage.col.spend", "Spend");
  ("usage.col.tokens", "Tokens");
  ("usage.col.requests", "Requests");
  ("usage.col.last", "Last used");
  ("usage.empty.choose_org", "Choose an organization to load its usage ledger.");
  ("usage.empty.no_activity", "No billed activity in this time range.");
  ("usage.empty.no_quotas", "No active device keys have quota or rate limits.")].
Definition en_learnings : dictionary := [
  ("learnings.hint", "Review recurring, redacted execution evidence before it becomes organization guidance.");
  ("learnings.org", "Organization");
  ("learnings.org.choose", "Choose an organization…");
  ("learnings.filter", "View");
  ("learnings.filter.review", "Needs review");
  ("learnings.filter.active", "Active");
  ("learnings.filter.history", "History");
  ("learnings.filter.all", "All");
  ("learnings.refresh", "Refresh");
  ("learnings.updated", "Updated {time}");
  ("learnings.loading", "Loading the organization learning ledger…");
  ("learnings.guardrail.title", "Review before reuse");
  ("learnings.guardrail.body", "Only approved summaries enter organization prompts. Evidence is bounded and redacted; credentials and private local paths are rejected by the server.");
  ("learnings.kpi.review", "Needs review");
  ("learnings.kpi.review.hint", "New candidates or approved rules with a proposed update");
  ("learnings.kpi.active", "Active");
  ("learnings.kpi.active.hint", "Approved and distributed to enrolled devices");
  ("learnings.kpi.stable", "Recurring");
  ("learnings.kpi.stable.hint", "Observed 3+ times across 2+ tasks in 30 days");
  ("learnings.kpi.total", "Total");
  ("learnings.kpi.total.hint", "Bounded organization learning ledger");
  ("learnings.empty.choose_org", "Choose an organization to review its learning ledger.");
  ("learnings.empty.review", "No learning currently needs review.");
  ("learnings.empty.active", "No approved organization learning yet.");
  ("learnings.empty.history", "No rejected or revoked learning yet.");
  ("learnings.empty.all", "No organization learning has been submitted yet.");
  ("learnings.status.pending", "Pending");
  ("learnings.status.approved", "Approved");
  ("learnings.status.rejected", "Rejected");
  ("learnings.status.revoked", "Revoked");
  ("learnings.kind.business_rule", "Business rule");
  ("learnings.kind.user_preference", "User preference");
  ("learnings.kind.workflow", "Workflow");
  ("learnings.kind.correction", "Correction");
  ("learnings.kind.failure_pattern", "Failure pattern");
  ("learnings.kind.action_ownership", "Action ownership");
  ("learnings.source.explicit_user", "Explicit user instruction");
  ("learnings.source.verified_task", "Verified task");
  ("learnings.source.user_correction", "User correction");
  ("learnings.source.tool_failure", "Tool failure");
  ("learnings.source.workflow_result", "Workflow result");
  ("learnings.source.runtime_guard", "Runtime guard");
  ("learnings.recurring", "Recurring evidence");
  ("learnings.pending_update", "Update pending");
  ("learnings.metric.observations", "{n} observations");
  ("learnings.metric.tasks", "{n} tasks");
  ("learnings.current", "Current approved guidance");
  ("learnings.proposal", "Proposed guidance");
  ("learnings.proposed_update", "Proposed update");
  ("learnings.updated_at", "Updated {time}");
  ("learnings.reviewed_by", "Reviewed by {person}");
  ("learnings.evidence", "Redacted evidence receipts ({n})");
  ("learnings.action.approve", "Approve and distribute");
  ("learnings.action.reject", "Reject");
  ("learnings.action.revoke", "Revoke");
  ("learnings.confirm.reject", "Reject this proposal? It will not enter organization prompts.");
  ("learnings.confirm.revoke", "Revoke this active learning? Enrolled devices will remove it on their next sync.");
  ("learnings.toast.approve", "Learning approved and its organization version was updated.");
  ("learnings.toast.reject", "Learning proposal rejected.");
  ("learnings.toast.revoke", "Learning revoked; enrolled devices will remove it on sync.")].
Definition en_tickets : dictionary := [
  ("tickets.hint", "One numbered workflow for Feishu feedback, Control intake, releases, and tester verification.");
  ("tickets.refresh", "Refresh");
  ("tickets.filter.status", "Status");
  ("tickets.filter.kind", "Kind");
  ("tickets.filter.priority", "Priority");
  ("tickets.status.ALL", "All");
  ("tickets.status.RECEIVED", "Received");
  ("tickets.status.ACKNOWLEDGED", "Acknowledged");
  ("tickets.status.IN_PROGRESS", "In progress");
  ("tickets.status.WAITING_RELEASE", "Waiting release");
  ("tickets.status.WAITING_VERIFICATION", "Waiting verification");
  ("tickets.status.BLOCKED", "Blocked");
  ("tickets.status.CLOSED", "Closed");
  ("tickets.status.REJECTED", "Rejected");
  ("tickets.kind.ALL", "All");
  ("tickets.kind.BUG", "Bug");
  ("tickets.kind.SUGGESTION", "Suggestion");
  ("tickets.kind.CRASH", "Crash");
  ("tickets.kind.OTHER", "Other");
  ("tickets.priority.ALL", "All");
  ("tickets.priority.URGENT", "Urgent");
  ("tickets.priority.HIGH", "High");
  ("tickets.priority.NORMAL", "Normal");
  ("tickets.priority.LOW", "Low");
  ("tickets.source.FEISHU", "Feishu");
  ("tickets.source.CONTROL", "Control");
  ("tickets.source.INTERNAL", "Internal");
  ("tickets.col.number", "Ticket");
  ("tickets.col.updated", "Updated");
  ("tickets.col.issue", "Issue");
  ("tickets.col.source", "Source");
  ("tickets.col.workflow", "Workflow");
  ("tickets.col.action", "Action");
  ("tickets.count", "{n} tickets");
  ("tickets.empty", "No tickets match these filters.");
  ("tickets.open", "Open");
  ("tickets.assignee", "Assignee");
  ("tickets.fix_version", "Fix version");
  ("tickets.verification", "Verification steps");
  ("tickets.note", "Timeline note");
  ("tickets.save", "Save workflow update");
  ("tickets.saved", "Ticket workflow updated.");
  ("tickets.summary.empty", "No additional summary.");
  ("tickets.timeline", "Timeline");
  ("tickets.timeline.empty", "No timeline events yet.");
  ("tickets.event.CREATED", "Ticket created");
  ("tickets.event.ACKNOWLEDGED", "Reporter acknowledged");
  ("tickets.event.STATUS_CHANGED", "Status changed");
  ("tickets.event.NOTE", "Note added");
  ("tickets.event.RELEASED", "Release ready for verification");
  ("tickets.event.CLOSED", "Ticket closed");
  ("crashes.hint", "User-approved Desktop diagnostics only. Matching failures are merged and automatically expire after 90 days.");
  ("crashes.refresh", "Refresh");
  ("crashes.privacy.title", "Privacy boundary");
  ("crashes.privacy.body", "No chats, file contents, credentials, cookies, full local paths, or provider payloads are collected.");
  ("crashes.filter", "Status");
  ("crashes.status.ALL", "All");
  ("crashes.status.NEW", "New");
  ("crashes.status.REVIEWING", "Reviewing");
  ("crashes.status.RESOLVED", "Resolved");
  ("crashes.status.IGNORED", "Ignored");
  ("crashes.col.last", "Last seen");
  ("crashes.col.issue", "Issue");
  ("crashes.col.runtime", "Runtime");
  ("crashes.col.count", "Count");
  ("crashes.col.review", "Review");
  ("crashes.count", "{n} reports");
  ("crashes.empty", "No reports match this status.");
  ("crashes.note.placeholder", "Internal review note (optional)");
  ("crashes.saved", "Crash report review saved.");
  ("crashes.alert.label", "Feishu alert");
  ("crashes.alert.PENDING", "Queued");
  ("crashes.alert.SENDING", "Sending");
  ("crashes.alert.SENT", "Delivered");
  ("crashes.alert.FAILED", "Delivery failed");
  ("crashes.alert.retry", "Retry alert");
  ("crashes.alert.retried", "The Feishu alert was queued again.");
  ("crashes.kind.unclean_exit", "Previous run did not close normally");
  ("crashes.kind.renderer_exception", "Renderer exception");
  ("crashes.kind.renderer_unresponsive", "Renderer unresponsive")].
Definition en_enroll : dictionary := [
  ("enroll.hint", "Mint a one-time code that a hara CLI redeems for a device token.");
  ("enroll.orgid", "Org ID");
  ("enroll.orgid.placeholder", "paste an org id…");
  ("enroll.person", "Accountable person");
  ("enroll.person.choose", "Choose an organization member…");
  ("enroll.person.hint", "Every company Key must be assigned to a person before issue and cannot be reassigned afterward.");
  ("enroll.person.empty", "This organization has no members yet. Create one first.");
  ("enroll.person.required", "Choose the person accountable for this Key.");
  ("enroll.person.new", "New member");
  ("enroll.person.new.title", "Create organization member");
  ("enroll.person.new.body", "This member becomes the accountable identity for company Keys, usage, and work records.");
  ("enroll.person.new.name", "Name");
  ("enroll.person.new.email", "Company email");
  ("enroll.person.new.create", "Create member");
  ("enroll.person.new.email_required", "Enter a company email.");
  ("enroll.person.new.created", "Member created and selected.");
  ("enroll.model", "Default model");
  ("enroll.model.loading", "Loading available models…");
  ("enroll.model.hint", "The same managed connection can switch among every authorized model; this only chooses its default.");
  ("enroll.model.unavailable", "No managed model is currently available.");
  ("enroll.model.option.flash", "DeepSeek V4 Flash · fast and economical");
  ("enroll.model.option.pro", "DeepSeek V4 Pro · strongest agent capability");
  ("enroll.model.option.vision", "DeepSeek V4 Vision-Exp · native image understanding");
  ("enroll.model.detail.flash", "1M context · 384K max output · thinking off / low / high / max · recommended for everyday work");
  ("enroll.model.detail.pro", "1M context · 384K max output · thinking off / low / high / max · recommended for complex coding and agent tasks");
  ("enroll.model.detail.vision", "1M context · 384K max output · text + image input · experimental visual model");
  ("enroll.effort", "Default reasoning effort");
  ("enroll.effort.auto", "Automatic · use the model default");
  ("enroll.effort.hint", "New chats, tasks, and inheriting Agents use this default. A conversation or Agent may override it.");
  ("enroll.effort.off", "Off");
  ("enroll.effort.minimal", "Minimal");
  ("enroll.effort.low", "Low");
  ("enroll.effort.medium", "Medium");
  ("enroll.effort.high", "High");
  ("enroll.effort.xhigh", "Extra high");
  ("enroll.effort.max", "Maximum");
  ("enroll.gateway", "Gateway URL");
  ("enroll.gateway.placeholder", "https://gw.nanhara.tech");
  ("enroll.policy.title", "Internal key policy");
  ("enroll.policy.hint", "The key is issued only after this one-time code is redeemed.");
  ("enroll.policy.enforced", "Gateway enforced");
  ("enroll.policy.token_days", "Key validity (days)");
  ("enroll.policy.token_days.hint", "The colleague must re-enroll after this period.");
  ("enroll.policy.never_expires", "Never expire this key");
  ("enroll.policy.never_expires.hint", "SUPERADMIN only. Spend limits, usage visibility, and manual revocation still apply.");
  ("enroll.policy.budgets", "Rolling spend limits (USD)");
  ("enroll.policy.budgets.hint", "Each non-empty window is enforced independently and resets from the key's issue time.");
  ("enroll.policy.window.5h", "5 hours");
  ("enroll.policy.window.week", "7 days");
  ("enroll.policy.window.month", "30 days");
  ("enroll.policy.unlimited", "Unlimited");
  ("enroll.policy.advanced", "Advanced rate limits");
  ("enroll.policy.rpm", "Requests per minute");
  ("enroll.policy.tpm", "Tokens per minute");
  ("enroll.policy.invalid_number", "Enter a positive value within the allowed range.");
  ("enroll.mint", "Mint code");
  ("enroll.result.title", "Enrollment ready");
  ("enroll.result.code", "Code");
  ("enroll.result.cmd", "Command");
  ("enroll.result.cmd.hint", "Paste this on the target machine.");
  ("enroll.result.expires", "Expires");
  ("enroll.result.model", "Authorized models");
  ("enroll.result.effort", "Default reasoning effort");
  ("enroll.result.policy", "Issued key policy");
  ("enroll.result.policy.validity", "Validity · {days} days after redemption");
  ("enroll.result.policy.never_expires", "Validity · no fixed expiry · manually revocable");
  ("enroll.result.policy.budgets", "Spend · {budgets}");
  ("enroll.result.policy.rates", "Rate · {rates}");
  ("enroll.copy", "Copy");
  ("enroll.copied", "Copied.")].
Definition en_accounts : dictionary := [
  ("users.hint", "SUPERADMIN only — manage console accounts.");
  ("users.new", "New user");
  ("users.new.email", "Email");
  ("users.new.email.placeholder", "user@nanhara.tech");
  ("users.new.password", "Password");
  ("users.new.password.placeholder", "at least 12 characters");
  ("users.new.role", "Role");
  ("users.new.orgid", "Org ID");
  ("users.new.orgid.placeholder", "optional");
  ("users.new.create", "Create user");
  ("users.new.cancel", "Cancel");
  ("users.col.email", "Email");
  ("users.col.role", "Role");
  ("users.col.org", "Org");
  ("users.col.status", "Status");
  ("users.col.created", "Created");
  ("users.col.actions", "Actions");
  ("users.status.active", "Active");
  ("users.status.disabled", "Disabled");
  ("users.action.disable", "Disable");
  ("users.action.enable", "Enable");
  ("users.action.role", "Change role");
  ("users.action.password", "Reset password");
  ("users.role.title", "Change role");
  ("users.role.body", "Select a new role for {email}.");
  ("users.password.title", "Reset password");
  ("users.password.body", "Enter a new password (≥12 characters) for {email}.");
  ("users.password.field", "New password");
  ("users.empty", "No users yet.");
  ("users.toast.created", "User created.");
  ("users.toast.role_updated", "Role updated.");
  ("users.toast.password_reset", "Password reset.");
  ("users.toast.disabled", "User disabled.");
  ("users.toast.enabled", "User enabled.");
  ("security.hint", "Two-factor authentication (TOTP — works with Google Authenticator, 1Password, Authy, …).");
  ("security.public_notice", "This console is on the public internet. Two-factor is strongly recommended for every account.");
  ("security.status.on", "Two-factor is enabled on your account.");
  ("security.status.off", "Two-factor is not yet enabled.");
  ("security.enable", "Enable two-factor");
  ("security.enable.step1", "Scan this QR code with your authenticator app.");
  ("security.enable.show_secret", "Show secret (manual entry)");
  ("security.enable.hide_secret", "Hide secret");
  ("security.enable.secret_label", "Secret (base32)");
  ("security.enable.uri_label", "otpauth URI");
  ("security.enable.step2", "Enter the 6-digit code your app is showing right now.");
  ("security.enable.code", "Current code");
  ("security.enable.code.placeholder", "123456");
  ("security.enable.confirm", "Activate");
  ("security.enable.cancel", "Cancel");
  ("security.disable.code", "Current 6-digit code");
  ("security.disable.code.placeholder", "123456");
  ("security.disable.go", "Disable two-factor");
  ("security.disable.confirm", "Turn two-factor off for your account?");
  ("security.toast.enabled", "Two-factor enabled.");
  ("security.toast.disabled", "Two-factor disabled.");
  ("provider.title", "Managed AI provider");
  ("provider.hint", "DeepSeek credential storage and runtime activation status.");
  ("provider.refresh", "Refresh");
  ("provider.replace", "Store / rotate key");
  ("provider.test_stored", "Test stored key");
  ("provider.test_runtime", "Test active runtime");
  ("provider.activation_note", "Saving never silently restarts LiteLLM. A controlled deploy/restart loads the encrypted revision without copying the key into PM2.");
  ("provider.status.stored", "Encrypted copy");
  ("provider.status.runtime", "Supervised runtime");
  ("provider.status.reachable", "Runtime reachable");
  ("provider.status.active", "Current revision loaded");
  ("provider.status.yes", "yes");
  ("provider.status.no", "no");
  ("provider.status.unreadable", "unreadable — check KMS");
  ("provider.status.needs_activation", "stored key needs activation");
  ("provider.status.ready", "runtime loaded the current encrypted revision");
  ("provider.key.title", "Store or rotate DeepSeek key");
  ("provider.key.body", "The value is encrypted at rest and is never returned by the API.");
  ("provider.key.label", "DeepSeek API key");
  ("provider.key.placeholder", "paste once; it will not be shown again");
  ("provider.toast.saved", "DeepSeek key stored securely.");
  ("provider.toast.test_ok", "DeepSeek credential test passed.");
  ("provider.err.key_required", "Enter the DeepSeek API key.")].
Definition en_common : dictionary := [
  ("common.copy", "Copy");
  ("common.copied", "Copied.");
  ("common.cancel", "Cancel");
  ("common.save", "Save");
  ("common.confirm", "Confirm");
  ("common.close", "Close");
  ("common.loading", "Loading…");
  ("common.empty", "Nothing to show.");
  ("common.role.SUPERADMIN", "Superadmin");
  ("common.role.ADMIN", "Admin");
  ("common.role.MEMBER", "Member");
  ("err.name_required", "Name is required.");
  ("err.orgid_required", "Org ID is required.");
  ("err.model_required", "Choose a managed model.");
  ("err.email_password_required", "Email and password are both required.");
  ("err.invalid_code", "Enter a 6-digit numeric code.");
  ("err.no_pending_secret", "Start the enrollment again — no pending secret.");
  ("err.bad_role", "Pick a valid role.");
  ("err.short_password", "Password must be at least 12 characters.");
  ("err.unauthorized", "Session expired — please sign in again.");
  ("err.network", "Network error — check your connection.");
  ("err.generic", "Something went wrong.");
  ("ok.org_created", "Org created.");
  ("ok.enroll_minted", "Enrollment code ready.")].
Definition en : dictionary :=
  en_chrome ++ en_orgs ++ en_fleet ++ en_usage ++ en_learnings ++ en_tickets ++ en_enroll ++ en_accounts ++ en_common.

Definition zh_CN_chrome : dictionary := [
  ("app.title", "hara-control");
  ("app.subtitle", "控制台");
  ("app.tagline", "自托管控制平面");
  ("nav.overview", "总览");
  ("nav.orgs", "组织");
  ("nav.fleet", "设备");
  ("nav.usage", "用量与额度");
  ("nav.learnings", "业务学习");
  ("nav.tickets", "工单");
  ("nav.crashes", "崩溃报告");
  ("nav.enroll", "注册码");
  ("nav.users", "成员");
  ("nav.security", "安全");
  ("nav.gateway_status", "网关");
  ("top.logout", "退出");
  ("top.language", "语言");
  ("crumb.overview", "总览");
  ("crumb.orgs", "组织");
  ("crumb.fleet", "设备");
  ("crumb.usage", "用量与额度");
  ("crumb.learnings", "业务学习");
  ("crumb.tickets", "工单");
  ("crumb.crashes", "崩溃报告");
  ("crumb.enroll", "注册码");
  ("crumb.users", "成员");
  ("crumb.security", "安全");
  ("login.title", "登录");
  ("login.email", "邮箱");
  ("login.email.placeholder", "you@nanhara.tech");
  ("login.password", "密码");
  ("login.password.placeholder", "您的密码");
  ("login.code", "6 位验证码");
  ("login.code.placeholder", "123456");
  ("login.code.hint", "请打开您的验证器 App。");
  ("login.submit", "登录");
  ("login.verify", "验证");
  ("login.footer", "自托管控制平面 · /auth/login");
  ("overview.kpi.orgs", "组织数");
  ("overview.kpi.devices_online", "在线设备");
  ("overview.kpi.activity_today", "今日活动");
  ("overview.kpi.users", "成员数");
  ("overview.placeholder", "实时统计待接入");
  ("overview.placeholder.note", "(暂无聚合接口,先用列表能算的数值占位)");
  ("overview.section.recent_enroll", "最近注册");
  ("overview.section.heartbeat", "网关心跳");
  ("overview.empty.recent_enroll", "暂无 — 可在「注册码」生成新的。");
  ("overview.heartbeat.placeholder", "实时心跳尚未接入 — 侧栏底部显示当前网关状态。")].
Definition zh_CN_orgs : dictionary := [
  ("orgs.hint", "创建组织单元(集团 / 公司 / 部门 / 组)并查看树形结构。");
  ("orgs.new.section", "新建组织");
  ("orgs.new.name", "名称");
  ("orgs.new.name.placeholder", "如:无锡南荒科技");
  ("orgs.new.type", "类型");
  ("orgs.new.parent", "上级组织 ID");
  ("orgs.new.parent.placeholder", "可选 — 留空即为根组织");
  ("orgs.new.create", "创建");
  ("orgs.new.created", "已创建");
  ("orgs.inspect.section", "查看组织");
  ("orgs.inspect.id", "组织 ID");
  ("orgs.inspect.id.placeholder", "粘贴组织 ID…");
  ("orgs.inspect.go", "查看");
  ("orgs.inspect.ancestors", "上级路径(根 → 自身)");
  ("orgs.inspect.subtree", "子树 ID");
  ("orgs.inspect.subtree.count", "{n} 个后代(含自身)");
  ("orgs.inspect.subtree.more", "+ 还有 {n} 个");
  ("orgs.inspect.subtree.show_all", "全部展开");
  ("orgs.inspect.subtree.show_less", "收起");
  ("orgs.inspect.empty", "无上级 — 这是一个根组织。");
  ("orgs.type.GROUP", "集团");
  ("orgs.type.COMPANY", "公司");
  ("orgs.type.DEPARTMENT", "部门");
  ("orgs.type.TEAM", "组");
  ("orgs.services.section", "组织服务连接");
  ("orgs.services.hint", "一个组织连接可统一接入模型路由、Desk、群组和已审核扩展目录，Desktop 不需要重复设置。");
  ("orgs.services.refresh", "刷新");
  ("orgs.services.org", "组织");
  ("orgs.services.org.choose", "选择组织…");
  ("orgs.services.kind", "服务");
  ("orgs.services.kind.DESK_TASKS", "Desk 任务");
  ("orgs.services.kind.COLLAB", "群组协作");
  ("orgs.services.kind.MODEL_CONTROL", "模型控制");
  ("orgs.services.kind.EXTENSION_CATALOG", "扩展目录");
  ("orgs.services.mode", "托管方式");
  ("orgs.services.mode.HARA_HOSTED", "Hara 托管");
  ("orgs.services.mode.CUSTOMER_HOSTED", "企业自托管");
  ("orgs.services.region", "账号区域");
  ("orgs.services.region.CN", "中国区");
  ("orgs.services.region.GLOBAL", "全球区");
  ("orgs.services.origin", "API 根地址");
  ("orgs.services.credential", "Desk 接入口令");
  ("orgs.services.credential.placeholder", "留空则保留当前值");
  ("orgs.services.credential.hint", "使用 KMS 加密保存，接口不会返回，审计日志也不会记录。");
  ("orgs.services.capabilities", "能力协议版本");
  ("orgs.services.issuer", "账号签发方");
  ("orgs.services.jwks", "JWKS 地址");
  ("orgs.services.audience", "令牌 Audience");
  ("orgs.services.save", "保存为待验证");
  ("orgs.services.verify", "验证并启用");
  ("orgs.services.disable", "停用");
  ("orgs.services.empty.no_org", "请先选择一个组织，再管理其服务。");
  ("orgs.services.loading", "正在加载组织服务…");
  ("orgs.services.empty", "该组织尚未配置服务连接。");
  ("orgs.services.col.service", "服务");
  ("orgs.services.col.route", "地址");
  ("orgs.services.col.status", "状态");
  ("orgs.services.col.config", "配置");
  ("orgs.services.col.actions", "操作");
  ("orgs.services.status.PENDING_VERIFICATION", "待验证");
  ("orgs.services.status.ACTIVE", "已启用");
  ("orgs.services.status.DEGRADED", "异常");
  ("orgs.services.status.DISABLED", "已停用");
  ("orgs.services.credential.set", "已配置加密口令");
  ("orgs.services.credential.none", "无需或尚无口令");
  ("orgs.services.edit", "编辑");
  ("orgs.services.err.org", "请先选择组织。");
  ("orgs.services.err.origin", "请输入服务 API 根地址。");
  ("orgs.services.saved", "已保存，等待服务端验证。");
  ("orgs.services.verified", "验证通过，服务已启用。");
  ("orgs.services.disabled", "已停止向新接入设备下发该服务。");
  ("orgs.services.disable.confirm", "确定停止向后续组织接入下发该服务吗？已有远程凭据不会被静默吊销。")].
Definition zh_CN_fleet : dictionary := [
  ("fleet.hint", "查看某个组织的实时设备列表。在线 = 五分钟内有心跳。");
  ("fleet.orgid", "组织 ID");
  ("fleet.orgid.placeholder", "粘贴组织 ID…");
  ("fleet.load", "加载");
  ("fleet.filter.search", "按名称搜索…");
  ("fleet.filter.online_only", "仅在线");
  ("fleet.filter.model", "按模型筛选…");
  ("fleet.col.status", "状态");
  ("fleet.col.name", "设备");
  ("fleet.col.person", "关联人员");
  ("fleet.col.os", "系统");
  ("fleet.col.model", "模型");
  ("fleet.model.retired", "已退出当前策略");
  ("fleet.col.spend", "用量");
  ("fleet.col.keys", "Key 记录");
  ("fleet.spend.unavailable", "暂不可用");
  ("fleet.col.policy", "内部 Key 策略");
  ("fleet.col.id", "设备 ID");
  ("fleet.col.actions", "操作");
  ("fleet.online", "在线");
  ("fleet.offline", "离线");
  ("fleet.revoke", "吊销");
  ("fleet.revoke.retry", "重试远端吊销");
  ("fleet.revoke.confirm", "确定吊销 {id} 的所有有效令牌?");
  ("fleet.revoke.toast", "已吊销 {n} 个令牌。");
  ("fleet.revoked", "已吊销");
  ("fleet.revocation_pending", "吊销处理中");
  ("fleet.empty.no_org", "输入组织 ID 以加载其设备列表。");
  ("fleet.empty.no_devices", "该组织下暂无设备。");
  ("fleet.empty.no_match", "当前筛选下没有匹配的设备。");
  ("fleet.copy.id", "复制设备 ID");
  ("fleet.policy.expires", "有效至 {date}");
  ("fleet.policy.no_expiry", "无有效令牌");
  ("fleet.policy.rates", "速率：{rates}");
  ("fleet.policy.rates_unlimited", "速率不限");
  ("fleet.keys.none", "暂无 Key 记录");
  ("fleet.keys.count", "{n} 条 Key 记录");
  ("fleet.key.status.active", "有效");
  ("fleet.key.status.revoked", "已撤销");
  ("fleet.key.status.expired", "已过期");
  ("fleet.key.status.revocation_pending", "吊销处理中");
  ("fleet.key.created", "创建于 {date}");
  ("fleet.key.revoked_at", "撤销于 {date}");
  ("fleet.key.revocation_pending_since", "本地已于 {date} 停用，正在重试远端吊销");
  ("fleet.key.expires", "有效至 {date}");
  ("fleet.key.no_expiry", "长期有效（仍可撤销）");
  ("fleet.key.spend", "累计用量 {spend}");
  ("fleet.key.copy_id", "复制非秘密 Key 记录 ID");
  ("fleet.person.unbound", "未关联人员");
  ("fleet.person.bind", "关联");
  ("fleet.person.none", "请先在“签发注册码”页面创建组织成员。");
  ("fleet.person.bind.title", "关联历史设备");
  ("fleet.person.bind.body", "该关联只能设置一次；如人员选择错误，应吊销并重新接入。");
  ("fleet.person.bound", "设备已关联人员，历史 Key 和用量已归入该人员。")].
Definition zh_CN_usage : dictionary := [
  ("usage.hint", "查看供应商权威用量与独立的公司策略，不在本地估算计费。");
  ("usage.org", "企业 / 组织");
  ("usage.org.choose", "选择企业…");
  ("usage.range", "时间范围");
  ("usage.range.24h", "24 小时");
  ("usage.range.7d", "7 天");
  ("usage.range.30d", "30 天");
  ("usage.refresh", "刷新");
  ("usage.updated", "更新于 {time}");
  ("usage.accounting.provider", "计量来源：{source} · 供应商原生单位");
  ("usage.accounting.gateway", "计量来源：{source} · {unit} 账本");
  ("usage.unavailable", "权威用量账本暂不可用。配置额度仍会显示，系统不会伪造为 0。");
  ("usage.kpi.spend", "消费金额");
  ("usage.kpi.spend.hint", "权威美元计费账本");
  ("usage.kpi.tokens", "Token 用量");
  ("usage.kpi.tokens.hint", "输入 + 输出");
  ("usage.kpi.requests", "请求次数");
  ("usage.kpi.requests.hint", "已完成的网关调用");
  ("usage.kpi.latest", "最近使用");
  ("usage.kpi.latest.hint", "最近一笔已计费请求");
  ("usage.chart.title", "用量时间线");
  ("usage.chart.hint", "珊瑚色曲线表示金额，柱形表示 Token 数量。");
  ("usage.chart.spend", "消费");
  ("usage.chart.tokens", "Token");
  ("usage.native.title", "供应商订阅额度");
  ("usage.native.hint", "数值、单位、倍率与重置周期均保留供应商原始规则。");
  ("usage.native.authoritative", "供应商权威数据");
  ("usage.native.unavailable", "供应商权威额度暂不可用；Hara 不会根据响应 Token 自行估算。");
  ("usage.native.no_meters", "供应商没有返回该企业的额度项目。");
  ("usage.native.value", "{used} / {limit} {unit}");
  ("usage.native.remaining", "剩余 {remaining} {unit}");
  ("usage.native.window", "周期：{window}");
  ("usage.native.reset", "重置于 {time}");
  ("usage.native.status.available", "可用");
  ("usage.native.status.exhausted", "已用尽");
  ("usage.native.status.unknown", "未知");
  ("usage.quota.title", "公司内部策略");
  ("usage.quota.hint", "Control 管理的限制与上游供应商订阅额度分别展示。");
  ("usage.quota.enforced", "Control 执行");
  ("usage.quota.value", "{used} / {max} · {percent}%");
  ("usage.quota.unavailable", "账本暂不可用");
  ("usage.quota.expires", "有效至 {date}");
  ("usage.quota.rate_only", "该 Key 只设置速率限制，未设置金额额度。");
  ("usage.breakdown.title", "谁在使用什么");
  ("usage.breakdown.hint", "所选时间范围内按同事、设备和模型汇总。");
  ("usage.col.person", "同事");
  ("usage.col.device", "设备");
  ("usage.col.model", "模型");
  ("usage.col.spend", "消费");
  ("usage.col.tokens", "Token");
  ("usage.col.requests", "请求");
  ("usage.col.last", "最近使用");
  ("usage.empty.choose_org", "请选择企业以加载其用量账本。");
  ("usage.empty.no_activity", "该时间范围内暂无已计费用量。");
  ("usage.empty.no_quotas", "当前没有设置额度或速率限制的有效设备 Key。")].
Definition zh_CN_learnings : dictionary := [
  ("learnings.hint", "先审核反复出现且已脱敏的执行证据，再将其作为组织级业务规则下发。");
  ("learnings.org", "企业 / 组织");
  ("learnings.org.choose", "选择企业…");
  ("learnings.filter", "查看");
  ("learnings.filter.review", "待审核");
  ("learnings.filter.active", "生效中");
  ("learnings.filter.history", "历史");
  ("learnings.filter.all", "全部");
  ("learnings.refresh", "刷新");
  ("learnings.updated", "更新于 {time}");
  ("learnings.loading", "正在加载组织学习账本…");
  ("learnings.guardrail.title", "审核后才会复用");
  ("learnings.guardrail.body", "只有审核通过的摘要才会进入组织提示词。证据有数量上限并经过脱敏；服务端会拒绝密钥、凭证和本机私有路径。");
  ("learnings.kpi.review", "待审核");
  ("learnings.kpi.review.hint", "新候选规则，或已有规则的待审更新");
  ("learnings.kpi.active", "生效中");
  ("learnings.kpi.active.hint", "已批准并下发到已注册设备");
  ("learnings.kpi.stable", "稳定复现");
  ("learnings.kpi.stable.hint", "30 天内至少出现 3 次且涉及 2 个任务");
  ("learnings.kpi.total", "总计");
  ("learnings.kpi.total.hint", "有容量边界的组织学习账本");
  ("learnings.empty.choose_org", "请选择企业以查看其业务学习账本。");
  ("learnings.empty.review", "当前没有需要审核的学习。");
  ("learnings.empty.active", "目前还没有已生效的组织学习。");
  ("learnings.empty.history", "目前还没有被拒绝或撤销的学习。");
  ("learnings.empty.all", "该组织尚未提交任何业务学习。");
  ("learnings.status.pending", "待审核");
  ("learnings.status.approved", "已批准");
  ("learnings.status.rejected", "已拒绝");
  ("learnings.status.revoked", "已撤销");
  ("learnings.kind.business_rule", "业务规则");
  ("learnings.kind.user_preference", "用户偏好");
  ("learnings.kind.workflow", "工作流程");
  ("learnings.kind.correction", "纠错");
  ("learnings.kind.failure_pattern", "失败模式");
  ("learnings.kind.action_ownership", "任务执行责任");
  ("learnings.source.explicit_user", "用户明确指示");
  ("learnings.source.verified_task", "已验证任务");
  ("learnings.source.user_correction", "用户纠正");
  ("learnings.source.tool_failure", "工具失败");
  ("learnings.source.workflow_result", "流程结果");
  ("learnings.source.runtime_guard", "运行时守卫");
  ("learnings.recurring", "已稳定复现");
  ("learnings.pending_update", "有待审更新");
  ("learnings.metric.observations", "复现 {n} 次");
  ("learnings.metric.tasks", "涉及 {n} 个任务");
  ("learnings.current", "当前已批准规则");
  ("learnings.proposal", "候选规则");
  ("learnings.proposed_update", "候选更新");
  ("learnings.updated_at", "更新于 {time}");
  ("learnings.reviewed_by", "审核人：{person}");
  ("learnings.evidence", "脱敏证据回执（{n}）");
  ("learnings.action.approve", "批准并下发");
  ("learnings.action.reject", "拒绝");
  ("learnings.action.revoke", "撤销");
  ("learnings.confirm.reject", "确定拒绝这条候选规则？它不会进入组织提示词。");
  ("learnings.confirm.revoke", "确定撤销这条生效规则？已注册设备会在下次同步时删除它。");
  ("learnings.toast.approve", "学习已批准，组织规则版本已更新。");
  ("learnings.toast.reject", "候选学习已拒绝。");
  ("learnings.toast.revoke", "学习已撤销，设备会在同步后移除。")].
Definition zh_CN_tickets : dictionary := [
  ("tickets.hint", "飞书反馈、Control 受理、版本发布和测试验收共用一套带编号的闭环流程。");
  ("tickets.refresh", "刷新");
  ("tickets.filter.status", "状态");
  ("tickets.filter.kind", "类型");
  ("tickets.filter.priority", "优先级");
  ("tickets.status.ALL", "全部");
  ("tickets.status.RECEIVED", "已受理");
  ("tickets.status.ACKNOWLEDGED", "已确认");
  ("tickets.status.IN_PROGRESS", "处理中");
  ("tickets.status.WAITING_RELEASE", "待发布");
  ("tickets.status.WAITING_VERIFICATION", "待验证");
  ("tickets.status.BLOCKED", "受阻");
  ("tickets.status.CLOSED", "已关闭");
  ("tickets.status.REJECTED", "不处理");
  ("tickets.kind.ALL", "全部");
  ("tickets.kind.BUG", "缺陷");
  ("tickets.kind.SUGGESTION", "建议");
  ("tickets.kind.CRASH", "崩溃");
  ("tickets.kind.OTHER", "其他");
  ("tickets.priority.ALL", "全部");
  ("tickets.priority.URGENT", "紧急");
  ("tickets.priority.HIGH", "高");
  ("tickets.priority.NORMAL", "普通");
  ("tickets.priority.LOW", "低");
  ("tickets.source.FEISHU", "飞书");
  ("tickets.source.CONTROL", "Control");
  ("tickets.source.INTERNAL", "内部");
  ("tickets.col.number", "工单");
  ("tickets.col.updated", "更新时间");
  ("tickets.col.issue", "问题");
  ("tickets.col.source", "来源");
  ("tickets.col.workflow", "流程");
  ("tickets.col.action", "操作");
  ("tickets.count", "{n} 个工单");
  ("tickets.empty", "当前筛选条件下没有工单。");
  ("tickets.open", "打开");
  ("tickets.assignee", "处理人");
  ("tickets.fix_version", "修复版本");
  ("tickets.verification", "验证步骤");
  ("tickets.note", "时间线备注");
  ("tickets.save", "保存流程更新");
  ("tickets.saved", "工单流程已更新。");
  ("tickets.summary.empty", "没有补充说明。");
  ("tickets.timeline", "处理时间线");
  ("tickets.timeline.empty", "暂无处理记录。");
  ("tickets.event.CREATED", "创建工单");
  ("tickets.event.ACKNOWLEDGED", "已向反馈人确认");
  ("tickets.event.STATUS_CHANGED", "状态变更");
  ("tickets.event.NOTE", "添加备注");
  ("tickets.event.RELEASED", "版本已发布，等待验证");
  ("tickets.event.CLOSED", "工单关闭");
  ("crashes.hint", "这里只显示用户确认上传的 Desktop 诊断；同类故障自动合并，并在 90 天后清理。");
  ("crashes.refresh", "刷新");
  ("crashes.privacy.title", "隐私边界");
  ("crashes.privacy.body", "不采集对话、文件内容、凭据、Cookie、完整本机路径或供应商请求。");
  ("crashes.filter", "状态");
  ("crashes.status.ALL", "全部");
  ("crashes.status.NEW", "新报告");
  ("crashes.status.REVIEWING", "处理中");
  ("crashes.status.RESOLVED", "已解决");
  ("crashes.status.IGNORED", "已忽略");
  ("crashes.col.last", "最后发生");
  ("crashes.col.issue", "问题");
  ("crashes.col.runtime", "运行环境");
  ("crashes.col.count", "次数");
  ("crashes.col.review", "处理");
  ("crashes.count", "{n} 条报告");
  ("crashes.empty", "当前状态下没有报告。");
  ("crashes.note.placeholder", "内部处理备注（可选）");
  ("crashes.saved", "崩溃报告处理状态已保存。");
  ("crashes.alert.label", "飞书告警");
  ("crashes.alert.PENDING", "等待发送");
  ("crashes.alert.SENDING", "发送中");
  ("crashes.alert.SENT", "已送达");
  ("crashes.alert.FAILED", "发送失败");
  ("crashes.alert.retry", "重试告警");
  ("crashes.alert.retried", "飞书告警已重新排队。");
  ("crashes.kind.unclean_exit", "上一次运行未正常关闭");
  ("crashes.kind.renderer_exception", "界面异常");
  ("crashes.kind.renderer_unresponsive", "界面无响应")].
Definition zh_CN_enroll : dictionary := [
  ("enroll.hint", "签发一次性注册码,hara CLI 凭此码换取设备令牌。");
  ("enroll.orgid", "组织 ID");
  ("enroll.orgid.placeholder", "粘贴组织 ID…");
  ("enroll.person", "责任人员");
  ("enroll.person.choose", "选择组织成员…");
  ("enroll.person.hint", "每个公司 Key 必须先关联到具体人员，签发后不可改绑。");
  ("enroll.person.empty", "该组织还没有成员，请先新建成员。");
  ("enroll.person.required", "请选择该 Key 的责任人员。");
  ("enroll.person.new", "新建成员");
  ("enroll.person.new.title", "新建组织成员");
  ("enroll.person.new.body", "成员将作为公司 Key、用量和工作记录的责任主体。");
  ("enroll.person.new.name", "姓名");
  ("enroll.person.new.email", "公司邮箱");
  ("enroll.person.new.create", "创建成员");
  ("enroll.person.new.email_required", "请输入公司邮箱。");
  ("enroll.person.new.created", "成员已创建并选中。");
  ("enroll.model", "默认模型");
  ("enroll.model.loading", "正在加载可用模型…");
  ("enroll.model.hint", "同一个企业连接可在全部已授权模型间切换；这里仅选择默认模型。");
  ("enroll.model.unavailable", "当前没有可签发的托管模型。");
  ("enroll.model.option.flash", "DeepSeek V4 Flash · 快速省成本");
  ("enroll.model.option.pro", "DeepSeek V4 Pro · 最强 Agent 能力");
  ("enroll.model.option.vision", "DeepSeek V4 Vision-Exp · 原生视觉理解");
  ("enroll.model.detail.flash", "1M 上下文 · 最大输出 384K · 思考关闭 / 低 / 高 / 最大 · 推荐日常任务");
  ("enroll.model.detail.pro", "1M 上下文 · 最大输出 384K · 思考关闭 / 低 / 高 / 最大 · 推荐复杂编程和 Agent 任务");
  ("enroll.model.detail.vision", "1M 上下文 · 最大输出 384K · 文本和图片输入 · 实验性视觉模型");
  ("enroll.effort", "默认思考强度");
  ("enroll.effort.auto", "自动 · 使用模型默认值");
  ("enroll.effort.hint", "新对话、任务及继承连接设置的 Agent 使用此默认值；对话和 Agent 可以单独覆盖。");
  ("enroll.effort.off", "关闭");
  ("enroll.effort.minimal", "极低");
  ("enroll.effort.low", "低");
  ("enroll.effort.medium", "中");
  ("enroll.effort.high", "高");
  ("enroll.effort.xhigh", "极高");
  ("enroll.effort.max", "最大");
  ("enroll.gateway", "网关地址");
  ("enroll.gateway.placeholder", "https://gw.nanhara.tech");
  ("enroll.policy.title", "内部 Key 策略");
  ("enroll.policy.hint", "同事兑换一次性注册码后才会签发内部 Key。");
  ("enroll.policy.enforced", "网关强制执行");
  ("enroll.policy.token_days", "Key 有效期（天）");
  ("enroll.policy.token_days.hint", "到期后需重新注册，不会静默续期。");
  ("enroll.policy.never_expires", "此 Key 永不过期");
  ("enroll.policy.never_expires.hint", "仅超级管理员可用；消费额度、用量统计和人工吊销仍然生效。");
  ("enroll.policy.budgets", "滚动消费额度（美元）");
  ("enroll.policy.budgets.hint", "非空窗口会独立执行，并从 Key 签发时间起分别重置。");
  ("enroll.policy.window.5h", "5 小时");
  ("enroll.policy.window.week", "7 天");
  ("enroll.policy.window.month", "30 天");
  ("enroll.policy.unlimited", "不限额");
  ("enroll.policy.advanced", "高级速率限制");
  ("enroll.policy.rpm", "每分钟请求数（RPM）");
  ("enroll.policy.tpm", "每分钟 Token 数（TPM）");
  ("enroll.policy.invalid_number", "请输入允许范围内的正数。");
  ("enroll.mint", "签发注册码");
  ("enroll.result.title", "注册码已就绪");
  ("enroll.result.code", "注册码");
  ("enroll.result.cmd", "命令");
  ("enroll.result.cmd.hint", "在目标机器上粘贴执行。");
  ("enroll.result.expires", "注册码有效期至");
  ("enroll.result.model", "已授权模型");
  ("enroll.result.effort", "默认思考强度");
  ("enroll.result.policy", "将签发的内部 Key 策略");
  ("enroll.result.policy.validity", "有效期 · 兑换后 {days} 天");
  ("enroll.result.policy.never_expires", "有效期 · 无固定到期时间 · 可人工吊销");
  ("enroll.result.policy.budgets", "消费额度 · {budgets}");
  ("enroll.result.policy.rates", "速率 · {rates}");
  ("enroll.copy", "复制");
  ("enroll.copied", "已复制。")].
Definition zh_CN_accounts : dictionary := [
  ("users.hint", "仅 SUPERADMIN 可见 — 管理控制台账户。");
  ("users.new", "新建成员");
  ("users.new.email", "邮箱");
  ("users.new.email.placeholder", "user@nanhara.tech");
  ("users.new.password", "密码");
  ("users.new.password.placeholder", "至少 12 位字符");
  ("users.new.role", "角色");
  ("users.new.orgid", "组织 ID");
  ("users.new.orgid.placeholder", "可选");
  ("users.new.create", "创建");
  ("users.new.cancel", "取消");
  ("users.col.email", "邮箱");
  ("users.col.role", "角色");
  ("users.col.org", "组织");
  ("users.col.status", "状态");
  ("users.col.created", "创建时间");
  ("users.col.actions", "操作");
  ("users.status.active", "正常");
  ("users.status.disabled", "已停用");
  ("users.action.disable", "停用");
  ("users.action.enable", "启用");
  ("users.action.role", "改角色");
  ("users.action.password", "重置密码");
  ("users.role.title", "修改角色");
  ("users.role.body", "为 {email} 选择新角色。");
  ("users.password.title", "重置密码");
  ("users.password.body", "为 {email} 设置新密码(至少 12 位字符)。");
  ("users.password.field", "新密码");
  ("users.empty", "尚无成员。");
  ("users.toast.created", "成员已创建。");
  ("users.toast.role_updated", "角色已更新。");
  ("users.toast.password_reset", "密码已重置。");
  ("users.toast.disabled", "成员已停用。");
  ("users.toast.enabled", "成员已启用。");
  ("security.hint", "双因素登录(TOTP — 支持 Google Authenticator / 1Password / Authy 等)。");
  ("security.public_notice", "本控制台暴露在公网,强烈建议每个账户开启双因素登录。");
  ("security.status.on", "您的账户已开启双因素登录。");
  ("security.status.off", "您的账户尚未开启双因素登录。");
  ("security.enable", "开启双因素");
  ("security.enable.step1", "用您的验证器 App 扫描下方二维码。");
  ("security.enable.show_secret", "显示密钥(手动输入)");
  ("security.enable.hide_secret", "隐藏密钥");
  ("security.enable.secret_label", "密钥(base32)");
  ("security.enable.uri_label", "otpauth 链接");
  ("security.enable.step2", "输入您 App 当前显示的 6 位验证码。");
  ("security.enable.code", "当前验证码");
  ("security.enable.code.placeholder", "123456");
  ("security.enable.confirm", "激活");
  ("security.enable.cancel", "取消");
  ("security.disable.code", "当前 6 位验证码");
  ("security.disable.code.placeholder", "123456");
  ("security.disable.go", "关闭双因素");
  ("security.disable.confirm", "确定关闭您账户的双因素登录?");
  ("security.toast.enabled", "双因素已开启。");
  ("security.toast.disabled", "双因素已关闭。");
  ("provider.title", "托管模型供应商");
  ("provider.hint", "DeepSeek 密钥的加密保存与运行时生效状态。");
  ("provider.refresh", "刷新");
  ("provider.replace", "保存 / 轮换密钥");
  ("provider.test_stored", "测试已保存密钥");
  ("provider.test_runtime", "测试当前运行密钥");
  ("provider.activation_note", "保存密钥不会静默重启 LiteLLM；受控部署 / 重启会直接加载加密版本，不会把密钥复制进 PM2 配置。");
  ("provider.status.stored", "加密副本");
  ("provider.status.runtime", "受控运行时");
  ("provider.status.reachable", "运行时可达");
  ("provider.status.active", "已加载当前版本");
  ("provider.status.yes", "是");
  ("provider.status.no", "否");
  ("provider.status.unreadable", "不可解密 — 请检查 KMS");
  ("provider.status.needs_activation", "已保存密钥尚未生效");
  ("provider.status.ready", "运行时已加载当前加密版本");
  ("provider.key.title", "保存或轮换 DeepSeek 密钥");
  ("provider.key.body", "密钥将加密保存，API 永不回显。");
  ("provider.key.label", "DeepSeek API 密钥");
  ("provider.key.placeholder", "只粘贴一次，保存后不再显示");
  ("provider.toast.saved", "DeepSeek 密钥已安全保存。");
  ("provider.toast.test_ok", "DeepSeek 密钥测试通过。");
  ("provider.err.key_required", "请输入 DeepSeek API 密钥。")].
Definition zh_CN_common : dictionary := [
  ("common.copy", "复制");
  ("common.copied", "已复制。");
  ("common.cancel", "取消");
  ("common.save", "保存");
  ("common.confirm", "确认");
  ("common.close", "关闭");
  ("common.loading", "加载中…");
  ("common.empty", "暂无内容。");
  ("common.role.SUPERADMIN", "超级管理员");
  ("common.role.ADMIN", "管理员");
  ("common.role.MEMBER", "成员");
  ("err.name_required", "请填写名称。");
  ("err.orgid_required", "请填写组织 ID。");
  ("err.model_required", "请选择托管模型。");
  ("err.email_password_required", "邮箱与密码均为必填。");
  ("err.invalid_code", "请输入 6 位数字验证码。");
  ("err.no_pending_secret", "请重新发起绑定 — 没有待用密钥。");
  ("err.bad_role", "请选择有效的角色。");
  ("err.short_password", "密码至少 12 位字符。");
  ("err.unauthorized", "登录已过期 — 请重新登录。");
  ("err.network", "网络错误 — 请检查网络连接。");
  ("err.generic", "操作失败。");
  ("ok.org_created", "组织已创建。");
  ("ok.enroll_minted", "注册码已签发。")].
Definition zh_CN : dictionary :=
  zh_CN_chrome ++ zh_CN_orgs ++ zh_CN_fleet ++ zh_CN_usage ++ zh_CN_learnings ++ zh_CN_tickets ++ zh_CN_enroll ++ zh_CN_accounts ++ zh_CN_common.

Definition zh_TW_chrome : dictionary := [
  ("app.title", "hara-control");
  ("app.subtitle", "主控台");
  ("app.tagline", "自架控制平面");
  ("nav.overview", "總覽");
  ("nav.orgs", "組織");
  ("nav.fleet", "裝置");
  ("nav.usage", "用量與額度");
  ("nav.learnings", "業務學習");
  ("nav.tickets", "工單");
  ("nav.crashes", "當機報告");
  ("nav.enroll", "註冊碼");
  ("nav.users", "成員");
  ("nav.security", "安全");
  ("nav.gateway_status", "閘道");
  ("top.logout", "登出");
  ("top.language", "語言");
  ("crumb.overview", "總覽");
  ("crumb.orgs", "組織");
  ("crumb.fleet", "裝置");
  ("crumb.usage", "用量與額度");
  ("crumb.learnings", "業務學習");
  ("crumb.tickets", "工單");
  ("crumb.crashes", "當機報告");
  ("crumb.enroll", "註冊碼");
  ("crumb.users", "成員");
  ("crumb.security", "安全");
  ("login.title", "登入");
  ("login.email", "電子郵件");
  ("login.email.placeholder", "you@nanhara.tech");
  ("login.password", "密碼");
  ("login.password.placeholder", "您的密碼");
  ("login.code", "6 位驗證碼");
  ("login.code.placeholder", "123456");
  ("login.code.hint", "請開啟您的驗證器 App。");
  ("login.submit", "登入");
  ("login.verify", "驗證");
  ("login.footer", "自架控制平面 · /auth/login");
  ("overview.kpi.orgs", "組織數");
  ("overview.kpi.devices_online", "在線裝置");
  ("overview.kpi.activity_today", "本日活動");
  ("overview.kpi.users", "成員數");
  ("overview.placeholder", "即時統計待接入");
  ("overview.placeholder.note", "(目前無聚合 API,先以列表能算出的數值佔位)");
  ("overview.section.recent_enroll", "最近註冊");
  ("overview.section.heartbeat", "閘道心跳");
  ("overview.empty.recent_enroll", "目前無資料 — 可到「註冊碼」產生新的。");
  ("overview.heartbeat.placeholder", "即時心跳尚未接入 — 側欄底部顯示目前閘道狀態。")].
Definition zh_TW_orgs : dictionary := [
  ("orgs.hint", "建立組織單元(集團 / 公司 / 部門 / 小組)並檢視樹狀結構。");
  ("orgs.new.section", "建立組織");
  ("orgs.new.name", "名稱");
  ("orgs.new.name.placeholder", "例如:無錫南荒科技");
  ("orgs.new.type", "類型");
  ("orgs.new.parent", "上層組織 ID");
  ("orgs.new.parent.placeholder", "選填 — 留空即為根組織");
  ("orgs.new.create", "建立");
  ("orgs.new.created", "已建立");
  ("orgs.inspect.section", "檢視組織");
  ("orgs.inspect.id", "組織 ID");
  ("orgs.inspect.id.placeholder", "貼上組織 ID…");
  ("orgs.inspect.go", "檢視");
  ("orgs.inspect.ancestors", "上層路徑(根 → 自身)");
  ("orgs.inspect.subtree", "子樹 ID");
  ("orgs.inspect.subtree.count", "{n} 個後代(含自身)");
  ("orgs.inspect.subtree.more", "+ 還有 {n} 個");
  ("orgs.inspect.subtree.show_all", "全部展開");
  ("orgs.inspect.subtree.show_less", "收合");
  ("orgs.inspect.empty", "無上層 — 這是根組織。");
  ("orgs.type.GROUP", "集團");
  ("orgs.type.COMPANY", "公司");
  ("orgs.type.DEPARTMENT", "部門");
  ("orgs.type.TEAM", "小組");
  ("orgs.services.section", "組織服務連線");
  ("orgs.services.hint", "一個組織連線可統一接入模型路由、Desk、群組與已審核擴充目錄，Desktop 不必重複設定。");
  ("orgs.services.refresh", "重新整理");
  ("orgs.services.org", "組織");
  ("orgs.services.org.choose", "選擇組織…");
  ("orgs.services.kind", "服務");
  ("orgs.services.kind.DESK_TASKS", "Desk 任務");
  ("orgs.services.kind.COLLAB", "群組協作");
  ("orgs.services.kind.MODEL_CONTROL", "模型控制");
  ("orgs.services.kind.EXTENSION_CATALOG", "擴充目錄");
  ("orgs.services.mode", "託管方式");
  ("orgs.services.mode.HARA_HOSTED", "Hara 託管");
  ("orgs.services.mode.CUSTOMER_HOSTED", "企業自架");
  ("orgs.services.region", "帳號區域");
  ("orgs.services.region.CN", "中國區");
  ("orgs.services.region.GLOBAL", "全球區");
  ("orgs.services.origin", "API 根位址");
  ("orgs.services.credential", "Desk 接入口令");
  ("orgs.services.credential.placeholder", "留空則保留目前值");
  ("orgs.services.credential.hint", "使用 KMS 加密保存，API 不會回傳，稽核紀錄也不會寫入。");
  ("orgs.services.capabilities", "能力協定版本");
  ("orgs.services.issuer", "帳號簽發方");
  ("orgs.services.jwks", "JWKS 位址");
  ("orgs.services.audience", "權杖 Audience");
  ("orgs.services.save", "儲存為待驗證");
  ("orgs.services.verify", "驗證並啟用");
  ("orgs.services.disable", "停用");
  ("orgs.services.empty.no_org", "請先選擇一個組織，再管理其服務。");
  ("orgs.services.loading", "正在載入組織服務…");
  ("orgs.services.empty", "此組織尚未設定服務連線。");
  ("orgs.services.col.service", "服務");
  ("orgs.services.col.route", "位址");
  ("orgs.services.col.status", "狀態");
  ("orgs.services.col.config", "設定");
  ("orgs.services.col.actions", "操作");
  ("orgs.services.status.PENDING_VERIFICATION", "待驗證");
  ("orgs.services.status.ACTIVE", "已啟用");
  ("orgs.services.status.DEGRADED", "異常");
  ("orgs.services.status.DISABLED", "已停用");
  ("orgs.services.credential.set", "已設定加密口令");
  ("orgs.services.credential.none", "無需或尚無口令");
  ("orgs.services.edit", "編輯");
  ("orgs.services.err.org", "請先選擇組織。");
  ("orgs.services.err.origin", "請輸入服務 API 根位址。");
  ("orgs.services.saved", "已儲存，等待伺服器驗證。");
  ("orgs.services.verified", "驗證通過，服務已啟用。");
  ("orgs.services.disabled", "已停止向新接入裝置下發此服務。");
  ("orgs.services.disable.confirm", "確定停止向後續組織接入下發此服務嗎？既有遠端憑據不會被靜默撤銷。")].
Definition zh_TW_fleet : dictionary := [
  ("fleet.hint", "檢視某組織的即時裝置清單。在線 = 五分鐘內有心跳。");
  ("fleet.orgid", "組織 ID");
  ("fleet.orgid.placeholder", "貼上組織 ID…");
  ("fleet.load", "載入");
  ("fleet.filter.search", "依名稱搜尋…");
  ("fleet.filter.online_only", "僅在線");
  ("fleet.filter.model", "依模型篩選…");
  ("fleet.col.status", "狀態");
  ("fleet.col.name", "裝置");
  ("fleet.col.person", "關聯人員");
  ("fleet.col.os", "作業系統");
  ("fleet.col.model", "模型");
  ("fleet.model.retired", "已退出目前策略");
  ("fleet.col.spend", "用量");
  ("fleet.col.keys", "Key 記錄");
  ("fleet.spend.unavailable", "暫時無法取得");
  ("fleet.col.policy", "內部 Key 策略");
  ("fleet.col.id", "裝置 ID");
  ("fleet.col.actions", "操作");
  ("fleet.online", "在線");
  ("fleet.offline", "離線");
  ("fleet.revoke", "撤銷");
  ("fleet.revoke.retry", "重試遠端撤銷");
  ("fleet.revoke.confirm", "確定要撤銷 {id} 的所有有效權杖?");
  ("fleet.revoke.toast", "已撤銷 {n} 個權杖。");
  ("fleet.revoked", "已撤銷");
  ("fleet.revocation_pending", "撤銷處理中");
  ("fleet.empty.no_org", "輸入組織 ID 以載入裝置清單。");
  ("fleet.empty.no_devices", "該組織目前沒有裝置。");
  ("fleet.empty.no_match", "目前篩選條件下沒有符合的裝置。");
  ("fleet.copy.id", "複製裝置 ID");
  ("fleet.policy.expires", "有效至 {date}");
  ("fleet.policy.no_expiry", "無有效權杖");
  ("fleet.policy.rates", "速率：{rates}");
  ("fleet.policy.rates_unlimited", "速率不限");
  ("fleet.keys.none", "暫無 Key 記錄");
  ("fleet.keys.count", "{n} 筆 Key 記錄");
  ("fleet.key.status.active", "有效");
  ("fleet.key.status.revoked", "已撤銷");
  ("fleet.key.status.expired", "已過期");
  ("fleet.key.status.revocation_pending", "撤銷處理中");
  ("fleet.key.created", "建立於 {date}");
  ("fleet.key.revoked_at", "撤銷於 {date}");
  ("fleet.key.revocation_pending_since", "已於 {date} 在本機停用，正在重試遠端撤銷");
  ("fleet.key.expires", "有效至 {date}");
  ("fleet.key.no_expiry", "長期有效（仍可撤銷）");
  ("fleet.key.spend", "累計用量 {spend}");
  ("fleet.key.copy_id", "複製非秘密 Key 記錄 ID");
  ("fleet.person.unbound", "未關聯人員");
  ("fleet.person.bind", "關聯");
  ("fleet.person.none", "請先在「簽發註冊碼」頁面建立組織成員。");
  ("fleet.person.bind.title", "關聯歷史裝置");
  ("fleet.person.bind.body", "此關聯只能設定一次；如人員選錯，應撤銷並重新接入。");
  ("fleet.person.bound", "裝置已關聯人員，歷史 Key 和用量已歸入該人員。")].
Definition zh_TW_usage : dictionary := [
  ("usage.hint", "檢視供應商權威用量與獨立的公司策略，不在本機估算計費。");
  ("usage.org", "企業 / 組織");
  ("usage.org.choose", "選擇企業…");
  ("usage.range", "時間範圍");
  ("usage.range.24h", "24 小時");
  ("usage.range.7d", "7 天");
  ("usage.range.30d", "30 天");
  ("usage.refresh", "重新整理");
  ("usage.updated", "更新於 {time}");
  ("usage.accounting.provider", "計量來源：{source} · 供應商原生單位");
  ("usage.accounting.gateway", "計量來源：{source} · {unit} 帳本");
  ("usage.unavailable", "權威用量帳本暫時無法取得。設定額度仍會顯示，系統不會偽造為 0。");
  ("usage.kpi.spend", "消費金額");
  ("usage.kpi.spend.hint", "權威美元計費帳本");
  ("usage.kpi.tokens", "Token 用量");
  ("usage.kpi.tokens.hint", "輸入 + 輸出");
  ("usage.kpi.requests", "請求次數");
  ("usage.kpi.requests.hint", "已完成的閘道呼叫");
  ("usage.kpi.latest", "最近使用");
  ("usage.kpi.latest.hint", "最近一筆已計費請求");
  ("usage.chart.title", "用量時間軸");
  ("usage.chart.hint", "珊瑚色曲線表示金額，柱形表示 Token 數量。");
  ("usage.chart.spend", "消費");
  ("usage.chart.tokens", "Token");
  ("usage.native.title", "供應商訂閱額度");
  ("usage.native.hint", "數值、單位、倍率與重設週期均保留供應商原始規則。");
  ("usage.native.authoritative", "供應商權威資料");
  ("usage.native.unavailable", "供應商權威額度暫時無法取得；Hara 不會根據回應 Token 自行估算。");
  ("usage.native.no_meters", "供應商沒有回傳此企業的額度項目。");
  ("usage.native.value", "{used} / {limit} {unit}");
  ("usage.native.remaining", "剩餘 {remaining} {unit}");
  ("usage.native.window", "週期：{window}");
  ("usage.native.reset", "重設於 {time}");
  ("usage.native.status.available", "可用");
  ("usage.native.status.exhausted", "已用盡");
  ("usage.native.status.unknown", "未知");
  ("usage.quota.title", "公司內部策略");
  ("usage.quota.hint", "Control 管理的限制與上游供應商訂閱額度分別顯示。");
  ("usage.quota.enforced", "Control 執行");
  ("usage.quota.value", "{used} / {max} · {percent}%");
  ("usage.quota.unavailable", "帳本暫時無法取得");
  ("usage.quota.expires", "有效至 {date}");
  ("usage.quota.rate_only", "此 Key 僅設定速率限制，未設定金額額度。");
  ("usage.breakdown.title", "誰在使用什麼");
  ("usage.breakdown.hint", "所選時間範圍內依同事、裝置與模型彙總。");
  ("usage.col.person", "同事");
  ("usage.col.device", "裝置");
  ("usage.col.model", "模型");
  ("usage.col.spend", "消費");
  ("usage.col.tokens", "Token");
  ("usage.col.requests", "請求");
  ("usage.col.last", "最近使用");
  ("usage.empty.choose_org", "請選擇企業以載入其用量帳本。");
  ("usage.empty.no_activity", "此時間範圍內沒有已計費用量。");
  ("usage.empty.no_quotas", "目前沒有設定額度或速率限制的有效裝置 Key。")].
Definition zh_TW_learnings : dictionary := [
  ("learnings.hint", "先審核反覆出現且已去識別化的執行證據，再將其作為組織級業務規則下發。");
  ("learnings.org", "企業 / 組織");
  ("learnings.org.choose", "選擇企業…");
  ("learnings.filter", "檢視");
  ("learnings.filter.review", "待審核");
  ("learnings.filter.active", "生效中");
  ("learnings.filter.history", "歷史");
  ("learnings.filter.all", "全部");
  ("learnings.refresh", "重新整理");
  ("learnings.updated", "更新於 {time}");
  ("learnings.loading", "正在載入組織學習帳本…");
  ("learnings.guardrail.title", "審核後才會重用");
  ("learnings.guardrail.body", "只有審核通過的摘要才會進入組織提示詞。證據有數量上限並已去識別化；伺服器會拒絕密鑰、憑證和本機私有路徑。");
  ("learnings.kpi.review", "待審核");
  ("learnings.kpi.review.hint", "新候選規則，或既有規則的待審更新");
  ("learnings.kpi.active", "生效中");
  ("learnings.kpi.active.hint", "已核准並下發到已註冊裝置");
  ("learnings.kpi.stable", "穩定重現");
  ("learnings.kpi.stable.hint", "30 天內至少出現 3 次且涉及 2 個任務");
  ("learnings.kpi.total", "總計");
  ("learnings.kpi.total.hint", "有容量邊界的組織學習帳本");
  ("learnings.empty.choose_org", "請選擇企業以檢視其業務學習帳本。");
  ("learnings.empty.review", "目前沒有需要審核的學習。");
  ("learnings.empty.active", "目前還沒有已生效的組織學習。");
  ("learnings.empty.history", "目前還沒有被拒絕或撤銷的學習。");
  ("learnings.empty.all", "此組織尚未提交任何業務學習。");
  ("learnings.status.pending", "待審核");
  ("learnings.status.approved", "已核准");
  ("learnings.status.rejected", "已拒絕");
  ("learnings.status.revoked", "已撤銷");
  ("learnings.kind.business_rule", "業務規則");
  ("learnings.kind.user_preference", "使用者偏好");
  ("learnings.kind.workflow", "工作流程");
  ("learnings.kind.correction", "糾錯");
  ("learnings.kind.failure_pattern", "失敗模式");
  ("learnings.kind.action_ownership", "任務執行責任");
  ("learnings.source.explicit_user", "使用者明確指示");
  ("learnings.source.verified_task", "已驗證任務");
  ("learnings.source.user_correction", "使用者更正");
  ("learnings.source.tool_failure", "工具失敗");
  ("learnings.source.workflow_result", "流程結果");
  ("learnings.source.runtime_guard", "執行期守衛");
  ("learnings.recurring", "已穩定重現");
  ("learnings.pending_update", "有待審更新");
  ("learnings.metric.observations", "重現 {n} 次");
  ("learnings.metric.tasks", "涉及 {n} 個任務");
  ("learnings.current", "目前已核准規則");
  ("learnings.proposal", "候選規則");
  ("learnings.proposed_update", "候選更新");
  ("learnings.updated_at", "更新於 {time}");
  ("learnings.reviewed_by", "審核人：{person}");
  ("learnings.evidence", "去識別化證據回執（{n}）");
  ("learnings.action.approve", "核准並下發");
  ("learnings.action.reject", "拒絕");
  ("learnings.action.revoke", "撤銷");
  ("learnings.confirm.reject", "確定拒絕這條候選規則？它不會進入組織提示詞。");
  ("learnings.confirm.revoke", "確定撤銷這條生效規則？已註冊裝置會在下次同步時刪除它。");
  ("learnings.toast.approve", "學習已核准，組織規則版本已更新。");
  ("learnings.toast.reject", "候選學習已拒絕。");
  ("learnings.toast.revoke", "學習已撤銷，裝置會在同步後移除。")].
Definition zh_TW_tickets : dictionary := [
  ("tickets.hint", "飛書回饋、Control 受理、版本發布和測試驗收共用一套有編號的閉環流程。");
  ("tickets.refresh", "重新整理");
  ("tickets.filter.status", "狀態");
  ("tickets.filter.kind", "類型");
  ("tickets.filter.priority", "優先級");
  ("tickets.status.ALL", "全部");
  ("tickets.status.RECEIVED", "已受理");
  ("tickets.status.ACKNOWLEDGED", "已確認");
  ("tickets.status.IN_PROGRESS", "處理中");
  ("tickets.status.WAITING_RELEASE", "待發布");
  ("tickets.status.WAITING_VERIFICATION", "待驗證");
  ("tickets.status.BLOCKED", "受阻");
  ("tickets.status.CLOSED", "已關閉");
  ("tickets.status.REJECTED", "不處理");
  ("tickets.kind.ALL", "全部");
  ("tickets.kind.BUG", "缺陷");
  ("tickets.kind.SUGGESTION", "建議");
  ("tickets.kind.CRASH", "當機");
  ("tickets.kind.OTHER", "其他");
  ("tickets.priority.ALL", "全部");
  ("tickets.priority.URGENT", "緊急");
  ("tickets.priority.HIGH", "高");
  ("tickets.priority.NORMAL", "一般");
  ("tickets.priority.LOW", "低");
  ("tickets.source.FEISHU", "飛書");
  ("tickets.source.CONTROL", "Control");
  ("tickets.source.INTERNAL", "內部");
  ("tickets.col.number", "工單");
  ("tickets.col.updated", "更新時間");
  ("tickets.col.issue", "問題");
  ("tickets.col.source", "來源");
  ("tickets.col.workflow", "流程");
  ("tickets.col.action", "操作");
  ("tickets.count", "{n} 個工單");
  ("tickets.empty", "目前篩選條件下沒有工單。");
  ("tickets.open", "開啟");
  ("tickets.assignee", "處理人");
  ("tickets.fix_version", "修復版本");
  ("tickets.verification", "驗證步驟");
  ("tickets.note", "時間線備註");
  ("tickets.save", "儲存流程更新");
  ("tickets.saved", "工單流程已更新。");
  ("tickets.summary.empty", "沒有補充說明。");
  ("tickets.timeline", "處理時間線");
  ("tickets.timeline.empty", "暫無處理記錄。");
  ("tickets.event.CREATED", "建立工單");
  ("tickets.event.ACKNOWLEDGED", "已向回饋人確認");
  ("tickets.event.STATUS_CHANGED", "狀態變更");
  ("tickets.event.NOTE", "新增備註");
  ("tickets.event.RELEASED", "版本已發布，等待驗證");
  ("tickets.event.CLOSED", "工單關閉");
  ("crashes.hint", "僅顯示使用者確認上傳的 Desktop 診斷；相同故障會自動合併，並於 90 天後清除。");
  ("crashes.refresh", "重新整理");
  ("crashes.privacy.title", "隱私邊界");
  ("crashes.privacy.body", "不收集對話、檔案內容、憑證、Cookie、完整本機路徑或供應商請求。");
  ("crashes.filter", "狀態");
  ("crashes.status.ALL", "全部");
  ("crashes.status.NEW", "新報告");
  ("crashes.status.REVIEWING", "處理中");
  ("crashes.status.RESOLVED", "已解決");
  ("crashes.status.IGNORED", "已忽略");
  ("crashes.col.last", "最後發生");
  ("crashes.col.issue", "問題");
  ("crashes.col.runtime", "執行環境");
  ("crashes.col.count", "次數");
  ("crashes.col.review", "處理");
  ("crashes.count", "{n} 筆報告");
  ("crashes.empty", "目前狀態下沒有報告。");
  ("crashes.note.placeholder", "內部處理備註（選填）");
  ("crashes.saved", "當機報告處理狀態已儲存。");
  ("crashes.alert.label", "飛書告警");
  ("crashes.alert.PENDING", "等待傳送");
  ("crashes.alert.SENDING", "傳送中");
  ("crashes.alert.SENT", "已送達");
  ("crashes.alert.FAILED", "傳送失敗");
  ("crashes.alert.retry", "重試告警");
  ("crashes.alert.retried", "飛書告警已重新排隊。");
  ("crashes.kind.unclean_exit", "上次執行未正常關閉");
  ("crashes.kind.renderer_exception", "介面異常");
  ("crashes.kind.renderer_unresponsive", "介面無回應")].
Definition zh_TW_enroll : dictionary := [
  ("enroll.hint", "簽發一次性註冊碼,hara CLI 憑此碼換取裝置權杖。");
  ("enroll.orgid", "組織 ID");
  ("enroll.orgid.placeholder", "貼上組織 ID…");
  ("enroll.person", "責任人員");
  ("enroll.person.choose", "選擇組織成員…");
  ("enroll.person.hint", "每個公司 Key 必須先關聯到具體人員，簽發後不可改綁。");
  ("enroll.person.empty", "該組織還沒有成員，請先建立成員。");
  ("enroll.person.required", "請選擇該 Key 的責任人員。");
  ("enroll.person.new", "建立成員");
  ("enroll.person.new.title", "建立組織成員");
  ("enroll.person.new.body", "成員將作為公司 Key、用量和工作記錄的責任主體。");
  ("enroll.person.new.name", "姓名");
  ("enroll.person.new.email", "公司信箱");
  ("enroll.person.new.create", "建立成員");
  ("enroll.person.new.email_required", "請輸入公司信箱。");
  ("enroll.person.new.created", "成員已建立並選取。");
  ("enroll.model", "預設模型");
  ("enroll.model.loading", "正在載入可用模型…");
  ("enroll.model.hint", "同一個企業連線可在全部已授權模型間切換；這裡只選擇預設模型。");
  ("enroll.model.unavailable", "目前沒有可簽發的託管模型。");
  ("enroll.model.option.flash", "DeepSeek V4 Flash · 快速省成本");
  ("enroll.model.option.pro", "DeepSeek V4 Pro · 最強 Agent 能力");
  ("enroll.model.option.vision", "DeepSeek V4 Vision-Exp · 原生視覺理解");
  ("enroll.model.detail.flash", "1M 上下文 · 最大輸出 384K · 思考關閉 / 低 / 高 / 最大 · 建議日常任務");
  ("enroll.model.detail.pro", "1M 上下文 · 最大輸出 384K · 思考關閉 / 低 / 高 / 最大 · 建議複雜程式設計和 Agent 任務");
  ("enroll.model.detail.vision", "1M 上下文 · 最大輸出 384K · 文字和圖片輸入 · 實驗性視覺模型");
  ("enroll.effort", "預設思考強度");
  ("enroll.effort.auto", "自動 · 使用模型預設值");
  ("enroll.effort.hint", "新對話、任務及繼承連線設定的 Agent 使用此預設值；對話和 Agent 可以單獨覆寫。");
  ("enroll.effort.off", "關閉");
  ("enroll.effort.minimal", "極低");
  ("enroll.effort.low", "低");
  ("enroll.effort.medium", "中");
  ("enroll.effort.high", "高");
  ("enroll.effort.xhigh", "極高");
  ("enroll.effort.max", "最大");
  ("enroll.gateway", "閘道網址");
  ("enroll.gateway.placeholder", "https://gw.nanhara.tech");
  ("enroll.policy.title", "內部 Key 策略");
  ("enroll.policy.hint", "同事兌換一次性註冊碼後才會簽發內部 Key。");
  ("enroll.policy.enforced", "閘道強制執行");
  ("enroll.policy.token_days", "Key 有效期（天）");
  ("enroll.policy.token_days.hint", "到期後需重新註冊，不會靜默續期。");
  ("enroll.policy.never_expires", "此 Key 永不過期");
  ("enroll.policy.never_expires.hint", "僅超級管理員可用；消費額度、用量統計和人工吊銷仍然生效。");
  ("enroll.policy.budgets", "滾動消費額度（美元）");
  ("enroll.policy.budgets.hint", "非空視窗會獨立執行，並從 Key 簽發時間起分別重置。");
  ("enroll.policy.window.5h", "5 小時");
  ("enroll.policy.window.week", "7 天");
  ("enroll.policy.window.month", "30 天");
  ("enroll.policy.unlimited", "不限額");
  ("enroll.policy.advanced", "進階速率限制");
  ("enroll.policy.rpm", "每分鐘請求數（RPM）");
  ("enroll.policy.tpm", "每分鐘 Token 數（TPM）");
  ("enroll.policy.invalid_number", "請輸入允許範圍內的正數。");
  ("enroll.mint", "簽發註冊碼");
  ("enroll.result.title", "註冊碼已就緒");
  ("enroll.result.code", "註冊碼");
  ("enroll.result.cmd", "指令");
  ("enroll.result.cmd.hint", "在目標機器上貼上執行。");
  ("enroll.result.expires", "註冊碼有效期至");
  ("enroll.result.model", "已授權模型");
  ("enroll.result.effort", "預設思考強度");
  ("enroll.result.policy", "將簽發的內部 Key 策略");
  ("enroll.result.policy.validity", "有效期 · 兌換後 {days} 天");
  ("enroll.result.policy.never_expires", "有效期 · 無固定到期時間 · 可人工吊銷");
  ("enroll.result.policy.budgets", "消費額度 · {budgets}");
  ("enroll.result.policy.rates", "速率 · {rates}");
  ("enroll.copy", "複製");
  ("enroll.copied", "已複製。")].
Definition zh_TW_accounts : dictionary := [
  ("users.hint", "僅 SUPERADMIN 可見 — 管理主控台帳號。");
  ("users.new", "新增成員");
  ("users.new.email", "電子郵件");
  ("users.new.email.placeholder", "user@nanhara.tech");
  ("users.new.password", "密碼");
  ("users.new.password.placeholder", "至少 12 個字元");
  ("users.new.role", "角色");
  ("users.new.orgid", "組織 ID");
  ("users.new.orgid.placeholder", "選填");
  ("users.new.create", "建立");
  ("users.new.cancel", "取消");
  ("users.col.email", "電子郵件");
  ("users.col.role", "角色");
  ("users.col.org", "組織");
  ("users.col.status", "狀態");
  ("users.col.created", "建立時間");
  ("users.col.actions", "操作");
  ("users.status.active", "正常");
  ("users.status.disabled", "已停用");
  ("users.action.disable", "停用");
  ("users.action.enable", "啟用");
  ("users.action.role", "改角色");
  ("users.action.password", "重設密碼");
  ("users.role.title", "修改角色");
  ("users.role.body", "為 {email} 選擇新角色。");
  ("users.password.title", "重設密碼");
  ("users.password.body", "為 {email} 設定新密碼(至少 12 個字元)。");
  ("users.password.field", "新密碼");
  ("users.empty", "目前沒有成員。");
  ("users.toast.created", "成員已建立。");
  ("users.toast.role_updated", "角色已更新。");
  ("users.toast.password_reset", "密碼已重設。");
  ("users.toast.disabled", "成員已停用。");
  ("users.toast.enabled", "成員已啟用。");
  ("security.hint", "雙因素登入(TOTP — 支援 Google Authenticator / 1Password / Authy 等)。");
  ("security.public_notice", "本主控台位於公開網際網路,強烈建議每個帳號都開啟雙因素登入。");
  ("security.status.on", "您的帳號已開啟雙因素登入。");
  ("security.status.off", "您的帳號尚未開啟雙因素登入。");
  ("security.enable", "開啟雙因素");
  ("security.enable.step1", "請用您的驗證器 App 掃描下方 QR 碼。");
  ("security.enable.show_secret", "顯示密鑰(手動輸入)");
  ("security.enable.hide_secret", "隱藏密鑰");
  ("security.enable.secret_label", "密鑰(base32)");
  ("security.enable.uri_label", "otpauth 連結");
  ("security.enable.step2", "輸入您 App 目前顯示的 6 位驗證碼。");
  ("security.enable.code", "目前驗證碼");
  ("security.enable.code.placeholder", "123456");
  ("security.enable.confirm", "啟用");
  ("security.enable.cancel", "取消");
  ("security.disable.code", "目前 6 位驗證碼");
  ("security.disable.code.placeholder", "123456");
  ("security.disable.go", "關閉雙因素");
  ("security.disable.confirm", "確定要關閉您帳號的雙因素登入?");
  ("security.toast.enabled", "雙因素已開啟。");
  ("security.toast.disabled", "雙因素已關閉。");
  ("provider.title", "託管模型供應商");
  ("provider.hint", "DeepSeek 密鑰的加密儲存與執行階段生效狀態。");
  ("provider.refresh", "重新整理");
  ("provider.replace", "儲存 / 輪換密鑰");
  ("provider.test_stored", "測試已儲存密鑰");
  ("provider.test_runtime", "測試目前執行密鑰");
  ("provider.activation_note", "儲存密鑰不會靜默重啟 LiteLLM；受控部署 / 重啟會直接載入加密版本，不會把密鑰複製進 PM2 設定。");
  ("provider.status.stored", "加密副本");
  ("provider.status.runtime", "受控執行階段");
  ("provider.status.reachable", "執行階段可連線");
  ("provider.status.active", "已載入目前版本");
  ("provider.status.yes", "是");
  ("provider.status.no", "否");
  ("provider.status.unreadable", "無法解密 — 請檢查 KMS");
  ("provider.status.needs_activation", "已儲存密鑰尚未生效");
  ("provider.status.ready", "執行階段已載入目前加密版本");
  ("provider.key.title", "儲存或輪換 DeepSeek 密鑰");
  ("provider.key.body", "密鑰將加密儲存，API 永不回顯。");
  ("provider.key.label", "DeepSeek API 密鑰");
  ("provider.key.placeholder", "只貼上一次，儲存後不再顯示");
  ("provider.toast.saved", "DeepSeek 密鑰已安全儲存。");
  ("provider.toast.test_ok", "DeepSeek 密鑰測試通過。");
  ("provider.err.key_required", "請輸入 DeepSeek API 密鑰。")].
Definition zh_TW_common : dictionary := [
  ("common.copy", "複製");
  ("common.copied", "已複製。");
  ("common.cancel", "取消");
  ("common.save", "儲存");
  ("common.confirm", "確認");
  ("common.close", "關閉");
  ("common.loading", "載入中…");
  ("common.empty", "沒有內容。");
  ("common.role.SUPERADMIN", "超級管理員");
  ("common.role.ADMIN", "管理員");
  ("common.role.MEMBER", "成員");
  ("err.name_required", "請填寫名稱。");
  ("err.orgid_required", "請填寫組織 ID。");
  ("err.model_required", "請選擇託管模型。");
  ("err.email_password_required", "電子郵件與密碼皆為必填。");
  ("err.invalid_code", "請輸入 6 位數字驗證碼。");
  ("err.no_pending_secret", "請重新發起綁定 — 無待用密鑰。");
  ("err.bad_role", "請選擇有效的角色。");
  ("err.short_password", "密碼至少 12 個字元。");
  ("err.unauthorized", "登入已逾時 — 請重新登入。");
  ("err.network", "網路錯誤 — 請檢查網路連線。");
  ("err.generic", "操作失敗。");
  ("ok.org_created", "組織已建立。");
  ("ok.enroll_minted", "註冊碼已簽發。")].
Definition zh_TW : dictionary :=
  zh_TW_chrome ++ zh_TW_orgs ++ zh_TW_fleet ++ zh_TW_usage ++ zh_TW_learnings ++ zh_TW_tickets ++ zh_TW_enroll ++ zh_TW_accounts ++ zh_TW_common.

(** * The engine *)

Definition LANGS : list string := ["en"; "zh-CN"; "zh-TW"].
(** [window.HARA_I18N] *)
Definition dicts : list (string * dictionary) := [("en", en); ("zh-CN", zh_CN); ("zh-TW", zh_TW)].

(** The language of a visit, from the stored choice and the locale of the browser. *)
Definition detect (stored language : option string) : string :=
  let s := nullish stored "" in
  if truthy s && mem s LANGS then s
  else
    let raw := toLowerCase (or_default (nullish language "") "en") in
    if startsWith "zh-tw" raw || startsWith "zh-hk" raw || startsWith "zh-mo" raw || String.eqb raw "zh-hant" then "zh-TW"
    else if startsWith "zh" raw then "zh-CN"
    else "en".
(** [set(lang)]: the current language and the stored choice. *)
Definition set (lang : string) (s : string * option string) : string * option string :=
  if mem lang LANGS then (lang, Some lang) else s.

(** [text.replace(new RegExp(pat, "g"), repl)] for a pattern that is matched as it is written; [before] is the text already
    passed, [skip] what is left of the last match. *)
Fixpoint replace_go (pat repl : list ascii) (skip : nat) (before l : list ascii) : list ascii :=
  match l with
  | [] => []
  | c :: l' =>
      match skip with
      | S n => replace_go pat repl n (before ++ [c]) l'
      | O => if bool_decide (pat `prefix_of` l)
          then substitution before pat (drop (length pat) l) repl ++ replace_go pat repl (length pat - 1) (before ++ [c]) l'
          else c :: replace_go pat repl 0 (before ++ [c]) l'
      end
  end.
Definition hole (k : string) : list ascii := "{"%char :: chars k ++ ["}"%char].
Definition instantiate (s : string) (p : string * string) : string := str (replace_go (hole p.1) (chars p.2) 0 [] (chars s)).
(** The text of a key: the current language's, else the English one. *)
Definition message (current key : string) : option string :=
  match assoc current dicts ≫= assoc key with
  | Some s => if truthy s then Some s else assoc "en" dicts ≫= assoc key
  | None => assoc "en" dicts ≫= assoc key
  end.
Definition t (current key : string) (params : list (string * string)) : string :=
  match message current key with
  | None => key
  | Some s => foldl instantiate s params
  end.

(** * Messages as templates *)

Inductive piece : Type :=
  | Text (l : list ascii)
  | Hole (k : list ascii).
(** [open] is the name read since an opening brace, if one is open. *)
Fixpoint parse (open : option (list ascii)) (cur l : list ascii) : list piece :=
  match l with
  | [] => [Text (cur ++ match open with Some h => "{"%char :: h | None => [] end)]
  | c :: l' =>
      match open with
      | None => if Ascii.eqb c "{" then parse (Some []) cur l' else parse None (cur ++ [c]) l'
      | Some h => if Ascii.eqb c "}" then Text cur :: Hole h :: parse None [] l' else parse (Some (h ++ [c])) cur l'
      end
  end.
Definition pieces (s : string) : list piece := parse None [] (chars s).
Definition piece_text (p : piece) : list ascii :=
  match p with Text l => l | Hole k => "{"%char :: k ++ ["}"%char] end.
Definition render (ps : list piece) : list ascii := ps ≫= piece_text.
(** A template: every hole replaced by its parameter, if there is one. *)
Definition fill_piece (params : list (string * string)) (p : piece) : list ascii :=
  match p with Text l => l | Hole k => from_option chars (piece_text (Hole k)) (assoc (str k) params) end.
Definition fill (params : list (string * string)) (ps : list piece) : string := str (ps ≫= fill_piece params).

Definition braceless (l : list ascii) : bool := forallb (λ c, negb (Ascii.eqb c "{" || Ascii.eqb c "}")) l.
(** No brace outside the holes. *)
Definition tidy (ps : list piece) : bool := forallb (λ p, match p with Text l | Hole l => braceless l end) ps.
(** A text without the dollar sequences that a replacement reads (an amount such as $12.50 has none). *)
Fixpoint literal (l : list ascii) : bool :=
  match l with
  | [] => true
  | c :: l' => negb (Ascii.eqb c "$" && match l' with d :: _ => is_char "$&`'" d | [] => false end) && literal l'
  end.
(** A parameter text that the replacement inserts as it is and that opens no hole. *)
Definition plain (s : string) : Prop := literal (chars s) = true ∧ braceless (chars s) = true.
Definition holes (s : string) : list string :=
  omap (λ p, match p with Hole k => Some (str k) | Text _ => None end) (pieces s).

Lemma render_parse l : ∀ open cur,
  render (parse open cur l) = cur ++ match open with Some h => "{"%char :: h | None => [] end ++ l.
Proof.
  induction l as [|c l IH]; intros [h|] cur; cbn [parse].
  - cbn. by rewrite !app_nil_r.
  - cbn. by rewrite !app_nil_r.
  - destruct (Ascii.eqb_spec c "}"); [subst|].
    + cbn [render mbind list_bind piece_text]. unfold render in IH. rewrite IH. cbn. by rewrite <- !app_assoc.
    + rewrite IH. cbn. by rewrite <- !app_assoc.
  - destruct (Ascii.eqb_spec c "{"); [subst|]; rewrite IH; cbn; [done|]. by rewrite <- !app_assoc.
Qed.
Lemma render_pieces s : render (pieces s) = chars s.
Proof. apply render_parse. Qed.

Lemma braceless_cons c l : braceless (c :: l) = true ↔ c ≠ "{"%char ∧ c ≠ "}"%char ∧ braceless l = true.
Proof.
  cbn [braceless forallb]. fold (braceless l). destruct (Ascii.eqb_spec c "{"), (Ascii.eqb_spec c "}"), (braceless l); naive_solver.
Qed.
Lemma substitution_literal before matched after l : literal l = true → substitution before matched after l = l.
Proof.
  induction l as [|c l IH]; [done|]. cbn [literal]. intros [Hc Hl]%andb_true_iff. specialize (IH Hl).
  destruct (Ascii.eqb_spec c "$") as [->|Hne].
  - destruct l as [|d l]; [done|]. cbn [andb] in Hc. apply negb_true_iff in Hc.
    destruct d as [[] [] [] [] [] [] [] []]; try discriminate Hc; cbn [substitution] in *; by rewrite IH.
  - destruct c as [[] [] [] [] [] [] [] []]; try (by destruct Hne); cbn [substitution]; by rewrite IH.
Qed.
(** Passing over text without an opening brace. *)
Lemma replace_text pat repl l : ∀ before rest, braceless l = true →
  replace_go ("{"%char :: pat) repl 0 before (l ++ rest) = l ++ replace_go ("{"%char :: pat) repl 0 (before ++ l) rest.
Proof.
  induction l as [|c l IH]; intros before rest; cbn [app]; [by rewrite app_nil_r|]. intros (H1 & _ & Hl)%braceless_cons. cbn [replace_go].
  rewrite bool_decide_eq_false_2; [|by intros [? [= ? _]]]. rewrite IH by done. by rewrite <- app_assoc.
Qed.
Lemma replace_skip pat repl l : ∀ before rest,
  replace_go pat repl (length l) before (l ++ rest) = replace_go pat repl 0 (before ++ l) rest.
Proof.
  induction l as [|c l IH]; intros before rest; cbn; [by rewrite app_nil_r|]. rewrite IH. by rewrite <- app_assoc.
Qed.
Lemma same_hole (k h rest : list ascii) : braceless k = true → braceless h = true →
  ((k ++ ["}"%char]) `prefix_of` (h ++ "}"%char :: rest)) ↔ k = h.
Proof.
  intros Hk Hh. split; [|intros ->; exists rest; by rewrite <- app_assoc].
  revert h Hh. induction k as [|c k IH]; intros [|d h] Hh [x Hx]; cbn in Hx; [done|..].
  - injection Hx as -> _. by apply braceless_cons in Hh as (_ & ? & _).
  - injection Hx as <- _. by apply braceless_cons in Hk as (_ & ? & _).
  - injection Hx as -> Hx. apply braceless_cons in Hk as (_ & _ & Hk), Hh as (_ & _ & Hh). f_equal. apply IH; [done..|]. by exists x.
Qed.
Definition set_hole (k v : list ascii) (p : piece) : piece :=
  match p with Hole h => if bool_decide (h = k) then Text v else p | Text _ => p end.
Lemma replace_render k v ps : ∀ before, braceless k = true → literal v = true → tidy ps = true →
  replace_go ("{"%char :: k ++ ["}"%char]) v 0 before (render ps) = render (set_hole k v <$> ps).
Proof.
  intros before Hk Hv. revert before. induction ps as [|p ps IH]; intros before; [done|]. cbn [tidy forallb]. fold (tidy ps).
  intros [Hp Hps]%andb_true_iff. change (render (p :: ps)) with (piece_text p ++ render ps).
  cbn [fmap list_fmap]. change (render (?a :: ?b)) with (piece_text a ++ render b). destruct p as [l|h]; cbn [piece_text set_hole].
  - rewrite replace_text by done. by rewrite IH.
  - cbn [app]. rewrite <- app_assoc. cbn [app]. case_bool_decide as Heq.
    + subst h. cbn [replace_go]. rewrite bool_decide_eq_true_2 by (exists (render ps); cbn [app]; by rewrite <- app_assoc).
      rewrite substitution_literal by done. cbn [piece_text]. f_equal. cbn [length Nat.sub]. rewrite Nat.sub_0_r.
      change (k ++ "}"%char :: render ps) with (k ++ ["}"%char] ++ render ps). rewrite app_assoc, replace_skip. by rewrite IH.
    + cbn [replace_go]. rewrite bool_decide_eq_false_2.
      2: { intros Hpre. apply prefix_cons_inv_2 in Hpre. apply same_hole in Hpre; [congruence|done..]. }
      rewrite replace_text by done. cbn [piece_text app]. rewrite <- (app_assoc h). cbn [app]. f_equal. f_equal. cbn [replace_go].
      rewrite bool_decide_eq_false_2 by (by intros [? [= ?]]). by rewrite IH.
Qed.
Lemma tidy_set_hole k v ps : braceless v = true → tidy ps = true → tidy (set_hole k v <$> ps) = true.
Proof.
  intros Hv. induction ps as [|p ps IH]; [done|]. cbn. intros [Hp Hps]%andb_true_iff. apply andb_true_iff. split; [|by apply IH].
  destruct p as [l|h]; cbn; [done|]. by case_bool_decide.
Qed.
Lemma fill_set_hole k v params ps : 
  fill params (set_hole (chars k) (chars v) <$> ps) = fill ((k, v) :: params) ps.
Proof.
  unfold fill. f_equal. induction ps as [|p ps IH]; [done|]. cbn [fmap list_fmap mbind list_bind]. rewrite IH. f_equal.
  destruct p as [l|h]; cbn [set_hole fill_piece assoc]; [done|]. case_bool_decide as Heq.
  - subst h. by rewrite str_chars, String.eqb_refl.
  - cbn [fill_piece]. destruct (String.eqb_spec (str h) k) as [<-|]; [by rewrite chars_str in Heq|done].
Qed.
(** The successive replacements instantiate the template. *)
Lemma instantiate_all params : ∀ ps, tidy ps = true →
  Forall (λ p, braceless (chars p.1) = true ∧ plain p.2) params →
  foldl instantiate (str (render ps)) params = fill params ps.
Proof.
  induction params as [|[k v] params IH]; intros ps Hps Hf.
  - done.
  - apply Forall_cons in Hf as [[Hk [Hv1 Hv2]] Hf]. cbn [fst snd] in *. cbn [foldl]. unfold instantiate at 2. cbn [fst snd].
    rewrite chars_str. unfold hole. rewrite replace_render by done. rewrite IH by (try apply tidy_set_hole; done). apply fill_set_hole.
Qed.

(** * The dictionaries agree *)

Definition covers (names : list string) (s : string) : bool := forallb (λ h, mem h names) (holes s).
Definition same_holes (s s' : string) : bool := covers (holes s) s' && covers (holes s') s.
(** The entry of a key in every dictionary: written, well formed, with the holes of the English text. *)
Definition entry_ok (kv kv' : string * string) : bool :=
  String.eqb kv.1 kv'.1 && truthy kv'.2 && tidy (pieces kv'.2) && same_holes kv.2 kv'.2.
Fixpoint entries_ok (d d' : dictionary) : bool :=
  match d, d' with
  | [], [] => true
  | kv :: d, kv' :: d' => entry_ok kv kv' && entries_ok d d'
  | _, _ => false
  end.
(** No two neighbours are equal. *)
Fixpoint no_repeat (l : list string) : bool :=
  match l with
  | x :: ((y :: _) as l') => negb (String.eqb x y) && no_repeat l'
  | _ => true
  end.

Lemma entries_checked : forallb (λ l, from_option (entries_ok en) false (assoc l dicts)) LANGS = true.
Proof. vm_compute. reflexivity. Qed.
Lemma keys_checked : no_repeat (sort_str en.*1) = true.
Proof. vm_compute. reflexivity. Qed.

Lemma no_repeat_NoDup l : Sorted String.le l → no_repeat l = true → NoDup l.
Proof.
  intros Hs%(Sorted_StronglySorted _). induction Hs as [|x l Hl IH Hx]; [by constructor|]. intros Hr.
  destruct l as [|y l]; [apply NoDup_singleton|]. cbn [no_repeat] in Hr. apply andb_true_iff in Hr as [Hxy%negb_true_iff Hr].
  apply String.eqb_neq in Hxy. constructor; [|by apply IH]. intros [->|Hin]%elem_of_cons; [done|]. apply Hxy.
  apply (anti_symm String.le); [by apply Forall_cons in Hx as [? _]|]. inversion Hl as [|? ? _ Hy]; subst. by apply (proj1 (Forall_forall _ _) Hy).
Qed.
Lemma keys_NoDup : NoDup en.*1.
Proof. rewrite <- (sort_str_perm en.*1). apply no_repeat_NoDup; [apply sort_str_sorted|apply keys_checked]. Qed.
Lemma entries_ok_keys d : ∀ d', entries_ok d d' = true → d'.*1 = d.*1.
Proof.
  induction d as [|kv d IH]; intros [|kv' d']; cbn [entries_ok]; try done. unfold entry_ok.
  rewrite !andb_true_iff. intros [[[[Hk _] _] _] Hd]. apply String.eqb_eq in Hk. cbn. by rewrite Hk, (IH d').
Qed.
Lemma entries_ok_assoc key s d : ∀ d', entries_ok d d' = true → assoc key d = Some s →
  ∃ s', assoc key d' = Some s' ∧ truthy s' = true ∧ tidy (pieces s') = true ∧ same_holes s s' = true.
Proof.
  induction d as [|[k v] d IH]; intros [|[k' v'] d']; cbn [entries_ok assoc]; try done. unfold entry_ok. cbn [fst snd].
  rewrite !andb_true_iff. intros [[[[Hk Ht] Hp] Hh] Hd]. apply String.eqb_eq in Hk. subst k'.
  destruct (String.eqb key k); [|by apply IH]. intros [= ->]. by exists v'.
Qed.
Lemma languages_agree lang : lang ∈ LANGS → ∃ d, assoc lang dicts = Some d ∧ entries_ok en d = true.
Proof.
  intros Hin%list_elem_of_In. pose proof (proj1 (forallb_forall _ _) entries_checked lang Hin) as H. cbv beta in H.
  destruct (assoc lang dicts) as [d|]; [|done]. by exists d.
Qed.

Lemma covers_spec names s h : covers names s = true → h ∈ holes s → h ∈ names.
Proof. intros H Hh%list_elem_of_In. apply (proj1 (forallb_forall _ _) H) in Hh. by apply bool_decide_eq_true in Hh. Qed.
Lemma covers_trans names s s' : covers names s = true → covers (holes s) s' = true → covers names s' = true.
Proof.
  intros H1 H2. apply forallb_forall. intros h Hh%list_elem_of_In. apply bool_decide_eq_true.
  apply (covers_spec _ s); [done|]. by apply (covers_spec _ s').
Qed.
Lemma braceless_elem l c : braceless l = true → c ∈ l → c ≠ "{"%char.
Proof. induction l as [|d l IH]; [set_solver|]. intros (? & _ & ?)%braceless_cons. set_solver. Qed.
(** A template whose holes all have parameters has no opening brace left. *)
Lemma filled params s : tidy (pieces s) = true → covers params.*1 s = true →
  Forall (λ p, braceless (chars p.1) = true ∧ plain p.2) params → "{"%char ∉ chars (fill params (pieces s)).
Proof.
  unfold covers, holes, fill. rewrite chars_str. intros Ht Hc Hp. induction (pieces s) as [|p ps IH]; [set_solver|].
  cbn [tidy forallb] in Ht. fold (tidy ps) in Ht. apply andb_true_iff in Ht as [Hp0 Ht]. cbn [mbind list_bind].
  rewrite elem_of_app. destruct p as [l|k]; cbn [omap list_omap forallb] in Hc.
  - intros [Hin|Hin]; [|by apply IH]. by apply (braceless_elem _ _ Hp0) in Hin.
  - apply andb_true_iff in Hc as [Hk Hc]. intros [Hin|Hin]; [|by apply IH]. apply bool_decide_eq_true in Hk. cbn [fill_piece] in Hin.
    destruct (assoc (str k) params) as [v|] eqn:Hv; [|by apply assoc_None in Hv]. apply assoc_elem in Hv.
    pose proof (proj1 (Forall_forall _ _) Hp _ Hv) as [_ [_ Hb]]. by apply (braceless_elem _ _ Hb) in Hin.
Qed.
Lemma t_own lang d key s params : assoc lang dicts = Some d → assoc key d = Some s → truthy s = true → tidy (pieces s) = true →
  Forall (λ p, braceless (chars p.1) = true ∧ plain p.2) params → t lang key params = fill params (pieces s).
Proof.
  intros Hd Hk Hs Ht Hp. unfold t, message. rewrite Hd. cbn [mbind option_bind]. rewrite Hk, Hs.
  rewrite <- instantiate_all by done. by rewrite render_pieces, str_chars.
Qed.
Lemma detect_supported stored language : detect stored language ∈ LANGS.
Proof.
  unfold detect. destruct (_ && _) eqn:E; [by apply andb_true_iff in E as [_ H%bool_decide_eq_true]|].
  destruct (_ || _ || _ || _); [by repeat constructor|]. destruct (startsWith _ _); by repeat constructor.
Qed.

(** The three dictionaries carry the same messages: a key of the English reference dictionary is in the dictionary of every
    language, with a text of its own, and when the caller's parameters cover the placeholders of the English text the message
    is that text with each placeholder replaced by its parameter, no placeholder left over. The lookup never falls back to
    English or to the key. The parameters are texts without braces and without the dollar sequences that the successive
    regular-expression replacements would interpret. *)
Theorem messages_filled lang key english params :
  lang ∈ LANGS → assoc key en = Some english → covers params.*1 english = true →
  Forall (λ p, braceless (chars p.1) = true ∧ plain p.2) params →
  ∃ d s, assoc lang dicts = Some d ∧ d.*1 = en.*1 ∧ NoDup d.*1 ∧ assoc key d = Some s ∧ s ≠ ""
    ∧ t lang key params = fill params (pieces s) ∧ "{"%char ∉ chars (t lang key params).
Proof.
  intros (d & Hd & Hok)%languages_agree Hk Hc Hp. destruct (entries_ok_assoc _ _ _ _ Hok Hk) as (s & Hs & Htr & Ht & [Hh Hh']%andb_true_iff).
  pose proof (t_own _ _ _ _ _ Hd Hs Htr Ht Hp) as E. exists d, s. rewrite E. pose proof keys_NoDup as Hnd.
  rewrite <- (entries_ok_keys _ _ Hok) in Hnd |- *. split_and!; try done; [by apply truthy_true|].
  apply filled; [done| |done]. by apply (covers_trans _ english).
Qed.
Lemma messages_filled_witness :
  t "zh-CN" "fleet.revoke.confirm" [("id", "dev-1")] = fill [("id", "dev-1")] (pieces (default "" (assoc "fleet.revoke.confirm" zh_CN))).
Proof.
  assert (H : Forall (λ p : string * string, braceless (chars p.1) = true ∧ plain p.2) [("id", "dev-1")]).
  { repeat constructor. }
  assert (Hk : assoc "fleet.revoke.confirm" en = Some (default "" (assoc "fleet.revoke.confirm" en))) by (vm_compute; reflexivity).
  assert (Hl : "zh-CN" ∈ LANGS) by (right; left).
  assert (Hc : covers [("id", "dev-1")].*1 (default "" (assoc "fleet.revoke.confirm" en)) = true) by (vm_compute; reflexivity).
  destruct (messages_filled "zh-CN" "fleet.revoke.confirm" _ [("id", "dev-1")] Hl Hk Hc H) as (d & s & Hd & _ & _ & Hs & _ & Ht & _).
  assert (Some zh_CN = Some d) as [= <-] by (rewrite <- Hd; vm_compute; reflexivity). by rewrite Ht, Hs.
Defined.

(** Dollar sequences of a parameter are read by the replacement: a name [$&] shows the placeholder instead. *)
Example dollars_in_parameters : t "en" "fleet.revoke.confirm" [("id", "$&")] = t "en" "fleet.revoke.confirm" [].
Proof. vm_compute. reflexivity. Qed.
