(* ===== verification/Html.v ===== *)
(** Markup as the console writes it ([src/public/console/app.js]): [escapeHtml], what a browser makes of a text (its
    elements, with attribute values dropped), and the rules by which two pages have the same elements. *)
From S2P Require Import Prelude Js Numerals.
Local Open Scope nat_scope.

(** * Values *)

(** [v.k]: a value without members has no property. *)
Definition prop (k : string) (v : json) : option json :=
  match v with JObj m => assoc k m | _ => None end.
Definition truthy_json (v : option json) : bool :=
  match v with
  | None | Some JNull | Some (JBool false) => false
  | Some (JNum q) => negb (Qeq_bool q 0)
  | Some (JStr s) => truthy s
  | Some _ => true
  end.
Definition txt (s : string) : option json := Some (JStr s).
(** [v || w] *)
Definition or_else (v w : option json) : option json := if truthy_json v then v else w.
(** [v === s] *)
Definition is_str (v : option json) (s : string) : bool :=
  match v with Some (JStr s') => String.eqb s' s | _ => false end.
Definition is_true (v : option json) : bool := match v with Some (JBool b) => b | _ => false end.
(** [v == null] *)
Definition is_null (v : option json) : bool := match v with None | Some JNull => true | _ => false end.
(** [Array.isArray(v) ? v : []] *)
Definition rows_of (v : option json) : list json := match v with Some (JArr l) => l | _ => [] end.
(** [String(v)] *)
Definition String_ (v : option json) : string := from_option json_toString "undefined" v.

(** * Templates *)

(** A literal piece of a template: double quotes are written as single ones. *)
Definition html (s : string) : string :=
  str ((λ c, if Ascii.eqb c "'" then ascii_of_nat 34 else c) <$> chars s).
(** The pieces of a template, in order. *)
Definition cat (l : list string) : string := foldr String.append "" l.
(** [rows.map(f).join("")] *)
Definition each {A} (f : A → string) (l : list A) : string := cat (f <$> l).
Definition each_i {A} (f : nat → A → string) (l : list A) : string := cat (imap f l).

Definition escape_html_char (c : ascii) : list ascii :=
  if Ascii.eqb c "&" then chars "&amp;"
  else if Ascii.eqb c "<" then chars "&lt;"
  else if Ascii.eqb c ">" then chars "&gt;"
  else if Ascii.eqb c (ascii_of_nat 34) then chars "&quot;"
  else if Ascii.eqb c "'" then chars "&#39;"
  else [c].
Definition escapeHtml (v : option json) : string :=
  str (chars (if is_null v then "" else String_ v) ≫= escape_html_char).

(** * What a browser reads *)

(** In text, in a tag (what was read of it), in a quoted attribute value of that tag. *)
Inductive mode : Type :=
  | Data
  | Tag (read : list ascii)
  | Value (read : list ascii).
(** The tags of a text, attribute values dropped, and where it leaves the reader. *)
Fixpoint scan (m : mode) (l : list ascii) : list string * mode :=
  match l with
  | [] => ([], m)
  | c :: l' =>
      match m with
      | Data => if Ascii.eqb c "<" then scan (Tag []) l' else scan Data l'
      | Tag read =>
          if Ascii.eqb c ">" then let '(tags, m') := scan Data l' in (str read :: tags, m')
          else if Ascii.eqb c (ascii_of_nat 34) then scan (Value read) l'
          else scan (Tag (read ++ [c])) l'
      | Value read => if Ascii.eqb c (ascii_of_nat 34) then scan (Tag read) l' else scan (Value read) l'
      end
  end.
Definition elements (s : string) : list string := (scan Data (chars s)).1.
Definition well_closed (s : string) : Prop := (scan Data (chars s)).2 = Data.
(** The five character references [escapeHtml] writes, read back. *)
Fixpoint unescape_go (fuel : nat) (l : list ascii) : list ascii :=
  match fuel, l with
  | S fuel, c :: l' =>
      let entity (e : string) (d : ascii) (k : list ascii) :=
        if startsWith e (str l) then d :: unescape_go fuel (drop (String.length e) l) else k in
      entity "&amp;" "&"%char (entity "&lt;" "<"%char (entity "&gt;" ">"%char
        (entity "&quot;" (ascii_of_nat 34) (entity "&#39;" "'"%char (c :: unescape_go fuel l')))))
  | _, _ => []
  end.
Definition unescape (s : string) : string := str (unescape_go (String.length s) (chars s)).

(** * Pages with the same elements *)

(** From mode [m] both texts have the same tags and end in mode [m']. *)
Definition sim (m : mode) (a b : string) (m' : mode) : Prop :=
  ∃ tags, scan m (chars a) = (tags, m') ∧ scan m (chars b) = (tags, m').
Inductive sims : mode → list string → list string → mode → Prop :=
  | sims_nil m : sims m [] [] m
  | sims_cons m a b m1 l k m2 : sim m a b m1 → sims m1 l k m2 → sims m (a :: l) (b :: k) m2.
(** A text whose characters have no meaning for the reader. *)
Definition quiet_char (c : ascii) : bool := negb (Ascii.eqb c "<" || Ascii.eqb c (ascii_of_nat 34)).
Definition quiet (s : string) : bool := forallb quiet_char (chars s).
Definition in_text (m : mode) : Prop := match m with Tag _ => False | _ => True end.
(** The same template without the texts it is given. *)
Definition blank (v : option json) : string := "".

Lemma scan_app l k : ∀ m, scan m (l ++ k) =
  let '(t1, m1) := scan m l in let '(t2, m2) := scan m1 k in (t1 ++ t2, m2).
Proof.
  induction l as [|c l IH]; intros m; cbn [app scan]; [by destruct (scan m k)|].
  destruct m as [|r|r]; repeat destruct (Ascii.eqb c _); rewrite IH; try done.
  destruct (scan Data l) as [t1 m1]. by destruct (scan m1 k).
Qed.
Lemma scan_quiet m l : in_text m → forallb quiet_char l = true → scan m l = ([], m).
Proof.
  intros Hm. induction l as [|c l IH]; [done|]. cbn [forallb scan]. intros [Hc Hl]%andb_true_iff. unfold quiet_char in Hc.
  rewrite negb_true_iff, orb_false_iff in Hc. destruct Hc as [H1 H2]. destruct m; [|done|]; rewrite ?H1, ?H2; by apply IH.
Qed.
Lemma sim_quiet m s : in_text m → quiet s = true → sim m s s m.
Proof. intros Hm Hs. exists []. by rewrite (scan_quiet m). Qed.
Lemma sim_nil m : sim m "" "" m.
Proof. by exists []. Qed.
Lemma sim_app m a b m1 c d m2 : sim m a b m1 → sim m1 c d m2 → sim m (a +:+ c) (b +:+ d) m2.
Proof.
  intros (t1 & Ha & Hb) (t2 & Hc & Hd). exists (t1 ++ t2). by rewrite !chars_app, !scan_app, Ha, Hb, Hc, Hd.
Qed.
Lemma sim_cat m l k m' : sims m l k m' → sim m (cat l) (cat k) m'.
Proof. induction 1; [apply sim_nil|]. by eapply sim_app. Qed.
Lemma sim_lit m s tags m' : scan m (chars s) = (tags, m') → sim m s s m'.
Proof. intros H. by exists tags. Qed.
Lemma sims_each {A} m (f g : A → string) l : (∀ x, sim m (f x) (g x) m) → sim m (each f l) (each g l) m.
Proof.
  intros H. apply sim_cat. induction l as [|x l IH]; [constructor|]. by econstructor.
Qed.
Lemma sims_each_i {A} m (f g : nat → A → string) l : (∀ i x, sim m (f i x) (g i x) m) → sim m (each_i f l) (each_i g l) m.
Proof.
  unfold each_i. intros H. apply sim_cat. revert f g H. induction l as [|x l IH]; intros f g H; [constructor|].
  cbn [imap]. econstructor; [apply H|]. apply IH. intros i y. apply H.
Qed.
Lemma sim_eq m a b m' : a = b → in_text m → quiet a = true → m = m' → sim m a b m'.
Proof. intros <- ? ? <-. by apply sim_quiet. Qed.

Lemma quiet_escape c : forallb quiet_char (escape_html_char c) = true.
Proof. destruct c as [[] [] [] [] [] [] [] []]; vm_compute; reflexivity. Qed.
Lemma quiet_escapeHtml v : quiet (escapeHtml v) = true.
Proof.
  unfold quiet, escapeHtml. rewrite chars_str. induction (chars _) as [|c l IH]; [done|]. cbn [mbind list_bind].
  by rewrite forallb_app, quiet_escape.
Qed.
(** An interpolated text adds no tag and ends no attribute, whatever it is. *)
Lemma sim_escape m v : in_text m → sim m (escapeHtml v) (blank v) m.
Proof.
  intros Hm. exists []. split; [|done]. apply scan_quiet; [done|]. apply quiet_escapeHtml.
Qed.

Lemma unescape_char c rest fuel :
  unescape_go (S fuel) (escape_html_char c ++ rest) = c :: unescape_go fuel rest.
Proof.
  assert (Hp : ∀ s, startsWith "" s = true) by (by intros []).
  destruct c as [[] [] [] [] [] [] [] []]; try reflexivity; simpl; by rewrite Hp.
Qed.
Lemma unescape_all l : ∀ fuel, length l <= fuel → unescape_go fuel (l ≫= escape_html_char) = l.
Proof.
  induction l as [|c l IH]; intros [|fuel] Hf; cbn [length] in Hf; [done..|lia|]. cbn [mbind list_bind].
  rewrite unescape_char. f_equal. apply IH. lia.
Qed.
Lemma escape_length l : length l <= length (l ≫= escape_html_char).
Proof.
  induction l as [|c l IH]; [done|]. cbn [mbind list_bind length]. rewrite length_app.
  enough (1 <= length (escape_html_char c)) by (unfold mbind in *; lia). destruct c as [[] [] [] [] [] [] [] []]; vm_compute; lia.
Qed.

(** Escaping loses nothing and lets nothing through: the browser reads the escaped text back as exactly the text of the
    value (the empty text for null and undefined), and neither in text nor in a quoted attribute does it open a tag or end
    the attribute, so what the reader sees of the page around it does not depend on the value. *)
Theorem escapeHtml_roundtrip v m before after :
  unescape (escapeHtml v) = (if is_null v then "" else String_ v)
  ∧ (in_text m → scan m (chars (escapeHtml v)) = ([], m))
  ∧ (scan Data (chars before) = ([], m) → in_text m →
      scan Data (chars (before +:+ escapeHtml v +:+ after)) = scan Data (chars (before +:+ after))).
Proof.
  split; [|split].
  - unfold unescape, escapeHtml. rewrite chars_str. set (s := if is_null v then "" else String_ v).
    rewrite unescape_all; [by rewrite str_chars|]. rewrite <- length_chars, chars_str. apply escape_length.
  - intros Hm. apply scan_quiet; [done|apply quiet_escapeHtml].
  - intros Hb Hm. rewrite !chars_app, !(scan_app (chars before)), Hb, scan_app, (scan_quiet m (chars (escapeHtml v))) by (done || apply quiet_escapeHtml).
    by destruct (scan m (chars after)).
Qed.
Lemma escapeHtml_roundtrip_witness :
  scan Data (chars (html "<td title='" +:+ escapeHtml (txt (html "'><script>")) +:+ html "'>")) = scan Data (chars (html "<td title='" +:+ html "'>")).
Proof.
  apply (proj2 (proj2 (escapeHtml_roundtrip (txt (html "'><script>")) (Value (chars "td title=")) (html "<td title='") (html "'>"))));
    [vm_compute; reflexivity|exact I].
Defined.

Lemma quiet_num q : quiet (num_toString q) = true.
Proof.
  destruct (num_toString_chars q) as [H _]. revert H. apply forallb_mono. intros c Hc. unfold quiet_char. destruct c as [[] [] [] [] [] [] [] []]; vm_compute in Hc |- *; congruence.
Qed.
Lemma quiet_app s s' : quiet s = true → quiet s' = true → quiet (s +:+ s') = true.
Proof. unfold quiet. rewrite chars_app, forallb_app. by intros -> ->. Qed.
Lemma quiet_join sep l : quiet sep = true → forallb quiet l = true → quiet (join sep l) = true.
Proof.
  intros Hs. induction l as [|x [|y l] IH]; cbn [forallb]; [done|by intros [? _]%andb_true_iff|]. intros [Hx Hl]%andb_true_iff.
  change (join sep (x :: y :: l)) with (x +:+ sep +:+ join sep (y :: l)). eauto using quiet_app.
Qed.
Lemma quiet_pretty_N (n : N) : quiet (pretty n) = true.
Proof.
  destruct (pretty_N_digits n) as (H & _). revert H. apply forallb_mono. intros c Hc. unfold quiet_char.
  destruct c as [[] [] [] [] [] [] [] []]; vm_compute in Hc |- *; congruence.
Qed.
Lemma quiet_pretty_nat (n : nat) : quiet (pretty n) = true.
Proof. apply quiet_pretty_N. Qed.
Lemma quiet_pretty_Z (n : Z) : quiet (pretty n) = true.
Proof. destruct n; [done|apply quiet_pretty_N|]. apply (quiet_app "-"); [done|apply quiet_pretty_N]. Qed.
Create HintDb inert discriminated.
#[export] Hint Resolve quiet_num quiet_app quiet_join quiet_pretty_nat quiet_pretty_Z : inert.

(** The proof that a template without its texts has the same elements: piece by piece, on both branches of a choice. *)
#[export] Hint Extern 1 (in_text _) => exact I : inert.
Ltac sim_literal :=
  match goal with
  | |- sim ?m ?s ?s _ => let r := eval vm_compute in (scan m (chars s)) in
      match r with (?tags, ?m') => is_ground r; apply (sim_lit m s tags m'); vm_cast_no_check (eq_refl r) end
  end.
Ltac sim_step :=
  match goal with
  | |- sims _ [] [] _ => apply sims_nil
  | |- sims _ (_ :: _) (_ :: _) _ => eapply sims_cons
  | |- sim _ (cat _) (cat _) _ => apply sim_cat
  | |- sim _ (_ +:+ _) (_ +:+ _) _ => eapply sim_app
  | |- sim _ (each _ _) (each _ _) _ => apply sims_each; intros
  | |- sim _ (each_i _ _) (each_i _ _) _ => apply sims_each_i; intros
  | |- sim _ (escapeHtml _) (blank _) _ => apply sim_escape; exact I
  | |- sim _ "" "" _ => apply sim_nil
  | |- sim _ (html _) _ _ => sim_literal
  | |- sim _ (String _ _) _ _ => sim_literal
  | |- sim _ ?s ?s _ => apply sim_quiet; [exact I|solve [auto with inert]]
  | |- sim _ (if ?b then _ else _) _ _ => destruct b
  | |- sim _ (match ?x with _ => _ end) _ _ => destruct x
  | |- sim _ _ _ _ => solve [eauto with inert]
  end.
Ltac inert := repeat sim_step.
