(* ===== verification/Views.v ===== *)
(** What the console of the control plane writes into its pages ([src/public/console/app.js]): the formatting helpers and the
    templates of the organization, fleet, learning, ticket and crash views, as functions of the rows the API answered. A row
    is any JSON value; reading a member of a row that is not an object gives undefined. *)
From Stdlib Require Import Qabs.
From S2P Require Import Prelude Js Numerals I18n Html.
Local Open Scope nat_scope.

(** What the browser provides: the language chosen, numbers in its notation (value, least and most fraction digits), and the
    calendar fields of an instant in local time and its UTC text; [None] is an invalid date. *)
Class Platform : Type := {
  language : string;
  toLocaleString : Q → nat → nat → string;
  localDate : option json → option (Z * Z * Z * Z * Z);
  isoDate : option json → option string;
  timeLabel : option json → option json → string }.

(** [v === w] on JSON values that are not objects; distinct objects are not equal. *)
Definition strict_eq (v w : option json) : bool :=
  match v, w with
  | None, None | Some JNull, Some JNull => true
  | Some (JBool a), Some (JBool b) => Bool.eqb a b
  | Some (JNum a), Some (JNum b) => Qeq_bool a b
  | Some (JStr a), Some (JStr b) => String.eqb a b
  | _, _ => false
  end.
(** [v ?? w] *)
Definition nullish_or (v w : option json) : option json := if is_null v then w else v.

Section Format.
Context {p : Platform}.

Definition tr (key : string) (params : list (string * string)) : string := t language key params.

(** [s.slice(-n)] *)
Definition slice_end (n : nat) (s : string) : string := str (drop (String.length s - n) (chars s)).
Definition truncateMid (s : option json) (head tail : nat) : option json :=
  match s with
  | Some (JStr s) => txt (if negb (truthy s) || (String.length s <=? head + tail + 1) then s
                          else slice0 head s +:+ "…" +:+ slice_end tail s)
  | _ => s
  end.
Definition formatDate (iso : option json) : string :=
  if negb (truthy_json iso) then "—"
  else match isoDate iso with Some s => slice0 10 s | None => String_ iso end.
(** [String(n).padStart(2, "0")] *)
Definition pad (n : option Z) : string :=
  match n with Some n => if (n <? 10)%Z && (0 <=? n)%Z then "0" +:+ pretty n else pretty n | None => "NaN" end.
(** The fields of an invalid date are NaN: nothing is thrown. *)
Definition formatDateTime (iso : option json) : string :=
  if negb (truthy_json iso) then "—"
  else
    let field (f : Z * Z * Z * Z * Z → Z) : option Z := f <$> localDate iso in
    from_option pretty "NaN" (field (λ '(y, _, _, _, _), y)) +:+ "-" +:+ pad (field (λ '(_, m, _, _, _), m)) +:+ "-"
    +:+ pad (field (λ '(_, _, d, _, _), d)) +:+ " " +:+ pad (field (λ '(_, _, _, h, _), h)) +:+ ":" +:+ pad (field (λ '(_, _, _, _, m), m)).
Definition formatMoney (value : option json) : string :=
  match Number_opt value with
  | Num amount =>
      let digits := if negb (Qeq_bool amount 0) && negb (Qle_bool (1 # 100) (Qabs amount)) then 6 else 2 in
      "$" +:+ toLocaleString amount digits digits
  | _ => "—"
  end.
Definition formatCount (value : option json) : string :=
  match Number_opt value with Num count => toLocaleString count 0 0 | _ => "—" end.
(** [n.toFixed(f)] *)
Definition toFixed (f : nat) (n : number) : string :=
  match n with
  | NaN => "NaN"
  | Infinity neg => if neg then "-Infinity" else "Infinity"
  | Num q =>
      let n := Math_round (Qabs q * inject_Z (10 ^ Z.of_nat f)) in
      (if Qle_bool 0 q then "" else "-") +:+ pretty (n / 10 ^ Z.of_nat f)%Z
      +:+ (if f =? 0 then "" else "." +:+ str (pad_digits f (n mod 10 ^ Z.of_nat f)))
  end.

Definition serviceCopy (prefix : string) (value : option json) : option json :=
  let key := prefix +:+ "." +:+ String_ value in
  let translated := tr key [] in
  if String.eqb translated key then value else txt translated.
Definition personLabel (person : json) : string :=
  let name := trim (String_ (or_else (prop "name" person) (txt ""))) in
  let email := trim (String_ (or_else (prop "email" person) (txt ""))) in
  if truthy name && truthy email then name +:+ " · " +:+ email
  else if truthy name then name else if truthy email then email else String_ (or_else (prop "id" person) (txt "")).
Definition formatSpend (device : json) : string :=
  let spend := Number_opt (prop "spend" device) in
  if is_true (prop "spend_available" device) && isFinite spend then "$" +:+ toFixed 2 spend else tr "fleet.spend.unavailable" [].
Definition formatBudgetSummary (limits : option json) : string :=
  match rows_of limits with
  | [] => tr "enroll.policy.unlimited" []
  | rows => join " / " ((λ entry,
      tr ("enroll.policy.window." +:+ String_ (prop "window" entry)) [] +:+ " · $"
      +:+ toFixed 2 (Number_opt (nullish_or (prop "maxUsd" entry) (Some (JNum 0))))) <$> rows)
  end.
Definition rates_of (rpmLimit tpmLimit : option json) : list string :=
  (if truthy_json rpmLimit then [String_ rpmLimit +:+ " RPM"] else [])
  ++ (if truthy_json tpmLimit then [String_ tpmLimit +:+ " TPM"] else []).
Definition formatRateSummary (rpmLimit tpmLimit : option json) : string :=
  match rates_of rpmLimit tpmLimit with
  | [] => tr "fleet.policy.rates_unlimited" []
  | rates => tr "fleet.policy.rates" [("rates", join " · " rates)]
  end.
Definition is_one_of (v : option json) (l : list string) : bool := existsb (is_str v) l.
Definition statusLabel (status : option json) : string :=
  tr ("fleet.key.status." +:+ (if is_one_of status ["active"; "expired"; "revocation_pending"] then String_ status else "revoked")) [].
Definition needsLearningReview (row : json) : bool :=
  is_str (prop "status" row) "pending" || truthy_json (prop "pending_summary" row).
(** The rows a filter of the learning view shows. *)
Definition learningRowsForFilter (filter_ : string) (rows : list json) : list json :=
  if String.eqb filter_ "review" then filter (λ row, needsLearningReview row = true) rows
  else if String.eqb filter_ "active" then filter (λ row, is_str (prop "status" row) "approved" = true) rows
  else if String.eqb filter_ "history" then
    filter (λ row, is_str (prop "status" row) "rejected" || is_str (prop "status" row) "revoked" = true) rows
  else rows.
(** The four counters over the learning list. *)
Definition learning_counts (rows : list json) : nat * nat * nat * nat :=
  (length (filter (λ row, needsLearningReview row = true) rows),
   length (filter (λ row, is_str (prop "status" row) "approved" = true) rows),
   length (filter (λ row, is_true (prop "promotion_ready" row) = true) rows),
   length rows).

(** [s.includes(part)] *)
Definition has_part (part s : string) : bool :=
  existsb (λ n, bool_decide (chars part `prefix_of` drop n (chars s))) (seq 0 (S (String.length s))).
Record FleetFilter : Type := { search : string; model_part : string; onlineOnly : bool }.
(** The devices the fleet filter keeps. *)
Definition fleet_match (f : FleetFilter) (d : json) : bool :=
  let lower v := toLowerCase (String_ (or_else v (txt ""))) in
  negb (onlineOnly f && negb (truthy_json (prop "online" d)))
  && negb (truthy (search f) && negb (has_part (search f) (lower (prop "name" d))))
  && negb (truthy (model_part f)
       && negb (existsb (λ m, has_part (model_part f) (lower m)) (prop "model" d :: (prop "model" <$> rows_of (prop "keys" d))))).
End Format.

Section Views.
Context (escapeHtml : option json → string) {p : Platform}.


(** A message in place of a list. *)
Definition empty_note (css key : string) : string := cat [html "<div class='"; css; html "'>"; escapeHtml (txt (tr key [])); html "</div>"].
Definition error_note (message : string) : string := cat [html "<div class='empty'>"; escapeHtml (txt message); html "</div>"].
Definition note_row (cols message : string) : string :=
  cat [html "<tr><td colspan='"; cols; html "' class='text-soft'>"; escapeHtml (txt message); html "</td></tr>"].

(** * Organizations *)

Definition org_options (orgs : list json) : string :=
  each (λ org, cat [html "<option value='"; escapeHtml (prop "id" org); html "' label='"; escapeHtml (prop "name" org); html "'></option>"]) orgs.
(** The choice of an organization, in the usage, learning and service views. *)
Definition org_select (key : string) (orgs : list json) : string :=
  (cat [html "<option value=''>"; escapeHtml (txt (tr key [])); html "</option>"]) +:+ (each (λ org, cat [html "<option value='"; escapeHtml (prop "id" org); html "'>"; escapeHtml (prop "name" org); html " · "; escapeHtml (prop "type" org); html "</option>"]) orgs).
(** The value a choice of organizations has after it is painted: the previous one, the administrator's own, or the only one. *)
Definition preferred_org (previous me_org : string) (orgs : list json) : string :=
  let preferred := if truthy previous then previous else if truthy me_org then me_org
    else match orgs with [org] => String_ (prop "id" org) | _ => "" end in
  if truthy preferred && existsb (λ org, is_str (prop "id" org) preferred) orgs then preferred else "".
Definition org_created (org : json) : string :=
  cat [html "<span class='small'>"; escapeHtml (txt (tr "orgs.new.created" [])); html ":</span> <code class='pill'>"; escapeHtml (prop "id" org); html "</code>"].
(** From the root down to the organization: [ancestors] comes from the organization up. *)
Definition inspect_trail (ancestors : list json) : string :=
  match ancestors with
  | [] => cat [html "<span class='muted'>"; escapeHtml (txt (tr "orgs.inspect.empty" [])); html "</span>"]
  | _ => join (html "<span class='crumbpath__sep'>›</span>") ((λ o, cat [html "
            <span class='crumbpath__node'>
              <span class='crumbpath__name'>"; escapeHtml (prop "name" o); html "</span>
              <span class='pill pill--muted'>"; escapeHtml (or_else (txt (tr ("orgs.type." +:+ (String_ (prop "type" o))) [])) (prop "type" o)); html "</span>
            </span>"]) <$> reverse ancestors)
  end.
Definition subtree_limit : nat := 20.
Definition inspect_visible (showAll : bool) (ids : list json) : list json :=
  if showAll || (length ids <=? subtree_limit) then ids else take subtree_limit ids.
Definition newline : string := str [ascii_of_nat 10].
Definition inspect_view (subtreeShowAll : bool) (ancestors ids : list json) : string :=
  let showAll := subtreeShowAll || (length ids <=? subtree_limit) in
  let visible := inspect_visible subtreeShowAll ids in
  let extra := length ids - length visible in
  let toggleLabel := if showAll then tr "orgs.inspect.subtree.show_less" [] else tr "orgs.inspect.subtree.show_all" [] in
  let json_text v := if is_null (Some v) then "" else json_toString v in
  cat [html "
        <div class='small mb-1'>"; escapeHtml (txt (tr "orgs.inspect.ancestors" [])); html "</div>
        <div class='crumbpath mb-2'>"; inspect_trail ancestors; html "</div>
        <div class='flex ai-center jc-between mb-1'>
          <div class='small'>"; escapeHtml (txt (tr "orgs.inspect.subtree.count" [("n", pretty (length ids))])); html "</div>
          "; if subtree_limit <? (length ids) then cat [html "<button type='button' class='btn-link' id='subtree-toggle'>"; escapeHtml (txt toggleLabel); html "</button>"] else ""; html "
        </div>
        <pre class='copybox'>"; escapeHtml (txt (join newline (json_text <$> visible))); if (negb showAll) && (0 <? extra) then newline +:+ (escapeHtml (txt (tr "orgs.inspect.subtree.more" [("n", pretty extra)]))) else ""; html "</pre>
      "].
Definition service_table (bindings : list json) : string :=
  cat [html "
      <div class='table-wrap'>
        <table class='table'>
          <thead><tr>
            <th>"; escapeHtml (txt (tr "orgs.services.col.service" [])); html "</th>
            <th>"; escapeHtml (txt (tr "orgs.services.col.route" [])); html "</th>
            <th>"; escapeHtml (txt (tr "orgs.services.col.status" [])); html "</th>
            <th>"; escapeHtml (txt (tr "orgs.services.col.config" [])); html "</th>
            <th>"; escapeHtml (txt (tr "orgs.services.col.actions" [])); html "</th>
          </tr></thead>
          <tbody>"; each (λ binding, cat [html "
            <tr class='"; if is_str (prop "status" binding) "DISABLED" then "row--disabled" else ""; html "'>
              <td>
                <strong>"; escapeHtml (serviceCopy "orgs.services.kind" (prop "service" binding)); html "</strong>
                <div class='small muted'>"; escapeHtml (serviceCopy "orgs.services.mode" (prop "mode" binding)); html " · "; escapeHtml (serviceCopy "orgs.services.region" (prop "accountRegion" binding)); html "</div>
              </td>
              <td class='mono service-binding-origin'>"; escapeHtml (prop "apiOrigin" binding); html "</td>
              <td><span class='pill "; if is_str (prop "status" binding) "ACTIVE" then "pill--coral" else "pill--muted"; html "'>"; escapeHtml (serviceCopy "orgs.services.status" (prop "status" binding)); html "</span></td>
              <td class='small'>
                v"; escapeHtml (prop "configVersion" binding); html " · cap "; escapeHtml (prop "capabilitiesVersion" binding); html "
                <div class='muted'>"; escapeHtml (if truthy_json (prop "credentialConfigured" binding) then txt (tr "orgs.services.credential.set" []) else txt (tr "orgs.services.credential.none" [])); html "</div>
              </td>
              <td><button type='button' class='btn-link' data-service-edit='"; escapeHtml (prop "service" binding); html "'>"; escapeHtml (txt (tr "orgs.services.edit" [])); html "</button></td>
            </tr>"]) bindings; html "</tbody>
        </table>
      </div>"].
Definition renderServiceBindings (orgId : string) (lastServiceBindings : option (list json)) : string :=
  if negb (truthy orgId) then empty_note "muted small" "orgs.services.empty.no_org"
  else match lastServiceBindings with
  | None => empty_note "muted small" "orgs.services.loading"
  | Some [] => empty_note "muted small" "orgs.services.empty"
  | Some bindings => service_table bindings
  end.
(** * Fleet *)

Definition key_lifecycle (device key : json) : string :=
  if is_str (prop "status" key) "revocation_pending" then tr "fleet.key.revocation_pending_since" [("date", formatDateTime (prop "revocation_requested_at" device))] else if (is_str (prop "status" key) "revoked") && (truthy_json (prop "revoked_at" key)) then tr "fleet.key.revoked_at" [("date", formatDateTime (prop "revoked_at" key))] else if truthy_json (prop "expires_at" key) then tr "fleet.key.expires" [("date", formatDateTime (prop "expires_at" key))] else tr "fleet.key.no_expiry" [].
Definition key_record (device key : json) : string :=
  cat [html "<div class='fleet-key-record'>
          <div class='fleet-key-record__head'>
            <span class='pill pill--muted'>"; escapeHtml (txt (statusLabel (prop "status" key))); html "</span>
            <span class='mono'>"; escapeHtml (or_else (prop "model" key) (txt "—")); html "</span>
          </div>
          <div class='small'>"; escapeHtml (txt (tr "fleet.key.created" [("date", formatDateTime (prop "created_at" key))])); html "</div>
          <div class='small'>"; escapeHtml (txt (key_lifecycle device key)); html "</div>
          <div class='small'>"; escapeHtml (txt (tr "fleet.key.spend" [("spend", formatSpend key)])); html "</div>
          <div class='id-cell' title='"; escapeHtml (or_else (prop "key_id" key) (txt "")); html "'>
            <span class='small mono'>"; escapeHtml (truncateMid (or_else (prop "key_id" key) (txt "")) 12 4); html "</span>
            <button type='button' class='btn-icon id-cell__copy' data-copy='"; escapeHtml (or_else (prop "key_id" key) (txt "")); html "'
                    title='"; escapeHtml (txt (tr "fleet.key.copy_id" [])); html "'>
              <svg width='12' height='12' viewBox='0 0 24 24' fill='none' stroke='currentColor' stroke-width='2' stroke-linecap='round' stroke-linejoin='round'><rect x='9' y='9' width='13' height='13' rx='2'/><path d='M5 15V5a2 2 0 0 1 2-2h10'/></svg>
            </button>
          </div>
        </div>"].
Definition renderFleetKeys (device : json) : string :=
  match rows_of (prop "keys" device) with
  | [] => cat [html "<span class='small'>"; escapeHtml (txt (tr "fleet.keys.none" [])); html "</span>"]
  | keys => cat [html "<details class='fleet-key-history'"; if truthy_json (prop "token_active" device) then "" else " open"; html ">
      <summary>"; escapeHtml (txt (tr "fleet.keys.count" [("n", pretty (length keys))])); html "</summary>
      <div class='fleet-key-history__list'>"; each (key_record device) keys; html "</div>
    </details>"]
  end.
Definition fleet_row (d : json) : string :=
  cat [html "
              <tr class='"; if truthy_json (prop "online" d) then "row--online" else "row--offline"; html "'>
                <td></td>
                <td>"; escapeHtml (or_else (prop "name" d) (txt "—")); html "</td>
                <td>
                  "; if truthy_json (prop "person_id" d) then cat [html "<div>"; escapeHtml (or_else (or_else (prop "person_name" d) (prop "person_email" d)) (txt "—")); html "</div><div class='small'>"; escapeHtml (or_else (prop "person_email" d) (txt "")); html "</div>"] else cat [html "<span class='pill pill--muted'>"; escapeHtml (txt (tr "fleet.person.unbound" [])); html "</span>
                       <button type='button' class='btn-link fleet-bind-person' data-bind-person='"; escapeHtml (prop "device_id" d); html "'>"; escapeHtml (txt (tr "fleet.person.bind" [])); html "</button>"]; html "
                </td>
                <td>"; escapeHtml (or_else (prop "os" d) (txt "—")); html "</td>
                <td>
                  <div>"; escapeHtml (or_else (prop "model" d) (txt "—")); html "</div>
                  "; if is_str (prop "model_policy_status" d) "retired" then cat [html "<span class='pill pill--muted'>"; escapeHtml (txt (tr "fleet.model.retired" [])); html "</span>"] else ""; html "
                </td>
                <td class='num'>"; escapeHtml (txt (formatSpend d)); html "</td>
                <td>"; renderFleetKeys d; html "</td>
                <td>
                  <div>"; escapeHtml (if truthy_json (prop "expires_at" d) then txt (tr "fleet.policy.expires" [("date", formatDateTime (prop "expires_at" d))]) else txt (tr "fleet.policy.no_expiry" [])); html "</div>
                  <div class='small'>"; escapeHtml (txt (formatBudgetSummary (prop "budget_limits" d))); html "</div>
                  <div class='small'>"; escapeHtml (txt (formatRateSummary (prop "rpm_limit" d) (prop "tpm_limit" d))); html "</div>
                </td>
                <td>
                  <span class='id-cell' title='"; escapeHtml (prop "device_id" d); html "'>
                    <span>"; escapeHtml (truncateMid (prop "device_id" d) 12 4); html "</span>
                    <button type='button' class='btn-icon id-cell__copy' data-copy='"; escapeHtml (prop "device_id" d); html "'
                            title='"; escapeHtml (txt (tr "fleet.copy.id" [])); html "'>
                      <svg width='12' height='12' viewBox='0 0 24 24' fill='none' stroke='currentColor' stroke-width='2' stroke-linecap='round' stroke-linejoin='round'><rect x='9' y='9' width='13' height='13' rx='2'/><path d='M5 15V5a2 2 0 0 1 2-2h10'/></svg>
                    </button>
                  </span>
                </td>
                <td>
                  <div class='row-actions'>
                    "; if is_str (prop "revocation_state" d) "pending" then cat [html "<span class='pill pill--warning'>"; escapeHtml (txt (tr "fleet.revocation_pending" [])); html "</span>
                         <button type='button' class='btn-danger' data-revoke='"; escapeHtml (prop "device_id" d); html "'>"; escapeHtml (txt (tr "fleet.revoke.retry" [])); html "</button>"] else if truthy_json (prop "token_active" d) then cat [html "<button type='button' class='btn-danger' data-revoke='"; escapeHtml (prop "device_id" d); html "'>"; escapeHtml (txt (tr "fleet.revoke" [])); html "</button>"] else cat [html "<span class='small'>"; escapeHtml (txt (tr "fleet.revoked" [])); html "</span>"]; html "
                  </div>
                </td>
              </tr>"].
Definition fleet_table (filtered : list json) : string :=
  cat [html "
      <div class='table-wrap'>
        <table class='table'>
          <thead>
            <tr>
              <th style='width: 18px;'></th>
              <th>"; escapeHtml (txt (tr "fleet.col.name" [])); html "</th>
              <th>"; escapeHtml (txt (tr "fleet.col.person" [])); html "</th>
              <th>"; escapeHtml (txt (tr "fleet.col.os" [])); html "</th>
              <th>"; escapeHtml (txt (tr "fleet.col.model" [])); html "</th>
              <th class='num'>"; escapeHtml (txt (tr "fleet.col.spend" [])); html "</th>
              <th>"; escapeHtml (txt (tr "fleet.col.keys" [])); html "</th>
              <th>"; escapeHtml (txt (tr "fleet.col.policy" [])); html "</th>
              <th>"; escapeHtml (txt (tr "fleet.col.id" [])); html "</th>
              <th></th>
            </tr>
          </thead>
          <tbody>
            "; each fleet_row filtered; html "
          </tbody>
        </table>
      </div>"].
Definition renderFleet (f : FleetFilter) (lastFleetRows : list json) : string :=
  match filter (λ d, fleet_match f d = true) lastFleetRows with
  | [] => empty_note "empty" "fleet.empty.no_match"
  | filtered => fleet_table filtered
  end.
(** * Learning review *)

Definition learningEvidence (row : json) : string :=
  match rows_of (prop "observations" row) with
  | [] => ""
  | observations => cat [html "<details class='learning-evidence'>
      <summary>"; escapeHtml (txt (tr "learnings.evidence" [("n", pretty (length observations))])); html "</summary>
      <ol>"; each (λ item, cat [html "<li>
        <p>"; escapeHtml (or_else (prop "summary" item) (txt "—")); html "</p>
        <span>"; escapeHtml (txt (tr ("learnings.source." +:+ (String_ (prop "source" item))) [])); html " · "; escapeHtml (txt (formatDateTime (prop "observed_at" item))); html "</span>
      </li>"]) observations; html "</ol>
    </details>"]
  end.
Definition learning_attrs (row : json) : string :=
  cat [html "data-learning-id='"; escapeHtml (prop "id" row); html "' data-learning-revision='"; escapeHtml (prop "revision" row); html "'"].
Definition learningActions (row : json) : string :=
  if needsLearningReview row then cat [html "<div class='learning-card__actions'>
        <button type='button' class='btn' data-learning-decision='approve' "; learning_attrs row; html ">"; escapeHtml (txt (tr "learnings.action.approve" [])); html "</button>
        <button type='button' class='btn-ghost' data-learning-decision='reject' "; learning_attrs row; html ">"; escapeHtml (txt (tr "learnings.action.reject" [])); html "</button>
      </div>"]
  else if is_str (prop "status" row) "approved" then cat [html "<div class='learning-card__actions'>
        <button type='button' class='btn-danger' data-learning-decision='revoke' "; learning_attrs row; html ">"; escapeHtml (txt (tr "learnings.action.revoke" [])); html "</button>
      </div>"]
  else "".
Definition learning_card (row : json) : string :=
  let hasUpdate := truthy_json (prop "pending_summary" row) in
  let proposal := if hasUpdate then prop "pending_summary" row else prop "summary" row in
  let rationale := if hasUpdate then prop "pending_rationale" row else prop "rationale" row in
  cat [html "<article class='learning-card"; if needsLearningReview row then " learning-card--review" else ""; html "'>
        <div class='learning-card__rail' aria-hidden='true'></div>
        <div class='learning-card__body'>
          <header class='learning-card__head'>
            <div class='learning-card__identity'>
              <div class='learning-card__eyebrow mono'>"; escapeHtml (or_else (prop "pattern_key" row) (txt "—")); html "</div>
              <div class='learning-card__badges'>
                <span class='pill learning-status learning-status--"; escapeHtml (prop "status" row); html "'>"; escapeHtml (txt (tr ("learnings.status." +:+ (String_ (prop "status" row))) [])); html "</span>
                <span class='pill'>"; escapeHtml (txt (tr ("learnings.kind." +:+ (String_ (prop "kind" row))) [])); html "</span>
                "; if truthy_json (prop "promotion_ready" row) then cat [html "<span class='pill pill--coral'>"; escapeHtml (txt (tr "learnings.recurring" [])); html "</span>"] else ""; html "
                "; if hasUpdate then cat [html "<span class='pill pill--accent'>"; escapeHtml (txt (tr "learnings.pending_update" [])); html "</span>"] else ""; html "
              </div>
            </div>
            <div class='learning-card__metrics mono'>
              <span>"; escapeHtml (txt (tr "learnings.metric.observations" [("n", String_ (or_else (prop "occurrence_count" row) (Some (JNum 0))))])); html "</span>
              <span>"; escapeHtml (txt (tr "learnings.metric.tasks" [("n", String_ (or_else (prop "distinct_task_count" row) (Some (JNum 0))))])); html "</span>
            </div>
          </header>
          "; if hasUpdate then cat [html "<div class='learning-active-copy'>
            <span>"; escapeHtml (txt (tr "learnings.current" [])); html "</span>
            <p>"; escapeHtml (or_else (prop "summary" row) (txt "—")); html "</p>
          </div>"] else ""; html "
          <div class='learning-proposal'>
            <span>"; escapeHtml (if hasUpdate then txt (tr "learnings.proposed_update" []) else txt (tr "learnings.proposal" [])); html "</span>
            <p>"; escapeHtml (or_else proposal (txt "—")); html "</p>
            "; if truthy_json rationale then cat [html "<small>"; escapeHtml rationale; html "</small>"] else ""; html "
          </div>
          <div class='learning-card__foot'>
            <span>"; escapeHtml (txt (tr "learnings.updated_at" [("time", formatDateTime (prop "updated_at" row))])); html "</span>
            "; if truthy_json (prop "reviewed_by" row) then cat [html "<span>"; escapeHtml (txt (tr "learnings.reviewed_by" [("person", String_ (prop "reviewed_by" row))])); html "</span>"] else ""; html "
          </div>
          "; learningEvidence row; html "
          "; learningActions row; html "
        </div>
      </article>"].
Definition renderLearnings (filter_ : string) (rows : list json) : string :=
  match learningRowsForFilter filter_ rows with
  | [] => empty_note "empty" ("learnings.empty." +:+ filter_)
  | filtered => cat [html "<div class='learning-list'>"; each learning_card filtered; html "</div>"]
  end.
(** * Feedback tickets *)

Definition ticket_row (row : json) : string :=
  cat [html "<tr data-ticket-row='"; escapeHtml (prop "id" row); html "'>
      <td><strong class='mono ticket-number'>"; escapeHtml (or_else (prop "ticketNumber" row) (txt "—")); html "</strong><br><span class='ticket-kind'>"; escapeHtml (txt (tr ("tickets.kind." +:+ (String_ (prop "kind" row))) [])); html "</span></td>
      <td class='mono'>"; escapeHtml (txt (formatDateTime (prop "updatedAt" row))); html "</td>
      <td class='ticket-issue'><strong>"; escapeHtml (or_else (prop "title" row) (txt "—")); html "</strong>"; if truthy_json (prop "summary" row) then cat [html "<p>"; escapeHtml (prop "summary" row); html "</p>"] else ""; html "</td>
      <td><span class='ticket-source'>"; escapeHtml (txt (tr ("tickets.source." +:+ (String_ (prop "source" row))) [])); html "</span><br><span class='text-soft mono'>"; escapeHtml (truncateMid (or_else (prop "sourceRef" row) (txt "")) 12 6); html "</span></td>
      <td><span class='ticket-status ticket-status--"; escapeHtml (prop "status" row); html "'>"; escapeHtml (txt (tr ("tickets.status." +:+ (String_ (prop "status" row))) [])); html "</span><br><span class='ticket-priority ticket-priority--"; escapeHtml (prop "priority" row); html "'>"; escapeHtml (txt (tr ("tickets.priority." +:+ (String_ (prop "priority" row))) [])); html "</span>"; if truthy_json (prop "assignee" row) then cat [html "<br><span class='text-soft'>"; escapeHtml (prop "assignee" row); html "</span>"] else ""; html "</td>
      <td><button type='button' class='btn-ghost' data-ticket-open>"; escapeHtml (txt (tr "tickets.open" [])); html "</button></td>
    </tr>"].
Definition renderFeedbackTickets (rows : list json) : string :=
  match rows with [] => note_row "6" (tr "tickets.empty" []) | _ => each ticket_row rows end.
Definition TICKET_STATUSES : list string :=
  ["RECEIVED"; "ACKNOWLEDGED"; "IN_PROGRESS"; "WAITING_RELEASE"; "WAITING_VERIFICATION"; "BLOCKED"; "CLOSED"; "REJECTED"].
Definition TICKET_TRANSITIONS : list (string * list string) := [
  ("RECEIVED", ["ACKNOWLEDGED"; "IN_PROGRESS"; "BLOCKED"; "REJECTED"]);
  ("ACKNOWLEDGED", ["IN_PROGRESS"; "BLOCKED"; "REJECTED"]);
  ("IN_PROGRESS", ["WAITING_RELEASE"; "BLOCKED"; "REJECTED"]);
  ("WAITING_RELEASE", ["IN_PROGRESS"; "WAITING_VERIFICATION"; "BLOCKED"]);
  ("WAITING_VERIFICATION", ["IN_PROGRESS"; "CLOSED"; "BLOCKED"]);
  ("CLOSED", ["IN_PROGRESS"]);
  ("BLOCKED", ["IN_PROGRESS"; "REJECTED"]);
  ("REJECTED", ["IN_PROGRESS"])].
Definition TICKET_PRIORITIES : list string := ["URGENT"; "HIGH"; "NORMAL"; "LOW"].
(** The statuses the form offers for a ticket: its own and those one step away. *)
Definition offered_statuses (active : option json) : list string :=
  filter (λ status, is_str active status = true
    ∨ status ∈ default [] (match active with Some (JStr s) => assoc s TICKET_TRANSITIONS | _ => None end)) TICKET_STATUSES.
(** An option whose label is the message [prefix.status]. *)
Definition status_option (prefix : string) (active : option json) (status : string) : string :=
  cat [html "<option value='"; status; html "'"; if is_str active status then " selected" else ""; html ">"; escapeHtml (txt (tr (prefix +:+ status) [])); html "</option>"].
Definition ticketStatusOptions (active : option json) : string := each (status_option "tickets.status." active) (offered_statuses active).
Definition ticketPriorityOptions (active : option json) : string := each (status_option "tickets.priority." active) TICKET_PRIORITIES.
Definition ticket_event (entry : json) : string :=
  cat [html "<div class='ticket-event'>
          <span class='ticket-event__dot' aria-hidden='true'></span>
          <div><strong>"; escapeHtml (txt (tr ("tickets.event." +:+ (String_ (prop "kind" entry))) [])); html "</strong><span class='mono'>"; escapeHtml (txt (formatDateTime (prop "createdAt" entry))); html "</span>
          <small>"; escapeHtml (or_else (prop "actor" entry) (txt "—")); if ((truthy_json (prop "fromStatus" entry)) && (truthy_json (prop "toStatus" entry))) && (negb (strict_eq (prop "fromStatus" entry) (prop "toStatus" entry))) then " · " +:+ (escapeHtml (txt (tr ("tickets.status." +:+ (String_ (prop "fromStatus" entry))) []))) +:+ " → " +:+ (escapeHtml (txt (tr ("tickets.status." +:+ (String_ (prop "toStatus" entry))) []))) else ""; html "</small>
          "; if truthy_json (prop "note" entry) then cat [html "<p>"; escapeHtml (prop "note" entry); html "</p>"] else ""; html "</div>
        </div>"].
(** The title and the entries of the timeline. *)
Definition ticket_timeline (ticket : json) : string :=
  cat [html "<h3>"; escapeHtml (txt (tr "tickets.timeline" [])); html "</h3>";
    match rows_of (prop "events" ticket) with
    | [] => empty_note "text-soft" "tickets.timeline.empty"
    | events => each ticket_event events
    end].
(** * Crash reports *)

Definition crashStatusOptions (active : option json) : string :=
  each (status_option "crashes.status." active) ["NEW"; "REVIEWING"; "RESOLVED"; "IGNORED"].
Definition crash_row (row : json) : string :=
  let context := omap (λ item, match item with JStr s => Some s | _ => None end) (rows_of (prop "context" row)) in
  let note := or_else (prop "reviewNote" row) (txt "") in
  let fingerprint := match prop "fingerprint" row with Some (JStr s) => s | _ => "" end in
  cat [html "<tr data-crash-row='"; escapeHtml (prop "id" row); html "'>
        <td class='mono'>"; escapeHtml (txt (formatDateTime (prop "lastOccurredAt" row))); html "<br><span class='text-soft'>"; escapeHtml (truncateMid (prop "id" row) 10 4); html "</span></td>
        <td class='crash-issue'>
          <strong>"; escapeHtml (or_else (prop "summary" row) (txt (tr ("crashes.kind." +:+ (String_ (prop "kind" row))) []))); html "</strong>
          "; if truthy_json (prop "userDescription" row) then cat [html "<p>"; escapeHtml (prop "userDescription" row); html "</p>"] else ""; html "
          <small>"; escapeHtml (txt (tr ("crashes.kind." +:+ (String_ (prop "kind" row))) [])); if negb (length context =? 0) then " · " +:+ (escapeHtml (txt (join " · " context))) else ""; html "<br>"; escapeHtml (txt fingerprint); html "</small>
        </td>
        <td class='crash-runtime'>Desktop "; escapeHtml (or_else (prop "appVersion" row) (txt "—")); html "<br>Engine "; escapeHtml (or_else (prop "engineVersion" row) (txt "—")); html "<br>"; escapeHtml (or_else (prop "platform" row) (txt "—")); html " · "; escapeHtml (or_else (prop "arch" row) (txt "—")); html "<br><span class='crash-alert crash-alert--"; escapeHtml (or_else (prop "alertState" row) (txt "PENDING")); html "'>"; escapeHtml (txt (tr "crashes.alert.label" [])); html " · "; escapeHtml (txt (tr ("crashes.alert." +:+ (String_ (or_else (prop "alertState" row) (txt "PENDING")))) [])); html "</span>"; if truthy_json (prop "alertLastError" row) then cat [html "<br><span class='crash-alert-error'>"; escapeHtml (prop "alertLastError" row); html "</span>"] else ""; html "</td>
        <td class='num'>"; escapeHtml (txt (formatCount (prop "occurrenceCount" row))); html "</td>
        <td><div class='crash-review'>
          <select class='select' data-crash-status>"; crashStatusOptions (prop "status" row); html "</select>
          <textarea class='input' maxlength='1000' data-crash-note placeholder='"; escapeHtml (txt (tr "crashes.note.placeholder" [])); html "'>"; escapeHtml note; html "</textarea>
          "; if truthy_json (prop "reviewedBy" row) then cat [html "<small class='text-soft'>"; escapeHtml (prop "reviewedBy" row); html " · "; escapeHtml (txt (formatDateTime (prop "reviewedAt" row))); html "</small>"] else ""; html "
          "; if is_str (prop "alertState" row) "FAILED" then cat [html "<button type='button' class='btn-ghost' data-crash-retry>"; escapeHtml (txt (tr "crashes.alert.retry" [])); html "</button>"] else ""; html "
          <button type='button' class='btn-ghost' data-crash-save>"; escapeHtml (txt (tr "common.save" [])); html "</button>
        </div></td>
      </tr>"].
Definition renderCrashReports (rows : list json) : string :=
  match rows with [] => note_row "5" (tr "crashes.empty" []) | _ => each crash_row rows end.
End Views.

(** * The texts do not decide the elements *)

Section Inert.
Context {p : Platform}.

Lemma empty_note_inert css key : quiet css = true → sim Data (empty_note escapeHtml css key) (empty_note blank css key) Data.
Proof. intros H. unfold empty_note. inert. Qed.
Lemma error_note_inert message : sim Data (error_note escapeHtml message) (error_note blank message) Data.
Proof. unfold error_note. inert. Qed.
Lemma note_row_inert cols message : quiet cols = true → sim Data (note_row escapeHtml cols message) (note_row blank cols message) Data.
Proof. intros H. unfold note_row. inert. Qed.
Hint Resolve empty_note_inert error_note_inert note_row_inert : inert.

Lemma org_options_inert orgs : sim Data (org_options escapeHtml orgs) (org_options blank orgs) Data.
Proof. unfold org_options. inert. Qed.
Lemma org_select_inert key orgs : sim Data (org_select escapeHtml key orgs) (org_select blank key orgs) Data.
Proof. unfold org_select. inert. Qed.
Lemma org_created_inert org : sim Data (org_created escapeHtml org) (org_created blank org) Data.
Proof. unfold org_created. inert. Qed.
Lemma sim_join {A} m sep (f g : A → string) l : (∀ x, sim m (f x) (g x) m) → sim m sep sep m → sim m (join sep (f <$> l)) (join sep (g <$> l)) m.
Proof.
  intros Hf Hs. induction l as [|x [|y l] IH]; [apply sim_nil|apply Hf|]. cbn [fmap list_fmap] in *.
  change (join sep (?a :: ?b :: ?l)) with (a +:+ sep +:+ join sep (b :: l)). by do 2 (eapply sim_app; [done|]).
Qed.
Lemma inspect_trail_inert ancestors : sim Data (inspect_trail escapeHtml ancestors) (inspect_trail blank ancestors) Data.
Proof.
  unfold inspect_trail. destruct ancestors as [|o ancestors]; [inert|]. apply sim_join; [intros x; inert|inert].
Qed.
Hint Resolve inspect_trail_inert : inert.
Lemma inspect_view_inert showAll ancestors ids :
  sim Data (inspect_view escapeHtml showAll ancestors ids) (inspect_view blank showAll ancestors ids) Data.
Proof.
  unfold inspect_view. cbv zeta. inert.
Qed.
Lemma service_table_inert bindings : sim Data (service_table escapeHtml bindings) (service_table blank bindings) Data.
Proof. unfold service_table. inert. Qed.
Hint Resolve service_table_inert : inert.
Lemma renderServiceBindings_inert orgId rows :
  sim Data (renderServiceBindings escapeHtml orgId rows) (renderServiceBindings blank orgId rows) Data.
Proof. unfold renderServiceBindings. inert. Qed.

Lemma key_record_inert device key : sim Data (key_record escapeHtml device key) (key_record blank device key) Data.
Proof. unfold key_record. inert. Qed.
Hint Resolve key_record_inert : inert.
Lemma renderFleetKeys_inert device : sim Data (renderFleetKeys escapeHtml device) (renderFleetKeys blank device) Data.
Proof. unfold renderFleetKeys. destruct (truthy_json (prop "token_active" device)); inert. Qed.
Hint Resolve renderFleetKeys_inert : inert.
Lemma fleet_row_inert d : sim Data (fleet_row escapeHtml d) (fleet_row blank d) Data.
Proof. unfold fleet_row. inert. Qed.
Hint Resolve fleet_row_inert : inert.
Lemma fleet_table_inert rows : sim Data (fleet_table escapeHtml rows) (fleet_table blank rows) Data.
Proof. unfold fleet_table. inert. Qed.
Hint Resolve fleet_table_inert : inert.
Lemma renderFleet_inert f rows : sim Data (renderFleet escapeHtml f rows) (renderFleet blank f rows) Data.
Proof. unfold renderFleet. inert. Qed.

Lemma learningEvidence_inert row : sim Data (learningEvidence escapeHtml row) (learningEvidence blank row) Data.
Proof. unfold learningEvidence. inert. Qed.
Lemma learningActions_inert row : sim Data (learningActions escapeHtml row) (learningActions blank row) Data.
Proof. unfold learningActions, learning_attrs. inert. Qed.
Hint Resolve learningEvidence_inert learningActions_inert : inert.
Lemma learning_card_inert row : sim Data (learning_card escapeHtml row) (learning_card blank row) Data.
Proof. unfold learning_card. cbv zeta. inert. Qed.
Hint Resolve learning_card_inert : inert.
Lemma renderLearnings_inert filter_ rows : sim Data (renderLearnings escapeHtml filter_ rows) (renderLearnings blank filter_ rows) Data.
Proof. unfold renderLearnings. inert. Qed.

Lemma ticket_row_inert row : sim Data (ticket_row escapeHtml row) (ticket_row blank row) Data.
Proof. unfold ticket_row. inert. Qed.
Hint Resolve ticket_row_inert : inert.
Lemma renderFeedbackTickets_inert rows : sim Data (renderFeedbackTickets escapeHtml rows) (renderFeedbackTickets blank rows) Data.
Proof. unfold renderFeedbackTickets. inert. Qed.
Lemma status_option_inert prefix active status : quiet status = true →
  sim Data (status_option escapeHtml prefix active status) (status_option blank prefix active status) Data.
Proof. intros H. unfold status_option. destruct (is_str active status); inert. Qed.
(** A list of options over quiet values. *)
Lemma status_options_inert prefix active l : forallb quiet l = true →
  sim Data (each (status_option escapeHtml prefix active) l) (each (status_option blank prefix active) l) Data.
Proof.
  intros H. apply sim_cat. induction l as [|x l IH]; [constructor|]. cbn [forallb] in H. apply andb_true_iff in H as [Hx Hl].
  cbn. econstructor; [by apply status_option_inert|by apply IH].
Qed.
Lemma ticketStatusOptions_inert active : sim Data (ticketStatusOptions escapeHtml active) (ticketStatusOptions blank active) Data.
Proof.
  apply status_options_inert. apply forallb_forall. intros x Hx%list_elem_of_In. unfold offered_statuses in Hx.
  apply list_elem_of_filter in Hx as [_ Hx]. revert x Hx. apply Forall_forall. repeat constructor.
Qed.
Lemma ticketPriorityOptions_inert active : sim Data (ticketPriorityOptions escapeHtml active) (ticketPriorityOptions blank active) Data.
Proof. by apply status_options_inert. Qed.
Lemma crashStatusOptions_inert active : sim Data (crashStatusOptions escapeHtml active) (crashStatusOptions blank active) Data.
Proof. by apply status_options_inert. Qed.
Hint Resolve ticketStatusOptions_inert ticketPriorityOptions_inert crashStatusOptions_inert : inert.
Lemma ticket_event_inert entry : sim Data (ticket_event escapeHtml entry) (ticket_event blank entry) Data.
Proof. unfold ticket_event. inert. Qed.
Hint Resolve ticket_event_inert : inert.
Lemma ticket_timeline_inert ticket : sim Data (ticket_timeline escapeHtml ticket) (ticket_timeline blank ticket) Data.
Proof. unfold ticket_timeline. inert. Qed.
Lemma crash_row_inert row : sim Data (crash_row escapeHtml row) (crash_row blank row) Data.
Proof. unfold crash_row. cbv zeta. inert. Qed.
Hint Resolve crash_row_inert : inert.
Lemma renderCrashReports_inert rows : sim Data (renderCrashReports escapeHtml rows) (renderCrashReports blank rows) Data.
Proof. unfold renderCrashReports. inert. Qed.
End Inert.
#[export] Hint Resolve empty_note_inert error_note_inert note_row_inert org_options_inert org_select_inert org_created_inert inspect_view_inert
  renderServiceBindings_inert renderFleet_inert renderLearnings_inert renderFeedbackTickets_inert ticketStatusOptions_inert
  ticketPriorityOptions_inert crashStatusOptions_inert ticket_timeline_inert renderCrashReports_inert : inert.
