(* ===== verification/Panels.v ===== *)
(** The templates of the usage, enrollment and user views of the console and its modal ([src/public/console/app.js]), every
    text the console assigns as markup as one type, and the theorem that no text decides the elements of a page. *)
From Stdlib Require Import Qabs Qminmax Lqa.
From S2P Require Import Prelude Js Numerals I18n Html Views.
Local Open Scope nat_scope.

Section Texts.
Context {p : Platform}.

(** * Usage: the values shown *)

Definition nativeMeterValue (value : option json) : string :=
  if is_null value || is_str value "" then "—"
  else match value with Some (JNum q) => toLocaleString q 0 6 | _ => String_ value end.
Definition nativeMeterPercent (meter : json) : option Q :=
  match Number_opt (prop "limit" meter) with
  | Num limit =>
      if Qle_bool limit 0 then None
      else match Number_opt (prop "used" meter), Number_opt (prop "remaining" meter) with
      | Num used, _ => Some (Qmax 0 (used / limit * inject_Z 100))
      | _, Num remaining => Some (Qmax 0 ((limit - remaining) / limit * inject_Z 100))
      | _, _ => None
      end
  | _ => None
  end.
Definition at_least (bound : Z) (percent : option Q) : bool := from_option (Qle_bool (inject_Z bound)) false percent.
Definition bar_percent (percent : option Q) : Q := from_option (Qmin (inject_Z 100)) 0%Q percent.
Definition native_level (meter : json) (percent : option Q) : string :=
  if is_str (prop "availability" meter) "exhausted" || at_least 95 percent then " usage-meter__fill--critical"
  else if at_least 80 percent then " usage-meter__fill--warn" else "".
Definition native_availability (meter : json) : string :=
  if is_one_of (prop "availability" meter) ["available"; "exhausted"; "unknown"] then String_ (prop "availability" meter) else "unknown".
Definition native_value (meter : json) : string :=
  let unit := String_ (or_else (prop "unit" meter) (txt "")) in
  if negb (is_null (prop "used" meter)) || negb (is_null (prop "limit" meter)) then
    tr "usage.native.value" [("used", nativeMeterValue (prop "used" meter)); ("limit", nativeMeterValue (prop "limit" meter)); ("unit", unit)]
  else tr "usage.native.remaining" [("remaining", nativeMeterValue (prop "remaining" meter)); ("unit", unit)].
Definition native_metadata (meter : json) : list string :=
  filter (λ s, truthy s = true)
    [if truthy_json (prop "window" meter) then tr "usage.native.window" [("window", String_ (prop "window" meter))] else "";
     if truthy_json (prop "resetAt" meter) then tr "usage.native.reset" [("time", formatDateTime (prop "resetAt" meter))] else ""].
(** [Number(limit.percent)] when finite, at least 0. *)
Definition quota_percent (limit : json) : option Q :=
  match Number_opt (prop "percent" limit) with Num q => Some (Qmax 0 q) | _ => None end.
Definition quota_level (percent : option Q) : string :=
  if at_least 95 percent then " usage-meter__fill--critical" else if at_least 80 percent then " usage-meter__fill--warn" else "".
(** An amount without a percentage, which the server does not send, makes the source throw here. *)
Definition quota_value (limit : json) : string :=
  if is_null (prop "usedUsd" limit) then tr "usage.quota.unavailable" []
  else tr "usage.quota.value" [("used", formatMoney (prop "usedUsd" limit)); ("max", formatMoney (prop "maxUsd" limit));
    ("percent", from_option (λ q, toFixed 1 (Num q)) "" (quota_percent limit))].
Definition renderUsageAccounting (accounting : option json) : option string :=
  match accounting with
  | Some (JObj m) =>
      let source := String_ (or_else (assoc "source" m) (txt "—")) in
      let unit := String_ (or_else (assoc "unit" m) (txt "—")) in
      Some (tr (if is_str (assoc "mode" m) "provider-native" then "usage.accounting.provider" else "usage.accounting.gateway")
        [("source", source); ("unit", unit)])
  | Some (JArr _) => Some (tr "usage.accounting.gateway" [("source", "—"); ("unit", "—")])
  | _ => None
  end.

(** * Usage: the chart *)

Definition width : Q := 960.
Definition height : Q := 280.
Definition margin_top : Q := 18.
Definition margin_right : Q := 18.
Definition margin_bottom : Q := 34.
Definition margin_left : Q := 58.
Definition plotWidth : Q := width - margin_left - margin_right.
Definition plotHeight : Q := height - margin_top - margin_bottom.
(** [Math.max(0, Number(v) || 0)] *)
Definition amount (v : option json) : Q := match Number_opt v with Num q => Qmax 0 q | _ => 0 end.
(** [Math.max(...l, 0)] *)
Definition largest (l : list Q) : Q := foldr Qmax 0%Q l.
Definition chart_x (n index : nat) : Q :=
  margin_left + (if n =? 1 then plotWidth / 2 else inject_Z (Z.of_nat index) * plotWidth / inject_Z (Z.of_nat n - 1)).
(** The height of a value when the largest one takes [share] of the plot. *)
Definition chart_y (share max value : Q) : Q :=
  margin_top + plotHeight - (if negb (Qle_bool max 0) then value / max * plotHeight * share else 0).
Definition spendY (maxSpend value : Q) : Q := chart_y (88 # 100) maxSpend value.
Definition tokenY (maxTokens value : Q) : Q := chart_y (72 # 100) maxTokens value.
Definition barWidth (n : nat) : Q := Qmax 3 (Qmin 18 (plotWidth / inject_Z (Z.max (Z.of_nat n) 1) * (48 # 100))).
Definition labelStep (range : option json) : nat := if is_str range "24h" then 4 else if is_str range "7d" then 1 else 5.
Definition point (n : nat) (maxSpend : Q) (index : nat) (spend : Q) : string :=
  num_toString (chart_x n index) +:+ "," +:+ num_toString (spendY maxSpend spend).

(** * Enrollment *)

Definition modelOptionLabel (model : json) : string :=
  let localized := tr ("enroll.model.option." +:+ String_ (prop "tier" model)) [] in
  if startsWith "enroll.model.option." localized then String_ (prop "id" model) else localized.
Definition modelOptionDetail (model : json) : string :=
  let localized := tr ("enroll.model.detail." +:+ String_ (prop "tier" model)) [] in
  if negb (startsWith "enroll.model.detail." localized) then localized
  else if truthy_json (prop "contextWindowTokens" model) && truthy_json (prop "maxOutputTokens" model) then
    String_ (prop "id" model) +:+ " · " +:+ formatCount (prop "contextWindowTokens" model) +:+ " context · "
    +:+ formatCount (prop "maxOutputTokens" model) +:+ " output"
  else String_ (prop "id" model).
Definition effortOptionLabel (effort : option json) : string :=
  let localized := tr ("enroll.effort." +:+ String_ effort) [] in
  if startsWith "enroll.effort." localized then String_ effort else localized.
Definition model_text (model : json) : string :=
  let label := modelOptionLabel model in
  if is_str (prop "id" model) label then label else label +:+ " · " +:+ String_ (prop "id" model).
(** The values the choices of a person, an effort and a model have after they are painted. *)
Definition has_id (people : list json) (id : string) : bool := existsb (λ person, is_str (prop "id" person) id) people.
Definition person_value (previous : string) (people : list json) : string := if has_id people previous then previous else "".
Definition effort_value (previous : string) (model : option json) : string :=
  if existsb (λ effort, is_str (Some effort) previous) (rows_of (model ≫= prop "thinkingEfforts")) then previous else "".
Definition model_value (previous : string) (catalog : json) : string :=
  let models := rows_of (prop "models" catalog) in
  let selected := if has_id models previous then txt previous else prop "defaultModel" catalog in
  match selected with
  | Some (JStr id) => if truthy id && has_id models id then id else from_option (λ m, String_ (prop "id" m)) "" (head models)
  | _ => from_option (λ m, String_ (prop "id" m)) "" (head models)
  end.
Definition model_hint (active : option json) : string :=
  match active with Some model => modelOptionDetail model | None => tr "enroll.model.unavailable" [] end.

(** * Security *)

(** The status line of the provider credential, and whether its two tests are offered. *)
Definition provider_status (status : json) : string * bool * bool :=
  let yesNo v := tr (if truthy_json v then "provider.status.yes" else "provider.status.no") [] in
  let stored := prop "stored" status in
  let readable := if truthy_json stored && negb (truthy_json (prop "storage_readable" status)) then tr "provider.status.unreadable" [] else yesNo stored in
  let note := if truthy_json (prop "requires_activation" status) then tr "provider.status.needs_activation" []
    else if truthy_json (prop "active" status) then tr "provider.status.ready" [] else "" in
  (join " · " (filter (λ s, truthy s = true)
     [tr "provider.status.stored" [] +:+ ": " +:+ readable;
      tr "provider.status.runtime" [] +:+ ": " +:+ yesNo (prop "runtime_configured" status);
      tr "provider.status.reachable" [] +:+ ": " +:+ yesNo (prop "runtime_reachable" status);
      tr "provider.status.active" [] +:+ ": " +:+ yesNo (prop "active" status); note]),
   truthy_json stored && truthy_json (prop "storage_readable" status),
   truthy_json (prop "runtime_configured" status)).
(** The security view: its message, whether two-factor sign-in is on, and whether the provider card is shown. *)
Definition renderSecurity (me : option json) : string * bool * bool :=
  let enabled := truthy_json (me ≫= prop "twofa_enabled") in
  (tr (if enabled then "security.status.on" else "security.status.off") [], enabled, is_str (me ≫= prop "role") "SUPERADMIN").

(** * A minted code *)

(** The text of the policy of a minted code. *)
Definition formatAccessPolicy (policy : option json) : string :=
  match policy with
  | Some (JObj m) =>
      let days := match Number_opt (nullish_or (assoc "tokenTtlMinutes" m) (Some (JNum 0))) with
                  | Num q => Num (q / inject_Z (24 * 60)) | other => other end in
      let day_text := match days with Num q => if q_is_int q then num_toString q else toFixed 2 days | _ => toFixed 2 days end in
      let rates := rates_of (assoc "rpmLimit" m) (assoc "tpmLimit" m) in
      join newline (
        [if truthy_json (assoc "tokenNeverExpires" m) then tr "enroll.result.policy.never_expires" []
         else tr "enroll.result.policy.validity" [("days", day_text)];
         tr "enroll.result.policy.budgets" [("budgets", formatBudgetSummary (assoc "budgetLimits" m))]]
        ++ match rates with [] => [] | _ => [tr "enroll.result.policy.rates" [("rates", join " · " rates)]] end)
  | _ => "—"
  end.
End Texts.

Section Panels.
Context (escapeHtml : option json → string) {p : Platform}.

(** * Usage *)

Definition native_meter (meter : json) : string :=
  let percent := nativeMeterPercent meter in
  cat [html "<article class='usage-quota'>
        <div class='usage-quota__identity'>
          <div class='usage-quota__name'>"; escapeHtml (or_else (or_else (prop "principal" meter) (prop "deviceName" meter)) (txt "—")); html "</div>
          <div class='usage-quota__meta'>"; escapeHtml (or_else (prop "deviceName" meter) (txt "—")); html " · "; escapeHtml (or_else (prop "model" meter) (txt "—")); html "</div>
          <div class='usage-native-meta'>"; each (λ entry, cat [html "<span>"; escapeHtml (txt entry); html "</span>"]) (native_metadata meter); html "</div>
        </div>
        <div class='usage-quota__meters'>
          <div class='usage-meter'>
            <div class='usage-meter__head'>
              <span class='usage-meter__label'>"; escapeHtml (or_else (or_else (prop "label" meter) (prop "id" meter)) (txt "—")); html "</span>
              <span class='pill pill--muted usage-native-status usage-native-status--"; native_availability meter; html "'>"; escapeHtml (txt (tr ("usage.native.status." +:+ native_availability meter) [])); html "</span>
            </div>
            <div class='usage-meter__value'>"; escapeHtml (txt (native_value meter)); html "</div>
            "; if negb (isSome percent) then "" else cat [html "<div class='usage-meter__track'><div class='usage-meter__fill"; native_level meter percent; html "' style='width:"; num_toString (bar_percent percent); html "%'></div></div>"]; html "
          </div>
        </div>
      </article>"].
Definition renderNativeAllowance (nativeAllowance : option json) : string :=
  let member k := nativeAllowance ≫= prop k in
  match (if is_true (member "available") then rows_of (member "meters") else []) with
  | [] => empty_note escapeHtml "empty empty--inline" (if strict_eq (member "available") (Some (JBool false)) then "usage.native.unavailable" else "usage.native.no_meters")
  | meters => cat [html "<div class='usage-native-list'>"; each native_meter meters; html "</div>"]
  end.
Definition quota_meter (limit : json) : string :=
  cat [html "<div class='usage-meter'>
          <div class='usage-meter__head'><span class='usage-meter__label'>"; escapeHtml (txt (tr ("enroll.policy.window." +:+ (String_ (prop "window" limit))) [])); html "</span><span class='usage-meter__value'>"; escapeHtml (txt (quota_value limit)); html "</span></div>
          <div class='usage-meter__track'><div class='usage-meter__fill"; quota_level (quota_percent limit); html "' style='width:"; num_toString (bar_percent (quota_percent limit)); html "%'></div></div>
        </div>"].
Definition quota_rates (quota : json) : string :=
  cat [if truthy_json (prop "rpmLimit" quota) then cat [html "<span class='pill pill--muted'>"; escapeHtml (txt ((String_ (prop "rpmLimit" quota)) +:+ " RPM")); html "</span>"] else "";
    if truthy_json (prop "tpmLimit" quota) then cat [html "<span class='pill pill--muted'>"; escapeHtml (txt ((formatCount (prop "tpmLimit" quota)) +:+ " TPM")); html "</span>"] else ""].
Definition quota_card (quota : json) : string :=
  cat [html "<article class='usage-quota'>
        <div class='usage-quota__identity'>
          <div class='usage-quota__name'>"; escapeHtml (or_else (or_else (prop "principal" quota) (prop "deviceName" quota)) (txt "—")); html "</div>
          <div class='usage-quota__meta'>"; escapeHtml (or_else (prop "deviceName" quota) (txt "—")); html " · "; escapeHtml (or_else (prop "model" quota) (txt "—")); html "</div>
          <div class='usage-quota__meta'>"; escapeHtml (txt (tr "usage.quota.expires" [("date", formatDateTime (prop "expiresAt" quota))])); html "</div>
          "; if truthy_json (prop "rpmLimit" quota) || truthy_json (prop "tpmLimit" quota) then cat [html "<div class='usage-rate-pills'>"; quota_rates quota; html "</div>"] else ""; html "
        </div>
        <div class='usage-quota__meters'>"; match rows_of (prop "limits" quota) with [] => cat [html "<span class='small'>"; escapeHtml (txt (tr "usage.quota.rate_only" [])); html "</span>"] | limits => each quota_meter limits end; html "</div>
      </article>"].
Definition renderUsageQuotas (quotas : option json) : string :=
  match rows_of quotas with
  | [] => empty_note escapeHtml "empty empty--inline" "usage.empty.no_quotas"
  | quotas => cat [html "<div class='usage-quota-list'>"; each quota_card quotas; html "</div>"]
  end.
Definition breakdown_table (rows : list json) : string :=
  cat [html "<div class='table-wrap'><table class='table'>
      <thead><tr><th>"; escapeHtml (txt (tr "usage.col.person" [])); html "</th><th>"; escapeHtml (txt (tr "usage.col.device" [])); html "</th><th>"; escapeHtml (txt (tr "usage.col.model" [])); html "</th><th class='num'>"; escapeHtml (txt (tr "usage.col.spend" [])); html "</th><th class='num'>"; escapeHtml (txt (tr "usage.col.tokens" [])); html "</th><th class='num'>"; escapeHtml (txt (tr "usage.col.requests" [])); html "</th><th>"; escapeHtml (txt (tr "usage.col.last" [])); html "</th></tr></thead>
      <tbody>"; each (λ row, cat [html "<tr><td>"; escapeHtml (or_else (prop "principal" row) (txt "—")); html "</td><td>"; escapeHtml (or_else (prop "deviceName" row) (txt "—")); html "</td><td><span class='pill pill--muted'>"; escapeHtml (or_else (prop "model" row) (txt "—")); html "</span></td><td class='num'>"; escapeHtml (txt (formatMoney (prop "spend" row))); html "</td><td class='num'>"; escapeHtml (txt (formatCount (prop "totalTokens" row))); html "</td><td class='num'>"; escapeHtml (txt (formatCount (prop "requests" row))); html "</td><td class='mono'>"; escapeHtml (txt (formatDateTime (prop "lastRequestAt" row))); html "</td></tr>"]) rows; html "</tbody>
    </table></div>"].
Definition renderUsageBreakdown (rows : option json) (available : bool) : string :=
  if negb available then empty_note escapeHtml "empty empty--inline" "usage.unavailable"
  else match rows_of rows with [] => empty_note escapeHtml "empty empty--inline" "usage.empty.no_activity" | rows => breakdown_table rows end.
Definition chart_grid (maxSpend : Q) (index : nat) : string :=
  let ratio := (inject_Z (Z.of_nat index) / 4)%Q in
  let y := (margin_top + ratio * plotHeight)%Q in
  cat [html "<line class='usage-chart__grid' x1='"; num_toString margin_left; html "' y1='"; num_toString y; html "' x2='";
    num_toString (width - margin_right); html "' y2='"; num_toString y; html "'/>";
    html "<text class='usage-chart__axis' x='"; num_toString (margin_left - 8); html "' y='"; num_toString (y + 3);
    html "' text-anchor='end'>"; escapeHtml (txt (formatMoney (Some (JNum (maxSpend * (1 - ratio)))))); html "</text>"]%Q.
Definition chart_bar (range : option json) (n : nat) (maxTokens : Q) (index : nat) (row : json) : string :=
  let tokens := amount (prop "totalTokens" row) in
  let top := tokenY maxTokens tokens in
  let bottom := (margin_top + plotHeight)%Q in
  let title := timeLabel (prop "at" row) range +:+ " · " +:+ formatCount (Some (JNum tokens)) +:+ " " +:+ toLowerCase (tr "usage.chart.tokens" []) in
  cat [html "<rect class='usage-chart__bar' x='"; num_toString (chart_x n index - barWidth n / 2)%Q; html "' y='"; num_toString top;
    html "' width='"; num_toString (barWidth n); html "' height='"; num_toString (Qmax 0 (bottom - top))%Q; html "'><title>";
    escapeHtml (txt title); html "</title></rect>"].
Definition chart_marker (range : option json) (n : nat) (maxSpend : Q) (index : nat) (row : json) : string :=
  let spend := amount (prop "spend" row) in
  if Qeq_bool spend 0 then ""
  else
    let title := timeLabel (prop "at" row) range +:+ " · " +:+ formatMoney (Some (JNum spend)) +:+ " · "
      +:+ formatCount (prop "requests" row) +:+ " " +:+ toLowerCase (tr "usage.kpi.requests" []) in
    cat [html "<circle class='usage-chart__point' cx='"; num_toString (chart_x n index); html "' cy='"; num_toString (spendY maxSpend spend);
      html "' r='3'><title>"; escapeHtml (txt title); html "</title></circle>"].
Definition chart_label (range : option json) (n index : nat) (row : json) : string :=
  if negb (index mod labelStep range =? 0) && negb (index =? n - 1) then ""
  else cat [html "<text class='usage-chart__axis' x='"; num_toString (chart_x n index); html "' y='"; num_toString (height - 10)%Q;
    html "' text-anchor='middle'>"; escapeHtml (txt (timeLabel (prop "at" row) range)); html "</text>"].
Definition chart_svg (range : option json) (series : list json) : string :=
  let n := length series in
  let spends := amount ∘ prop "spend" <$> series in
  let maxSpend := largest spends in
  let maxTokens := largest (amount ∘ prop "totalTokens" <$> series) in
  let points := join " " (imap (point n maxSpend) spends) in
  let bottom := num_toString (margin_top + plotHeight)%Q in
  let area := num_toString margin_left +:+ "," +:+ bottom +:+ " " +:+ points +:+ " " +:+ num_toString (width - margin_right)%Q +:+ "," +:+ bottom in
  cat [html "<svg viewBox='0 0 "; num_toString width; html " "; num_toString height; html "' aria-hidden='true'>
      <defs><linearGradient id='usage-spend-area' x1='0' y1='0' x2='0' y2='1'><stop offset='0' stop-color='#ff6b5c' stop-opacity='.22'/><stop offset='1' stop-color='#ff6b5c' stop-opacity='0'/></linearGradient></defs>
      "; each (chart_grid maxSpend) (seq 0 5); each_i (chart_bar range n maxTokens) series;
    html "<polygon class='usage-chart__area' points='"; area; html "'/><polyline class='usage-chart__line' points='"; points; html "'/>";
    each_i (chart_marker range n maxSpend) series; each_i (chart_label range n) series;
    if Qeq_bool maxSpend 0 && Qeq_bool maxTokens 0 then
      cat [html "<text class='usage-chart__empty' x='"; num_toString (margin_left + plotWidth / 2)%Q; html "' y='"; num_toString (margin_top + plotHeight / 2)%Q;
        html "' text-anchor='middle'>"; escapeHtml (txt (tr "usage.empty.no_activity" [])); html "</text>"]
    else ""; html "
    </svg>"].
Definition renderUsageChart (report : option json) : string :=
  let member k := report ≫= prop k in
  match (if is_true (member "available") then rows_of (member "series") else []) with
  | [] => empty_note escapeHtml "empty" (if strict_eq (member "available") (Some (JBool false)) then "usage.unavailable" else "usage.empty.no_activity")
  | series => chart_svg (member "range") series
  end.

(** What the usage view shows for a report: the texts, whether the allowance of the provider replaces the gateway's figures,
    and the markup of its four parts. *)
Record UsagePage : Type := {
  up_native : bool;
  up_unavailable : option string;
  up_spend : string; up_tokens : string; up_requests : string; up_latest : string;
  up_accounting : option string;
  up_source : string;
  up_allowance : string; up_chart : string; up_quotas : string; up_breakdown : string }.
Definition renderUsage (report : option json) : UsagePage :=
  let member k := report ≫= prop k in
  let accounting := member "accounting" in
  let nativeMode := is_str (accounting ≫= prop "mode") "provider-native" in
  let available := negb nativeMode && is_true (member "available") in
  let nativeAvailable := nativeMode && is_true (member "nativeAllowance" ≫= prop "available") in
  let totals k := member "totals" ≫= prop k in
  let unavailable := if nativeMode then negb nativeAvailable else negb available in
  {| up_native := nativeMode;
     up_unavailable := if unavailable then Some (tr (if nativeMode then "usage.native.unavailable" else "usage.unavailable") []) else None;
     up_spend := if available then formatMoney (totals "spend") else "—";
     up_tokens := if available then formatCount (totals "totalTokens") else "—";
     up_requests := if available then formatCount (totals "requests") else "—";
     up_latest := if available then formatDateTime (totals "latestRequestAt") else "—";
     up_accounting := renderUsageAccounting accounting;
     up_source := String_ (or_else (accounting ≫= prop "source") (txt (tr "usage.native.authoritative" [])));
     up_allowance := renderNativeAllowance (member "nativeAllowance");
     up_chart := renderUsageChart report;
     up_quotas := renderUsageQuotas (member "quotas");
     up_breakdown := renderUsageBreakdown (member "breakdown") available |}.

(** * Enrollment *)

Definition person_options (people : list json) : string :=
  (cat [html "<option value=''>"; escapeHtml (txt (tr "enroll.person.choose" [])); html "</option>"]) +:+ (each (λ person, cat [html "<option value='"; escapeHtml (prop "id" person); html "'>"; escapeHtml (txt (personLabel person)); html "</option>"]) people).
Definition effort_options (model : option json) : string :=
  cat [cat [html "<option value=''>"; escapeHtml (txt (tr "enroll.effort.auto" [])); html "</option>"];
    each (λ effort, cat [html "<option value='"; escapeHtml (Some effort); html "'>"; escapeHtml (txt (effortOptionLabel (Some effort))); html "</option>"]) (rows_of (model ≫= prop "thinkingEfforts"))].
Definition model_options (models : list json) : string :=
  each (λ model, cat [html "<option value='"; escapeHtml (prop "id" model); html "'>"; escapeHtml (txt (model_text model)); html "</option>"]) models.
Definition no_model_option : string :=
  cat [html "<option value=''>"; escapeHtml (txt (tr "enroll.model.unavailable" [])); html "</option>"].
(** * Users *)

Definition user_row (u : json) : string :=
  let isDisabled := truthy_json (prop "disabledAt" u) in
  let rowClass := if isDisabled then "row--disabled" else "row--online" in
  cat [html "
                  <tr class='"; rowClass; html "'>
                    <td></td>
                    <td>"; escapeHtml (prop "email" u); html "</td>
                    <td><span class='pill pill--role-"; escapeHtml (prop "role" u); html "'>"; escapeHtml (prop "role" u); html "</span></td>
                    <td class='mono'>"; escapeHtml (or_else (prop "orgId" u) (txt "—")); html "</td>
                    <td>"; if isDisabled then cat [html "<span style='color:var(--err)'>"; escapeHtml (txt (tr "users.status.disabled" [])); html "</span>"] else cat [html "<span style='color:var(--ok)'>"; escapeHtml (txt (tr "users.status.active" [])); html "</span>"]; html "</td>
                    <td class='mono'>"; escapeHtml (txt (formatDate (prop "createdAt" u))); html "</td>
                    <td>
                      <div class='row-actions'>
                        <button type='button' class='btn-ghost' data-toggle='"; escapeHtml (prop "id" u); html "' data-disabled='"; if isDisabled then "1" else "0"; html "'>
                          "; escapeHtml (if isDisabled then txt (tr "users.action.enable" []) else txt (tr "users.action.disable" [])); html "
                        </button>
                        <button type='button' class='btn-ghost' data-role='"; escapeHtml (prop "id" u); html "' data-current='"; escapeHtml (prop "role" u); html "' data-email='"; escapeHtml (prop "email" u); html "'>
                          "; escapeHtml (txt (tr "users.action.role" [])); html "
                        </button>
                        <button type='button' class='btn-ghost' data-pw='"; escapeHtml (prop "id" u); html "' data-email='"; escapeHtml (prop "email" u); html "'>
                          "; escapeHtml (txt (tr "users.action.password" [])); html "
                        </button>
                      </div>
                    </td>
                  </tr>"].
Definition users_table (users : list json) : string :=
  match users with
  | [] => empty_note escapeHtml "empty" "users.empty"
  | _ => cat [html "
        <div class='table-wrap'>
          <table class='table'>
            <thead>
              <tr>
                <th style='width: 18px;'></th>
                <th>"; escapeHtml (txt (tr "users.col.email" [])); html "</th>
                <th>"; escapeHtml (txt (tr "users.col.role" [])); html "</th>
                <th>"; escapeHtml (txt (tr "users.col.org" [])); html "</th>
                <th>"; escapeHtml (txt (tr "users.col.status" [])); html "</th>
                <th>"; escapeHtml (txt (tr "users.col.created" [])); html "</th>
                <th></th>
              </tr>
            </thead>
            <tbody>
              "; each user_row users; html "
            </tbody>
          </table>
        </div>"]
  end.
(** * The modal *)

(** A field as the views of the console declare it. *)
Record Field : Type := {
  f_label : option json; f_type : option json; f_value : option json; f_options : list (option json * option json);
  f_mono : bool; f_minlength : option Z; f_maxlength : option Z; f_placeholder : option json; f_hint : option json }.
Definition length_attr (name : string) (n : option Z) : string :=
  match n with Some n => if (n =? 0)%Z then "" else cat [name; html "='"; pretty n; html "'"] | None => "" end.
Definition select_option (f : Field) (o : option json * option json) : string :=
  cat [html "<option value='"; escapeHtml o.1; html "' "; if strict_eq o.1 (f_value f) then "selected" else ""; html ">"; escapeHtml o.2; html "</option>"].
(** [id] is the random identifier of the modal, letters and digits. *)
Definition modal_field (id : string) (i : nat) (f : Field) : string :=
  cat [html "
      <div class='field'>
        <label class='field__label' for='"; id; html "-f"; pretty i; html "'>"; escapeHtml (f_label f); html "</label>
        "; if is_str (f_type f) "select" then cat [html "<select class='select' id='"; id; html "-f"; pretty i; html "'>
              "; each (select_option f) (f_options f); html "
            </select>"] else cat [html "<input class='input "; if f_mono f then "input--mono" else ""; html "' id='"; id; html "-f"; pretty i; html "' type='"; escapeHtml (or_else (f_type f) (txt "text")); html "' value='"; escapeHtml (or_else (f_value f) (txt "")); html "' placeholder='"; escapeHtml (or_else (f_placeholder f) (txt "")); html "' "; length_attr "minlength" (f_minlength f); html " "; length_attr "maxlength" (f_maxlength f); html ">"]; html "
        "; if truthy_json (f_hint f) then cat [html "<div class='field__hint'>"; escapeHtml (f_hint f); html "</div>"] else ""; html "
      </div>"].
(** The modal; no view gives another class for its button. *)
Definition modal (id title : string) (body : option json) (fields : list Field) (primaryLabel : string) : string :=
  cat [html "
      <div class='modal-backdrop' id='"; id; html "-backdrop'>
        <div class='modal' role='dialog' aria-modal='true' aria-labelledby='"; id; html "-title'>
          <h2 class='modal__title' id='"; id; html "-title'>"; escapeHtml (txt title); html "</h2>
          "; if truthy_json body then cat [html "<p class='modal__body'>"; escapeHtml body; html "</p>"] else ""; html "
          "; each_i (modal_field id) fields; html "
          <div class='modal__actions'>
            <button type='button' class='btn-ghost' id='"; id; html "-cancel'>"; escapeHtml (txt (tr "common.cancel" [])); html "</button>
            <button type='button' class='"; "btn"; html "' id='"; id; html "-confirm'>"; escapeHtml (txt primaryLabel); html "</button>
          </div>
        </div>
      </div>"].
End Panels.

(** * Everything the console assigns as markup *)

Inductive view : Type :=
  | OrgOptions (orgs : list json)
  | OrgSelect (placeholder : string) (orgs : list json)
  | OrgCreated (org : json)
  | OrgInspect (subtreeShowAll : bool) (ancestors subtree : list json)
  | ServiceBindings (orgId : string) (bindings : option (list json))
  | Note (key : string)
  | ErrorNote (message : string)
  | Fleet (f : FleetFilter) (rows : list json)
  | Learnings (shown : string) (rows : list json)
  | TicketNote (message : string)
  | Tickets (rows : list json)
  | TicketStatusOptions (active : option json)
  | TicketPriorityOptions (active : option json)
  | TicketTimeline (ticket : json)
  | CrashNote (message : string)
  | CrashReports (rows : list json)
  | InlineNote (key : string)
  | Allowance (nativeAllowance : option json)
  | Chart (report : option json)
  | Quotas (quotas : option json)
  | Breakdown (rows : option json) (available : bool)
  | People (people : list json)
  | Efforts (model : option json)
  | Models (models : list json)
  | NoModel
  | Users (users : list json)
  | Modal (id title : string) (body : option json) (fields : list Field) (primaryLabel : string)
  | QrError (message : string).
Definition markup (escapeHtml : option json → string) {p : Platform} (v : view) : string :=
  match v with
  | OrgOptions orgs => org_options escapeHtml orgs
  | OrgSelect placeholder orgs => org_select escapeHtml placeholder orgs
  | OrgCreated org => org_created escapeHtml org
  | OrgInspect subtreeShowAll ancestors subtree => inspect_view escapeHtml subtreeShowAll ancestors subtree
  | ServiceBindings orgId bindings => renderServiceBindings escapeHtml orgId bindings
  | Note key => empty_note escapeHtml "empty" key
  | ErrorNote message => error_note escapeHtml message
  | Fleet f rows => renderFleet escapeHtml f rows
  | Learnings shown rows => renderLearnings escapeHtml shown rows
  | TicketNote message => note_row escapeHtml "6" message
  | Tickets rows => renderFeedbackTickets escapeHtml rows
  | TicketStatusOptions active => ticketStatusOptions escapeHtml active
  | TicketPriorityOptions active => ticketPriorityOptions escapeHtml active
  | TicketTimeline ticket => ticket_timeline escapeHtml ticket
  | CrashNote message => note_row escapeHtml "5" message
  | CrashReports rows => renderCrashReports escapeHtml rows
  | InlineNote key => empty_note escapeHtml "empty empty--inline" key
  | Allowance nativeAllowance => renderNativeAllowance escapeHtml nativeAllowance
  | Chart report => renderUsageChart escapeHtml report
  | Quotas quotas => renderUsageQuotas escapeHtml quotas
  | Breakdown rows available => renderUsageBreakdown escapeHtml rows available
  | People people => person_options escapeHtml people
  | Efforts model => effort_options escapeHtml model
  | Models models => model_options escapeHtml models
  | NoModel => no_model_option escapeHtml
  | Users users => users_table escapeHtml users
  | Modal id title body fields primaryLabel => modal escapeHtml id title body fields primaryLabel
  | QrError message => cat [html "<div class='small'>QR: "; escapeHtml (txt message); html "</div>"]
  end.
(** The identifier of a modal is made of letters, digits and dashes. *)
Definition view_ok (v : view) : Prop :=
  match v with Modal id _ _ _ _ => forallb (λ c, is_alnum c || is_char "-" c) (chars id) = true | _ => True end.

Section Inert.
Context {p : Platform}.

Lemma quiet_native_level meter percent : quiet (native_level meter percent) = true.
Proof. unfold native_level. by repeat case_match. Qed.
Lemma quiet_quota_level percent : quiet (quota_level percent) = true.
Proof. unfold quota_level. by repeat case_match. Qed.
Lemma quiet_availability meter : quiet (native_availability meter) = true.
Proof.
  unfold native_availability, is_one_of. destruct (prop "availability" meter) as [[]|]; try done. cbn [existsb is_str String_ from_option json_toString].
  destruct (String.eqb_spec s "available") as [->|]; [done|]. destruct (String.eqb_spec s "exhausted") as [->|]; [done|].
  destruct (String.eqb_spec s "unknown") as [->|]; done.
Qed.
Hint Resolve quiet_native_level quiet_quota_level quiet_availability : inert.

Lemma native_meter_inert meter : sim Data (native_meter escapeHtml meter) (native_meter blank meter) Data.
Proof. unfold native_meter. cbv zeta. inert. Qed.
Hint Resolve native_meter_inert : inert.
Lemma renderNativeAllowance_inert a : sim Data (renderNativeAllowance escapeHtml a) (renderNativeAllowance blank a) Data.
Proof. unfold renderNativeAllowance. cbv zeta. destruct (if is_true _ then _ else _); inert. Qed.
Lemma quota_meter_inert limit : sim Data (quota_meter escapeHtml limit) (quota_meter blank limit) Data.
Proof. unfold quota_meter. inert. Qed.
Lemma quota_rates_inert quota : sim Data (quota_rates escapeHtml quota) (quota_rates blank quota) Data.
Proof. unfold quota_rates. inert. Qed.
Hint Resolve quota_meter_inert quota_rates_inert : inert.
Lemma quota_card_inert quota : sim Data (quota_card escapeHtml quota) (quota_card blank quota) Data.
Proof. unfold quota_card. inert. Qed.
Hint Resolve quota_card_inert : inert.
Lemma renderUsageQuotas_inert quotas : sim Data (renderUsageQuotas escapeHtml quotas) (renderUsageQuotas blank quotas) Data.
Proof. unfold renderUsageQuotas. inert. Qed.
Lemma breakdown_table_inert rows : sim Data (breakdown_table escapeHtml rows) (breakdown_table blank rows) Data.
Proof. unfold breakdown_table. inert. Qed.
Hint Resolve breakdown_table_inert : inert.
Lemma renderUsageBreakdown_inert rows av : sim Data (renderUsageBreakdown escapeHtml rows av) (renderUsageBreakdown blank rows av) Data.
Proof. unfold renderUsageBreakdown. inert. Qed.

Lemma chart_grid_inert m i : sim Data (chart_grid escapeHtml m i) (chart_grid blank m i) Data.
Proof. unfold chart_grid. cbv zeta. inert. Qed.
Lemma chart_bar_inert range n m i row : sim Data (chart_bar escapeHtml range n m i row) (chart_bar blank range n m i row) Data.
Proof. unfold chart_bar. cbv zeta. inert. Qed.
Lemma chart_marker_inert range n m i row : sim Data (chart_marker escapeHtml range n m i row) (chart_marker blank range n m i row) Data.
Proof. unfold chart_marker. cbv zeta. inert. Qed.
Lemma chart_label_inert range n i row : sim Data (chart_label escapeHtml range n i row) (chart_label blank range n i row) Data.
Proof. unfold chart_label. inert. Qed.
Lemma quiet_points n m l : quiet (join " " (imap (point n m) l)) = true.
Proof.
  apply quiet_join; [done|]. apply forallb_forall. intros x Hx%list_elem_of_In. apply elem_of_lookup_imap in Hx as (i & q & -> & _).
  unfold point. auto with inert.
Qed.
Hint Resolve chart_grid_inert chart_bar_inert chart_marker_inert chart_label_inert quiet_points : inert.
Lemma chart_svg_inert range series : sim Data (chart_svg escapeHtml range series) (chart_svg blank range series) Data.
Proof.
  unfold chart_svg. cbv zeta. set (points := join " " _). assert (quiet points = true) by apply quiet_points. inert.
Qed.
Hint Resolve chart_svg_inert : inert.
Lemma renderUsageChart_inert report : sim Data (renderUsageChart escapeHtml report) (renderUsageChart blank report) Data.
Proof. unfold renderUsageChart. cbv zeta. destruct (if is_true _ then _ else _); inert. Qed.

Lemma person_options_inert people : sim Data (person_options escapeHtml people) (person_options blank people) Data.
Proof. unfold person_options. inert. Qed.
Lemma effort_options_inert model : sim Data (effort_options escapeHtml model) (effort_options blank model) Data.
Proof. unfold effort_options. inert. Qed.
Lemma model_options_inert models : sim Data (model_options escapeHtml models) (model_options blank models) Data.
Proof. unfold model_options. inert. Qed.
Lemma user_row_inert u : sim Data (user_row escapeHtml u) (user_row blank u) Data.
Proof. unfold user_row. cbv zeta. inert. Qed.
Hint Resolve user_row_inert : inert.
Lemma users_table_inert users : sim Data (users_table escapeHtml users) (users_table blank users) Data.
Proof. unfold users_table. inert. Qed.

Lemma select_option_inert f o : sim Data (select_option escapeHtml f o) (select_option blank f o) Data.
Proof. unfold select_option. destruct (strict_eq _ _); inert. Qed.
Hint Resolve select_option_inert : inert.
(** An attribute that may be absent: both pages have it, or neither. *)
Lemma modal_field_inert id i f : quiet id = true → sim Data (modal_field escapeHtml id i f) (modal_field blank id i f) Data.
Proof.
  intros H. unfold modal_field, length_attr. destruct (is_str (f_type f) "select"); [inert|].
  destruct (f_minlength f) as [n|]; [destruct (n =? 0)%Z|]; (destruct (f_maxlength f) as [k|]; [destruct (k =? 0)%Z|]); inert.
Qed.
Hint Resolve modal_field_inert : inert.
Lemma modal_inert id title body fields label : quiet id = true →
  sim Data (modal escapeHtml id title body fields label) (modal blank id title body fields label) Data.
Proof. intros H. unfold modal. inert. Qed.
Hint Resolve renderNativeAllowance_inert renderUsageQuotas_inert renderUsageBreakdown_inert renderUsageChart_inert
  person_options_inert effort_options_inert model_options_inert users_table_inert modal_inert : inert.

Lemma quiet_id id : forallb (λ c, is_alnum c || is_char "-" c) (chars id) = true → quiet id = true.
Proof.
  apply forallb_mono. intros c Hc. unfold quiet_char. destruct c as [[] [] [] [] [] [] [] []]; vm_compute in Hc |- *; congruence.
Qed.
Lemma no_model_option_inert : sim Data (no_model_option escapeHtml) (no_model_option blank) Data.
Proof. unfold no_model_option. inert. Qed.
Hint Resolve no_model_option_inert crashStatusOptions_inert quiet_id : inert.
End Inert.
#[export] Hint Resolve renderNativeAllowance_inert renderUsageQuotas_inert renderUsageBreakdown_inert renderUsageChart_inert
  person_options_inert effort_options_inert model_options_inert users_table_inert modal_inert no_model_option_inert quiet_id : inert.

(** C36: No text decides the structure of a page: whatever JSON the API answered and whatever texts the dictionaries hold, a
    browser reads in every markup the console assigns exactly the tags and attribute names of the same template with all
    interpolated texts left out, and the markup ends outside any tag. A name, a crash description or a ticket title cannot
    add an element, an attribute or an event handler. *)
Theorem markup_inert {p : Platform} v : view_ok v →
  scan Data (chars (markup escapeHtml v)) = scan Data (chars (markup blank v)) ∧ well_closed (markup escapeHtml v).
Proof.
  intros Hv. assert (H : sim Data (markup escapeHtml v) (markup blank v) Data).
  { destruct v; cbn [markup view_ok] in *; try (solve [auto with inert]). inert. }
  destruct H as (tags & H1 & H2). unfold well_closed. by rewrite H1, H2.
Qed.

(** * The chart stays in its plot *)

Lemma amount_nonneg v : (0 <= amount v)%Q.
Proof. unfold amount. destruct (Number_opt v); [apply Qle_refl..|]. apply Q.le_max_l. Qed.
Lemma largest_bound l q : q ∈ l → (q <= largest l)%Q.
Proof.
  induction 1 as [|x l q' Hin IH]; cbn [largest foldr]; [apply Q.le_max_l|]. eapply Qle_trans; [exact IH|]. apply Q.le_max_r.
Qed.
Lemma chart_y_bounds share max value : (0 <= share)%Q → (share <= 1)%Q → (0 <= value)%Q → (value <= max)%Q →
  (margin_top <= chart_y share max value)%Q ∧ (chart_y share max value <= margin_top + plotHeight)%Q.
Proof.
  intros Hs0 Hs1 Hv Hm. unfold chart_y, plotHeight, margin_top, height, margin_bottom. destruct (Qle_bool max 0) eqn:E; cbn [negb].
  - split; lra.
  - assert (Hpos : (0 < max)%Q) by (apply Qnot_le_lt; intros H%Qle_bool_iff; congruence).
    assert (H0 : (0 <= value / max)%Q) by (apply Qle_shift_div_l; lra).
    assert (H1 : (value / max <= 1)%Q) by (apply Qle_shift_div_r; lra).
    set (r := (value / max)%Q) in *. split; nra.
Qed.
Lemma chart_x_bounds n index : index < n → (margin_left <= chart_x n index)%Q ∧ (chart_x n index <= width - margin_right)%Q.
Proof.
  intros Hi. unfold chart_x, plotWidth, margin_left, width, margin_right. destruct (Nat.eqb_spec n 1) as [->|Hn].
  - split; [vm_compute; congruence|vm_compute; congruence].
  - set (i := inject_Z (Z.of_nat index)). set (m := inject_Z (Z.of_nat n - 1)).
    assert (Hi0 : (0 <= i)%Q) by (unfold i; change 0%Q with (inject_Z 0); rewrite <- Zle_Qle; lia).
    assert (Hle : (i <= m)%Q) by (unfold i, m; rewrite <- Zle_Qle; lia).
    assert (Hm : (0 < m)%Q) by (unfold m; change 0%Q with (inject_Z 0); rewrite <- Zlt_Qlt; lia).
    assert (H0 : (0 <= i * (960 - 58 - 18) / m)%Q) by (apply Qle_shift_div_l; lra).
    assert (H1 : (i * (960 - 58 - 18) / m <= 960 - 58 - 18)%Q) by (apply Qle_shift_div_r; lra).
    set (r := (i * (960 - 58 - 18) / m)%Q) in *. split; lra.
Qed.
(** A series never draws outside its plot, and its largest value takes its whole share of the height. *)
Definition plotted (share : Q) (values : list Q) (value : Q) : Prop :=
  (margin_top <= chart_y share (largest values) value)%Q ∧ (chart_y share (largest values) value <= margin_top + plotHeight)%Q.
Lemma plotted_all share values value : (0 <= share)%Q → (share <= 1)%Q → (0 <= value)%Q → value ∈ values → plotted share values value.
Proof. intros. apply chart_y_bounds; try done. by apply largest_bound. Qed.

(** Every point, bar and marker of the usage chart lies inside the plot area, whatever the rows of the series hold: the
    horizontal position of each row is between the margins, also for a series of one row, and the heights of its spend and
    of its tokens, scaled to the largest of the series, are between the top and the bottom of the plot. *)
Theorem chart_inside_plot series index row :
  series !! index = Some row →
  let n := length series in
  (margin_left <= chart_x n index)%Q ∧ (chart_x n index <= width - margin_right)%Q
  ∧ plotted (88 # 100) (amount ∘ prop "spend" <$> series) (amount (prop "spend" row))
  ∧ plotted (72 # 100) (amount ∘ prop "totalTokens" <$> series) (amount (prop "totalTokens" row)).
Proof.
  intros Hrow n. destruct (chart_x_bounds n index) as [H1 H2]; [by apply lookup_lt_Some in Hrow|].
  split_and!; [done..| |]; (apply plotted_all; [vm_compute; congruence..|apply amount_nonneg|]);
    apply list_elem_of_fmap; exists row; (split; [done|]); by eapply list_elem_of_lookup_2.
Qed.
Definition demo_series : list json :=
  [JObj [("spend", JStr "1.5"); ("totalTokens", JNum 10)]; JObj [("spend", JNum (-3)); ("totalTokens", JNull)]; JNull].
Lemma chart_inside_plot_witness :
  (chart_x 3 1 <= width - margin_right)%Q ∧ plotted (88 # 100) (amount ∘ prop "spend" <$> demo_series) 0.
Proof.
  destruct (chart_inside_plot demo_series 1 (JObj [("spend", JNum (-3)); ("totalTokens", JNull)]) eq_refl) as (_ & H & Hs & _).
  split; [exact H|exact Hs].
Defined.

(** A field that would break out of its attribute, in the fleet view. *)
Definition demo_platform : Platform :=
  {| language := "en"; toLocaleString := λ q _ _, num_toString q; localDate := λ _, Some (2026, 7, 30, 9, 5)%Z;
     isoDate := λ _, Some "2026-07-30T09:05:00.000Z"; timeLabel := λ _ _, "09:05" |}.
Lemma markup_inert_witness :
  well_closed (markup (p := demo_platform) escapeHtml
    (Users [JObj [("email", JStr (html "'><script>alert(1)</script>")); ("role", JStr "ADMIN"); ("id", JStr "u1")]])).
Proof. apply (markup_inert (p := demo_platform)). exact I. Defined.
