(* ===== verification/Console.v ===== *)
(** The behaviour of the console around its templates ([src/public/console/app.js]): the API client and the session, the
    router and its operator-only views, the lists that several requests may answer, and the forms whose values the
    server validates. *)
From S2P Require Import Tickets Prelude Js KeyPolicy I18n Html Views.
Local Open Scope nat_scope.

(** * Session *)

(** What the page keeps: the stored token and profile, the account, which of the two screens is shown, the hash of the
    location, the view painted last and whether a change of the hash is still to be handled. *)
Record Page : Type := {
  token : option string;
  profile : option (string * string);
  me : option json;
  login_shown : bool;
  hash : string;
  shown : option string;
  hash_changed : bool }.
Definition set_session (tok : option string) (prof : option (string * string)) (s : Page) : Page :=
  {| token := tok; profile := prof; me := me s; login_shown := login_shown s; hash := hash s; shown := shown s; hash_changed := hash_changed s |}.
Definition set_me (m : option json) (s : Page) : Page :=
  {| token := token s; profile := profile s; me := m; login_shown := login_shown s; hash := hash s; shown := shown s; hash_changed := hash_changed s |}.
Definition set_screen (login : bool) (s : Page) : Page :=
  {| token := token s; profile := profile s; me := me s; login_shown := login; hash := hash s; shown := shown s; hash_changed := hash_changed s |}.
Definition set_view (h : string) (v : option string) (changed : bool) (s : Page) : Page :=
  {| token := token s; profile := profile s; me := me s; login_shown := login_shown s; hash := h; shown := v; hash_changed := changed |}.
Definition clearAuth : Page → Page := set_session None None.
Definition showLogin : Page → Page := set_screen true.
Definition showApp : Page → Page := set_screen false.

(** The answer of [fetch]: a failure of the network, or a status and a body. *)
Inductive Reply : Type :=
  | NetworkFailure
  | Response (status : Z) (text : string).
Record Request : Type := { rq_method : string; rq_path : string; rq_authorization : option string; rq_body : option json }.
Definition request (method path : string) (body : option json) (s : Page) : Request :=
  {| rq_method := method; rq_path := path;
     rq_authorization := match token s with Some tok => if truthy tok then Some ("Bearer " +:+ tok) else None | None => None end;
     rq_body := if truthy_json body then body else None |}.

Section Api.
Context (JSON_parse : string → option json) (lang : string).

(** The body of an answer: parsed, else its text; null when it is empty. *)
Definition reply_data (text : string) : json :=
  if truthy text then default (JStr text) (JSON_parse text) else JNull.
Definition error_text (data : json) (fallback : string) : string :=
  let msg := or_else (or_else (prop "message" data) (prop "error" data)) (txt fallback) in
  match msg with
  | Some (JArr l) => join "; " ((λ v, if is_null (Some v) then "" else json_toString v) <$> l)
  | _ => String_ msg
  end.
Definition api (reply : Reply) : M Page json :=
  match reply with
  | NetworkFailure => raise (Error (t lang "err.network" []))
  | Response status text =>
      let data := reply_data text in
      if (status =? 401)%Z then
        _ ← modify (λ s, showLogin (clearAuth s));
        raise (Error (String_ (or_else (prop "message" data) (txt (t lang "err.unauthorized" [])))))
      else if (200 <=? status)%Z && (status <=? 299)%Z then mret data
      else raise (Error (error_text data (match data with JStr s => s | _ => t lang "err.generic" [] end)))
  end.

(** * The router *)

Definition ROUTES : list string :=
  ["overview"; "orgs"; "fleet"; "usage"; "learnings"; "tickets"; "crashes"; "enroll"; "users"; "security"].
Definition OPERATOR_ROUTES : list string := ["users"; "tickets"; "crashes"].
(** The route a hash names: after the sign and a slash, up to the next slash. *)
Definition current (h : string) : string :=
  let h := match chars h with "#"%char :: "/"%char :: l | "#"%char :: l => str l | _ => h end in
  let raw := default "" (head (split "/"%char h)) in
  if mem raw ROUTES then raw else "overview".
Definition is_superadmin (m : option json) : bool := is_str (m ≫= prop "role") "SUPERADMIN".
Definition permitted (name : string) (m : option json) : bool := negb (mem name OPERATOR_ROUTES) || is_superadmin m.
(** [dispatch] of a hash whose view is permitted. *)
Definition paint (s : Page) : Page := set_view (hash s) (Some (current (hash s))) (hash_changed s) s.
(** [navigate(name)]: a new hash is dispatched when its change is handled, the same one at once. *)
Definition navigate (dispatch : Page → Page) (name : string) (s : Page) : Page :=
  let name := if mem name ROUTES then name else "overview" in
  if String.eqb (hash s) ("#/" +:+ name) then dispatch s else set_view ("#/" +:+ name) (shown s) true s.
(** The view of the overview is open to everyone, so the inner dispatch paints it. *)
Definition dispatch (s : Page) : Page :=
  if permitted (current (hash s)) (me s) then paint s else navigate paint "overview" s.
(** The pending change of the hash. *)
Definition on_hashchange (s : Page) : Page := if hash_changed s then dispatch (set_view (hash s) (shown s) false s) else s.

(** * Signing in *)

(** [boot()] with the answer to the request for the account; an empty answer has no members to show. *)
Definition boot (reply : Reply) (s : Page) : Page :=
  match api reply s with
  | (Ok JNull, s') => showLogin (set_me (Some JNull) s')
  | (Ok account, s') => dispatch (showApp (set_me (Some account) s'))
  | (Throw _, s') => showLogin s'
  end.
Record LoginForm : Type := { lf_email : string; lf_password : string; lf_code : string; lf_code_shown : bool; lf_error : string }.
(** The body of the request: the code only once it is asked for. *)
Definition login_body (f : LoginForm) : json :=
  let base := [("email", JStr (trim (lf_email f))); ("password", JStr (lf_password f))] in
  JObj (if lf_code_shown f && truthy (trim (lf_code f)) then base ++ [("code", JStr (trim (lf_code f)))] else base).
Definition text_prop (k : string) (data : json) : string := String_ (prop k data).
(** The submission with the answers of the server to the sign-in and, after it, to [boot]. *)
Definition login_failed (f : LoginForm) (message : string) : LoginForm :=
  {| lf_email := lf_email f; lf_password := lf_password f; lf_code := lf_code f; lf_code_shown := lf_code_shown f; lf_error := message |}.
Definition login_submit (reply account : Reply) (f : LoginForm) (s : Page) : LoginForm * Page :=
  match api reply s with
  | (Ok JNull, s') => (login_failed f "Cannot read properties of null (reading 'access_token')", s')
  | (Ok r, s') =>
      if truthy_json (prop "requires_2fa" r) then
        ({| lf_email := lf_email f; lf_password := lf_password f; lf_code := lf_code f; lf_code_shown := true; lf_error := "" |}, s')
      else
        ({| lf_email := lf_email f; lf_password := lf_password f; lf_code := ""; lf_code_shown := false; lf_error := "" |},
         boot account (set_session (Some (text_prop "access_token" r)) (Some (text_prop "email" r, text_prop "role" r)) s'))
  | (Throw e, s') =>
      (login_failed f (match e with Error m => or_default m (t lang "err.generic" []) | _ => t lang "err.generic" [] end), s')
  end.
Definition logout (s : Page) : Page := showLogin (set_me None (clearAuth s)).
(** When the script is loaded. *)
Definition on_load (account : Reply) (s : Page) : Page :=
  match token s with Some tok => if truthy tok then boot account s else showLogin s | None => showLogin s end.

(** What happens to a page: the location changes, the change is handled, a sign-in, a sign-out, an answer to a call of a view.
    (The two-factor forms read the account again; a change of its role takes effect at the next dispatch.) *)
Inductive page_event : Type :=
  | SetHash (h : string)
  | HandleHash
  | Start (account : Reply)
  | SignIn (f : LoginForm) (reply account : Reply)
  | SignOut
  | Called (reply : Reply).
Definition page_step (s : Page) (e : page_event) : Page :=
  match e with
  | SetHash h => if String.eqb h (hash s) then s else set_view h (shown s) true s
  | HandleHash => on_hashchange s
  | Start account => on_load account s
  | SignIn f reply account => (login_submit reply account f s).2
  | SignOut => logout s
  | Called reply => (api reply s).2
  end.
End Api.

(** * Lists that several requests may answer *)

(** What a list shows. *)
Inductive Listing (A : Type) : Type :=
  | Prompt
  | Loading
  | Failed (message : string)
  | Rows (rows : A).
Arguments Prompt {A}.
Arguments Loading {A}.
Arguments Failed {A} message.
Arguments Rows {A} rows.
(** The counter of requests, the rows kept from the last answer that had any ([lastLearningRows]), what is shown, and
    whether the refresh button is disabled. *)
Record Loader (A : Type) : Type := { requestId : nat; kept : option A; listing : Listing A; refreshing : bool }.
Arguments requestId {A}.
Arguments kept {A}.
Arguments listing {A}.
Arguments refreshing {A}.
(** A load for a choice of organization, the answer to the load with a number, or a redraw: a click on a filter, or a change
    of the language while the view is shown. *)
Inductive load_event (A : Type) : Type :=
  | Load (orgId : string)
  | Answer (request : nat) (answer : string + A)
  | Redraw.
Arguments Load {A} orgId.
Arguments Answer {A} request answer.
Arguments Redraw {A}.
Definition shows {A} (answer : string + A) : Listing A := match answer with inl message => Failed message | inr rows => Rows rows end.
Definition keeps {A} (answer : string + A) : option A := match answer with inl _ => None | inr rows => Some rows end.
(** What a redraw shows: the rows that were kept, whatever is shown. *)
Definition redrawn {A} (rows : option A) (shown : Listing A) : Listing A := match rows with Some r => Rows r | None => shown end.
(** [loadLearnings]: without an organization the prompt is shown, no rows are kept and no request is made; an answer counts
    only if it is to the last request. The rows kept stay while a request is under way. *)
Definition load_step {A} (s : Loader A) (e : load_event A) : Loader A :=
  match e with
  | Load orgId =>
      if truthy orgId then {| requestId := S (requestId s); kept := kept s; listing := Loading; refreshing := true |}
      else {| requestId := requestId s; kept := None; listing := Prompt; refreshing := refreshing s |}
  | Answer request answer =>
      if request =? requestId s
      then {| requestId := requestId s; kept := keeps answer; listing := shows answer; refreshing := false |} else s
  | Redraw => {| requestId := requestId s; kept := kept s; listing := redrawn (kept s) (listing s); refreshing := refreshing s |}
  end.
(** [loadServiceBindings] counts no requests: the chosen organization, and the rows listed with the organization they are of. *)
Record BindingsView : Type := { chosen : string; listed : option (string * list json) }.
Inductive bindings_event : Type :=
  | Choose (orgId : string)
  | Answered (orgId : string) (rows : option (list json)).
Definition bindings_step (s : BindingsView) (e : bindings_event) : BindingsView :=
  match e with
  | Choose orgId => {| chosen := orgId; listed := None |}
  | Answered orgId (Some rows) => {| chosen := chosen s; listed := Some (orgId, rows) |}
  | Answered orgId None => s
  end.

(** * The enrollment form *)

(** A number field: empty, or a positive number up to [max]. *)
Definition readOptionalPositiveNumber (lang raw : string) (integer : bool) (max : Z) : res (option number) :=
  if negb (truthy (trim raw)) then Ok None
  else
    let value := Number_str (trim raw) in
    match value with
    | Num q => if Qle_bool q 0 || num_ltb (numZ max) value || (integer && negb (isSafeInteger value))
               then Throw (Error (t lang "enroll.policy.invalid_number" [])) else Ok (Some value)
    | _ => Throw (Error (t lang "enroll.policy.invalid_number" []))
    end.
Record EnrollForm : Type := {
  ef_superadmin : bool; ef_never : bool; ef_days : string;
  ef_5h : string; ef_week : string; ef_month : string; ef_rpm : string; ef_tpm : string }.
Definition minutes_of (days : number) : number := match days with Num q => Num (q * inject_Z 24 * inject_Z 60) | other => other end.
(** One budget field of the form. *)
Definition read_budget (lang : string) (field : AccessBudgetWindow * string) : res (list AccessBudgetLimitInput) :=
  value ← readOptionalPositiveNumber lang field.2 false 1000000;
  mret (match value with Some v => [{| in_window := window_str field.1; in_maxUsd := v |}] | None => [] end).
(** The policy part of the request for a code. *)
Definition enroll_policy (lang : string) (f : EnrollForm) : res AccessKeyPolicyInput :=
  let tokenNeverExpires := ef_superadmin f && ef_never f in
  tokenDays ← (if tokenNeverExpires then mret None
               else days ← readOptionalPositiveNumber lang (ef_days f) true 365; mret (Some (nullish days (numZ 7))));
  b5 ← read_budget lang (W5h, ef_5h f);
  bw ← read_budget lang (Wweek, ef_week f);
  bm ← read_budget lang (Wmonth, ef_month f);
  rpm ← readOptionalPositiveNumber lang (ef_rpm f) true 1000000;
  tpm ← readOptionalPositiveNumber lang (ef_tpm f) true 1000000000;
  mret {| in_tokenTtlMinutes := minutes_of <$> tokenDays;
          in_tokenNeverExpires := if tokenNeverExpires then Some true else None;
          in_budgetLimits := Some (b5 ++ bw ++ bm);
          in_rpmLimit := rpm; in_tpmLimit := tpm |}.
(** The whole request: where the code is for, whom, and with which policy. *)
Record EnrollRequest : Type := {
  er_orgId : string; er_personId : string; er_model : string; er_effort : option string; er_policy : AccessKeyPolicyInput }.
Definition enroll_request (lang orgId model personId effort : string) (f : EnrollForm) : res EnrollRequest :=
  if negb (truthy (trim orgId)) then Throw (Error (t lang "err.orgid_required" []))
  else if negb (truthy (trim model)) then Throw (Error (t lang "err.model_required" []))
  else if negb (truthy (trim personId)) then Throw (Error (t lang "enroll.person.required" []))
  else
    policy ← enroll_policy lang f;
    mret {| er_orgId := trim orgId; er_personId := trim personId; er_model := trim model;
            er_effort := if truthy (trim effort) then Some (trim effort) else None; er_policy := policy |}.
(** The command shown for a minted code: the gateway without its last slash. *)
Definition enroll_command (gateway code : string) : string :=
  let l := chars (trim gateway) in
  let gateway := match reverse l with "/"%char :: rest => str (reverse rest) | _ => trim gateway end in
  "hara enroll " +:+ gateway +:+ " --code " +:+ code.
(** Whether the button that mints a code is enabled: a model of the catalog and a person are chosen. *)
Definition enroll_enabled (catalog : option json) (model person : string) : bool :=
  existsb (λ entry, is_str (prop "id" entry) model) (rows_of (catalog ≫= prop "models")) && truthy person.

(** * The forms of users and two-factor codes *)

Definition is_code (code : string) : bool := (length (chars (trim code)) =? 6) && forallb is_digit (chars (trim code)).
(** The new account a superadmin enters, or the message that refuses it. *)
Definition new_user (lang email password role orgId : string) : res json :=
  if negb (truthy email) || negb (truthy password) then Throw (Error (t lang "err.email_password_required" []))
  else if String.length password <? 12 then Throw (Error (t lang "err.short_password" []))
  else Ok (JObj ([("email", JStr email); ("password", JStr password); ("role", JStr role)]
                 ++ if truthy orgId then [("orgId", JStr orgId)] else [])).
Definition new_role (lang role : string) : res json :=
  if mem role ["SUPERADMIN"; "ADMIN"; "MEMBER"] then Ok (JObj [("role", JStr role)]) else Throw (Error (t lang "err.bad_role" [])).
Definition new_password (lang password : string) : res json :=
  if String.length password <? 12 then Throw (Error (t lang "err.short_password" [])) else Ok (JObj [("password", JStr password)]).

(** * Tickets, crashes and learnings: what the forms send *)

Definition list_query (filters : list (string * string)) : list (string * string) :=
  ("limit", "200") :: filter (λ kv, truthy kv.2 = true) filters.
Definition ticket_update (status priority assignee version verification note : string) : json :=
  JObj [("status", JStr status); ("priority", JStr priority); ("assignee", JStr (trim assignee)); ("fixVersion", JStr (trim version));
        ("verificationSteps", JStr (trim verification)); ("note", JStr (trim note))].
Definition crash_update (status note : string) : json := JObj [("status", JStr status); ("note", JStr (trim note))].
(** A decision on a learning, confirmed unless it approves; nothing is sent for a card without decision, id or revision. *)
Definition learning_review (decision id revision : option string) (confirmed : bool) : option (string * json) :=
  match decision, id, revision with
  | Some decision, Some id, Some revision =>
      match Number_str revision with
      | Num q => if truthy decision && truthy id && q_is_int q && (String.eqb decision "approve" || confirmed)
                 then Some (id, JObj [("decision", JStr decision); ("expected_revision", JNum q)]) else None
      | _ => None
      end
  | _, _, _ => None
  end.

(** * Service bindings *)

Record ServiceForm : Type := {
  sf_orgId : string; sf_service : string; sf_mode : string; sf_region : string; sf_origin : string; sf_version : string;
  sf_credential : string; sf_issuer : string; sf_jwks : string; sf_audience : string }.
Definition number_json (n : number) : json := match n with Num q => JNum q | _ => JNull end.
(** The body of the request that saves a binding: a credential only for the task board, trust fields only for collaboration. *)
Definition service_body (lang : string) (f : ServiceForm) : res json :=
  if negb (truthy (sf_orgId f)) then Throw (Error (t lang "orgs.services.err.org" []))
  else if negb (truthy (trim (sf_origin f))) then Throw (Error (t lang "orgs.services.err.origin" []))
  else Ok (JObj (
    [("mode", JStr (sf_mode f)); ("accountRegion", JStr (sf_region f)); ("apiOrigin", JStr (trim (sf_origin f)));
     ("capabilitiesVersion", number_json (Number_str (sf_version f)))]
    ++ (if String.eqb (sf_service f) "DESK_TASKS" && truthy (sf_credential f) then [("credential", JStr (sf_credential f))] else [])
    ++ (if String.eqb (sf_service f) "COLLAB" then
          [("issuer", JStr (trim (sf_issuer f))); ("jwksUri", JStr (trim (sf_jwks f))); ("audience", JStr (trim (sf_audience f)))]
        else []))).
(** The form filled from a listed binding. *)
Definition fillServiceForm (orgId : string) (binding : json) : ServiceForm :=
  let field k := String_ (or_else (prop k binding) (txt "")) in
  {| sf_orgId := orgId; sf_service := String_ (prop "service" binding); sf_mode := String_ (prop "mode" binding);
     sf_region := String_ (prop "accountRegion" binding); sf_origin := field "apiOrigin";
     sf_version := String_ (or_else (prop "capabilitiesVersion" binding) (Some (JNum 1)));
     sf_credential := ""; sf_issuer := field "issuer"; sf_jwks := field "jwksUri"; sf_audience := field "audience" |}.

(** * Theorems *)

(** Outside the sign-in screen, once the hash is handled, the view painted is one the account may see. *)
Definition guarded (s : Page) : Prop :=
  login_shown s = false → hash_changed s = false → ∃ v, shown s = Some v ∧ permitted v (me s) = true.
Section Session.
Context (JSON_parse : string → option json) (lang : string).

Lemma api_cases reply s : (api JSON_parse lang reply s).2 = s ∨ ((api JSON_parse lang reply s).2 = showLogin (clearAuth s) ∧ is_ok (api JSON_parse lang reply s).1 = false).
Proof.
  destruct reply as [|status text]; cbn [api]; [by left|]. destruct (status =? 401)%Z; [by right|].
  by destruct (_ && _); left.
Qed.
Lemma dispatch_guarded s : hash_changed (dispatch s) = false → ∃ v, shown (dispatch s) = Some v ∧ permitted v (me (dispatch s)) = true.
Proof.
  unfold dispatch. destruct (permitted (current (hash s)) (me s)) eqn:E; [by exists (current (hash s))|].
  unfold navigate. change (mem "overview" ROUTES) with true. cbv iota. destruct (String.eqb_spec (hash s) ("#/" +:+ "overview")) as [Hh|]; [|done].
  exfalso. rewrite Hh in E. vm_compute in E. done.
Qed.
Lemma dispatch_keeps s : login_shown (dispatch s) = login_shown s.
Proof. unfold dispatch, navigate. by repeat case_match. Qed.
Lemma boot_guarded account s : guarded (boot JSON_parse lang account s).
Proof.
  unfold boot. destruct (api JSON_parse lang account s) as [[[]|e] s']; try (by intros [=]); intros _; apply dispatch_guarded.
Qed.
Lemma showLogin_guarded s : guarded (showLogin s).
Proof. by intros [=]. Qed.
Lemma api_guarded reply s : guarded s → guarded (api JSON_parse lang reply s).2.
Proof. intros H. destruct (api_cases reply s) as [->|[-> _]]; [done|apply showLogin_guarded]. Qed.
Lemma step_guarded s e : guarded s → guarded (page_step JSON_parse lang s e).
Proof.
  intros H. destruct e as [h| |account|f reply account| |reply]; cbn [page_step].
  - destruct (String.eqb h (hash s)); [done|]. by intros _ [=].
  - unfold on_hashchange. destruct (hash_changed s); [|done]. intros _. apply dispatch_guarded.
  - unfold on_load. destruct (token s) as [tok|]; [destruct (truthy tok)|]; (apply boot_guarded || apply showLogin_guarded).
  - unfold login_submit. pose proof (api_guarded reply s H) as Hs. destruct (api JSON_parse lang reply s) as [[r|e] s']; [|done].
    destruct r; [done|..]; (destruct (truthy_json _); [done|apply boot_guarded]).
  - apply showLogin_guarded.
  - by apply api_guarded.
Qed.
End Session.

(** The operator views stay behind the operator role: whatever sequence of locations, sign-ins, sign-outs and answers of
    the server a visit has, whenever the application screen is shown and no change of the location is waiting to be handled,
    the view on the screen is open to everyone or the account is a SUPERADMIN. *)
Theorem operator_views_guarded JSON_parse lang s events :
  login_shown s = true →
  let s' := run_events (page_step JSON_parse lang) s events in
  login_shown s' = false → hash_changed s' = false → ∃ v, shown s' = Some v ∧ permitted v (me s') = true.
Proof.
  intros Hs s'. apply (run_events_inv (page_step JSON_parse lang) guarded); [intros; by apply step_guarded|]. intros H. congruence.
Qed.
(** Members of a JSON text are not needed to follow a session: here the parser knows two bodies. *)
Definition demo_parse (text : string) : option json :=
  if String.eqb text "token" then Some (JObj [("access_token", JStr "jwt"); ("email", JStr "a@x"); ("role", JStr "ADMIN")])
  else if String.eqb text "super" then Some (JObj [("role", JStr "SUPERADMIN")])
  else if String.eqb text "admin" then Some (JObj [("role", JStr "ADMIN")]) else None.
Definition demo_page : Page :=
  {| token := Some "jwt"; profile := None; me := None; login_shown := true; hash := "#/users"; shown := None; hash_changed := false |}.
Definition demo_login : LoginForm := {| lf_email := "a@x"; lf_password := "pw"; lf_code := ""; lf_code_shown := false; lf_error := "" |}.
Definition demo_events : list page_event :=
  [Start (Response 200 "super"); SignOut; SignIn demo_login (Response 200 "token") (Response 200 "admin"); HandleHash].
Lemma operator_views_guarded_witness :
  ∃ v, shown (run_events (page_step demo_parse "en") demo_page demo_events) = Some v
    ∧ permitted v (me (run_events (page_step demo_parse "en") demo_page demo_events)) = true.
Proof. apply (operator_views_guarded demo_parse "en" demo_page demo_events eq_refl); vm_compute; reflexivity. Defined.
(** Until the change of the hash is handled, the view of the account before is on the screen of the next one. *)
Example view_of_the_last_account :
  let s := run_events (page_step demo_parse "en") demo_page (take 3 demo_events) in
  login_shown s = false ∧ shown s = Some "users" ∧ is_superadmin (me s) = false ∧ hash_changed s = true.
Proof. vm_compute. done. Qed.

(** The last answer to a request. *)
Definition answer_to {A} (request : nat) (events : list (load_event A)) : option (string + A) :=
  last (omap (λ e, match e with Answer n a => if n =? request then Some a else None | _ => None end) events).
Definition is_redraw {A} (e : load_event A) : bool := match e with Redraw => true | _ => false end.
(** Redraws, and answers to requests made so far. *)
Definition no_load {A} (made : nat) (events : list (load_event A)) : Prop :=
  Forall (λ e, match e with Answer n _ => n <= made | Load _ => False | Redraw => True end) events.

(** C38: The last request wins in the end. Once a list is loaded for an organization, the answers of that request and of all
    earlier ones may arrive in any order and number, and filters and languages may be switched. Until the answer to the last
    request has come the refresh button stays disabled and the list says that it is loading; but once something is redrawn,
    it shows the rows it kept, if it kept any, which are those of the request before ([stale_rows_while_loading]). From the
    answer on the list shows that answer, or its error, and nothing else, redrawn or not, and those rows are the ones kept. *)
Theorem last_request_wins {A} (s : Loader A) orgId events :
  truthy orgId = true → no_load (S (requestId s)) events →
  let s' := run_events load_step s (Load orgId :: events) in
  requestId s' = S (requestId s)
  ∧ match answer_to (S (requestId s)) events with
    | None => listing s' = (if existsb is_redraw events then redrawn (kept s) Loading else Loading) ∧ refreshing s' = true ∧ kept s' = kept s
    | Some answer => listing s' = shows answer ∧ refreshing s' = false ∧ kept s' = keeps answer
    end.
Proof.
  intros Ho Ha. unfold run_events. cbn [foldl load_step]. rewrite Ho. induction events as [|e events IH] using rev_ind; [done|].
  unfold no_load in Ha. apply Forall_app in Ha as [Ha He]. specialize (IH Ha). rewrite foldl_snoc, existsb_app. unfold answer_to in *. rewrite omap_app.
  apply Forall_cons in He as [He _]. set (s1 := foldl _ _ _) in *.
  destruct e as [org|n answer|]; cbn in He; [done|..]; destruct IH as [Hid IH]; cbn [load_step omap list_omap existsb is_redraw].
  - rewrite Hid. destruct (Nat.eqb_spec n (S (requestId s))) as [->|].
    + rewrite last_snoc. done.
    + by rewrite app_nil_r, !orb_false_r.
  - rewrite app_nil_r, orb_true_r. cbn [requestId kept listing refreshing]. split; [done|].
    destruct (last _) as [answer|].
    + destruct IH as (-> & -> & ->). by destruct answer.
    + destruct IH as (-> & -> & ->). split; [|done]. destruct (existsb _ _), (kept s); done.
Qed.
Definition of_a : Loader (list string) := {| requestId := 4; kept := Some ["of a"]; listing := Rows ["of a"]; refreshing := false |}.
Lemma last_request_wins_witness :
  listing (run_events load_step of_a [Load "org-b"; Answer 4 (inr ["of a"]); Redraw; Answer 5 (inr ["of b"]); Redraw; Answer 4 (inl "late")]) = Rows ["of b"].
Proof.
  apply (last_request_wins of_a "org-b" [Answer 4 (inr ["of a"]); Redraw; Answer 5 (inr ["of b"]); Redraw; Answer 4 (inl "late")]);
    [reflexivity|repeat constructor].
Defined.
(** While the rows of organization b are loaded, a click on a filter shows those of organization a again. *)
Example stale_rows_while_loading :
  let s := run_events load_step of_a [Load "org-b"; Redraw] in listing s = Rows ["of a"] ∧ refreshing s = true.
Proof. done. Qed.
(** A choice that is taken back makes no request: the answer for the organization before still replaces the prompt. *)
Example prompt_is_overwritten rows :
  listing (run_events load_step {| requestId := 0; kept := None; listing := Prompt; refreshing := false |} [Load "org-a"; Load ""; Answer 1 (inr rows)])
  = Rows (A := list json) rows.
Proof. done. Qed.
(** Without a counter a late answer lists the rows of another organization than the chosen one. *)
Example late_answer_of_another_org rows rows' :
  run_events bindings_step {| chosen := ""; listed := None |} [Choose "org-a"; Choose "org-b"; Answered "org-b" (Some rows); Answered "org-a" (Some rows')]
  = {| chosen := "org-b"; listed := Some ("org-a", rows') |}.
Proof. done. Qed.

(** The statuses the ticket form offers are exactly those the server accepts: for a ticket in any status, the form offers
    its own status and the statuses the transition table of the feedback-ticket service allows from it, and no others. *)
Theorem offered_statuses_are_allowed s name :
  name ∈ offered_statuses (txt (Tickets.status_str s)) ↔
    ∃ s', name = Tickets.status_str s' ∧ (s' = s ∨ s' ∈ Tickets.ALLOWED_TRANSITIONS s).
Proof.
  assert (H : offered_statuses (txt (Tickets.status_str s)) =
    Tickets.status_str <$> filter (λ s', s' = s ∨ s' ∈ Tickets.ALLOWED_TRANSITIONS s)
      [RECEIVED; ACKNOWLEDGED; IN_PROGRESS; WAITING_RELEASE; WAITING_VERIFICATION; BLOCKED; CLOSED; REJECTED]).
  { destruct s; vm_compute; reflexivity. }
  rewrite H, list_elem_of_fmap. split.
  - intros (s' & -> & [Hs _]%list_elem_of_filter). by exists s'.
  - intros (s' & -> & Hs). exists s'. split; [done|]. apply list_elem_of_filter. split; [done|]. destruct s'; repeat constructor.
Qed.

(** * What the enrollment form sends *)

Lemma read_number_spec lang raw integer max v : readOptionalPositiveNumber lang raw integer max = Ok (Some v) →
  ∃ q, v = Num q ∧ (0 < q)%Q ∧ (q <= inject_Z max)%Q ∧ (integer = true → isSafeInteger v = true).
Proof.
  unfold readOptionalPositiveNumber. destruct (negb _); [done|]. destruct (Number_str (trim raw)) as [| |q]; [done..|].
  destruct (Qle_bool q 0) eqn:E1; [done|]. cbn [orb]. destruct (num_ltb (numZ max) (Num q)) eqn:E2; [done|]. cbn [orb].
  destruct (integer && negb (isSafeInteger (Num q))) eqn:E3; [done|]. intros [= <-]. exists q. apply Qle_bool_false in E1.
  split_and!; [done|done| |].
  - apply Qnot_lt_le. intros H. apply num_ltb_true in H. unfold numZ in E2. congruence.
  - intros ->. by apply andb_false_iff in E3 as [|E3%negb_false_iff].
Qed.
Lemma safe_integer_Z v : isSafeInteger v = true → ∃ q z, v = Num q ∧ (q == inject_Z z)%Q.
Proof.
  destruct v as [| |q]; [done..|]. cbn [isSafeInteger]. intros [Hi _]%andb_true_iff. exists q, (Qfloor q). split; [done|].
  unfold q_is_int in Hi. apply Z.eqb_eq in Hi. destruct q as [n d]. unfold Qeq, inject_Z, Qfloor. cbn [Qnum Qden] in *.
  rewrite Z.mul_1_r. pose proof (Z.div_mod n (Zpos d) ltac:(lia)). lia.
Qed.
Lemma read_integer_spec lang raw max v : readOptionalPositiveNumber lang raw true max = Ok (Some v) → integer_between 1 max v.
Proof.
  intros (q & -> & H0 & Hm & Hi)%read_number_spec. destruct (safe_integer_Z _ (Hi eq_refl)) as (q' & z & [= <-] & Hz).
  exists q, z. split_and!; [done|done| |].
  - rewrite Hz in H0. change 0%Q with (inject_Z 0) in H0. rewrite <- Zlt_Qlt in H0. lia.
  - rewrite Hz in Hm. by rewrite <- Zle_Qle in Hm.
Qed.
Lemma minutes_spec v : integer_between 1 365 v → integer_between MIN_TOKEN_TTL_MINUTES MAX_TOKEN_TTL_MINUTES (minutes_of v).
Proof.
  intros (q & z & -> & Hq & Hz). exists (q * inject_Z 24 * inject_Z 60)%Q, (z * 24 * 60)%Z. split_and!; [done| | |].
  - by rewrite Hq, <- !inject_Z_mult.
  - unfold MIN_TOKEN_TTL_MINUTES. lia.
  - unfold MAX_TOKEN_TTL_MINUTES. lia.
Qed.
(** What a budget field contributes: nothing, or a positive amount up to the server's maximum. *)
Lemma read_budget_spec lang w raw l : read_budget lang (w, raw) = Ok l →
  l = [] ∨ ∃ q, l = [{| in_window := window_str w; in_maxUsd := Num q |}] ∧ (q <= inject_Z MAX_BUDGET_USD)%Q.
Proof.
  unfold read_budget. cbn [fst snd]. destruct (readOptionalPositiveNumber _ _ _ _) as [[v|]|] eqn:E; [|by intros [= <-]; left|done].
  intros [= <-]. right. apply read_number_spec in E as (q & -> & _ & Hm & _). by exists q.
Qed.
(** A cent at least, and six decimals at most. *)
Definition at_least_a_cent (l : AccessBudgetLimitInput) : Prop := ∃ q, in_maxUsd l = Num q ∧ (1 # 100 <= q)%Q.
Definition sendable (l : AccessBudgetLimitInput) : Prop := ∃ q, in_maxUsd l = Num q ∧ (1 # 100 <= q)%Q ∧ six_decimals q = true.
Lemma sendable_cent l : sendable l → at_least_a_cent l.
Proof. intros (q & ? & ? & _). by exists q. Qed.
Lemma dto_budget_iff l : acceptable_limit l → (dto_budget l = true ↔ sendable l).
Proof.
  intros [[w Hw] (q & Hq & Hlo & Hhi)]. unfold dto_budget, sendable. rewrite Hw, Hq.
  assert (existsb (λ w0, String.eqb (window_str w) (window_str w0)) ACCESS_BUDGET_WINDOWS = true) as -> by by destruct w.
  rewrite !andb_true_iff, !Qle_bool_iff. split; [intros [_ [[? _] _]]; by exists q|]. intros (q' & [= <-] & _ & ?). by split_and!.
Qed.
Lemma dto_budget_sendable l : dto_budget l = true → sendable l.
Proof.
  unfold dto_budget. intros [_ H]%andb_true_iff. destruct (in_maxUsd l) as [| |q] eqn:Hq; [done..|].
  rewrite !andb_true_iff, Qle_bool_iff in H. exists q. tauto.
Qed.

Lemma read_days lang f days (d : number) :
  (if ef_superadmin f && ef_never f then mret None
   else days ← readOptionalPositiveNumber lang (ef_days f) true 365; mret (Some (nullish days (numZ 7)))) = Ok days →
  if nullish (if ef_superadmin f && ef_never f then Some true else None) false then minutes_of <$> days = None
  else integer_between MIN_TOKEN_TTL_MINUTES MAX_TOKEN_TTL_MINUTES (nullish (minutes_of <$> days) d).
Proof.
  destruct (ef_superadmin f && ef_never f); cbn; [by intros [= <-]|].
  destruct (readOptionalPositiveNumber lang (ef_days f) true 365) as [[v|]|] eqn:E; cbn; [| |done]; intros [= <-]; cbn; apply minutes_spec.
  - by eapply read_integer_spec.
  - by exists 7%Q, 7%Z.
Qed.
(** Limits of different windows, read from their fields. *)
Lemma read_budgets lang l : ∀ lss, NoDup l.*1 →
  Forall2 (λ field ls, read_budget lang field = Ok ls) l lss → Forall at_least_a_cent (concat lss) →
  NoDup (in_window <$> concat lss) ∧ Forall acceptable_limit (concat lss) ∧ Forall (λ e, ∃ w, in_window e = window_str w ∧ w ∈ l.*1) (concat lss).
Proof.
  induction l as [|[w raw] l IH]; intros lss Hnd Hl Hc; inversion Hl as [|? ls ? lss' Hr Hl']; subst; [by repeat constructor|].
  cbn [concat fmap list_fmap] in *. apply NoDup_cons in Hnd as [Hw Hnd]. apply Forall_app in Hc as [Hc1 Hc2].
  destruct (IH lss' Hnd Hl' Hc2) as (H1 & H2 & H3). rewrite fmap_app.
  assert (H3' : Forall (λ e, ∃ w0, in_window e = window_str w0 ∧ w0 ∈ w :: l.*1) (concat lss')).
  { eapply Forall_impl; [exact H3|]. cbn. intros e (w0 & He & Hin). exists w0. split; [done|]. by right. }
  apply read_budget_spec in Hr as [->|(q & -> & Hq)]; cbn [app fmap list_fmap]; [done|].
  apply Forall_cons in Hc1 as [(q' & [= <-] & Hq') _]. split_and!.
  - constructor; [|done]. intros (e & He & Hin)%list_elem_of_fmap. apply (proj1 (Forall_forall _ _) H3) in Hin as (w0 & Hw0 & Hin).
    cbn in He. apply Hw. rewrite Hw0 in He. apply window_str_inj in He as ->. done.
  - constructor; [|done]. split; [by exists w|]. by exists q.
  - constructor; [|done]. exists w. split; [done|]. by left.
Qed.

(** What a form without errors asks for is acceptable, if no budget is below a cent. *)
Lemma enroll_policy_acceptable lang f input d :
  enroll_policy lang f = Ok input → Forall at_least_a_cent (nullish (in_budgetLimits input) []) →
  acceptable input d ∧ (length (nullish (in_budgetLimits input) []) ≤ 3) ∧
  (∀ n, in_tokenTtlMinutes input = Some n → integer_between MIN_TOKEN_TTL_MINUTES MAX_TOKEN_TTL_MINUTES n).
Proof.
  intros H Hc. unfold enroll_policy in H. apply res_bind_ok in H as (days & Hd & H). inv_ok. unfold acceptable. cbn in Hc |- *.
  destruct (read_budgets lang [(W5h, ef_5h f); (Wweek, ef_week f); (Wmonth, ef_month f)] [a; a0; a1]) as (Hnd & Hall & _);
    [repeat constructor; set_solver|by repeat constructor|cbn; by rewrite app_nil_r|]. cbn in Hnd, Hall. rewrite app_nil_r in Hnd, Hall.
  pose proof (read_days lang f _ d Hd) as Hdays. split_and!; try done.
  - intros n ->. by eapply read_integer_spec.
  - intros n ->. by eapply read_integer_spec.
  - assert (∀ w raw ls, read_budget lang (w, raw) = Ok ls → length ls ≤ 1) as Hlen.
    { intros w raw ls [->|(q & -> & _)]%read_budget_spec; cbn; lia. }
    rewrite !length_app. pose proof (Hlen _ _ _ H). pose proof (Hlen _ _ _ H0). pose proof (Hlen _ _ _ H1). lia.
  - intros n Hn. revert Hdays. destruct (ef_superadmin f && ef_never f); cbn [nullish]; rewrite Hn; [done|]. by cbn.
Qed.

(** C40: What the enrollment form sends, the server accepts, but for two kinds of budget. When the form reads its fields
    without an error, the policy of the request passes the validator of the request and then [normalizeAccessKeyPolicy], with a
    validity in days turned into minutes within the server's bounds, one limit per budget window, and rates that are whole and
    in range, exactly when every budget that was entered is at least a cent and has at most six decimals; any other is sent
    too, and refused ([budget_below_a_cent], [budget_of_seven_decimals]). *)
Theorem enroll_form_accepted lang f input d :
  enroll_policy lang f = Ok input →
  (dto_policy input = true ∧ is_ok (normalizeAccessKeyPolicy input d) = true ↔ Forall sendable (nullish (in_budgetLimits input) [])) ∧
  (Forall sendable (nullish (in_budgetLimits input) []) → acceptable input d).
Proof.
  intros H.
  assert (Forall sendable (nullish (in_budgetLimits input) []) → acceptable input d ∧ dto_policy input = true) as Hforward.
  { intros Hs. destruct (enroll_policy_acceptable lang f input d H) as (Ha & Hlen & Httl); [eapply Forall_impl; [exact Hs|apply sendable_cent]|].
    split; [done|]. destruct Ha as (_ & _ & Hlim & Hrpm & Htpm). unfold dto_policy.
    rewrite !dto_int_between by done. rewrite (proj2 (Nat.leb_le _ _) Hlen). cbn [andb]. rewrite !andb_true_r. apply forallb_forall.
    intros l Hl%list_elem_of_In. rewrite Forall_forall in Hs, Hlim. apply dto_budget_iff; auto. }
  split; [split|].
  - intros [Hdto _]. unfold dto_policy in Hdto. rewrite !andb_true_iff, forallb_forall in Hdto. apply Forall_forall.
    intros l Hl. apply dto_budget_sendable. destruct Hdto as [[[_ Hall] _] _]. by apply Hall, list_elem_of_In.
  - intros [Ha Hdto]%Hforward. split; [done|by apply normalize_accepts_iff].
  - intros Hs. by apply Hforward.
Qed.
Definition demo_form : EnrollForm :=
  {| ef_superadmin := true; ef_never := false; ef_days := "30"; ef_5h := ""; ef_week := "12.5"; ef_month := "40"; ef_rpm := "60"; ef_tpm := "" |}.
Lemma enroll_form_accepted_witness : ∃ input, enroll_policy "en" demo_form = Ok input ∧
  dto_policy input = true ∧ is_ok (normalizeAccessKeyPolicy input (numZ 60)) = true.
Proof.
  eexists. split; [vm_compute; reflexivity|].
  refine (proj2 (proj1 (enroll_form_accepted "en" demo_form _ (numZ 60) _)) _); [vm_compute; reflexivity|].
  repeat constructor; (eexists; split; [reflexivity|split; [vm_compute; congruence|vm_compute; reflexivity]]).
Defined.
(** The form takes a budget with any number of decimals, and the server's validator at most six. *)
Example budget_of_seven_decimals :
  match enroll_policy "en" {| ef_superadmin := false; ef_never := false; ef_days := ""; ef_5h := "12.3456789"; ef_week := ""; ef_month := ""; ef_rpm := ""; ef_tpm := "" |} with
  | Ok input => dto_policy input = false ∧ is_ok (normalizeAccessKeyPolicy input (numZ 60)) = true
  | Throw _ => False
  end.
Proof. split; vm_compute; reflexivity. Qed.
(** The form takes a budget below a cent, which the server refuses. *)
Example budget_below_a_cent :
  match enroll_policy "en" {| ef_superadmin := false; ef_never := false; ef_days := ""; ef_5h := "0.001"; ef_week := ""; ef_month := ""; ef_rpm := ""; ef_tpm := "" |} with
  | Ok input => normalizeAccessKeyPolicy input (numZ 60) = Throw (Error "budget maxUsd must be between 0.01 and 1000000")
  | Throw _ => False
  end.
Proof. vm_compute. reflexivity. Qed.
