(* ===== verification/Caches.v ===== *)
(** What the console keeps between its views ([src/public/console/app.js]): the list of organizations and the catalog of
    models, each asked for once and shared by every caller, the people of an organization, the choices of the enrollment
    form, and the counters of the overview. *)
From S2P Require Import Prelude Js KeyPolicy I18n Html Views Panels Console.
Local Open Scope nat_scope.

(** * A value that is asked for once *)

(** The value, the request whose answer is awaited, and how many requests were made. *)
Record Shared (A : Type) : Type := { value : option A; pending : option nat; made : nat }.
Arguments value {A}.
Arguments pending {A}.
Arguments made {A}.
Inductive shared_event (A : Type) : Type :=
  | Get (force : bool)
  | Reply (request : nat) (answer : option A).
Arguments Get {A} force.
Arguments Reply {A} request answer.
Definition nothing {A} : Shared A := {| value := None; pending := None; made := 0 |}.
(** [getOrgChoices] and [loadManagedModelCatalog]: a kept value or a pending request serves the caller; whichever request
    is answered, its answer is kept, and none is awaited any more. *)
Definition shared_step {A} (s : Shared A) (e : shared_event A) : Shared A :=
  match e with
  | Get force =>
      let s := if force then {| value := None; pending := None; made := made s |} else s in
      if isSome (value s) || isSome (pending s) then s else {| value := None; pending := Some (S (made s)); made := S (made s) |}
  | Reply _ (Some v) => {| value := Some v; pending := None; made := made s |}
  | Reply _ None => {| value := value s; pending := None; made := made s |}
  end.
(** The organizations, from an answer of any type. *)
Definition org_answer (answer : option json) : option (list json) := rows_of ∘ Some <$> answer.

(** Requests that are made without force, and answered once. *)
Definition served {A} (s : Shared A) (e : shared_event A) : bool :=
  match e with Get force => negb force | Reply n _ => match pending s with Some m => n =? m | None => false end end.
Fixpoint orderly {A} (s : Shared A) (events : list (shared_event A)) : bool :=
  match events with [] => true | e :: l => served s e && orderly (shared_step s e) l end.
Definition failure {A} (e : shared_event A) : bool := match e with Reply _ None => true | _ => false end.
Definition failures {A} (events : list (shared_event A)) : nat := length (List.filter failure events).
Definition success {A} (e : shared_event A) : option A := match e with Reply _ a => a | Get _ => None end.
Definition successes {A} (events : list (shared_event A)) : list A := omap success events.
Definition one {A} (s : Shared A) : nat := if isSome (value s) || isSome (pending s) then 1 else 0.

Lemma orderly_run {A} (events : list (shared_event A)) s : orderly s events = true → (value s = None ∨ pending s = None) →
  let s' := run_events shared_step s events in
  made s' + one s = made s + failures events + one s' ∧ (value s' = None ∨ pending s' = None) ∧
  value s' = match value s with Some v => Some v | None => head (successes events) end ∧ (is_Some (value s) → successes events = []).
Proof.
  revert s. induction events as [|e events IH]; intros s Ho Hs; cbn [run_events foldl].
  { cbn. split_and!; [lia|done|by destruct (value s)|done]. }
  cbn [orderly] in Ho. apply andb_prop in Ho as [He Ho]. destruct s as [v p m]. destruct e as [[]|n [a|]]; cbn in He; try done.
  - destruct (IH _ Ho) as (H1 & H2 & H3 & H4); [by destruct v, p; cbn in *; auto|]. unfold run_events, failures, one in *.
    cbn [List.filter failure successes omap list_omap success]. destruct v as [v|], p as [p|]; cbn in *; [by destruct Hs|..]; split_and!; try done; lia.
  - destruct p as [p|]; [|done]. destruct Hs as [Hs|]; [|done]. cbn in Hs. subst v.
    destruct (IH _ Ho) as (H1 & H2 & H3 & H4); [by right|]. cbn in H1, H3, H4 |- *. unfold run_events in *. unfold failures, one in *; cbn in *.
    split_and!; [lia|done|done|]. by intros [? ?].
  - destruct p as [p|]; [|done]. destruct Hs as [Hs|]; [|done]. cbn in Hs. subst v.
    destruct (IH _ Ho) as (H1 & H2 & H3 & H4); [by right|]. cbn in H1, H3, H4 |- *. unfold run_events in *. unfold failures, one in *; cbn in *.
    split_and!; [lia|done|done|]. by intros [? ?].
Qed.

(** A kept value is asked for once: as long as nobody forces a new request, however many callers there are and however
    their calls and the answers alternate, another request is made only after the one before failed, the value is the first
    that was answered, and once there is one no request is made or awaited. *)
Theorem shared_once {A} (events : list (shared_event A)) :
  orderly nothing events = true →
  let s := run_events shared_step nothing events in
  made s = failures events + one s ∧ value s = head (successes events) ∧ (is_Some (value s) → pending s = None ∧ made s = S (failures events)).
Proof.
  intros Ho s. destruct (orderly_run events nothing Ho) as (H1 & H2 & H3 & _); [by left|]. fold s in H1, H2, H3. cbn -[one] in H1, H3. change (one (@nothing A)) with 0 in H1.
  split_and!; [lia|done|]. intros [v Hv]. destruct H2 as [H2|H2]; [congruence|]. split; [done|].
  unfold one in H1. rewrite Hv in H1. cbn in H1. lia.
Qed.
Lemma shared_once_witness :
  let events := [Get false; Get false; Reply 1 None; Get false; Reply 2 (Some "orgs"); Get false] in
  made (run_events shared_step nothing events) = 2 ∧ value (run_events shared_step nothing events) = Some "orgs".
Proof.
  intros events. destruct (shared_once events eq_refl) as (_ & H2 & H3). split; [|exact H2]. refine (proj2 (H3 _)). by eexists.
Defined.
(** A forced request does not call off the one before: a late answer from before the creation of an organization replaces
    the list with the new one. *)
Example late_list_replaces {A} (old new : A) :
  run_events shared_step nothing [Get false; Get true; Reply 2 (Some new); Reply 1 (Some old)] = {| value := Some old; pending := None; made := 2 |}.
Proof. reflexivity. Qed.

(** * The choices of the enrollment form *)

(** The organization typed, the people painted, the person, model and effort chosen, the catalog, the people kept by
    organization, and whether the button is enabled. *)
Record EnrollView : Type := {
  ev_org : string; ev_people : list json; ev_person : string; ev_model : string; ev_effort : string; ev_catalog : option json;
  ev_kept : list (string * list json); ev_button : bool }.
Inductive enroll_event : Type :=
  | TypeOrg (orgId : string)
  | People (orgId : string) (answer : option (list json))
  | PickPerson (person : string)
  | PickModel (model : string)
  | PickEffort (effort : string)
  | Catalog (catalog : json).
Definition refreshEnrollCreateState (s : EnrollView) : EnrollView :=
  {| ev_org := ev_org s; ev_people := ev_people s; ev_person := ev_person s; ev_model := ev_model s; ev_effort := ev_effort s; ev_catalog := ev_catalog s;
     ev_kept := ev_kept s; ev_button := enroll_enabled (ev_catalog s) (ev_model s) (ev_person s) |}.
Definition paintEnrollPeople (people : list json) (s : EnrollView) : EnrollView :=
  refreshEnrollCreateState {| ev_org := ev_org s; ev_people := people; ev_person := person_value (ev_person s) people; ev_model := ev_model s;
    ev_effort := ev_effort s; ev_catalog := ev_catalog s; ev_kept := ev_kept s; ev_button := ev_button s |}.
Definition keepPeople (orgId : string) (people : list json) (s : EnrollView) : EnrollView :=
  {| ev_org := ev_org s; ev_people := ev_people s; ev_person := ev_person s; ev_model := ev_model s; ev_effort := ev_effort s; ev_catalog := ev_catalog s;
     ev_kept := obj_set orgId people (ev_kept s); ev_button := ev_button s |}.
(** [loadPeople]: the people of an organization that are kept, unless they are asked for anew. *)
Definition kept_people (orgId : string) (force : bool) (s : EnrollView) : option (list json) :=
  if negb (truthy orgId) then Some [] else if force then None else assoc orgId (ev_kept s).
Definition entry_of (id : string) (models : list json) : option json := find (λ model, is_str (prop "id" model) id) models.
Definition set_choice (model effort : string) (s : EnrollView) : EnrollView :=
  refreshEnrollCreateState {| ev_org := ev_org s; ev_people := ev_people s; ev_person := ev_person s; ev_model := model; ev_effort := effort;
    ev_catalog := ev_catalog s; ev_kept := ev_kept s; ev_button := ev_button s |}.
Definition paintManagedModelCatalog (s : EnrollView) : EnrollView :=
  match ev_catalog s with
  | Some catalog =>
      let model := model_value (ev_model s) catalog in
      set_choice model (effort_value (ev_effort s) (entry_of model (rows_of (prop "models" catalog)))) s
  | None => s
  end.
Definition set_enroll (org person : string) (catalog : option json) (s : EnrollView) : EnrollView :=
  {| ev_org := org; ev_people := ev_people s; ev_person := person; ev_model := ev_model s; ev_effort := ev_effort s; ev_catalog := catalog;
     ev_kept := ev_kept s; ev_button := ev_button s |}.
(** An option that is offered can be picked. *)
Definition enroll_step (s : EnrollView) (e : enroll_event) : EnrollView :=
  match e with
  | TypeOrg orgId =>
      let s := set_enroll (trim orgId) (ev_person s) (ev_catalog s) s in
      match kept_people (trim orgId) false s with Some people => paintEnrollPeople people s | None => s end
  | People orgId (Some people) => paintEnrollPeople people (keepPeople orgId people s)
  | People _ None => paintEnrollPeople [] s
  | PickPerson person =>
      if negb (truthy person) || has_id (ev_people s) person then refreshEnrollCreateState (set_enroll (ev_org s) person (ev_catalog s) s) else s
  | PickModel model =>
      if has_id (rows_of (ev_catalog s ≫= prop "models")) model then
        paintManagedModelCatalog {| ev_org := ev_org s; ev_people := ev_people s; ev_person := ev_person s; ev_model := model; ev_effort := ev_effort s;
          ev_catalog := ev_catalog s; ev_kept := ev_kept s; ev_button := ev_button s |}
      else s
  | PickEffort effort =>
      if negb (truthy effort) || truthy (effort_value effort (entry_of (ev_model s) (rows_of (ev_catalog s ≫= prop "models"))))
      then {| ev_org := ev_org s; ev_people := ev_people s; ev_person := ev_person s; ev_model := ev_model s; ev_effort := effort;
          ev_catalog := ev_catalog s; ev_kept := ev_kept s; ev_button := ev_button s |}
      else s
  | Catalog catalog => paintManagedModelCatalog (set_enroll (ev_org s) (ev_person s) (Some catalog) s)
  end.
Definition blank_form : EnrollView :=
  {| ev_org := ""; ev_people := []; ev_person := ""; ev_model := ""; ev_effort := ""; ev_catalog := None; ev_kept := []; ev_button := false |}.

Definition offered (s : EnrollView) : Prop :=
  (ev_person s = "" ∨ has_id (ev_people s) (ev_person s) = true) ∧
  effort_value (ev_effort s) (entry_of (ev_model s) (rows_of (ev_catalog s ≫= prop "models"))) = ev_effort s ∧
  ev_button s = enroll_enabled (ev_catalog s) (ev_model s) (ev_person s).
Lemma effort_value_cases e m : effort_value e m = e ∨ effort_value e m = "".
Proof. unfold effort_value. destruct (existsb _ _); [by left|by right]. Qed.
Lemma effort_value_twice e m : effort_value (effort_value e m) m = effort_value e m.
Proof.
  destruct (effort_value_cases e m) as [H|H]; rewrite H; [done|]. by destruct (effort_value_cases "" m).
Qed.
Lemma person_value_offered p people : person_value p people = "" ∨ has_id people (person_value p people) = true.
Proof. unfold person_value. destruct (has_id people p) eqn:H; [by right|by left]. Qed.
Lemma offered_people people s : offered s → offered (paintEnrollPeople people s).
Proof. intros (_ & He & _). split_and!; [apply person_value_offered|exact He|done]. Qed.
Lemma offered_catalog s : (ev_person s = "" ∨ has_id (ev_people s) (ev_person s) = true) → ev_catalog s ≠ None → offered (paintManagedModelCatalog s).
Proof.
  intros Hp Hc. unfold paintManagedModelCatalog. destruct (ev_catalog s) as [c|] eqn:E; [|done]. unfold offered, set_choice, refreshEnrollCreateState.
  cbn [ev_person ev_people ev_effort ev_model ev_catalog ev_button]. rewrite E. cbn [mbind option_bind]. split_and!; [done|apply effort_value_twice|done].
Qed.
Lemma offered_step s e : offered s → offered (enroll_step s e).
Proof.
  intros H. pose proof H as (Hp & He & Hb). destruct e as [org|org [people|]|person|model|effort|catalog]; cbn [enroll_step].
  - destruct (kept_people _ _ _); [apply offered_people|]; done.
  - by apply offered_people.
  - by apply offered_people.
  - destruct (_ || _) eqn:Hc; [|done]. split_and!; [|exact He|done]. cbn. apply orb_prop in Hc as [Hc|Hc]; [left|by right].
    by apply negb_true_iff, truthy_false in Hc.
  - destruct (ev_catalog s) as [c|] eqn:E; [|exact H]. destruct (has_id (rows_of _) _); [|exact H]. apply offered_catalog; [done|]. cbn. congruence.
  - destruct (_ || _) eqn:Hc; [|done]. split_and!; [done| |done]. cbn [ev_effort ev_model ev_catalog]. apply orb_prop in Hc as [Hc|Hc].
    + apply negb_true_iff, truthy_false in Hc as ->. by destruct (effort_value_cases "" (entry_of (ev_model s) (rows_of (ev_catalog s ≫= prop "models")))).
    + by destruct (effort_value_cases effort (entry_of (ev_model s) (rows_of (ev_catalog s ≫= prop "models")))) as [E|E]; rewrite E in *.
  - by apply offered_catalog.
Qed.

(** What the form holds is what it offers: whatever is typed and picked, and in whatever order the people of several
    organizations and the catalog arrive, the person chosen is one of those painted or none, the effort is one the chosen
    model has or automatic, and the button is enabled exactly when a model of the catalog and a person are chosen. *)
Theorem enroll_choices_offered events :
  let s := run_events enroll_step blank_form events in
  (ev_person s = "" ∨ has_id (ev_people s) (ev_person s) = true) ∧
  effort_value (ev_effort s) (entry_of (ev_model s) (rows_of (ev_catalog s ≫= prop "models"))) = ev_effort s ∧
  ev_button s = enroll_enabled (ev_catalog s) (ev_model s) (ev_person s).
Proof. apply (run_events_inv enroll_step offered offered_step). split_and!; [by left|done|done]. Qed.
(** The people are not compared with the organization: a late answer offers the people of the one typed before. *)
Definition demo_person (id : string) : json := JObj [("id", JStr id)].
Definition demo_catalog : json := JObj [("models", JArr [JObj [("id", JStr "m1"); ("thinkingEfforts", JArr [JStr "low"])]]); ("defaultModel", JStr "m1")].
Example late_people :
  let s := run_events enroll_step blank_form [Catalog demo_catalog; TypeOrg "a"; TypeOrg "b"; People "b" (Some [demo_person "p-b"]); People "a" (Some [demo_person "p-a"]); PickPerson "p-a"] in
  ev_org s = "b" ∧ ev_person s = "p-a" ∧ ev_model s = "m1" ∧ ev_button s = true.
Proof. vm_compute. done. Qed.

(** * The counters of the overview *)

Record Kpis : Type := { k_devices : string; k_activity : string; k_orgs : string; k_users : string }.
Definition count_of (answer : option json) (shown : string) : string := match answer with Some (JArr l) => pretty (length l) | _ => shown end.
(** [refreshOverview] with the two answers; a request that fails leaves its counter. *)
Definition refreshOverview (superadmin : bool) (orgs users : option json) (k : Kpis) : Kpis :=
  {| k_devices := "—"; k_activity := "—"; k_orgs := count_of orgs (k_orgs k); k_users := if superadmin then count_of users (k_users k) else "—" |}.

(** * What the next account finds *)

(** A tab: the page, and the organizations it keeps. *)
Record Tab : Type := { tab_page : Page; tab_orgs : Shared (list json) }.
Inductive tab_event : Type :=
  | OnPage (e : page_event)
  | OrgReply (request : nat) (answer : option json).
(** A sign-in that shows the application asks for the organizations. *)
Definition signs_in (e : page_event) (s : Page) : bool := match e with Start _ | SignIn _ _ _ => negb (login_shown s) | _ => false end.
Definition tab_step (JSON_parse : string → option json) (lang : string) (s : Tab) (e : tab_event) : Tab :=
  match e with
  | OnPage e =>
      let page := page_step JSON_parse lang (tab_page s) e in
      {| tab_page := page; tab_orgs := if signs_in e page then shared_step (tab_orgs s) (Get false) else tab_orgs s |}
  | OrgReply n answer => {| tab_page := tab_page s; tab_orgs := shared_step (tab_orgs s) (Reply n (org_answer answer)) |}
  end.
(** Signing out leaves the organizations: the next account is shown those of the account before, and none are asked for. *)
Example organizations_of_the_last_account :
  let s := run_events (tab_step demo_parse "en") {| tab_page := demo_page; tab_orgs := nothing |}
    [OnPage (Start (Response 200 "super")); OrgReply 1 (Some (JArr [demo_person "org-of-another"])); OnPage SignOut;
     OnPage (SignIn demo_login (Response 200 "token") (Response 200 "admin"))] in
  login_shown (tab_page s) = false ∧ is_superadmin (me (tab_page s)) = false ∧
  value (tab_orgs s) = Some [demo_person "org-of-another"] ∧ made (tab_orgs s) = 1.
Proof. vm_compute. done. Qed.
