(* ===== verification/Cli.v ===== *)
(** The command line of the administrator ([cli/admin.ts], [cli/create-superadmin.ts]): the requests a command sends and
    the lines it prints, and the creation of the first account without the service. Texts are UTF-8; the answers of the
    service, the file with the settings and the parsing of JSON are parameters. *)
From S2P Require Import Prelude Js Crypto Ssrf ModelPolicy Access Session Startup Auth Providers Bootstrap Litellm Probes Html Views.
Local Open Scope nat_scope.

(** * Texts *)

(** The UTF-16 units of a character are counted at its first byte. *)
Definition units (c : ascii) : nat :=
  if (128 <=? code c) && (code c <? 192) then 0 else if code c <? 240 then 1 else 2.
Definition utf16_length (s : string) : nat := foldr (λ c n, units c + n) 0 (chars s).
Definition padEnd (n : nat) (s : string) : string := s +:+ str (replicate (n - utf16_length s) " "%char).
Definition padStart (n : nat) (s : string) : string := str (replicate (n - utf16_length s) " "%char) +:+ s.
(** [s.slice(0, n)]; a character of which only one unit fits is left out. *)
Fixpoint slice_units (n : nat) (l : list ascii) : list ascii :=
  match l with [] => [] | c :: l' => if units c <=? n then c :: slice_units (n - units c) l' else [] end.
(** [encodeURIComponent] of a text in UTF-8. *)
Definition encode_byte (c : ascii) : string :=
  if is_alnum c || is_char "-_.!~*'()" c then str [c] else percent (Z.of_nat (code c)).
Definition encode_text (s : string) : string := join "" (map encode_byte (chars s)).
(** [JSON.stringify(v, null, 2)], with the indentation of the line it starts on. *)
Fixpoint JSON_pretty (indent : string) (v : json) : string :=
  let inner := indent +:+ "  " in
  match v with
  | JArr [] => "[]"
  | JObj [] => "{}"
  | JArr l => "[" +:+ nl +:+ join ("," +:+ nl) (map (λ x, inner +:+ JSON_pretty inner x) l) +:+ nl +:+ indent +:+ "]"
  | JObj m => "{" +:+ nl +:+ join ("," +:+ nl) (map (λ '(k, x), inner +:+ quote k +:+ ": " +:+ JSON_pretty inner x) m) +:+ nl +:+ indent +:+ "}"
  | v => JSON_stringify v
  end.
Example texts_sample : padStart 7 "—" = "      —" ∧ padEnd 4 "日" = "日   " ∧ str (slice_units 2 (chars "a日本")) = "a日" ∧
  encode_text "a b/c" = "a%20b%2Fc" ∧
  JSON_pretty "" (JObj [("a", JArr [JNum 1; JArr []]); ("b", JObj [])]) =
    join nl ["{"; "  " +:+ quote "a" +:+ ": ["; "    1,"; "    []"; "  ],"; "  " +:+ quote "b" +:+ ": {}"; "}"].
Proof. split_and!; vm_compute; reflexivity. Qed.

(** * The commands *)

(** A request carries the administrator's key; the answer is a failure of the network, or a status and a text. *)
Record Call := { c_method : string; c_url : string; c_key : string; c_body : option json }.
(** What was sent, and the lines printed: to the standard output, or to the error output. *)
Record Terminal := { sent : list Call; printed : list (bool * string) }.

(** A member of a value, which may be undefined. *)
Definition get (v : option json) (k : string) : res (option json) :=
  match v with Some v => member v k | None => Throw (Error "Cannot read properties of undefined") end.
Definition array (v : option json) : res (list json) :=
  match v with Some (JArr l) => Ok l | _ => Throw (Error "not a function") end.
(** The text of an element in [join]. *)
Definition element (v : json) : string := match v with JNull => "" | v => json_toString v end.
Definition fleet_line (d : json) : res string :=
  online ← member d "online";
  token_active ← member d "token_active";
  let '(field, dot) := (Html.prop, if truthy_json online then "●" else "○") in
  let revoked := if truthy_json token_active then "" else " [revoked]" in
  let spend := if is_true (field "spend_available" d) && isFinite (Number_opt (field "spend" d))
               then "$" +:+ toFixed 2 (Number_opt (field "spend" d)) else "—" in
  Ok (dot +:+ " " +:+ padEnd 22 (String_ (or_else (field "name" d) (field "device_id" d))) +:+ " "
      +:+ padEnd 7 (String_ (or_else (field "os" d) (txt ""))) +:+ " " +:+ padEnd 14 (String_ (or_else (field "model" d) (txt "-"))) +:+ " "
      +:+ padStart 7 spend +:+ "  " +:+ String_ (field "device_id" d) +:+ revoked).
Definition fmtFleet (rows : option json) : res string :=
  match rows with
  | Some (JArr ((_ :: _) as l)) => join nl <$> mapM fleet_line l
  | Some (JStr s) => if truthy s then Throw (Error "rows.map is not a function") else Ok "(no devices)"
  | Some (JObj m) => if truthy_json (assoc "length" m) then Throw (Error "rows.map is not a function") else Ok "(no devices)"
  | _ => Ok "(no devices)"
  end.
Definition enrollHint (gatewayUrl code : string) : string := "hara enroll " +:+ strip_slash gatewayUrl +:+ " --code " +:+ code.
Definition USAGE : string := join nl [
  "hara-control admin";
  "  org create <name> [--type GROUP|COMPANY|DEPARTMENT|TEAM] [--parent id]   create an org unit (prints its id)";
  "  org tree <orgId>                                        show a unit's ancestors + subtree ids";
  "  fleet <orgId>                                           list devices (online · model · spend)";
  "  enroll <orgId> --person <personId> [--model m] [--ttl min]  mint an accountable enroll code";
  "  revoke <deviceId>                                       revoke a device's token";
  "  bundle <deviceId>                                       show the device's resolved role bundle";
  "env: HARA_CONTROL_URL (default http://localhost:4100) · HARA_CONTROL_ADMIN_KEY (or ./.env) · HARA_GATEWAY_URL"].
(** What follows the flag, when it is not the last argument. *)
Fixpoint flag (args : list string) (name : string) : option string :=
  match args with [] => None | x :: l => if (x =? "--" +:+ name)%string then head l else flag l name end.

Section main.
Context (e : env) (envFile : option (res string)) (JSON_parse : string → option json).
(** The answer to a request after the earlier ones. *)
Context (answer : list Call → Call → res (Z * string)).
Local Abbreviation Cli := (M Terminal).
Definition BASE : string := strip_slash (or_default (nullish (e "HARA_CONTROL_URL") "") "http://localhost:4100").
Definition adminKey : res string :=
  let key := nullish (e "HARA_CONTROL_ADMIN_KEY") "" in
  if truthy key then Ok key
  else match envFile with
       | Some text => text ← text; Ok (from_option (trim ∘ str) "" (head (filter (λ v, v ≠ []) (values "HARA_CONTROL_ADMIN_KEY" (lines text)))))
       | None => Ok ""
       end.
Definition say (out : bool) (line : string) : Cli unit := modify (λ s, {| sent := sent s; printed := printed s ++ [(out, line)] |}).
Definition log (line : string) : Cli unit := say true line.
Definition complain (line : string) : Cli Z := _ ← say false line; mret 0%Z.
Definition send (q : Call) : Cli (Z * string) := λ s, (answer (sent s) q, {| sent := sent s ++ [q]; printed := printed s |}).
Definition req (method path : string) (body : option json) : Cli (option json) :=
  key ← lift adminKey;
  reply ← send {| c_method := method; c_url := BASE +:+ path; c_key := key; c_body := body |};
  let '(status, text) := reply in
  _ ← guard_throw (negb ((200 <=? status)%Z && (status <=? 299)%Z))
        (Error ("HTTP " +:+ pretty status +:+ " " +:+ method +:+ " " +:+ path +:+ ": " +:+ str (slice_units 300 (chars text))));
  if truthy text then match JSON_parse text with Some v => mret (Some v) | None => raise (Error "Unexpected token") end
  else mret (Some (JObj [])).

(** The arguments that are there and not empty. *)
Definition arg (args : list string) (i : nat) : string := nullish (args !! i) "".
Definition given (args : list string) (name : string) : string := nullish (flag args name) "".
Definition field (k v : string) : list (string * json) := if truthy v then [(k, JStr v)] else [].
Definition org_create (rest : list string) : Cli Z :=
  org ← req "POST" "/admin/orgs" (Some (JObj ([("name", JStr (arg rest 1))] ++ field "type" (given rest "type") ++ field "parentId" (given rest "parent"))));
  i ← lift (get org "id"); name ← lift (get org "name"); type ← lift (get org "type"); parent ← lift (get org "parentId");
  _ ← log ("✓ org " +:+ String_ i +:+ "  (" +:+ String_ name +:+ ", " +:+ String_ type
           +:+ (if truthy_json parent then " ↳ " +:+ String_ parent else " · root") +:+ ")");
  mret 0%Z.
Definition ancestor_text (o : json) : res string :=
  name ← member o "name"; type ← member o "type"; Ok (String_ name +:+ "[" +:+ String_ type +:+ "]").
Definition org_tree (rest : list string) : Cli Z :=
  let i := encode_text (arg rest 1) in
  ancestors ← req "GET" ("/admin/orgs/" +:+ i +:+ "/ancestors") None;
  subtree ← req "GET" ("/admin/orgs/" +:+ i +:+ "/subtree") None;
  l ← lift (array ancestors); shown ← lift (mapM ancestor_text l);
  _ ← log ("ancestors (self→root): " +:+ join " → " shown);
  _ ← lift (get subtree "length"); ids ← lift (array subtree);
  _ ← log ("subtree ids (" +:+ pretty (length ids) +:+ "): " +:+ join ", " (map element ids));
  mret 0%Z.
Definition enroll (rest : list string) : Cli Z :=
  let person := given rest "person" in
  if negb (truthy (arg rest 0)) || negb (truthy person) then complain "usage: enroll <orgId> --person <personId> [--model m] [--ttl min]"
  else
    let ttl := given rest "ttl" in
    (* a number that is not finite is null in the body *)
    let minutes := if truthy ttl then [("ttlMinutes", match Number_str ttl with Num q => JNum q | _ => JNull end)] else [] in
    reply ← req "POST" "/admin/enroll-codes" (Some (JObj ([("orgId", JStr (arg rest 0))] ++ field "model" (given rest "model") ++ [("personId", JStr person)] ++ minutes)));
    code ← lift (get reply "code"); expiresAt ← lift (get reply "expiresAt");
    _ ← log ("✓ code " +:+ String_ code +:+ "  (expires " +:+ String_ expiresAt +:+ ")");
    _ ← log ("  " +:+ enrollHint (or_default (nullish (e "HARA_GATEWAY_URL") "") BASE) (String_ code));
    mret 0%Z.
Definition fleet (rest : list string) : Cli Z :=
  if negb (truthy (arg rest 0)) then complain "usage: fleet <orgId>"
  else
    rows ← req "GET" ("/admin/fleet?orgId=" +:+ encode_text (arg rest 0)) None;
    text ← lift (fmtFleet rows); _ ← log text; mret 0%Z.
Definition revoke (rest : list string) : Cli Z :=
  if negb (truthy (arg rest 0)) then complain "usage: revoke <deviceId>"
  else
    reply ← req "POST" ("/admin/devices/" +:+ encode_text (arg rest 0) +:+ "/revoke") None;
    revoked ← lift (get reply "revoked");
    _ ← log ("✓ revoked " +:+ String_ (nullish_or revoked (Some (JNum 0))) +:+ " token(s) for " +:+ arg rest 0); mret 0%Z.
Definition bundle (rest : list string) : Cli Z :=
  if negb (truthy (arg rest 0)) then complain "usage: bundle <deviceId>"
  else
    v ← req "GET" ("/admin/devices/" +:+ encode_text (arg rest 0) +:+ "/bundle") None;
    _ ← log (from_option (JSON_pretty "") "undefined" v); mret 0%Z.
Definition org (rest : list string) : Cli Z :=
  if (arg rest 0 =? "create")%string && truthy (arg rest 1) then org_create rest
  else if (arg rest 0 =? "tree")%string && truthy (arg rest 1) then org_tree rest
  else (_ ← log "usage: org create <name> [--type T] [--parent id]  |  org tree <orgId>"; mret 0%Z).
(** The exit code. *)
Definition main (argv : list string) : Cli Z :=
  let cmd := arg argv 0 in let rest := drop 1 argv in
  key ← (if truthy cmd && negb (cmd =? "help")%string then lift adminKey else mret "-");
  if negb (truthy key) then
    _ ← say false "✗ no admin key — set HARA_CONTROL_ADMIN_KEY (or run where ./.env has it)"; mret 1%Z
  else if (cmd =? "org")%string then org rest
  else if (cmd =? "fleet")%string then fleet rest
  else if (cmd =? "enroll")%string then enroll rest
  else if (cmd =? "revoke")%string then revoke rest
  else if (cmd =? "bundle")%string then bundle rest
  else (_ ← log USAGE; mret 0%Z).
Definition run (argv : list string) : Cli Z :=
  try_catch (main argv) (λ er, _ ← say false ("✗ " +:+ exn_message er); mret 1%Z).
End main.

(** ** The first account *)

(** [s.replace(/^['"]|['"]$/g, "")] *)
Definition is_quote (c : ascii) : bool := Ascii.eqb c "'" || Ascii.eqb c quote_char.
Definition drop_quote (l : list ascii) : list ascii := match l with c :: l' => if is_quote c then l' else l | [] => [] end.
Definition unquoted (s : string) : string := str (reverse (drop_quote (reverse (drop_quote (chars s))))).
Definition load_line (e : env) (line : string) : env :=
  let t := trim line in
  if negb (truthy t) || startsWith "#" t then e
  else
    let '(k, rest) := EnvFile.span (λ c, negb (Ascii.eqb c "=")) (chars t) in
    match rest with
    | _ :: v => let k := trim (str k) in if isSome (e k) then e else λ x, if (x =? k)%string then Some (unquoted (trim (str v))) else e x
    | [] => e
    end.
Definition loadDotEnv (e : env) (envFile : option (res string)) : res env :=
  if truthy (nullish (e "DATABASE_URL") "") then Ok e
  else match envFile with Some text => text ← text; Ok (fold_left load_line (EnvFile.file_lines text) e) | None => Ok e end.

Section superadmin.
Context (scrypt : string → list Z → nat → list Z) (others : nat → AuthState → AuthState) (fails : nat → option exn).
Local Abbreviation State := (Session AuthState).
(** What the script does: leaving the process with an error is an error value. [i], [salt] and [now] are drawn. *)
Definition create_superadmin (e : env) (envFile : option (res string)) (argv : list string) (i : string) (salt : list Z) (now : Z) : M State AdminRow :=
  e ← lift (loadDotEnv e envFile);
  let email := nullish (flag argv "email") "" in let password := nullish (flag argv "password") "" in
  _ ← guard_throw (negb (truthy email) || negb (truthy password)) (Error "usage: tsx cli/create-superadmin.ts --email <e> --password <p>");
  _ ← guard_throw (String.length password <? 12) (Error "password must be ≥12 chars");
  _ ← guard_throw (negb (truthy (nullish (e "DATABASE_URL") ""))) (Error "DATABASE_URL not set (export it or put it in ./.env)");
  count ← call others fails (gets (length ∘ users));
  _ ← guard_throw (0 <? count) (Error "AdminUser table already has rows — use /admin/users to add more, not this CLI");
  call others fails (create_user {| a_id := i; a_email := toLowerCase email; a_passwordHash := hashPassword scrypt password salt;
    a_role := Guard.SUPERADMIN; a_orgId := None; a_disabledAt := None; a_totpSecret := None; a_createdAt := now |}).
End superadmin.

(** * Arguments stay in their place *)

(** [decodeURIComponent], on the bytes. *)
Fixpoint decode_text (l : list ascii) : option (list ascii) :=
  match l with
  | "%"%char :: a :: b :: l' =>
      match digit_val a, digit_val b with Some x, Some y => (λ r, ascii_of_nat (16 * x + y) :: r) <$> decode_text l' | _, _ => None end
  | c :: l' => (λ r, c :: r) <$> decode_text l'
  | [] => Some []
  end.
(** A part of a path or of a query without a character that has a meaning there. *)
Definition segment_char (c : ascii) : bool := is_alnum c || is_char "-_.!~*'()%" c.
Lemma chars_join_map (f : ascii → string) l : chars (join "" (map f l)) = l ≫= (λ c, chars (f c)).
Proof.
  induction l as [|c l IH]; [done|]. cbn [map]. destruct l as [|d l]; [by cbn; rewrite app_nil_r|].
  change (join "" (f c :: map f (d :: l))) with (f c +:+ "" +:+ join "" (map f (d :: l))). rewrite !chars_app, IH. done.
Qed.
Lemma encode_byte_spec c : Forall (λ d, segment_char d = true) (chars (encode_byte c)) ∧ ∀ l, decode_text (chars (encode_byte c) ++ l) = (λ r, c :: r) <$> decode_text l.
Proof. destruct c as [[] [] [] [] [] [] [] []]; (split; [by repeat constructor|reflexivity]). Qed.
Lemma encode_text_plain s : Forall (λ c, segment_char c = true) (chars (encode_text s)).
Proof. unfold encode_text. rewrite chars_join_map. apply Forall_bind, Forall_true. intros c. apply encode_byte_spec. Qed.
Lemma decode_encode s : decode_text (chars (encode_text s)) = Some (chars s).
Proof.
  unfold encode_text. rewrite chars_join_map. induction (chars s) as [|c l IH]; [done|]. cbn [mbind list_bind].
  by rewrite (proj2 (encode_byte_spec c)), IH.
Qed.

(** The requests of the program: the paths, with an encoded argument. *)
Inductive command_path (argv : list string) : string → Prop :=
  | path_orgs : command_path argv "/admin/orgs"
  | path_codes : command_path argv "/admin/enroll-codes"
  | path_ancestors a : a ∈ argv → command_path argv ("/admin/orgs/" +:+ encode_text a +:+ "/ancestors")
  | path_subtree a : a ∈ argv → command_path argv ("/admin/orgs/" +:+ encode_text a +:+ "/subtree")
  | path_fleet a : a ∈ argv → command_path argv ("/admin/fleet?orgId=" +:+ encode_text a)
  | path_revoke a : a ∈ argv → command_path argv ("/admin/devices/" +:+ encode_text a +:+ "/revoke")
  | path_bundle a : a ∈ argv → command_path argv ("/admin/devices/" +:+ encode_text a +:+ "/bundle").
#[local] Hint Constructors command_path : core.

Section confined.
Context (e : env) (envFile : option (res string)) (JSON_parse : string → option json) (answer : list Call → Call → res (Z * string)) (argv : list string).
(** A request with the administrator's key, to a path of the program. *)
Definition confined (q : Call) : Prop :=
  adminKey e envFile = Ok (c_key q) ∧ truthy (c_key q) = true ∧ ∃ path, command_path argv path ∧ c_url q = BASE e +:+ path.
Definition keeps {A} (m : M Terminal A) : Prop := ∀ s, Forall confined (sent s) → Forall confined (sent (m s).2).
Lemma keeps_bind {A B} (m : M Terminal A) (k : A → M Terminal B) : keeps m → (∀ a, keeps (k a)) → keeps (m ≫= k).
Proof. intros Hm Hk s Hs. unfold mbind, M_bind. specialize (Hm s Hs). destruct (m s) as [[a|er] s1]; [by apply Hk|done]. Qed.
Lemma keeps_ret {A} (a : A) : keeps (mret a).
Proof. by intros s. Qed.
Lemma keeps_lift {A} (r : res A) : keeps (lift r).
Proof. by intros s. Qed.
Lemma keeps_known {A B} (a : A) (k : A → M Terminal B) : keeps (k a) → keeps (lift (Ok a) ≫= k).
Proof. done. Qed.
Lemma keeps_say out line : keeps (say out line).
Proof. by intros s. Qed.
Lemma keeps_complain line : keeps (complain line).
Proof. by intros s. Qed.
Lemma keeps_throwing {A} er : keeps (raise (A := A) er).
Proof. by intros s. Qed.
Lemma keeps_guard b er : keeps (guard_throw b er).
Proof. intros s. by destruct b. Qed.
Lemma keeps_if {A} (b : bool) (m1 m2 : M Terminal A) : (b = true → keeps m1) → (b = false → keeps m2) → keeps (if b then m1 else m2).
Proof. destruct b; auto. Qed.
Lemma arg_given i : truthy (arg (drop 1 argv) i) = true → arg (drop 1 argv) i ∈ argv.
Proof.
  unfold arg. rewrite lookup_drop. destruct (argv !! (1 + i)) as [x|] eqn:Hx; [|done]. intros _. by apply list_elem_of_lookup_2 in Hx.
Qed.

Context (key : string) (Hkey : adminKey e envFile = Ok key) (Htruthy : truthy key = true).
Lemma keeps_req method path body : command_path argv path → keeps (req e envFile JSON_parse answer method path body).
Proof.
  intros Hp. unfold req. rewrite Hkey. apply keeps_known, keeps_bind.
  - intros s Hs. cbn. apply Forall_app_2; [done|]. apply Forall_singleton. split_and!; [done|done|by exists path].
  - intros [status text]. apply keeps_bind; [apply keeps_guard|]. intros u. apply keeps_if; intros _; [|apply keeps_ret].
    destruct (JSON_parse text); [apply keeps_ret|apply keeps_throwing].
Qed.
Ltac keeps_step :=
  first [apply keeps_req; solve [eauto using arg_given]|apply keeps_lift|apply keeps_say|apply keeps_ret|apply keeps_complain
        |apply keeps_bind; [|intros ?]|apply keeps_if; intros ?].
Local Abbreviation rest := (drop 1 argv).
Lemma keeps_org : keeps (org e envFile JSON_parse answer rest).
Proof.
  unfold org, org_create, org_tree, log. apply keeps_if; [|intros _; apply keeps_if].
  - intros _. repeat keeps_step.
  - intros [_ Ha]%andb_prop. repeat keeps_step.
  - intros _. repeat keeps_step.
Qed.
Ltac keeps_command := unfold log; apply keeps_if; intros Ha; [apply keeps_complain|]; try apply orb_false_iff in Ha as [Ha _]; apply negb_false_iff in Ha; repeat keeps_step.
Lemma keeps_fleet : keeps (fleet e envFile JSON_parse answer rest).
Proof. unfold fleet. keeps_command. Qed.
Lemma keeps_enroll : keeps (enroll e envFile JSON_parse answer rest).
Proof. unfold enroll. keeps_command. Qed.
Lemma keeps_revoke : keeps (revoke e envFile JSON_parse answer rest).
Proof. unfold revoke. keeps_command. Qed.
Lemma keeps_bundle : keeps (bundle e envFile JSON_parse answer rest).
Proof. unfold bundle. keeps_command. Qed.
End confined.

Lemma keeps_main e envFile JSON_parse answer argv : keeps e envFile argv (main e envFile JSON_parse answer argv).
Proof.
  unfold main. set (cmd := arg argv 0). destruct (truthy cmd && negb (cmd =? "help")%string) eqn:Hcmd.
  - destruct (adminKey e envFile) as [key|er] eqn:Hkey; [|by intros s]. apply keeps_known. destruct (truthy key) eqn:Htruthy; [|by intros s].
    cbn [negb].
    do 5 (apply keeps_if; intros _; [by eauto using keeps_org, keeps_fleet, keeps_enroll, keeps_revoke, keeps_bundle|]). by intros s.
  - assert (∀ c, c ≠ "help" → truthy c = true → (cmd =? c)%string = false) as Hno.
    { intros c Hc Ht. apply String.eqb_neq. intros ->. rewrite Ht in Hcmd. apply String.eqb_neq in Hc. by rewrite Hc in Hcmd. }
    rewrite !Hno by done. by intros s.
Qed.

(** whatever is typed and whatever the service answers, every request of the program carries the administrator's key,
    which is not empty, and goes to one of seven paths of the service, where an argument is at most one encoded segment
    or query value: it has no character with a meaning in a URL, and the service decodes it to the argument. *)
Theorem cli_requests_confined e envFile JSON_parse answer argv q :
  q ∈ sent (run e envFile JSON_parse answer argv {| sent := []; printed := [] |}).2 →
  adminKey e envFile = Ok (c_key q) ∧ truthy (c_key q) = true ∧
  ∃ path, command_path argv path ∧ c_url q = BASE e +:+ path ∧
    ∀ a, Forall (λ c, segment_char c = true) (chars (encode_text a)) ∧ decode_text (chars (encode_text a)) = Some (chars a).
Proof.
  intros Hq. assert (Forall (confined e envFile argv) (sent (run e envFile JSON_parse answer argv {| sent := []; printed := [] |}).2)) as H.
  { unfold run, try_catch. pose proof (keeps_main e envFile JSON_parse answer argv {| sent := []; printed := [] |} (Forall_nil_2 _)) as Hm.
    by destruct (main _ _ _ _ _ _) as [[code|er] s]. }
  rewrite Forall_forall in H. destruct (H q Hq) as (Hk & Ht & path & Hp & Hurl). split_and!; [done..|]. exists path. split_and!; [done..|].
  intros a. split; [apply encode_text_plain|apply decode_encode].
Qed.
Definition demo_env : env := λ k, if (k =? "HARA_CONTROL_ADMIN_KEY")%string then Some "secret" else None.
Definition demo_revoke : M Terminal Z := run demo_env None (λ _, None) (λ _ _, Ok (204%Z, "")) ["revoke"; "a/../b?x"].
Lemma cli_requests_confined_witness :
  adminKey demo_env None = Ok "secret" ∧ ∃ path, command_path ["revoke"; "a/../b?x"] path ∧
    "http://localhost:4100/admin/devices/a%2F..%2Fb%3Fx/revoke" = BASE demo_env +:+ path.
Proof.
  destruct (cli_requests_confined demo_env None (λ _, None) (λ _ _, Ok (204%Z, "")) ["revoke"; "a/../b?x"]
    {| c_method := "POST"; c_url := "http://localhost:4100/admin/devices/a%2F..%2Fb%3Fx/revoke"; c_key := "secret"; c_body := None |})
    as (H1 & _ & path & H2 & H3 & _); [|split; [exact H1|by exists path]].
  vm_compute. left.
Defined.
Example demo_revoke_lines : (demo_revoke {| sent := []; printed := [] |}).1 = Ok 0%Z ∧
  printed (demo_revoke {| sent := []; printed := [] |}).2 = [(true, "✓ revoked 0 token(s) for a/../b?x")].
Proof. split; vm_compute; reflexivity. Qed.
(** A mistyped lifetime is sent as null, which the service takes for none: the code gets the default lifetime. *)
Example mistyped_lifetime : c_body <$> sent (run demo_env None (λ _, None) (λ _ _, Ok (204%Z, "")) ["enroll"; "o1"; "--person"; "p1"; "--ttl"; "5min"] {| sent := []; printed := [] |}).2 =
  [Some (JObj [("orgId", JStr "o1"); ("personId", JStr "p1"); ("ttlMinutes", JNull)])].
Proof. vm_compute. reflexivity. Qed.
Example fleet_sample : fmtFleet (Some (JArr [
    JObj [("device_id", JStr "d1"); ("name", JStr "jeff-mbp"); ("os", JStr "darwin"); ("online", JBool true); ("token_active", JBool true);
          ("model", JStr "glm-5"); ("spend", JNum (12 # 10)); ("spend_available", JBool true)];
    JObj [("device_id", JStr "d2"); ("os", JStr "linux"); ("model", JStr ""); ("spend", JNull)]])) =
  Ok ("● jeff-mbp               darwin  glm-5            $1.20  d1" +:+ nl +:+ "○ d2                     linux   -                    —  d2 [revoked]").
Proof. vm_compute. reflexivity. Qed.

(** * The first account is that of the service *)

Lemma nullish_some {A} (a b : A) : nullish (Some a) b = a.
Proof. done. Qed.
(** the script and the service's bootstrap are the same operation: with the two values given and a database
    configured, from every state, under the same actions of others and the same failures, they leave the same accounts,
    and one succeeds exactly when the other does, with the same account. *)
Theorem create_superadmin_equiv scrypt others fails e e' envFile argv i salt now email password s :
  loadDotEnv e envFile = Ok e' → truthy (nullish (e' "DATABASE_URL") "") = true →
  flag argv "email" = Some email → flag argv "password" = Some password → truthy email = true → truthy password = true →
  let script := create_superadmin scrypt others fails e envFile argv i salt now s in
  let service := bootstrapSuperadmin scrypt others fails i salt email password now s in
  script.2 = service.2 ∧ ∀ r, script.1 = Ok r ↔ service.1 = Ok r.
Proof.
  intros Hload Hdb He Hp Htruthy Htp script service. subst script service.
  assert (create_superadmin scrypt others fails e envFile argv i salt now s = (_ ← guard_throw (String.length password <? 12) (Error "password must be ≥12 chars");
    count ← call others fails (gets (length ∘ users)); _ ← guard_throw (0 <? count) (Error "AdminUser table already has rows — use /admin/users to add more, not this CLI");
    call others fails (create_user {| a_id := i; a_email := toLowerCase email; a_passwordHash := hashPassword scrypt password salt;
      a_role := Guard.SUPERADMIN; a_orgId := None; a_disabledAt := None; a_totpSecret := None; a_createdAt := now |})) s) as ->.
  { unfold create_superadmin, lift, mbind, M_bind. rewrite Hload, He, Hp, Hdb, !nullish_some, Htruthy, Htp. by destruct (String.length password <? 12). }
  unfold bootstrapSuperadmin, too_short, mbind, M_bind, guard_throw. change MIN_PASSWORD_LEN with 12.
  destruct (String.length password <? 12); [done|]. cbn [fst snd mret M_ret].
  destruct (call others fails (gets (length ∘ users)) s) as [[n|er] s1]; [|done]. by destruct (0 <? n).
Qed.
Definition no_accounts : Session AuthState := {| db := {| users := []; org_ids := []; failures := ∅ |}; calls := 0 |}.
Definition database_env : env := λ k, if (k =? "DATABASE_URL")%string then Some "postgres://db" else None.
Lemma create_superadmin_equiv_witness :
  let argv := ["--email"; "Me@Example"; "--password"; "twelve-chars"] in
  map a_email (users (db (create_superadmin demo_scrypt alone no_fault database_env None argv "u1" [1%Z] 5 no_accounts).2)) = ["me@example"] ∧
  (create_superadmin demo_scrypt alone no_fault database_env None argv "u1" [1%Z] 5 no_accounts).2 =
    (bootstrapSuperadmin demo_scrypt alone no_fault "u1" [1%Z] "Me@Example" "twelve-chars" 5 no_accounts).2.
Proof.
  intros argv. split; [vm_compute; reflexivity|].
  refine (proj1 (create_superadmin_equiv demo_scrypt alone no_fault database_env database_env None argv "u1" [1%Z] 5 "Me@Example" "twelve-chars"
    no_accounts eq_refl eq_refl eq_refl eq_refl eq_refl eq_refl)).
Defined.
(** The service validates that an address is one, here and at login; the script takes the next argument, whatever it is.
    The account it creates cannot log in, and there is no second bootstrap. *)
Example email_is_the_next_flag :
  let '(r, s) := create_superadmin demo_scrypt alone no_fault database_env None ["--email"; "--password"; "twelve-chars-long"] "u1" [1%Z] 5 no_accounts in
  map a_email (users (db s)) = ["--password"] ∧
  (bootstrapSuperadmin demo_scrypt alone no_fault "u2" [2%Z] "me@example.com" "twelve-chars-long" 6 s).1 =
    Throw (ConflictException "superadmin already exists — use /admin/users instead").
Proof. vm_compute. split; reflexivity. Qed.
